(* ===== verification/_CoqProject ===== *)
-Q . S2P
Prelude.v
KService.v
Timer.v
KState.v
KInv.v
Sched.v
Kernel.v
KTimer.v
Object.v
Thread.v
ThreadSpec.v
Example.v
SchedProps.v
ThreadProps.v
Ipc.v
IpcSpec.v
IpcExample.v
RtList.v
Clock.v
ClockProps.v
Sem.v
SemProps.v
Mutex.v
MutexSpec.v
MutexProps.v
Event.v
EventProps.v
Ring.v
Mailbox.v
Transfer.v
MailboxProps.v
MsgQueue.v
MqPool.v
MsgQueueProps.v
RingBuffer.v
RingBufferProps.v
Page.v
PageProps.v
Idle.v
IdleProps.v
Boot.v
BootProps.v
KMem.v
KMemProps.v
Slab.v
SlabInv.v
SlabOps.v
SlabProps.v
Format.v
FormatSpec.v
FormatOps.v
FormatProps.v
ObjectProps.v
SList.v
RingBlk.v
RingBlkProps.v
Device.v
DeviceProps.v
