(* ===== verification/Prelude.v ===== *)
(** * The RT-Thread kernel of the K210 board support package

    This library models the kernel core of the repository, the RT-Thread
    real-time kernel in the SMP configuration of [rtconfig.h] (two CPUs, 32
    priorities, 1000 ticks per second, hard timers only), and proves what its
    parts promise: which thread runs, who waits and who is woken, in what order
    values travel, that counters and lists stay consistent, and where the code
    does not do what it says.

    ** The program and the files

    Paths are below [src/rt-thread/].

    - [include/rtdef.h]: [struct rt_thread], [rt_cpu], [rt_timer] and the IPC
      objects.  [KState.v] has a Record for each, field for field, and the
      Record [kstate] of the whole kernel.  Memory is a function from addresses
      to structures; the head of a doubly linked list is mapped to the sequence
      of threads linked behind it.
    - [include/rtservice.h]: the pointer operations on these lists.  [RtList.v]
      shows that on memory that represents the lists of a [kstate] they do what
      the sequence operations of [KState.v] and [Ipc.v] do.
    - [src/cpu.c]: the recursive CPU lock with its counters, in [KState.v]; its
      depth and the states up to the lock are in [KInv.v].
    - [src/scheduler.c]: ready queues with bitmaps, [rt_schedule], the switch at
      interrupt exit, critical sections, in [Sched.v]; properties in
      [SchedProps.v].  The find-first-set routine of [src/kservice.c] it uses
      is in [KService.v].
    - [src/timer.c]: the timer list in [Timer.v], the operations on the kernel
      state in [KTimer.v] and [Object.v]; the tick handler [rt_timer_check]
      with [src/clock.c] and [src/irq.c] in [Clock.v], properties in
      [ClockProps.v].
    - [src/object.c]: types and containers of objects, in [Object.v]; histories
      of its calls and the registry they refine in [ObjectProps.v].
    - [src/device.c], with [errno] and the choice of the console of
      [src/kservice.c]: the device framework, in [Device.v] and
      [DeviceProps.v].  The state is a [kstate] with the devices beside it; a
      driver is a parameter, a Record of functions on that state.
    - [src/thread.c]: the life of a thread, in [Thread.v]; what each operation
      does to the state in [ThreadSpec.v], properties in [ThreadProps.v].
    - [src/ipc.c]: waiting lists and the shape of a blocking call in [Ipc.v] and
      [IpcSpec.v]; semaphores in [Sem.v] and [SemProps.v]; mutexes in
      [Mutex.v], [MutexSpec.v] and [MutexProps.v]; event sets in [Event.v] and
      [EventProps.v]; mailboxes in [Mailbox.v] and [MailboxProps.v]; message
      queues in [MsgQueue.v], [MqPool.v] and [MsgQueueProps.v].  What mailboxes
      and message queues share is in [Transfer.v], the ring arithmetic of
      mailboxes and ring buffers in [Ring.v].
    - [components/drivers/src/ringbuffer.c]: the byte ring buffer of the device
      drivers, in [RingBuffer.v] and [RingBufferProps.v].
    - [components/drivers/src/ringblk_buf.c]: the ring block buffer, in
      [RingBlk.v] and [RingBlkProps.v]; the singly linked lists of
      [include/rtservice.h] it uses, at the level of pointers, in [SList.v].
    - [src/idle.c]: the cleanup of finished threads, the idle loop and its hooks,
      in [Idle.v] and [IdleProps.v].
    - [src/components.c] and [libcpu/risc-v/k210/cpuport_smp.c]: the start of the
      kernel and of the second CPU, with the creation of the idle threads, in
      [Boot.v]; [BootProps.v] shows that it establishes the kernel invariant.
    - [src/kservice.c]: the memory and string functions, on memory as bytes, in
      [KMem.v] and [KMemProps.v]; the formatted printing on the same memory in
      [Format.v].  [FormatSpec.v] renders a format on lists, [FormatOps.v] shows
      that the loops of the code write that text, [FormatProps.v] has the
      properties.
    - [src/slab.c]: the heap, on its own state and not on a [kstate].  The page
      allocator is in [Page.v] and [PageProps.v]; the zones of small chunks, the
      operations [rt_malloc], [rt_calloc], [rt_realloc], [rt_free] and the
      aligned allocations of [kservice.c] above it are in [Slab.v], their
      invariant in [SlabInv.v], what each does to it in [SlabOps.v], histories
      of calls and the properties in [SlabProps.v].
    - [Example.v] and [IpcExample.v] hold the concrete kernel state on which the
      theorems are instantiated.

    A definition has the name of the C function it models.  A function that
    blocks is cut at its call of [rt_schedule]: [f_enter] is the part before
    the call, [f_resumed] the part after it, which the thread runs when it has
    the CPU again, and [f] the composition ([then_resumed], [run_flow]).

    ** How code is modelled

    A function is a term of the monad [M kstate]: state passing with failure.
    Failure stands for a failed [RT_ASSERT], an access through a pointer that
    designates nothing, and a spin lock that is taken already; [wp m Q s] is
    total correctness, so every theorem [wp f Q s] includes that [f] has a
    result from [s].  Integers are [Z] with the wrap-around of their C type
    written out ([u8], [u16], [u32], [u64], [i32], [i16]).

    The code above the scheduler is written once, against the interface
    [Kernel] (Kernel.v): lock, unlock, insert into and remove from the ready
    queues.  Its instance [Smp me] is the code of [cpu.c] and [scheduler.c] on
    CPU [me]; its instance [Big me] has no lock and makes each queue operation
    one step.  [erases] relates the two, every operation [f] has an erasure
    lemma [f_er] in the database [er], and [lift] (ThreadSpec.v) transfers what
    is shown of the abstract run to the SMP run: the results agree, the states
    agree up to the lock ([keq]), the lock has its depth back ([lock_depth])
    and the counters of the other threads are untouched ([parked_ok]).

    The kernel invariant [kinv] (ThreadSpec.v) says: every thread is in at most
    one list, and in the one its status calls for; the priority bitmaps are
    those of the ready queues; running threads and CPUs designate each other;
    the timer list has no duplicates and holds active timers of suspended
    threads; a thread that is not closed owns its timer.  The start of the
    kernel establishes it and every operation is shown to keep it.

    ** The properties

    - Start: [rtthread_startup] and [secondary_cpu_c_start] end in a well-formed
      kernel with the main thread and an idle thread running.
    - Scheduling: [rt_schedule] and the switch at interrupt exit leave the best
      thread running that the CPU may run; a thread whose time slice is over
      goes behind its equals; nothing is switched in interrupts and critical
      sections.
    - Threads: sleeping, timing out, suspending and resuming, starting, exiting,
      changing priority; two findings on [rt_thread_yield] and
      [rt_thread_delay_until].
    - Ticks and timers: the tick handler ends with no timer due and expires
      exactly those that were, but for the timers its timeout functions touch,
      under a wrapping tick counter; a tick is charged to the running thread.
    - Waiting lists: FIFO and priority order; waking all.
    - Semaphores, mutexes, event sets, mailboxes, message queues: refinement
      of an abstract object by every case of every operation, and invariants
      over histories of calls and resumed calls: no message or node is lost or
      made up, mutual exclusion, FIFO order, nobody waits for what is there.  The
      overflow of the 16-bit value of a semaphore is a step of its abstract
      object, and conservation counts the 65536 units it loses; the overflow of
      the 8-bit depth of a mutex is a case of its refinement by itself.  A
      waiter of a mutex that times out leaves the owner the priority it lent.
    - Idle thread: finished threads are reclaimed, each once, in a bounded number
      of rounds; a deadlock with critical sections of the other CPU.
    - Heap: in every history of calls each page is in one block, and no byte is
      in two of the blocks held, the zone headers, the free chunks, the free
      pages and the table of page uses; [rt_realloc] keeps the bytes of the
      block, and the whole heap when it fails; an aligned allocation is given
      back as it was taken.
    - Memory and strings: the copies and the fill by words equal those by bytes;
      searching; findings on [rt_strncmp] and [rt_strnlen].
    - Formatted printing: [rt_vsnprintf] writes the rendered text as far as it
      fits and nothing else; numbers below 2^31 - 48 read back as they were
      printed, or their first digits from a short buffer; findings on negative numbers, octal numbers, a precision of 0 and on [rt_kprintf].
    - Ring buffer: equivalence with a bounded queue over histories of calls, the
      forced put included, which loses all bytes in one case.
    - Ring block buffer: over histories of calls that ask for no more than the
      buffer the blocks in use stay in the buffer and apart; the length of the next queue is the one taken; findings
      on empty buffers and on queues of blocks.
    - Objects: every history of calls in which an object enters only while it
      is in no container refines a registry and ends in a typed state.
    - Devices: refinement of devices with a count of users; registration round
      trip; findings on [rt_device_destroy] and on a close that fails.
    - Lists: refinement of the sequences by the pointers.

    ** Functions that are parameters

    Code outside of these files enters through contracts, each with an instance.

    - Cleanup functions and idle hooks ([cleanup_ok], [hook_ok] of
      [IdleProps.v]): they return, leave the locks and a well-formed kernel, and
      make, finish and remove no thread; they may free memory, release
      semaphores, wake threads.
    - Timeout functions ([user_ok] of [ClockProps.v]): they return in the
      interrupt, keep the kernel, the timer list and the tick well formed, start
      no timer that is due at once nor their own, and change only the timers and
      the threads of a footprint the theorem is stated for.
    - Drivers ([drivers_ok] of [DeviceProps.v]): they return where their needs
      hold, leave the count and the marks of their own device to the framework
      but for the exceptions seen in [serial.c], [can.c], [audio.c] and
      [hwtimer.c], and keep a relation on every other device, which the theorem
      hands on.

    ** Bounds and fuel

    Loops whose end is not structural take a number of rounds: the tick
    handler (enough: the number of timers in the list), the walks over linked
    lists (their length), the reset of a message queue (the number of its
    messages), waking all waiters (their number).  The theorems show that
    these bounds suffice.  A blocking call that is resumed and finds its
    object taken again may block again; the fuel of [run_flow] bounds how often
    that happens without the thread losing the CPU.  The lock depth is bounded
    by the 16-bit counters, the timer window by half the tick range.  The heap
    has at most 2 GB, so that the [int] page arithmetic of [slab.c] does not
    overflow; its fuel is the number of its pages, which bounds the walks over
    the free pages and over the zones of a size.  A memory function has more
    fuel than it handles bytes, the formatted printing more than the characters
    of the format and of the text together.  Widths and precisions are below
    2^29, so that the [int] arithmetic of [rt_vsnprintf] does not overflow.

    ** What is not modelled

    - Stacks, entry points, the register switch itself, hooks, debug output.
    - Names of objects are values of a parameter of the searches; the blocks
      the heap returns are arguments of the creating functions.
    - Interleavings: an operation runs from a state to a state; other CPUs and
      interrupts act between operations (and, for blocking calls, between
      [f_enter] and [f_resumed]), as the CPU lock makes them.  The spin lock is
      a flag; a thread that would spin has no result.
    - The uniprocessor code, soft timers, signals and memory pools, which this
      configuration compiles out; the data queues, completions, work queues,
      wait queues and pipes of the device drivers; the output of [rt_kprintf]
      without a console device; the shell, file systems, network, drivers, and
      the third-party packages.

    This file holds the integer types, the monad with its rules, and lemmas on
    lists and bits. *)
From Stdlib Require Export ZArith Lia Sorting.Sorted.
From stdpp Require Export prelude gmap.

#[global] Open Scope Z_scope.

(** * Fixed-width integers

    A C integer is a [Z] inside the range of its type; the conversions
    write out the wrap-around of the unsigned types and the two's complement
    reading of the signed ones. *)
Definition u8 (z : Z) : Z := z mod 2 ^ 8.
Definition u16 (z : Z) : Z := z mod 2 ^ 16.
Definition u32 (z : Z) : Z := z mod 2 ^ 32.
Definition u64 (z : Z) : Z := z mod 2 ^ 64.
Definition i32 (z : Z) : Z := (z + 2 ^ 31) mod 2 ^ 32 - 2 ^ 31.
Definition i16 (z : Z) : Z := (z + 2 ^ 15) mod 2 ^ 16 - 2 ^ 15.

(** Configuration and alignment ([rtconfig.h], [rtdef.h]). *)
Definition RT_ALIGN_SIZE : Z := 8.
Definition RT_ALIGN_DOWN (size align : Z) : Z := Z.land size (Z.lnot (align - 1)).

(** * A state monad with failure

    [None] stands for a failed [RT_ASSERT] or an access through a pointer
    that designates no object: the C code has no further behaviour there. *)
Definition M (S A : Type) : Type := S -> option (A * S).

#[global] Instance M_ret {S} : MRet (M S) := fun A a s => Some (a, s).
#[global] Instance M_bind {S} : MBind (M S) := fun A B k m s =>
  match m s with Some (a, s') => k a s' | None => None end.

Definition get {S} : M S S := fun s => Some (s, s).
Definition modify {S} (f : S -> S) : M S unit := fun s => Some (tt, f s).
Definition fail {S A} : M S A := fun _ => None.
Definition assertM {S} (b : bool) : M S unit := if b then mret tt else fail.
Definition ofopt {S A} (o : option A) : M S A :=
  match o with Some a => mret a | None => fail end.

(** Total correctness: [m] has a result from [s], and the result satisfies
    the postcondition. *)
Definition wp {S A} (m : M S A) (Q : A -> S -> Prop) (s : S) : Prop :=
  match m s with Some (a, s') => Q a s' | None => False end.

Section wp_rules.
Context {S : Type}.
Implicit Types s : S.

Lemma wp_ret {A} (a : A) Q s : Q a s -> wp (mret a) Q s.
Proof. done. Qed.

Lemma wp_bind {A B} (m : M S A) (k : A -> M S B) Q s :
  wp m (fun a s' => wp (k a) Q s') s -> wp (mbind k m) Q s.
Proof. unfold wp, mbind, M_bind. by destruct (m s) as [[a s']|]. Qed.

Lemma wp_bind_inv {A B} (m : M S A) (k : A -> M S B) Q s :
  wp (mbind k m) Q s -> wp m (fun a s' => wp (k a) Q s') s.
Proof. unfold wp, mbind, M_bind. by destruct (m s) as [[a s']|]. Qed.

Lemma wp_mono {A} (m : M S A) (P Q : A -> S -> Prop) s :
  wp m P s -> (forall a s', P a s' -> Q a s') -> wp m Q s.
Proof. unfold wp. destruct (m s) as [[a s']|]; [eauto|done]. Qed.

(** The final state of a run that is known to end. *)
Lemma wp_final {A} (m : M S A) (P : S -> Prop) s d :
  wp m (fun _ s' => P s') s -> P (match m s with Some (_, s') => s' | None => d end).
Proof. unfold wp. by destruct (m s) as [[a s']|]. Qed.

Lemma wp_get Q s : Q s s -> wp (@get S) Q s.
Proof. done. Qed.

Lemma wp_modify f Q s : Q tt (f s) -> wp (modify f) Q s.
Proof. done. Qed.

Lemma wp_assert b Q s : b = true -> Q tt s -> wp (assertM b) Q s.
Proof. by intros ->. Qed.

Lemma wp_ofopt {A} (o : option A) a Q s :
  o = Some a -> Q a s -> wp (ofopt o) Q s.
Proof. by intros ->. Qed.

Lemma wp_when (b : bool) (m : M S unit) Q s :
  (b = true -> wp m Q s) -> (b = false -> Q tt s) ->
  wp (if b then m else mret tt) Q s.
Proof. destruct b; intros H1 H2; [by apply H1|by apply H2]. Qed.

Lemma wp_and {A} (m : M S A) (P Q : A -> S -> Prop) s :
  wp m P s -> wp m Q s -> wp m (fun a s' => P a s' /\ Q a s') s.
Proof. unfold wp. destruct (m s) as [[a s']|]; [eauto|done]. Qed.

(** A weakest precondition that holds names the result of the run. *)
Lemma wp_run {A} (m : M S A) Q s :
  wp m Q s <-> exists a s', m s = Some (a, s') /\ Q a s'.
Proof.
  unfold wp. split.
  - destruct (m s) as [[a s']|]; [eauto|done].
  - by intros (a & s' & -> & H).
Qed.
End wp_rules.

(** One step of symbolic execution of a monadic body; a component adds the
    rules of its own primitives by redefining [wp_hook]. *)
Ltac wp_hook := fail.
Ltac wp_step :=
  lazymatch goal with
  | |- wp (mbind _ _) _ _ => apply wp_bind
  | |- wp (mret _) _ _ => apply wp_ret
  | |- wp get _ _ => apply wp_get
  | |- wp (modify _) _ _ => apply wp_modify
  | |- wp (assertM _) _ _ => apply wp_assert
  | |- wp _ _ _ => wp_hook
  end.
Ltac wp_steps := repeat (wp_step; cbn beta).

(** * Memory as total functions

    A field of a family of structures is a function from their addresses;
    [upd] is an assignment to the field of one of them. *)
Definition upd {A B} `{EqDecision A} (f : A -> B) (a : A) (b : B) : A -> B :=
  fun x => if decide (a = x) then b else f x.
Arguments upd {A B _} f a b x : simpl never.

Lemma upd_eq {A B} `{EqDecision A} (f : A -> B) a b : upd f a b a = b.
Proof. unfold upd. by rewrite decide_True. Qed.
Lemma upd_ne {A B} `{EqDecision A} (f : A -> B) a a' b : a <> a' -> upd f a b a' = f a'.
Proof. intros. unfold upd. by rewrite decide_False. Qed.
Lemma upd_twice {A B} `{EqDecision A} (f : A -> B) a b b' x :
  upd (upd f a b) a b' x = upd f a b' x.
Proof. unfold upd. by case_decide. Qed.

Ltac upd_simpl := repeat (first [rewrite upd_eq | rewrite upd_ne by congruence]).

(** * Lists *)
Section lists.
Context {A : Type} `{EqDecision A}.
Implicit Types l : list A.

(** The list without [x]: what unlinking a node leaves. *)
Definition remove_elt (x : A) (l : list A) : list A := filter (fun y => y <> x) l.

Lemma elem_of_remove_elt x y l : y ∈ remove_elt x l <-> y <> x /\ y ∈ l.
Proof. unfold remove_elt. by rewrite list_elem_of_filter. Qed.

Lemma NoDup_remove_elt x l : NoDup l -> NoDup (remove_elt x l).
Proof. unfold remove_elt. apply list.NoDup_filter. Qed.

Lemma remove_elt_app x l1 l2 :
  remove_elt x (l1 ++ l2) = remove_elt x l1 ++ remove_elt x l2.
Proof. apply list.filter_app. Qed.

Lemma remove_elt_notin x l : x ∉ l -> remove_elt x l = l.
Proof.
  unfold remove_elt. induction l as [|y l IH]; intros Hn; [done|].
  rewrite list.filter_cons_True by set_solver. f_equal. apply IH. set_solver.
Qed.

Lemma remove_elt_twice x l : remove_elt x (remove_elt x l) = remove_elt x l.
Proof. apply remove_elt_notin. rewrite elem_of_remove_elt. naive_solver. Qed.

Lemma remove_elt_head x l : NoDup (x :: l) -> remove_elt x (x :: l) = l.
Proof.
  intros [Hx _]%NoDup_cons. unfold remove_elt.
  rewrite list.filter_cons_False by naive_solver. by apply remove_elt_notin.
Qed.
End lists.

#[global] Arguments remove_elt {A _} x l : simpl never.

Lemma StronglySorted_impl_in {A} (R R' : A -> A -> Prop) l :
  (forall x y, x ∈ l -> y ∈ l -> R x y -> R' x y) ->
  StronglySorted R l -> StronglySorted R' l.
Proof.
  intros HR. induction 1 as [|x l H IH Hall]; constructor.
  - apply IH. set_solver.
  - rewrite Forall_forall in Hall |- *. set_solver.
Qed.

Lemma StronglySorted_remove_elt {A} `{EqDecision A} (R : A -> A -> Prop) x l :
  StronglySorted R l -> StronglySorted R (remove_elt x l).
Proof.
  induction 1 as [|y l H IH Hall]; [constructor|].
  unfold remove_elt. rewrite filter_cons. case_decide; [|done].
  constructor; [done|]. rewrite Forall_forall in Hall |- *.
  intros z [_ Hz]%list_elem_of_filter. by apply Hall.
Qed.

Lemma StronglySorted_app_r {A} (R : A -> A -> Prop) l1 l2 :
  StronglySorted R (l1 ++ l2) -> StronglySorted R l2.
Proof.
  induction l1 as [|a l1 IH]; [done|]. intros H. apply IH.
  by apply StronglySorted_inv in H as [? _].
Qed.

(** * Bits *)
Lemma testbit_pow2 n m : 0 <= n -> Z.testbit (2 ^ n) m = bool_decide (n = m).
Proof.
  intros Hn. case_bool_decide as H; [subst; by apply Z.pow2_bits_true|].
  by apply Z.pow2_bits_false.
Qed.

Lemma land_clear z b : Z.land (Z.land z (Z.lnot b)) b = 0.
Proof.
  rewrite <-Z.land_assoc, (Z.land_comm (Z.lnot b)), Z.land_lnot_diag.
  apply Z.land_0_r.
Qed.

Lemma land_raise z b : Z.land (Z.lor z b) b = b.
Proof.
  apply Z.bits_inj'; intros n _. rewrite Z.land_spec, Z.lor_spec.
  by destruct (Z.testbit z n), (Z.testbit b n).
Qed.

(** Arithmetic with [mod]: the divisions become equations for [lia]. *)
Ltac zmod := Z.div_mod_to_equations; lia.
Ltac wraps := unfold u8, u16, u32, u64, i32 in *;
  change (2 ^ 8) with 256 in *; change (2 ^ 16) with 65536 in *;
  change (2 ^ 31) with 2147483648 in *; change (2 ^ 32) with 4294967296 in *;
  change (2 ^ 64) with 18446744073709551616 in *.

Lemma u8_small z : 0 <= z < 256 -> u8 z = z.
Proof. intros. wraps. apply Z.mod_small. lia. Qed.
Lemma u16_small z : 0 <= z < 65536 -> u16 z = z.
Proof. intros. wraps. apply Z.mod_small. lia. Qed.
Lemma u32_small z : 0 <= z < 4294967296 -> u32 z = z.
Proof. intros. wraps. apply Z.mod_small. lia. Qed.
Lemma u64_id z : 0 <= z < 2 ^ 64 -> u64 z = z.
Proof. intros. unfold u64. by apply Z.mod_small. Qed.

Lemma i32_small z : -2147483648 <= z < 2147483648 -> i32 z = z.
Proof. intros. wraps. rewrite Z.mod_small; lia. Qed.

Create HintDb rtt.
#[export] Hint Resolve wp_ret wp_get wp_modify : rtt.
