(* ===== verification/KService.v ===== *)
(** The kernel service routines ([rt-thread/src/kservice.c]) that the rest of
    the development uses: the find-first-set routine of the scheduler. *)
From S2P Require Import Prelude.

(** * Find first set

    [__lowest_bit_bitmap] is the 256-entry table of the source, row by row. *)
Definition lowest_bit_row (hi : Z) : list Z :=
  [hi; 0; 1; 0; 2; 0; 1; 0; 3; 0; 1; 0; 2; 0; 1; 0].

Definition __lowest_bit_bitmap : list Z :=
  lowest_bit_row 0 ++ lowest_bit_row 4 ++ lowest_bit_row 5 ++ lowest_bit_row 4 ++
  lowest_bit_row 6 ++ lowest_bit_row 4 ++ lowest_bit_row 5 ++ lowest_bit_row 4 ++
  lowest_bit_row 7 ++ lowest_bit_row 4 ++ lowest_bit_row 5 ++ lowest_bit_row 4 ++
  lowest_bit_row 6 ++ lowest_bit_row 4 ++ lowest_bit_row 5 ++ lowest_bit_row 4.

Definition lowest_bit (i : Z) : Z := nth (Z.to_nat i) __lowest_bit_bitmap 0.

Definition __rt_ffs (value : Z) : Z :=
  if value =? 0 then 0
  else if negb (Z.land value 0xff =? 0) then lowest_bit (Z.land value 0xff) + 1
  else if negb (Z.land value 0xff00 =? 0) then
    lowest_bit (Z.shiftr (Z.land value 0xff00) 8) + 9
  else if negb (Z.land value 0xff0000 =? 0) then
    lowest_bit (Z.shiftr (Z.land value 0xff0000) 16) + 17
  else lowest_bit (Z.shiftr (Z.land value 0xff000000) 24) + 25.

(** [i] is the index of the lowest set bit of [v]. *)
Definition is_lowest_bit (v i : Z) : Prop :=
  0 <= i /\ Z.testbit v i = true /\ forall j, 0 <= j < i -> Z.testbit v j = false.

Definition lowest_bit_ok (b : nat) : bool :=
  let v := Z.of_nat b in
  let i := lowest_bit v in
  (b =? 0)%nat ||
  ((0 <=? i) && (i <? 8) && Z.testbit v i &&
   forallb (fun j => negb (Z.testbit v (Z.of_nat j))) (seq 0 (Z.to_nat i))).

Lemma lowest_bit_table : forallb lowest_bit_ok (seq 0 256) = true.
Proof. vm_compute. reflexivity. Qed.

Lemma lowest_bit_spec b :
  0 < b < 256 -> is_lowest_bit b (lowest_bit b) /\ lowest_bit b < 8.
Proof.
  intros Hb. pose proof lowest_bit_table as T. rewrite forallb_forall in T.
  specialize (T (Z.to_nat b)). unfold lowest_bit_ok in T.
  rewrite Z2Nat.id in T by lia.
  destruct (Nat.eqb_spec (Z.to_nat b) 0); [lia|]. cbn [orb] in T.
  rewrite in_seq, !andb_true_iff, forallb_forall in T.
  destruct T as [[[H0 H8] Hb1] Hlow]; [lia|].
  split; [|lia]. split; [lia|]. split; [done|]. intros j Hj.
  specialize (Hlow (Z.to_nat j)). rewrite Z2Nat.id in Hlow by lia.
  apply negb_true_iff, Hlow, in_seq. lia.
Qed.

(** The byte of [v] at bit position [k], and its bits. *)
Lemma byte_at_testbit v k j :
  0 <= k -> 0 <= j < 8 ->
  Z.testbit (Z.shiftr (Z.land v (Z.shiftl 0xff k)) k) j = Z.testbit v (k + j).
Proof.
  intros Hk Hj. rewrite Z.shiftr_spec, Z.land_spec, Z.shiftl_spec by lia.
  replace (j + k - k) with j by lia. change 0xff with (Z.ones 8).
  rewrite Z.ones_spec_low, andb_true_r by lia. f_equal. lia.
Qed.

Lemma byte_at_bound v k :
  0 <= k -> 0 <= v -> 0 <= Z.shiftr (Z.land v (Z.shiftl 0xff k)) k < 256.
Proof.
  intros Hk Hv. rewrite Z.shiftr_land, Z.shiftr_shiftl_l by lia.
  replace (k - k) with 0 by lia. rewrite Z.shiftl_0_r.
  change 0xff with (Z.ones 8). rewrite Z.land_ones by lia.
  apply Z.mod_pos_bound. lia.
Qed.

Lemma byte_at_zero v k :
  0 <= k -> 0 <= v -> Z.land v (Z.shiftl 0xff k) = 0 ->
  forall j, k <= j < k + 8 -> Z.testbit v j = false.
Proof.
  intros Hk Hv H j Hj. pose proof (byte_at_testbit v k (j - k)) as B.
  rewrite H, Z.shiftr_0_l, Z.bits_0 in B. rewrite B by lia. f_equal. lia.
Qed.

(** One step of the byte search. *)
Lemma ffs_byte v k :
  0 <= k -> 0 <= v -> Z.land v (Z.shiftl 0xff k) <> 0 ->
  (forall j, 0 <= j < k -> Z.testbit v j = false) ->
  let i := lowest_bit (Z.shiftr (Z.land v (Z.shiftl 0xff k)) k) + k in
  is_lowest_bit v i /\ i < k + 8.
Proof.
  intros Hk Hv Hne Hlow. set (b := Z.shiftr _ _).
  assert (Hb : 0 <= b < 256) by by apply byte_at_bound.
  assert (b <> 0).
  { intros E. apply Hne. apply Z.bits_inj_0. intros j.
    destruct (decide (k <= j < k + 8)) as [H|H].
    - rewrite Z.land_spec. replace j with (k + (j - k)) by lia.
      rewrite <-(byte_at_testbit v k (j - k)) by lia. fold b. rewrite E.
      by rewrite Z.bits_0.
    - destruct (Z.neg_nonneg_cases j); [by rewrite Z.testbit_neg_r by lia|].
      rewrite Z.land_spec, Z.shiftl_spec by lia. change 0xff with (Z.ones 8).
      destruct (decide (j < k)).
      + by rewrite Z.testbit_neg_r with (a := Z.ones 8), andb_false_r by lia.
      + by rewrite Z.ones_spec_high, andb_false_r by lia. }
  destruct (lowest_bit_spec b) as [[H0 [H1 H2]] H8]; [lia|].
  split; [|lia]. split; [lia|]. split.
  - rewrite Z.add_comm, <-(byte_at_testbit v k) by lia. done.
  - intros j Hj. destruct (decide (j < k)); [by apply Hlow; lia|].
    replace j with (k + (j - k)) by lia.
    rewrite <-(byte_at_testbit v k) by lia. apply H2. lia.
Qed.

Lemma __rt_ffs_0 : __rt_ffs 0 = 0.
Proof. reflexivity. Qed.

Lemma __rt_ffs_pos v :
  0 < v < 2 ^ 32 -> is_lowest_bit v (__rt_ffs v - 1) /\ __rt_ffs v - 1 < 32.
Proof.
  intros Hv. unfold __rt_ffs. destruct (Z.eqb_spec v 0); [lia|].
  pose proof (ffs_byte v 0) as B0. pose proof (ffs_byte v 8) as B1.
  pose proof (ffs_byte v 16) as B2. pose proof (ffs_byte v 24) as B3.
  pose proof (byte_at_zero v 0) as Z0. pose proof (byte_at_zero v 8) as Z1.
  pose proof (byte_at_zero v 16) as Z2. pose proof (byte_at_zero v 24) as Z3.
  change (Z.shiftl 0xff 0) with 0xff in *. change (Z.shiftl 0xff 8) with 0xff00 in *.
  change (Z.shiftl 0xff 16) with 0xff0000 in *.
  change (Z.shiftl 0xff 24) with 0xff000000 in *.
  destruct (Z.eqb_spec (Z.land v 0xff) 0) as [E0|E0]; cbn [negb].
  2: { rewrite Z.shiftr_0_r in B0. destruct B0 as [B0 ?]; try lia.
       replace (_ + 1 - 1) with (lowest_bit (Z.land v 255) + 0) by lia.
       split; [done|lia]. }
  destruct (Z.eqb_spec (Z.land v 0xff00) 0) as [E1|E1]; cbn [negb].
  2: { destruct B1 as [B1 ?]; try lia; [by intros; apply Z0; lia|].
       replace (_ + 9 - 1) with (lowest_bit (Z.shiftr (Z.land v 65280) 8) + 8) by lia.
       split; [done|lia]. }
  assert (L1 : forall j, 0 <= j < 16 -> Z.testbit v j = false).
  { intros j ?. destruct (decide (j < 8)); [apply Z0; lia|apply Z1; lia]. }
  destruct (Z.eqb_spec (Z.land v 0xff0000) 0) as [E2|E2]; cbn [negb].
  2: { destruct B2 as [B2 ?]; try lia; [done|].
       replace (_ + 17 - 1) with (lowest_bit (Z.shiftr (Z.land v 16711680) 16) + 16) by lia.
       split; [done|lia]. }
  assert (L2 : forall j, 0 <= j < 24 -> Z.testbit v j = false).
  { intros j ?. destruct (decide (j < 16)); [apply L1; lia|apply Z2; lia]. }
  destruct B3 as [B3 ?]; try lia; [|done|].
  - intros E3. apply n. apply Z.bits_inj_0. intros j.
    destruct (Z.neg_nonneg_cases j); [by rewrite Z.testbit_neg_r by lia|].
    destruct (decide (j < 24)); [by apply L2; lia|].
    destruct (decide (j < 32)); [by apply Z3; lia|].
    apply Z.bits_above_log2; [lia|]. apply Z.log2_lt_pow2; [lia|].
    apply Z.lt_le_trans with (2 ^ 32); [lia|]. apply Z.pow_le_mono_r; lia.
  - replace (_ + 25 - 1) with
      (lowest_bit (Z.shiftr (Z.land v 4278190080) 24) + 24) by lia.
    split; [done|lia].
Qed.

(** [__rt_ffs] is one more than the position of the lowest set bit of a
    32-bit value, and 0 for 0. *)
Theorem __rt_ffs_spec v :
  0 <= v < 2 ^ 32 ->
  if decide (v = 0) then __rt_ffs v = 0
  else 1 <= __rt_ffs v <= 32 /\ Z.testbit v (__rt_ffs v - 1) = true /\
       forall i, 0 <= i < __rt_ffs v - 1 -> Z.testbit v i = false.
Proof.
  intros Hv. case_decide as E; [by subst|].
  destruct (__rt_ffs_pos v) as [(H0 & H1 & H2) H3]; [lia|].
  split; [lia|]. split; [done|]. intros i Hi. apply H2. lia.
Qed.
Lemma __rt_ffs_spec_ex :
  if decide (0x80500 = 0) then __rt_ffs 0x80500 = 0
  else 1 <= __rt_ffs 0x80500 <= 32 /\ Z.testbit 0x80500 (__rt_ffs 0x80500 - 1) = true /\
       forall i, 0 <= i < __rt_ffs 0x80500 - 1 -> Z.testbit 0x80500 i = false.
Proof. apply (__rt_ffs_spec 0x80500). by split. Defined.
