(* ===== verification/Timer.v ===== *)
(** Hard timers ([rt-thread/src/timer.c]) without the object and callback
    layers: the timer structures, the list [rt_timer_list] (one row, as
    [RT_TIMER_SKIP_LIST_LEVEL] is 1), and the operations on them.  The tick
    handler [rt_timer_check], which runs callbacks, is in [Clock.v]. *)
From S2P Require Import Prelude.

(** A [struct rt_timer *]: the timer embedded in a thread, or another one. *)
Inductive tmr := ThreadTimer (t : positive) | UserTimer (i : positive).
#[export] Instance tmr_eq_dec : EqDecision tmr.
Proof. solve_decision. Defined.

(** [timeout_func] with its [parameter]: [rt_thread_timeout] on a thread, or
    a function of the application. *)
Inductive tmfun := RtThreadTimeout (t : positive) | UserFun (f parameter : Z).

Record rt_timer := mkTimer {
  tm_flag : Z; timeout_func : tmfun; tm_init_tick : Z; timeout_tick : Z }.

Definition set_tm_flag v tm :=
  mkTimer v (timeout_func tm) (tm_init_tick tm) (timeout_tick tm).
Definition set_tm_init_tick v tm :=
  mkTimer (tm_flag tm) (timeout_func tm) v (timeout_tick tm).
Definition set_timeout_tick v tm :=
  mkTimer (tm_flag tm) (timeout_func tm) (tm_init_tick tm) v.

Definition RT_TICK_MAX : Z := 0xffffffff.
Definition RT_TIMER_FLAG_ACTIVATED : Z := 0x1.
Definition RT_TIMER_FLAG_ONE_SHOT : Z := 0x0.
Definition RT_TIMER_FLAG_PERIODIC : Z := 0x2.
Definition RT_TIMER_CTRL_SET_TIME : Z := 0x0.
Definition RT_TIMER_CTRL_GET_TIME : Z := 0x1.
Definition RT_TIMER_CTRL_SET_ONESHOT : Z := 0x2.
Definition RT_TIMER_CTRL_SET_PERIODIC : Z := 0x3.

(** [if (timer->parent.flag & bit)] *)
Definition tm_has (bit : Z) (tm : rt_timer) : bool :=
  negb (Z.land (tm_flag tm) bit =? 0).

Record tstate := mkT { timers : tmr -> rt_timer; timer_list : list tmr }.
Definition timer_upd (t : tmr) (f : rt_timer -> rt_timer) : M tstate unit :=
  modify (fun ts => mkT (upd (timers ts) t (f (timers ts t))) (timer_list ts)).
Definition timer_list_upd (f : list tmr -> list tmr) : M tstate unit :=
  modify (fun ts => mkT (timers ts) (f (timer_list ts))).

Definition clear_flag (bit : Z) (tm : rt_timer) : rt_timer :=
  set_tm_flag (Z.land (tm_flag tm) (Z.lnot bit)) tm.
Definition raise_flag (bit : Z) (tm : rt_timer) : rt_timer :=
  set_tm_flag (Z.lor (tm_flag tm) bit) tm.

Lemma wp_timer_upd t f Q ts :
  Q tt (mkT (upd (timers ts) t (f (timers ts t))) (timer_list ts)) ->
  wp (timer_upd t f) Q ts.
Proof. done. Qed.
Lemma wp_timer_list_upd f Q ts :
  Q tt (mkT (timers ts) (f (timer_list ts))) -> wp (timer_list_upd f) Q ts.
Proof. done. Qed.

(** ** Operations *)

(** [rt_list_init(&timer->row[i])] makes the row node of a timer that is in
    no list point to itself: no effect on [timer_list]. *)
Definition _rt_timer_init (timer : tmr) (timeout : tmfun) (time flag : Z)
  : M tstate unit :=
  timer_upd timer (fun _ => mkTimer (Z.land flag (Z.lnot RT_TIMER_FLAG_ACTIVATED))
                              timeout time 0).

Definition rt_timer_list_next_timeout : M tstate Z :=
  ts ← get;
  mret match timer_list ts with
       | [] => RT_TICK_MAX
       | t :: _ => timeout_tick (timers ts t)
       end.

Definition _rt_timer_remove (timer : tmr) : M tstate unit :=
  timer_list_upd (remove_elt timer).

(** The search loop of [rt_timer_start]: [true] when it stops before [t]. *)
Definition timer_stops_before (ts : tstate) (timer t : tmr) : bool :=
  let d := u32 (timeout_tick (timers ts t) - timeout_tick (timers ts timer)) in
  if d =? 0 then false else d <? RT_TICK_MAX / 2.

Fixpoint timer_insert (ts : tstate) (timer : tmr) (l : list tmr) : list tmr :=
  match l with
  | [] => [timer]
  | t :: l' => if timer_stops_before ts timer t then timer :: l
               else t :: timer_insert ts timer l'
  end.

(** The first critical section of [rt_timer_start]: take the timer out. *)
Definition timer_unlink (timer : tmr) : M tstate unit :=
  _rt_timer_remove timer;;
  timer_upd timer (clear_flag RT_TIMER_FLAG_ACTIVATED).

(** Its second critical section: find the place, link. *)
Definition timer_link (timer : tmr) : M tstate unit :=
  ts ← get;
  timer_list_upd (timer_insert ts timer);;
  timer_upd timer (raise_flag RT_TIMER_FLAG_ACTIVATED).

(** The timer part of [rt_timer_start], [rt_timer_stop] and
    [rt_timer_control], whose object checks and locking are in [KTimer.v].
    [now] is what [rt_tick_get()] returns. *)
Definition timer_start (now : Z) (timer : tmr) : M tstate Z :=
  timer_unlink timer;;
  ts ← get;
  assertM (tm_init_tick (timers ts timer) <? RT_TICK_MAX / 2);;
  timer_upd timer (fun tm => set_timeout_tick (u32 (now + tm_init_tick tm)) tm);;
  timer_link timer;;
  mret 0.

Definition timer_stop (timer : tmr) : M tstate Z :=
  ts ← get;
  if negb (tm_has RT_TIMER_FLAG_ACTIVATED (timers ts timer)) then mret (-1)
  else
    _rt_timer_remove timer;;
    timer_upd timer (clear_flag RT_TIMER_FLAG_ACTIVATED);;
    mret 0.

(** [arg] is the tick the pointer argument designates; the second component
    of the result is what it designates afterwards. *)
Definition timer_control (timer : tmr) (cmd arg : Z) : M tstate (Z * Z) :=
  ts ← get;
  if cmd =? RT_TIMER_CTRL_GET_TIME then mret (0, tm_init_tick (timers ts timer))
  else if cmd =? RT_TIMER_CTRL_SET_TIME then
    timer_upd timer (set_tm_init_tick (u32 arg));; mret (0, arg)
  else if cmd =? RT_TIMER_CTRL_SET_ONESHOT then
    timer_upd timer (clear_flag RT_TIMER_FLAG_PERIODIC);; mret (0, arg)
  else if cmd =? RT_TIMER_CTRL_SET_PERIODIC then
    timer_upd timer (raise_flag RT_TIMER_FLAG_PERIODIC);; mret (0, arg)
  else mret (0, arg).

Lemma wp_timer_remove t Q ts :
  Q tt (mkT (timers ts) (remove_elt t (timer_list ts))) -> wp (_rt_timer_remove t) Q ts.
Proof. done. Qed.

Ltac wp_hook ::=
  lazymatch goal with
  | |- wp (timer_upd _ _) _ _ => apply wp_timer_upd
  | |- wp (timer_list_upd _) _ _ => apply wp_timer_list_upd
  | |- wp (_rt_timer_remove _) _ _ => apply wp_timer_remove
  end.

(** ** Flags *)
Lemma tm_has_raise tm : tm_has RT_TIMER_FLAG_ACTIVATED
  (raise_flag RT_TIMER_FLAG_ACTIVATED tm) = true.
Proof. unfold tm_has, raise_flag; cbn [tm_flag set_tm_flag]. by rewrite land_raise. Qed.

Lemma tm_has_clear tm : tm_has RT_TIMER_FLAG_ACTIVATED
  (clear_flag RT_TIMER_FLAG_ACTIVATED tm) = false.
Proof. unfold tm_has, clear_flag; cbn [tm_flag set_tm_flag]. by rewrite land_clear. Qed.

(** ** The order of the list under tick wrap-around

    [rank B ts t] is how far the deadline of [t] lies after the tick [B],
    modulo 2^32.  The comparisons of the code mean what they should as long
    as all deadlines lie within half the tick range after some [B]. *)
Definition rank (B : Z) (ts : tstate) (t : tmr) : Z :=
  u32 (timeout_tick (timers ts t) - B).

Definition in_window (B : Z) (ts : tstate) (t : tmr) : Prop :=
  rank B ts t < RT_TICK_MAX / 2.

Record timer_inv (B : Z) (ts : tstate) : Prop := {
  ti_nodup : NoDup (timer_list ts);
  ti_window : forall t, t ∈ timer_list ts -> in_window B ts t;
  ti_sorted : StronglySorted (fun x y => rank B ts x <= rank B ts y) (timer_list ts);
  ti_active : forall t, t ∈ timer_list ts ->
    tm_has RT_TIMER_FLAG_ACTIVATED (timers ts t) = true }.

Lemma stops_before_rank B ts timer t :
  in_window B ts t -> in_window B ts timer ->
  timer_stops_before ts timer t = (rank B ts timer <? rank B ts t).
Proof.
  unfold in_window, rank, timer_stops_before, RT_TICK_MAX.
  generalize (timeout_tick (timers ts t)) (timeout_tick (timers ts timer)).
  intros a b. change (0xffffffff / 2) with 2147483647. wraps. intros Ha Hb.
  assert (E : (a - b) mod 4294967296 =
    ((a - B) mod 4294967296 - (b - B) mod 4294967296) mod 4294967296)
    by (rewrite <-Zminus_mod; f_equal; lia).
  rewrite E. revert Ha Hb.
  pose proof (Z.mod_pos_bound (a - B) 4294967296) as Pa.
  pose proof (Z.mod_pos_bound (b - B) 4294967296) as Pb. revert Pa Pb.
  generalize ((a - B) mod 4294967296) ((b - B) mod 4294967296). intros x y ? ? ? ?.
  destruct (Z.eqb_spec ((x - y) mod 4294967296) 0);
    destruct (Z.ltb_spec y x); try reflexivity; try zmod.
  all: destruct (Z.ltb_spec ((x - y) mod 4294967296) 2147483647); try reflexivity; zmod.
Qed.

(** Where [timer_insert] puts the timer: after every deadline that is not
    later, before the first later one. *)
Lemma timer_insert_split ts timer l : exists l1 l2,
  l = l1 ++ l2 /\ timer_insert ts timer l = l1 ++ timer :: l2 /\
  (forall t, t ∈ l1 -> timer_stops_before ts timer t = false) /\
  (forall t, head l2 = Some t -> timer_stops_before ts timer t = true).
Proof.
  induction l as [|t l (l1 & l2 & -> & E & H1 & H2)].
  - exists [], []. repeat split; set_solver.
  - cbn [timer_insert]. destruct (timer_stops_before ts timer t) eqn:Hs.
    + exists [], (t :: l1 ++ l2). repeat split; [set_solver|].
      intros t' [= <-]. done.
    + exists (t :: l1), l2. rewrite E. repeat split; [|done].
      intros t' [->|]%elem_of_cons; auto.
Qed.

Lemma elem_of_timer_insert ts timer l t :
  t ∈ timer_insert ts timer l <-> t = timer \/ t ∈ l.
Proof.
  destruct (timer_insert_split ts timer l) as (l1 & l2 & -> & -> & _). set_solver.
Qed.

Lemma NoDup_timer_insert ts timer l :
  timer ∉ l -> NoDup l -> NoDup (timer_insert ts timer l).
Proof.
  destruct (timer_insert_split ts timer l) as (l1 & l2 & -> & -> & _).
  intros Hn Hd. rewrite <-Permutation_middle.
  by constructor.
Qed.

(** The list is determined by the structures of the timers in it. *)
Lemma rank_ext B ts ts' t :
  timeout_tick (timers ts t) = timeout_tick (timers ts' t) -> rank B ts t = rank B ts' t.
Proof. unfold rank. by intros ->. Qed.

Lemma timer_insert_sorted B ts timer l :
  in_window B ts timer -> (forall t, t ∈ l -> in_window B ts t) ->
  StronglySorted (fun x y => rank B ts x <= rank B ts y) l ->
  StronglySorted (fun x y => rank B ts x <= rank B ts y) (timer_insert ts timer l).
Proof.
  intros Hw. induction l as [|t l IH]; intros Hl Hs; cbn [timer_insert].
  - by repeat constructor.
  - apply StronglySorted_inv in Hs as [Hs Hall].
    rewrite (stops_before_rank B) by (done || apply Hl; set_solver).
    destruct (Z.ltb_spec (rank B ts timer) (rank B ts t)).
    + constructor; [by constructor|]. constructor; [lia|].
      eapply Forall_impl; [exact Hall|]. cbn. lia.
    + constructor; [apply IH; set_solver|]. apply Forall_forall.
      intros x [->|Hx]%elem_of_timer_insert; [done|].
      by eapply Forall_forall in Hall.
Qed.

(** ** Operations under the invariant *)

(** What an operation on [timer] leaves alone. *)
Definition timer_frame (timer : tmr) (ts ts' : tstate) : Prop :=
  (forall x, x <> timer -> timers ts' x = timers ts x) /\
  timeout_func (timers ts' timer) = timeout_func (timers ts timer).

Lemma timer_inv_nil B tms : timer_inv B (mkT tms []).
Proof. split; cbn; [constructor|set_solver|constructor|set_solver]. Qed.

(** Any change that only shrinks the list, and leaves the timers that remain
    in it untouched, keeps the invariant. *)
Lemma timer_inv_remove B timer ts ts' :
  timer_inv B ts -> timer_list ts' = remove_elt timer (timer_list ts) ->
  (forall x, x <> timer -> timers ts' x = timers ts x) -> timer_inv B ts'.
Proof.
  intros [Hd Hw Hs Ha] El Et.
  assert (Hin : forall t, t ∈ timer_list ts' -> t <> timer /\ t ∈ timer_list ts).
  { intros t. rewrite El. apply elem_of_remove_elt. }
  assert (Hr : forall t, t ∈ timer_list ts' -> rank B ts' t = rank B ts t).
  { intros t [Hne _]%Hin. apply rank_ext. by rewrite Et. }
  split.
  - rewrite El. by apply NoDup_remove_elt.
  - intros t Ht. unfold in_window. rewrite Hr by done. apply Hw, Hin, Ht.
  - eapply StronglySorted_impl_in; [|rewrite El; by apply StronglySorted_remove_elt].
    cbn. intros x y Hx Hy. by rewrite !Hr.
  - intros t Ht. destruct (Hin t Ht) as [Hne Ht']. rewrite Et by done. by apply Ha.
Qed.

Lemma timer_stop_spec B timer ts :
  timer_inv B ts ->
  wp (timer_stop timer) (fun r ts' =>
    timer_inv B ts' /\ timer_frame timer ts ts' /\
    timer_list ts' = remove_elt timer (timer_list ts) /\
    tm_has RT_TIMER_FLAG_ACTIVATED (timers ts' timer) = false /\
    tm_init_tick (timers ts' timer) = tm_init_tick (timers ts timer) /\
    (r = 0 <-> tm_has RT_TIMER_FLAG_ACTIVATED (timers ts timer) = true) /\
    (r = 0 \/ r = -1)) ts.
Proof.
  intros Hi. unfold timer_stop. wp_steps.
  destruct (tm_has _ (timers ts timer)) eqn:Ha; cbn [negb]; wp_steps.
  - cbn. unfold timer_frame. cbn. rewrite !upd_eq. cbn.
    assert (Hf : forall x, x <> timer ->
      upd (timers ts) timer (clear_flag RT_TIMER_FLAG_ACTIVATED (timers ts timer)) x =
      timers ts x) by (intros x Hx; by rewrite upd_ne).
    split_and!; try done; [|apply tm_has_clear|by left].
    eapply timer_inv_remove; [done|reflexivity|done].
  - assert (Hn : timer ∉ timer_list ts).
    { intros Hin. apply (ti_active _ _ Hi) in Hin. congruence. }
    rewrite remove_elt_notin by done. split_and!; try done. by right.
Qed.

Lemma rank_started now B i :
  0 <= i -> u32 (now - B) + i < RT_TICK_MAX / 2 ->
  u32 (u32 (now + i) - B) = u32 (now - B) + i.
Proof.
  unfold RT_TICK_MAX. change (0xffffffff / 2) with 2147483647. wraps. intros H0 Hlt.
  pose proof (Z.mod_pos_bound (now - B) 4294967296).
  rewrite Zminus_mod_idemp_l. replace (now + i - B) with (now - B + i) by lia.
  rewrite <-Zplus_mod_idemp_l. apply Z.mod_small. lia.
Qed.

Lemma raise_tick b timer tms (t : tmr) :
  timeout_tick (upd tms timer (raise_flag b (tms timer)) t) = timeout_tick (tms t).
Proof.
  destruct (decide (timer = t)) as [->|?]; [by rewrite upd_eq|by rewrite upd_ne].
Qed.

Lemma timer_inv_started B ts timer :
  timer_inv B ts -> in_window B ts timer -> timer ∉ timer_list ts ->
  timer_inv B (mkT (upd (timers ts) timer
                      (raise_flag RT_TIMER_FLAG_ACTIVATED (timers ts timer))) (timer_insert ts timer (timer_list ts))).
Proof.
  intros [Hd Hw Hs Ha] Hwt Hn. set (ts' := mkT _ _).
  assert (Hr : forall t, rank B ts' t = rank B ts t).
  { intros t. apply rank_ext, raise_tick. }
  split; cbn [timer_list ts'].
  - by apply NoDup_timer_insert.
  - intros t Ht. unfold in_window. rewrite Hr.
    apply elem_of_timer_insert in Ht as [->|Ht]; [done|by apply Hw].
  - eapply StronglySorted_impl_in; [|by apply (timer_insert_sorted B)].
    cbn. intros x y _ _. by rewrite !Hr.
  - intros t Ht. cbn. destruct (decide (timer = t)) as [->|?].
    + rewrite upd_eq. apply tm_has_raise.
    + rewrite upd_ne by done. apply Ha.
      apply elem_of_timer_insert in Ht as [->|Ht]; done.
Qed.

Lemma timer_insert_sorted_split B ts timer l :
  in_window B ts timer -> (forall t, t ∈ l -> in_window B ts t) ->
  StronglySorted (fun x y => rank B ts x <= rank B ts y) l ->
  exists l1 l2, l = l1 ++ l2 /\ timer_insert ts timer l = l1 ++ timer :: l2 /\
    (forall t, t ∈ l1 -> rank B ts t <= rank B ts timer) /\
    (forall t, t ∈ l2 -> rank B ts timer < rank B ts t).
Proof.
  intros Hw Hl Hs. destruct (timer_insert_split ts timer l) as (l1 & l2 & -> & E & H1 & H2).
  exists l1, l2. split_and!; [done|done| |].
  - intros t Ht. specialize (H1 t Ht).
    rewrite (stops_before_rank B) in H1 by (first [done|apply Hl; set_solver]). lia.
  - intros t Ht. destruct l2 as [|t2 l2]; [set_solver|]. specialize (H2 t2 eq_refl).
    rewrite (stops_before_rank B) in H2 by (first [done|apply Hl; set_solver]).
    apply elem_of_cons in Ht as [->|Ht]; [lia|].
    apply StronglySorted_app_r, StronglySorted_inv in Hs as [_ Hall]. rewrite Forall_forall in Hall.
    specialize (Hall t Ht). lia.
Qed.

Lemma timer_link_spec B timer ts1 :
  timer_inv B ts1 -> in_window B ts1 timer -> timer ∉ timer_list ts1 ->
  wp (timer_link timer) (fun _ ts' =>
    timer_inv B ts' /\ timer_frame timer ts1 ts' /\
    timeout_tick (timers ts' timer) = timeout_tick (timers ts1 timer) /\
    tm_init_tick (timers ts' timer) = tm_init_tick (timers ts1 timer) /\
    tm_has RT_TIMER_FLAG_ACTIVATED (timers ts' timer) = true /\
    exists l1 l2, timer_list ts' = l1 ++ timer :: l2 /\ timer_list ts1 = l1 ++ l2 /\
      (forall t, t ∈ l1 -> rank B ts' t <= rank B ts' timer) /\
      (forall t, t ∈ l2 -> rank B ts' timer < rank B ts' t)) ts1.
Proof.
  intros Hi Hw Hn. unfold timer_link. wp_steps. cbn [timers timer_list].
  split; [by apply timer_inv_started|]. unfold timer_frame. cbn [timers timer_list].
  rewrite !upd_eq. split_and!; try done.
  - intros x Hx. by rewrite upd_ne.
  - apply tm_has_raise.
  - destruct (timer_insert_sorted_split B ts1 timer (timer_list ts1)) as
      (l1 & l2 & E1 & E2 & H1 & H2); [done|apply Hi|apply Hi|].
    assert (Hr : forall t, rank B (mkT (upd (timers ts1) timer
      (raise_flag RT_TIMER_FLAG_ACTIVATED (timers ts1 timer)))
      (timer_insert ts1 timer (timer_list ts1))) t = rank B ts1 t)
      by (intros t; apply rank_ext, raise_tick).
    exists l1, l2. split_and!; [done|done| |]; intros t Ht; rewrite !Hr; auto.
Qed.

Lemma timer_start_spec B now timer ts :
  timer_inv B ts ->
  0 <= tm_init_tick (timers ts timer) ->
  u32 (now - B) + tm_init_tick (timers ts timer) < RT_TICK_MAX / 2 ->
  wp (timer_start now timer) (fun r ts' =>
    r = 0 /\ timer_inv B ts' /\ timer_frame timer ts ts' /\
    timeout_tick (timers ts' timer) = u32 (now + tm_init_tick (timers ts timer)) /\
    tm_init_tick (timers ts' timer) = tm_init_tick (timers ts timer) /\
    tm_has RT_TIMER_FLAG_ACTIVATED (timers ts' timer) = true /\
    exists l1 l2, timer_list ts' = l1 ++ timer :: l2 /\
      remove_elt timer (timer_list ts) = l1 ++ l2 /\
      (forall t, t ∈ l1 -> rank B ts' t <= rank B ts' timer) /\
      (forall t, t ∈ l2 -> rank B ts' timer < rank B ts' t)) ts.
Proof.
  intros Hi H0 Hlt. unfold timer_start, timer_unlink. wp_steps.
  { cbn. rewrite upd_eq. apply Z.ltb_lt. cbn.
    assert (0 <= u32 (now - B)) by (apply Z.mod_pos_bound; lia). lia. }
  match goal with |- wp _ _ ?x => set (ts1 := x) end.
  assert (timer_frame timer ts ts1 /\
    timeout_tick (timers ts1 timer) = u32 (now + tm_init_tick (timers ts timer)) /\
    tm_init_tick (timers ts1 timer) = tm_init_tick (timers ts timer))
    as ([Hf1 Hfn] & Ht1 & Hn1).
  { unfold timer_frame, ts1. cbn. rewrite ?upd_eq. cbn. rewrite ?upd_eq.
    split_and!; try done. intros x Hx. by rewrite !upd_ne. }
  assert (Hl1 : timer_list ts1 = remove_elt timer (timer_list ts)) by done.
  eapply wp_mono; [apply (timer_link_spec B)|].
  - by eapply timer_inv_remove.
  - unfold in_window, rank. rewrite Ht1, rank_started by done. done.
  - rewrite Hl1, elem_of_remove_elt. naive_solver.
  - intros [] ts' (Hi' & [Hf Hfn'] & Ht & Hn & Ha & l1 & l2 & E1 & E2 & H1 & H2).
    apply wp_ret. split_and!; try congruence.
    { split; [intros x Hx; by rewrite Hf, Hf1|congruence]. }
    exists l1, l2. rewrite <-Hl1. done.
Qed.

(** ** The same operations without a bound on the deadlines

    What holds of the list whatever the ticks: used where only membership
    matters. *)
Definition tm_wf (ts : tstate) : Prop :=
  NoDup (timer_list ts) /\
  forall t, t ∈ timer_list ts -> tm_has RT_TIMER_FLAG_ACTIVATED (timers ts t) = true.

Lemma timer_inv_wf B ts : timer_inv B ts -> tm_wf ts.
Proof. intros []. by split. Qed.

Definition stop_core (timer : tmr) (ts : tstate) : tstate :=
  if tm_has RT_TIMER_FLAG_ACTIVATED (timers ts timer) then
    mkT (upd (timers ts) timer (clear_flag RT_TIMER_FLAG_ACTIVATED (timers ts timer)))
      (remove_elt timer (timer_list ts))
  else ts.

Lemma timer_stop_run timer ts :
  timer_stop timer ts =
    Some (if tm_has RT_TIMER_FLAG_ACTIVATED (timers ts timer) then 0 else -1,
          stop_core timer ts).
Proof.
  unfold timer_stop, stop_core, mbind, M_bind, get.
  by destruct (tm_has RT_TIMER_FLAG_ACTIVATED (timers ts timer)).
Qed.

Lemma stop_core_list timer ts :
  tm_wf ts -> timer_list (stop_core timer ts) = remove_elt timer (timer_list ts).
Proof.
  intros [Hd Ha]. unfold stop_core. case_match eqn:E; [done|].
  rewrite remove_elt_notin; [done|]. intros Hin. apply Ha in Hin. congruence.
Qed.

Lemma stop_core_other timer ts x :
  x <> timer -> timers (stop_core timer ts) x = timers ts x.
Proof. intros Hx. unfold stop_core. case_match; [|done]. cbn. by rewrite upd_ne. Qed.

Lemma stop_core_self timer ts :
  timeout_func (timers (stop_core timer ts) timer) = timeout_func (timers ts timer) /\
  tm_init_tick (timers (stop_core timer ts) timer) = tm_init_tick (timers ts timer) /\
  tm_has RT_TIMER_FLAG_ACTIVATED (timers (stop_core timer ts) timer) = false.
Proof.
  unfold stop_core. case_match eqn:E; [|done]. cbn. rewrite upd_eq.
  split_and!; try done. apply tm_has_clear.
Qed.

(** A list without [timer], on which only [timer] was touched. *)
Lemma tm_wf_remove timer ts ts' :
  tm_wf ts -> timer_list ts' = remove_elt timer (timer_list ts) ->
  (forall x, x <> timer -> timers ts' x = timers ts x) -> tm_wf ts'.
Proof.
  intros [Hd Ha] El Et. split; rewrite El; [by apply NoDup_remove_elt|].
  intros t [Hne Ht]%elem_of_remove_elt. rewrite Et by done. by apply Ha.
Qed.

Lemma stop_core_wf timer ts : tm_wf ts -> tm_wf (stop_core timer ts).
Proof.
  intros Hw. apply (tm_wf_remove timer ts); [done|by apply stop_core_list|].
  apply stop_core_other.
Qed.

(** [rt_timer_start] as one function. *)
Definition armed (now : Z) (timer : tmr) (ts : tstate) : tstate :=
  mkT (upd (timers ts) timer (set_timeout_tick (u32 (now + tm_init_tick (timers ts timer)))
         (clear_flag RT_TIMER_FLAG_ACTIVATED (timers ts timer))))
    (remove_elt timer (timer_list ts)).
Definition linked (timer : tmr) (ts : tstate) : tstate :=
  mkT (upd (timers ts) timer (raise_flag RT_TIMER_FLAG_ACTIVATED (timers ts timer)))
    (timer_insert ts timer (timer_list ts)).

Lemma timer_insert_ext ts ts' timer l :
  (forall x, timeout_tick (timers ts x) = timeout_tick (timers ts' x)) ->
  timer_insert ts timer l = timer_insert ts' timer l.
Proof.
  intros E. induction l as [|t l IH]; [done|]. cbn. unfold timer_stops_before.
  by rewrite !E, IH.
Qed.

Lemma wp_timer_start now timer ts (Q : Z -> tstate -> Prop) :
  tm_init_tick (timers ts timer) < RT_TICK_MAX / 2 ->
  (forall ts', timer_list ts' = timer_list (linked timer (armed now timer ts)) ->
     (forall x, timers ts' x = timers (linked timer (armed now timer ts)) x) -> Q 0 ts') ->
  wp (timer_start now timer) Q ts.
Proof.
  intros Hi HQ. unfold timer_start, timer_unlink, timer_link. wp_steps.
  { cbn. rewrite upd_eq. by apply Z.ltb_lt. }
  apply HQ; cbn.
  - apply timer_insert_ext. intros x. cbn. unfold upd. by repeat case_decide.
  - intros x. rewrite ?upd_eq. unfold upd. by repeat case_decide.
Qed.

Lemma armed_linked_wf now timer ts : tm_wf ts -> tm_wf (linked timer (armed now timer ts)).
Proof.
  intros [Hd Ha]. split; cbn.
  - apply NoDup_timer_insert; [|by apply NoDup_remove_elt].
    rewrite elem_of_remove_elt. naive_solver.
  - intros t. rewrite elem_of_timer_insert, elem_of_remove_elt.
    destruct (decide (timer = t)) as [->|?].
    + intros _. rewrite upd_eq. apply tm_has_raise.
    + intros [?|[_ Ht]]; [congruence|]. rewrite !upd_ne by done. by apply Ha.
Qed.
