(* ===== verification/KState.v ===== *)
(** The kernel state shared by the scheduler, thread, timer and IPC components:
    the structures of [rt-thread/include/rtdef.h], the list heads, and the
    lock counters of [rt-thread/src/cpu.c].

    Memory is modelled field by field: a structure field is a function from
    the address of the structure ([upd] assigns it), a list head denotes the
    sequence of threads linked behind it (the pointer level is refined in
    [RtList.v]).  A nullable pointer is an [option]. *)
From S2P Require Import Prelude KService Timer.

(** [struct rt_thread *], and the address of an IPC object. *)
Abbreviation tid := positive.
Abbreviation oid := positive.

(** The list heads a thread's [tlist] node can be linked behind. *)
Inductive lhead :=
  | Ready (p : Z)          (** [rt_thread_priority_table[p]] *)
  | CpuReady (c p : Z)     (** [rt_cpus[c].priority_table[p]] *)
  | Defunct                (** [rt_thread_defunct] *)
  | Suspend (o : oid)      (** [o->parent.suspend_thread] *)
  | Sender (o : oid).      (** [o->suspend_sender_thread] *)
#[export] Instance lhead_eq_dec : EqDecision lhead.
Proof. solve_decision. Defined.

(** Kernel objects, as [struct rt_object *]. *)
Inductive obj := OThread (t : tid) | OTimer (tm : tmr) | OIpc (o : oid).
#[export] Instance obj_eq_dec : EqDecision obj.
Proof. solve_decision. Defined.

(** [struct rt_thread]: the fields the kernel reads.  The three lock counters
    are in [nest] below. *)
Record thread := mkThread {
  stat : Z;
  error : Z;
  bind_cpu : Z;
  oncpu : Z;
  current_priority : Z;
  init_priority : Z;
  number_mask : Z;
  event_set : Z;
  event_info : Z;
  init_tick : Z;
  remaining_tick : Z;
  cleanup : Z }.
Definition set_stat (v : Z) (x : thread) : thread :=
  mkThread v (error x) (bind_cpu x) (oncpu x) (current_priority x)
    (init_priority x) (number_mask x) (event_set x) (event_info x)
    (init_tick x) (remaining_tick x) (cleanup x).
Definition set_error (v : Z) (x : thread) : thread :=
  mkThread (stat x) v (bind_cpu x) (oncpu x) (current_priority x)
    (init_priority x) (number_mask x) (event_set x) (event_info x)
    (init_tick x) (remaining_tick x) (cleanup x).
Definition set_bind_cpu (v : Z) (x : thread) : thread :=
  mkThread (stat x) (error x) v (oncpu x) (current_priority x)
    (init_priority x) (number_mask x) (event_set x) (event_info x)
    (init_tick x) (remaining_tick x) (cleanup x).
Definition set_oncpu (v : Z) (x : thread) : thread :=
  mkThread (stat x) (error x) (bind_cpu x) v (current_priority x)
    (init_priority x) (number_mask x) (event_set x) (event_info x)
    (init_tick x) (remaining_tick x) (cleanup x).
Definition set_current_priority (v : Z) (x : thread) : thread :=
  mkThread (stat x) (error x) (bind_cpu x) (oncpu x) v (init_priority x)
    (number_mask x) (event_set x) (event_info x) (init_tick x)
    (remaining_tick x) (cleanup x).
Definition set_init_priority (v : Z) (x : thread) : thread :=
  mkThread (stat x) (error x) (bind_cpu x) (oncpu x) (current_priority x) v
    (number_mask x) (event_set x) (event_info x) (init_tick x)
    (remaining_tick x) (cleanup x).
Definition set_number_mask (v : Z) (x : thread) : thread :=
  mkThread (stat x) (error x) (bind_cpu x) (oncpu x) (current_priority x)
    (init_priority x) v (event_set x) (event_info x) (init_tick x)
    (remaining_tick x) (cleanup x).
Definition set_event_set (v : Z) (x : thread) : thread :=
  mkThread (stat x) (error x) (bind_cpu x) (oncpu x) (current_priority x)
    (init_priority x) (number_mask x) v (event_info x) (init_tick x)
    (remaining_tick x) (cleanup x).
Definition set_event_info (v : Z) (x : thread) : thread :=
  mkThread (stat x) (error x) (bind_cpu x) (oncpu x) (current_priority x)
    (init_priority x) (number_mask x) (event_set x) v (init_tick x)
    (remaining_tick x) (cleanup x).
Definition set_init_tick (v : Z) (x : thread) : thread :=
  mkThread (stat x) (error x) (bind_cpu x) (oncpu x) (current_priority x)
    (init_priority x) (number_mask x) (event_set x) (event_info x) v
    (remaining_tick x) (cleanup x).
Definition set_remaining_tick (v : Z) (x : thread) : thread :=
  mkThread (stat x) (error x) (bind_cpu x) (oncpu x) (current_priority x)
    (init_priority x) (number_mask x) (event_set x) (event_info x)
    (init_tick x) v (cleanup x).
Definition set_cleanup (v : Z) (x : thread) : thread :=
  mkThread (stat x) (error x) (bind_cpu x) (oncpu x) (current_priority x)
    (init_priority x) (number_mask x) (event_set x) (event_info x)
    (init_tick x) (remaining_tick x) v.

(** The lock counters of [struct rt_thread]. *)
Record nest := mkNest {
  scheduler_lock_nest : Z;
  cpus_lock_nest : Z;
  critical_lock_nest : Z }.
Definition set_scheduler_lock_nest (v : Z) (x : nest) : nest :=
  mkNest v (cpus_lock_nest x) (critical_lock_nest x).
Definition set_cpus_lock_nest (v : Z) (x : nest) : nest :=
  mkNest (scheduler_lock_nest x) v (critical_lock_nest x).
Definition set_critical_lock_nest (v : Z) (x : nest) : nest :=
  mkNest (scheduler_lock_nest x) (cpus_lock_nest x) v.

(** [struct rt_cpu]; the [priority_table] heads are the [CpuReady] lists. *)
Record rt_cpu := mkCpu {
  current_thread : option tid;
  irq_nest : Z;
  irq_switch_flag : Z;
  cpu_priority : Z;
  priority_group : Z;
  tick : Z }.
Definition set_current_thread (v : option tid) (x : rt_cpu) : rt_cpu :=
  mkCpu v (irq_nest x) (irq_switch_flag x) (cpu_priority x) (priority_group
    x) (tick x).
Definition set_irq_nest (v : Z) (x : rt_cpu) : rt_cpu :=
  mkCpu (current_thread x) v (irq_switch_flag x) (cpu_priority x)
    (priority_group x) (tick x).
Definition set_irq_switch_flag (v : Z) (x : rt_cpu) : rt_cpu :=
  mkCpu (current_thread x) (irq_nest x) v (cpu_priority x) (priority_group
    x) (tick x).
Definition set_cpu_priority (v : Z) (x : rt_cpu) : rt_cpu :=
  mkCpu (current_thread x) (irq_nest x) (irq_switch_flag x) v
    (priority_group x) (tick x).
Definition set_priority_group (v : Z) (x : rt_cpu) : rt_cpu :=
  mkCpu (current_thread x) (irq_nest x) (irq_switch_flag x) (cpu_priority x)
    v (tick x).
Definition set_tick (v : Z) (x : rt_cpu) : rt_cpu :=
  mkCpu (current_thread x) (irq_nest x) (irq_switch_flag x) (cpu_priority x)
    (priority_group x) v.

(** IPC objects.  [flag] is [parent.parent.flag]; the waiting lists are the
    [Suspend] and [Sender] heads. *)
Record rt_semaphore := mkSem {
  sem_flag : Z;
  sem_value : Z }.
Definition set_sem_flag (v : Z) (x : rt_semaphore) : rt_semaphore :=
  mkSem v (sem_value x).
Definition set_sem_value (v : Z) (x : rt_semaphore) : rt_semaphore :=
  mkSem (sem_flag x) v.

Record rt_mutex := mkMutex {
  mutex_flag : Z;
  mutex_value : Z;
  original_priority : Z;
  hold : Z;
  owner : option tid }.
Definition set_mutex_flag (v : Z) (x : rt_mutex) : rt_mutex :=
  mkMutex v (mutex_value x) (original_priority x) (hold x) (owner x).
Definition set_mutex_value (v : Z) (x : rt_mutex) : rt_mutex :=
  mkMutex (mutex_flag x) v (original_priority x) (hold x) (owner x).
Definition set_original_priority (v : Z) (x : rt_mutex) : rt_mutex :=
  mkMutex (mutex_flag x) (mutex_value x) v (hold x) (owner x).
Definition set_hold (v : Z) (x : rt_mutex) : rt_mutex :=
  mkMutex (mutex_flag x) (mutex_value x) (original_priority x) v (owner x).
Definition set_owner (v : option tid) (x : rt_mutex) : rt_mutex :=
  mkMutex (mutex_flag x) (mutex_value x) (original_priority x) (hold x) v.

Record rt_event := mkEvent {
  event_flag : Z;
  evset : Z }.
Definition set_event_flag (v : Z) (x : rt_event) : rt_event :=
  mkEvent v (evset x).
Definition set_evset (v : Z) (x : rt_event) : rt_event :=
  mkEvent (event_flag x) v.

Record rt_mailbox := mkMb {
  mb_flag : Z;
  mb_pool : list Z;
  mb_size : Z;
  mb_entry : Z;
  in_offset : Z;
  out_offset : Z }.
Definition set_mb_flag (v : Z) (x : rt_mailbox) : rt_mailbox :=
  mkMb v (mb_pool x) (mb_size x) (mb_entry x) (in_offset x) (out_offset x).
Definition set_mb_pool (v : list Z) (x : rt_mailbox) : rt_mailbox :=
  mkMb (mb_flag x) v (mb_size x) (mb_entry x) (in_offset x) (out_offset x).
Definition set_mb_size (v : Z) (x : rt_mailbox) : rt_mailbox :=
  mkMb (mb_flag x) (mb_pool x) v (mb_entry x) (in_offset x) (out_offset x).
Definition set_mb_entry (v : Z) (x : rt_mailbox) : rt_mailbox :=
  mkMb (mb_flag x) (mb_pool x) (mb_size x) v (in_offset x) (out_offset x).
Definition set_in_offset (v : Z) (x : rt_mailbox) : rt_mailbox :=
  mkMb (mb_flag x) (mb_pool x) (mb_size x) (mb_entry x) v (out_offset x).
Definition set_out_offset (v : Z) (x : rt_mailbox) : rt_mailbox :=
  mkMb (mb_flag x) (mb_pool x) (mb_size x) (mb_entry x) (in_offset x) v.

(** A message queue.  The pool is an array of nodes, addressed by index: node
    [i] starts at [msg_pool + i * (msg_size + sizeof(struct rt_mq_message))],
    its link is [mq_next i] and the message bytes behind it [mq_data i]. *)
Record rt_messagequeue := mkMq {
  mq_flag : Z;
  msg_size : Z;
  max_msgs : Z;
  mq_entry : Z;
  mq_next : Z -> option Z;
  mq_data : Z -> list Z;
  msg_queue_head : option Z;
  msg_queue_tail : option Z;
  msg_queue_free : option Z }.
Definition set_mq_flag (v : Z) (x : rt_messagequeue) : rt_messagequeue :=
  mkMq v (msg_size x) (max_msgs x) (mq_entry x) (mq_next x) (mq_data x)
    (msg_queue_head x) (msg_queue_tail x) (msg_queue_free x).
Definition set_msg_size (v : Z) (x : rt_messagequeue) : rt_messagequeue :=
  mkMq (mq_flag x) v (max_msgs x) (mq_entry x) (mq_next x) (mq_data x)
    (msg_queue_head x) (msg_queue_tail x) (msg_queue_free x).
Definition set_max_msgs (v : Z) (x : rt_messagequeue) : rt_messagequeue :=
  mkMq (mq_flag x) (msg_size x) v (mq_entry x) (mq_next x) (mq_data x)
    (msg_queue_head x) (msg_queue_tail x) (msg_queue_free x).
Definition set_mq_entry (v : Z) (x : rt_messagequeue) : rt_messagequeue :=
  mkMq (mq_flag x) (msg_size x) (max_msgs x) v (mq_next x) (mq_data x)
    (msg_queue_head x) (msg_queue_tail x) (msg_queue_free x).
Definition set_mq_next (v : Z -> option Z) (x : rt_messagequeue) : rt_messagequeue :=
  mkMq (mq_flag x) (msg_size x) (max_msgs x) (mq_entry x) v (mq_data x)
    (msg_queue_head x) (msg_queue_tail x) (msg_queue_free x).
Definition set_mq_data (v : Z -> list Z) (x : rt_messagequeue) : rt_messagequeue :=
  mkMq (mq_flag x) (msg_size x) (max_msgs x) (mq_entry x) (mq_next x) v
    (msg_queue_head x) (msg_queue_tail x) (msg_queue_free x).
Definition set_msg_queue_head (v : option Z) (x : rt_messagequeue) : rt_messagequeue :=
  mkMq (mq_flag x) (msg_size x) (max_msgs x) (mq_entry x) (mq_next x)
    (mq_data x) v (msg_queue_tail x) (msg_queue_free x).
Definition set_msg_queue_tail (v : option Z) (x : rt_messagequeue) : rt_messagequeue :=
  mkMq (mq_flag x) (msg_size x) (max_msgs x) (mq_entry x) (mq_next x)
    (mq_data x) (msg_queue_head x) v (msg_queue_free x).
Definition set_msg_queue_free (v : option Z) (x : rt_messagequeue) : rt_messagequeue :=
  mkMq (mq_flag x) (msg_size x) (max_msgs x) (mq_entry x) (mq_next x)
    (mq_data x) (msg_queue_head x) (msg_queue_tail x) v.

(** The kernel.  [ready_group] is [rt_thread_ready_priority_group];
    [cpus_lock] and [critical_lock] tell whether the hardware spin locks
    [_cpus_lock] and [_rt_critical_lock] are taken; [ipi] is the mask of the
    CPUs to which a scheduling interrupt was sent; [otype] is the [type] field
    of the object headers and [containers] the object lists per class. *)
Record kstate := mkK {
  threads : tid -> thread;
  nests : tid -> nest;
  lists : lhead -> list tid;
  ready_group : Z;
  cpus : Z -> rt_cpu;
  ipi : Z;
  cpus_lock : bool;
  critical_lock : bool;
  tm : tstate;
  otype : obj -> Z;
  containers : Z -> list obj;
  sems : oid -> rt_semaphore;
  mutexes : oid -> rt_mutex;
  events : oid -> rt_event;
  mailboxes : oid -> rt_mailbox;
  mqs : oid -> rt_messagequeue }.
Definition set_threads (v : tid -> thread) (x : kstate) : kstate :=
  mkK v (nests x) (lists x) (ready_group x) (cpus x) (ipi x) (cpus_lock x)
    (critical_lock x) (tm x) (otype x) (containers x) (sems x) (mutexes x)
    (events x) (mailboxes x) (mqs x).
Definition set_nests (v : tid -> nest) (x : kstate) : kstate :=
  mkK (threads x) v (lists x) (ready_group x) (cpus x) (ipi x) (cpus_lock x)
    (critical_lock x) (tm x) (otype x) (containers x) (sems x) (mutexes x)
    (events x) (mailboxes x) (mqs x).
Definition set_lists (v : lhead -> list tid) (x : kstate) : kstate :=
  mkK (threads x) (nests x) v (ready_group x) (cpus x) (ipi x) (cpus_lock x)
    (critical_lock x) (tm x) (otype x) (containers x) (sems x) (mutexes x)
    (events x) (mailboxes x) (mqs x).
Definition set_ready_group (v : Z) (x : kstate) : kstate :=
  mkK (threads x) (nests x) (lists x) v (cpus x) (ipi x) (cpus_lock x)
    (critical_lock x) (tm x) (otype x) (containers x) (sems x) (mutexes x)
    (events x) (mailboxes x) (mqs x).
Definition set_cpus (v : Z -> rt_cpu) (x : kstate) : kstate :=
  mkK (threads x) (nests x) (lists x) (ready_group x) v (ipi x) (cpus_lock
    x) (critical_lock x) (tm x) (otype x) (containers x) (sems x) (mutexes
    x) (events x) (mailboxes x) (mqs x).
Definition set_ipi (v : Z) (x : kstate) : kstate :=
  mkK (threads x) (nests x) (lists x) (ready_group x) (cpus x) v (cpus_lock
    x) (critical_lock x) (tm x) (otype x) (containers x) (sems x) (mutexes
    x) (events x) (mailboxes x) (mqs x).
Definition set_cpus_lock (v : bool) (x : kstate) : kstate :=
  mkK (threads x) (nests x) (lists x) (ready_group x) (cpus x) (ipi x) v
    (critical_lock x) (tm x) (otype x) (containers x) (sems x) (mutexes x)
    (events x) (mailboxes x) (mqs x).
Definition set_critical_lock (v : bool) (x : kstate) : kstate :=
  mkK (threads x) (nests x) (lists x) (ready_group x) (cpus x) (ipi x)
    (cpus_lock x) v (tm x) (otype x) (containers x) (sems x) (mutexes x)
    (events x) (mailboxes x) (mqs x).
Definition set_tm (v : tstate) (x : kstate) : kstate :=
  mkK (threads x) (nests x) (lists x) (ready_group x) (cpus x) (ipi x)
    (cpus_lock x) (critical_lock x) v (otype x) (containers x) (sems x)
    (mutexes x) (events x) (mailboxes x) (mqs x).
Definition set_otype (v : obj -> Z) (x : kstate) : kstate :=
  mkK (threads x) (nests x) (lists x) (ready_group x) (cpus x) (ipi x)
    (cpus_lock x) (critical_lock x) (tm x) v (containers x) (sems x)
    (mutexes x) (events x) (mailboxes x) (mqs x).
Definition set_containers (v : Z -> list obj) (x : kstate) : kstate :=
  mkK (threads x) (nests x) (lists x) (ready_group x) (cpus x) (ipi x)
    (cpus_lock x) (critical_lock x) (tm x) (otype x) v (sems x) (mutexes x)
    (events x) (mailboxes x) (mqs x).
Definition set_sems (v : oid -> rt_semaphore) (x : kstate) : kstate :=
  mkK (threads x) (nests x) (lists x) (ready_group x) (cpus x) (ipi x)
    (cpus_lock x) (critical_lock x) (tm x) (otype x) (containers x) v
    (mutexes x) (events x) (mailboxes x) (mqs x).
Definition set_mutexes (v : oid -> rt_mutex) (x : kstate) : kstate :=
  mkK (threads x) (nests x) (lists x) (ready_group x) (cpus x) (ipi x)
    (cpus_lock x) (critical_lock x) (tm x) (otype x) (containers x) (sems x)
    v (events x) (mailboxes x) (mqs x).
Definition set_events (v : oid -> rt_event) (x : kstate) : kstate :=
  mkK (threads x) (nests x) (lists x) (ready_group x) (cpus x) (ipi x)
    (cpus_lock x) (critical_lock x) (tm x) (otype x) (containers x) (sems x)
    (mutexes x) v (mailboxes x) (mqs x).
Definition set_mailboxes (v : oid -> rt_mailbox) (x : kstate) : kstate :=
  mkK (threads x) (nests x) (lists x) (ready_group x) (cpus x) (ipi x)
    (cpus_lock x) (critical_lock x) (tm x) (otype x) (containers x) (sems x)
    (mutexes x) (events x) v (mqs x).
Definition set_mqs (v : oid -> rt_messagequeue) (x : kstate) : kstate :=
  mkK (threads x) (nests x) (lists x) (ready_group x) (cpus x) (ipi x)
    (cpus_lock x) (critical_lock x) (tm x) (otype x) (containers x) (sems x)
    (mutexes x) (events x) (mailboxes x) v.

(** * Constants of [rtdef.h] and [rtconfig.h] *)
Definition RT_CPUS_NR : Z := 2.
Definition RT_CPU_DETACHED : Z := RT_CPUS_NR.
Definition RT_CPU_MASK : Z := 2 ^ RT_CPUS_NR - 1.
Definition RT_THREAD_PRIORITY_MAX : Z := 32.

Definition RT_THREAD_INIT : Z := 0x00.
Definition RT_THREAD_READY : Z := 0x01.
Definition RT_THREAD_SUSPEND : Z := 0x02.
Definition RT_THREAD_RUNNING : Z := 0x03.
Definition RT_THREAD_CLOSE : Z := 0x04.
Definition RT_THREAD_STAT_MASK : Z := 0x07.
Definition RT_THREAD_STAT_YIELD : Z := 0x08.
Definition RT_THREAD_STAT_YIELD_MASK : Z := RT_THREAD_STAT_YIELD.

Definition RT_EOK : Z := 0.
Definition RT_ERROR : Z := 1.
Definition RT_ETIMEOUT : Z := 2.
Definition RT_EFULL : Z := 3.
Definition RT_EEMPTY : Z := 4.
Definition RT_ENOMEM : Z := 5.
Definition RT_ENOSYS : Z := 6.
Definition RT_EBUSY : Z := 7.
Definition RT_EINTR : Z := 9.

Definition RT_IPC_FLAG_FIFO : Z := 0x00.
Definition RT_IPC_FLAG_PRIO : Z := 0x01.
Definition RT_IPC_CMD_RESET : Z := 0x01.

Definition RT_Object_Class_Thread : Z := 1.
Definition RT_Object_Class_Semaphore : Z := 2.
Definition RT_Object_Class_Mutex : Z := 3.
Definition RT_Object_Class_Event : Z := 4.
Definition RT_Object_Class_MailBox : Z := 5.
Definition RT_Object_Class_MessageQueue : Z := 6.
Definition RT_Object_Class_Timer : Z := 10.
Definition RT_Object_Class_Static : Z := 0x80.

(** * Access *)
Abbreviation K := (M kstate).

Definition thread_upd (t : tid) (f : thread -> thread) : K unit :=
  modify (fun s => set_threads (upd (threads s) t (f (threads s t))) s).
Definition nest_upd (t : tid) (f : nest -> nest) : K unit :=
  modify (fun s => set_nests (upd (nests s) t (f (nests s t))) s).
Definition cpu_upd (c : Z) (f : rt_cpu -> rt_cpu) : K unit :=
  modify (fun s => set_cpus (upd (cpus s) c (f (cpus s c))) s).

(** [rt_list_insert_before(head, &t->tlist)], [rt_list_insert_after(head, ...)]
    and [rt_list_remove(&t->tlist)]: a node is unlinked from the list it is
    in, wherever that is. *)
Definition list_insert_before (h : lhead) (t : tid) : K unit :=
  modify (fun s => set_lists (upd (lists s) h (lists s h ++ [t])) s).
Definition list_insert_after (h : lhead) (t : tid) : K unit :=
  modify (fun s => set_lists (upd (lists s) h (t :: lists s h)) s).
Definition list_remove (t : tid) : K unit :=
  modify (fun s => set_lists (fun h => remove_elt t (lists s h)) s).

(** Run a timer operation on the timer part of the kernel. *)
Definition on_tm {A} (m : M tstate A) : K A := fun s =>
  match m (tm s) with Some (a, ts) => Some (a, set_tm ts s) | None => None end.

Definition when (b : bool) (m : K unit) : K unit := if b then m else mret tt.

(** [rt_object_get_type] and [rt_object_is_systemobject]. *)
Definition rt_object_get_type (s : kstate) (o : obj) : Z :=
  Z.land (otype s o) (Z.lnot RT_Object_Class_Static).
Definition rt_object_is_systemobject (s : kstate) (o : obj) : bool :=
  negb (Z.land (otype s o) RT_Object_Class_Static =? 0).
Definition assert_type (o : obj) (class : Z) : K unit :=
  s ← get; assertM (rt_object_get_type s o =? class).

Definition rt_cpu_index (c : Z) : K Z := assertM ((0 <=? c) && (c <? RT_CPUS_NR));; mret c.

(** [thread->stat & RT_THREAD_STAT_MASK] *)
Definition th_stat (th : thread) : Z := Z.land (stat th) RT_THREAD_STAT_MASK.
(** [thread->stat = st | (thread->stat & ~RT_THREAD_STAT_MASK)] *)
Definition put_stat (st : Z) (th : thread) : thread :=
  set_stat (Z.lor st (Z.land (stat th) (Z.lnot RT_THREAD_STAT_MASK))) th.

(** * The CPU lock ([cpu.c])

    In the SMP configuration [rt_hw_interrupt_disable] is [rt_cpus_lock].
    [me] is the CPU that runs the code ([rt_hw_cpu_id()]).  Taking a spin lock
    that is held has no result: the CPU spins. *)
Definition rt_hw_spin_lock_cpus : K unit :=
  s ← get; assertM (negb (cpus_lock s));; modify (set_cpus_lock true).
Definition rt_hw_spin_unlock_cpus : K unit := modify (set_cpus_lock false).

Section cpu.
Context (me : Z).

Definition rt_thread_self (s : kstate) : option tid := current_thread (cpus s me).

Definition rt_cpus_lock : K unit :=
  s ← get;
  match rt_thread_self s with
  | None => mret tt
  | Some t =>
      let lock_nest := cpus_lock_nest (nests s t) in
      nest_upd t (fun n => set_cpus_lock_nest (u16 (cpus_lock_nest n + 1)) n);;
      when (lock_nest =? 0)
        (nest_upd t (fun n => set_scheduler_lock_nest
                                (u16 (scheduler_lock_nest n + 1)) n);;
         rt_hw_spin_lock_cpus)
  end.

Definition rt_cpus_unlock : K unit :=
  s ← get;
  match rt_thread_self s with
  | None => mret tt
  | Some t =>
      nest_upd t (fun n => set_cpus_lock_nest (u16 (cpus_lock_nest n - 1)) n);;
      s ← get;
      when (cpus_lock_nest (nests s t) =? 0)
        (nest_upd t (fun n => set_scheduler_lock_nest
                                (u16 (scheduler_lock_nest n - 1)) n);;
         rt_hw_spin_unlock_cpus)
  end.

Definition rt_cpus_lock_status_restore (thread : tid) : K unit :=
  cpu_upd me (set_current_thread (Some thread));;
  s ← get;
  when (cpus_lock_nest (nests s thread) =? 0) rt_hw_spin_unlock_cpus.

Definition rt_hw_interrupt_disable : K unit := rt_cpus_lock.
Definition rt_hw_interrupt_enable : K unit := rt_cpus_unlock.

(** What [rt_interrupt_get_nest()] returns, an [rt_uint8_t] (the whole function
    is in [Clock.v]), and the context checks of [rtdebug.h]. *)
Definition rt_interrupt_get_nest (s : kstate) : Z := u8 (irq_nest (cpus s me)).
Definition RT_DEBUG_NOT_IN_INTERRUPT : K unit :=
  s ← get; assertM (rt_interrupt_get_nest s =? 0).
Definition RT_DEBUG_IN_THREAD_CONTEXT : K unit :=
  s ← get; assertM (bool_decide (is_Some (rt_thread_self s)));;
  RT_DEBUG_NOT_IN_INTERRUPT.
End cpu.

(** [rt_tick_get()]: the tick counter of CPU 0. *)
Definition rt_tick_get (s : kstate) : Z := tick (cpus s 0).
