(* ===== verification/KInv.v ===== *)
(** Kernel states up to the lock counters, the depth of the CPU lock, and the
    well-formedness of the thread lists and priority bitmaps. *)
From S2P Require Import Prelude KService Timer KState.

(** * Symbolic execution of the accesses *)
Definition with_thread (t : tid) (th : thread) (s : kstate) : kstate :=
  set_threads (upd (threads s) t th) s.
Definition with_cpu (c : Z) (x : rt_cpu) (s : kstate) : kstate :=
  set_cpus (upd (cpus s) c x) s.
Definition with_list (h : lhead) (l : list tid) (s : kstate) : kstate :=
  set_lists (upd (lists s) h l) s.
Definition unlinked (t : tid) (s : kstate) : kstate :=
  set_lists (fun h => remove_elt t (lists s h)) s.

Lemma wp_thread_upd t f Q s :
  Q tt (with_thread t (f (threads s t)) s) -> wp (thread_upd t f) Q s.
Proof. done. Qed.
Lemma wp_cpu_upd c f Q s : Q tt (with_cpu c (f (cpus s c)) s) -> wp (cpu_upd c f) Q s.
Proof. done. Qed.
Lemma wp_insert_before h t Q s :
  Q tt (with_list h (lists s h ++ [t]) s) -> wp (list_insert_before h t) Q s.
Proof. done. Qed.
Lemma wp_insert_after h t Q s :
  Q tt (with_list h (t :: lists s h) s) -> wp (list_insert_after h t) Q s.
Proof. done. Qed.
Lemma wp_list_remove t Q s : Q tt (unlinked t s) -> wp (list_remove t) Q s.
Proof. done. Qed.
Lemma wp_when_true (m : K unit) (Q : unit -> kstate -> Prop) s :
  wp m Q s -> wp (when true m) Q s.
Proof. done. Qed.
Lemma wp_when_false (m : K unit) (Q : unit -> kstate -> Prop) s :
  Q tt s -> wp (when false m) Q s.
Proof. done. Qed.

Ltac wp_hook ::=
  lazymatch goal with
  | |- wp (timer_upd _ _) _ _ => apply wp_timer_upd
  | |- wp (timer_list_upd _) _ _ => apply wp_timer_list_upd
  | |- wp (_rt_timer_remove _) _ _ => apply wp_timer_remove
  | |- wp (thread_upd _ _) _ _ => apply wp_thread_upd
  | |- wp (cpu_upd _ _) _ _ => apply wp_cpu_upd
  | |- wp (list_insert_before _ _) _ _ => apply wp_insert_before
  | |- wp (list_insert_after _ _) _ _ => apply wp_insert_after
  | |- wp (list_remove _) _ _ => apply wp_list_remove
  | |- wp (when true _) _ _ => apply wp_when_true
  | |- wp (when false _) _ _ => apply wp_when_false
  end.

(** * States up to the lock bookkeeping

    [keq] compares everything but the CPU lock and its counters; memory
    is compared field by field and address by address. *)
Record keq (s s' : kstate) : Prop := {
  keq_threads : forall t, threads s t = threads s' t;
  keq_crit : forall t, critical_lock_nest (nests s t) = critical_lock_nest (nests s' t);
  keq_lists : forall h, lists s h = lists s' h;
  keq_group : ready_group s = ready_group s';
  keq_cpus : forall c, cpus s c = cpus s' c;
  keq_ipi : ipi s = ipi s';
  keq_critical : critical_lock s = critical_lock s';
  keq_tm : tm s = tm s';
  keq_otype : forall o, otype s o = otype s' o;
  keq_containers : forall c, containers s c = containers s' c;
  keq_sems : forall o, sems s o = sems s' o;
  keq_mutexes : forall o, mutexes s o = mutexes s' o;
  keq_events : forall o, events s o = events s' o;
  keq_mailboxes : forall o, mailboxes s o = mailboxes s' o;
  keq_mqs : forall o, mqs s o = mqs s' o }.

#[export] Instance keq_equivalence : Equivalence keq.
Proof.
  split.
  - intros s. by split.
  - intros s s' []. split; intros; symmetry; auto.
  - intros s1 s2 s3 [] []. split; intros; etrans; eauto.
Qed.

(** Two states that differ in the lock bookkeeping only. *)
Lemma keq_locks n b s :
  (forall t, critical_lock_nest (n t) = critical_lock_nest (nests s t)) ->
  keq s (set_cpus_lock b (set_nests n s)).
Proof. by split. Qed.
#[export] Hint Resolve keq_locks : rtt.
#[export] Hint Extern 1 (keq _ _) => reflexivity : rtt.

Lemma keq_set_cpus s s' f g :
  keq s s' -> (forall c, f c = g c) -> keq (set_cpus f s) (set_cpus g s').
Proof. intros [] Hf. by split. Qed.

Lemma keq_unlinked s s' t : keq s s' -> keq (unlinked t s) (unlinked t s').
Proof. intros []. split; try done. intros h. cbn. congruence. Qed.

Lemma keq_self s s' c : keq s s' -> rt_thread_self c s' = rt_thread_self c s.
Proof. intros E. unfold rt_thread_self. by rewrite (keq_cpus _ _ E). Qed.

(** * Depth of the CPU lock

    The thread that runs on [me] has taken the CPU lock [d] times; its
    scheduler counter is its critical-section depth, plus one while it holds
    the lock. *)
Definition lock_depth (me d : Z) (s : kstate) : Prop :=
  match rt_thread_self me s with
  | None => True
  | Some t =>
      let n := nests s t in
      cpus_lock_nest n = d /\ 0 <= critical_lock_nest n < 32768 /\
      scheduler_lock_nest n = critical_lock_nest n + (if d =? 0 then 0 else 1) /\
      cpus_lock s = negb (d =? 0)
  end.

(** What taking or releasing the lock on [me] leaves alone: all but the
    counters of the thread running there. *)
Definition lock_step (me : Z) (s s' : kstate) : Prop :=
  keq s s' /\
  forall t, rt_thread_self me s <> Some t -> nests s' t = nests s t.

Lemma lock_step_self me s s' :
  lock_step me s s' -> rt_thread_self me s' = rt_thread_self me s.
Proof. intros [[] _]. unfold rt_thread_self. congruence. Qed.

#[export] Instance lock_step_preorder me : PreOrder (lock_step me).
Proof.
  split.
  - intros s. by split.
  - intros s1 s2 s3 H1 H2. pose proof (lock_step_self _ _ _ H1) as E.
    destruct H1 as [E1 N1], H2 as [E2 N2]. split; [by etrans|].
    intros t Ht. rewrite N2, N1; congruence.
Qed.

(** The state with other lock counters and another state of the lock. *)
Definition relock (n : tid -> nest) (b : bool) (s : kstate) : kstate :=
  set_cpus_lock b (set_nests n s).

(** Counters that differ in those of the thread running on [me] only, and
    there not in the critical-section depth. *)
Definition agree (me : Z) (n : tid -> nest) (s : kstate) : Prop :=
  forall t, critical_lock_nest (n t) = critical_lock_nest (nests s t) /\
    (rt_thread_self me s <> Some t -> n t = nests s t).

Lemma agree_refl me s : agree me (nests s) s.
Proof. by split. Qed.

Lemma agree_upd me s t x n :
  rt_thread_self me s = Some t -> critical_lock_nest x = critical_lock_nest (n t) ->
  agree me n s -> agree me (upd n t x) s.
Proof.
  intros Hs Hc Ha t'. destruct (Ha t') as [Hc' Hn']. unfold upd. case_decide as E; [|done].
  subst t'. split; [congruence|]. intros Ht. congruence.
Qed.

Lemma lock_step_relock me n b s : agree me n s -> lock_step me s (relock n b s).
Proof. intros Ha. split; [apply keq_locks; apply Ha|]. intros t Ht. by apply Ha. Qed.

(** The runs of [rt_cpus_lock] and [rt_cpus_unlock]. *)
Lemma lock_run me d s :
  lock_depth me d s -> 0 <= d < 32768 -> exists n b,
    rt_hw_interrupt_disable me s = Some (tt, relock n b s) /\
    lock_depth me (d + 1) (relock n b s) /\ agree me n s.
Proof.
  intros Hl Hd. unfold rt_hw_interrupt_disable, rt_cpus_lock, mbind, M_bind, get.
  unfold lock_depth in *. destruct (rt_thread_self me s) as [t|] eqn:E.
  2: { exists (nests s), (cpus_lock s). split; [by destruct s|]. split; [|by split].
       unfold relock, rt_thread_self in *. cbn. by rewrite E. }
  destruct Hl as (Hc & Hcr & Hs & Hb). rewrite Hc.
  assert (u16 (d + 1) = d + 1) as Hu by (apply u16_small; lia).
  unfold nest_upd, modify, when, rt_hw_spin_lock_cpus, assertM, mbind, M_bind, get.
  destruct (Z.eqb_spec d 0) as [->|Hd0]; cbn [negb] in Hb.
  - cbn [cpus_lock set_nests]. rewrite Hb. eexists _, true. split; [reflexivity|].
    unfold relock, rt_thread_self in *. cbn. rewrite E, !upd_eq. cbn. rewrite Hc, Hs. split.
    + rewrite Z.add_0_r. by rewrite Hu, u16_small by lia.
    + apply agree_upd; [done|by rewrite upd_eq|]. by apply agree_upd, agree_refl.
  - exists (upd (nests s) t (set_cpus_lock_nest
      (u16 (cpus_lock_nest (nests s t) + 1)) (nests s t))), (cpus_lock s).
    split; [reflexivity|].
    unfold relock, rt_thread_self in *. cbn. rewrite E, !upd_eq. cbn. rewrite Hc, Hu, Hs. split.
    + destruct (Z.eqb_spec (d + 1) 0); [lia|]. done.
    + by apply agree_upd, agree_refl.
Qed.

Lemma unlock_run me d s :
  lock_depth me (d + 1) s -> 0 <= d < 32768 -> exists n b,
    rt_hw_interrupt_enable me s = Some (tt, relock n b s) /\
    lock_depth me d (relock n b s) /\ agree me n s.
Proof.
  intros Hl Hd. unfold rt_hw_interrupt_enable, rt_cpus_unlock, mbind, M_bind, get.
  unfold lock_depth in *. destruct (rt_thread_self me s) as [t|] eqn:E.
  2: { exists (nests s), (cpus_lock s). split; [by destruct s|]. split; [|by split].
       unfold relock, rt_thread_self in *. cbn. by rewrite E. }
  destruct Hl as (Hc & Hcr & Hs & Hb).
  unfold nest_upd, modify, when, rt_hw_spin_unlock_cpus, mbind, M_bind, get. cbn.
  rewrite upd_eq. cbn. rewrite Hc. replace (d + 1 - 1) with d by lia.
  destruct (Z.eqb_spec (d + 1) 0) as [?|_]; [lia|].
  assert (u16 d = d) as Hu by (apply u16_small; lia). rewrite Hu.
  destruct (Z.eqb_spec d 0) as [->|Hd0].
  - eexists _, false. split; [reflexivity|].
    unfold relock, rt_thread_self in *. cbn. rewrite E, !upd_eq. cbn. rewrite Hs. split.
    + split; [done|]. split; [done|]. split; [|done].
      rewrite Z.add_simpl_r, u16_small by lia. lia.
    + apply agree_upd; [done|by rewrite upd_eq|]. by apply agree_upd, agree_refl.
  - exists (upd (nests s) t (set_cpus_lock_nest d (nests s t))), (cpus_lock s).
    split; [reflexivity|].
    unfold relock, rt_thread_self in *. cbn. rewrite E, !upd_eq. cbn. rewrite Hb, Hs. split.
    + destruct (Z.eqb_spec d 0); done.
    + by apply agree_upd, agree_refl.
Qed.

Lemma wp_lock me d s (Q : unit -> kstate -> Prop) :
  lock_depth me d s -> 0 <= d < 32768 ->
  (forall s', lock_step me s s' -> lock_depth me (d + 1) s' -> Q tt s') ->
  wp (rt_hw_interrupt_disable me) Q s.
Proof.
  intros Hl Hd HQ. destruct (lock_run me d s Hl Hd) as (n & b & E & Hd' & Ha).
  unfold wp. rewrite E. apply HQ; [by apply lock_step_relock|done].
Qed.

Lemma wp_unlock me d s (Q : unit -> kstate -> Prop) :
  lock_depth me (d + 1) s -> 0 <= d < 32768 ->
  (forall s', lock_step me s s' -> lock_depth me d s' -> Q tt s') ->
  wp (rt_hw_interrupt_enable me) Q s.
Proof.
  intros Hl Hd HQ. destruct (unlock_run me d s Hl Hd) as (n & b & E & Hd' & Ha).
  unfold wp. rewrite E. apply HQ; [by apply lock_step_relock|done].
Qed.

(** * Well-formedness *)

(** The bitmap of a ready queue: bit [p] says whether list [p] has a thread. *)
Record bitmap_ok (g : Z) (q : Z -> list tid) : Prop := {
  bm_range : 0 <= g < 2 ^ 32;
  bm_bit : forall p, 0 <= p < 32 -> Z.testbit g p = bool_decide (q p <> []) }.

(** The ready list a thread belongs to. *)
Definition ready_head (th : thread) : lhead :=
  if bind_cpu th =? RT_CPUS_NR then Ready (current_priority th)
  else CpuReady (bind_cpu th) (current_priority th).

Definition is_ready_head (h : lhead) : bool :=
  match h with Ready _ | CpuReady _ _ => true | _ => false end.

(** What being linked behind a head says about a thread. *)
Definition loc_ok (h : lhead) (th : thread) : Prop :=
  match h with
  | Ready _ | CpuReady _ _ =>
      th_stat th = RT_THREAD_READY /\ ready_head th = h /\ oncpu th = RT_CPU_DETACHED
  | Defunct => th_stat th = RT_THREAD_CLOSE
  | Suspend _ | Sender _ => th_stat th = RT_THREAD_SUSPEND
  end.

Definition is_thread (s : kstate) (t : tid) : Prop :=
  rt_object_get_type s (OThread t) = RT_Object_Class_Thread.

(** Priority and mask of a thread that was started. *)
Definition prio_ok (th : thread) : Prop :=
  0 <= current_priority th < RT_THREAD_PRIORITY_MAX /\
  0 <= bind_cpu th <= RT_CPUS_NR /\
  number_mask th = 2 ^ current_priority th.

Definition schedulable (th : thread) : Prop :=
  th_stat th = RT_THREAD_READY \/ th_stat th = RT_THREAD_SUSPEND \/
  th_stat th = RT_THREAD_RUNNING.

Record kwf (s : kstate) : Prop := {
  kw_nodup : forall h, NoDup (lists s h);
  kw_disj : forall h h' t, t ∈ lists s h -> t ∈ lists s h' -> h = h';
  kw_loc : forall h t, t ∈ lists s h -> is_thread s t /\ loc_ok h (threads s t);
  kw_ready : forall t, is_thread s t -> th_stat (threads s t) = RT_THREAD_READY ->
    t ∈ lists s (ready_head (threads s t));
  kw_prio : forall t, is_thread s t -> schedulable (threads s t) ->
    prio_ok (threads s t);
  kw_group : bitmap_ok (ready_group s) (fun p => lists s (Ready p));
  kw_cgroup : forall c, 0 <= c < RT_CPUS_NR ->
    bitmap_ok (priority_group (cpus s c)) (fun p => lists s (CpuReady c p));
  kw_timer : forall t, ThreadTimer t ∈ timer_list (tm s) ->
    is_thread s t /\ th_stat (threads s t) = RT_THREAD_SUSPEND }.

#[export] Instance is_thread_proper : Proper (keq ==> eq ==> iff) is_thread.
Proof. intros s s' E ? t ->. unfold is_thread, rt_object_get_type. by rewrite (keq_otype _ _ E). Qed.

Lemma keq_is_thread s s' t : keq s s' -> is_thread s t <-> is_thread s' t.
Proof. intros E. by rewrite E. Qed.

#[export] Instance lists_proper : Proper (keq ==> eq ==> eq) lists.
Proof. intros s s' E ? h ->. apply E. Qed.
#[export] Instance threads_proper : Proper (keq ==> eq ==> eq) threads.
Proof. intros s s' E ? h ->. apply E. Qed.

#[export] Instance bitmap_ok_proper :
  Proper (eq ==> pointwise_relation Z eq ==> iff) bitmap_ok.
Proof.
  intros ? g -> q q' E. split; intros [H1 H2]; split; try done; intros p Hp.
  - rewrite <-E. by apply H2.
  - rewrite E. by apply H2.
Qed.

Lemma kwf_keq s s' : keq s s' -> kwf s -> kwf s'.
Proof.
  intros E [H1 H2 H3 H4 H5 H6 H7 H8]. split.
  - intros h. rewrite <-E. apply H1.
  - intros h h' t. rewrite <-!E. apply H2.
  - intros h t. rewrite <-!E. apply H3.
  - intros t. rewrite <-!E. apply H4.
  - intros t. rewrite <-!E. apply H5.
  - rewrite <-(keq_group _ _ E). eapply bitmap_ok_proper; [reflexivity| |exact H6].
    intros p. by rewrite E.
  - intros c Hc. rewrite <-(keq_cpus _ _ E).
    eapply bitmap_ok_proper; [reflexivity| |exact (H7 c Hc)]. intros p. by rewrite E.
  - intros t. rewrite <-(keq_tm _ _ E), <-!E. apply H8.
Qed.

#[export] Instance kwf_proper : Proper (keq ==> iff) kwf.
Proof. intros s s' E. split; apply kwf_keq; [done|by symmetry]. Qed.

(** ** Status bits *)
Lemma th_stat_put st th : 0 <= st < 8 -> th_stat (put_stat st th) = st.
Proof.
  intros Hst. unfold th_stat, put_stat, RT_THREAD_STAT_MASK. cbn [stat set_stat].
  rewrite Z.land_lor_distr_l, land_clear, Z.lor_0_r.
  change 7 with (Z.ones 3). rewrite Z.land_ones by lia. apply Z.mod_small.
  change (2 ^ 3) with 8. lia.
Qed.

(** ** Bitmaps *)
Lemma bitmap_set g q q' p :
  bitmap_ok g q -> 0 <= p < 32 -> q' p <> [] ->
  (forall p', p' <> p -> q' p' = q p') -> bitmap_ok (Z.lor g (2 ^ p)) q'.
Proof.
  intros [Hr Hb] Hp Hne Ho. split.
  - split; [apply Z.lor_nonneg; lia|].
    destruct (decide (Z.lor g (2 ^ p) <= 0)); [lia|].
    apply Z.log2_lt_cancel. rewrite Z.log2_lor by lia.
    rewrite Z.log2_pow2 by lia. rewrite Z.log2_pow2 by lia.
    destruct (decide (g = 0)) as [->|]; [cbn; lia|].
    assert (Z.log2 g < 32) by (apply Z.log2_lt_pow2; lia). lia.
  - intros p' Hp'. rewrite Z.lor_spec, testbit_pow2, Hb by lia.
    destruct (decide (p = p')) as [->|].
    + rewrite (bool_decide_true (p' = p')), orb_true_r by done.
      by rewrite bool_decide_true.
    + rewrite (bool_decide_false (p = p')), orb_false_r by done.
      by rewrite Ho by done.
Qed.

Lemma bitmap_clear g q q' p m :
  bitmap_ok g q -> 0 <= p < 32 -> q' p = [] -> (m = 2 ^ p \/ m = 0 /\ q p = []) ->
  (forall p', p' <> p -> q' p' = q p') -> bitmap_ok (Z.land g (Z.lnot m)) q'.
Proof.
  intros [Hr Hb] Hp He Hm Ho.
  assert (Hbit : forall i, 0 <= i -> Z.testbit (Z.land g (Z.lnot m)) i =
                 Z.testbit g i && negb (Z.testbit m i)).
  { intros i Hi. by rewrite Z.land_spec, Z.lnot_spec by lia. }
  split.
  - assert (0 <= Z.land g (Z.lnot m)) by (apply Z.land_nonneg; lia).
    split; [done|]. destruct (decide (Z.land g (Z.lnot m) = 0)) as [->|]; [lia|].
    apply Z.log2_lt_pow2; [lia|]. eapply Z.le_lt_trans; [|apply Z.log2_lt_pow2 with (a := g)].
    + assert (L : Z.testbit g (Z.log2 (Z.land g (Z.lnot m))) = true).
      { pose proof (Z.bit_log2 (Z.land g (Z.lnot m)) ltac:(lia)) as L.
        rewrite Hbit in L by apply Z.log2_nonneg. by apply andb_true_iff in L as [? _]. }
      destruct (decide (Z.log2 g < Z.log2 (Z.land g (Z.lnot m)))); [|lia].
      by rewrite Z.bits_above_log2 in L by lia.
    + destruct (decide (g = 0)) as [->|]; [by rewrite Z.land_0_l in *|lia].
    + lia.
  - intros p' Hp'. rewrite Hbit, Hb by lia.
    destruct (decide (p' = p)) as [->|Hne].
    + rewrite He. rewrite (bool_decide_false ([] <> [])) by naive_solver.
      destruct Hm as [->|[-> Hq]].
      * by rewrite Z.pow2_bits_true, andb_false_r by lia.
      * rewrite Hq. by rewrite bool_decide_false by naive_solver.
    + rewrite Ho by done. destruct Hm as [->|[-> _]].
      * by rewrite Z.pow2_bits_false, andb_true_r by lia.
      * by rewrite Z.bits_0, andb_true_r.
Qed.

(** ** Moving threads between lists

    [remove_core t] is the effect of [rt_schedule_remove_thread]: unlink, and
    clear the priority bit when the ready list of [t] is empty. *)
Definition remove_core (t : tid) (s : kstate) : kstate :=
  let s1 := unlinked t s in
  let th := threads s t in
  if bool_decide (lists s1 (ready_head th) = []) then
    if bind_cpu th =? RT_CPUS_NR then
      set_ready_group (Z.land (ready_group s) (Z.lnot (number_mask th))) s1
    else
      set_cpus (upd (cpus s) (bind_cpu th) (set_priority_group
        (Z.land (priority_group (cpus s (bind_cpu th))) (Z.lnot (number_mask th)))
        (cpus s (bind_cpu th)))) s1
  else s1.

Lemma remove_core_lists t s h : lists (remove_core t s) h = remove_elt t (lists s h).
Proof. unfold remove_core. by repeat case_match. Qed.
Lemma remove_core_threads t s : threads (remove_core t s) = threads s.
Proof. unfold remove_core. by repeat case_match. Qed.
Lemma remove_core_tm t s : tm (remove_core t s) = tm s.
Proof. unfold remove_core. by repeat case_match. Qed.
Lemma remove_core_otype t s : otype (remove_core t s) = otype s.
Proof. unfold remove_core. by repeat case_match. Qed.

(** A thread that is in no list. *)
Definition unlinked_in (s : kstate) (t : tid) : Prop := forall h, t ∉ lists s h.

Lemma ready_head_inj th h :
  ready_head th = h ->
  match h with
  | Ready p => bind_cpu th = RT_CPUS_NR /\ current_priority th = p
  | CpuReady c p => bind_cpu th = c /\ bind_cpu th <> RT_CPUS_NR /\ current_priority th = p
  | _ => False
  end.
Proof. unfold ready_head. intros <-. by destruct (Z.eqb_spec (bind_cpu th) RT_CPUS_NR). Qed.

(** A thread in a ready list is there because of its status. *)
Lemma kwf_not_ready s t h :
  kwf s -> t ∈ lists s h -> th_stat (threads s t) <> RT_THREAD_READY ->
  is_ready_head h = false.
Proof.
  intros Hk Hin Hst. destruct (kw_loc _ Hk h t Hin) as [_ Hl].
  destruct h; try done; by destruct Hl.
Qed.

(** A ready thread runs nowhere. *)
Lemma ready_oncpu s t :
  kwf s -> is_thread s t -> th_stat (threads s t) = RT_THREAD_READY ->
  oncpu (threads s t) = RT_CPU_DETACHED.
Proof.
  intros Hk Ht Hst. pose proof (kw_ready _ Hk t Ht Hst) as Hin.
  destruct (kw_loc _ Hk _ _ Hin) as [_ Hl]. unfold ready_head in Hl.
  by destruct (bind_cpu (threads s t) =? RT_CPUS_NR); destruct Hl as (_ & _ & ?).
Qed.

Section unlink.
Context (s : kstate) (t : tid) (th' : thread) (Hk : kwf s).
Context (Hth : is_thread s t -> schedulable th' -> prio_ok th').
Context (Hnr : th_stat th' <> RT_THREAD_READY).
Context (Htm : ThreadTimer t ∈ timer_list (tm s) -> th_stat th' = RT_THREAD_SUSPEND).

Lemma kwf_unlink_common s' :
  (forall h, lists s' h = remove_elt t (lists s h)) ->
  (forall x, threads s' x = upd (threads s) t th' x) ->
  otype s' = otype s -> tm s' = tm s ->
  bitmap_ok (ready_group s') (fun p => lists s' (Ready p)) ->
  (forall c, 0 <= c < RT_CPUS_NR ->
    bitmap_ok (priority_group (cpus s' c)) (fun p => lists s' (CpuReady c p))) ->
  kwf s'.
Proof.
  intros El Et Eo Em Hg Hc.
  assert (Hin : forall h x, x ∈ lists s' h -> x <> t /\ x ∈ lists s h).
  { intros h x. rewrite El. apply elem_of_remove_elt. }
  assert (Hty : forall x, is_thread s' x <-> is_thread s x).
  { intros x. unfold is_thread, rt_object_get_type. by rewrite Eo. }
  split; try done.
  - intros h. rewrite El. apply NoDup_remove_elt, Hk.
  - intros h h' x [_ Hx]%Hin [_ Hx']%Hin. eapply (kw_disj _ Hk); eauto.
  - intros h x [Hne Hx]%Hin. rewrite Hty, Et, upd_ne by done. by apply Hk.
  - intros x. rewrite Hty, Et. destruct (decide (t = x)) as [<-|?].
    + by rewrite upd_eq.
    + rewrite upd_ne by done. intros Hx Hs. rewrite El. apply elem_of_remove_elt.
      split; [done|]. by apply Hk.
  - intros x. rewrite Hty, Et. destruct (decide (t = x)) as [<-|?].
    + rewrite upd_eq. apply Hth.
    + rewrite upd_ne by done. apply Hk.
  - intros x. rewrite Em, Hty, Et. intros Hx. destruct (kw_timer _ Hk x Hx).
    destruct (decide (t = x)) as [<-|?]; [by rewrite upd_eq; auto|by rewrite upd_ne].
Qed.

Lemma kwf_unlink_quiet :
  th_stat (threads s t) <> RT_THREAD_READY -> kwf (with_thread t th' (unlinked t s)).
Proof.
  intros Hst. assert (E : forall h, is_ready_head h = true -> t ∉ lists s h).
  { intros h Hh Hin. by rewrite (kwf_not_ready s t h Hk Hin Hst) in Hh. }
  apply kwf_unlink_common; try done.
  - eapply bitmap_ok_proper; [reflexivity| |apply Hk]. intros p. cbn.
    by apply remove_elt_notin, E.
  - intros c Hc. eapply bitmap_ok_proper; [reflexivity| |by apply Hk]. intros p. cbn.
    by apply remove_elt_notin, E.
Qed.

(** Unlinking through the scheduler: the mask is right, or still zero. *)
Lemma kwf_remove :
  0 <= current_priority (threads s t) < 32 ->
  0 <= bind_cpu (threads s t) <= RT_CPUS_NR ->
  (number_mask (threads s t) = 2 ^ current_priority (threads s t) \/
   number_mask (threads s t) = 0 /\ th_stat (threads s t) <> RT_THREAD_READY) ->
  kwf (with_thread t th' (remove_core t s)).
Proof.
  intros Hp Hb Hm. set (th := threads s t) in *.
  assert (Hot : forall h, h <> ready_head th ->
    is_ready_head h = true -> remove_elt t (lists s h) = lists s h).
  { intros h Hne Hh. apply remove_elt_notin. intros Hin.
    destruct (kw_loc _ Hk h t Hin) as [_ Hl]. fold th in Hl.
    destruct h; try discriminate; by destruct Hl as (_ & ? & _). }
  assert (Hself : remove_elt t (lists s (ready_head th)) = [] ->
    number_mask th = 2 ^ current_priority th \/
    number_mask th = 0 /\ lists s (ready_head th) = []).
  { intros He. destruct Hm as [|[Hm Hst]]; [by left|]. right. split; [done|].
    rewrite remove_elt_notin in He; [done|]. intros Hin.
    destruct (kw_loc _ Hk _ t Hin) as [_ Hl]. fold th in Hl. unfold ready_head in Hl.
    destruct (bind_cpu th =? RT_CPUS_NR); by destruct Hl. }
  apply kwf_unlink_common.
  - intros h. cbn. apply remove_core_lists.
  - intros x. cbn. by rewrite remove_core_threads.
  - cbn. apply remove_core_otype.
  - cbn. apply remove_core_tm.
  - cbn [with_thread ready_group set_threads lists].
    eapply bitmap_ok_proper; [reflexivity|intros p; apply remove_core_lists|].
    unfold remove_core. fold th. case_bool_decide as He; cbn in He;
      [destruct (Z.eqb_spec (bind_cpu th) RT_CPUS_NR) as [Hbe|Hbe]|]; cbn.
    + assert (Er : ready_head th = Ready (current_priority th))
        by (unfold ready_head; by rewrite Hbe). rewrite Er in *.
      eapply (bitmap_clear _ (fun p => lists s (Ready p)) _ (current_priority th));
        [apply Hk|done|done|by apply Hself|].
      intros p' Hp'. apply Hot; [congruence|done].
    + eapply bitmap_ok_proper; [reflexivity| |apply Hk]. intros p. apply Hot; [|done].
      unfold ready_head. apply Z.eqb_neq in Hbe. by rewrite Hbe.
    + assert (G := kw_group _ Hk). split; [apply G|]. intros p Hp'.
      rewrite (bm_bit _ _ G) by done. apply bool_decide_ext.
      destruct (decide (Ready p = ready_head th)) as [E|Hne].
      * rewrite <-E in He. split; [done|]. intros _ E2. by rewrite E2 in He.
      * by rewrite Hot.
  - intros c Hc. cbn [with_thread cpus set_threads lists].
    eapply bitmap_ok_proper; [reflexivity|intros p; apply remove_core_lists|].
    unfold remove_core. fold th. case_bool_decide as He; cbn in He;
      [destruct (Z.eqb_spec (bind_cpu th) RT_CPUS_NR) as [Hbe|Hbe]|]; cbn.
    + eapply bitmap_ok_proper; [reflexivity| |by apply Hk]. intros p. apply Hot; [|done].
      unfold ready_head. by rewrite Hbe.
    + assert (Er : ready_head th = CpuReady (bind_cpu th) (current_priority th)).
      { unfold ready_head. apply Z.eqb_neq in Hbe. by rewrite Hbe. } rewrite Er in *.
      destruct (decide (bind_cpu th = c)) as [<-|Hne].
      * rewrite upd_eq. cbn.
        eapply (bitmap_clear _ (fun p => lists s (CpuReady (bind_cpu th) p)) _
                  (current_priority th)); [by apply Hk|done|done|by apply Hself|].
        intros p' Hp'. apply Hot; [congruence|done].
      * rewrite upd_ne by done. eapply bitmap_ok_proper; [reflexivity| |by apply Hk].
        intros p. apply Hot; [congruence|done].
    + assert (G := kw_cgroup _ Hk c Hc). split; [apply G|]. intros p Hp'.
      rewrite (bm_bit _ _ G) by done. apply bool_decide_ext.
      destruct (decide (CpuReady c p = ready_head th)) as [E|Hne].
      * rewrite <-E in He. split; [done|]. intros _ E2. by rewrite E2 in He.
      * by rewrite Hot.
Qed.
End unlink.

(** Linking a thread that is in no list. *)
Section link.
Context (s s' : kstate) (t : tid) (th' : thread) (h : lhead) (l1 l2 : list tid).
Context (Hk : kwf s) (Hu : unlinked_in s t) (Hthr : is_thread s t).
Context (Hth : schedulable th' -> prio_ok th') (Hl : loc_ok h th').
Context (Htm : ThreadTimer t ∈ timer_list (tm s) -> th_stat th' = RT_THREAD_SUSPEND).
Context (Hsplit : lists s h = l1 ++ l2) (Hh : lists s' h = l1 ++ t :: l2).
Context (Hoh : forall x, x <> h -> lists s' x = lists s x).
Context (Et : forall x, threads s' x = upd (threads s) t th' x).
Context (Eo : otype s' = otype s) (Em : tm s' = tm s).
Context (Eg : ready_group s' =
  match h with Ready _ => Z.lor (ready_group s) (number_mask th') | _ => ready_group s end).
Context (Ec : forall c, priority_group (cpus s' c) =
  match h with
  | CpuReady c' _ => if decide (c' = c) then Z.lor (priority_group (cpus s c)) (number_mask th')
                     else priority_group (cpus s c)
  | _ => priority_group (cpus s c) end).

Lemma kwf_link : kwf s'.
Proof using All.
  assert (Hin : forall x y, y ∈ lists s' x <-> y ∈ lists s x \/ x = h /\ y = t).
  { intros x y. destruct (decide (x = h)) as [->|Hne].
    - rewrite Hh, Hsplit. set_solver.
    - rewrite Hoh by done. naive_solver. }
  assert (Hty : forall x, is_thread s' x <-> is_thread s x).
  { intros x. unfold is_thread, rt_object_get_type. by rewrite Eo. }
  assert (Hpr : is_ready_head h = true -> prio_ok th' /\ h = ready_head th').
  { intros Hr. destruct h; try done; destruct Hl as (Hs & Hr' & _);
      (split; [apply Hth; by left|done]). }
  split.
  - intros x. destruct (decide (x = h)) as [->|Hne]; [|rewrite Hoh by done; apply Hk].
    rewrite Hh. rewrite <-Permutation_middle. constructor.
    + rewrite <-Hsplit. apply Hu.
    + rewrite <-Hsplit. apply Hk.
  - intros x x' y Hx Hx'. apply Hin in Hx, Hx'.
    destruct Hx as [Hx|[Ex Ey]], Hx' as [Hx'|[Ex' Ey']].
    + eapply (kw_disj _ Hk); eauto.
    + rewrite Ey' in Hx. by destruct (Hu x).
    + rewrite Ey in Hx'. by destruct (Hu x').
    + congruence.
  - intros x y Hx. apply Hin in Hx as [Hx|[-> ->]].
    + rewrite Hty, Et, upd_ne by (intros E; apply (Hu x); by rewrite E). by apply Hk.
    + by rewrite Hty, Et, upd_eq.
  - intros y. rewrite Hty, Et, Hin. destruct (decide (t = y)) as [<-|?].
    + rewrite upd_eq. intros _ Hs. right. split; [|done].
      destruct h; cbn in Hl; first [by destruct Hl as (_ & ? & _)|by rewrite Hs in Hl].
    + rewrite upd_ne by done. left. by apply Hk.
  - intros y. rewrite Hty, Et. destruct (decide (t = y)) as [<-|?].
    + rewrite upd_eq. auto.
    + rewrite upd_ne by done. apply Hk.
  - rewrite Eg. destruct h as [p| | | |] eqn:Eh.
    2-5: eapply bitmap_ok_proper; [reflexivity| |apply Hk]; intros p';
      cbn; by rewrite Hoh.
    destruct Hpr as [(Hp & _ & Hm) Hr]; [done|]. symmetry in Hr.
    apply ready_head_inj in Hr as [_ Hcp].
    rewrite Hm, Hcp. rewrite Hcp in Hp.
    eapply bitmap_set; [apply Hk|exact Hp|cbn; rewrite Hh; by destruct l1|].
    intros p' Hp'. cbn. apply Hoh. congruence.
  - intros c Hc. rewrite Ec. destruct h as [|c' p| | |] eqn:Eh.
    1,3-5: eapply bitmap_ok_proper; [reflexivity| |by apply Hk]; intros p';
      cbn; by rewrite Hoh.
    case_decide as Hcc.
    + subst c'. destruct Hpr as [(Hp & _ & Hm) Hr]; [done|]. symmetry in Hr.
      apply ready_head_inj in Hr as (_ & _ & Hcp). rewrite Hm, Hcp. rewrite Hcp in Hp.
      eapply bitmap_set; [by apply Hk|exact Hp|cbn; rewrite Hh; by destruct l1|].
      intros p' Hp'. cbn. apply Hoh. congruence.
    + eapply bitmap_ok_proper; [reflexivity| |by apply Hk]. intros p'. cbn.
      apply Hoh. congruence.
  - intros y. rewrite Em, Hty, Et. intros Hy. destruct (kw_timer _ Hk y Hy).
    destruct (decide (t = y)) as [<-|?]; [by rewrite upd_eq; auto|by rewrite upd_ne].
Qed.
End link.

(** Changing a thread without moving it: the fields the lists depend on stay. *)
Definition same_place (th th' : thread) : Prop :=
  th_stat th' = th_stat th /\ current_priority th' = current_priority th /\
  bind_cpu th' = bind_cpu th /\ number_mask th' = number_mask th /\
  (th_stat th = RT_THREAD_READY -> oncpu th' = oncpu th).

Lemma kwf_touch s s' t th' :
  kwf s -> same_place (threads s t) th' ->
  (forall h, lists s' h = lists s h) ->
  (forall x, threads s' x = upd (threads s) t th' x) ->
  otype s' = otype s -> ready_group s' = ready_group s ->
  (forall c, priority_group (cpus s' c) = priority_group (cpus s c)) ->
  (forall x, ThreadTimer x ∈ timer_list (tm s') -> ThreadTimer x ∈ timer_list (tm s)) ->
  kwf s'.
Proof.
  intros Hk (Hs & Hp & Hb & Hm & Ho) El Et Eo Eg Ec Em.
  assert (Hty : forall x, is_thread s' x <-> is_thread s x).
  { intros x. unfold is_thread, rt_object_get_type. by rewrite Eo. }
  assert (Hrh : ready_head th' = ready_head (threads s t))
    by (unfold ready_head; by rewrite Hb, Hp).
  assert (Hloc : forall h, loc_ok h (threads s t) -> loc_ok h th').
  { intros h. destruct h; cbn; rewrite Hs, ?Hrh; try done;
      intros (Hr & ? & ?); rewrite Ho by done; done. }
  assert (Hx : forall (P : thread -> thread -> Prop), (forall th, P th th) ->
    P (threads s t) th' -> forall x, P (threads s x) (threads s' x)).
  { intros P Hrefl HP x. rewrite Et. destruct (decide (t = x)) as [<-|?].
    - by rewrite upd_eq.
    - rewrite upd_ne by done. apply Hrefl. }
  split.
  - intros h. rewrite El. apply Hk.
  - intros h h' x. rewrite !El. apply Hk.
  - intros h x. rewrite El, Hty. intros Hin. destruct (kw_loc _ Hk h x Hin) as [? Hl].
    split; [done|]. revert Hl.
    apply (Hx (fun a b => loc_ok h a -> loc_ok h b)); auto.
  - intros x. rewrite Hty, El. intros Ht. pose proof (kw_ready _ Hk x Ht) as R. revert R.
    apply (Hx (fun a b => (th_stat a = RT_THREAD_READY -> x ∈ lists s (ready_head a)) ->
      th_stat b = RT_THREAD_READY -> x ∈ lists s (ready_head b))); [done|].
    by rewrite Hs, Hrh.
  - intros x. rewrite Hty. intros Ht. pose proof (kw_prio _ Hk x Ht) as R. revert R.
    apply (Hx (fun a b => (schedulable a -> prio_ok a) -> schedulable b -> prio_ok b));
      [done|]. unfold schedulable, prio_ok. by rewrite Hs, Hp, Hb, Hm.
  - rewrite Eg. eapply bitmap_ok_proper; [reflexivity| |apply Hk]. intros p. apply El.
  - intros c Hc. rewrite Ec. eapply bitmap_ok_proper; [reflexivity| |by apply Hk].
    intros p. apply El.
  - intros x Hin. rewrite Hty. destruct (kw_timer _ Hk x) as [? Hst]; [by apply Em|].
    split; [done|]. rewrite <-Hst.
    apply (Hx (fun a b => th_stat b = th_stat a)); [done|done].
Qed.

(** * Specifications up to the lock bookkeeping

    [does me d s s1 s'] : from [s] the run ends in [s'], which is [s1] up to
    the lock bookkeeping, with the CPU lock of [me] at depth [d] again and the
    counters of the other threads untouched. *)
Definition does (me d : Z) (s s1 s' : kstate) : Prop :=
  keq s1 s' /\ lock_depth me d s' /\
  forall t, rt_thread_self me s <> Some t -> nests s' t = nests s t.

Lemma lock_depth_frame me d s s' :
  rt_thread_self me s' = rt_thread_self me s -> nests s' = nests s ->
  cpus_lock s' = cpus_lock s -> lock_depth me d s -> lock_depth me d s'.
Proof. unfold lock_depth. by intros -> -> ->. Qed.

(** The end of a critical section that began in [s] and left the lock alone. *)
Lemma wp_unlock_does me d s s1 s2 target :
  lock_step me s s1 -> lock_depth me (d + 1) s1 -> 0 <= d < 32767 ->
  keq target s2 -> rt_thread_self me s2 = rt_thread_self me s1 ->
  nests s2 = nests s1 -> cpus_lock s2 = cpus_lock s1 ->
  wp (rt_hw_interrupt_enable me) (fun _ => does me d s target) s2.
Proof.
  intros H1 Hd1 Hd E Hself Hn Hb.
  apply (wp_unlock me d); [by eapply lock_depth_frame|lia|].
  intros s3 [E3 N3] Hd3. split_and!; [by etrans|done|].
  intros t Ht. pose proof (lock_step_self _ _ _ H1). rewrite N3 by congruence.
  rewrite Hn. by apply H1.
Qed.

Lemma does_trans me d s s1 s2 s3 s4 :
  does me d s s1 s2 -> rt_thread_self me s1 = rt_thread_self me s ->
  does me d s2 s3 s4 -> does me d s s3 s4.
Proof.
  intros (E1 & _ & N1) Hself (E2 & D2 & N2). split_and!; [done|done|].
  intros t Ht. rewrite N2; [by apply N1|].
  unfold rt_thread_self in *. rewrite <-(keq_cpus _ _ E1). congruence.
Qed.
