(* ===== verification/Sched.v ===== *)
(** The SMP scheduler ([rt-thread/src/scheduler.c]): the global and per-CPU
    ready queues with their priority bitmaps, the choice of the next thread,
    [rt_schedule] and the scheduling at interrupt exit, critical sections. *)
From S2P Require Import Prelude KService Timer KState KInv.

Section sched.
Context (me : Z).

(** [__rt_ffs(group) - 1] in a [rt_ubase_t]: 2^64 - 1 for an empty group. *)
Definition highest_of_group (group : Z) : Z := u64 (__rt_ffs group - 1).

(** The entry of [head->next]: there is none when the list is empty. *)
Definition first_thread (h : lhead) : K tid := s ← get; ofopt (head (lists s h)).

Definition _get_highest_priority_thread : K (tid * Z) :=
  s ← get;
  let highest_ready_priority := highest_of_group (ready_group s) in
  let local_highest_ready_priority :=
    highest_of_group (priority_group (cpus s me)) in
  if highest_ready_priority <? local_highest_ready_priority then
    t ← first_thread (Ready highest_ready_priority);
    mret (t, highest_ready_priority)
  else
    t ← first_thread (CpuReady me local_highest_ready_priority);
    mret (t, local_highest_ready_priority).

Definition rt_hw_ipi_send (mask : Z) : K unit :=
  modify (fun s => set_ipi (Z.lor (ipi s) mask) s).

Definition rt_schedule_insert_thread (thread : tid) : K unit :=
  rt_hw_interrupt_disable me;;
  s ← get;
  let th := threads s thread in
  (if negb (oncpu th =? RT_CPU_DETACHED) then
     thread_upd thread (put_stat RT_THREAD_RUNNING)
   else
     thread_upd thread (put_stat RT_THREAD_READY);;
     if bind_cpu th =? RT_CPUS_NR then
       modify (fun s => set_ready_group (Z.lor (ready_group s) (number_mask th)) s);;
       list_insert_before (Ready (current_priority th)) thread;;
       rt_hw_ipi_send (Z.lxor RT_CPU_MASK (Z.shiftl 1 me))
     else
       c ← rt_cpu_index (bind_cpu th);
       cpu_upd c (fun pcpu => set_priority_group
                    (Z.lor (priority_group pcpu) (number_mask th)) pcpu);;
       list_insert_before (CpuReady c (current_priority th)) thread;;
       when (negb (me =? bind_cpu th)) (rt_hw_ipi_send (Z.shiftl 1 (bind_cpu th))));;
  rt_hw_interrupt_enable me.

Definition rt_schedule_remove_thread (thread : tid) : K unit :=
  rt_hw_interrupt_disable me;;
  list_remove thread;;
  s ← get;
  let th := threads s thread in
  (if bind_cpu th =? RT_CPUS_NR then
     when (bool_decide (lists s (Ready (current_priority th)) = []))
       (modify (fun s => set_ready_group
          (Z.land (ready_group s) (Z.lnot (number_mask th))) s))
   else
     c ← rt_cpu_index (bind_cpu th);
     when (bool_decide (lists s (CpuReady c (current_priority th)) = []))
       (cpu_upd c (fun pcpu => set_priority_group
          (Z.land (priority_group pcpu) (Z.lnot (number_mask th))) pcpu)));;
  rt_hw_interrupt_enable me.

(** The choice between the current thread and the best ready one, common to
    [rt_schedule] and [rt_scheduler_do_irq_switch]: the thread to run next
    and the highest ready priority. *)
Definition pick_to_thread (current : tid) : K (tid * Z) :=
  '(to, highest) ← _get_highest_priority_thread;
  thread_upd current (set_oncpu RT_CPU_DETACHED);;
  s ← get;
  let cur := threads s current in
  to ← (if th_stat cur =? RT_THREAD_RUNNING then
          if current_priority cur <? highest then mret current
          else if (current_priority cur =? highest) &&
                  (Z.land (stat cur) RT_THREAD_STAT_YIELD_MASK =? 0) then mret current
          else
            thread_upd current (fun th => set_stat
              (Z.land (stat th) (Z.lnot RT_THREAD_STAT_YIELD_MASK)) th);;
            rt_schedule_insert_thread current;;
            mret to
        else mret to);
  thread_upd to (set_oncpu me);;
  mret (to, highest).


(** The common part of a switch: take [to] out of the ready queue and mark
    it running. *)
Definition switch_prepare (to : tid) (highest : Z) : K unit :=
  cpu_upd me (set_cpu_priority (u8 highest));;
  rt_schedule_remove_thread to;;
  thread_upd to (put_stat RT_THREAD_RUNNING).

(** [rt_hw_context_switch] saves the context of the caller and lets [to]
    run: [rt_cpus_lock_status_restore], then [to] goes on where it was
    switched out.  A thread switched out inside [rt_schedule] still owns the
    CPU lock there and its first action is the final
    [rt_hw_interrupt_enable]; a fresh thread, or one switched out at an
    interrupt exit, has nothing to release. *)
Definition rt_hw_context_switch (to : tid) : K unit :=
  rt_cpus_lock_status_restore me to;;
  s ← get;
  when (negb (cpus_lock_nest (nests s to) =? 0)) (rt_hw_interrupt_enable me).

Definition rt_schedule : K unit :=
  rt_hw_interrupt_disable me;;
  s ← get;
  let pcpu := cpus s me in
  if negb (irq_nest pcpu =? 0) then
    cpu_upd me (set_irq_switch_flag 1);;
    rt_hw_interrupt_enable me
  else
    current ← ofopt (current_thread pcpu);
    if (scheduler_lock_nest (nests s current) =? 1) &&
       (negb (ready_group s =? 0) || negb (priority_group pcpu =? 0))
    then
      '(to, highest) ← pick_to_thread current;
      if decide (to = current) then rt_hw_interrupt_enable me
      else
        switch_prepare to highest;;
        rt_hw_context_switch to
    else rt_hw_interrupt_enable me.

Definition rt_scheduler_ipi_handler : K unit := rt_schedule.

(** At interrupt exit the interrupted context is what is saved, so the lock
    counters of the interrupted thread go back to their values outside the
    handler before the switch. *)
Definition rt_scheduler_do_irq_switch : K unit :=
  rt_hw_interrupt_disable me;;
  s ← get;
  let pcpu := cpus s me in
  current ← ofopt (current_thread pcpu);
  if irq_switch_flag pcpu =? 0 then rt_hw_interrupt_enable me
  else if (scheduler_lock_nest (nests s current) =? 1) && (irq_nest pcpu =? 0) then
    cpu_upd me (set_irq_switch_flag 0);;
    if negb (ready_group s =? 0) || negb (priority_group pcpu =? 0) then
      '(to, highest) ← pick_to_thread current;
      if decide (to = current) then rt_hw_interrupt_enable me
      else
        switch_prepare to highest;;
        nest_upd current (fun n => set_cpus_lock_nest (u16 (cpus_lock_nest n - 1)) n);;
        nest_upd current (fun n => set_scheduler_lock_nest
                                     (u16 (scheduler_lock_nest n - 1)) n);;
        rt_hw_context_switch to
    else rt_hw_interrupt_enable me
  else rt_hw_interrupt_enable me.

Definition rt_hw_spin_lock_critical : K unit :=
  s ← get; assertM (negb (critical_lock s));; modify (set_critical_lock true).

Definition rt_enter_critical : K unit :=
  s ← get;
  match rt_thread_self me s with
  | None => mret tt
  | Some t =>
      when (critical_lock_nest (nests s t) =? 0) rt_hw_spin_lock_critical;;
      nest_upd t (fun n => set_critical_lock_nest (u16 (critical_lock_nest n + 1)) n);;
      nest_upd t (fun n => set_scheduler_lock_nest (u16 (scheduler_lock_nest n + 1)) n)
  end.

(** [scheduler_lock_nest] is unsigned, so [<= 0] is [== 0]. *)
Definition rt_exit_critical : K unit :=
  s ← get;
  match rt_thread_self me s with
  | None => mret tt
  | Some t =>
      nest_upd t (fun n => set_scheduler_lock_nest (u16 (scheduler_lock_nest n - 1)) n);;
      nest_upd t (fun n => set_critical_lock_nest (u16 (critical_lock_nest n - 1)) n);;
      s ← get;
      when (critical_lock_nest (nests s t) =? 0) (modify (set_critical_lock false));;
      s ← get;
      when (scheduler_lock_nest (nests s t) <=? 0)
        (nest_upd t (set_scheduler_lock_nest 0);; rt_schedule)
  end.

Definition rt_critical_level : K Z :=
  s ← get;
  t ← ofopt (rt_thread_self me s);
  mret (critical_lock_nest (nests s t)).

(** The boot-time initialisation: every ready list is made empty. *)
Definition init_list (h : lhead) : K unit :=
  modify (fun s => set_lists (upd (lists s) h []) s).
Fixpoint init_ready (mk : Z -> lhead) (n : nat) : K unit :=
  match n with
  | O => mret tt
  | S n' => init_ready mk n';; init_list (mk (Z.of_nat n'))
  end.
Fixpoint init_cpus (n : nat) : K unit :=
  match n with
  | O => mret tt
  | S n' =>
      init_cpus n';;
      init_ready (CpuReady (Z.of_nat n')) (Z.to_nat RT_THREAD_PRIORITY_MAX);;
      cpu_upd (Z.of_nat n') (set_irq_switch_flag 0);;
      cpu_upd (Z.of_nat n') (set_cpu_priority (RT_THREAD_PRIORITY_MAX - 1));;
      cpu_upd (Z.of_nat n') (set_current_thread None);;
      cpu_upd (Z.of_nat n') (set_priority_group 0)
  end.
Definition rt_system_scheduler_init : K unit :=
  init_ready Ready (Z.to_nat RT_THREAD_PRIORITY_MAX);;
  init_cpus (Z.to_nat RT_CPUS_NR);;
  modify (set_ready_group 0);;
  init_list Defunct.

Definition rt_system_scheduler_start : K unit :=
  '(to, highest) ← _get_highest_priority_thread;
  thread_upd to (set_oncpu me);;
  rt_schedule_remove_thread to;;
  thread_upd to (set_stat RT_THREAD_RUNNING);;
  rt_hw_context_switch to.
End sched.

(** * Specifications *)

#[export] Instance remove_core_proper : Proper (eq ==> keq ==> keq) remove_core.
Proof.
  intros ? t -> s s' E. unfold remove_core, unlinked. cbn.
  rewrite (keq_threads _ _ E t), (keq_group _ _ E), (keq_lists _ _ E), (keq_cpus _ _ E).
  destruct E. case_bool_decide; [case_match|]; split; cbn; try done; intros;
    try congruence. unfold upd. case_decide; congruence.
Qed.

(** The effect of [rt_schedule_insert_thread]. *)
Definition insert_core (me : Z) (t : tid) (s : kstate) : kstate :=
  let th := threads s t in
  if negb (oncpu th =? RT_CPU_DETACHED) then with_thread t (put_stat RT_THREAD_RUNNING th) s
  else
    let s1 := with_thread t (put_stat RT_THREAD_READY th)
                (set_lists (upd (lists s) (ready_head th) (lists s (ready_head th) ++ [t])) s) in
    if bind_cpu th =? RT_CPUS_NR then
      set_ipi (Z.lor (ipi s) (Z.lxor RT_CPU_MASK (Z.shiftl 1 me)))
        (set_ready_group (Z.lor (ready_group s) (number_mask th)) s1)
    else
      set_ipi (if me =? bind_cpu th then ipi s
               else Z.lor (ipi s) (Z.shiftl 1 (bind_cpu th)))
        (set_cpus (upd (cpus s) (bind_cpu th) (set_priority_group
          (Z.lor (priority_group (cpus s (bind_cpu th))) (number_mask th))
          (cpus s (bind_cpu th)))) s1).

#[export] Instance insert_core_proper : Proper (eq ==> eq ==> keq ==> keq) insert_core.
Proof.
  intros ? me -> ? t -> s s' E. unfold insert_core. cbn.
  rewrite (keq_threads _ _ E t), (keq_group _ _ E), (keq_lists _ _ E), (keq_cpus _ _ E),
    (keq_ipi _ _ E).
  destruct E. repeat case_match; split; cbn; try done; intros;
    unfold upd; try case_decide; congruence.
Qed.

(** What the queue operations never touch. *)
Definition frame (s s' : kstate) : Prop :=
  (forall c, rt_thread_self c s' = rt_thread_self c s) /\
  nests s' = nests s /\ cpus_lock s' = cpus_lock s.

Lemma self_upd_group (c c' g : Z) (cs : Z -> rt_cpu) :
  current_thread (upd cs c' (set_priority_group g (cs c')) c) = current_thread (cs c).
Proof.
  destruct (decide (c' = c)) as [->|?]; [by rewrite upd_eq|by rewrite upd_ne].
Qed.

Lemma remove_core_frame t s : frame s (remove_core t s).
Proof.
  unfold frame, remove_core, rt_thread_self. repeat case_match; cbn;
    split_and!; try done; intros c; apply self_upd_group.
Qed.
Lemma insert_core_frame me t s : frame s (insert_core me t s).
Proof.
  unfold frame, insert_core, rt_thread_self. repeat case_match; cbn;
    split_and!; try done; intros c; apply self_upd_group.
Qed.

Section specs.
Context (me : Z).

Lemma rt_schedule_remove_thread_spec d s t :
  lock_depth me d s -> 0 <= d < 32767 -> 0 <= bind_cpu (threads s t) <= RT_CPUS_NR ->
  wp (rt_schedule_remove_thread me t) (fun _ => does me d s (remove_core t s)) s.
Proof.
  intros Hl Hd Hb. unfold rt_schedule_remove_thread, list_remove. apply wp_bind.
  apply (wp_lock me d); [done|lia|]. intros s1 H1 Hd1. wp_steps. cbn [threads set_lists].
  assert (E : keq (remove_core t s) (remove_core t s1)) by (apply remove_core_proper; [done|apply H1]).
  rewrite (keq_threads _ _ (proj1 H1)) in Hb.
  assert (Hf : forall s2, remove_core t s1 = s2 ->
    wp (rt_hw_interrupt_enable me) (fun _ => does me d s (remove_core t s)) s2).
  { intros s2 <-. apply (wp_unlock_does me d s s1); [done..| | |].
    all: apply remove_core_frame. }
  clear E. set (tgt := remove_core t s) in *. clearbody tgt.
  unfold remove_core, unlinked, ready_head in Hf. cbn in Hf.
  unfold when, cpu_upd, rt_cpu_index.
  destruct (Z.eqb_spec (bind_cpu (threads s1 t)) RT_CPUS_NR) as [Hn|Hn].
  - cbn [lists set_lists]. case_bool_decide; wp_steps; by apply Hf.
  - wp_steps. { unfold RT_CPUS_NR in *. apply andb_true_iff. lia. }
    cbn [lists set_lists]. case_bool_decide; wp_steps; by apply Hf.
Qed.

Lemma rt_schedule_insert_thread_spec d s t :
  lock_depth me d s -> 0 <= d < 32767 -> 0 <= bind_cpu (threads s t) <= RT_CPUS_NR ->
  wp (rt_schedule_insert_thread me t) (fun _ => does me d s (insert_core me t s)) s.
Proof.
  intros Hl Hd Hb. unfold rt_schedule_insert_thread. apply wp_bind.
  apply (wp_lock me d); [done|lia|]. intros s1 H1 Hd1. wp_steps.
  assert (E : keq (insert_core me t s) (insert_core me t s1))
    by (apply insert_core_proper; [done|done|apply H1]).
  rewrite (keq_threads _ _ (proj1 H1)) in Hb.
  assert (Hf : forall s2, insert_core me t s1 = s2 ->
    wp (rt_hw_interrupt_enable me) (fun _ => does me d s (insert_core me t s)) s2).
  { intros s2 <-. apply (wp_unlock_does me d s s1); [done..| | |].
    all: apply insert_core_frame. }
  clear E. set (tgt := insert_core me t s) in *. clearbody tgt.
  unfold insert_core, ready_head, with_thread in Hf. cbn in Hf.
  unfold when, thread_upd, cpu_upd, rt_cpu_index, list_insert_before, rt_hw_ipi_send.
  destruct (oncpu (threads s1 t) =? RT_CPU_DETACHED); cbn [negb] in *.
  2: { wp_steps. by apply Hf. }
  destruct (Z.eqb_spec (bind_cpu (threads s1 t)) RT_CPUS_NR) as [Hn|Hn].
  - wp_steps. by apply Hf.
  - wp_steps. { unfold RT_CPUS_NR in *. apply andb_true_iff. lia. }
    destruct (me =? bind_cpu (threads s1 t)); cbn [negb]; wp_steps; by apply Hf.
Qed.
End specs.

(** ** The highest ready priority *)

Lemma highest_of_group_0 : highest_of_group 0 = 2 ^ 64 - 1.
Proof. reflexivity. Qed.

Lemma highest_of_group_spec g q :
  bitmap_ok g q -> g <> 0 ->
  let p := highest_of_group g in
  0 <= p < 32 /\ q p <> [] /\ forall p', 0 <= p' < 32 -> q p' <> [] -> p <= p'.
Proof.
  intros [Hr Hb] Hg. destruct (__rt_ffs_pos g) as [(H0 & H1 & H2) H32]; [lia|].
  unfold highest_of_group. set (p := __rt_ffs g - 1) in *. cbn zeta.
  assert (u64 p = p) as -> by (wraps; apply Z.mod_small; lia).
  split; [lia|]. split.
  - rewrite Hb in H1 by lia. by apply bool_decide_eq_true in H1.
  - intros p' Hp' Hq. destruct (decide (p <= p')); [done|].
    rewrite <-(bool_decide_eq_true (q p' <> [])), <-Hb in Hq by lia.
    rewrite H2 in Hq by lia. done.
Qed.

Lemma bitmap_zero g q : bitmap_ok g q -> g = 0 -> forall p, 0 <= p < 32 -> q p = [].
Proof.
  intros [_ Hb] -> p Hp. specialize (Hb p Hp). rewrite Z.bits_0 in Hb.
  symmetry in Hb. apply bool_decide_eq_false in Hb. destruct (decide (q p = [])); naive_solver.
Qed.

(** The ready threads CPU [me] may run: those of the global queue and those
    bound to [me]. *)
Definition eligible (me : Z) (s : kstate) (t : tid) : Prop :=
  exists p, 0 <= p < 32 /\ (t ∈ lists s (Ready p) \/ t ∈ lists s (CpuReady me p)).

Definition none_ready (me : Z) (s : kstate) : Prop :=
  ready_group s = 0 /\ priority_group (cpus s me) = 0.

(** The thread [_get_highest_priority_thread] returns, with its priority. *)
Record best (me : Z) (s : kstate) (to : tid) (p : Z) : Prop := {
  best_thread : is_thread s to;
  best_stat : th_stat (threads s to) = RT_THREAD_READY;
  best_prio : current_priority (threads s to) = p;
  best_range : 0 <= p < 32;
  best_bind : bind_cpu (threads s to) = RT_CPUS_NR \/ bind_cpu (threads s to) = me;
  best_oncpu : oncpu (threads s to) = RT_CPU_DETACHED;
  best_head : head (lists s (ready_head (threads s to))) = Some to;
  best_max : forall t, eligible me s t -> p <= current_priority (threads s t) }.

Lemma eligible_prio me s t : kwf s -> eligible me s t ->
  exists p, 0 <= p < 32 /\ current_priority (threads s t) = p /\
    (lists s (Ready p) <> [] \/ lists s (CpuReady me p) <> []).
Proof.
  intros Hk (p & Hp & Hin). exists p. split; [done|].
  destruct Hin as [Hin|Hin]; destruct (kw_loc _ Hk _ _ Hin) as [_ (_ & Hr & _)];
    apply ready_head_inj in Hr; (split; [naive_solver|]).
  - left. intros E. rewrite E in Hin. set_solver.
  - right. intros E. rewrite E in Hin. set_solver.
Qed.

Lemma head_best me s h p to :
  kwf s -> 0 <= p < 32 -> (h = Ready p \/ h = CpuReady me p) ->
  head (lists s h) = Some to ->
  (forall p', 0 <= p' < 32 ->
     lists s (Ready p') <> [] \/ lists s (CpuReady me p') <> [] -> p <= p') ->
  best me s to p.
Proof.
  intros Hk Hp Hh Hhd Hmax.
  assert (Hin : to ∈ lists s h) by (destruct (lists s h); [done|]; injection Hhd as ->; set_solver).
  destruct (kw_loc _ Hk _ _ Hin) as [Ht Hl].
  assert (Hl' : th_stat (threads s to) = RT_THREAD_READY /\
    ready_head (threads s to) = h /\ oncpu (threads s to) = RT_CPU_DETACHED)
    by (by destruct Hh as [-> | ->]).
  destruct Hl' as (H1 & H2 & H3). pose proof (ready_head_inj _ _ H2) as Hi.
  split; try done.
  - destruct Hh as [-> | ->]; naive_solver.
  - destruct Hh as [-> | ->]; naive_solver.
  - by rewrite H2.
  - intros t He. destruct (eligible_prio me s t Hk He) as (p' & Hp' & -> & Hne). auto.
Qed.

Lemma _get_highest_priority_thread_spec me s :
  kwf s -> 0 <= me < RT_CPUS_NR -> ~ none_ready me s ->
  wp (_get_highest_priority_thread me) (fun r s' => s' = s /\ best me s r.1 r.2) s.
Proof.
  intros Hk Hme Hr. unfold _get_highest_priority_thread, first_thread.
  pose proof (kw_group _ Hk) as G. pose proof (kw_cgroup _ Hk me Hme) as C.
  wp_steps. set (hg := highest_of_group (ready_group s)).
  set (hl := highest_of_group (priority_group (cpus s me))).
  assert (Hg : ready_group s = 0 /\ hg = 2 ^ 64 - 1 \/
    (0 <= hg < 32 /\ lists s (Ready hg) <> [])).
  { destruct (decide (ready_group s = 0)) as [E|E].
    - left. unfold hg. by rewrite E.
    - right. destruct (highest_of_group_spec _ _ G E) as (? & ? & _). done. }
  assert (Hl : priority_group (cpus s me) = 0 /\ hl = 2 ^ 64 - 1 \/
    (0 <= hl < 32 /\ lists s (CpuReady me hl) <> [])).
  { destruct (decide (priority_group (cpus s me) = 0)) as [E|E].
    - left. unfold hl. by rewrite E.
    - right. destruct (highest_of_group_spec _ _ C E) as (? & ? & _). done. }
  assert (Mg : forall p', 0 <= p' < 32 -> lists s (Ready p') <> [] -> hg <= p').
  { intros p' Hp' Hne. destruct (decide (ready_group s = 0)) as [E|E].
    - by rewrite (bitmap_zero _ _ G E p' Hp') in Hne.
    - by apply (highest_of_group_spec _ _ G E). }
  assert (Ml : forall p', 0 <= p' < 32 -> lists s (CpuReady me p') <> [] -> hl <= p').
  { intros p' Hp' Hne. destruct (decide (priority_group (cpus s me) = 0)) as [E|E].
    - by rewrite (bitmap_zero _ _ C E p' Hp') in Hne.
    - by apply (highest_of_group_spec _ _ C E). }
  change (2 ^ 64 - 1) with 18446744073709551615 in *.
  assert (Hhd : forall h, lists s h <> [] -> exists to, head (lists s h) = Some to).
  { intros h. destruct (lists s h); [done|eauto]. }
  destruct (Z.ltb_spec hg hl) as [Hlt|Hge].
  - assert (Hne : 0 <= hg < 32 /\ lists s (Ready hg) <> []) by (destruct Hg, Hl; lia || done).
    destruct Hne as [Hp Hne]. destruct (Hhd _ Hne) as [to Eto].
    wp_steps. apply (wp_ofopt _ to); [done|]. wp_steps. split; [done|]. cbn.
    apply (head_best me s (Ready hg)); auto.
    intros p' Hp' [Hn|Hn]; [by apply Mg|]. specialize (Ml p' Hp' Hn). lia.
  - assert (Hne : 0 <= hl < 32 /\ lists s (CpuReady me hl) <> []).
    { destruct Hl as [[El Hl]|?]; [|done]. destruct Hg as [[Eg Hg]|[? ?]]; [|lia].
      by destruct Hr. }
    destruct Hne as [Hp Hne]. destruct (Hhd _ Hne) as [to Eto].
    wp_steps. apply (wp_ofopt _ to); [done|]. wp_steps. split; [done|]. cbn.
    apply (head_best me s (CpuReady me hl)); auto.
    intros p' Hp' [Hn|Hn]; [specialize (Mg p' Hp' Hn); lia|by apply Ml].
Qed.

(** ** Switching *)

Lemma th_stat_clear_yield th :
  th_stat (set_stat (Z.land (stat th) (Z.lnot RT_THREAD_STAT_YIELD_MASK)) th) = th_stat th.
Proof.
  unfold th_stat, RT_THREAD_STAT_MASK, RT_THREAD_STAT_YIELD_MASK, RT_THREAD_STAT_YIELD.
  cbn [stat set_stat]. rewrite <-Z.land_assoc. f_equal.
Qed.

(** A thread running or being run is in no list. *)
Lemma running_unlinked s t :
  kwf s -> th_stat (threads s t) = RT_THREAD_RUNNING -> unlinked_in s t.
Proof.
  intros Hk Hr h Hin. destruct (kw_loc _ Hk h t Hin) as [_ Hl].
  destruct h; cbn in Hl; rewrite Hr in Hl; [by destruct Hl..|done|done|done].
Qed.

(** What the queues depend on in the per-CPU structures is the bitmap. *)
Lemma kwf_ext s s' :
  kwf s -> (forall h, lists s' h = lists s h) -> (forall x, threads s' x = threads s x) ->
  otype s' = otype s -> ready_group s' = ready_group s ->
  (forall c, priority_group (cpus s' c) = priority_group (cpus s c)) ->
  (forall x, ThreadTimer x ∈ timer_list (tm s') -> ThreadTimer x ∈ timer_list (tm s)) ->
  kwf s'.
Proof.
  intros Hk El Et Eo Eg Ec Em. apply (kwf_touch s s' xH (threads s xH)); try done.
  intros x. rewrite Et. unfold upd. case_decide; congruence.
Qed.

(** Linking a thread behind its ready list ([rt_schedule_insert_thread] on a
    thread that runs nowhere). *)
Lemma insert_core_kwf me s t :
  kwf s -> is_thread s t -> unlinked_in s t -> prio_ok (threads s t) ->
  oncpu (threads s t) = RT_CPU_DETACHED ->
  ThreadTimer t ∉ timer_list (tm s) -> kwf (insert_core me t s).
Proof.
  intros Hk Ht Hu Hp Ho Htm. unfold insert_core. set (th := threads s t) in *.
  rewrite Ho. cbn [negb Z.eqb RT_CPU_DETACHED RT_CPUS_NR Pos.eqb].
  assert (Hst : th_stat (put_stat RT_THREAD_READY th) = RT_THREAD_READY)
    by (apply th_stat_put; unfold RT_THREAD_READY; lia).
  assert (Hlk : forall h s', h = ready_head th ->
    lists s' = upd (lists s) (ready_head th) (lists s (ready_head th) ++ [t]) ->
    threads s' = upd (threads s) t (put_stat RT_THREAD_READY th) ->
    otype s' = otype s -> tm s' = tm s ->
    ready_group s' = match h with Ready _ => Z.lor (ready_group s) (number_mask th)
                     | _ => ready_group s end ->
    (forall c, priority_group (cpus s' c) = match h with
      | CpuReady c' _ => if decide (c' = c) then Z.lor (priority_group (cpus s c)) (number_mask th)
                         else priority_group (cpus s c)
      | _ => priority_group (cpus s c) end) -> kwf s').
  { intros h s' -> El Et Eo Em Eg Ec.
    apply (kwf_link s s' t (put_stat RT_THREAD_READY th) (ready_head th)
             (lists s (ready_head th)) []); try done.
    - unfold loc_ok. assert (ready_head (put_stat RT_THREAD_READY th) = ready_head th)
        as Hrh by done. rewrite Hst, Hrh. unfold ready_head.
      by destruct (bind_cpu th =? RT_CPUS_NR).
    - by rewrite app_nil_r.
    - by rewrite El, upd_eq.
    - intros x Hx. by rewrite El, upd_ne.
    - intros x. by rewrite Et. }
  destruct (Z.eqb_spec (bind_cpu th) RT_CPUS_NR) as [Hb|Hb].
  - eapply (Hlk (Ready (current_priority th))); try done.
    unfold ready_head. by rewrite Hb.
  - eapply (Hlk (CpuReady (bind_cpu th) (current_priority th))); try done.
    + unfold ready_head. apply Z.eqb_neq in Hb. by rewrite Hb.
    + intros c. cbn. unfold upd. by case_decide; [subst|].
Qed.

(** The current thread goes on running: nothing ready has a better claim. *)
Definition keeps_running (cur : tid) (p : Z) (s : kstate) : Prop :=
  let th := threads s cur in
  th_stat th = RT_THREAD_RUNNING /\
  (current_priority th < p \/
   current_priority th = p /\ Z.land (stat th) RT_THREAD_STAT_YIELD_MASK = 0).

(** What a switch from [cur] to [to] does. *)
Definition release_core (me : Z) (cur : tid) (s : kstate) : kstate :=
  let th := set_oncpu RT_CPU_DETACHED (threads s cur) in
  if th_stat th =? RT_THREAD_RUNNING then
    insert_core me cur (with_thread cur
      (set_stat (Z.land (stat th) (Z.lnot RT_THREAD_STAT_YIELD_MASK)) th) s)
  else with_thread cur th s.

Definition run_core (me : Z) (to : tid) (p : Z) (s : kstate) : kstate :=
  let s1 := with_thread to (put_stat RT_THREAD_RUNNING (set_oncpu me (threads s to)))
              (remove_core to s) in
  set_cpus (upd (cpus s1) me (set_current_thread (Some to)
    (set_cpu_priority (u8 p) (cpus s1 me)))) s1.

Definition switch_core (me : Z) (cur to : tid) (p : Z) (s : kstate) : kstate :=
  run_core me to p (release_core me cur s).

(** Which thread runs where. *)
Record krun (s : kstate) : Prop := {
  kr_cur : forall c t, 0 <= c < RT_CPUS_NR -> rt_thread_self c s = Some t ->
    oncpu (threads s t) = c /\ (is_thread s t \/ th_stat (threads s t) = RT_THREAD_CLOSE);
  kr_oncpu : forall t, is_thread s t -> oncpu (threads s t) <> RT_CPU_DETACHED ->
    0 <= oncpu (threads s t) < RT_CPUS_NR /\
    rt_thread_self (oncpu (threads s t)) s = Some t;
  kr_running : forall t, is_thread s t -> th_stat (threads s t) = RT_THREAD_RUNNING ->
    oncpu (threads s t) <> RT_CPU_DETACHED }.

Lemma krun_keq s s' : keq s s' -> krun s -> krun s'.
Proof.
  intros E [H1 H2 H3]. assert (Es : forall c, rt_thread_self c s' = rt_thread_self c s).
  { intros c. unfold rt_thread_self. by rewrite (keq_cpus _ _ E). }
  assert (Et : forall t, threads s' t = threads s t) by (intros t; by rewrite (keq_threads _ _ E)).
  assert (Ei : forall t, is_thread s' t <-> is_thread s t) by (intros t; by rewrite E).
  split; [intros c t|intros t|intros t]; rewrite Ei, (Et t).
  - rewrite (Es c). apply H1.
  - rewrite (Es (oncpu (threads s t))). apply H2.
  - apply H3.
Qed.
#[export] Instance krun_proper : Proper (keq ==> iff) krun.
Proof. intros s s' E. split; apply krun_keq; [done|by symmetry]. Qed.

Section switch.
Context (me : Z) (cur : tid) (s : kstate).
Context (Hk : kwf s) (Hr : krun s) (Hme : 0 <= me < RT_CPUS_NR).
Context (Hcur : rt_thread_self me s = Some cur).

Lemma current_oncpu : oncpu (threads s cur) <> RT_CPU_DETACHED.
Proof using All.
  destruct (kr_cur _ Hr me cur Hme Hcur) as [-> _]. unfold RT_CPU_DETACHED. lia.
Qed.

Lemma current_not_ready : th_stat (threads s cur) <> RT_THREAD_READY.
Proof using All.
  intros E. destruct (kr_cur _ Hr me cur Hme Hcur) as [Ho [Ht|Hc]]; [|by rewrite Hc in E].
  apply current_oncpu. by apply ready_oncpu.
Qed.

Lemma current_running_thread :
  th_stat (threads s cur) = RT_THREAD_RUNNING -> is_thread s cur.
Proof using All.
  intros E. destruct (kr_cur _ Hr me cur Hme Hcur) as [_ [?|Hc]]; [done|].
  by rewrite Hc in E.
Qed.

(** A touch of the current thread that keeps its place. *)
Lemma kwf_touch_cur th' :
  th_stat th' = th_stat (threads s cur) ->
  current_priority th' = current_priority (threads s cur) ->
  bind_cpu th' = bind_cpu (threads s cur) ->
  number_mask th' = number_mask (threads s cur) ->
  kwf (with_thread cur th' s).
Proof using All.
  intros. apply (kwf_touch s _ cur th'); try done.
  split_and!; try done. intros E. by destruct current_not_ready.
Qed.

Lemma release_core_kwf : kwf (release_core me cur s).
Proof using All.
  unfold release_core. set (th := set_oncpu RT_CPU_DETACHED (threads s cur)).
  destruct (Z.eqb_spec (th_stat th) RT_THREAD_RUNNING) as [E|E]; [|by apply kwf_touch_cur].
  change (th_stat (threads s cur) = RT_THREAD_RUNNING) in E.
  pose proof (current_running_thread E) as Ht.
  apply insert_core_kwf.
  - apply kwf_touch_cur; try done. by rewrite th_stat_clear_yield.
  - done.
  - intros h. apply (running_unlinked s cur Hk E h).
  - cbn. rewrite upd_eq.
    apply (kw_prio _ Hk cur Ht). unfold schedulable. auto.
  - cbn. by rewrite upd_eq.
  - intros Hin. destruct (kw_timer _ Hk cur Hin) as [_ Hs]. by rewrite Hs in E.
Qed.

Lemma release_core_self c : rt_thread_self c (release_core me cur s) = rt_thread_self c s.
Proof using.
  unfold release_core. case_match; [|done].
  by destruct (insert_core_frame me cur (with_thread cur
    (set_stat (Z.land (stat (set_oncpu RT_CPU_DETACHED (threads s cur)))
      (Z.lnot RT_THREAD_STAT_YIELD_MASK)) (set_oncpu RT_CPU_DETACHED (threads s cur))) s))
    as (-> & _).
Qed.

Lemma release_core_otype : otype (release_core me cur s) = otype s.
Proof using.
  unfold release_core, insert_core. by repeat case_match.
Qed.

Lemma release_core_other t :
  t <> cur -> threads (release_core me cur s) t = threads s t.
Proof using.
  intros Hne. unfold release_core, insert_core, with_thread.
  repeat case_match; cbn; by rewrite ?upd_ne by congruence.
Qed.

Lemma release_core_cur :
  oncpu (threads (release_core me cur s) cur) = RT_CPU_DETACHED /\
  th_stat (threads (release_core me cur s) cur) =
    (if th_stat (threads s cur) =? RT_THREAD_RUNNING then RT_THREAD_READY
     else th_stat (threads s cur)).
Proof using.
  unfold release_core, with_thread.
  set (th := set_oncpu RT_CPU_DETACHED (threads s cur)).
  change (th_stat th) with (th_stat (threads s cur)).
  destruct (th_stat (threads s cur) =? RT_THREAD_RUNNING); [|by cbn; rewrite upd_eq].
  unfold insert_core, with_thread. cbn [threads set_threads]. rewrite upd_eq.
  cbn [oncpu set_stat set_oncpu th]. cbn [negb Z.eqb RT_CPU_DETACHED RT_CPUS_NR Pos.eqb].
  case_match; cbn [threads set_threads set_lists set_ipi set_ready_group set_cpus];
    rewrite upd_eq; (split; [done|]);
    apply th_stat_put; unfold RT_THREAD_READY; lia.
Qed.

Lemma release_core_tm : tm (release_core me cur s) = tm s.
Proof using.
  unfold release_core, insert_core. by repeat case_match.
Qed.

Lemma release_core_lists h t :
  t ∈ lists s h -> t ∈ lists (release_core me cur s) h.
Proof using.
  clear Hk Hr Hcur Hme.
  intros Hin. unfold release_core, insert_core, with_thread. repeat case_match; cbn;
    try done; unfold upd; case_decide; subst; set_solver.
Qed.
End switch.

(** [to] leaves its ready list and runs on [me]. *)
Lemma run_core_kwf me to p s :
  kwf s -> is_thread s to -> th_stat (threads s to) = RT_THREAD_READY ->
  0 <= me < RT_CPUS_NR -> kwf (run_core me to p s).
Proof.
  intros Hk Ht Hst Hme. unfold run_core.
  destruct (kw_prio _ Hk to Ht) as (Hp & Hb & Hm); [by left|].
  set (th' := put_stat _ _).
  assert (K : kwf (with_thread to th' (remove_core to s))).
  { apply kwf_remove; try done.
    - unfold th'. rewrite th_stat_put; unfold RT_THREAD_RUNNING; [done|lia].
    - intros Hin. destruct (kw_timer _ Hk to Hin) as [_ E]. by rewrite Hst in E.
    - by left. }
  eapply kwf_ext; [exact K|done..| |done].
  intros c. cbn [cpus set_cpus]. unfold upd. by case_decide; subst.
Qed.

Lemma run_core_fields me to p s :
  otype (run_core me to p s) = otype s /\ tm (run_core me to p s) = tm s /\
  (forall c, rt_thread_self c (run_core me to p s) =
     if decide (c = me) then Some to else rt_thread_self c s) /\
  threads (run_core me to p s) to =
    put_stat RT_THREAD_RUNNING (set_oncpu me (threads s to)) /\
  (forall t, t <> to -> threads (run_core me to p s) t = threads s t).
Proof.
  split_and!.
  - unfold run_core, with_thread, remove_core. by repeat case_match.
  - unfold run_core, with_thread, remove_core. by repeat case_match.
  - intros c. unfold rt_thread_self. cbn. case_decide as E; [subst c; by rewrite upd_eq|].
    rewrite upd_ne by done. apply remove_core_frame.
  - cbn. by rewrite upd_eq.
  - intros t Ht. cbn. by rewrite upd_ne, remove_core_threads by done.
Qed.

(** A switch keeps the kernel well-formed and the CPU assignment consistent,
    and leaves [to] running on [me]. *)
Lemma switch_core_ok me cur to p s :
  kwf s -> krun s -> 0 <= me < RT_CPUS_NR -> rt_thread_self me s = Some cur ->
  is_thread s to -> th_stat (threads s to) = RT_THREAD_READY ->
  let s' := switch_core me cur to p s in
  kwf s' /\ krun s' /\ rt_thread_self me s' = Some to /\
  th_stat (threads s' to) = RT_THREAD_RUNNING /\ oncpu (threads s' to) = me.
Proof.
  intros Hk Hr Hme Hcur Ht Hst s'.
  assert (Hne : to <> cur) by (intros ->; by destruct (current_not_ready me cur s)).
  unfold s', switch_core. set (s1 := release_core me cur s).
  assert (K1 : kwf s1) by by apply release_core_kwf.
  assert (Et : threads s1 to = threads s to) by by apply release_core_other.
  assert (It : forall t, is_thread s1 t <-> is_thread s t).
  { intros t. unfold is_thread, rt_object_get_type, s1. by rewrite release_core_otype. }
  assert (Es : forall c, rt_thread_self c s1 = rt_thread_self c s) by apply release_core_self.
  assert (K2 : kwf (run_core me to p s1)).
  { apply run_core_kwf; [done|by apply It|by rewrite Et|done]. }
  destruct (run_core_fields me to p s1) as (Eo & _ & Eself & Eto & Eother).
  assert (It2 : forall t, is_thread (run_core me to p s1) t <-> is_thread s t).
  { intros t. rewrite <-It. unfold is_thread, rt_object_get_type. by rewrite Eo. }
  destruct (release_core_cur me cur s) as [Co Cs]. fold s1 in Co, Cs.
  assert (Rt : th_stat (threads (run_core me to p s1) to) = RT_THREAD_RUNNING).
  { rewrite Eto, th_stat_put; [done|]. unfold RT_THREAD_RUNNING. lia. }
  assert (Ro : oncpu (threads (run_core me to p s1) to) = me) by by rewrite Eto.
  assert (Oto : oncpu (threads s to) = RT_CPU_DETACHED).
  { by apply ready_oncpu. }
  split_and!; try done; [|by rewrite Eself, decide_True]. split.
  - intros c t Hc. rewrite Eself, It2. case_decide as E.
    + intros [= <-]. subst c. auto.
    + rewrite Es. intros Hs. destruct (kr_cur _ Hr c t Hc Hs) as [H1 H2].
      assert (t <> to).
      { intros ->. rewrite Oto in H1. unfold RT_CPU_DETACHED in H1. lia. }
      assert (t <> cur).
      { intros ->. destruct (kr_cur _ Hr me cur Hme Hcur) as [H3 _]. congruence. }
      rewrite Eother by done. unfold s1. by rewrite release_core_other by done.
  - intros t Ht'. rewrite It2 in Ht'. destruct (decide (t = to)) as [->|Hto].
    { rewrite Ro, Eself, decide_True by done. done. }
    rewrite Eother by done. destruct (decide (t = cur)) as [->|Hc]; [by rewrite Co|].
    unfold s1. rewrite release_core_other by done. intros Ho.
    destruct (kr_oncpu _ Hr t Ht' Ho) as [H1 H2]. split; [done|].
    rewrite Eself, decide_False, Es; [done|].
    intros E. rewrite E in H2. congruence.
  - intros t Ht'. rewrite It2 in Ht'. destruct (decide (t = to)) as [->|Hto].
    { intros _. rewrite Ro. unfold RT_CPU_DETACHED. lia. }
    rewrite Eother by done. destruct (decide (t = cur)) as [->|Hc].
    + rewrite Cs. destruct (Z.eqb_spec (th_stat (threads s cur)) RT_THREAD_RUNNING); done.
    + unfold s1. rewrite release_core_other by done. by apply Hr.
Qed.

Lemma switch_core_nests me cur to p s : nests (switch_core me cur to p s) = nests s.
Proof.
  unfold switch_core, run_core. cbn.
  destruct (remove_core_frame to (release_core me cur s)) as (_ & -> & _).
  unfold release_core. case_match; [|done].
  match goal with |- nests (insert_core _ _ ?x) = _ =>
    by destruct (insert_core_frame me cur x) as (_ & -> & _) end.
Qed.

(** The best thread is itself one of the candidates. *)
Lemma best_eligible me s to p : kwf s -> 0 <= me < RT_CPUS_NR -> best me s to p -> eligible me s to.
Proof.
  intros Hk Hme [Ht Hst Hp Hr Hb _ _ _]. exists p. split; [done|].
  pose proof (kw_ready _ Hk to Ht Hst) as Hin. unfold ready_head in Hin. rewrite Hp in Hin.
  destruct Hb as [E|E]; rewrite E in Hin; [by left|].
  destruct (Z.eqb_spec me RT_CPUS_NR); [lia|by right].
Qed.

(** A preempted thread: its yield mark and its place in the queue. *)
Lemma release_core_running me cur s :
  th_stat (threads s cur) = RT_THREAD_RUNNING ->
  Z.land (stat (threads (release_core me cur s) cur)) RT_THREAD_STAT_YIELD_MASK = 0 /\
  forall h, lists (release_core me cur s) h =
    lists s h ++ (if decide (h = ready_head (threads s cur)) then [cur] else []).
Proof.
  intros Hst. unfold release_core. change (th_stat (set_oncpu RT_CPU_DETACHED (threads s cur)))
    with (th_stat (threads s cur)). rewrite Hst, Z.eqb_refl.
  unfold insert_core, with_thread. cbn [threads set_threads]. rewrite upd_eq.
  cbn [oncpu set_stat set_oncpu negb Z.eqb RT_CPU_DETACHED RT_CPUS_NR Pos.eqb bind_cpu].
  split.
  - case_match; cbn; rewrite upd_eq; cbn.
    all: unfold RT_THREAD_STAT_YIELD_MASK, RT_THREAD_STAT_YIELD, RT_THREAD_READY, RT_THREAD_STAT_MASK;
      apply Z.bits_inj'; intros i Hi;
      rewrite Z.land_spec, Z.lor_spec, !Z.land_spec, !Z.lnot_spec, Z.bits_0 by done;
      change 8 with (2 ^ 3); change 1 with (2 ^ 0); rewrite !testbit_pow2 by done;
      repeat case_bool_decide; subst; try done; by rewrite ?andb_false_r, ?andb_true_r.
  - intros h. case_match; cbn.
    all: destruct (decide (h = ready_head (threads s cur))) as [->|Hh];
      [by rewrite upd_eq|rewrite upd_ne, app_nil_r by (intros Eh; apply Hh; by rewrite <-Eh)].
    all: done.
Qed.

(** ** [rt_schedule] *)

(** The lock counters of a thread that runs nowhere: those of a fresh thread
    (or one interrupted outside any critical section), or those of a thread
    switched out inside [rt_schedule]. *)
Definition parked (n : nest) : Prop := n = mkNest 0 0 0 \/ n = mkNest 1 1 0.

Definition parked_ok (s : kstate) : Prop :=
  forall t, is_thread s t -> th_stat (threads s t) <> RT_THREAD_CLOSE ->
    (forall c, 0 <= c < RT_CPUS_NR -> rt_thread_self c s <> Some t) -> parked (nests s t).

(** What one scheduling decision on [me] comes to. *)
Definition sched_outcome (me : Z) (cur : tid) (s s' : kstate) : Prop :=
  none_ready me s /\ keq s s' \/
  exists to p, best me s to p /\
    (keeps_running cur p s /\ keq s s' \/
     ~ keeps_running cur p s /\ keq (switch_core me cur to p s) s').

Definition on_cpu (me : Z) (to : tid) (s : kstate) : kstate :=
  with_cpu me (set_current_thread (Some to) (cpus s me)) s.

Lemma rt_hw_context_switch_spec me to s :
  parked (nests s to) -> cpus_lock s = true ->
  wp (rt_hw_context_switch me to) (fun _ s' =>
    lock_depth me 0 s' /\ keq (on_cpu me to s) s' /\
    forall t, t <> to -> nests s' t = nests s t) s.
Proof.
  intros Hp Hb. unfold rt_hw_context_switch, rt_cpus_lock_status_restore, cpu_upd, when.
  wp_steps. cbn [nests set_cpus]. fold (on_cpu me to s).
  destruct Hp as [Hp|Hp]; rewrite Hp; cbn [cpus_lock_nest Z.eqb Pos.eqb].
  - unfold rt_hw_spin_unlock_cpus. wp_steps. cbn [nests set_cpus_lock on_cpu set_cpus].
    rewrite Hp. cbn [cpus_lock_nest Z.eqb negb]. wp_steps.
    split; [|split; [|done]].
    + unfold lock_depth, rt_thread_self, on_cpu. cbn. rewrite upd_eq. cbn. by rewrite Hp.
    + by apply (keq_locks (nests s) false).
  - wp_steps. cbn [nests on_cpu set_cpus]. rewrite Hp. cbn [cpus_lock_nest Z.eqb negb].
    apply (wp_unlock me 0); [|lia|].
    + unfold lock_depth, rt_thread_self, on_cpu. cbn. rewrite upd_eq. cbn. by rewrite Hp, Hb.
    + intros s' [E N] D. split_and!; [done|done|]. intros t Ht. rewrite N; [done|].
      unfold rt_thread_self, on_cpu. cbn. rewrite upd_eq. cbn. congruence.
Qed.

#[export] Instance with_thread_proper : Proper (eq ==> eq ==> keq ==> keq) with_thread.
Proof.
  intros ? t -> ? th -> s s' E. destruct E. split; cbn; try done.
  intros x. unfold upd. case_decide; auto.
Qed.

#[export] Instance run_core_proper : Proper (eq ==> eq ==> eq ==> keq ==> keq) run_core.
Proof.
  intros ? me -> ? to -> ? p -> s s' E. unfold run_core.
  rewrite (keq_threads _ _ E to).
  set (th := put_stat _ _). assert (E2 : keq (with_thread to th (remove_core to s))
    (with_thread to th (remove_core to s'))) by by rewrite E.
  rewrite (keq_cpus _ _ E2 me). apply keq_set_cpus; [done|].
  intros c. unfold upd. case_decide; [done|]. apply E2.
Qed.

#[export] Instance with_cpu_proper : Proper (eq ==> eq ==> keq ==> keq) with_cpu.
Proof.
  intros ? c -> ? x -> s s' E. apply keq_set_cpus; [done|].
  intros i. unfold upd. case_decide; [done|]. apply E.
Qed.
#[export] Instance on_cpu_proper : Proper (eq ==> eq ==> keq ==> keq) on_cpu.
Proof. intros ? c -> ? t -> s s' E. unfold on_cpu. by rewrite (keq_cpus _ _ E), E. Qed.

(** [rt_schedule] assigns [oncpu] and the CPU's priority before the unlinking,
    the status and the current thread after it. *)
Lemma run_core_order me to p s :
  let th := set_oncpu me (threads s to) in
  let s1 := with_thread to th s in
  keq (run_core me to p s)
    (on_cpu me to (with_thread to (put_stat RT_THREAD_RUNNING th)
       (remove_core to (with_cpu me (set_cpu_priority (u8 p) (cpus s1 me)) s1)))).
Proof.
  cbn. unfold run_core, on_cpu, remove_core. cbn. rewrite !upd_eq. cbn.
  change (ready_head (set_oncpu me (threads s to))) with (ready_head (threads s to)).
  case_bool_decide; [destruct (bind_cpu (threads s to) =? RT_CPUS_NR)|];
    split; cbn; try done; try (intros x; unfold upd; repeat case_decide; by subst).
Qed.

Section schedule.
Context (me : Z) (cur : tid) (s : kstate).
Context (Hk : kwf s) (Hr : krun s) (Hme : 0 <= me < RT_CPUS_NR).
Context (Hcur : rt_thread_self me s = Some cur).

(** What [pick_to_thread] settles. *)
Definition picked (d : Z) (s1 : kstate) (r : tid * Z) (s' : kstate) : Prop :=
  exists to p, best me s to p /\
    (keeps_running cur p s /\ r.1 = cur /\ does me d s1 s s' \/
     ~ keeps_running cur p s /\ r = (to, p) /\ to <> cur /\
     does me d s1 (with_thread to (set_oncpu me (threads s to))
                     (release_core me cur s)) s').

Lemma pick_to_thread_spec d s1 :
  keq s s1 -> lock_depth me d s1 -> 0 <= d < 32767 -> ~ none_ready me s ->
  wp (pick_to_thread me cur) (picked d s1) s1.
Proof using All.
  intros E Hd Hd0 Hn. assert (E' := E). symmetry in E'.
  assert (K1 : kwf s1) by by rewrite <-E.
  assert (R1 : krun s1) by by rewrite <-E.
  assert (C1 : rt_thread_self me s1 = Some cur)
    by (unfold rt_thread_self; by rewrite <-(keq_cpus _ _ E)).
  assert (N1 : ~ none_ready me s1).
  { unfold none_ready. by rewrite <-(keq_group _ _ E), <-(keq_cpus _ _ E). }
  unfold pick_to_thread. wp_steps.
  eapply wp_mono; [by apply _get_highest_priority_thread_spec|].
  intros [to p] s2 [-> Hb]. cbn [fst snd] in Hb. wp_steps.
  cbn [threads set_threads with_thread]. rewrite upd_eq.
  set (th := set_oncpu RT_CPU_DETACHED (threads s1 cur)).
  set (s2 := with_thread cur th s1).
  assert (Hbs : best me s to p).
  { destruct Hb as [H1 H2 H3 H4 H5 H6 H7 H8].
    split; rewrite ?E; try done; rewrite ?(keq_threads _ _ E), ?(keq_lists _ _ E); try done.
    intros t (q & Hq & Hin). rewrite (keq_threads _ _ E). apply H8. exists q.
    by rewrite <-!(keq_lists _ _ E). }
  assert (Hne : to <> cur).
  { intros ->. apply (current_not_ready me cur s); try done. apply Hbs. }
  assert (Hkeep : keeps_running cur p s <-> keeps_running cur p s1)
    by (unfold keeps_running; by rewrite (keq_threads _ _ E)).
  assert (Hstay : keeps_running cur p s1 ->
    picked d s1 (cur, p) (with_thread cur (set_oncpu me (threads s2 cur)) s2)).
  { intros HK. exists to, p. split; [done|]. left.
    split; [by apply Hkeep|]. split; [done|]. split; [|split; [by eapply lock_depth_frame|done]].
    rewrite E. split; try done. intros t. cbn. unfold upd.
    case_decide as Et; [subst t|done]. rewrite decide_True by done.
    destruct (kr_cur _ R1 me cur Hme C1) as [Ho _]. rewrite <-Ho at 1.
    unfold th. by destruct (threads s1 cur). }
  assert (Hgo : forall s3, ~ keeps_running cur p s1 ->
    does me d s1 (release_core me cur s1) s3 ->
    picked d s1 (to, p) (with_thread to (set_oncpu me (threads s3 to)) s3)).
  { intros s3 HK (E3 & D3 & L3). exists to, p. split; [done|]. right.
    split; [by rewrite Hkeep|]. split; [done|]. split; [done|].
    assert (Ec : keq (release_core me cur s) s3).
    { rewrite <-E3. unfold release_core. rewrite (keq_threads _ _ E cur).
      case_match; by rewrite E. }
    split; [|split; [by eapply lock_depth_frame|done]].
    rewrite <-(keq_threads _ _ Ec to), release_core_other by done. by rewrite Ec. }
  assert (Est : th_stat th = th_stat (threads s1 cur)) by done.
  unfold release_core in Hgo. fold th in Hgo. change (with_thread cur th s1) with s2 in Hgo.
  destruct (Z.eqb_spec (th_stat th) RT_THREAD_RUNNING) as [HR|HR].
  2: { wp_steps. apply Hgo.
       - intros [HK _]. congruence.
       - split_and!; [done|by eapply lock_depth_frame|done]. }
  destruct (Z.ltb_spec (current_priority th) p) as [Hlt|Hge].
  { wp_steps. apply Hstay. split; [congruence|by left]. }
  destruct ((current_priority th =? p) && _) eqn:Hy.
  { wp_steps. apply Hstay. apply andb_true_iff in Hy as [Hy1 Hy2].
    split; [congruence|]. right. by split; [apply Z.eqb_eq in Hy1|apply Z.eqb_eq in Hy2]. }
  assert (HK : ~ keeps_running cur p s1).
  { intros [_ [HK|[HK1 HK2]]]; [change (current_priority (threads s1 cur)) with
      (current_priority th) in HK; lia|].
    apply andb_false_iff in Hy as [Hy|Hy]; apply Z.eqb_neq in Hy; auto. }
  wp_steps. cbn [threads with_thread set_threads s2]. rewrite upd_eq.
  set (th2 := set_stat _ th). set (s4 := with_thread cur th2 s2).
  assert (E4 : keq (with_thread cur th2 s1) s4).
  { split; try done. intros x. cbn. unfold upd. by case_decide. }
  eapply wp_mono; [apply (rt_schedule_insert_thread_spec me d)|].
  - by apply (lock_depth_frame me d s1).
  - lia.
  - cbn. rewrite upd_eq. pose proof (current_running_thread me cur s1) as Ht.
    assert (HR1 : th_stat (threads s1 cur) = RT_THREAD_RUNNING) by congruence.
    apply (kw_prio _ K1 cur); [by apply Ht|]. right. by right.
  - intros [] s3 (E3 & D3 & L3). wp_steps. apply Hgo; [done|].
    split; [|done]. etrans; [|exact E3]. by apply insert_core_proper.
Qed.

(** The tail of a switch, from the state in which [pick_to_thread] chose
    another thread. *)
Lemma switch_tail_spec d (fin : K unit) to p s1 s2 (Q : unit -> kstate -> Prop) :
  0 <= d < 32767 -> is_thread s to -> th_stat (threads s to) = RT_THREAD_READY ->
  to <> cur ->
  does me d s1 (with_thread to (set_oncpu me (threads s to)) (release_core me cur s)) s2 ->
  rt_thread_self me s1 = Some cur ->
  (forall s3, (forall t, t <> cur -> nests s3 t = nests s1 t) ->
    lock_depth me d s3 -> rt_thread_self me s3 = Some cur ->
    keq (switch_core me cur to p s) (on_cpu me to s3) -> wp fin Q s3) ->
  wp (switch_prepare me to p;; fin) Q s2.
Proof using All.
  intros Hd0 Ht Hst Hne (E2 & D2 & L2) C1 Hfin.
  destruct (kw_prio _ Hk to Ht) as (_ & Hb & _); [by left|].
  assert (Eto : threads s2 to = set_oncpu me (threads s to)).
  { rewrite <-(keq_threads _ _ E2 to). cbn. by rewrite upd_eq. }
  assert (C2 : rt_thread_self me s2 = Some cur).
  { rewrite (keq_self _ _ me E2). unfold rt_thread_self. cbn. by rewrite <-Hcur,
      <-(release_core_self me cur s me). }
  unfold switch_prepare. wp_steps. eapply wp_mono.
  { apply (rt_schedule_remove_thread_spec me d); [|lia|].
    - apply (lock_depth_frame me d s2); try done.
      unfold rt_thread_self. cbn. by rewrite upd_eq.
    - cbn. by rewrite Eto. }
  intros [] s3 (E3 & D3 & L3). wp_steps.
  assert (S3 : rt_thread_self me s3 = Some cur).
  { rewrite (keq_self _ _ me E3). destruct (remove_core_frame to
      (with_cpu me (set_cpu_priority (u8 p) (cpus s2 me)) s2)) as (-> & _).
    unfold rt_thread_self. cbn. by rewrite upd_eq. }
  apply Hfin.
  - intros t Hct. cbn. rewrite L3, <-L2; [done|congruence|].
    unfold rt_thread_self. cbn. rewrite upd_eq. cbn.
    unfold rt_thread_self in C2. congruence.
  - by apply (lock_depth_frame me d s3).
  - done.
  - unfold switch_core. rewrite run_core_order, release_core_other by done.
    set (R := with_thread to _ (release_core me cur s)) in *.
    assert (E4 : keq (remove_core to (with_cpu me (set_cpu_priority (u8 p) (cpus R me)) R)) s3).
    { rewrite <-E3, (keq_cpus _ _ E2 me). by rewrite E2. }
    rewrite <-(keq_threads _ _ E4 to), remove_core_threads. cbn. rewrite upd_eq.
    apply on_cpu_proper; [done..|]. by apply with_thread_proper.
Qed.

(** The switch itself: [cur] is left parked, [to] is the new current thread. *)
Lemma switch_finish to p s3 :
  parked_ok s -> best me s to p -> ~ keeps_running cur p s -> to <> cur ->
  (forall t, t <> cur -> nests s3 t = nests s t) ->
  cpus_lock s3 = true ->
  (th_stat (threads s cur) <> RT_THREAD_CLOSE -> parked (nests s3 cur)) ->
  keq (switch_core me cur to p s) (on_cpu me to s3) ->
  wp (rt_hw_context_switch me to) (fun _ s' =>
    lock_depth me 0 s' /\ parked_ok s' /\ sched_outcome me cur s s') s3.
Proof using All.
  intros Hpk Hb HK Hto L3 C3 P3 E3.
  assert (Ho : oncpu (threads s to) = RT_CPU_DETACHED) by apply Hb.
  assert (Hnc : forall c, 0 <= c < RT_CPUS_NR -> rt_thread_self c s <> Some to).
  { intros c Hc Hs. destruct (kr_cur _ Hr c to Hc Hs) as [E _].
    unfold RT_CPU_DETACHED in *. lia. }
  eapply wp_mono; [apply rt_hw_context_switch_spec; [|exact C3]|].
  { rewrite L3 by done. apply Hpk; [apply Hb|by rewrite (best_stat _ _ _ _ Hb)|done]. }
  intros [] s' (D' & E' & N'). assert (E : keq (switch_core me cur to p s) s') by by etrans.
  split_and!; [done| |right; exists to, p; auto].
  assert (Eself : forall c, rt_thread_self c s' =
    if decide (c = me) then Some to else rt_thread_self c s).
  { intros c. rewrite (keq_self _ _ c E). unfold switch_core.
    destruct (run_core_fields me to p (release_core me cur s)) as (_ & _ & -> & _).
    by rewrite release_core_self. }
  intros t Ht Hst Hn. destruct (decide (t = to)) as [->|Htt].
  { destruct (Hn me Hme). by rewrite Eself, decide_True. }
  rewrite <-(keq_threads _ _ E) in Hst. unfold switch_core in Hst.
  destruct (run_core_fields me to p (release_core me cur s)) as (_ & _ & _ & _ & Et).
  rewrite Et in Hst by done.
  rewrite N' by done. destruct (decide (t = cur)) as [->|Htc].
  { apply P3. intros Ec. apply Hst. destruct (release_core_cur me cur s) as [_ ->].
    by rewrite Ec. }
  rewrite release_core_other in Hst by done.
  rewrite L3 by done. apply Hpk.
  - rewrite <-E in Ht. unfold is_thread, rt_object_get_type, switch_core in *.
    destruct (run_core_fields me to p (release_core me cur s)) as (Eo & _).
    by rewrite Eo, release_core_otype in Ht.
  - done.
  - intros c Hc. destruct (decide (c = me)) as [->|Hcm]; [congruence|].
    specialize (Hn c Hc). by rewrite Eself, decide_False in Hn.
Qed.

(** One call of [rt_schedule], by a thread that holds no lock or that will
    not run again. *)
Lemma rt_schedule_spec d :
  lock_depth me d s -> 0 <= d < 32766 ->
  (d = 0 \/ th_stat (threads s cur) = RT_THREAD_CLOSE) ->
  parked_ok s -> critical_lock_nest (nests s cur) = 0 -> irq_nest (cpus s me) = 0 ->
  wp (rt_schedule me) (fun _ s' => parked_ok s' /\ sched_outcome me cur s s' /\
    (lock_depth me 0 s' \/ rt_thread_self me s' = Some cur /\ lock_depth me d s')) s.
Proof using All.
  intros Hd Hd0 Hdc Hpk Hcr Hirq. unfold rt_schedule. apply wp_bind.
  apply (wp_lock me d); [done|lia|]. intros s1 H1 Hd1.
  pose proof (proj1 H1) as E1.
  assert (C1 : rt_thread_self me s1 = Some cur) by (rewrite (keq_self _ _ me E1); done).
  assert (D1 := Hd1). unfold lock_depth in Hd1. rewrite C1 in Hd1.
  destruct Hd1 as (Hc1 & _ & Hs1 & Hb1).
  wp_steps. rewrite <-(keq_cpus _ _ E1), Hirq. cbn [negb Z.eqb].
  apply wp_bind, (wp_ofopt _ cur); [done|].
  rewrite <-(keq_crit _ _ E1), Hcr in Hs1.
  destruct (Z.eqb_spec (d + 1) 0) as [?|_]; [lia|]. rewrite Hs1.
  cbn [Z.add Z.eqb Pos.eqb andb negb].
  assert (Hstay : forall s2, does me (d + 1) s1 s s2 ->
    (none_ready me s \/ exists to p, best me s to p /\ keeps_running cur p s) ->
    wp (rt_hw_interrupt_enable me) (fun _ s' => parked_ok s' /\ sched_outcome me cur s s' /\
    (lock_depth me 0 s' \/ rt_thread_self me s' = Some cur /\ lock_depth me d s')) s2).
  { intros s2 (E2 & D2 & L2) Hout. apply (wp_unlock me d); [done|lia|].
    intros s3 [E3 N3] D3. assert (E23 : keq s s3) by by etrans.
    split_and!.
    - intros t Ht Hst Hn. assert (Ht2 : rt_thread_self me s <> Some t)
        by (rewrite <-(keq_self _ _ me E23); by apply Hn).
      rewrite N3, L2, (proj2 H1); [|done|by rewrite (keq_self _ _ me E1)|
        by rewrite (keq_self _ _ me E2)].
      apply Hpk; [by rewrite E23|by rewrite (keq_threads _ _ E23)|].
      intros c Hc. rewrite <-(keq_self _ _ c E23). by apply Hn.
    - destruct Hout as [?|(to & p & ? & ?)]; [by left|right]. exists to, p. auto.
    - right. split; [|done]. by rewrite (keq_self _ _ me E23). }
  destruct (negb (ready_group s1 =? 0) || _) eqn:Hne.
  2: { apply Hstay.
       - by split.
       - left. apply orb_false_iff in Hne as [Hg Hc].
         apply negb_false_iff, Z.eqb_eq in Hg, Hc.
         split; [by rewrite (keq_group _ _ E1)|done]. }
  assert (Hn : ~ none_ready me s).
  { intros [Hg Hc]. rewrite (keq_group _ _ E1) in Hg. rewrite Hg, Hc in Hne. done. }
  apply wp_bind. eapply wp_mono; [apply (pick_to_thread_spec (d + 1)); try done; lia|].
  intros r s2 (to & p & Hb & [(HK & E & D)|(HK & -> & Hto & D)]).
  { destruct r as [r hp]. cbn in E. subst r. rewrite decide_True by done.
    apply Hstay; [done|]. right. eauto. }
  rewrite decide_False by done.
  apply (switch_tail_spec (d + 1) _ to p s1 s2); try done; [lia|apply Hb..|].
  intros s3 L3 D3 S3 E3.
  assert (L3' : forall t, t <> cur -> nests s3 t = nests s t).
  { intros t Ht. rewrite L3, (proj2 H1); [done|congruence|done]. }
  unfold lock_depth in D3. rewrite S3 in D3. destruct D3 as (N1 & _ & N2 & N3).
  destruct (Z.eqb_spec (d + 1) 0) as [?|_]; [lia|].
  eapply wp_mono; [apply (switch_finish to p s3); try done|].
  - intros Hst. destruct Hdc as [->|?]; [|done]. right.
    pose proof (keq_crit _ _ E3 cur) as Hc. rewrite switch_core_nests, Hcr in Hc.
    cbn in Hc. destruct (nests s3 cur) as [a b c]. cbn in *. subst. done.
  - intros [] s' (D' & P' & O'). auto.
Qed.
End schedule.

(** ** Scheduling at interrupt exit *)
Lemma with_cpu_quiet me x s :
  current_thread x = current_thread (cpus s me) ->
  priority_group x = priority_group (cpus s me) ->
  (kwf s -> kwf (with_cpu me x s)) /\ (krun s -> krun (with_cpu me x s)) /\
  (parked_ok s -> parked_ok (with_cpu me x s)) /\
  forall c, rt_thread_self c (with_cpu me x s) = rt_thread_self c s.
Proof.
  intros Ec Ep.
  assert (Es : forall c, rt_thread_self c (with_cpu me x s) = rt_thread_self c s).
  { intros c. unfold rt_thread_self, with_cpu, upd. cbn. by case_decide; subst. }
  split_and!; [| | |done].
  - intros Hk. apply (kwf_ext s); try done. intros c. unfold with_cpu, upd. cbn.
    by case_decide; subst.
  - intros [H1 H2 H3]. split.
    + intros c t Hc. rewrite Es. by apply H1.
    + intros t Ht Ho. rewrite Es. by apply H2.
    + apply H3.
  - intros Hp t Ht Hst Hn. apply Hp; [done|done|]. intros c Hc. rewrite <-Es. by apply Hn.
Qed.

Lemma rt_scheduler_do_irq_switch_spec me cur s :
  kwf s -> krun s -> 0 <= me < RT_CPUS_NR -> rt_thread_self me s = Some cur ->
  lock_depth me 0 s -> parked_ok s -> critical_lock_nest (nests s cur) = 0 ->
  irq_nest (cpus s me) = 0 -> irq_switch_flag (cpus s me) <> 0 ->
  wp (rt_scheduler_do_irq_switch me) (fun _ s' => lock_depth me 0 s' /\ parked_ok s' /\
    sched_outcome me cur (with_cpu me (set_irq_switch_flag 0 (cpus s me)) s) s') s.
Proof.
  intros Hk Hr Hme Hcur Hd Hpk Hcr Hirq Hfl.
  destruct (with_cpu_quiet me (set_irq_switch_flag 0 (cpus s me)) s) as (Hk0 & Hr0 & Hp0 & Hs0);
    [done..|]. specialize (Hk0 Hk). specialize (Hr0 Hr). specialize (Hp0 Hpk).
  set (s0 := with_cpu me _ s) in *. pose proof (Hs0 me) as Hcur0. rewrite Hcur in Hcur0.
  unfold rt_scheduler_do_irq_switch. apply wp_bind.
  apply (wp_lock me 0); [done|lia|]. intros s1 H1 D1. cbn in D1. pose proof (proj1 H1) as E1.
  assert (C1 : rt_thread_self me s1 = Some cur) by (rewrite (keq_self _ _ me E1); done).
  wp_steps. rewrite <-(keq_cpus _ _ E1).
  apply (wp_ofopt _ cur); [done|].
  apply Z.eqb_neq in Hfl. rewrite Hfl, Hirq. assert (D1' := D1).
  unfold lock_depth in D1'. rewrite C1 in D1'. destruct D1' as (_ & _ & Hs1 & _).
  rewrite <-(keq_crit _ _ E1), Hcr in Hs1. change (0 + (if 0 + 1 =? 0 then 0 else 1)) with 1 in Hs1.
  rewrite Hs1. cbv beta iota.
  cbn [Z.eqb Pos.eqb andb].
  wp_steps. set (s2 := with_cpu me (set_irq_switch_flag 0 (cpus s1 me)) s1).
  assert (E2 : keq s0 s2) by (unfold s0, s2; by rewrite (keq_cpus _ _ E1 me), E1).
  assert (D2 : lock_depth me 1 s2).
  { apply (lock_depth_frame me 1 s1); try done. unfold rt_thread_self, s2. cbn. by rewrite upd_eq. }
  assert (Nx : forall t, t <> cur -> nests s2 t = nests s t).
  { intros t Ht. unfold s2. cbn. apply (proj2 H1). congruence. }
  assert (C2 : rt_thread_self me s2 = Some cur) by (by rewrite (keq_self _ _ me E2)).
  assert (Hstay : forall s3, does me 1 s2 s0 s3 ->
    (none_ready me s0 \/ exists to p, best me s0 to p /\ keeps_running cur p s0) ->
    wp (rt_hw_interrupt_enable me) (fun _ s' => lock_depth me 0 s' /\ parked_ok s' /\
      sched_outcome me cur s0 s') s3).
  { intros s3 (E3 & D3 & L3) Hout. apply (wp_unlock me 0); [done|lia|].
    intros s4 [E4 N4] D4. assert (E : keq s0 s4) by by etrans.
    split_and!; [done| |].
    - intros t Ht Hst Hn. assert (t <> cur).
      { intros ->. destruct (Hn me Hme). by rewrite (keq_self _ _ me E). }
      rewrite N4, L3, Nx; [|done|congruence|rewrite (keq_self _ _ me E3); congruence].
      apply Hpk.
      + by rewrite <-E in Ht.
      + by rewrite <-(keq_threads _ _ E) in Hst.
      + intros c Hc. rewrite <-Hs0, <-(keq_self _ _ c E). by apply Hn.
    - destruct Hout as [?|(to & p & ? & ?)]; [by left|right]. exists to, p. auto. }
  assert (Hgr : (negb (ready_group s1 =? 0) || negb (priority_group (cpus s me) =? 0)) = true
    <-> ~ none_ready me s0).
  { rewrite orb_true_iff, !negb_true_iff, !Z.eqb_neq, <-(keq_group _ _ E1).
    unfold none_ready, s0. cbn. rewrite upd_eq. cbn.
    destruct (decide (ready_group s = 0)), (decide (priority_group (cpus s me) = 0)); naive_solver. }
  destruct (negb (ready_group s1 =? 0) || _).
  2: { apply Hstay; [by split|]. left. destruct (decide (ready_group s0 = 0)) as [G|G],
         (decide (priority_group (cpus s0 me) = 0)) as [P|P]; [by split|..];
         (assert (false = true) by (apply Hgr; intros [? ?]; auto); done). }
  apply wp_bind. eapply wp_mono.
  { apply (pick_to_thread_spec me cur s0 Hk0 Hr0 Hme Hcur0 1); [done|done|lia|by apply Hgr]. }
  intros r s3 (to & p & Hb & [(HK & E & D)|(HK & -> & Hto & D)]).
  { destruct r as [r hp]. cbn in E. subst r. rewrite decide_True by done.
    apply Hstay; [done|]. right. eauto. }
  rewrite decide_False by done.
  apply (switch_tail_spec me cur s0 Hk0 Hr0 Hme Hcur0 1 _ to p s2 s3); try done; [apply Hb..|].
  intros s4 L4 D4 S4 E4. unfold nest_upd. wp_steps.
  unfold lock_depth in D4. rewrite S4 in D4. destruct D4 as (N1 & _ & N2 & N3).
  pose proof (keq_crit _ _ E4 cur) as Hc. rewrite switch_core_nests in Hc. cbn in Hc, N2.
  rewrite Hcr in Hc.
  eapply wp_mono; [apply (switch_finish me cur s0 Hk0 Hr0 Hme Hcur0 to p); try done|].
  - intros t Ht. cbn. rewrite !upd_ne by done. rewrite L4 by done. apply Nx. done.
  - intros _. cbn. rewrite !upd_eq. cbn.
    destruct (nests s4 cur) as [a b c]. cbn in *. subst. by left.
  - rewrite E4. split; try done. intros t. cbn. unfold upd. repeat case_decide; by subst.
  - intros [] s' (P' & O' & D'). auto.
Qed.

(** ** [rt_schedule] where nothing can be switched *)
Lemma rt_schedule_deferred me d cur s :
  lock_depth me d s -> 0 <= d < 32766 -> rt_thread_self me s = Some cur ->
  irq_nest (cpus s me) <> 0 ->
  wp (rt_schedule me) (fun _ =>
    does me d s (with_cpu me (set_irq_switch_flag 1 (cpus s me)) s)) s.
Proof.
  intros Hd Hd0 Hcur Hirq. unfold rt_schedule. apply wp_bind.
  apply (wp_lock me d); [done|lia|]. intros s1 H1 D1. pose proof (proj1 H1) as E1.
  wp_steps. rewrite <-(keq_cpus _ _ E1 me). apply Z.eqb_neq in Hirq. rewrite Hirq.
  cbn [negb]. wp_steps.
  apply (wp_unlock_does me d s s1); try done; [lia| |].
  - by rewrite (keq_cpus _ _ E1 me), E1.
  - unfold rt_thread_self. cbn. by rewrite upd_eq.
Qed.

Lemma rt_schedule_locked me d cur s :
  lock_depth me d s -> 0 <= d < 32766 -> rt_thread_self me s = Some cur ->
  irq_nest (cpus s me) = 0 -> 0 < critical_lock_nest (nests s cur) ->
  wp (rt_schedule me) (fun _ => does me d s s) s.
Proof.
  intros Hd Hd0 Hcur Hirq Hcr. unfold rt_schedule. apply wp_bind.
  apply (wp_lock me d); [done|lia|]. intros s1 H1 D1. pose proof (proj1 H1) as E1.
  assert (C1 : rt_thread_self me s1 = Some cur) by (rewrite (keq_self _ _ me E1); done).
  wp_steps. rewrite <-(keq_cpus _ _ E1 me), Hirq. cbn [negb Z.eqb].
  apply wp_bind, (wp_ofopt _ cur); [done|].
  assert (D1' := D1). unfold lock_depth in D1'. rewrite C1 in D1'.
  destruct D1' as (_ & _ & Hs & _). rewrite <-(keq_crit _ _ E1) in Hs.
  destruct (Z.eqb_spec (d + 1) 0) as [?|_]; [lia|].
  destruct (Z.eqb_spec (scheduler_lock_nest (nests s1 cur)) 1) as [?|_]; [lia|].
  cbn [andb]. apply (wp_unlock_does me d s s1); done || lia.
Qed.

(** Everything a call of [rt_schedule] by a thread can come to. *)
Definition schedule_effect (me : Z) (cur : tid) (s s' : kstate) : Prop :=
  if negb (irq_nest (cpus s me) =? 0) then
    keq (with_cpu me (set_irq_switch_flag 1 (cpus s me)) s) s'
  else if 0 <? critical_lock_nest (nests s cur) then keq s s'
  else sched_outcome me cur s s'.

Lemma rt_schedule_effect me cur s :
  kwf s -> krun s -> 0 <= me < RT_CPUS_NR -> rt_thread_self me s = Some cur ->
  lock_depth me 0 s -> parked_ok s ->
  wp (rt_schedule me) (fun _ s' => lock_depth me 0 s' /\ parked_ok s' /\
    schedule_effect me cur s s') s.
Proof.
  intros Hk Hr Hme Hcur Hd Hpk. unfold schedule_effect.
  assert (Hdoes : forall s1 s', parked_ok s1 -> nests s1 = nests s ->
    rt_thread_self me s1 = rt_thread_self me s ->
    does me 0 s s1 s' -> lock_depth me 0 s' /\ parked_ok s' /\ keq s1 s').
  { intros s1 s' Hp1 N1 S1 (E & D & N). split_and!; [done| |done].
    intros t Ht Hst Hn. rewrite N, <-N1.
    - apply Hp1; [by rewrite E|by rewrite (keq_threads _ _ E)|].
      intros c Hc. rewrite <-(keq_self _ _ c E). by apply Hn.
    - rewrite <-S1, <-(keq_self _ _ me E). by apply Hn. }
  destruct (Z.eqb_spec (irq_nest (cpus s me)) 0) as [Hi|Hi]; cbn [negb].
  2: { eapply wp_mono; [by eapply (rt_schedule_deferred me 0)|]. intros [] s'.
       destruct (with_cpu_quiet me (set_irq_switch_flag 1 (cpus s me)) s) as (_ & _ & Hp & Hs);
         [done..|]. apply Hdoes; auto. }
  assert (Hc : 0 <= critical_lock_nest (nests s cur)).
  { unfold lock_depth in Hd. rewrite Hcur in Hd. apply Hd. }
  destruct (Z.ltb_spec 0 (critical_lock_nest (nests s cur))) as [Hcr|Hcr].
  { eapply wp_mono; [by eapply (rt_schedule_locked me 0)|]. intros [] s'. by apply Hdoes. }
  eapply wp_mono; [apply (rt_schedule_spec me cur s Hk Hr Hme Hcur 0); try done; [auto|lia]|].
  intros [] s' (P & O & [D|[_ D]]); auto.
Qed.

(** What every outcome keeps. *)
Lemma sched_outcome_ok me cur s s' :
  kwf s -> krun s -> 0 <= me < RT_CPUS_NR -> rt_thread_self me s = Some cur ->
  sched_outcome me cur s s' -> kwf s' /\ krun s'.
Proof.
  intros Hk Hr Hme Hcur [[_ E]|(to & p & Hb & [[_ E]|[_ E]])]; rewrite <-E; [done..|].
  destruct (switch_core_ok me cur to p s) as (K & R & _); try done; apply Hb.
Qed.

(** A switch leaves the switch request of the CPU alone. *)
Lemma sched_outcome_flag me cur s s' :
  sched_outcome me cur s s' ->
  irq_switch_flag (cpus s' me) = irq_switch_flag (cpus s me).
Proof.
  assert (Hg : forall g c cs, irq_switch_flag (upd cs c (set_priority_group g (cs c)) me) =
    irq_switch_flag (cs me)) by (intros; unfold upd; by case_decide; subst).
  intros [[_ E]|(to & p & Hb & [[_ E]|[_ E]])]; rewrite <-(keq_cpus _ _ E); [done..|].
  unfold switch_core, run_core, with_thread. cbn. rewrite upd_eq. cbn.
  unfold remove_core, release_core, insert_core, with_thread.
  repeat case_match; cbn; by rewrite ?Hg.
Qed.

Lemma schedule_effect_ok me cur s s' :
  kwf s -> krun s -> 0 <= me < RT_CPUS_NR -> rt_thread_self me s = Some cur ->
  schedule_effect me cur s s' -> kwf s' /\ krun s'.
Proof.
  intros Hk Hr Hme Hcur. unfold schedule_effect.
  destruct (with_cpu_quiet me (set_irq_switch_flag 1 (cpus s me)) s) as (K & R & _); [done..|].
  case_match; [intros E; rewrite <-E; auto|]. case_match; [intros E; by rewrite <-E|].
  by apply sched_outcome_ok.
Qed.

(** ** Who runs after an outcome *)
Lemma none_ready_eligible me s t :
  kwf s -> 0 <= me < RT_CPUS_NR -> none_ready me s -> ~ eligible me s t.
Proof.
  intros Hk Hme [Hg Hc] (p & Hp & [Hin|Hin]).
  - by rewrite (bitmap_zero _ _ (kw_group _ Hk) Hg p Hp) in Hin;
      apply not_elem_of_nil in Hin.
  - by rewrite (bitmap_zero _ _ (kw_cgroup _ Hk me Hme) Hc p Hp) in Hin;
      apply not_elem_of_nil in Hin.
Qed.

(** The thread that runs after an outcome has the best claim. *)
Definition runs_best (me : Z) (s s' : kstate) : Prop :=
  exists now, rt_thread_self me s' = Some now /\
    th_stat (threads s' now) = RT_THREAD_RUNNING /\ oncpu (threads s' now) = me /\
    forall t, eligible me s t ->
      current_priority (threads s' now) <= current_priority (threads s t).

Lemma sched_outcome_best me cur s s' :
  kwf s -> krun s -> 0 <= me < RT_CPUS_NR -> rt_thread_self me s = Some cur ->
  (th_stat (threads s cur) = RT_THREAD_RUNNING \/ ~ none_ready me s) ->
  sched_outcome me cur s s' -> runs_best me s s'.
Proof.
  intros Hk Hr Hme Hcur Hor O.
  destruct (kr_cur _ Hr me cur Hme Hcur) as [Ho _].
  destruct O as [[Hn E]|(to & p & Hb & [[[Hst Hp] E]|[_ E]])].
  - exists cur. rewrite (keq_self _ _ me E), <-(keq_threads _ _ E).
    destruct Hor as [Hst|]; [|done]. split_and!; try done. intros t Ht.
    by destruct (none_ready_eligible me s t Hk Hme Hn).
  - exists cur. rewrite (keq_self _ _ me E), <-(keq_threads _ _ E). split_and!; try done.
    intros t Ht. pose proof (best_max _ _ _ _ Hb t Ht). lia.
  - destruct (switch_core_ok me cur to p s) as (_ & _ & Es & Est & Eo); try done;
      [apply Hb..|].
    exists to. rewrite (keq_self _ _ me E), <-(keq_threads _ _ E). split_and!; try done.
    intros t Ht. pose proof (best_max _ _ _ _ Hb t Ht) as Hmax.
    unfold switch_core. destruct (run_core_fields me to p (release_core me cur s))
      as (_ & _ & _ & -> & _).
    assert (to <> cur) by (intros ->; by apply (current_not_ready me cur s), Hb).
    rewrite release_core_other by done. cbn. by rewrite (best_prio _ _ _ _ Hb).
Qed.

(** A switch moves threads between the ready lists only. *)
Lemma switch_core_lists me cur to p s h :
  kwf s -> th_stat (threads s to) = RT_THREAD_READY -> is_ready_head h = false ->
  lists (switch_core me cur to p s) h = lists s h.
Proof.
  intros Hk Hst Hh. unfold switch_core, run_core. cbn. rewrite remove_core_lists.
  assert (El : lists (release_core me cur s) h = lists s h).
  { unfold release_core, insert_core, with_thread.
    assert (Hr : forall th, h <> ready_head th).
    { intros th ->. unfold ready_head in Hh. by case_match. }
    repeat case_match; cbn; rewrite ?upd_ne; try done; intros E; by eapply Hr. }
  rewrite El. apply remove_elt_notin. intros Hin.
  destruct (kw_loc _ Hk _ _ Hin) as [_ Hl]. destruct h; cbn in Hl; try done; by rewrite Hst in Hl.
Qed.

(** Priorities survive every outcome. *)
Lemma sched_outcome_prio me cur s s' t :
  sched_outcome me cur s s' ->
  current_priority (threads s' t) = current_priority (threads s t) /\
  number_mask (threads s' t) = number_mask (threads s t).
Proof.
  intros [[_ E]|(to & p & Hb & [[_ E]|[_ E]])]; rewrite <-(keq_threads _ _ E); [done..|].
  assert (Hup : forall (f : tid -> thread) x th,
    current_priority th = current_priority (f x) -> number_mask th = number_mask (f x) ->
    current_priority (upd f x th t) = current_priority (f t) /\
    number_mask (upd f x th t) = number_mask (f t)).
  { intros f x th H1 H2. unfold upd. by case_decide; subst. }
  assert (Hrel : current_priority (threads (release_core me cur s) t) = current_priority (threads s t) /\
    number_mask (threads (release_core me cur s) t) = number_mask (threads s t)).
  { unfold release_core, insert_core, with_thread.
    repeat case_match; cbn; unfold upd; repeat case_decide; by subst. }
  destruct Hrel as [R1 R2]. unfold switch_core, run_core. cbn.
  destruct (Hup (threads (remove_core to (release_core me cur s))) to
    (put_stat RT_THREAD_RUNNING (set_oncpu me (threads (release_core me cur s) to))))
    as [-> ->]; rewrite remove_core_threads; done.
Qed.
