(* ===== verification/Kernel.v ===== *)
(** The interface between the scheduler with its CPU lock and the components
    above it (timers, threads, objects, IPC), and the erasure theorem: a
    component's code run on the SMP kernel does what the same code does on an
    abstract kernel whose lock is a no-op and whose queue operations are one
    step each. *)
From S2P Require Import Prelude KService Timer KState KInv Sched.

(** What the components above the scheduler call. *)
Class Kernel := {
  cpu_id : Z;
  interrupt_disable : K unit;
  interrupt_enable : K unit;
  schedule_insert_thread : tid -> K unit;
  schedule_remove_thread : tid -> K unit }.

(** The kernel of [cpu.c] and [scheduler.c], on CPU [me]. *)
Definition Smp (me : Z) : Kernel := {|
  cpu_id := me;
  interrupt_disable := rt_hw_interrupt_disable me;
  interrupt_enable := rt_hw_interrupt_enable me;
  schedule_insert_thread := rt_schedule_insert_thread me;
  schedule_remove_thread := rt_schedule_remove_thread me |}.

(** The abstract kernel. *)
Definition bind_ok (t : tid) : K unit :=
  s ← get;
  assertM ((0 <=? bind_cpu (threads s t)) && (bind_cpu (threads s t) <=? RT_CPUS_NR)).
Definition Big (me : Z) : Kernel := {|
  cpu_id := me;
  interrupt_disable := mret tt;
  interrupt_enable := mret tt;
  schedule_insert_thread t := bind_ok t;; modify (insert_core me t);
  schedule_remove_thread t := bind_ok t;; modify (remove_core t) |}.

(** * Erasure *)

(** [s] is the SMP state that abstracts to [s0], with the lock at depth [d]. *)
Definition sim (me d : Z) (s0 s : kstate) : Prop :=
  exists n b, s = relock n b s0 /\ agree me n s0 /\ lock_depth me d s.

Definition erases (me d d' : Z) {A} (m e : K A) : Prop :=
  forall s0 s, sim me d s0 s -> forall a s0', e s0 = Some (a, s0') ->
    exists s', m s = Some (a, s') /\ sim me d' s0' s' /\
      rt_thread_self me s0' = rt_thread_self me s0 /\ nests s0' = nests s0.

Lemma agree_trans me n n' b s :
  agree me n s -> agree me n' (relock n b s) -> agree me n' s.
Proof.
  intros H1 H2 t. destruct (H1 t) as [C1 N1], (H2 t) as [C2 N2]. split.
  - by rewrite C2.
  - intros Ht. rewrite N2 by done. by apply N1.
Qed.

Section rules.
Context (me : Z).

Lemma er_ret d A (a : A) : erases me d d (mret a) (mret a).
Proof. intros s0 s Hs a' s0' [= <- <-]. by exists s. Qed.

Lemma er_bind d d1 d2 A B (m e : K A) (k k0 : A -> K B) :
  erases me d d1 m e -> (forall a, erases me d1 d2 (k a) (k0 a)) ->
  erases me d d2 (mbind k m) (mbind k0 e).
Proof.
  intros Hm Hk s0 s Hs b s0' He. unfold mbind, M_bind in *.
  destruct (e s0) as [[a s1]|] eqn:E; [|done].
  destruct (Hm s0 s Hs a s1 E) as (s' & -> & Hs' & E1 & N1).
  destruct (Hk a s1 s' Hs' b s0' He) as (s'' & -> & Hs'' & E2 & N2).
  exists s''. by rewrite E2, N2.
Qed.

Lemma er_get d d' B (k k0 : kstate -> K B) :
  (forall s n b, erases me d d' (k (relock n b s)) (k0 s)) ->
  erases me d d' (mbind k get) (mbind k0 get).
Proof.
  intros Hk s0 s Hs b s0' He. destruct (id Hs) as (n & l & -> & _).
  by apply (Hk s0 n l s0).
Qed.

(** A change of the state that does not concern the lock. *)
Definition quiet (f : kstate -> kstate) : Prop :=
  forall n b s, f (relock n b s) = relock n b (f s) /\
    rt_thread_self me (f s) = rt_thread_self me s /\ nests (f s) = nests s.

Lemma er_modify d f : quiet f -> erases me d d (modify f) (modify f).
Proof.
  intros Hf s0 s (n & l & -> & Ha & Hd) a s0' [= <- <-].
  destruct (Hf n l s0) as (E1 & E2 & E3). exists (f (relock n l s0)).
  split; [done|]. split; [|done]. exists n, l. split; [done|].
  unfold agree, lock_depth in *. rewrite E2, E3. split; [done|].
  rewrite E1. unfold rt_thread_self in *. cbn in *. by rewrite E2.
Qed.

Lemma er_assert d b : erases me d d (assertM b) (assertM b).
Proof. intros s0 s Hs a s0'. destruct b; [|done]. intros [= <- <-]. by exists s. Qed.

Lemma er_ofopt d A (o : option A) : erases me d d (ofopt o) (ofopt o).
Proof. intros s0 s Hs a s0'. destruct o; [|done]. intros [= <- <-]. by exists s. Qed.

Lemma er_fail d d' A (m : K A) : erases me d d' m fail.
Proof. by intros s0 s Hs a s0'. Qed.

Lemma er_on_tm d A (m : M tstate A) : erases me d d (on_tm m) (on_tm m).
Proof.
  intros s0 s (n & l & -> & Ha & Hd) a s0'. unfold on_tm. cbn.
  destruct (m (tm s0)) as [[x ts]|]; [|done]. intros [= <- <-].
  eexists. split; [done|]. split; [|done]. by exists n, l.
Qed.

Lemma er_disable d :
  0 <= d < 32768 -> erases me d (d + 1) (rt_hw_interrupt_disable me) (mret tt).
Proof.
  intros Hd0 s0 s (n & l & -> & Ha & Hd) a s0' [= <- <-].
  destruct (lock_run me d _ Hd Hd0) as (n' & l' & -> & Hd' & Ha').
  eexists. split; [done|]. split; [|done]. exists n', l'.
  split; [done|]. split; [by eapply agree_trans|done].
Qed.

Lemma er_enable d :
  0 <= d < 32768 -> erases me (d + 1) d (rt_hw_interrupt_enable me) (mret tt).
Proof.
  intros Hd0 s0 s (n & l & -> & Ha & Hd) a s0' [= <- <-].
  destruct (unlock_run me d _ Hd Hd0) as (n' & l' & -> & Hd' & Ha').
  eexists. split; [done|]. split; [|done]. exists n', l'.
  split; [done|]. split; [by eapply agree_trans|done].
Qed.

(** A critical section that comes to one quiet step. *)
Lemma er_section d (rest : K unit) f t :
  0 <= d < 32767 -> quiet f ->
  (forall s, 0 <= bind_cpu (threads s t) <= RT_CPUS_NR ->
    rest s = rt_hw_interrupt_enable me (f s)) ->
  erases me d d (rt_hw_interrupt_disable me;; rest) (bind_ok t;; modify f).
Proof.
  intros Hd0 Hf Hb s0 s Hs a s0' He. unfold bind_ok, mbind, M_bind, get in *.
  destruct ((0 <=? bind_cpu (threads s0 t)) && _) eqn:Eb; [|done].
  apply andb_true_iff in Eb as [E1%Z.leb_le E2%Z.leb_le].
  injection He as <- <-.
  destruct (er_disable d ltac:(lia) s0 s Hs tt s0 eq_refl) as (s1 & -> & Hs1 & _).
  destruct (id Hs1) as (n & l & Es1 & _). rewrite Hb by (by rewrite Es1).
  destruct (er_modify (d + 1) f Hf s0 s1 Hs1 tt (f s0) eq_refl) as (s2 & [= <-] & Hs2 & Es & En).
  destruct (er_enable d ltac:(lia) (f s0) _ Hs2 tt (f s0) eq_refl) as (s3 & -> & Hs3 & _).
  by exists s3.
Qed.

Lemma quiet_insert t : quiet (insert_core me t).
Proof using.
  intros n b s. split; [|split; apply insert_core_frame].
  unfold insert_core, relock, with_thread. cbn. by repeat case_match.
Qed.
Lemma quiet_remove t : quiet (remove_core t).
Proof using.
  intros n b s. split; [|split; apply remove_core_frame].
  unfold remove_core, relock, unlinked. cbn. by repeat case_match.
Qed.

Lemma er_remove d t : 0 <= d < 32767 ->
  erases me d d (schedule_remove_thread (Kernel := Smp me) t)
    (schedule_remove_thread (Kernel := Big me) t).
Proof using.
  intros Hd. apply er_section; [done|apply quiet_remove|]. intros s Hb.
  unfold remove_core, list_remove, rt_cpu_index, ready_head, when, modify, assertM,
    mbind, M_bind, get. cbn.
  destruct (Z.eqb_spec (bind_cpu (threads s t)) RT_CPUS_NR) as [E|E].
  - by case_bool_decide.
  - assert ((0 <=? bind_cpu (threads s t)) && (bind_cpu (threads s t) <? RT_CPUS_NR) = true)
      as -> by (apply andb_true_iff; lia). cbn. by case_bool_decide.
Qed.

Lemma er_insert d t : 0 <= d < 32767 ->
  erases me d d (schedule_insert_thread (Kernel := Smp me) t)
    (schedule_insert_thread (Kernel := Big me) t).
Proof using.
  intros Hd. apply er_section; [done|apply quiet_insert|]. intros s Hb.
  unfold insert_core, rt_cpu_index, ready_head, when, thread_upd, cpu_upd,
    list_insert_before, rt_hw_ipi_send, modify, assertM, mbind, M_bind, get. cbn.
  destruct (negb (oncpu (threads s t) =? RT_CPU_DETACHED)); [done|].
  destruct (Z.eqb_spec (bind_cpu (threads s t)) RT_CPUS_NR) as [E|E]; [done|].
  assert ((0 <=? bind_cpu (threads s t)) && (bind_cpu (threads s t) <? RT_CPUS_NR) = true)
    as -> by (apply andb_true_iff; lia). cbn.
  by destruct (me =? bind_cpu (threads s t)).
Qed.
End rules.

Lemma sim_refl me d s : lock_depth me d s -> sim me d s s.
Proof. intros Hd. exists (nests s), (cpus_lock s). split; [by destruct s|]. by split. Qed.

(** What holds of the abstract run holds of the SMP run, up to the lock. *)
Lemma wp_erase me d d' A (m e : K A) (Q : A -> kstate -> Prop) s0 s :
  erases me d d' m e -> sim me d s0 s -> wp e Q s0 ->
  wp m (fun a s' => exists s0', Q a s0' /\ sim me d' s0' s' /\
    rt_thread_self me s0' = rt_thread_self me s0 /\ nests s0' = nests s0) s.
Proof.
  intros He Hs Hw. apply wp_run in Hw as (a & s0' & E & HQ). apply wp_run.
  destruct (He s0 s Hs a s0' E) as (s' & -> & Hs' & E'). exists a, s'. split; [done|]. eauto.
Qed.

Lemma sim_keq me d s0 s : sim me d s0 s -> keq s0 s.
Proof. intros (n & b & -> & Ha & _). apply keq_locks. intros t. apply Ha. Qed.
Lemma sim_depth me d s0 s : sim me d s0 s -> lock_depth me d s.
Proof. by intros (n & b & -> & _ & Hd). Qed.

(** ** Automation

    [er] walks through a body run on both kernels; the erasure lemma of each
    operation is in the database [er]. *)
Create HintDb er.
Ltac er_quiet := intros ? ? ?; split; [reflexivity|split; reflexivity].
Ltac er_prim :=
  first
    [ apply er_ret | apply er_assert | apply er_ofopt | apply er_on_tm
    | apply er_disable; lia | apply er_enable; lia
    | apply er_insert; lia | apply er_remove; lia
    | apply er_modify; er_quiet
    | solve [eauto with er lia] ].
Ltac er_step :=
  lazymatch goal with
  | |- erases _ _ _ (mbind _ get) (mbind _ get) => apply er_get; intros; cbv beta zeta
  | |- erases _ _ _ (mbind _ _) (mbind _ _) => eapply er_bind; [|intros; cbv beta zeta]
  | |- erases _ _ _ (when ?b _) (when ?b' _) => unfold when
  | |- erases _ _ _ (if ?b then _ else _) (if ?b' then _ else _) =>
      change b with b'; destruct b'
  | |- erases _ _ _ (match ?b with _ => _ end) (match ?b' with _ => _ end) =>
      change b with b'; destruct b'
  | |- erases _ _ _ _ _ => er_prim
  end.
Ltac er := repeat er_step.
