(* ===== verification/KTimer.v ===== *)
(** The timer operations of [rt-thread/src/timer.c] with their object checks
    and critical sections, on the kernel state. *)
From S2P Require Import Prelude KService Timer KState KInv Sched Kernel.

Section ops.
Context {Kn : Kernel}.

Definition rt_timer_start (timer : tmr) : K Z :=
  assert_type (OTimer timer) RT_Object_Class_Timer;;
  interrupt_disable;;
  on_tm (timer_unlink timer);;
  interrupt_enable;;
  s ← get;
  assertM (tm_init_tick (timers (tm s) timer) <? RT_TICK_MAX / 2);;
  on_tm (timer_upd timer (fun t => set_timeout_tick
    (u32 (rt_tick_get s + tm_init_tick t)) t));;
  interrupt_disable;;
  on_tm (timer_link timer);;
  interrupt_enable;;
  mret RT_EOK.

Definition rt_timer_stop (timer : tmr) : K Z :=
  assert_type (OTimer timer) RT_Object_Class_Timer;;
  s ← get;
  if negb (tm_has RT_TIMER_FLAG_ACTIVATED (timers (tm s) timer)) then mret (- RT_ERROR)
  else
    interrupt_disable;;
    on_tm (_rt_timer_remove timer);;
    interrupt_enable;;
    on_tm (timer_upd timer (clear_flag RT_TIMER_FLAG_ACTIVATED));;
    mret RT_EOK.

Definition rt_timer_control (timer : tmr) (cmd arg : Z) : K (Z * Z) :=
  assert_type (OTimer timer) RT_Object_Class_Timer;;
  on_tm (timer_control timer cmd arg).

Definition rt_timer_next_timeout_tick : K Z := on_tm rt_timer_list_next_timeout.
End ops.

(** * Erasure *)
Section erase.
Context (me d : Z) (Hd : 0 <= d < 32767).

Lemma rt_timer_start_er t :
  erases me d d (rt_timer_start (Kn := Smp me) t) (rt_timer_start (Kn := Big me) t).
Proof using Hd. unfold rt_timer_start, assert_type. er. Qed.

Lemma rt_timer_stop_er t :
  erases me d d (rt_timer_stop (Kn := Smp me) t) (rt_timer_stop (Kn := Big me) t).
Proof using Hd. unfold rt_timer_stop, assert_type. er. Qed.

Lemma rt_timer_control_er t cmd arg :
  erases me d d (rt_timer_control t cmd arg) (rt_timer_control t cmd arg).
Proof using. unfold rt_timer_control, assert_type. er. Qed.
End erase.
#[export] Hint Resolve rt_timer_start_er rt_timer_stop_er rt_timer_control_er : er.
