(* ===== verification/Object.v ===== *)
(** The object manager ([rt-thread/src/object.c]): the type header of every
    kernel object, the per-class containers, and the operations that put
    objects into them and take them out.  Names are handled as values of a
    parameter [name_of]; the heap block an allocation gets is an argument. *)
From S2P Require Import Prelude KService Timer KState KInv Sched Kernel KTimer.

(** [rt_object_container]: the classes of this configuration. *)
Definition rt_object_container : list Z :=
  [RT_Object_Class_Thread; RT_Object_Class_Semaphore; RT_Object_Class_Mutex;
   RT_Object_Class_Event; RT_Object_Class_MailBox; RT_Object_Class_MessageQueue;
   9 (* RT_Object_Class_Device *); RT_Object_Class_Timer].

Definition rt_object_get_information (type : Z) : option Z :=
  list_find (fun c => c = type) rt_object_container ≫= fun r => Some r.2.

Definition otype_upd (o : obj) (v : Z) : K unit :=
  modify (fun s => set_otype (upd (otype s) o v) s).
(** [rt_list_insert_after(&information->object_list, &object->list)], and
    [rt_list_remove(&object->list)]. *)
Definition container_insert (c : Z) (o : obj) : K unit :=
  modify (fun s => set_containers (upd (containers s) c (o :: containers s c)) s).
Definition container_remove (o : obj) : K unit :=
  modify (fun s => set_containers (fun c => remove_elt o (containers s c)) s).

(** The debug loop of [rt_object_init]: [RT_ASSERT(obj != object)]. *)
Fixpoint assert_absent (o : obj) (l : list obj) : K unit :=
  match l with
  | [] => mret tt
  | x :: l' => assertM (bool_decide (x <> o));; assert_absent o l'
  end.

Section ops.
Context {Kn : Kernel}.

Definition rt_object_detach (object : obj) : K unit :=
  otype_upd object 0;;
  interrupt_disable;;
  container_remove object;;
  interrupt_enable.

(** [RT_KERNEL_FREE(object)] is the caller's to give back. *)
Definition rt_object_delete (object : obj) : K unit :=
  s ← get;
  assertM (negb (rt_object_is_systemobject s object));;
  otype_upd object 0;;
  interrupt_disable;;
  container_remove object;;
  interrupt_enable.

(** [mem] is what [RT_KERNEL_MALLOC] returned. *)
Definition rt_object_allocate (mem : option obj) (type : Z) : K (option obj) :=
  s ← get;
  assertM (irq_nest (cpus s cpu_id) =? 0);;
  information ← ofopt (rt_object_get_information type);
  match mem with
  | None => mret None
  | Some object =>
      otype_upd object type;;
      interrupt_disable;;
      container_insert information object;;
      interrupt_enable;;
      mret (Some object)
  end.

Definition rt_timer_detach (timer : tmr) : K Z :=
  assert_type (OTimer timer) RT_Object_Class_Timer;;
  s ← get;
  assertM (rt_object_is_systemobject s (OTimer timer));;
  interrupt_disable;;
  on_tm (_rt_timer_remove timer);;
  interrupt_enable;;
  rt_object_detach (OTimer timer);;
  mret RT_EOK.

Definition rt_timer_delete (timer : tmr) : K Z :=
  assert_type (OTimer timer) RT_Object_Class_Timer;;
  s ← get;
  assertM (negb (rt_object_is_systemobject s (OTimer timer)));;
  interrupt_disable;;
  on_tm (_rt_timer_remove timer);;
  interrupt_enable;;
  rt_object_delete (OTimer timer);;
  mret RT_EOK.

Definition rt_timer_create (mem : option tmr) (timeout : tmfun) (time flag : Z)
  : K (option tmr) :=
  o ← rt_object_allocate (OTimer <$> mem) RT_Object_Class_Timer;
  match o, mem with
  | Some _, Some timer => on_tm (_rt_timer_init timer timeout time flag);; mret (Some timer)
  | _, _ => mret None
  end.
End ops.

(** Operations that scan a container inside a critical section. *)
Section scan.
Context (me : Z).

Definition rt_object_init (object : obj) (type : Z) : K unit :=
  information ← ofopt (rt_object_get_information type);
  rt_enter_critical me;;
  s ← get;
  assert_absent object (containers s information);;
  rt_exit_critical me;;
  otype_upd object (Z.lor type RT_Object_Class_Static);;
  rt_hw_interrupt_disable me;;
  container_insert information object;;
  rt_hw_interrupt_enable me.

Definition rt_timer_init (timer : tmr) (timeout : tmfun) (time flag : Z) : K unit :=
  rt_object_init (OTimer timer) RT_Object_Class_Timer;;
  on_tm (_rt_timer_init timer timeout time flag).

(** [name_of object] is the [name] field, [name] the argument; they are
    compared by [rt_strncmp(..., RT_NAME_MAX)]. *)
Fixpoint find_named (same : obj -> bool) (l : list obj) : option obj :=
  match l with
  | [] => None
  | o :: l' => if same o then Some o else find_named same l'
  end.

Definition RT_NAME_MAX : Z := 12.
Definition same_name (name_of : obj -> list Z) (name : list Z) (o : obj) : bool :=
  bool_decide (take (Z.to_nat RT_NAME_MAX) (name_of o) = take (Z.to_nat RT_NAME_MAX) name).

Definition rt_object_find (name_of : obj -> list Z) (name : list Z) (type : Z)
  : K (option obj) :=
  if 12 (* RT_Object_Class_Unknown *) <? type then mret None
  else
    RT_DEBUG_NOT_IN_INTERRUPT me;;
    rt_enter_critical me;;
    information ← ofopt (rt_object_get_information type);
    s ← get;
    let object := find_named (same_name name_of name) (containers s information) in
    rt_exit_critical me;;
    mret object.
End scan.

(** * Erasure *)
Section erase.
Context (me d : Z) (Hd : 0 <= d < 32767).

Lemma rt_object_detach_er o :
  erases me d d (rt_object_detach (Kn := Smp me) o) (rt_object_detach (Kn := Big me) o).
Proof using Hd. unfold rt_object_detach, otype_upd, container_remove. er. Qed.

Lemma rt_object_delete_er o :
  erases me d d (rt_object_delete (Kn := Smp me) o) (rt_object_delete (Kn := Big me) o).
Proof using Hd. unfold rt_object_delete, otype_upd, container_remove. er. Qed.

Lemma rt_object_allocate_er m c :
  erases me d d (rt_object_allocate (Kn := Smp me) m c)
    (rt_object_allocate (Kn := Big me) m c).
Proof using Hd. unfold rt_object_allocate, otype_upd, container_insert. er. Qed.

Hint Resolve rt_object_detach_er rt_object_delete_er rt_object_allocate_er : er.

Lemma rt_timer_detach_er t :
  erases me d d (rt_timer_detach (Kn := Smp me) t) (rt_timer_detach (Kn := Big me) t).
Proof using Hd. unfold rt_timer_detach, assert_type. er. Qed.

Lemma rt_timer_delete_er t :
  erases me d d (rt_timer_delete (Kn := Smp me) t) (rt_timer_delete (Kn := Big me) t).
Proof using Hd. unfold rt_timer_delete, assert_type. er. Qed.

Lemma rt_timer_create_er m f time flag :
  erases me d d (rt_timer_create (Kn := Smp me) m f time flag)
    (rt_timer_create (Kn := Big me) m f time flag).
Proof using Hd. unfold rt_timer_create. er. Qed.
End erase.
#[export] Hint Resolve rt_object_detach_er rt_object_delete_er rt_object_allocate_er
  rt_timer_detach_er rt_timer_delete_er rt_timer_create_er : er.
