(* ===== verification/Thread.v ===== *)
(** Threads ([rt-thread/src/thread.c]): life cycle, suspension and resumption,
    sleeping, control, and the timeout handler of the thread timers.

    A body that ends in [rt_schedule] is the composition of its part up to the
    call, [rt_schedule], and its part after the call; the latter runs when the
    thread is current again, see [then_resumed]. *)
From S2P Require Import Prelude KService Timer KState KInv Sched Kernel KTimer Object.

Definition RT_TICK_PER_SECOND : Z := 1000.
Definition RT_WAITING_FOREVER : Z := -1.
Definition RT_THREAD_CTRL_STARTUP : Z := 0x00.
Definition RT_THREAD_CTRL_CLOSE : Z := 0x01.
Definition RT_THREAD_CTRL_CHANGE_PRIORITY : Z := 0x02.
Definition RT_THREAD_CTRL_BIND_CPU : Z := 0x04.

(** Code after a call of [rt_schedule] by [thread]: run now if the thread is
    still current, otherwise left ([None]) until it is switched to again. *)
Definition then_resumed {A} (me : Z) (thread : tid) (k : K A) : K (option A) :=
  s ← get;
  if decide (rt_thread_self me s = Some thread) then r ← k; mret (Some r) else mret None.

Section ops.
Context {Kn : Kernel}.

Definition rt_thread_suspend (thread : tid) : K Z :=
  assert_type (OThread thread) RT_Object_Class_Thread;;
  s ← get;
  let st := th_stat (threads s thread) in
  if negb (st =? RT_THREAD_READY) && negb (st =? RT_THREAD_RUNNING) then mret (- RT_ERROR)
  else
    interrupt_disable;;
    s ← get;
    when (st =? RT_THREAD_RUNNING)
      (assertM (bool_decide (rt_thread_self cpu_id s = Some thread)));;
    schedule_remove_thread thread;;
    thread_upd thread (put_stat RT_THREAD_SUSPEND);;
    rt_timer_stop (ThreadTimer thread);;
    interrupt_enable;;
    mret RT_EOK.

Definition rt_thread_resume (thread : tid) : K Z :=
  assert_type (OThread thread) RT_Object_Class_Thread;;
  s ← get;
  if negb (th_stat (threads s thread) =? RT_THREAD_SUSPEND) then mret (- RT_ERROR)
  else
    interrupt_disable;;
    list_remove thread;;
    rt_timer_stop (ThreadTimer thread);;
    interrupt_enable;;
    schedule_insert_thread thread;;
    mret RT_EOK.

(** [rt_thread_timeout] up to [rt_schedule]. *)
Definition rt_thread_timeout_wake (thread : tid) : K unit :=
  s ← get;
  assertM (th_stat (threads s thread) =? RT_THREAD_SUSPEND);;
  assert_type (OThread thread) RT_Object_Class_Thread;;
  thread_upd thread (set_error (- RT_ETIMEOUT));;
  list_remove thread;;
  schedule_insert_thread thread.

(** [rt_thread_sleep] up to [rt_schedule]; and the suspension and timer part
    of a blocking IPC call, which has the same shape. *)
Definition rt_thread_sleep_enter (thread : tid) (tick : Z) : K unit :=
  assert_type (OThread thread) RT_Object_Class_Thread;;
  interrupt_disable;;
  rt_thread_suspend thread;;
  rt_timer_control (ThreadTimer thread) RT_TIMER_CTRL_SET_TIME tick;;
  rt_timer_start (ThreadTimer thread);;
  interrupt_enable.
Definition rt_thread_sleep_resumed (thread : tid) : K Z :=
  s ← get;
  when (error (threads s thread) =? - RT_ETIMEOUT) (thread_upd thread (set_error RT_EOK));;
  mret RT_EOK.

(** [rt_thread_delay_until]: the first half returns whether the thread is to
    wait, and the new value of [*tick]. *)
Definition rt_thread_delay_until_enter (thread : tid) (tick inc_tick : Z) : K (bool * Z) :=
  assert_type (OThread thread) RT_Object_Class_Thread;;
  interrupt_disable;;
  s ← get;
  if u32 (rt_tick_get s - tick) <? inc_tick then
    let tick' := u32 (rt_tick_get s - tick + inc_tick) in
    rt_thread_suspend thread;;
    rt_timer_control (ThreadTimer thread) RT_TIMER_CTRL_SET_TIME tick';;
    rt_timer_start (ThreadTimer thread);;
    interrupt_enable;;
    mret (true, tick')
  else
    interrupt_enable;;
    mret (false, tick).

(** The move to the defunct list or out of the object system, common to
    [rt_thread_exit] and [rt_thread_detach]. *)
Definition rt_thread_detach (thread : tid) : K Z :=
  assert_type (OThread thread) RT_Object_Class_Thread;;
  s ← get;
  assertM (rt_object_is_systemobject s (OThread thread));;
  when (negb (th_stat (threads s thread) =? RT_THREAD_INIT))
    (schedule_remove_thread thread);;
  rt_timer_detach (ThreadTimer thread);;
  thread_upd thread (set_stat RT_THREAD_CLOSE);;
  s ← get;
  (if rt_object_is_systemobject s (OThread thread) && (cleanup (threads s thread) =? 0) then
     rt_object_detach (OThread thread)
   else
     interrupt_disable;;
     list_insert_after Defunct thread;;
     interrupt_enable);;
  mret RT_EOK.

Definition rt_thread_delete (thread : tid) : K Z :=
  assert_type (OThread thread) RT_Object_Class_Thread;;
  s ← get;
  assertM (negb (rt_object_is_systemobject s (OThread thread)));;
  when (negb (th_stat (threads s thread) =? RT_THREAD_INIT))
    (schedule_remove_thread thread);;
  rt_timer_detach (ThreadTimer thread);;
  interrupt_disable;;
  thread_upd thread (set_stat RT_THREAD_CLOSE);;
  list_insert_after Defunct thread;;
  interrupt_enable;;
  mret RT_EOK.

(** [rt_thread_exit] up to [rt_schedule], inside its critical section. *)
Definition rt_thread_exit_enter (thread : tid) : K unit :=
  interrupt_disable;;
  schedule_remove_thread thread;;
  thread_upd thread (set_stat RT_THREAD_CLOSE);;
  rt_timer_detach (ThreadTimer thread);;
  s ← get;
  if rt_object_is_systemobject s (OThread thread) && (cleanup (threads s thread) =? 0) then
    rt_object_detach (OThread thread)
  else list_insert_after Defunct thread.

(** [RT_THREAD_CTRL_CHANGE_PRIORITY]; [1 << p] has no meaning for [p > 31]. *)
Definition put_priority (p : Z) (th : thread) : thread :=
  set_number_mask (u32 (Z.shiftl 1 p)) (set_current_priority p th).
Definition rt_thread_change_priority (thread : tid) (priority : Z) : K unit :=
  interrupt_disable;;
  s ← get;
  assertM (u8 priority <? 32);;
  (if th_stat (threads s thread) =? RT_THREAD_READY then
     schedule_remove_thread thread;;
     thread_upd thread (put_priority (u8 priority));;
     schedule_insert_thread thread
   else thread_upd thread (put_priority (u8 priority)));;
  interrupt_enable.

Definition rt_thread_bind_cpu (thread : tid) (arg : Z) : K Z :=
  s ← get;
  if negb (th_stat (threads s thread) =? RT_THREAD_INIT) then mret RT_ERROR
  else
    let cpu := u8 arg in
    thread_upd thread (set_bind_cpu (if RT_CPUS_NR <? cpu then RT_CPUS_NR else cpu));;
    mret RT_EOK.

(** [rt_thread_startup] up to the call of [rt_schedule]. *)
Definition rt_thread_startup_enter (thread : tid) : K unit :=
  s ← get;
  assertM (th_stat (threads s thread) =? RT_THREAD_INIT);;
  assert_type (OThread thread) RT_Object_Class_Thread;;
  thread_upd thread (fun th => set_current_priority (init_priority th) th);;
  thread_upd thread (fun th => set_number_mask (u32 (Z.shiftl 1 (current_priority th))) th);;
  thread_upd thread (set_stat RT_THREAD_SUSPEND);;
  rt_thread_resume thread;;
  mret tt.
End ops.

(** ** The whole operations, on CPU [me] *)
Section whole.
Context (me : Z).
Let Kn : Kernel := Smp me.
#[local] Existing Instance Kn.

Definition rt_thread_yield : K Z := rt_schedule me;; mret RT_EOK.

Definition rt_thread_sleep (tick : Z) : K (option Z) :=
  s ← get;
  thread ← ofopt (rt_thread_self me s);
  rt_thread_sleep_enter thread tick;;
  rt_schedule me;;
  then_resumed me thread (rt_thread_sleep_resumed thread).

Definition rt_thread_delay (tick : Z) : K (option Z) := rt_thread_sleep tick.

Definition rt_tick_from_millisecond (ms : Z) : Z :=
  if ms <? 0 then u32 RT_WAITING_FOREVER
  else
    let tick := u32 (RT_TICK_PER_SECOND * (ms / 1000)) in
    u32 (tick + (RT_TICK_PER_SECOND * (ms mod 1000) + 999) / 1000).

Definition rt_thread_mdelay (ms : Z) : K (option Z) :=
  rt_thread_sleep (rt_tick_from_millisecond ms).

(** The result is the status with the final value of [*tick]. *)
Definition rt_thread_delay_until (tick inc_tick : Z) : K (option (Z * Z)) :=
  s ← get;
  thread ← ofopt (rt_thread_self me s);
  '(wait, tick) ← rt_thread_delay_until_enter thread tick inc_tick;
  let finish (r : Z) : K (Z * Z) := s ← get; mret (RT_EOK, rt_tick_get s) in
  if (wait : bool) then
    rt_schedule me;;
    then_resumed me thread (r ← rt_thread_sleep_resumed thread; finish r)
  else r ← finish RT_EOK; mret (Some r).

Definition rt_thread_exit : K (option unit) :=
  s ← get;
  thread ← ofopt (rt_thread_self me s);
  rt_thread_exit_enter thread;;
  rt_schedule me;;
  then_resumed me thread interrupt_enable.

Definition rt_thread_timeout (thread : tid) : K unit :=
  rt_thread_timeout_wake thread;;
  rt_schedule me.

Definition rt_thread_startup (thread : tid) : K Z :=
  rt_thread_startup_enter thread;;
  s ← get;
  when (bool_decide (is_Some (rt_thread_self me s))) (rt_schedule me);;
  mret RT_EOK.

Definition rt_thread_control (thread : tid) (cmd arg : Z) : K Z :=
  assert_type (OThread thread) RT_Object_Class_Thread;;
  if cmd =? RT_THREAD_CTRL_CHANGE_PRIORITY then
    rt_thread_change_priority thread arg;; mret RT_EOK
  else if cmd =? RT_THREAD_CTRL_STARTUP then rt_thread_startup thread
  else if cmd =? RT_THREAD_CTRL_CLOSE then rt_thread_delete thread
  else if cmd =? RT_THREAD_CTRL_BIND_CPU then rt_thread_bind_cpu thread arg
  else mret RT_EOK.

(** [stack_start], [entry] and the initial stack frame are not modelled;
    [rt_list_init(&thread->tlist)] leaves a node that is in no list so. *)
Definition _rt_thread_init (thread : tid) (priority tick : Z) : K Z :=
  assertM (u8 priority <? RT_THREAD_PRIORITY_MAX);;
  thread_upd thread (fun th =>
    mkThread RT_THREAD_INIT RT_EOK RT_CPUS_NR RT_CPU_DETACHED (u8 priority) (u8 priority) 0
      (event_set th) (event_info th) (u32 tick) (u32 tick) 0);;
  nest_upd thread (fun _ => mkNest 0 0 0);;
  rt_timer_init me (ThreadTimer thread) (RtThreadTimeout thread) 0 RT_TIMER_FLAG_ONE_SHOT;;
  mret RT_EOK.

Definition rt_thread_init (thread : tid) (priority tick : Z) : K Z :=
  rt_object_init me (OThread thread) RT_Object_Class_Thread;;
  _rt_thread_init thread priority tick.

(** [mem] and [stack] are what the two allocations returned. *)
Definition rt_thread_create (mem : option tid) (stack : bool) (priority tick : Z)
  : K (option tid) :=
  o ← rt_object_allocate (OThread <$> mem) RT_Object_Class_Thread;
  match o, mem with
  | Some _, Some thread =>
      if stack then _rt_thread_init thread priority tick;; mret (Some thread)
      else rt_object_delete (OThread thread);; mret None
  | _, _ => mret None
  end.

Definition rt_thread_find (name_of : obj -> list Z) (name : list Z) : K (option obj) :=
  rt_enter_critical me;;
  information ← ofopt (rt_object_get_information RT_Object_Class_Thread);
  s ← get;
  let object := find_named (same_name name_of name) (containers s information) in
  rt_exit_critical me;;
  mret object.
End whole.

(** * Erasure *)
Section erase.
Context (me d : Z) (Hd : 0 <= d < 32760).

Lemma rt_thread_suspend_er t :
  erases me d d (rt_thread_suspend (Kn := Smp me) t) (rt_thread_suspend (Kn := Big me) t).
Proof using Hd. unfold rt_thread_suspend, assert_type. er. Qed.
Lemma rt_thread_resume_er t :
  erases me d d (rt_thread_resume (Kn := Smp me) t) (rt_thread_resume (Kn := Big me) t).
Proof using Hd. unfold rt_thread_resume, assert_type. er. Qed.
Lemma rt_thread_timeout_wake_er t :
  erases me d d (rt_thread_timeout_wake (Kn := Smp me) t)
    (rt_thread_timeout_wake (Kn := Big me) t).
Proof using Hd. unfold rt_thread_timeout_wake, assert_type. er. Qed.
Lemma rt_thread_detach_er t :
  erases me d d (rt_thread_detach (Kn := Smp me) t) (rt_thread_detach (Kn := Big me) t).
Proof using Hd. unfold rt_thread_detach, assert_type. er. Qed.
Lemma rt_thread_delete_er t :
  erases me d d (rt_thread_delete (Kn := Smp me) t) (rt_thread_delete (Kn := Big me) t).
Proof using Hd. unfold rt_thread_delete, assert_type. er. Qed.
Lemma rt_thread_exit_enter_er t :
  erases me d (d + 1) (rt_thread_exit_enter (Kn := Smp me) t)
    (rt_thread_exit_enter (Kn := Big me) t).
Proof using Hd. unfold rt_thread_exit_enter, assert_type. er. Qed.
Lemma rt_thread_change_priority_er t p :
  erases me d d (rt_thread_change_priority (Kn := Smp me) t p)
    (rt_thread_change_priority (Kn := Big me) t p).
Proof using Hd. unfold rt_thread_change_priority, assert_type. er. Qed.
End erase.
#[export] Hint Resolve rt_thread_suspend_er rt_thread_resume_er rt_thread_timeout_wake_er
  rt_thread_detach_er rt_thread_delete_er rt_thread_change_priority_er : er.

Section erase2.
Context (me d : Z) (Hd : 0 <= d < 32750).

Lemma rt_thread_sleep_enter_er t tick :
  erases me d d (rt_thread_sleep_enter (Kn := Smp me) t tick)
    (rt_thread_sleep_enter (Kn := Big me) t tick).
Proof using Hd. unfold rt_thread_sleep_enter, assert_type. er. Qed.
Lemma rt_thread_delay_until_enter_er t tick inc :
  erases me d d (rt_thread_delay_until_enter (Kn := Smp me) t tick inc)
    (rt_thread_delay_until_enter (Kn := Big me) t tick inc).
Proof using Hd. unfold rt_thread_delay_until_enter, assert_type. er. Qed.
Lemma rt_thread_startup_enter_er t :
  erases me d d (rt_thread_startup_enter (Kn := Smp me) t)
    (rt_thread_startup_enter (Kn := Big me) t).
Proof using Hd. unfold rt_thread_startup_enter, assert_type. er. Qed.
End erase2.
#[export] Hint Resolve rt_thread_sleep_enter_er rt_thread_delay_until_enter_er
  rt_thread_startup_enter_er : er.
