(* ===== verification/ThreadSpec.v ===== *)
(** What the thread operations do on the abstract kernel, and the kernel
    invariant they keep. *)
From S2P Require Import Prelude KService Timer KState KInv Sched Kernel KTimer Object Thread.

(** * The invariant *)

(** The timer embedded in a thread that is not closed is a timer object that
    wakes that thread. *)
Definition own_timer (s : kstate) (t : tid) : Prop :=
  rt_object_get_type s (OTimer (ThreadTimer t)) = RT_Object_Class_Timer /\
  rt_object_is_systemobject s (OTimer (ThreadTimer t)) = true /\
  timeout_func (timers (tm s) (ThreadTimer t)) = RtThreadTimeout t.

Record kinv (s : kstate) : Prop := {
  ki_wf : kwf s;
  ki_run : krun s;
  ki_tm : tm_wf (tm s);
  ki_own : forall t, is_thread s t -> th_stat (threads s t) <> RT_THREAD_CLOSE ->
    own_timer s t }.

Lemma kinv_keq s s' : keq s s' -> kinv s -> kinv s'.
Proof.
  intros E [H1 H2 H3 H4]. split.
  - by rewrite <-E.
  - by rewrite <-E.
  - by rewrite <-(keq_tm _ _ E).
  - intros t. rewrite <-(keq_threads _ _ E), <-(keq_is_thread _ _ t E).
    unfold own_timer, rt_object_get_type, rt_object_is_systemobject.
    rewrite <-(keq_otype _ _ E), <-(keq_tm _ _ E). apply H4.
Qed.
#[export] Instance kinv_proper : Proper (keq ==> iff) kinv.
Proof. intros s s' E. split; apply kinv_keq; [done|by symmetry]. Qed.

(** No thread comes into being or back to life. *)
Definition no_new (s s' : kstate) : Prop := forall t,
  is_thread s' t -> th_stat (threads s' t) <> RT_THREAD_CLOSE ->
  is_thread s t /\ th_stat (threads s t) <> RT_THREAD_CLOSE.

#[export] Instance no_new_preorder : PreOrder no_new.
Proof. split; [by intros s t ?|]. intros s1 s2 s3 H1 H2 t Ht Hs. by apply H1; apply H2. Qed.

Lemma no_new_upd s s' t th' :
  otype s' = otype s -> (forall x, threads s' x = upd (threads s) t th' x) ->
  (th_stat th' <> RT_THREAD_CLOSE -> th_stat (threads s t) <> RT_THREAD_CLOSE) ->
  no_new s s'.
Proof.
  intros Eo Et Hs x. unfold is_thread, rt_object_get_type. rewrite Eo, Et.
  intros Hx Hst. split; [done|]. destruct (decide (t = x)) as [<-|?].
  - rewrite upd_eq in Hst. auto.
  - by rewrite upd_ne in Hst by done.
Qed.

(** What is shown of the abstract run transfers to the SMP kernel. *)
Theorem lift me d d' A (m e : K A) (Q : A -> kstate -> Prop) s :
  0 <= me < RT_CPUS_NR -> erases me d d' m e -> lock_depth me d s -> parked_ok s ->
  wp e (fun a s' => Q a s' /\ no_new s s' /\
    forall c, rt_thread_self c s' = rt_thread_self c s) s ->
  wp m (fun a s' => exists s0, Q a s0 /\ keq s0 s' /\ lock_depth me d' s' /\ parked_ok s' /\
    forall c, rt_thread_self c s' = rt_thread_self c s) s.
Proof.
  intros Hme He Hd Hp Hw.
  eapply wp_mono; [eapply (wp_erase _ _ _ _ _ _ _ s s He); [by apply sim_refl|exact Hw]|].
  intros a s' (s0 & (HQ & Hnn & Hself) & Hs & Eself & En). exists s0.
  pose proof (sim_keq _ _ _ _ Hs) as E.
  split_and!; [done|done|by eapply sim_depth| |].
  - intros t Ht Hst Hn. rewrite <-E in Ht. rewrite <-(keq_threads _ _ E) in Hst.
    destruct (Hnn t Ht Hst) as [Ht0 Hst0].
    destruct Hs as (n & b & -> & Ha & _). cbn. rewrite (proj2 (Ha t)), En.
    + apply Hp; [done..|]. intros c Hc. rewrite <-Hself. by apply Hn.
    + by apply Hn.
  - intros c. by rewrite (keq_self _ _ c E).
Qed.

(** * The operations as functions *)
Section cores.
Context (me : Z).

Definition stop_thread_timer (t : tid) (s : kstate) : kstate :=
  set_tm (stop_core (ThreadTimer t) (tm s)) s.

Definition suspend_core (t : tid) (s : kstate) : kstate :=
  stop_thread_timer t
    (with_thread t (put_stat RT_THREAD_SUSPEND (threads s t)) (remove_core t s)).

Definition resume_core (t : tid) (s : kstate) : kstate :=
  insert_core me t (stop_thread_timer t (unlinked t s)).

Definition timeout_core (t : tid) (s : kstate) : kstate :=
  insert_core me t (unlinked t (with_thread t (set_error (- RT_ETIMEOUT) (threads s t)) s)).
End cores.

#[export] Instance resume_core_proper : Proper (eq ==> eq ==> keq ==> keq) resume_core.
Proof.
  intros me _ <- t _ <- s s' E. unfold resume_core. apply insert_core_proper; [done|done|].
  unfold stop_thread_timer. rewrite (keq_tm _ _ (keq_unlinked _ _ t E)).
  destruct (keq_unlinked _ _ t E). by split.
Qed.

Lemma big_timer_stop me t s :
  rt_object_get_type s (OTimer t) = RT_Object_Class_Timer -> exists r,
  rt_timer_stop (Kn := Big me) t s = Some (r, set_tm (stop_core t (tm s)) s).
Proof.
  intros Ht. unfold rt_timer_stop, assert_type, stop_core, assertM, mbind, M_bind, get.
  rewrite Ht. cbn.
  destruct (tm_has _ _) eqn:E; eexists; [reflexivity|]. by destruct s.
Qed.

Lemma bind_ok_run t s :
  0 <= bind_cpu (threads s t) <= RT_CPUS_NR -> bind_ok t s = Some (tt, s).
Proof.
  intros [H1 H2]. unfold bind_ok, assertM, mbind, M_bind, get.
  apply Z.leb_le in H1, H2. by rewrite H1, H2.
Qed.

Lemma wp_big_remove me t Q s :
  0 <= bind_cpu (threads s t) <= RT_CPUS_NR -> Q tt (remove_core t s) ->
  wp (schedule_remove_thread (Kernel := Big me) t) Q s.
Proof. intros Hb HQ. unfold wp. cbn. unfold mbind, M_bind. by rewrite bind_ok_run. Qed.

Lemma wp_big_insert me t Q s :
  0 <= bind_cpu (threads s t) <= RT_CPUS_NR -> Q tt (insert_core me t s) ->
  wp (schedule_insert_thread (Kernel := Big me) t) Q s.
Proof. intros Hb HQ. unfold wp. cbn. unfold mbind, M_bind. by rewrite bind_ok_run. Qed.

Lemma wp_assert_type o c (Q : unit -> kstate -> Prop) s :
  rt_object_get_type s o = c -> Q tt s -> wp (assert_type o c) Q s.
Proof.
  intros Ht HQ. unfold assert_type. wp_steps; [by rewrite Ht, Z.eqb_refl|done].
Qed.

(** Case analysis on the status of a thread. *)
Lemma schedulable_prio s t : kwf s -> is_thread s t ->
  (th_stat (threads s t) = RT_THREAD_READY \/ th_stat (threads s t) = RT_THREAD_RUNNING \/
   th_stat (threads s t) = RT_THREAD_SUSPEND) -> prio_ok (threads s t).
Proof. intros Hk Ht Hs. apply (kw_prio _ Hk t Ht). unfold schedulable. tauto. Qed.

Section specs.
Context (me : Z) (s : kstate) (t : tid) (Hi : kinv s) (Ht : is_thread s t).
Let st : Z := th_stat (threads s t).

(** A change of thread [t] that leaves it where it runs, or does not run. *)
Lemma kinv_thread s' th' :
  kwf s' -> tm_wf (tm s') -> otype s' = otype s ->
  (forall c, rt_thread_self c s' = rt_thread_self c s) ->
  (forall x, threads s' x = upd (threads s) t th' x) ->
  oncpu th' = oncpu (threads s t) ->
  (th_stat th' = RT_THREAD_RUNNING -> oncpu th' <> RT_CPU_DETACHED) ->
  (th_stat th' <> RT_THREAD_CLOSE -> st <> RT_THREAD_CLOSE) ->
  (forall x, timeout_func (timers (tm s') x) = timeout_func (timers (tm s) x)) ->
  kinv s'.
Proof using Hi Ht.
  intros Hk Hw Eo Es Et Eon Hrun Hcl Etf.
  assert (It : forall x, is_thread s' x <-> is_thread s x).
  { intros x. unfold is_thread, rt_object_get_type. by rewrite Eo. }
  assert (Hoth : forall x, x <> t -> threads s' x = threads s x).
  { intros x Hx. by rewrite Et, upd_ne. }
  assert (Hself : threads s' t = th') by by rewrite Et, upd_eq.
  destruct (ki_run _ Hi) as [R1 R2 R3]. split; [done| |done|].
  - split.
    + intros c x Hc. rewrite Es, It. intros Hx. destruct (R1 c x Hc Hx) as [Ho Hor].
      destruct (decide (x = t)) as [->|?]; [|by rewrite Hoth].
      rewrite Hself, Eon. auto.
    + intros x. rewrite It. intros Hx. destruct (decide (x = t)) as [->|?].
      * rewrite Hself, Eon, Es. by apply R2.
      * rewrite Hoth, Es by done. by apply R2.
    + intros x. rewrite It. intros Hx. destruct (decide (x = t)) as [->|?].
      * rewrite Hself. apply Hrun.
      * rewrite Hoth by done. by apply R3.
  - intros x. rewrite It. intros Hx Hs. unfold own_timer, rt_object_get_type, rt_object_is_systemobject.
    rewrite Eo, Etf. apply (ki_own _ Hi x Hx).
    destruct (decide (x = t)) as [->|?]; [rewrite Hself in Hs; auto|by rewrite Hoth in Hs].
Qed.

Lemma stop_core_func x y :
  timeout_func (timers (stop_core x (tm s)) y) = timeout_func (timers (tm s) y).
Proof using.
  destruct (decide (y = x)) as [->|?]; [apply stop_core_self|by rewrite stop_core_other].
Qed.

Lemma suspend_core_fields :
  otype (suspend_core t s) = otype s /\
  (forall c, rt_thread_self c (suspend_core t s) = rt_thread_self c s) /\
  (forall h, lists (suspend_core t s) h = remove_elt t (lists s h)) /\
  threads (suspend_core t s) = upd (threads s) t (put_stat RT_THREAD_SUSPEND (threads s t)) /\
  tm (suspend_core t s) = stop_core (ThreadTimer t) (tm s).
Proof using.
  unfold suspend_core, stop_thread_timer. split_and!; cbn.
  - apply remove_core_otype.
  - apply remove_core_frame.
  - apply remove_core_lists.
  - by rewrite remove_core_threads.
  - by rewrite remove_core_tm.
Qed.

Lemma suspend_core_ok :
  st = RT_THREAD_READY \/ st = RT_THREAD_RUNNING ->
  kinv (suspend_core t s) /\ unlinked_in (suspend_core t s) t /\
  ThreadTimer t ∉ timer_list (tm (suspend_core t s)) /\ no_new s (suspend_core t s).
Proof using Hi Ht.
  intros Hst. destruct suspend_core_fields as (Eo & Es & El & Et & Em).
  pose proof (ki_wf _ Hi) as Hk.
  assert (Hp : prio_ok (threads s t)).
  { apply schedulable_prio; [done..|]. unfold st in Hst. tauto. }
  assert (Hps : th_stat (put_stat RT_THREAD_SUSPEND (threads s t)) = RT_THREAD_SUSPEND).
  { apply th_stat_put. unfold RT_THREAD_SUSPEND. lia. }
  assert (Hw : tm_wf (stop_core (ThreadTimer t) (tm s))) by apply stop_core_wf, Hi.
  split_and!.
  - apply (kinv_thread _ (put_stat RT_THREAD_SUSPEND (threads s t))); try done.
    + assert (K : kwf (with_thread t (put_stat RT_THREAD_SUSPEND (threads s t))
                        (remove_core t s))).
      { destruct Hp as (P1 & P2 & P3). apply kwf_remove; try done.
        - by rewrite Hps.
        - by left. }
      apply (kwf_ext _ _ K); try done. intros x.
      change (tm (suspend_core t s)) with
        (stop_core (ThreadTimer t) (tm (remove_core t s))).
      rewrite remove_core_tm, stop_core_list by apply Hi. cbn. rewrite remove_core_tm.
      rewrite elem_of_remove_elt. naive_solver.
    + by rewrite Em.
    + intros x. by rewrite Et.
    + by rewrite Hps.
    + intros _. destruct Hst as [-> | ->]; done.
    + intros x. rewrite Em. apply stop_core_func.
  - intros h. rewrite El, elem_of_remove_elt. naive_solver.
  - rewrite Em, stop_core_list, elem_of_remove_elt by apply Hi. naive_solver.
  - apply (no_new_upd s _ t (put_stat RT_THREAD_SUSPEND (threads s t))); [done|by rewrite Et|].
    intros _. fold st. destruct Hst as [-> | ->]; done.
Qed.

Lemma wp_suspend Q :
  (st = RT_THREAD_READY \/ st = RT_THREAD_RUNNING /\ rt_thread_self me s = Some t) ->
  Q RT_EOK (suspend_core t s) -> wp (rt_thread_suspend (Kn := Big me) t) Q s.
Proof using Hi Ht.
  intros Hst HQ. unfold rt_thread_suspend. cbn [interrupt_disable interrupt_enable Big cpu_id].
  pose proof (ki_wf _ Hi) as Hk.
  assert (Hp : prio_ok (threads s t)).
  { apply schedulable_prio; [done..|]. unfold st in Hst. tauto. }
  apply wp_bind, wp_assert_type; [done|]. wp_steps. fold st.
  assert (negb (st =? RT_THREAD_READY) && negb (st =? RT_THREAD_RUNNING) = false) as ->.
  { destruct Hst as [-> | [-> _]]; done. }
  wp_steps. eapply wp_mono with (P := fun _ s' => s' = s).
  { unfold when. destruct (Z.eqb_spec st RT_THREAD_RUNNING) as [E|E]; wp_steps; [|done..].
    apply bool_decide_true. destruct Hst as [Hst|[_ ?]]; [by rewrite Hst in E|done]. }
  intros [] ? ->. apply wp_bind, wp_big_remove; [apply Hp|]. wp_steps.
  destruct (big_timer_stop me (ThreadTimer t) (with_thread t
    (put_stat RT_THREAD_SUSPEND (threads (remove_core t s) t)) (remove_core t s))) as [r Er].
  { unfold rt_object_get_type. cbn. rewrite remove_core_otype. apply (ki_own _ Hi t Ht).
    fold st. destruct Hst as [-> | [-> _]]; done. }
  unfold wp at 1. rewrite Er. wp_steps. by rewrite remove_core_threads.
Qed.

Lemma wp_suspend_error Q :
  st <> RT_THREAD_READY -> st <> RT_THREAD_RUNNING ->
  Q (- RT_ERROR) s -> wp (rt_thread_suspend (Kn := Big me) t) Q s.
Proof using Ht.
  intros H1 H2 HQ. unfold rt_thread_suspend. apply wp_bind, wp_assert_type; [done|].
  wp_steps. fold st. apply Z.eqb_neq in H1, H2. rewrite H1, H2. cbn. by wp_steps.
Qed.
End specs.

(** ** Linking a suspended thread *)
Definition wake_stat (th : thread) : Z :=
  if negb (oncpu th =? RT_CPU_DETACHED) then RT_THREAD_RUNNING else RT_THREAD_READY.

Lemma insert_core_fields me t s :
  otype (insert_core me t s) = otype s /\ tm (insert_core me t s) = tm s /\
  (forall c, rt_thread_self c (insert_core me t s) = rt_thread_self c s) /\
  threads (insert_core me t s) =
    upd (threads s) t (put_stat (wake_stat (threads s t)) (threads s t)) /\
  (forall h, lists (insert_core me t s) h = lists s h ++
    (if decide (h = ready_head (threads s t) /\ oncpu (threads s t) = RT_CPU_DETACHED)
     then [t] else [])).
Proof.
  assert (Es : forall c, rt_thread_self c (insert_core me t s) = rt_thread_self c s)
    by apply insert_core_frame.
  assert (Hl : forall h (f : lhead -> list tid) h0,
    upd f h0 (f h0 ++ [t]) h = f h ++ (if decide (h = h0) then [t] else [])).
  { intros h f h0. unfold upd. repeat case_decide; subst; try done. by rewrite app_nil_r. }
  unfold insert_core, wake_stat, with_thread in *.
  destruct (Z.eqb_spec (oncpu (threads s t)) RT_CPU_DETACHED) as [E|E]; cbn [negb] in *.
  - repeat case_match; (split_and!; [done..|]); intros h; cbn; rewrite Hl;
      repeat case_decide; naive_solver.
  - split_and!; try done. intros h. rewrite decide_False by naive_solver. by rewrite app_nil_r.
Qed.

Lemma wake_stat_put th : th_stat (put_stat (wake_stat th) th) = wake_stat th.
Proof. apply th_stat_put. unfold wake_stat. by case_match. Qed.

Section wake.
Context (me : Z) (s : kstate) (t : tid) (Hi : kinv s) (Ht : is_thread s t).
Context (Hst : th_stat (threads s t) = RT_THREAD_SUSPEND).

Lemma unlinked_ok : kinv (unlinked t s) /\ unlinked_in (unlinked t s) t.
Proof using Hi Ht Hst.
  pose proof (ki_wf _ Hi) as Hk.
  assert (Eq : forall x, threads (unlinked t s) x = upd (threads s) t (threads s t) x).
  { intros x. cbn. unfold upd. case_decide; by subst. }
  split.
  - apply (kinv_thread s t Hi Ht _ (threads s t)); try done.
    + apply (kwf_ext (with_thread t (threads s t) (unlinked t s))); try done.
      apply kwf_unlink_quiet; [done| |by rewrite Hst..].
      intros _ _. apply (kw_prio _ Hk t Ht). unfold schedulable. tauto.
    + apply Hi.
    + by rewrite Hst.
  - intros h. cbn. rewrite elem_of_remove_elt. naive_solver.
Qed.

Lemma insert_core_ok :
  unlinked_in s t -> ThreadTimer t ∉ timer_list (tm s) ->
  kinv (insert_core me t s) /\ no_new s (insert_core me t s).
Proof using Hi Ht Hst.
  intros Hu Htm. pose proof (ki_wf _ Hi) as Hk.
  destruct (insert_core_fields me t s) as (Eo & Em & Es & Et & El).
  assert (Hp : prio_ok (threads s t)) by (apply schedulable_prio; tauto).
  split.
  - apply (kinv_thread s t Hi Ht _ (put_stat (wake_stat (threads s t)) (threads s t)));
      try done.
    + destruct (decide (oncpu (threads s t) = RT_CPU_DETACHED)) as [E|E];
        [by apply insert_core_kwf|].
      assert (Ew : wake_stat (threads s t) = RT_THREAD_RUNNING).
      { unfold wake_stat. apply Z.eqb_neq in E. by rewrite E. }
      assert (K : kwf (with_thread t (put_stat RT_THREAD_RUNNING (threads s t))
                         (unlinked t s))).
      { apply kwf_unlink_quiet; try done.
        - rewrite th_stat_put; [done|]. unfold RT_THREAD_RUNNING. lia.
        - by rewrite Hst. }
      apply (kwf_ext _ _ K).
      * intros h. rewrite El, decide_False by naive_solver. rewrite app_nil_r. cbn.
        symmetry. by apply remove_elt_notin.
      * intros x. rewrite Et, Ew. done.
      * done.
      * unfold insert_core. apply Z.eqb_neq in E. by rewrite E.
      * intros c. unfold insert_core. apply Z.eqb_neq in E. by rewrite E.
      * intros x. by rewrite Em.
    + rewrite Em. apply Hi.
    + intros x. by rewrite Et.
    + rewrite wake_stat_put. unfold wake_stat. cbn.
      destruct (Z.eqb_spec (oncpu (threads s t)) RT_CPU_DETACHED); done.
    + by rewrite Hst.
    + by rewrite Em.
  - apply (no_new_upd s _ t (put_stat (wake_stat (threads s t)) (threads s t)));
      [done|by rewrite Et|]. by rewrite Hst.
Qed.

Lemma stop_timer_ok :
  kinv (stop_thread_timer t s) /\ ThreadTimer t ∉ timer_list (tm (stop_thread_timer t s)).
Proof using Hi Ht Hst.
  split.
  - apply (kinv_thread s t Hi Ht _ (threads s t)); try done; try (by rewrite Hst).
    + apply (kwf_ext s); try done; [apply Hi|]. intros x. cbn.
      rewrite stop_core_list by apply Hi. rewrite elem_of_remove_elt. naive_solver.
    + cbn. apply stop_core_wf, Hi.
    + intros x. cbn. unfold upd. case_decide; by subst.
    + intros x. cbn. apply stop_core_func.
  - cbn. rewrite stop_core_list, elem_of_remove_elt by apply Hi. naive_solver.
Qed.
End wake.

Section resume.
Context (me : Z) (s : kstate) (t : tid) (Hi : kinv s) (Ht : is_thread s t).
Context (Hst : th_stat (threads s t) = RT_THREAD_SUSPEND).

Lemma resume_core_ok :
  kinv (resume_core me t s) /\ no_new s (resume_core me t s).
Proof using Hi Ht Hst.
  destruct (unlinked_ok s t Hi Ht Hst) as [Hi1 Hu].
  destruct (stop_timer_ok (unlinked t s) t Hi1 Ht Hst) as [Hi2 Hn].
  by apply insert_core_ok.
Qed.

Lemma resume_core_fields :
  otype (resume_core me t s) = otype s /\
  (forall c, rt_thread_self c (resume_core me t s) = rt_thread_self c s) /\
  threads (resume_core me t s) =
    upd (threads s) t (put_stat (wake_stat (threads s t)) (threads s t)) /\
  (forall h, lists (resume_core me t s) h = remove_elt t (lists s h) ++
    (if decide (h = ready_head (threads s t) /\ oncpu (threads s t) = RT_CPU_DETACHED)
     then [t] else [])) /\
  tm (resume_core me t s) = stop_core (ThreadTimer t) (tm s).
Proof using.
  unfold resume_core.
  destruct (insert_core_fields me t (stop_thread_timer t (unlinked t s)))
    as (E1 & E2 & E3 & E4 & E5). done.
Qed.

Lemma wp_resume Q :
  Q RT_EOK (resume_core me t s) -> wp (rt_thread_resume (Kn := Big me) t) Q s.
Proof using Hi Ht Hst.
  intros HQ. unfold rt_thread_resume. cbn [interrupt_disable interrupt_enable Big].
  apply wp_bind, wp_assert_type; [done|]. wp_steps. rewrite Hst. cbn [negb Z.eqb Pos.eqb RT_THREAD_SUSPEND].
  wp_steps. destruct (big_timer_stop me (ThreadTimer t) (unlinked t s)) as [r Er].
  { apply (ki_own _ Hi t Ht). by rewrite Hst. }
  unfold wp at 1. rewrite Er. wp_steps. apply wp_big_insert; [|by wp_steps].
  apply (kw_prio _ (ki_wf _ Hi) t Ht). unfold schedulable. tauto.
Qed.

Lemma wp_resume_error Q :
  is_thread s t -> th_stat (threads s t) <> RT_THREAD_SUSPEND ->
  Q (- RT_ERROR) s -> wp (rt_thread_resume (Kn := Big me) t) Q s.
Proof using.
  clear. intros Ht H1 HQ. unfold rt_thread_resume. apply wp_bind, wp_assert_type; [done|].
  wp_steps. apply Z.eqb_neq in H1. rewrite H1. cbn. by wp_steps.
Qed.

Lemma wp_timeout_wake (Q : unit -> kstate -> Prop) :
  Q tt (timeout_core me t s) -> wp (rt_thread_timeout_wake (Kn := Big me) t) Q s.
Proof using Hi Ht Hst.
  intros HQ. unfold rt_thread_timeout_wake. wp_steps; [by rewrite Hst|].
  apply wp_bind, wp_assert_type; [done|]. wp_steps. apply wp_big_insert; [|done].
  cbn. rewrite upd_eq. cbn.
  apply (kw_prio _ (ki_wf _ Hi) t Ht). unfold schedulable. tauto.
Qed.

Lemma timeout_core_ok :
  ThreadTimer t ∉ timer_list (tm s) ->
  kinv (timeout_core me t s) /\ no_new s (timeout_core me t s).
Proof using Hi Ht Hst.
  intros Hn. set (th := set_error (- RT_ETIMEOUT) (threads s t)).
  set (s1 := with_thread t th s).
  assert (Hs1 : threads s1 t = th) by (cbn; by rewrite upd_eq).
  assert (Hst1 : th_stat (threads s1 t) = RT_THREAD_SUSPEND) by by rewrite Hs1.
  assert (Hi1 : kinv s1).
  { apply (kinv_thread s t Hi Ht _ th); try done; try (by rewrite Hst); [|apply Hi|].
    - apply (kwf_touch s _ t th); try done. apply Hi.
    - change (th_stat th) with (th_stat (threads s t)). by rewrite Hst. }
  destruct (unlinked_ok s1 t Hi1 Ht Hst1) as [Hi2 Hu].
  destruct (insert_core_ok me (unlinked t s1) t Hi2 Ht) as [Hi3 Hn3]; [exact Hst1|done|done|].
  split; [done|]. etrans; [|exact Hn3].
  apply (no_new_upd s _ t th); try done.
Qed.
End resume.

(** ** Sleeping *)
Lemma wp_big_timer_start me t s (Q : Z -> kstate -> Prop) :
  rt_object_get_type s (OTimer t) = RT_Object_Class_Timer ->
  wp (timer_start (rt_tick_get s) t) (fun r ts => Q r (set_tm ts s)) (tm s) ->
  wp (rt_timer_start (Kn := Big me) t) Q s.
Proof.
  intros Ht HQ. unfold rt_timer_start. apply wp_bind, wp_assert_type; [done|].
  cbn [interrupt_disable interrupt_enable Big]. revert HQ.
  unfold wp, timer_start, timer_link, timer_unlink, _rt_timer_remove, timer_list_upd,
    timer_upd, on_tm, modify, mbind, M_bind, get. cbn.
  by destruct (_ <? _).
Qed.

Lemma kwf_tm s ts :
  kwf s ->
  (forall x, ThreadTimer x ∈ timer_list ts -> ThreadTimer x ∈ timer_list (tm s) \/
     is_thread s x /\ th_stat (threads s x) = RT_THREAD_SUSPEND) ->
  kwf (set_tm ts s).
Proof.
  intros [H1 H2 H3 H4 H5 H6 H7 H8] Ht. split; try done.
  intros x Hx. destruct (Ht x Hx) as [?|?]; [by apply H8|done].
Qed.

Lemma kinv_tm s ts :
  kinv s -> tm_wf ts ->
  (forall x, timeout_func (timers ts x) = timeout_func (timers (tm s) x)) ->
  (forall x, ThreadTimer x ∈ timer_list ts -> ThreadTimer x ∈ timer_list (tm s) \/
     is_thread s x /\ th_stat (threads s x) = RT_THREAD_SUSPEND) ->
  kinv (set_tm ts s).
Proof.
  intros [H1 H2 H3 H4] Hw Hf Ht. split; [by apply kwf_tm| |done|].
  - destruct H2. by split.
  - intros x Hx Hs. unfold own_timer. cbn. rewrite Hf. by apply H4.
Qed.

(** The thread [t] was suspended and its timer set to expire at [deadline]. *)
Record asleep (me : Z) (t : tid) (deadline : Z) (s s' : kstate) : Prop := {
  as_kinv : kinv s';
  as_new : no_new s s';
  as_otype : otype s' = otype s;
  as_self : forall c, rt_thread_self c s' = rt_thread_self c s;
  as_nests : nests s' = nests s;
  as_threads : threads s' = upd (threads s) t (put_stat RT_THREAD_SUSPEND (threads s t));
  as_lists : forall h, lists s' h = remove_elt t (lists s h);
  as_cpu : forall c, irq_nest (cpus s' c) = irq_nest (cpus s c) /\ tick (cpus s' c) = tick (cpus s c);
  as_timer : ThreadTimer t ∈ timer_list (tm s');
  as_deadline : timeout_tick (timers (tm s') (ThreadTimer t)) = deadline;
  as_others : forall x, x <> ThreadTimer t ->
    timers (tm s') x = timers (tm s) x /\
    (x ∈ timer_list (tm s') <-> x ∈ timer_list (tm s)) }.

Lemma remove_core_cpu t s c :
  irq_nest (cpus (remove_core t s) c) = irq_nest (cpus s c) /\
  tick (cpus (remove_core t s) c) = tick (cpus s c).
Proof.
  unfold remove_core. repeat case_match; cbn; try done; unfold upd; case_decide; by subst.
Qed.

Lemma insert_core_cpu me t s c :
  irq_nest (cpus (insert_core me t s) c) = irq_nest (cpus s c) /\
  tick (cpus (insert_core me t s) c) = tick (cpus s c).
Proof.
  unfold insert_core. repeat case_match; cbn; try done; unfold upd; case_decide; by subst.
Qed.
Lemma timeout_core_cpu me t s c :
  irq_nest (cpus (timeout_core me t s) c) = irq_nest (cpus s c) /\
  tick (cpus (timeout_core me t s) c) = tick (cpus s c).
Proof.
  apply (insert_core_cpu me t (unlinked t (with_thread t (set_error (- RT_ETIMEOUT) (threads s t)) s))).
Qed.

(** Arming the timer of a suspended thread: nothing but the timers changes. *)
Record armed_at (t : tid) (deadline : Z) (s s' : kstate) : Prop := {
  aa_state : s' = set_tm (tm s') s;
  aa_kinv : kinv s';
  aa_timer : ThreadTimer t ∈ timer_list (tm s');
  aa_deadline : timeout_tick (timers (tm s') (ThreadTimer t)) = deadline;
  aa_others : forall x, x <> ThreadTimer t ->
    timers (tm s') x = timers (tm s) x /\
    (x ∈ timer_list (tm s') <-> x ∈ timer_list (tm s)) }.

Section arm_timer.
Context (me : Z) (s : kstate) (t : tid) (Hi : kinv s) (Ht : is_thread s t).
Context (Hst : th_stat (threads s t) = RT_THREAD_SUSPEND).
Context (Htl : ThreadTimer t ∉ timer_list (tm s)).

Lemma wp_arm_timer arg (Q : Z -> kstate -> Prop) :
  0 <= arg < RT_TICK_MAX / 2 ->
  (forall s', armed_at t (u32 (rt_tick_get s + arg)) s s' -> Q RT_EOK s') ->
  wp (rt_timer_control (ThreadTimer t) RT_TIMER_CTRL_SET_TIME arg;;
      rt_timer_start (Kn := Big me) (ThreadTimer t)) Q s.
Proof using All.
  intros Harg HQ.
  assert (Hown : own_timer s t) by (apply (ki_own _ Hi t Ht); by rewrite Hst).
  assert (Eu : u32 arg = arg).
  { apply u32_small. unfold RT_TICK_MAX in Harg. change (0xffffffff / 2) with 2147483647 in Harg.
    lia. }
  unfold rt_timer_control. apply wp_bind. apply wp_bind, wp_assert_type; [apply Hown|].
  unfold wp, on_tm, timer_control, mbind, M_bind, get at 1. cbn.
  match goal with |- match ?m with _ => _ end =>
    match m with rt_timer_start ?x ?s1 => change (wp (rt_timer_start (Kn := Big me) x) Q s1) end end.
  apply wp_big_timer_start; [apply Hown|]. cbn [tm set_tm].
  apply wp_timer_start.
  { cbn. rewrite upd_eq. cbn. rewrite Eu. lia. }
  intros ts' Hl Hts. apply HQ. clear HQ.
  change (rt_tick_get (set_tm _ s)) with (rt_tick_get s) in *.
  set (ts1 := mkT _ _) in *. set (x := ThreadTimer t) in *.
  assert (Hw1 : tm_wf ts1).
  { destruct (ki_tm _ Hi) as [Hd Ha]. split; [done|]. intros y Hy. cbn in Hy |- *.
    destruct (decide (x = y)) as [<-|?]; [done|]. rewrite upd_ne by done. by apply Ha. }
  pose proof (armed_linked_wf (rt_tick_get s) x ts1 Hw1) as Hw2.
  assert (Hin : forall y, y ∈ timer_list ts' <-> y = x \/ y ∈ timer_list (tm s)).
  { intros y. rewrite Hl. cbn. rewrite elem_of_timer_insert. cbn.
    rewrite remove_elt_notin by done. done. }
  assert (Hoth : forall y, y <> x -> timers ts' y = timers (tm s) y).
  { intros y Hy. rewrite Hts. cbn. by rewrite !upd_ne by done. }
  assert (Hx : timers ts' x = raise_flag RT_TIMER_FLAG_ACTIVATED (set_timeout_tick
    (u32 (rt_tick_get s + arg)) (clear_flag RT_TIMER_FLAG_ACTIVATED
      (set_tm_init_tick arg (timers (tm s) x))))).
  { rewrite Hts. cbn. rewrite !upd_eq. cbn. by rewrite Eu. }
  split; try done.
  - change (kinv (set_tm ts' s)). apply kinv_tm; try done.
    + split; [rewrite Hl; apply Hw2|]. intros y. rewrite Hl, Hts. apply Hw2.
    + intros y. destruct (decide (y = x)) as [->|?]; [by rewrite Hx|by rewrite Hoth].
    + intros y. rewrite Hin. intros [[= ->]|?]; [by right|by left].
  - cbn. apply Hin. by left.
  - cbn. fold x. by rewrite Hx.
  - intros y Hy. cbn. rewrite Hoth, Hin by done. naive_solver.
Qed.
End arm_timer.

(** Arming the timer of a thread just suspended. *)
Section arm.
Context (me : Z) (s : kstate) (t : tid) (Hi : kinv s) (Ht : is_thread s t).
Context (Hst : th_stat (threads s t) = RT_THREAD_READY \/
  th_stat (threads s t) = RT_THREAD_RUNNING).

Lemma wp_arm arg (Q : Z -> kstate -> Prop) :
  0 <= arg < RT_TICK_MAX / 2 ->
  (forall s', asleep me t (u32 (rt_tick_get s + arg)) s s' -> Q RT_EOK s') ->
  wp (rt_timer_control (ThreadTimer t) RT_TIMER_CTRL_SET_TIME arg;;
      rt_timer_start (Kn := Big me) (ThreadTimer t)) Q (suspend_core t s).
Proof using All.
  intros Harg HQ. destruct (suspend_core_fields s t) as (Eo & Es & El & Et & Em).
  destruct (suspend_core_ok s t Hi Ht Hst) as (Hi1 & Hu1 & Hn1 & Hnn1).
  assert (Ec : forall c, irq_nest (cpus (suspend_core t s) c) = irq_nest (cpus s c) /\
    tick (cpus (suspend_core t s) c) = tick (cpus s c)) by (intros c; apply remove_core_cpu).
  assert (En : nests (suspend_core t s) = nests s) by apply (remove_core_frame t s).
  set (sc := suspend_core t s) in *. clearbody sc.
  assert (Etick : rt_tick_get sc = rt_tick_get s) by apply (Ec 0).
  apply wp_arm_timer; try done.
  - unfold is_thread, rt_object_get_type. by rewrite Eo.
  - rewrite Et, upd_eq, th_stat_put; unfold RT_THREAD_SUSPEND; done || lia.
  - rewrite Etick. intros s' [Ea Hk' Hin Hdl Hoth]. apply HQ. set (ts := tm s') in *. clearbody ts.
    subst s'. split; try done. cbn [tm set_tm]. intros y Hy. destruct (Hoth y Hy) as [-> ->].
    rewrite Em, stop_core_other by done. split; [done|].
    rewrite stop_core_list, elem_of_remove_elt by apply Hi. naive_solver.
Qed.

(** The same, in front of the code that follows. *)
Lemma wp_arm_then B (k : K B) arg Q :
  0 <= arg < RT_TICK_MAX / 2 ->
  (forall s', asleep me t (u32 (rt_tick_get s + arg)) s s' -> wp k Q s') ->
  wp (rt_timer_control (ThreadTimer t) RT_TIMER_CTRL_SET_TIME arg;;
      rt_timer_start (Kn := Big me) (ThreadTimer t);; k) Q (suspend_core t s).
Proof using All.
  intros Harg HQ. apply wp_bind.
  eapply wp_mono; [eapply wp_bind_inv; apply (wp_arm arg (fun _ s' => wp k Q s')); auto|].
  intros a s' H. cbn in H. by apply wp_bind.
Qed.
End arm.

(** ** Closing a thread *)

(** A thread that is in no list and not started can be made, or unmade: its
    structure and its object header change. *)
Lemma kwf_remake s s' t :
  kwf s -> unlinked_in s t -> ~ schedulable (threads s' t) ->
  ThreadTimer t ∉ timer_list (tm s) ->
  (forall h, lists s' h = lists s h) -> (forall x, x <> t -> threads s' x = threads s x) ->
  (forall x, x <> t -> is_thread s' x <-> is_thread s x) ->
  timer_list (tm s') = timer_list (tm s) ->
  ready_group s' = ready_group s -> (forall c, cpus s' c = cpus s c) -> kwf s'.
Proof.
  intros [H1 H2 H3 H4 H5 H6 H7 H8] Hu Hs Htm El Et Ei Em Eg Ec. split.
  - intros h. rewrite El. apply H1.
  - intros h h' x. rewrite !El. apply H2.
  - intros h x. rewrite El. intros Hx. assert (Hxt : x <> t) by (intros ->; by apply (Hu h)).
    rewrite Ei, Et by done. by apply H3.
  - intros x. rewrite El. destruct (decide (x = t)) as [->|Hx].
    + intros _ H. destruct Hs. by left.
    + rewrite Ei, Et by done. apply H4.
  - intros x. destruct (decide (x = t)) as [->|Hx]; [by intros _ ?%Hs|].
    rewrite Ei, Et by done. apply H5.
  - rewrite Eg. eapply bitmap_ok_proper; [reflexivity| |exact H6]. intros p. apply El.
  - intros c Hc. rewrite Ec. eapply bitmap_ok_proper; [reflexivity| |exact (H7 c Hc)].
    intros p. apply El.
  - intros x. rewrite Em. intros Hx. assert (Hxt : x <> t) by (intros ->; by apply Htm).
    rewrite Ei, Et by done. by apply H8.
Qed.

Lemma closed_not_schedulable th : th_stat th = RT_THREAD_CLOSE -> ~ schedulable th.
Proof. unfold schedulable. intros ->. by intros [?|[?|?]]. Qed.

(** An object header that stops being, or never was, that of a live thread. *)
Lemma kwf_retype s s' t :
  kwf s -> unlinked_in s t -> th_stat (threads s t) = RT_THREAD_CLOSE ->
  ThreadTimer t ∉ timer_list (tm s) ->
  (forall h, lists s' h = lists s h) -> (forall x, threads s' x = threads s x) ->
  (forall x, x <> t -> is_thread s' x <-> is_thread s x) -> tm s' = tm s ->
  ready_group s' = ready_group s -> (forall c, cpus s' c = cpus s c) -> kwf s'.
Proof.
  intros Hk Hu Hs Htm El Et Ei Em. apply (kwf_remake s s' t); try done; [|by rewrite Em].
  rewrite Et. by apply closed_not_schedulable.
Qed.

Definition timer_gone (t : tid) (s : kstate) : kstate :=
  set_containers (fun c => remove_elt (OTimer (ThreadTimer t)) (containers s c))
    (set_otype (upd (otype s) (OTimer (ThreadTimer t)) 0)
      (set_tm (mkT (timers (tm s)) (remove_elt (ThreadTimer t) (timer_list (tm s)))) s)).

(** The thread [t] off the queues, without its timer, and marked closed. *)
Definition closed_core (t : tid) (s : kstate) : kstate :=
  timer_gone t (with_thread t (set_stat RT_THREAD_CLOSE (threads s t)) (remove_core t s)).

(** An object out of the object system. *)
Definition object_gone (o : obj) (s : kstate) : kstate :=
  set_containers (fun c => remove_elt o (containers s c))
    (set_otype (upd (otype s) o 0) s).

(** Its last place: out of the object system, or on the defunct list. *)
Definition bury_core (t : tid) (s : kstate) : kstate :=
  if rt_object_is_systemobject s (OThread t) && (cleanup (threads s t) =? 0) then
    object_gone (OThread t) s
  else with_list Defunct (t :: lists s Defunct) s.

Lemma remove_core_set_tm t ts s : remove_core t (set_tm ts s) = set_tm ts (remove_core t s).
Proof. unfold remove_core. cbn. by repeat case_match. Qed.

Section close.
Context (me : Z) (s : kstate) (t : tid) (Hi : kinv s) (Ht : is_thread s t).
Context (Hsch : schedulable (threads s t)).

Lemma closed_stat : th_stat (set_stat RT_THREAD_CLOSE (threads s t)) = RT_THREAD_CLOSE.
Proof using. done. Qed.

Lemma closed_core_ok :
  kinv (closed_core t s) /\ unlinked_in (closed_core t s) t /\ is_thread (closed_core t s) t /\
  ThreadTimer t ∉ timer_list (tm (closed_core t s)) /\
  threads (closed_core t s) = upd (threads s) t (set_stat RT_THREAD_CLOSE (threads s t)) /\
  (forall c, rt_thread_self c (closed_core t s) = rt_thread_self c s) /\
  no_new s (closed_core t s).
Proof using Hi Ht Hsch.
  pose proof (ki_wf _ Hi) as Hk. destruct (kw_prio _ Hk t Ht Hsch) as (P1 & P2 & P3).
  set (s1 := with_thread t (set_stat RT_THREAD_CLOSE (threads s t)) (remove_core t s)).
  assert (Eth : threads (closed_core t s) =
    upd (threads s) t (set_stat RT_THREAD_CLOSE (threads s t))).
  { cbn. by rewrite remove_core_threads. }
  assert (Hu : unlinked_in (closed_core t s) t).
  { intros h. cbn. rewrite remove_core_lists, elem_of_remove_elt. naive_solver. }
  assert (Htl : ThreadTimer t ∉ timer_list (tm (closed_core t s))).
  { cbn. rewrite elem_of_remove_elt. naive_solver. }
  assert (Ei : forall x, is_thread (closed_core t s) x <-> is_thread s x).
  { intros x. unfold is_thread, rt_object_get_type. cbn. rewrite upd_ne by done.
    by rewrite remove_core_otype. }
  assert (Es : forall c, rt_thread_self c (closed_core t s) = rt_thread_self c s).
  { intros c. apply (remove_core_frame t s). }
  assert (Hk' : kwf (closed_core t s)).
  { set (ts := mkT (timers (tm s)) (remove_elt (ThreadTimer t) (timer_list (tm s)))).
    assert (K0 : kwf (set_tm ts s)).
    { apply kwf_tm; [done|]. intros x [_ Hx]%elem_of_remove_elt. by left. }
    assert (K1 : kwf (with_thread t (set_stat RT_THREAD_CLOSE (threads s t))
                        (remove_core t (set_tm ts s)))).
    { apply kwf_remove; try done; cbn.
      - rewrite elem_of_remove_elt. naive_solver.
      - by left. }
    rewrite remove_core_set_tm in K1. apply (kwf_retype _ _ t K1); try done.
    - cbn. by rewrite upd_eq.
    - cbn. rewrite ?elem_of_remove_elt. unfold is_thread, rt_object_get_type. cbn. naive_solver.
    - cbn. by rewrite remove_core_tm. }
  split_and!; [|done|by apply Ei|done|done|done|].
  - split; [done| | |].
    + destruct (ki_run _ Hi) as [R1 R2 R3]. split.
      * intros c x Hc. rewrite Es, Ei, Eth. intros Hx. destruct (R1 c x Hc Hx) as [Ho Hor].
        destruct (decide (x = t)) as [->|?]; [rewrite upd_eq|rewrite upd_ne by done]; auto.
      * intros x. rewrite Ei, Eth. intros Hx. destruct (decide (x = t)) as [->|?].
        -- rewrite upd_eq. cbn [oncpu set_stat]. rewrite Es. by apply R2.
        -- rewrite upd_ne, Es by done. by apply R2.
      * intros x. rewrite Ei, Eth. intros Hx. destruct (decide (x = t)) as [->|?];
          [by rewrite upd_eq|rewrite upd_ne by done; by apply R3].
    + apply (tm_wf_remove (ThreadTimer t) (tm s)); [apply Hi| |]; cbn.
      * by rewrite remove_core_tm.
      * intros x _. by rewrite remove_core_tm.
    + intros x. rewrite Ei, Eth. intros Hx Hs. destruct (decide (x = t)) as [->|?];
        [by rewrite upd_eq in Hs|]. rewrite upd_ne in Hs by done.
      destruct (ki_own _ Hi x Hx Hs) as (O1 & O2 & O3).
      unfold own_timer, rt_object_get_type, rt_object_is_systemobject. cbn. rewrite upd_ne by congruence.
      rewrite remove_core_otype, remove_core_tm. done.
  - intros x. rewrite Ei, Eth. intros Hx Hs. split; [done|].
    destruct (decide (x = t)) as [->|?]; [by rewrite upd_eq in Hs|by rewrite upd_ne in Hs].
Qed.

(** A closed thread that is in no list leaves the object system. *)
Lemma object_gone_ok s1 :
  kinv s1 -> unlinked_in s1 t -> th_stat (threads s1 t) = RT_THREAD_CLOSE ->
  ThreadTimer t ∉ timer_list (tm s1) ->
  kinv (object_gone (OThread t) s1) /\ no_new s1 (object_gone (OThread t) s1) /\
  (forall x, is_thread (object_gone (OThread t) s1) x <-> x <> t /\ is_thread s1 x).
Proof using.
  clear Hi Ht Hsch s. intros Hi1 Hu Hst Htl. pose proof (ki_wf _ Hi1) as Hk.
  set (s2 := object_gone (OThread t) s1).
  assert (Ei : forall x, x <> t -> is_thread s2 x <-> is_thread s1 x).
  { intros x Hx. unfold is_thread, rt_object_get_type. cbn. by rewrite upd_ne by congruence. }
  assert (Hnt : ~ is_thread s2 t).
  { unfold is_thread, rt_object_get_type. cbn. by rewrite upd_eq. }
  split_and!.
  - split; [by apply (kwf_retype s1 s2 t)| |apply Hi1|].
    + destruct (ki_run _ Hi1) as [R1 R2 R3]. split.
      * intros c x Hc Hx. destruct (R1 c x Hc Hx) as [Ho Hor]. split; [done|].
        destruct (decide (x = t)) as [->|?]; [by right|]. by rewrite Ei.
      * intros x Hx. destruct (decide (x = t)) as [->|?]; [done|].
        apply R2. by apply Ei.
      * intros x Hx. destruct (decide (x = t)) as [->|?]; [done|].
        apply R3. by apply Ei.
    + intros x Hx Hs. destruct (decide (x = t)) as [->|Hne]; [done|].
      apply Ei in Hx; [|done]. destruct (ki_own _ Hi1 x Hx Hs) as (O1 & O2 & O3).
      unfold own_timer, rt_object_get_type, rt_object_is_systemobject. cbn. by rewrite upd_ne.
  - intros x Hx Hs. destruct (decide (x = t)) as [->|Hne]; [done|]. by rewrite <-Ei.
  - intros x. destruct (decide (x = t)) as [->|Hne]; [naive_solver|]. rewrite Ei by done.
    naive_solver.
Qed.

(** A closed thread that is in no list goes to the front of the defunct list. *)
Lemma defunct_link_ok s1 :
  kinv s1 -> unlinked_in s1 t -> is_thread s1 t -> th_stat (threads s1 t) = RT_THREAD_CLOSE ->
  kinv (with_list Defunct (t :: lists s1 Defunct) s1).
Proof using.
  clear Hi Ht Hsch s. intros Hi1 Hu Hth Hst. pose proof (ki_wf _ Hi1) as Hk.
  assert (Et : forall x, threads (with_list Defunct (t :: lists s1 Defunct) s1) x =
    upd (threads s1) t (threads s1 t) x).
  { intros x. cbn. unfold upd. case_decide; by subst. }
  apply (kinv_thread s1 t Hi1 Hth _ (threads s1 t)); try done; [|apply Hi1|by rewrite Hst].
  apply (kwf_link s1 _ t (threads s1 t) Defunct [] (lists s1 Defunct)); try done.
  - unfold schedulable. rewrite Hst. by intros [?|[?|?]].
  - intros H. destruct (kw_timer _ Hk t H) as [_ H1]. by rewrite Hst in H1.
  - intros x Hx. cbn. by rewrite upd_ne.
Qed.

Lemma bury_core_ok s1 :
  kinv s1 -> unlinked_in s1 t -> is_thread s1 t ->
  th_stat (threads s1 t) = RT_THREAD_CLOSE -> ThreadTimer t ∉ timer_list (tm s1) ->
  kinv (bury_core t s1) /\ no_new s1 (bury_core t s1) /\
  (is_thread (bury_core t s1) t -> lists (bury_core t s1) Defunct = t :: lists s1 Defunct) /\
  (forall c, rt_thread_self c (bury_core t s1) = rt_thread_self c s1) /\
  threads (bury_core t s1) = threads s1.
Proof using.
  clear Hi Ht Hsch s. intros Hi1 Hu Hth Hst Htl. pose proof (ki_wf _ Hi1) as Hk. unfold bury_core.
  destruct (rt_object_is_systemobject s1 (OThread t) && _).
  - destruct (object_gone_ok s1 Hi1 Hu Hst Htl) as (H1 & H2 & H3).
    split_and!; try done. by intros [? _]%H3.
  - split_and!; try done. by apply defunct_link_ok.
Qed.
End close.

Lemma wp_big_timer_detach me t s (Q : Z -> kstate -> Prop) :
  own_timer s t -> Q RT_EOK (timer_gone t s) ->
  wp (rt_timer_detach (Kn := Big me) (ThreadTimer t)) Q s.
Proof.
  intros (O1 & O2 & _) HQ. unfold rt_timer_detach. cbn [interrupt_disable interrupt_enable Big].
  apply wp_bind, wp_assert_type; [done|]. wp_steps; [done|]. exact HQ.
Qed.

Section close_ops.
Context (me : Z) (s : kstate) (t : tid) (Hi : kinv s) (Ht : is_thread s t).
Context (Hsch : schedulable (threads s t)).

Lemma closing_own s1 :
  otype s1 = otype s -> tm s1 = tm s -> own_timer s1 t.
Proof using Hi Ht Hsch.
  intros Eo Em. unfold own_timer, rt_object_get_type, rt_object_is_systemobject.
  rewrite Eo, Em. apply (ki_own _ Hi t Ht). destruct Hsch as [-> |[-> | ->]]; done.
Qed.

Lemma wp_exit_enter (Q : unit -> kstate -> Prop) :
  Q tt (bury_core t (closed_core t s)) ->
  wp (rt_thread_exit_enter (Kn := Big me) t) Q s.
Proof using Hi Ht Hsch.
  intros HQ. unfold rt_thread_exit_enter. cbn [interrupt_disable interrupt_enable Big].
  wp_steps. apply wp_big_remove; [by apply (kw_prio _ (ki_wf _ Hi) t Ht)|]. wp_steps.
  apply wp_big_timer_detach.
  { apply closing_own; cbn; [apply remove_core_otype|apply remove_core_tm]. }
  rewrite remove_core_threads. fold (closed_core t s). wp_steps.
  revert HQ. unfold bury_core, object_gone. case_match; intros HQ; wp_steps; done.
Qed.

(** [rt_thread_detach] of a started static thread. *)
Lemma wp_detach (Q : Z -> kstate -> Prop) :
  rt_object_is_systemobject s (OThread t) = true ->
  Q RT_EOK (bury_core t (closed_core t s)) ->
  wp (rt_thread_detach (Kn := Big me) t) Q s.
Proof using Hi Ht Hsch.
  intros Hsys HQ. unfold rt_thread_detach. cbn [interrupt_disable interrupt_enable Big].
  apply wp_bind, wp_assert_type; [done|]. wp_steps; [done|].
  assert (negb (th_stat (threads s t) =? RT_THREAD_INIT) = true) as ->
    by (destruct Hsch as [-> |[-> | ->]]; done).
  wp_steps. apply wp_big_remove; [by apply (kw_prio _ (ki_wf _ Hi) t Ht)|]. wp_steps.
  apply wp_big_timer_detach.
  { apply closing_own; [apply remove_core_otype|apply remove_core_tm]. }
  wp_steps. change (threads (timer_gone t (remove_core t s))) with (threads (remove_core t s)).
  rewrite remove_core_threads.
  match goal with |- wp _ _ ?x => change x with (closed_core t s) end.
  revert HQ. unfold bury_core, object_gone. case_match; intros HQ; wp_steps; done.
Qed.
End close_ops.

(** ** Changing the priority *)
Lemma put_stat_put a b th : 0 <= b < 8 -> put_stat a (put_stat b th) = put_stat a th.
Proof.
  intros Hb. unfold put_stat, RT_THREAD_STAT_MASK. cbn [stat set_stat]. unfold set_stat. cbn.
  f_equal. f_equal. rewrite Z.land_lor_distr_l, <-Z.land_assoc, Z.land_diag.
  assert (Z.land b (Z.lnot 7) = 0) as ->; [|by rewrite Z.lor_0_l].
  rewrite <-(Z.mod_small b (2 ^ 3)) by (change (2 ^ 3) with 8; lia).
  rewrite <-Z.land_ones by lia. change (Z.ones 3) with 7.
  by rewrite <-Z.land_assoc, Z.land_lnot_diag, Z.land_0_r.
Qed.

(** A thread outside the ready lists may change priority in place. *)
Lemma kwf_reprio s t th :
  kwf s -> is_thread s t -> th_stat (threads s t) <> RT_THREAD_READY ->
  th_stat th = th_stat (threads s t) -> prio_ok th -> kwf (with_thread t th s).
Proof.
  intros [H1 H2 H3 H4 H5 H6 H7 H8] Ht Hn Hs Hp. split; try done; cbn; unfold upd.
  - intros h x Hx. destruct (H3 h x Hx) as [? Hl]. split; [done|].
    case_decide; [subst x|done]. destruct h; cbn in *; rewrite Hs; by destruct Hl || done.
  - intros x Hx. case_decide; [subst x; by rewrite Hs|by apply H4].
  - intros x Hx. case_decide; [done|by apply H5].
  - intros x Hx. destruct (H8 x Hx). case_decide; [subst x; by rewrite Hs|done].
Qed.

Section priority.
Context (me : Z) (s : kstate) (t : tid) (p : Z) (Hi : kinv s) (Ht : is_thread s t).
Context (Hp : 0 <= p < 32) (Hst : th_stat (threads s t) <> RT_THREAD_CLOSE).

Lemma put_priority_eq th :
  put_priority p th = set_number_mask (2 ^ p) (set_current_priority p th).
Proof using Hp.
  unfold put_priority. rewrite Z.shiftl_1_l, u32_small; [done|]. split; [by apply Z.pow_nonneg|].
  change 4294967296 with (2 ^ 32). apply Z.pow_lt_mono_r; lia.
Qed.

Definition change_core : kstate :=
  if th_stat (threads s t) =? RT_THREAD_READY then
    insert_core me t (with_thread t (put_priority p (threads s t)) (remove_core t s))
  else with_thread t (put_priority p (threads s t)) s.

Lemma change_core_ok : 0 <= bind_cpu (threads s t) <= RT_CPUS_NR ->
  kinv change_core /\ no_new s change_core /\
  threads change_core t =
    (if th_stat (threads s t) =? RT_THREAD_READY
     then put_stat RT_THREAD_READY (put_priority p (threads s t))
     else put_priority p (threads s t)).
Proof using Hi Ht Hp Hst.
  intros Hb. pose proof (ki_wf _ Hi) as Hk. unfold change_core. rewrite put_priority_eq.
  set (th := set_number_mask (2 ^ p) (set_current_priority p (threads s t))).
  assert (Hpr : prio_ok th) by (split_and!; cbn; unfold RT_THREAD_PRIORITY_MAX; lia || done).
  destruct (Z.eqb_spec (th_stat (threads s t)) RT_THREAD_READY) as [E|E].
  - set (s1 := with_thread t th (remove_core t s)).
    assert (Ho : oncpu (threads s t) = RT_CPU_DETACHED) by by apply (ready_oncpu s t Hk Ht).
    destruct (kw_prio _ Hk t Ht) as (P1 & P2 & P3); [by left|].
    assert (Hs1 : threads s1 t = th) by (cbn; by rewrite upd_eq).
    assert (Htl : ThreadTimer t ∉ timer_list (tm s)).
    { intros Hin. destruct (kw_timer _ Hk t Hin) as [_ F]. by rewrite E in F. }
    set (s2 := with_thread t (put_stat RT_THREAD_SUSPEND th) (remove_core t s)).
    assert (Hs2 : threads s2 t = put_stat RT_THREAD_SUSPEND th) by (cbn; by rewrite upd_eq).
    assert (Hsus : th_stat (put_stat RT_THREAD_SUSPEND th) = RT_THREAD_SUSPEND)
      by (apply th_stat_put; unfold RT_THREAD_SUSPEND; lia).
    assert (K2 : kwf (insert_core me t s2)).
    { apply insert_core_kwf.
      - apply kwf_remove; try done; [by rewrite Hsus|by left].
      - unfold is_thread, rt_object_get_type. cbn. by rewrite remove_core_otype.
      - intros h. cbn. rewrite remove_core_lists, elem_of_remove_elt. naive_solver.
      - by rewrite Hs2.
      - by rewrite Hs2.
      - cbn. by rewrite remove_core_tm. }
    destruct (insert_core_fields me t s1) as (Eo & Em & Es & Et & El).
    destruct (insert_core_fields me t s2) as (_ & Em2 & _ & Et2 & El2).
    assert (Ew : wake_stat (threads s1 t) = RT_THREAD_READY)
      by (rewrite Hs1; unfold wake_stat; cbn; by rewrite Ho).
    assert (Ew2 : wake_stat (threads s2 t) = RT_THREAD_READY)
      by (rewrite Hs2; unfold wake_stat; cbn; by rewrite Ho).
    assert (Hth : forall x, threads (insert_core me t s1) x =
      upd (threads s) t (put_stat RT_THREAD_READY th) x).
    { intros x. rewrite Et, Ew, Hs1. cbn. rewrite remove_core_threads. unfold upd.
      by repeat case_decide. }
    assert (K1 : kwf (insert_core me t s1)).
    { apply (kwf_ext _ _ K2).
      - intros h. rewrite El, El2, Hs1, Hs2. done.
      - intros x. rewrite Hth, Et2, Ew2, Hs2, put_stat_put by done. cbn. rewrite remove_core_threads.
        unfold upd. by repeat case_decide.
      - rewrite Eo. by destruct (insert_core_fields me t s2) as (-> & _).
      - unfold insert_core. rewrite Hs1, Hs2. cbn. rewrite Ho. cbn.
        by destruct (bind_cpu (threads s t) =? RT_CPUS_NR).
      - intros c. unfold insert_core. rewrite Hs1, Hs2. cbn. rewrite Ho. cbn.
        by destruct (bind_cpu (threads s t) =? RT_CPUS_NR).
      - intros x. by rewrite Em, Em2. }
    split_and!.
    + apply (kinv_thread s t Hi Ht _ (put_stat RT_THREAD_READY th)); try done.
      * rewrite Em. cbn. rewrite remove_core_tm. apply Hi.
      * rewrite Eo. cbn. apply remove_core_otype.
      * intros c. rewrite Es. apply (remove_core_frame t s).
      * rewrite th_stat_put; [done|]. unfold RT_THREAD_READY. lia.
      * intros x. rewrite Em. cbn. by rewrite remove_core_tm.
    + apply (no_new_upd s _ t (put_stat RT_THREAD_READY th)); [|done|by rewrite E].
      rewrite Eo. cbn. apply remove_core_otype.
    + by rewrite Hth, upd_eq.
  - assert (K : kwf (with_thread t th s)).
    { apply (kwf_reprio s t th Hk Ht E); done. }
    split_and!; [| |cbn; by rewrite upd_eq].
    + apply (kinv_thread s t Hi Ht _ th); try done; [apply Hi|].
      intros Hr. by apply (kr_running _ (ki_run _ Hi) t Ht).
    + by apply (no_new_upd s _ t th).
Qed.
End priority.

Lemma wp_change_priority me s t arg (Q : unit -> kstate -> Prop) :
  0 <= bind_cpu (threads s t) <= RT_CPUS_NR -> u8 arg < 32 ->
  Q tt (change_core me s t (u8 arg)) ->
  wp (rt_thread_change_priority (Kn := Big me) t arg) Q s.
Proof.
  intros Hb Hp HQ. unfold rt_thread_change_priority.
  cbn [interrupt_disable interrupt_enable Big]. wp_steps; [by apply Z.ltb_lt|].
  revert HQ. unfold change_core. destruct (th_stat (threads s t) =? RT_THREAD_READY); intros HQ;
    wp_steps; [|done].
  apply wp_big_remove; [done|]. wp_steps. rewrite remove_core_threads.
  apply wp_big_insert; [cbn; by rewrite upd_eq|]. by wp_steps.
Qed.

(** ** Starting a thread *)
Record fresh (s : kstate) (t : tid) : Prop := {
  fr_thread : is_thread s t;
  fr_stat : th_stat (threads s t) = RT_THREAD_INIT;
  fr_prio : 0 <= init_priority (threads s t) < RT_THREAD_PRIORITY_MAX;
  fr_bind : 0 <= bind_cpu (threads s t) <= RT_CPUS_NR;
  fr_oncpu : oncpu (threads s t) = RT_CPU_DETACHED;
  fr_unlinked : unlinked_in s t;
  fr_timer : ThreadTimer t ∉ timer_list (tm s) }.

Definition started (th : thread) : thread :=
  set_stat RT_THREAD_SUSPEND (set_number_mask (2 ^ init_priority th)
    (set_current_priority (init_priority th) th)).

Section startup.
Context (me : Z) (s : kstate) (t : tid) (Hi : kinv s) (Hf : fresh s t).

Lemma started_ok :
  kinv (with_thread t (started (threads s t)) s) /\
  no_new s (with_thread t (started (threads s t)) s).
Proof using Hi Hf.
  destruct Hf as [Ht Hst Hp Hb Ho Hu Htm]. pose proof (ki_wf _ Hi) as Hk.
  set (th := started (threads s t)).
  assert (Hpr : prio_ok th) by done.
  split.
  - apply (kinv_thread s t Hi Ht _ th); try done; [|apply Hi|by rewrite Hst].
    assert (K : kwf (with_thread t th (unlinked t s))).
    { apply kwf_unlink_quiet; try done. by rewrite Hst. }
    apply (kwf_ext _ _ K); try done. intros h. cbn. by rewrite remove_elt_notin.
  - apply (no_new_upd s _ t th); try done. by rewrite Hst.
Qed.

Lemma wp_startup_enter (Q : unit -> kstate -> Prop) :
  (forall s', keq (resume_core me t (with_thread t (started (threads s t)) s)) s' -> Q tt s') ->
  wp (rt_thread_startup_enter (Kn := Big me) t) Q s.
Proof using Hi Hf.
  intros HQ. destruct started_ok as [Hi1 _]. destruct (id Hf) as [Ht Hst Hp Hb Ho Hu Htm].
  unfold rt_thread_startup_enter. wp_steps; [by rewrite Hst|].
  apply wp_bind, wp_assert_type; [done|]. wp_steps.
  match goal with |- wp _ _ ?x => set (s1 := x) end.
  assert (E1 : keq (with_thread t (started (threads s t)) s) s1).
  { split; try done. intros x. cbn. unfold upd. repeat case_decide; try done.
    unfold started. rewrite Z.shiftl_1_l, u32_small; [done|].
    unfold RT_THREAD_PRIORITY_MAX in Hp. cbn. split; [by apply Z.pow_nonneg|].
    change 4294967296 with (2 ^ 32). apply Z.pow_lt_mono_r; lia. }
  assert (Hs1 : th_stat (threads s1 t) = RT_THREAD_SUSPEND).
  { rewrite <-(keq_threads _ _ E1). cbn. by rewrite upd_eq. }
  apply wp_resume; [by rewrite <-E1|by rewrite <-E1|done|]. wp_steps. apply HQ.
  by rewrite E1.
Qed.
End startup.

(** ** Giving up the CPU *)
Lemma switch_core_kinv me cur to p s :
  kinv s -> 0 <= me < RT_CPUS_NR -> rt_thread_self me s = Some cur ->
  is_thread s to -> th_stat (threads s to) = RT_THREAD_READY ->
  kinv (switch_core me cur to p s).
Proof.
  intros [Hk Hr Hw Ho] Hme Hcur Ht Hst.
  destruct (switch_core_ok me cur to p s) as (K & R & _ & Est & _); try done.
  destruct (run_core_fields me to p (release_core me cur s)) as (Eo & Em & _ & Et & Eoth).
  rewrite release_core_otype in Eo. rewrite release_core_tm in Em.
  split; [done|done| |].
  - unfold switch_core. by rewrite Em.
  - intros x Hx Hs. unfold switch_core, is_thread, own_timer, rt_object_get_type,
      rt_object_is_systemobject in *. rewrite Eo in Hx. rewrite Eo, Em.
    apply (Ho x Hx). destruct (decide (x = to)) as [->|Hxt]; [by rewrite Hst|].
    rewrite Eoth in Hs by done. destruct (decide (x = cur)) as [->|Hxc].
    + destruct (release_core_cur me cur s) as [_ Ec]. rewrite Ec in Hs.
      destruct (Z.eqb_spec (th_stat (threads s cur)) RT_THREAD_RUNNING) as [E|E]; [by rewrite E|done].
    + by rewrite release_core_other in Hs.
Qed.

Lemma sched_outcome_kinv me cur s s' :
  kinv s -> 0 <= me < RT_CPUS_NR -> rt_thread_self me s = Some cur ->
  sched_outcome me cur s s' -> kinv s'.
Proof.
  intros Hi Hme Hcur [[_ E]|(to & p & Hb & [[_ E]|[_ E]])]; rewrite <-E; [done..|].
  apply switch_core_kinv; try done; apply Hb.
Qed.

Lemma schedule_effect_kinv me cur s s' :
  kinv s -> 0 <= me < RT_CPUS_NR -> rt_thread_self me s = Some cur ->
  schedule_effect me cur s s' -> kinv s'.
Proof.
  intros Hi Hme Hcur. unfold schedule_effect.
  case_match; [|case_match; [intros E; by rewrite <-E|by apply sched_outcome_kinv]].
  intros E. rewrite <-E. destruct Hi as [Hk Hr Hw Ho].
  destruct (with_cpu_quiet me (set_irq_switch_flag 1 (cpus s me)) s) as (K & R & _); [done..|].
  split; auto.
Qed.

Lemma kinv_with_cpu me x s :
  current_thread x = current_thread (cpus s me) ->
  priority_group x = priority_group (cpus s me) -> kinv s -> kinv (with_cpu me x s).
Proof.
  intros Ec Ep [Hk Hr Hw Ho]. destruct (with_cpu_quiet me x s Ec Ep) as (K & R & _).
  split; auto.
Qed.

(** A thread in a state to run code: on CPU [me], outside interrupts,
    critical sections and the CPU lock. *)
Record in_thread (me : Z) (cur : tid) (s : kstate) : Prop := {
  it_me : 0 <= me < RT_CPUS_NR;
  it_self : rt_thread_self me s = Some cur;
  it_depth : lock_depth me 0 s;
  it_parked : parked_ok s;
  it_irq : irq_nest (cpus s me) = 0;
  it_crit : critical_lock_nest (nests s cur) = 0 }.

Definition same_irq (s s' : kstate) : Prop := forall c,
  irq_nest (cpus s' c) = irq_nest (cpus s c) /\ tick (cpus s' c) = tick (cpus s c).

(** The best ready thread took over the CPU from [cur]. *)
Definition switched (me : Z) (cur : tid) (s s' : kstate) : Prop :=
  exists to p, best me s to p /\ to <> cur /\ keq (switch_core me cur to p s) s' /\
    rt_thread_self me s' = Some to.

(** A thread that is not running any more calls [rt_schedule]: it is switched
    for the best ready thread. *)
Lemma give_way_schedule d me cur s0 s :
  0 <= me < RT_CPUS_NR -> rt_thread_self me s = Some cur ->
  lock_depth me d s -> 0 <= d < 32766 ->
  (d = 0 \/ th_stat (threads s0 cur) = RT_THREAD_CLOSE) -> parked_ok s ->
  irq_nest (cpus s me) = 0 -> critical_lock_nest (nests s cur) = 0 ->
  kinv s0 -> keq s0 s ->
  th_stat (threads s0 cur) <> RT_THREAD_RUNNING -> ~ none_ready me s0 ->
  wp (rt_schedule me) (fun _ s' =>
    kinv s' /\ lock_depth me 0 s' /\ parked_ok s' /\ switched me cur s0 s') s.
Proof.
  intros Hme Hcur Hd Hd0 Hdc Hp Hirq Hcr Hi E Hst Hn.
  assert (Hi1 : kinv s) by by rewrite <-E.
  destruct (id Hi1) as [Hk Hr _ _].
  eapply wp_mono; [apply (rt_schedule_spec me cur s Hk Hr Hme Hcur d); try done;
    by rewrite <-(keq_threads _ _ E)|].
  intros [] s' (P & O & D).
  assert (Hi' : kinv s') by by eapply sched_outcome_kinv.
  assert (Hn1 : ~ none_ready me s).
  { unfold none_ready. by rewrite <-(keq_group _ _ E), <-(keq_cpus _ _ E). }
  destruct O as [[? _]|(to & p & Hb & [[[Hrun _] _]|[_ E']])]; [done| |].
  { by rewrite <-(keq_threads _ _ E) in Hrun. }
  assert (Hto : to <> cur).
  { intros ->. apply (current_not_ready me cur s Hk Hr Hme Hcur), Hb. }
  destruct (switch_core_ok me cur to p s Hk Hr Hme Hcur) as (_ & _ & Es & _);
    [apply Hb..|]. rewrite <-(keq_self _ _ me E') in Es.
  split_and!; try done; [destruct D as [?|[F _]]; [done|congruence]|].
  exists to, p. split_and!; [|done| |done].
  - destruct Hb as [H1 H2 H3 H4 H5 H6 H7 H8]. assert (E2 : keq s s0) by by symmetry.
    split; try done; rewrite ?(keq_threads _ _ E), ?(keq_lists _ _ E); try done.
    + by rewrite E.
    + intros x (q & Hq & Hx). rewrite (keq_threads _ _ E). apply H8. exists q.
      by rewrite <-!(keq_lists _ _ E).
  - rewrite <-E'. unfold switch_core. apply run_core_proper; [done..|].
    unfold release_core. rewrite (keq_threads _ _ E cur).
    case_match; by rewrite E.
Qed.

(** The rest of its code is left for later. *)
Lemma give_way_at d A me cur s0 s (k : K A) :
  0 <= me < RT_CPUS_NR -> rt_thread_self me s = Some cur ->
  lock_depth me d s -> 0 <= d < 32766 ->
  (d = 0 \/ th_stat (threads s0 cur) = RT_THREAD_CLOSE) -> parked_ok s ->
  irq_nest (cpus s me) = 0 -> critical_lock_nest (nests s cur) = 0 ->
  kinv s0 -> keq s0 s ->
  th_stat (threads s0 cur) <> RT_THREAD_RUNNING -> ~ none_ready me s0 ->
  wp (rt_schedule me;; then_resumed me cur k) (fun r s' =>
    r = None /\ kinv s' /\ lock_depth me 0 s' /\ parked_ok s' /\ switched me cur s0 s') s.
Proof.
  intros. apply wp_bind. eapply wp_mono; [by apply (give_way_schedule d me cur s0)|].
  intros [] s' (Hi' & D & P & Hsw). destruct (id Hsw) as (to & p & _ & Hto & _ & Es).
  unfold then_resumed. wp_steps. rewrite Es, decide_False by congruence. by wp_steps.
Qed.

Lemma give_way A me cur s0 s (k : K A) :
  in_thread me cur s -> kinv s0 -> keq s0 s ->
  th_stat (threads s0 cur) <> RT_THREAD_RUNNING -> ~ none_ready me s0 ->
  wp (rt_schedule me;; then_resumed me cur k) (fun r s' =>
    r = None /\ kinv s' /\ lock_depth me 0 s' /\ parked_ok s' /\ switched me cur s0 s') s.
Proof. intros [] Hi E Hst Hn. apply (give_way_at 0); auto; lia. Qed.

(** ** Readiness in terms of the lists *)
Lemma none_ready_iff me s : kwf s -> 0 <= me < RT_CPUS_NR ->
  none_ready me s <-> forall t, ~ eligible me s t.
Proof.
  intros Hk Hme. split.
  - intros [Hg Hc] t (p & Hp & [Hin|Hin]).
    + rewrite (bitmap_zero _ _ (kw_group _ Hk) Hg p Hp) in Hin. by apply not_elem_of_nil in Hin.
    + rewrite (bitmap_zero _ _ (kw_cgroup _ Hk me Hme) Hc p Hp) in Hin.
      by apply not_elem_of_nil in Hin.
  - intros Hn. assert (Hz : forall g q, bitmap_ok g q -> (forall p, 0 <= p < 32 -> q p = []) -> g = 0).
    { intros g q [Hr Hb] Hq. destruct (decide (g = 0)) as [|Hg]; [done|].
      destruct (highest_of_group_spec g q) as (Hp & Hne & _); [by split|done|].
      by rewrite Hq in Hne. }
    assert (Hnil : forall l : list tid, (forall t, t ∉ l) -> l = []).
    { intros [|x l] Hl; [done|]. destruct (Hl x). by left. }
    split.
    + apply (Hz _ _ (kw_group _ Hk)). intros p Hp. apply Hnil. intros t Ht.
      apply (Hn t). exists p. auto.
    + apply (Hz _ _ (kw_cgroup _ Hk me Hme)). intros p Hp. apply Hnil. intros t Ht.
      apply (Hn t). exists p. auto.
Qed.

Lemma asleep_eligible me t d s s' : kinv s -> asleep me t d s s' ->
  th_stat (threads s t) = RT_THREAD_RUNNING -> forall x, eligible me s' x <-> eligible me s x.
Proof.
  intros Hi Ha Hst x. unfold eligible.
  assert (El : forall h, lists s' h = lists s h).
  { intros h. rewrite (as_lists _ _ _ _ _ Ha). apply remove_elt_notin.
    by apply running_unlinked; [apply Hi|]. }
  by setoid_rewrite El.
Qed.

(** What a switch from a thread that does not run any more leaves alone. *)
Lemma switched_fields me cur s s' :
  th_stat (threads s cur) <> RT_THREAD_RUNNING -> switched me cur s s' ->
  tm s' = tm s /\ th_stat (threads s' cur) = th_stat (threads s cur) /\
  error (threads s' cur) = error (threads s cur) /\
  (forall h x, x ∈ lists s' h -> x ∈ lists s h) /\
  exists now, rt_thread_self me s' = Some now /\ now <> cur /\
    forall t, eligible me s t ->
      current_priority (threads s' now) <= current_priority (threads s t).
Proof.
  intros Hst (to & p & Hb & Hto & E & Es).
  destruct (run_core_fields me to p (release_core me cur s)) as (_ & Em & _ & Et & Eoth).
  destruct (release_core_cur me cur s) as [_ Ec].
  apply Z.eqb_neq in Hst. rewrite Hst in Ec.
  assert (Er : release_core me cur s = with_thread cur (set_oncpu RT_CPU_DETACHED (threads s cur)) s).
  { unfold release_core. change (th_stat (set_oncpu RT_CPU_DETACHED (threads s cur)))
      with (th_stat (threads s cur)). by rewrite Hst. }
  split_and!.
  - rewrite <-(keq_tm _ _ E). unfold switch_core. by rewrite Em, release_core_tm.
  - rewrite <-(keq_threads _ _ E). unfold switch_core. by rewrite Eoth by done.
  - rewrite <-(keq_threads _ _ E). unfold switch_core. rewrite Eoth, Er by done.
    cbn. by rewrite upd_eq.
  - intros h x. rewrite <-(keq_lists _ _ E). unfold switch_core, run_core. cbn.
    rewrite remove_core_lists, elem_of_remove_elt, Er. by intros [_ ?].
  - exists to. split_and!; [done|done|]. intros t Ht.
    rewrite <-(keq_threads _ _ E). unfold switch_core. rewrite Et, release_core_other by done.
    cbn. rewrite (best_prio _ _ _ _ Hb). by apply (best_max _ _ _ _ Hb).
Qed.

Lemma switched_otype me cur s s' : switched me cur s s' -> forall o, otype s' o = otype s o.
Proof.
  intros (to & p & _ & _ & E & _) o. rewrite <-(keq_otype _ _ E). unfold switch_core.
  destruct (run_core_fields me to p (release_core me cur s)) as (-> & _).
  by rewrite release_core_otype.
Qed.

Lemma switched_lists me cur s s' h :
  kwf s -> switched me cur s s' -> is_ready_head h = false -> lists s' h = lists s h.
Proof.
  intros Hk (to & p & Hb & _ & E & _) Hh. rewrite <-(keq_lists _ _ E).
  by apply switch_core_lists; [|apply Hb|].
Qed.

(** ** The state a thread leaves by [rt_thread_exit] *)
Section exited.
Context (me : Z) (s : kstate) (t : tid) (Hi : kinv s) (Ht : is_thread s t).
Context (Hst : th_stat (threads s t) = RT_THREAD_RUNNING).
Let sb := bury_core t (closed_core t s).

Lemma exited_ready h : is_ready_head h = true -> lists sb h = lists s h.
Proof using Hi Hst.
  intros Hh. unfold sb, bury_core.
  assert (Hc : lists (closed_core t s) h = lists s h).
  { cbn. rewrite remove_core_lists. apply remove_elt_notin.
    by apply running_unlinked; [apply Hi|]. }
  case_match; [done|]. cbn [with_list lists set_lists]. rewrite upd_ne by (by intros <-).
  done.
Qed.

Lemma exited_eligible x : eligible me sb x <-> eligible me s x.
Proof using Hi Hst.
  unfold eligible. split; intros (q & Hq & Hin); exists q; (split; [done|]);
    by rewrite !exited_ready in * by done.
Qed.

Lemma exited_frame :
  nests sb = nests s /\ forall c, irq_nest (cpus sb c) = irq_nest (cpus s c).
Proof using.
  clear Hi Ht Hst. unfold sb, bury_core. destruct (remove_core_frame t s) as (_ & F & _).
  case_match; (split; [exact F|intros c; exact (proj1 (remove_core_cpu t s c))]).
Qed.

Lemma exited_ok :
  kinv sb /\ no_new s sb /\ (forall c, rt_thread_self c sb = rt_thread_self c s) /\
  threads sb = upd (threads s) t (set_stat RT_THREAD_CLOSE (threads s t)) /\
  ThreadTimer t ∉ timer_list (tm sb).
Proof using Hi Ht Hst.
  assert (Hsch : schedulable (threads s t)) by (unfold schedulable; tauto).
  destruct (closed_core_ok s t Hi Ht Hsch) as (Hi1 & Hu1 & Ht1 & Htl1 & Et1 & Es1 & Hn1).
  assert (Hst1 : th_stat (threads (closed_core t s) t) = RT_THREAD_CLOSE)
    by by rewrite Et1, upd_eq.
  destruct (bury_core_ok t (closed_core t s) Hi1 Hu1 Ht1 Hst1 Htl1)
    as (Hi2 & Hn2 & _ & Es2 & Et2).
  split_and!; [done|by etrans| | |].
  - intros c. by rewrite Es2, Es1.
  - unfold sb. by rewrite Et2, Et1.
  - unfold sb, bury_core. by case_match.
Qed.

(** Where the thread ends. *)
Lemma exited_place :
  if rt_object_is_systemobject s (OThread t) && (cleanup (threads s t) =? 0)
  then ~ is_thread sb t /\ unlinked_in sb t
  else lists sb Defunct = t :: lists s Defunct.
Proof using Hi Ht Hst.
  assert (Hsch : schedulable (threads s t)) by (unfold schedulable; tauto).
  destruct (closed_core_ok s t Hi Ht Hsch) as (Hi1 & Hu1 & Ht1 & _ & Et1 & _ & _).
  assert (Esys : rt_object_is_systemobject (closed_core t s) (OThread t) &&
    (cleanup (threads (closed_core t s) t) =? 0) =
    rt_object_is_systemobject s (OThread t) && (cleanup (threads s t) =? 0)).
  { rewrite Et1, upd_eq. unfold rt_object_is_systemobject. cbn.
    by rewrite upd_ne, remove_core_otype by done. }
  unfold sb, bury_core. rewrite Esys. case_match.
  - split; [|exact Hu1]. unfold is_thread, rt_object_get_type. cbn. by rewrite upd_eq.
  - cbn. rewrite upd_eq, remove_core_lists. f_equal. apply remove_elt_notin.
    by apply running_unlinked; [apply Hi|].
Qed.
End exited.
