(* ===== verification/Example.v ===== *)
(** A concrete kernel state, on which the theorems are instantiated.

    CPU 0 runs thread 1 (priority 10), CPU 1 its idle thread 2 (priority 31,
    bound to CPU 1).  Thread 3 (priority 10, any CPU) and thread 4 (priority
    12, bound to CPU 0) are ready; thread 5 (priority 8) waits for semaphore 1
    with a timeout at tick 100; thread 6 is initialised and not started.
    Mutex 2 is free, event 3 has bit 0 set, mailbox 4 holds one mail of two,
    message queue 5 one message of two, semaphore 6 has value 1, mutex 7 is
    held by thread 4.  Timers 1 and 2 are initialised. *)
From S2P Require Import Prelude KService Timer KState KInv Sched Kernel KTimer Object Thread ThreadSpec.

Definition ex_thread (st bind on prio : Z) : thread :=
  mkThread st 0 bind on prio prio (2 ^ prio) 0 0 10 10 0.

Definition ex_threads (t : tid) : thread :=
  match t with
  | 1%positive => ex_thread RT_THREAD_RUNNING 2 0 10
  | 2%positive => ex_thread RT_THREAD_RUNNING 1 1 31
  | 3%positive => ex_thread RT_THREAD_READY 2 2 10
  | 4%positive => ex_thread RT_THREAD_READY 0 2 12
  | 5%positive => ex_thread RT_THREAD_SUSPEND 2 2 8
  | 6%positive => set_number_mask 0 (ex_thread RT_THREAD_INIT 2 2 7)
  | _ => ex_thread RT_THREAD_CLOSE 2 2 0
  end.

Definition ex_lists (h : lhead) : list tid :=
  match h with
  | Ready 10 => [3%positive]
  | CpuReady 0 12 => [4%positive]
  | Suspend 1%positive => [5%positive]
  | _ => []
  end.

Definition ex_cpus (c : Z) : rt_cpu :=
  match c with
  | 0 => mkCpu (Some 1%positive) 0 0 10 (2 ^ 12) 60
  | 1 => mkCpu (Some 2%positive) 0 0 31 0 60
  | _ => mkCpu None 0 0 31 0 0
  end.

Definition ex_timer (x : tmr) : rt_timer :=
  match x with
  | ThreadTimer t =>
      mkTimer (if decide (t = 5%positive) then RT_TIMER_FLAG_ACTIVATED else 0)
        (RtThreadTimeout t) 50 (if decide (t = 5%positive) then 100 else 0)
  | UserTimer i => mkTimer RT_TIMER_FLAG_PERIODIC (if decide (i = 2%positive) then UserFun 1 2 else UserFun 0 0) 20 0
  end.

Definition ex_otype (o : obj) : Z :=
  match o with
  | OThread t => if decide (t < 7)%positive then 0x81 else 0
  | OTimer (ThreadTimer t) => if decide (t < 7)%positive then 0x8a else 0
  | OTimer (UserTimer i) => if decide (i < 3)%positive then 0x8a else 0
  | OIpc 1%positive | OIpc 6%positive => 0x82
  | OIpc 2%positive | OIpc 7%positive => 0x83
  | OIpc 3%positive => 0x84
  | OIpc 4%positive => 0x85
  | OIpc 5%positive => 0x86
  | _ => 0
  end.

Definition ex_mq : rt_messagequeue :=
  mkMq 0 4 2 1 (fun i => None) (fun i => [i; i; i; i]) (Some 0) (Some 0) (Some 1).

Definition ex : kstate :=
  mkK ex_threads (fun _ => mkNest 0 0 0) ex_lists (2 ^ 10) ex_cpus 0 false false
    (mkT ex_timer [ThreadTimer 5]) ex_otype (fun _ => [])
    (fun o => mkSem 0 (if decide (o = 6%positive) then 1 else 0))
    (fun o => if decide (o = 7%positive) then mkMutex 1 0 12 1 (Some 4%positive)
              else mkMutex 1 1 255 0 None)
    (fun _ => mkEvent 0 1) (fun _ => mkMb 0 [17; 0] 2 1 1 0) (fun _ => ex_mq).

Ltac ex_case :=
  repeat match goal with
  | H : _ ∈ [] |- _ => by apply not_elem_of_nil in H
  | H : _ ∈ [_] |- _ => apply list_elem_of_singleton in H; subst
  | H : context [match ?x with _ => _ end] |- _ =>
      is_var x; destruct x; cbn in H; try done
  end.

Lemma ex_lists_in h t : t ∈ ex_lists h ->
  h = Ready 10 /\ t = 3%positive \/ h = CpuReady 0 12 /\ t = 4%positive \/
  h = Suspend 1 /\ t = 5%positive.
Proof.
  unfold ex_lists. intros H. repeat case_match; subst;
    first [by apply not_elem_of_nil in H|apply list_elem_of_singleton in H; subst; auto].
Qed.

Lemma ex_lists_ready p : ex_lists (Ready p) = if decide (p = 10) then [3%positive] else [].
Proof.
  case_decide as E; [by subst|]. unfold ex_lists. repeat case_match; subst; done.
Qed.
Lemma ex_lists_cpu0 p : ex_lists (CpuReady 0 p) = if decide (p = 12) then [4%positive] else [].
Proof.
  case_decide as E; [by subst|]. unfold ex_lists. repeat case_match; subst; done.
Qed.

Lemma ex_is_thread t : is_thread ex t <-> (t < 7)%positive.
Proof.
  unfold is_thread, rt_object_get_type. cbn.
  case_decide; [done|]. split; [done|lia].
Qed.

Lemma ex_is_thread_in t : is_thread ex t ->
  t ∈ [1; 2; 3; 4; 5; 6]%positive.
Proof.
  rewrite ex_is_thread. intros H.
  assert (t = 1 \/ t = 2 \/ t = 3 \/ t = 4 \/ t = 5 \/ t = 6)%positive by lia.
  rewrite !elem_of_cons. naive_solver.
Qed.

Lemma bitmap_single p (q : Z -> list tid) l :
  0 <= p < 32 -> l <> [] -> (forall x, q x = if decide (x = p) then l else []) ->
  bitmap_ok (2 ^ p) q.
Proof.
  intros Hp Hl Hq. split.
  - split; [by apply Z.pow_nonneg|]. apply Z.pow_lt_mono_r; lia.
  - intros x Hx. rewrite testbit_pow2, Hq by lia. apply bool_decide_ext.
    case_decide; [by subst|]. split; [congruence|done].
Qed.
Lemma bitmap_none (q : Z -> list tid) : (forall x, q x = []) -> bitmap_ok 0 q.
Proof.
  intros Hq. split; [lia|]. intros x Hx. rewrite Z.bits_0, Hq. symmetry.
  apply bool_decide_eq_false. by intros [].
Qed.

Lemma ex_kwf : kwf ex.
Proof.
  split.
  - intros h. cbn. unfold ex_lists.
    repeat case_match; first [apply NoDup_nil_2|apply NoDup_singleton].
  - intros h h' t H H'. cbn in *.
    apply ex_lists_in in H as [[-> ->]|[[-> ->]|[-> ->]]];
      apply ex_lists_in in H' as [[? ?]|[[? ?]|[? ?]]]; congruence.
  - intros h t H. cbn in H. apply ex_lists_in in H as [[-> ->]|[[-> ->]|[-> ->]]]; done.
  - intros t Ht. apply ex_is_thread_in in Ht.
    repeat (apply elem_of_cons in Ht as [->|Ht]); try done;
      [..|by apply not_elem_of_nil in Ht]; intros _; by apply list_elem_of_singleton.
  - intros t Ht Hs. apply ex_is_thread_in in Ht.
    repeat (apply elem_of_cons in Ht as [->|Ht]); try done;
      try (by apply not_elem_of_nil in Ht).
    by destruct Hs as [Hs|[Hs|Hs]].
  - apply (bitmap_single 10 _ [3%positive]); [lia|done|apply ex_lists_ready].
  - intros c Hc. assert (c = 0 \/ c = 1) as [-> | ->] by (unfold RT_CPUS_NR in Hc; lia).
    + apply (bitmap_single 12 _ [4%positive]); [lia|done|apply ex_lists_cpu0].
    + by apply bitmap_none.
  - intros t Ht. cbn in Ht. apply list_elem_of_singleton in Ht. injection Ht as ->. done.
Qed.

Lemma ex_krun : krun ex.
Proof.
  split.
  - intros c t Hc. assert (c = 0 \/ c = 1) as [-> | ->] by (unfold RT_CPUS_NR in Hc; lia);
      cbn; intros [= <-]; (split; [done|by left]).
  - intros t Ht. apply ex_is_thread_in in Ht.
    repeat (apply elem_of_cons in Ht as [->|Ht]); try done; by apply not_elem_of_nil in Ht.
  - intros t Ht. apply ex_is_thread_in in Ht.
    repeat (apply elem_of_cons in Ht as [->|Ht]); try done; by apply not_elem_of_nil in Ht.
Qed.

Lemma ex_parked : parked_ok ex.
Proof. intros t _ _ _. by left. Qed.

Lemma ex_depth me : lock_depth me 0 ex.
Proof. unfold lock_depth. by case_match. Qed.

Lemma ex_kinv : kinv ex.
Proof.
  split; [exact ex_kwf|exact ex_krun| |].
  - split; [apply NoDup_singleton|]. intros t Ht%list_elem_of_singleton. by subst.
  - intros t Ht _. apply ex_is_thread in Ht. unfold own_timer, rt_object_get_type,
      rt_object_is_systemobject. cbn. rewrite decide_True by done. done.
Qed.

Lemma ex_in_thread : in_thread 0 1%positive ex.
Proof. split; [by split|done|apply ex_depth|apply ex_parked|done|done]. Qed.

Lemma ex_some_ready : ~ none_ready 0 ex.
Proof. by intros [? _]. Qed.

Lemma ex_eligible t : eligible 0 ex t <-> t = 3%positive \/ t = 4%positive.
Proof.
  split.
  - intros (p & Hp & [H|H]); apply ex_lists_in in H; naive_solver.
  - intros [-> | ->]; [exists 10|exists 12]; (split; [lia|]); [left|right];
      by apply list_elem_of_singleton.
Qed.
