(* ===== verification/SchedProps.v ===== *)
(** The properties of the scheduler, with their instances. *)
From S2P Require Import Prelude KService Timer KState KInv Sched Kernel KTimer Object Thread ThreadSpec Example.

(** * Properties *)

(** C1: [rt_schedule], called by a running thread outside interrupts and
    critical sections, leaves the kernel well-formed, every CPU's current
    thread consistent and the CPU lock free, and the thread it leaves running
    has a priority at least as high (a number at most as large) as every ready
    thread this CPU may run. *)
Theorem rt_schedule_runs_highest me cur s :
  kwf s -> krun s -> parked_ok s -> lock_depth me 0 s ->
  0 <= me < RT_CPUS_NR -> rt_thread_self me s = Some cur ->
  irq_nest (cpus s me) = 0 -> critical_lock_nest (nests s cur) = 0 ->
  (th_stat (threads s cur) = RT_THREAD_RUNNING \/ ~ none_ready me s) ->
  wp (rt_schedule me) (fun _ s' =>
    kwf s' /\ krun s' /\ parked_ok s' /\ lock_depth me 0 s' /\ runs_best me s s') s.
Proof.
  intros Hk Hr Hpk Hd Hme Hcur Hirq Hcr Hor.
  eapply wp_mono; [by apply (rt_schedule_spec me cur s Hk Hr Hme Hcur 0); auto; lia|].
  intros [] s' (P & O & D).
  destruct (sched_outcome_ok me cur s s' Hk Hr Hme Hcur O) as [K R].
  split_and!; try done; [by destruct D as [D|[_ D]]|by eapply sched_outcome_best].
Qed.

Lemma rt_schedule_runs_highest_ex :
  wp (rt_schedule 0) (fun _ s' =>
    kwf s' /\ krun s' /\ parked_ok s' /\ lock_depth 0 0 s' /\ runs_best 0 ex s') ex.
Proof.
  apply (rt_schedule_runs_highest 0 1%positive ex ex_kwf ex_krun ex_parked (ex_depth 0));
    [by split|reflexivity..|by left].
Defined.

(** C2: a running thread whose time slice is over ([RT_THREAD_STAT_YIELD]) and
    whose equals are the best ready threads is switched for one of them: the
    new thread leaves its ready list, the old one goes to the tail of its own,
    its yield mark is cleared, and nobody else moves. *)
Theorem rt_schedule_round_robin me cur s :
  kwf s -> krun s -> parked_ok s -> lock_depth me 0 s ->
  0 <= me < RT_CPUS_NR -> rt_thread_self me s = Some cur ->
  irq_nest (cpus s me) = 0 -> critical_lock_nest (nests s cur) = 0 ->
  th_stat (threads s cur) = RT_THREAD_RUNNING ->
  Z.land (stat (threads s cur)) RT_THREAD_STAT_YIELD_MASK <> 0 ->
  (exists t, eligible me s t /\
     current_priority (threads s t) = current_priority (threads s cur)) ->
  (forall t, eligible me s t ->
     current_priority (threads s cur) <= current_priority (threads s t)) ->
  wp (rt_schedule me) (fun _ s' => exists to,
    best me s to (current_priority (threads s cur)) /\
    rt_thread_self me s' = Some to /\
    Z.land (stat (threads s' cur)) RT_THREAD_STAT_YIELD_MASK = 0 /\
    th_stat (threads s' cur) = RT_THREAD_READY /\
    forall h, lists s' h = remove_elt to (lists s h ++
      (if decide (h = ready_head (threads s cur)) then [cur] else []))) s.
Proof.
  intros Hk Hr Hpk Hd Hme Hcur Hirq Hcr Hst Hy (t & He & Et) Hall.
  eapply wp_mono; [by apply (rt_schedule_spec me cur s Hk Hr Hme Hcur 0); auto; lia|].
  intros [] s' (_ & O & _).
  destruct O as [[Hn _]|(to & p & Hb & O)].
  { by destruct (none_ready_eligible me s t Hk Hme Hn). }
  assert (p = current_priority (threads s cur)) as ->.
  { apply Z.le_antisymm; [rewrite <-Et; by apply (best_max _ _ _ _ Hb)|].
    rewrite <-(best_prio _ _ _ _ Hb) at 1. apply Hall. by eapply best_eligible. }
  destruct O as [[[_ Hp] _]|[_ E]]; [lia|]. exists to.
  assert (Hto : cur <> to) by (intros <-; by apply (current_not_ready me cur s), Hb).
  destruct (switch_core_ok me cur to (current_priority (threads s cur)) s) as (_ & _ & Es & _);
    try done; [apply Hb..|].
  rewrite (keq_self _ _ me E), <-(keq_threads _ _ E).
  unfold switch_core in *.
  destruct (run_core_fields me to (current_priority (threads s cur)) (release_core me cur s))
    as (_ & _ & _ & _ & Eo). rewrite (Eo cur Hto).
  destruct (release_core_running me cur s Hst) as [Ey El].
  destruct (release_core_cur me cur s) as [_ Ec]. rewrite Ec, Hst. split_and!; try done.
  intros h. rewrite <-(keq_lists _ _ E). cbn. rewrite remove_core_lists. by rewrite El.
Qed.

(** Thread 1 of the example at the end of its time slice. *)
Definition ex_yield : kstate :=
  with_thread 1%positive (set_stat (RT_THREAD_RUNNING + RT_THREAD_STAT_YIELD) (ex_threads 1)) ex.

Lemma ex_yield_ok : kwf ex_yield /\ krun ex_yield /\ parked_ok ex_yield.
Proof.
  split_and!.
  - apply (kwf_touch_cur 0 _ _ ex_kwf ex_krun); done || (by split).
  - destruct ex_krun as [H1 H2 H3]. split.
    + intros c t Hc Hs. specialize (H1 c t Hc Hs). cbn. unfold upd. case_decide; [by subst|done].
    + intros t Ht. specialize (H2 t Ht). cbn. unfold upd. case_decide; [by subst|done].
    + intros t Ht. specialize (H3 t Ht). cbn. unfold upd. case_decide; [by subst|done].
  - intros t _ _ _. by left.
Qed.

Lemma rt_schedule_round_robin_ex :
  wp (rt_schedule 0) (fun _ s' => exists to,
    best 0 ex_yield to 10 /\ rt_thread_self 0 s' = Some to /\
    Z.land (stat (threads s' 1%positive)) RT_THREAD_STAT_YIELD_MASK = 0 /\
    th_stat (threads s' 1%positive) = RT_THREAD_READY /\
    forall h, lists s' h = remove_elt to (lists ex_yield h ++
      (if decide (h = Ready 10) then [1%positive] else []))) ex_yield.
Proof.
  destruct ex_yield_ok as (Hk & Hr & Hp).
  apply (rt_schedule_round_robin 0 1%positive ex_yield Hk Hr Hp);
    [exact (ex_depth 0)|by split|done..| |].
  - exists 3%positive. split; [|done]. apply ex_eligible. by left.
  - intros t Ht. apply ex_eligible in Ht as [-> | ->]; by vm_compute.
Defined.

(** Inside an interrupt handler [rt_schedule] only notes that a switch is
    wanted, and inside a critical section it does nothing. *)
Theorem rt_schedule_locked_out me d cur s :
  lock_depth me d s -> 0 <= d < 32766 -> rt_thread_self me s = Some cur ->
  (irq_nest (cpus s me) <> 0 \/ 0 < critical_lock_nest (nests s cur)) ->
  wp (rt_schedule me) (fun _ s' => lock_depth me d s' /\
    keq (if irq_nest (cpus s me) =? 0 then s
         else with_cpu me (set_irq_switch_flag 1 (cpus s me)) s) s') s.
Proof.
  intros Hd Hd0 Hcur Hor. destruct (Z.eqb_spec (irq_nest (cpus s me)) 0) as [Hi|Hi].
  - destruct Hor as [?|Hcr]; [done|].
    eapply wp_mono; [by eapply rt_schedule_locked|]. intros [] s' (E & D & _). done.
  - eapply wp_mono; [by eapply rt_schedule_deferred|]. intros [] s' (E & D & _). done.
Qed.

Definition ex_irq : kstate := with_cpu 0 (set_irq_nest 1 (ex_cpus 0)) ex.
Lemma rt_schedule_locked_out_ex :
  wp (rt_schedule 0) (fun _ s' => lock_depth 0 0 s' /\
    keq (with_cpu 0 (set_irq_switch_flag 1 (cpus ex_irq 0)) ex_irq) s') ex_irq.
Proof.
  apply (rt_schedule_locked_out 0 0 1%positive ex_irq); [by vm_compute|lia|done|by left].
Defined.

(** C3: at interrupt exit, when a switch was asked for and the interrupted
    thread is in no critical section, the best ready thread runs, as after
    [rt_schedule]; the interrupted thread's lock counters are back to zero and
    the request is cleared. *)
Theorem rt_scheduler_do_irq_switch_runs_highest me cur s :
  kwf s -> krun s -> parked_ok s -> lock_depth me 0 s ->
  0 <= me < RT_CPUS_NR -> rt_thread_self me s = Some cur ->
  irq_nest (cpus s me) = 0 -> irq_switch_flag (cpus s me) <> 0 ->
  critical_lock_nest (nests s cur) = 0 ->
  (th_stat (threads s cur) = RT_THREAD_RUNNING \/ ~ none_ready me s) ->
  wp (rt_scheduler_do_irq_switch me) (fun _ s' =>
    kwf s' /\ krun s' /\ parked_ok s' /\ lock_depth me 0 s' /\
    irq_switch_flag (cpus s' me) = 0 /\
    runs_best me (with_cpu me (set_irq_switch_flag 0 (cpus s me)) s) s') s.
Proof.
  intros Hk Hr Hpk Hd Hme Hcur Hirq Hfl Hcr Hor.
  eapply wp_mono; [by apply (rt_scheduler_do_irq_switch_spec me cur s)|].
  intros [] s' (D & P & O).
  destruct (with_cpu_quiet me (set_irq_switch_flag 0 (cpus s me)) s) as (Hk0 & Hr0 & _ & Hs0);
    [done..|]. specialize (Hk0 Hk). specialize (Hr0 Hr).
  set (s0 := with_cpu me _ s) in *. pose proof (Hs0 me) as Hc0. rewrite Hcur in Hc0.
  destruct (sched_outcome_ok me cur s0 s' Hk0 Hr0 Hme Hc0 O) as [K R].
  split_and!; try done.
  - rewrite (sched_outcome_flag me cur s0 s' O). unfold s0. cbn. by rewrite upd_eq.
  - apply (sched_outcome_best me cur); try done. destruct Hor as [?|Hn]; [by left|right].
    unfold none_ready, s0. cbn. by rewrite upd_eq.
Qed.

Definition ex_flag : kstate := with_cpu 0 (set_irq_switch_flag 1 (ex_cpus 0)) ex.
Lemma rt_scheduler_do_irq_switch_runs_highest_ex :
  wp (rt_scheduler_do_irq_switch 0) (fun _ s' =>
    kwf s' /\ krun s' /\ parked_ok s' /\ lock_depth 0 0 s' /\
    irq_switch_flag (cpus s' 0) = 0 /\
    runs_best 0 (with_cpu 0 (set_irq_switch_flag 0 (cpus ex_flag 0)) ex_flag) s') ex_flag.
Proof.
  destruct (with_cpu_quiet 0 (set_irq_switch_flag 1 (ex_cpus 0)) ex) as (K & R & P & _);
    [done..|].
  apply (rt_scheduler_do_irq_switch_runs_highest 0 1%positive ex_flag (K ex_kwf) (R ex_krun)
    (P ex_parked)); [by vm_compute|by split|done..|by left].
Defined.
