(* ===== verification/ThreadProps.v ===== *)
(** The properties of the thread operations, with their instances. *)
From S2P Require Import Prelude KService Timer KState KInv Sched Kernel KTimer Object Thread ThreadSpec Example.

(** * The blocking prefix on the SMP kernel *)
Lemma wp_sleep_enter me s t tick (Q : unit -> kstate -> Prop) :
  kinv s -> is_thread s t -> rt_thread_self me s = Some t ->
  th_stat (threads s t) = RT_THREAD_RUNNING -> 0 <= tick < RT_TICK_MAX / 2 ->
  (forall s', asleep me t (u32 (rt_tick_get s + tick)) s s' -> Q tt s') ->
  wp (rt_thread_sleep_enter (Kn := Big me) t tick) Q s.
Proof.
  intros Hi Ht Hself Hst Htick HQ. unfold rt_thread_sleep_enter.
  cbn [interrupt_disable interrupt_enable Big].
  apply wp_bind, wp_assert_type; [done|]. wp_steps.
  apply (wp_suspend me s t Hi Ht); [by right|].
  apply (wp_arm_then me s t Hi Ht (or_intror Hst)); [done|]. intros s' Ha. wp_steps. auto.
Qed.

Lemma asleep_stat me t d s s' : asleep me t d s s' -> th_stat (threads s' t) = RT_THREAD_SUSPEND.
Proof.
  intros Ha. rewrite (as_threads _ _ _ _ _ Ha), upd_eq, th_stat_put; [done|].
  unfold RT_THREAD_SUSPEND. lia.
Qed.

(** The state in which a sleeping thread is left once the CPU went on. *)
Record sleeping (me : Z) (cur : tid) (deadline : Z) (s s' : kstate) : Prop := {
  sl_kinv : kinv s';
  sl_depth : lock_depth me 0 s';
  sl_parked : parked_ok s';
  sl_stat : th_stat (threads s' cur) = RT_THREAD_SUSPEND;
  sl_unlinked : unlinked_in s' cur;
  sl_timer : ThreadTimer cur ∈ timer_list (tm s');
  sl_deadline : timeout_tick (timers (tm s') (ThreadTimer cur)) = deadline;
  sl_next : exists now, rt_thread_self me s' = Some now /\ now <> cur /\
    forall t, eligible me s t ->
      current_priority (threads s' now) <= current_priority (threads s t) }.

(** From the end of the blocking prefix to the switch. *)
Lemma sleep_switch A me cur d s s0 s1 (k : K A) :
  in_thread me cur s -> kinv s -> is_thread s cur ->
  th_stat (threads s cur) = RT_THREAD_RUNNING -> ~ none_ready me s ->
  asleep me cur d s s0 -> keq s0 s1 -> lock_depth me 0 s1 -> parked_ok s1 ->
  wp (rt_schedule me;; then_resumed me cur k) (fun r s' =>
    r = None /\ sleeping me cur d s s') s1.
Proof.
  intros [Hme Hself Hd Hp Hirq Hcr] Hi Ht Hst Hn Ha E D1 P1.
  pose proof (asleep_stat _ _ _ _ _ Ha) as Hs0.
  assert (Hel : forall x, eligible me s0 x <-> eligible me s x) by by eapply asleep_eligible.
  pose proof (as_kinv _ _ _ _ _ Ha) as Hi0.
  eapply wp_mono.
  - apply (give_way _ me cur s0 s1); [|done|done|by rewrite Hs0|].
    + split; try done.
      * by rewrite (keq_self _ _ me E), (as_self _ _ _ _ _ Ha).
      * rewrite <-(keq_cpus _ _ E). by rewrite (proj1 (as_cpu _ _ _ _ _ Ha me)).
      * rewrite <-(keq_crit _ _ E). by rewrite (as_nests _ _ _ _ _ Ha).
    + rewrite none_ready_iff by (done || apply Hi0). intros Hno. apply Hn.
      rewrite none_ready_iff by (done || apply Hi). intros t He. by apply (Hno t), Hel.
  - intros r s' (-> & Hi' & D' & P' & Hsw). split; [done|].
    destruct (switched_fields me cur s0 s') as (Em & Es & _ & El & now & N1 & N2 & N3);
      [by rewrite Hs0|done|].
    split; try done.
    + by rewrite Es.
    + intros h Hin. apply El in Hin. rewrite (as_lists _ _ _ _ _ Ha) in Hin.
      apply elem_of_remove_elt in Hin. naive_solver.
    + rewrite Em. apply Ha.
    + rewrite Em. apply Ha.
    + exists now. split_and!; try done. intros t He. apply Hel in He. specialize (N3 t He).
      destruct (decide (t = cur)) as [->|Htc].
      * destruct He as (q & _ & [Hin|Hin]); rewrite (as_lists _ _ _ _ _ Ha) in Hin;
          apply elem_of_remove_elt in Hin; naive_solver.
      * by rewrite (as_threads _ _ _ _ _ Ha), upd_ne in N3 by done.
Qed.

(** * Properties *)

(** C6: [rt_thread_sleep(tick)] takes the calling thread off the CPU: it is
    suspended, in no list, its timer is armed for [now + tick], and the best
    ready thread runs in its place; the kernel invariant holds and the CPU lock
    is free. *)
Theorem rt_thread_sleep_suspends me cur tick s :
  in_thread me cur s -> kinv s -> is_thread s cur ->
  th_stat (threads s cur) = RT_THREAD_RUNNING -> ~ none_ready me s ->
  0 <= tick < RT_TICK_MAX / 2 ->
  wp (rt_thread_sleep me tick) (fun r s' =>
    r = None /\ sleeping me cur (u32 (rt_tick_get s + tick)) s s') s.
Proof.
  intros Hit Hi Ht Hst Hn Htick. unfold rt_thread_sleep. wp_steps.
  apply (wp_ofopt _ cur); [apply Hit|]. apply wp_bind.
  eapply wp_mono; [eapply (lift me 0 0) with (Q := fun _ s' =>
    asleep me cur (u32 (rt_tick_get s + tick)) s s');
    [apply Hit|apply rt_thread_sleep_enter_er; lia|apply Hit|apply Hit|]|].
  - apply (wp_sleep_enter me s cur tick); try done; [apply Hit|].
    intros s' Ha. split; [exact Ha|]. split; apply Ha.
  - intros [] s1 (s0 & Ha & E & D & P & _). by apply (sleep_switch _ me cur _ s s0).
Qed.

Lemma rt_thread_sleep_suspends_ex :
  wp (rt_thread_sleep 0 25) (fun r s' => r = None /\ sleeping 0 1%positive 85 ex s') ex.
Proof.
  apply (rt_thread_sleep_suspends 0 1%positive 25 ex ex_in_thread ex_kinv);
    [done|done|exact ex_some_ready|by split].
Defined.

(** [rt_thread_delay_until] computes its waiting time as
    [elapsed + inc_tick] where it means [inc_tick - elapsed]: called [elapsed]
    ticks after [*tick], with [elapsed < inc_tick], it arms the timer for
    [*tick + inc_tick + 2 * elapsed] and not for the promised
    [*tick + inc_tick]. *)
Theorem rt_thread_delay_until_oversleeps me cur tick0 inc elapsed s :
  in_thread me cur s -> kinv s -> is_thread s cur ->
  th_stat (threads s cur) = RT_THREAD_RUNNING -> ~ none_ready me s ->
  0 <= elapsed < inc -> elapsed + inc < RT_TICK_MAX / 2 ->
  0 <= tick0 < 2 ^ 32 -> rt_tick_get s = u32 (tick0 + elapsed) ->
  wp (rt_thread_delay_until me tick0 inc) (fun r s' =>
    r = None /\ sleeping me cur (u32 (tick0 + inc + 2 * elapsed)) s s' /\
    (0 < elapsed -> u32 (tick0 + inc + 2 * elapsed) <> u32 (tick0 + inc))) s.
Proof.
  intros Hit Hi Ht Hst Hn He Hinc Ht0 Hnow. unfold rt_thread_delay_until. wp_steps.
  apply (wp_ofopt _ cur); [apply Hit|]. apply wp_bind.
  assert (Hlt : elapsed + inc < 2147483647) by exact Hinc.
  assert (Eel : u32 (rt_tick_get s - tick0) = elapsed).
  { rewrite Hnow. wraps. rewrite Zminus_mod_idemp_l.
    replace (tick0 + elapsed - tick0) with elapsed by lia. apply Z.mod_small. lia. }
  assert (Ewait : u32 (rt_tick_get s - tick0 + inc) = elapsed + inc).
  { unfold u32 in *. rewrite <-Zplus_mod_idemp_l, Eel. apply Z.mod_small.
    change (2 ^ 32) with 4294967296. lia. }
  eapply wp_mono; [eapply (lift me 0 0) with (Q := fun r s' => r = (true, elapsed + inc) /\
    asleep me cur (u32 (rt_tick_get s + (elapsed + inc))) s s');
    [apply Hit|apply rt_thread_delay_until_enter_er; lia|apply Hit|apply Hit|]|].
  - unfold rt_thread_delay_until_enter. cbn [interrupt_disable interrupt_enable Big].
    apply wp_bind, wp_assert_type; [done|]. wp_steps. rewrite Eel, Ewait.
    assert (elapsed <? inc = true) as -> by (apply Z.ltb_lt; lia).
    apply wp_bind, (wp_suspend me s cur Hi Ht); [by right; split; [|apply Hit]|].
    apply (wp_arm_then me s cur Hi Ht (or_intror Hst)); [lia|]. intros s' Ha. wp_steps.
    split; [done|]. split; apply Ha.
  - intros r s1 (s0 & (-> & Ha) & E & D & P & _). cbn [fst snd].
    eapply wp_mono; [by eapply (sleep_switch _ me cur _ s s0)|].
    intros r s' (-> & Hs).
    assert (Ed : u32 (rt_tick_get s + (elapsed + inc)) = u32 (tick0 + inc + 2 * elapsed)).
    { rewrite Hnow. wraps. rewrite Zplus_mod_idemp_l. f_equal. lia. }
    rewrite Ed in Hs. split_and!; [done|done|]. intros He0. wraps.
    change (2 ^ 32) with 4294967296 in *. intros Eq. zmod.
Qed.

(** Thread 1, called at tick 60 for a period of 10 from tick 54 on, sleeps
    until tick 76 instead of 64. *)
Lemma rt_thread_delay_until_oversleeps_ex :
  wp (rt_thread_delay_until 0 54 10) (fun r s' =>
    r = None /\ sleeping 0 1%positive (u32 (54 + 10 + 2 * 6)) ex s' /\
    (0 < 6 -> u32 (54 + 10 + 2 * 6) <> u32 (54 + 10))) ex.
Proof.
  apply (rt_thread_delay_until_oversleeps 0 1%positive 54 10 6 ex ex_in_thread ex_kinv);
    [done|done|exact ex_some_ready|lia|by vm_compute|lia|by vm_compute].
Defined.

(** [rt_thread_yield] is only [rt_schedule]: called by a running thread
    whose time slice is not over, it does not let a ready thread of equal
    priority run.  The state is unchanged (up to lock bookkeeping), and the
    caller goes on. *)
Theorem rt_thread_yield_keeps_equals me cur s :
  in_thread me cur s -> kinv s -> th_stat (threads s cur) = RT_THREAD_RUNNING ->
  Z.land (stat (threads s cur)) RT_THREAD_STAT_YIELD_MASK = 0 ->
  (forall t, eligible me s t ->
     current_priority (threads s cur) <= current_priority (threads s t)) ->
  wp (rt_thread_yield me) (fun r s' =>
    r = RT_EOK /\ keq s s' /\ rt_thread_self me s' = Some cur) s.
Proof.
  intros [Hme Hcur Hd Hpk Hirq Hcr] [Hk Hr _ _] Hst Hy Hall. unfold rt_thread_yield. wp_steps.
  eapply wp_mono; [by apply (rt_schedule_spec me cur s Hk Hr Hme Hcur 0); auto; lia|].
  intros [] s' (_ & O & _). wp_steps.
  assert (E : keq s s').
  { destruct O as [[_ E]|(to & p & Hb & [[_ E]|[Hn _]])]; [done..|]. destruct Hn.
    split; [done|]. pose proof (Hall to (best_eligible me s to p Hk Hme Hb)) as Hle.
    rewrite (best_prio _ _ _ _ Hb) in Hle.
    destruct (decide (current_priority (threads s cur) = p)); [by right|left; lia]. }
  split_and!; [done|done|]. by rewrite (keq_self _ _ me E).
Qed.

Lemma rt_thread_yield_keeps_equals_ex :
  wp (rt_thread_yield 0) (fun r s' =>
    r = RT_EOK /\ keq ex s' /\ rt_thread_self 0 s' = Some 1%positive) ex.
Proof.
  apply (rt_thread_yield_keeps_equals 0 1%positive ex ex_in_thread ex_kinv); [done|done|].
  intros t Ht. apply ex_eligible in Ht as [-> | ->]; by vm_compute.
Defined.

(** A ready thread that is suspended and resumed is ready again, at the
    tail of the list of its priority; nobody else moves, and the invariant and
    the lock are as before. *)
Theorem rt_thread_suspend_resume me d t s :
  0 <= me < RT_CPUS_NR -> lock_depth me d s -> 0 <= d < 32000 -> parked_ok s -> kinv s ->
  is_thread s t -> th_stat (threads s t) = RT_THREAD_READY ->
  wp (rt_thread_suspend (Kn := Smp me) t;; rt_thread_resume (Kn := Smp me) t) (fun r s' =>
    r = RT_EOK /\ kinv s' /\ lock_depth me d s' /\ parked_ok s' /\
    th_stat (threads s' t) = RT_THREAD_READY /\
    (forall x, x <> t -> threads s' x = threads s x) /\
    forall h, lists s' h = remove_elt t (lists s h) ++
      (if decide (h = ready_head (threads s t)) then [t] else [])) s.
Proof.
  intros Hme Hd Hd0 Hp Hi Ht Hst.
  assert (Ho : oncpu (threads s t) = RT_CPU_DETACHED)
    by (apply (ready_oncpu s t); done || apply Hi).
  destruct (suspend_core_ok s t Hi Ht (or_introl Hst)) as (Hi1 & _ & _ & Hn1).
  destruct (suspend_core_fields s t) as (Eo & Es & El & Et & _).
  assert (Ht1 : is_thread (suspend_core t s) t)
    by (unfold is_thread, rt_object_get_type; by rewrite Eo).
  assert (Hst1 : th_stat (threads (suspend_core t s) t) = RT_THREAD_SUSPEND).
  { rewrite Et, upd_eq. apply th_stat_put. unfold RT_THREAD_SUSPEND. lia. }
  destruct (resume_core_ok me (suspend_core t s) t Hi1 Ht1 Hst1) as [Hi2 Hn2].
  destruct (resume_core_fields me (suspend_core t s) t) as (_ & Es2 & Et2 & El2 & _).
  eapply wp_mono.
  - eapply (lift me d d) with (Q := fun r s' => r = RT_EOK /\
      s' = resume_core me t (suspend_core t s)); [done| |done|done|].
    + eapply er_bind; [apply rt_thread_suspend_er; lia|]. intros. apply rt_thread_resume_er. lia.
    + apply wp_bind, (wp_suspend me s t Hi Ht); [by left|].
      apply (wp_resume me _ t Hi1 Ht1 Hst1). split; [done|]. split; [by etrans|].
      intros c. by rewrite Es2, Es.
  - intros r s' (s0 & (-> & ->) & E & D & P & _).
    assert (Ew : wake_stat (threads (suspend_core t s) t) = RT_THREAD_READY).
    { rewrite Et, upd_eq. unfold wake_stat. cbn. by rewrite Ho. }
    split_and!; try done.
    + by rewrite <-E.
    + rewrite <-(keq_threads _ _ E), Et2, upd_eq, Ew. by apply th_stat_put.
    + intros x Hx. by rewrite <-(keq_threads _ _ E), Et2, Et, !upd_ne by done.
    + intros h. rewrite <-(keq_lists _ _ E), El2, El, remove_elt_twice, Et, upd_eq.
      f_equal. change (ready_head (put_stat RT_THREAD_SUSPEND (threads s t)))
        with (ready_head (threads s t)). cbn. rewrite Ho. repeat case_decide; naive_solver.
Qed.

Lemma rt_thread_suspend_resume_ex :
  wp (rt_thread_suspend (Kn := Smp 0) 4;; rt_thread_resume (Kn := Smp 0) 4) (fun r s' =>
    r = RT_EOK /\ kinv s' /\ lock_depth 0 0 s' /\ parked_ok s' /\
    th_stat (threads s' 4%positive) = RT_THREAD_READY /\
    (forall x, x <> 4%positive -> threads s' x = threads ex x) /\
    forall h, lists s' h = remove_elt 4%positive (lists ex h) ++
      (if decide (h = CpuReady 0 12) then [4%positive] else [])) ex.
Proof.
  apply (rt_thread_suspend_resume 0 0 4%positive ex); [by split|exact (ex_depth 0)|lia|
    exact ex_parked|exact ex_kinv|done|done].
Defined.

(** An interrupt handler that interrupted [cur]. *)
Record in_isr (me : Z) (cur : tid) (d : Z) (s : kstate) : Prop := {
  ii_me : 0 <= me < RT_CPUS_NR;
  ii_self : rt_thread_self me s = Some cur;
  ii_irq : irq_nest (cpus s me) <> 0;
  ii_depth : lock_depth me d s;
  ii_parked : parked_ok s;
  ii_kinv : kinv s }.

(** What the timeout of the wait of [t] changes. *)
Record timed_out (me : Z) (t : tid) (s s' : kstate) : Prop := {
  to_flag : irq_switch_flag (cpus s' me) = 1;
  to_thread : threads s' t = put_stat RT_THREAD_READY (set_error (- RT_ETIMEOUT) (threads s t));
  to_rest : forall x, x <> t -> threads s' x = threads s x;
  to_lists : forall h, lists s' h = remove_elt t (lists s h) ++
      (if decide (h = ready_head (threads s t)) then [t] else []);
  to_tm : tm s' = tm s;
  to_mutexes : forall m, mutexes s' m = mutexes s m;
  to_otype : forall o, otype s' o = otype s o;
  to_cpus : forall c, irq_nest (cpus s' c) = irq_nest (cpus s c) /\ tick (cpus s' c) = tick (cpus s c) }.

Lemma timeout_core_mutexes me t s m : mutexes (timeout_core me t s) m = mutexes s m.
Proof. unfold timeout_core, insert_core, unlinked. by repeat case_match. Qed.

Lemma thread_timeout_steps me cur d t s :
  in_isr me cur d s -> 0 <= d < 32000 ->
  is_thread s t -> th_stat (threads s t) = RT_THREAD_SUSPEND ->
  oncpu (threads s t) = RT_CPU_DETACHED -> ThreadTimer t ∉ timer_list (tm s) ->
  wp (rt_thread_timeout me t) (fun _ s' => in_isr me cur d s' /\ timed_out me t s s') s.
Proof.
  intros [Hme Hcur Hirq Hd Hp Hi] Hd0 Ht Hst Ho Htl. unfold rt_thread_timeout. wp_steps.
  destruct (timeout_core_ok me s t Hi Ht Hst Htl) as [Hi1 Hn1].
  set (s0' := unlinked t (with_thread t (set_error (- RT_ETIMEOUT) (threads s t)) s)).
  destruct (insert_core_fields me t s0') as (Eo & Em & Es & Et & El).
  pose proof (insert_core_cpu me t s0') as Ec. subst s0'.
  fold (timeout_core me t s) in *.
  eapply wp_mono; [eapply (lift me d d) with (Q := fun _ s' => s' = timeout_core me t s);
    [done|apply rt_thread_timeout_wake_er; lia|done|done|]|].
  { apply (wp_timeout_wake me s t Hi Ht Hst). done. }
  intros [] s1 (s0 & -> & E & D & P & Eself).
  assert (Hi1' : irq_nest (cpus s1 me) = irq_nest (cpus s me)).
  { rewrite <-(keq_cpus _ _ E). by rewrite (proj1 (Ec me)). }
  eapply wp_mono; [apply (rt_schedule_deferred me d cur); [done|lia|by rewrite Eself|by rewrite Hi1']|].
  intros [] s' (E' & D' & N').
  destruct (with_cpu_quiet me (set_irq_switch_flag 1 (cpus s1 me)) s1) as (_ & _ & Hp' & S);
    [done..|].
  assert (Hcpu : forall c, irq_nest (cpus s' c) = irq_nest (cpus s c) /\
    tick (cpus s' c) = tick (cpus s c)).
  { intros c. rewrite <-(keq_cpus _ _ E'). cbn.
    destruct (decide (me = c)) as [<-|Hc]; [rewrite upd_eq; cbn|rewrite upd_ne by done];
      rewrite <-(keq_cpus _ _ E); apply Ec. }
  split; [split|split].
  - done.
  - by rewrite (keq_self _ _ me E'), S, Eself.
  - by rewrite (proj1 (Hcpu me)).
  - done.
  - specialize (Hp' P). intros x Hx Hs Hc. rewrite N'.
    + apply Hp'; [by rewrite E'|by rewrite (keq_threads _ _ E')|].
      intros c Hc'. rewrite <-(keq_self _ _ c E'). by apply Hc.
    + rewrite <-S, <-(keq_self _ _ me E'). by apply Hc.
  - rewrite <-E'. apply kinv_with_cpu; [done|done|]. by rewrite <-E.
  - rewrite <-(keq_cpus _ _ E'). cbn. by rewrite upd_eq.
  - rewrite <-(keq_threads _ _ E'). cbn. rewrite <-(keq_threads _ _ E), Et, upd_eq. cbn.
    rewrite upd_eq. unfold wake_stat. cbn. by rewrite Ho.
  - intros x Hx. rewrite <-(keq_threads _ _ E'). cbn. rewrite <-(keq_threads _ _ E), Et, upd_ne by done.
    cbn. by rewrite upd_ne.
  - intros h. rewrite <-(keq_lists _ _ E'). cbn. rewrite <-(keq_lists _ _ E), El.
    cbn. rewrite !upd_eq. f_equal.
    change (ready_head (set_error (- RT_ETIMEOUT) (threads s t))) with (ready_head (threads s t)).
    cbn. rewrite Ho. repeat case_decide; naive_solver.
  - rewrite <-(keq_tm _ _ E'). cbn. by rewrite <-(keq_tm _ _ E).
  - intros m. rewrite <-(keq_mutexes _ _ E'). cbn. rewrite <-(keq_mutexes _ _ E).
    apply timeout_core_mutexes.
  - intros o. rewrite <-(keq_otype _ _ E'). cbn. by rewrite <-(keq_otype _ _ E), Eo.
  - exact Hcpu.
Qed.

(** C7: the timeout handler, called in the tick interrupt on a thread whose
    timer has just left the timer list, takes the thread off its waiting list,
    stores [-RT_ETIMEOUT] in it, puts it at the tail of its ready list and
    requests a switch; the invariant is kept. *)
Theorem rt_thread_timeout_wakes me cur d t s :
  0 <= me < RT_CPUS_NR -> rt_thread_self me s = Some cur -> irq_nest (cpus s me) <> 0 ->
  lock_depth me d s -> 0 <= d < 32000 -> parked_ok s -> kinv s ->
  is_thread s t -> th_stat (threads s t) = RT_THREAD_SUSPEND ->
  oncpu (threads s t) = RT_CPU_DETACHED -> ThreadTimer t ∉ timer_list (tm s) ->
  wp (rt_thread_timeout me t) (fun _ s' =>
    kinv s' /\ lock_depth me d s' /\ irq_switch_flag (cpus s' me) = 1 /\
    rt_thread_self me s' = Some cur /\
    error (threads s' t) = - RT_ETIMEOUT /\ th_stat (threads s' t) = RT_THREAD_READY /\
    forall h, lists s' h = remove_elt t (lists s h) ++
      (if decide (h = ready_head (threads s t)) then [t] else [])) s.
Proof.
  intros Hme Hcur Hirq Hd Hd0 Hp Hi Ht Hst Ho Htl.
  eapply wp_mono; [by apply (thread_timeout_steps me cur d t s)|].
  intros [] s' [[] []]. split_and!; try done.
  - by rewrite to_thread0.
  - rewrite to_thread0. by apply th_stat_put.
Qed.

(** The example, in the tick interrupt of CPU 0, with the timer of thread 5
    just taken off the timer list. *)
Definition ex_tick : kstate :=
  with_cpu 0 (set_irq_nest 1 (ex_cpus 0)) (set_tm (mkT ex_timer []) ex).
Lemma ex_tick_kinv : kinv ex_tick.
Proof.
  apply kinv_with_cpu; [done|done|]. apply kinv_tm; [exact ex_kinv| |done|].
  - split; [by apply NoDup_nil_2|]. intros t Ht. by apply not_elem_of_nil in Ht.
  - intros x Hx. by apply not_elem_of_nil in Hx.
Qed.
Lemma ex_tick_parked : parked_ok ex_tick.
Proof. intros t _ _ _. by left. Qed.

Lemma rt_thread_timeout_wakes_ex :
  wp (rt_thread_timeout 0 5) (fun _ s' =>
    kinv s' /\ lock_depth 0 0 s' /\ irq_switch_flag (cpus s' 0) = 1 /\
    rt_thread_self 0 s' = Some 1%positive /\
    error (threads s' 5%positive) = - RT_ETIMEOUT /\
    th_stat (threads s' 5%positive) = RT_THREAD_READY /\
    forall h, lists s' h = remove_elt 5%positive (lists ex_tick h) ++
      (if decide (h = Ready 8) then [5%positive] else [])) ex_tick.
Proof.
  apply (rt_thread_timeout_wakes 0 1%positive 0 5%positive ex_tick);
    [by split|done|done|by vm_compute|lia|exact ex_tick_parked|exact ex_tick_kinv|done|done|done|].
  apply not_elem_of_nil.
Defined.

(** C8: [rt_thread_exit] never returns to its caller: the thread is closed, off
    every ready and waiting list, its timer is gone; a thread allocated by
    [rt_thread_create] (or with a cleanup function) heads the defunct list, a
    static one is no kernel object any more; the best ready thread runs and the
    invariant holds with the CPU lock free. *)
Theorem rt_thread_exit_final me cur s :
  in_thread me cur s -> kinv s -> is_thread s cur ->
  th_stat (threads s cur) = RT_THREAD_RUNNING -> ~ none_ready me s ->
  wp (rt_thread_exit me) (fun r s' =>
    r = None /\ kinv s' /\ lock_depth me 0 s' /\ parked_ok s' /\
    th_stat (threads s' cur) = RT_THREAD_CLOSE /\
    ThreadTimer cur ∉ timer_list (tm s') /\
    (if rt_object_is_systemobject s (OThread cur) && (cleanup (threads s cur) =? 0)
     then ~ is_thread s' cur /\ unlinked_in s' cur
     else lists s' Defunct = cur :: lists s Defunct) /\
    exists now, rt_thread_self me s' = Some now /\ now <> cur /\
      forall t, eligible me s t ->
        current_priority (threads s' now) <= current_priority (threads s t)) s.
Proof.
  intros [Hme Hself Hd Hp Hirq Hcr] Hi Ht Hst Hn. unfold rt_thread_exit. wp_steps.
  apply (wp_ofopt _ cur); [done|].
  destruct (exited_ok s cur Hi Ht Hst) as (Hi2 & Hn2 & Es2 & Et2 & Htl2).
  pose proof (exited_place s cur Hi Ht Hst) as Hplace.
  pose proof (exited_eligible me s cur Hi Hst) as Hel.
  destruct (exited_frame s cur) as [En Eirq].
  assert (Hwp : wp (rt_thread_exit_enter (Kn := Big me) cur) (fun _ s' =>
    s' = bury_core cur (closed_core cur s) /\ no_new s s' /\
    forall c, rt_thread_self c s' = rt_thread_self c s) s).
  { apply (wp_exit_enter me s cur Hi Ht); [unfold schedulable; tauto|done]. }
  set (sb := bury_core cur (closed_core cur s)) in *. clearbody sb.
  apply wp_bind. eapply wp_mono; [eapply (lift me 0 1);
    [done|apply rt_thread_exit_enter_er; lia|done|done|exact Hwp]|].
  intros [] s1 (s0 & -> & E & D & P & Eself).
  assert (Hst2 : th_stat (threads sb cur) = RT_THREAD_CLOSE) by by rewrite Et2, upd_eq.
  eapply wp_mono.
  { apply (give_way_at 1 _ me cur sb s1); [done|by rewrite Eself|done|lia|by right|done|..];
      [| |done|done|by rewrite Hst2|].
    - by rewrite <-(keq_cpus _ _ E), Eirq.
    - by rewrite <-(keq_crit _ _ E), En.
    - rewrite none_ready_iff by (done || apply Hi2). intros Hno. apply Hn.
      rewrite none_ready_iff by (done || apply Hi). intros x Hx. by apply (Hno x), Hel. }
  intros r s' (-> & Hi' & D' & P' & Hsw).
  destruct (switched_fields me cur sb s') as (Em & Es & _ & El & now & N1 & N2 & N3);
    [by rewrite Hst2|done|].
  split_and!; try done; [by rewrite Es|by rewrite Em| |].
  - unfold is_thread, rt_object_get_type in *. rewrite (switched_otype _ _ _ _ Hsw).
    rewrite (switched_lists _ _ _ _ Defunct (ki_wf _ Hi2) Hsw eq_refl).
    case_match; [|done]. destruct Hplace as [H1 H2]. split; [done|].
    intros h Hin. apply (H2 h). by apply El.
  - exists now. split_and!; [done|done|]. intros x Hx. apply Hel in Hx.
    specialize (N3 x Hx). rewrite Et2 in N3. apply Hel in Hx.
    destruct (decide (cur = x)) as [<-|?]; [|by rewrite upd_ne in N3].
    destruct Hx as (q & _ & [Hin|Hin]); by apply running_unlinked in Hin; [|apply Hi|].
Qed.

Lemma rt_thread_exit_final_ex :
  wp (rt_thread_exit 0) (fun r s' =>
    r = None /\ kinv s' /\ lock_depth 0 0 s' /\ parked_ok s' /\
    th_stat (threads s' 1%positive) = RT_THREAD_CLOSE /\
    ThreadTimer 1 ∉ timer_list (tm s') /\
    (if rt_object_is_systemobject ex (OThread 1) && (cleanup (threads ex 1%positive) =? 0)
     then ~ is_thread s' 1%positive /\ unlinked_in s' 1%positive
     else lists s' Defunct = 1%positive :: lists ex Defunct) /\
    exists now, rt_thread_self 0 s' = Some now /\ now <> 1%positive /\
      forall t, eligible 0 ex t ->
        current_priority (threads s' now) <= current_priority (threads ex t)) ex.
Proof.
  apply (rt_thread_exit_final 0 1%positive ex ex_in_thread ex_kinv); [done|done|].
  exact ex_some_ready.
Defined.

Lemma runs_best_keq me s0 s s' : keq s0 s -> runs_best me s s' -> runs_best me s0 s'.
Proof.
  intros E (now & H1 & H2 & H3 & H4). exists now. split_and!; try done.
  intros t (q & Hq & Hin). rewrite (keq_threads _ _ E). apply H4. exists q.
  by rewrite <-!(keq_lists _ _ E).
Qed.

(** [rt_thread_startup] of an initialised thread gives it its initial
    priority and the bit of that priority as mask, makes it ready, and leaves
    running the best thread, the new one included; the invariant holds and the
    CPU lock is free. *)
Theorem rt_thread_startup_starts me cur t s :
  in_thread me cur s -> kinv s -> th_stat (threads s cur) = RT_THREAD_RUNNING ->
  fresh s t ->
  wp (rt_thread_startup me t) (fun r s' =>
    r = RT_EOK /\ kinv s' /\ lock_depth me 0 s' /\ parked_ok s' /\
    runs_best me (resume_core me t (with_thread t (started (threads s t)) s)) s' /\
    (th_stat (threads s' t) = RT_THREAD_READY \/ rt_thread_self me s' = Some t) /\
    current_priority (threads s' t) = init_priority (threads s t) /\
    number_mask (threads s' t) = 2 ^ init_priority (threads s t)) s.
Proof.
  intros [Hme Hself Hd Hp Hirq Hcr] Hi Hst Hf. unfold rt_thread_startup.
  destruct (started_ok s t Hi Hf) as [Hi1 Hn1].
  set (s1 := with_thread t (started (threads s t)) s) in *.
  assert (Hs1 : threads s1 t = started (threads s t)) by (cbn; by rewrite upd_eq).
  assert (Hst1 : th_stat (threads s1 t) = RT_THREAD_SUSPEND) by by rewrite Hs1.
  destruct (resume_core_ok me s1 t Hi1 (fr_thread _ _ Hf) Hst1) as [Hi2 Hn2].
  destruct (resume_core_fields me s1 t) as (Eo2 & Es2 & Et2 & El2 & _).
  assert (Hfr2 : nests (resume_core me t s1) = nests s /\
    irq_nest (cpus (resume_core me t s1) me) = irq_nest (cpus s me)).
  { unfold resume_core.
    split; [exact (proj1 (proj2 (insert_core_frame me t (stop_thread_timer t (unlinked t s1)))))|].
    apply (insert_core_cpu me t (stop_thread_timer t (unlinked t s1))). }
  assert (Hcur : cur <> t).
  { intros ->. pose proof (fr_stat _ _ Hf) as F. by rewrite F in Hst. }
  assert (Hwake : wake_stat (threads s1 t) = RT_THREAD_READY).
  { rewrite Hs1. unfold wake_stat. cbn. by rewrite (fr_oncpu _ _ Hf). }
  set (s2 := resume_core me t s1) in *. rewrite Hwake, Hs1 in Et2.
  apply wp_bind. eapply wp_mono; [eapply (lift me 0 0) with (Q := fun _ s' => keq s2 s');
    [done|apply rt_thread_startup_enter_er; lia|done|done|]|].
  { apply (wp_startup_enter me s t Hi Hf). intros s' E. fold s1 s2 in E. split; [done|].
    assert (Es' : forall c, rt_thread_self c s' = rt_thread_self c s).
    { intros c. by rewrite (keq_self _ _ c E), Es2. }
    split; [|done]. etrans; [exact Hn1|]. etrans; [exact Hn2|]. intros x.
    by rewrite <-(keq_is_thread _ _ x E), <-(keq_threads _ _ E). }
  intros [] s3 (s0 & E0 & E & D & P & Eself). assert (E3 : keq s2 s3) by by etrans.
  assert (Hi3 : kinv s3) by by rewrite <-E3. destruct (id Hi3) as [Hk3 Hr3 _ _].
  assert (C3 : rt_thread_self me s3 = Some cur) by by rewrite Eself.
  assert (Hst3 : th_stat (threads s3 cur) = RT_THREAD_RUNNING).
  { rewrite <-(keq_threads _ _ E3), Et2, upd_ne by done. cbn. by rewrite upd_ne. }
  wp_steps. rewrite C3, bool_decide_true by by eexists. wp_steps.
  eapply wp_mono; [apply (rt_schedule_spec me cur s3 Hk3 Hr3 Hme C3 0); [exact D|lia|by left|exact P|..]|].
  { by rewrite <-(keq_crit _ _ E3), (proj1 Hfr2). }
  { by rewrite <-(keq_cpus _ _ E3), (proj2 Hfr2). }
  intros [] s' (P' & O & D'). wp_steps.
  pose proof (sched_outcome_best me cur s3 s' Hk3 Hr3 Hme C3 (or_introl Hst3) O) as Hbest.
  split_and!; [done|by eapply sched_outcome_kinv|by destruct D' as [?|[_ ?]]|done| |..].
  - by eapply runs_best_keq.
  - destruct O as [[_ E']|(to & p & Hb & [[_ E']|[_ E']])].
    + left. rewrite <-(keq_threads _ _ E'), <-(keq_threads _ _ E3), Et2, upd_eq.
      by apply th_stat_put.
    + left. rewrite <-(keq_threads _ _ E'), <-(keq_threads _ _ E3), Et2, upd_eq.
      by apply th_stat_put.
    + destruct (run_core_fields me to p (release_core me cur s3)) as (_ & _ & Esf & _ & Eoth).
      destruct (decide (t = to)) as [<-|Hto].
      * right. rewrite (keq_self _ _ me E'). unfold switch_core. by rewrite Esf, decide_True.
      * left. rewrite <-(keq_threads _ _ E'). unfold switch_core.
        rewrite Eoth, release_core_other, <-(keq_threads _ _ E3), Et2, upd_eq by done.
        by apply th_stat_put.
  - rewrite (proj1 (sched_outcome_prio me cur s3 s' t O)), <-(keq_threads _ _ E3), Et2, upd_eq.
    done.
  - rewrite (proj2 (sched_outcome_prio me cur s3 s' t O)), <-(keq_threads _ _ E3), Et2, upd_eq.
    done.
Qed.

Lemma ex_fresh : fresh ex 6%positive.
Proof.
  split; [done|done|by split|by split|done| |].
  - intros h Hin. apply ex_lists_in in Hin. naive_solver.
  - intros Hin. by apply list_elem_of_singleton in Hin.
Qed.
Lemma rt_thread_startup_starts_ex :
  wp (rt_thread_startup 0 6) (fun r s' =>
    r = RT_EOK /\ kinv s' /\ lock_depth 0 0 s' /\ parked_ok s' /\
    runs_best 0 (resume_core 0 6 (with_thread 6 (started (threads ex 6%positive)) ex)) s' /\
    (th_stat (threads s' 6%positive) = RT_THREAD_READY \/
     rt_thread_self 0 s' = Some 6%positive) /\
    current_priority (threads s' 6%positive) = 7 /\
    number_mask (threads s' 6%positive) = 2 ^ 7) ex.
Proof.
  apply (rt_thread_startup_starts 0 1%positive 6%positive ex ex_in_thread ex_kinv);
    [done|exact ex_fresh].
Defined.

(** C9: changing the priority of a live thread to a valid one keeps the
    invariant; a ready thread moves to the tail of the list of its new
    priority, and the mask is the bit of the new priority.  (The code checks
    neither the bound nor a waiting thread's place in a priority queue.) *)
Theorem rt_thread_change_priority_moves me d t arg s :
  0 <= me < RT_CPUS_NR -> lock_depth me d s -> 0 <= d < 32000 -> parked_ok s -> kinv s ->
  is_thread s t -> th_stat (threads s t) <> RT_THREAD_CLOSE ->
  0 <= bind_cpu (threads s t) <= RT_CPUS_NR -> 0 <= arg < RT_THREAD_PRIORITY_MAX ->
  wp (rt_thread_control me t RT_THREAD_CTRL_CHANGE_PRIORITY arg) (fun r s' =>
    r = RT_EOK /\ kinv s' /\ lock_depth me d s' /\ parked_ok s' /\
    current_priority (threads s' t) = arg /\ number_mask (threads s' t) = 2 ^ arg /\
    th_stat (threads s' t) = th_stat (threads s t) /\
    (th_stat (threads s t) = RT_THREAD_READY -> forall h,
      lists s' h = remove_elt t (lists s h) ++
        (if decide (h = ready_head (set_current_priority arg (threads s t))) then [t] else []))) s.
Proof.
  intros Hme Hd Hd0 Hp Hi Ht Hst Hb Harg. unfold RT_THREAD_PRIORITY_MAX in Harg.
  assert (Eu : u8 arg = arg) by (apply u8_small; lia).
  destruct (change_core_ok me s t arg Hi Ht Harg Hst Hb) as (Hi1 & Hn1 & Et1).
  unfold rt_thread_control. apply wp_bind, wp_assert_type; [done|].
  cbn [Z.eqb Pos.eqb RT_THREAD_CTRL_CHANGE_PRIORITY]. wp_steps.
  eapply wp_mono; [eapply (lift me d d) with (Q := fun _ s' => s' = change_core me s t arg);
    [done|apply rt_thread_change_priority_er; lia|done|done|]|].
  { apply wp_change_priority; [done|rewrite Eu; lia|]. rewrite Eu. split; [done|].
    split; [done|]. intros c. unfold change_core. case_match; [|done].
    rewrite (proj1 (insert_core_frame _ _ _)). apply (remove_core_frame t s). }
  intros [] s' (s0 & -> & E & D & P & _). wp_steps.
  rewrite <-(keq_threads _ _ E), Et1, put_priority_eq by done.
  split_and!; [done|by rewrite <-E|done|done|by case_match|by case_match| |].
  - case_match eqn:Er; [|done]. apply Z.eqb_eq in Er. rewrite Er. by apply th_stat_put.
  - intros Er h. rewrite <-(keq_lists _ _ E). unfold change_core.
    rewrite Er, Z.eqb_refl, put_priority_eq by done.
    match goal with |- lists (insert_core _ _ ?x) _ = _ =>
      destruct (insert_core_fields me t x) as (_ & _ & _ & _ & ->) end.
    cbn [with_thread lists threads set_threads]. rewrite upd_eq, remove_core_lists. f_equal.
    cbn [oncpu set_number_mask set_current_priority].
    rewrite (ready_oncpu s t (ki_wf _ Hi) Ht Er).
    change (ready_head (set_number_mask (2 ^ arg) (set_current_priority arg (threads s t))))
      with (ready_head (set_current_priority arg (threads s t))).
    repeat case_decide; naive_solver.
Qed.

Lemma rt_thread_change_priority_moves_ex :
  wp (rt_thread_control 0 4 RT_THREAD_CTRL_CHANGE_PRIORITY 3) (fun r s' =>
    r = RT_EOK /\ kinv s' /\ lock_depth 0 0 s' /\ parked_ok s' /\
    current_priority (threads s' 4%positive) = 3 /\ number_mask (threads s' 4%positive) = 2 ^ 3 /\
    th_stat (threads s' 4%positive) = RT_THREAD_READY /\
    (th_stat (threads ex 4%positive) = RT_THREAD_READY -> forall h,
      lists s' h = remove_elt 4%positive (lists ex h) ++
        (if decide (h = CpuReady 0 3) then [4%positive] else []))) ex.
Proof.
  apply (rt_thread_change_priority_moves 0 0 4%positive 3 ex); [by split|exact (ex_depth 0)|lia|
    exact ex_parked|exact ex_kinv|done|done|by split|by split].
Defined.

(** A conversion of [ms] milliseconds gives the same number of ticks (the
    tick rate is 1000 Hz) without overflow, and a negative argument the
    "forever" value [2^32 - 1], which [rt_timer_start] rejects. *)
Theorem rt_tick_from_millisecond_spec ms :
  - 2 ^ 31 <= ms < 2 ^ 31 ->
  rt_tick_from_millisecond ms = (if ms <? 0 then 2 ^ 32 - 1 else ms) /\
  (ms < 0 -> RT_TICK_MAX / 2 <= rt_tick_from_millisecond ms).
Proof.
  intros Hms. change (2 ^ 31) with 2147483648 in Hms.
  assert (E : rt_tick_from_millisecond ms = (if ms <? 0 then 2 ^ 32 - 1 else ms)).
  { unfold rt_tick_from_millisecond, RT_TICK_PER_SECOND, RT_WAITING_FOREVER.
    destruct (Z.ltb_spec ms 0); [done|]. wraps.
    assert (H1 : (1000 * (ms mod 1000) + 999) / 1000 = ms mod 1000) by zmod.
    rewrite H1. rewrite Zplus_mod_idemp_l. rewrite <-(Z.div_mod ms 1000) by lia.
    apply Z.mod_small. lia. }
  split; [done|]. intros Hn. rewrite E. apply Z.ltb_lt in Hn. rewrite Hn. by vm_compute.
Qed.

Lemma rt_tick_from_millisecond_spec_ex :
  rt_tick_from_millisecond 1500 = 1500 /\
  (1500 < 0 -> RT_TICK_MAX / 2 <= rt_tick_from_millisecond 1500).
Proof. apply (rt_tick_from_millisecond_spec 1500). by split. Defined.
