(* ===== verification/Ipc.v ===== *)
(** The common part of the IPC objects ([rt-thread/src/ipc.c]): waiting lists,
    suspension on a list, resumption of the first or of all waiters, and the
    way a blocking operation gives up the CPU and continues. *)
From S2P Require Import Prelude KService Timer KState KInv Sched Kernel KTimer Object Thread.

(** * Waiting lists *)
Definition rt_ipc_object_init (ipc : oid) : K unit := init_list (Suspend ipc).

(** The search of [rt_ipc_list_suspend] for [RT_IPC_FLAG_PRIO]: in front of the
    first waiter of lower priority, or at the end. *)
Fixpoint prio_insert (th : tid -> thread) (thread : tid) (l : list tid) : list tid :=
  match l with
  | [] => [thread]
  | sthread :: l' =>
      if current_priority (th thread) <? current_priority (th sthread)
      then thread :: sthread :: l'
      else sthread :: prio_insert th thread l'
  end.

Definition list_insert_prio (h : lhead) (t : tid) : K unit :=
  modify (fun s => set_lists (upd (lists s) h (prio_insert (threads s) t (lists s h))) s).

(** How a blocking operation goes on after its critical section: return a
    result, reschedule and return it, or reschedule and wait for the CPU. *)
Inductive flow (A B : Type) :=
  | Return (r : A)
  | Resched (r : A)
  | Blocked (thread : tid) (b : B).
Arguments Return {A B} r.
Arguments Resched {A B} r.
Arguments Blocked {A B} thread b.

Section ops.
Context {Kn : Kernel}.

Definition rt_ipc_list_suspend (list : lhead) (thread : tid) (flag : Z) : K unit :=
  rt_thread_suspend thread;;
  if flag =? RT_IPC_FLAG_FIFO then list_insert_before list thread
  else if flag =? RT_IPC_FLAG_PRIO then list_insert_prio list thread
  else mret tt.

Definition rt_ipc_list_resume (list : lhead) : K unit :=
  s ← get;
  thread ← ofopt (head (lists s list));
  rt_thread_resume thread;;
  mret tt.

(** The loop ends when the list is empty; it does not when a thread of the
    list cannot be resumed, so the rounds are bounded by [fuel]. *)
Fixpoint resume_all_loop (fuel : nat) (list : lhead) : K unit :=
  s ← get;
  match lists s list with
  | [] => mret tt
  | thread :: _ =>
      match fuel with
      | O => fail
      | S fuel =>
          interrupt_disable;;
          thread_upd thread (set_error (- RT_ERROR));;
          rt_thread_resume thread;;
          interrupt_enable;;
          resume_all_loop fuel list
      end
  end.
Definition rt_ipc_list_resume_all (list : lhead) : K unit :=
  s ← get; resume_all_loop (length (lists s list)) list.

(** The timer of a thread that waits no longer than [time]. *)
Definition start_wait_timer (thread : tid) (time : Z) : K unit :=
  when (0 <? time)
    (rt_timer_control (ThreadTimer thread) RT_TIMER_CTRL_SET_TIME time;;
     rt_timer_start (ThreadTimer thread);;
     mret tt).
End ops.

(** [timeout -= rt_tick_get() - tick_delta; if (timeout < 0) timeout = 0], for
    a timeout that is not "forever". *)
Definition time_left (timeout start now : Z) : Z :=
  if 0 <? timeout then
    let timeout' := i32 (timeout - u32 (now - start)) in
    if timeout' <? 0 then 0 else timeout'
  else timeout.

(** Run the rest of an operation, on CPU [me]: [resumed] is the code after
    [rt_schedule], which the thread runs when it has the CPU again; the result
    is [None] when it has lost the CPU.  A thread that goes on without having
    lost the CPU may come to wait again, at most [fuel] times. *)
Fixpoint run_flow {A B} (me : Z) (resumed : tid -> B -> K (flow A B)) (fuel : nat)
    (o : flow A B) : K (option A) :=
  match o with
  | Return r => mret (Some r)
  | Resched r => rt_schedule me;; mret (Some r)
  | Blocked thread b =>
      rt_schedule me;;
      s ← get;
      if decide (rt_thread_self me s = Some thread) then
        match fuel with
        | O => fail
        | S fuel => o ← resumed thread b; run_flow me resumed fuel o
        end
      else mret None
  end.

(** * Erasure *)
Section erase.
Context (me d : Z) (Hd : 0 <= d < 32700).

Lemma rt_ipc_list_suspend_er h t f :
  erases me d d (rt_ipc_list_suspend (Kn := Smp me) h t f)
    (rt_ipc_list_suspend (Kn := Big me) h t f).
Proof using Hd. unfold rt_ipc_list_suspend, list_insert_before, list_insert_prio. er. Qed.

Lemma rt_ipc_list_resume_er h :
  erases me d d (rt_ipc_list_resume (Kn := Smp me) h) (rt_ipc_list_resume (Kn := Big me) h).
Proof using Hd. unfold rt_ipc_list_resume. er. Qed.

Lemma start_wait_timer_er t time :
  erases me d d (start_wait_timer (Kn := Smp me) t time)
    (start_wait_timer (Kn := Big me) t time).
Proof using Hd. unfold start_wait_timer. er. Qed.

Lemma resume_all_loop_er fuel h :
  erases me d d (resume_all_loop (Kn := Smp me) fuel h)
    (resume_all_loop (Kn := Big me) fuel h).
Proof using Hd.
  induction fuel as [|fuel IH]; cbn; (apply er_get; intros s n b; cbv beta zeta; cbn);
    destruct (lists s h); er; apply er_fail.
Qed.
Hint Resolve resume_all_loop_er : er.

Lemma rt_ipc_list_resume_all_er h :
  erases me d d (rt_ipc_list_resume_all (Kn := Smp me) h)
    (rt_ipc_list_resume_all (Kn := Big me) h).
Proof using Hd. unfold rt_ipc_list_resume_all. er. Qed.

Lemma in_thread_context_er :
  erases me d d (RT_DEBUG_IN_THREAD_CONTEXT me) (RT_DEBUG_IN_THREAD_CONTEXT me).
Proof using. clear Hd. unfold RT_DEBUG_IN_THREAD_CONTEXT, RT_DEBUG_NOT_IN_INTERRUPT. er. Qed.
Lemma not_in_interrupt_er :
  erases me d d (RT_DEBUG_NOT_IN_INTERRUPT me) (RT_DEBUG_NOT_IN_INTERRUPT me).
Proof using. clear Hd. unfold RT_DEBUG_NOT_IN_INTERRUPT. er. Qed.
End erase.
#[export] Hint Resolve rt_ipc_list_suspend_er rt_ipc_list_resume_er start_wait_timer_er
  rt_ipc_list_resume_all_er in_thread_context_er not_in_interrupt_er : er.
