(* ===== verification/IpcSpec.v ===== *)
(** What the waiting lists of the IPC objects do on the abstract kernel, and
    how a blocking call leaves the CPU. *)
From S2P Require Import Prelude KService Timer KState KInv Sched Kernel KTimer Object Thread ThreadSpec Ipc.

(** * The order of a waiting list *)
Definition enqueue (flag : Z) (th : tid -> thread) (t : tid) (l : list tid) : list tid :=
  if flag =? RT_IPC_FLAG_FIFO then l ++ [t]
  else if flag =? RT_IPC_FLAG_PRIO then prio_insert th t l
  else l.

Definition ipc_flag_ok (flag : Z) : Prop := flag = RT_IPC_FLAG_FIFO \/ flag = RT_IPC_FLAG_PRIO.

(** The waiters in front have at least the priority of [t]; the one behind
    it, if any, has a lower one. *)
Lemma prio_insert_split th t l : exists l1 l2,
  l = l1 ++ l2 /\ prio_insert th t l = l1 ++ t :: l2 /\
  Forall (fun x => current_priority (th x) <= current_priority (th t)) l1 /\
  match l2 with x :: _ => current_priority (th t) < current_priority (th x) | [] => True end.
Proof.
  induction l as [|x l (l1 & l2 & -> & E & H1 & H2)]; cbn.
  - by exists [], [].
  - destruct (Z.ltb_spec (current_priority (th t)) (current_priority (th x))).
    + by exists [], (x :: l1 ++ l2).
    + exists (x :: l1), l2. cbn. rewrite E. split_and!; [done..| |done]. by constructor.
Qed.

Lemma prio_insert_ext th th' t l :
  (forall x, current_priority (th x) = current_priority (th' x)) ->
  prio_insert th t l = prio_insert th' t l.
Proof. intros E. induction l as [|x l IH]; cbn; [done|]. by rewrite !E, IH. Qed.

Definition by_priority (th : tid -> thread) (x y : tid) : Prop :=
  current_priority (th x) <= current_priority (th y).

Lemma prio_insert_sorted th t l :
  StronglySorted (by_priority th) l -> StronglySorted (by_priority th) (prio_insert th t l).
Proof.
  induction 1 as [|x l H IH Hall]; cbn; [by repeat constructor|].
  destruct (Z.ltb_spec (current_priority (th t)) (current_priority (th x))).
  - constructor; [by constructor|]. constructor; [unfold by_priority; lia|].
    rewrite Forall_forall in Hall |- *. unfold by_priority in *. intros y Hy.
    specialize (Hall y Hy). lia.
  - constructor; [done|]. destruct (prio_insert_split th t l) as (l1 & l2 & -> & -> & _).
    rewrite Forall_forall in Hall |- *. intros y Hy.
    apply elem_of_app in Hy as [Hy|[-> |Hy]%elem_of_cons]; [|unfold by_priority; lia|];
      apply Hall; set_solver.
Qed.

Lemma enqueue_split flag th t l : ipc_flag_ok flag ->
  exists l1 l2, l = l1 ++ l2 /\ enqueue flag th t l = l1 ++ t :: l2.
Proof.
  intros [-> | ->]; cbn.
  - exists l, []. by rewrite app_nil_r.
  - destruct (prio_insert_split th t l) as (l1 & l2 & E1 & E2 & _). eauto.
Qed.

Lemma enqueue_ext flag th th' t l :
  (forall x, current_priority (th x) = current_priority (th' x)) ->
  enqueue flag th t l = enqueue flag th' t l.
Proof. intros E. unfold enqueue. by rewrite (prio_insert_ext th th'). Qed.

(** * The IPC objects are left alone *)
Record same_objs (s s' : kstate) : Prop := {
  so_sems : forall o, sems s' o = sems s o;
  so_mutexes : forall o, mutexes s' o = mutexes s o;
  so_events : forall o, events s' o = events s o;
  so_mailboxes : forall o, mailboxes s' o = mailboxes s o;
  so_mqs : forall o, mqs s' o = mqs s o }.

#[export] Instance same_objs_preorder : PreOrder same_objs.
Proof.
  split; [by intros s; split|]. intros s1 s2 s3 [] []. split; intros; etrans; eauto.
Qed.
Lemma keq_objs s s' : keq s s' -> same_objs s s'.
Proof. intros []. by split. Qed.
Lemma remove_core_objs t s : same_objs s (remove_core t s).
Proof. unfold remove_core. repeat case_match; by split. Qed.
Lemma insert_core_objs me t s : same_objs s (insert_core me t s).
Proof. unfold insert_core. repeat case_match; by split. Qed.
Lemma suspend_core_objs t s : same_objs s (suspend_core t s).
Proof. unfold suspend_core. etrans; [apply (remove_core_objs t s)|by split]. Qed.
Lemma resume_core_objs me t s : same_objs s (resume_core me t s).
Proof. unfold resume_core. etrans; [|apply insert_core_objs]. by split. Qed.
Lemma switch_core_objs me cur to p s : same_objs s (switch_core me cur to p s).
Proof.
  unfold switch_core, run_core, release_core.
  etrans; [|etrans; [apply remove_core_objs|by split]].
  case_match; [|by split]. etrans; [|apply insert_core_objs]. by split.
Qed.

Lemma switched_objs me cur s s' : switched me cur s s' -> same_objs s s'.
Proof.
  intros (to & p & _ & _ & E & _). etrans; [apply switch_core_objs|by apply keq_objs].
Qed.

(** A thread as [rt_schedule] may leave it: only its status and its CPU are
    other ones, and it can still be scheduled. *)
Definition moved (th th' : thread) : Prop :=
  th' = set_stat (stat th') (set_oncpu (oncpu th') th) /\ (schedulable th -> schedulable th').
#[export] Instance moved_preorder : PreOrder moved.
Proof.
  split; [intros []; by split|]. intros [] [] [] [E1 H1] [E2 H2]. split; [|tauto].
  unfold set_stat, set_oncpu in *. cbn in *. congruence.
Qed.

Lemma insert_core_moved me t s x : moved (threads s x) (threads (insert_core me t s) x).
Proof.
  destruct (insert_core_fields me t s) as (_ & _ & _ & -> & _).
  destruct (decide (t = x)) as [<-|?]; [rewrite upd_eq|by rewrite upd_ne].
  split; [by destruct (threads s t)|]. intros _. unfold schedulable. rewrite wake_stat_put.
  unfold wake_stat. case_match; tauto.
Qed.

Lemma switch_core_moved me cur to p s x :
  moved (threads s x) (threads (switch_core me cur to p s) x).
Proof.
  unfold switch_core. set (sr := release_core me cur s).
  assert (H : moved (threads s x) (threads sr x)).
  { unfold sr, release_core. case_match eqn:Est.
    - etrans; [|apply insert_core_moved]. cbn.
      destruct (decide (cur = x)) as [<-|?]; [rewrite upd_eq|by rewrite upd_ne].
      split; [by destruct (threads s cur)|]. intros _. apply Z.eqb_eq in Est.
      change (th_stat (threads s cur) = RT_THREAD_RUNNING) in Est.
      right; right. etrans; [|exact Est].
      exact (th_stat_clear_yield (set_oncpu RT_CPU_DETACHED (threads s cur))).
    - cbn. destruct (decide (cur = x)) as [<-|?]; [rewrite upd_eq|by rewrite upd_ne].
      split; [by destruct (threads s cur)|done]. }
  etrans; [exact H|]. clearbody sr. unfold run_core. cbn. rewrite remove_core_threads.
  destruct (decide (to = x)) as [<-|?]; [rewrite upd_eq|by rewrite upd_ne].
  split; [by destruct (threads sr to)|]. intros _. unfold schedulable.
  rewrite th_stat_put; [tauto|]. unfold RT_THREAD_RUNNING. lia.
Qed.

Lemma switched_moved me cur s s' x : switched me cur s s' -> moved (threads s x) (threads s' x).
Proof.
  intros (to & p & _ & _ & E & _). rewrite <-(keq_threads _ _ E). apply switch_core_moved.
Qed.

Lemma schedule_effect_moved me cur s s' x :
  schedule_effect me cur s s' -> moved (threads s x) (threads s' x).
Proof.
  unfold schedule_effect. case_match; [intros E; by rewrite <-(keq_threads _ _ E)|].
  case_match; [intros E; by rewrite <-(keq_threads _ _ E)|].
  intros [[_ E]|(to & p & _ & [[_ E]|[_ E]])]; rewrite <-(keq_threads _ _ E); [done..|].
  apply switch_core_moved.
Qed.

(** What [rt_schedule] leaves alone in any context. *)
Lemma schedule_effect_frame me cur s s' :
  kinv s -> 0 <= me < RT_CPUS_NR -> schedule_effect me cur s s' ->
  same_objs s s' /\ tm s' = tm s /\
  forall h, is_ready_head h = false -> lists s' h = lists s h.
Proof.
  intros Hi Hme. unfold schedule_effect.
  assert (Hq : forall s1, same_objs s s1 -> tm s1 = tm s -> (forall h, lists s1 h = lists s h) ->
    keq s1 s' -> same_objs s s' /\ tm s' = tm s /\
    forall h, is_ready_head h = false -> lists s' h = lists s h).
  { intros s1 O T L E. split_and!.
    - etrans; [done|by apply keq_objs].
    - by rewrite <-(keq_tm _ _ E).
    - intros h _. by rewrite <-(keq_lists _ _ E). }
  case_match; [by apply (Hq (with_cpu me (set_irq_switch_flag 1 (cpus s me)) s))|].
  case_match; [by apply Hq|].
  intros [[_ E]|(to & p & Hb & [[_ E]|[_ E]])]; [by apply (Hq s)..|].
  split_and!.
  - etrans; [apply switch_core_objs|by apply keq_objs].
  - rewrite <-(keq_tm _ _ E). unfold switch_core.
    destruct (run_core_fields me to p (release_core me cur s)) as (_ & -> & _).
    by rewrite release_core_tm.
  - intros h Hh. rewrite <-(keq_lists _ _ E). apply switch_core_lists; [|apply Hb|done].
    apply Hi.
Qed.

Lemma schedule_effect_otype me cur s s' :
  schedule_effect me cur s s' -> forall o, otype s' o = otype s o.
Proof.
  unfold schedule_effect. intros H o. revert H.
  case_match; [intros E; by rewrite <-(keq_otype _ _ E)|].
  case_match; [intros E; by rewrite <-(keq_otype _ _ E)|].
  intros [[_ E]|(to & p & _ & [[_ E]|[_ E]])]; rewrite <-(keq_otype _ _ E); [done..|].
  unfold switch_core. destruct (run_core_fields me to p (release_core me cur s)) as (-> & _).
  by rewrite release_core_otype.
Qed.

(** * Suspension on a waiting list *)
Definition is_wait_head (h : lhead) : bool :=
  match h with Suspend _ | Sender _ => true | _ => false end.

Definition queued (flag : Z) (h : lhead) (t : tid) (s : kstate) : kstate :=
  with_list h (enqueue flag (threads s) t (lists s h)) s.
Definition block_core (flag : Z) (h : lhead) (t : tid) (s : kstate) : kstate :=
  queued flag h t (suspend_core t s).

Section block.
Context (me : Z) (s : kstate) (t : tid) (Hi : kinv s) (Ht : is_thread s t).
Context (Hrun : th_stat (threads s t) = RT_THREAD_RUNNING).
Context (h : lhead) (flag : Z) (Hh : is_wait_head h = true) (Hflag : ipc_flag_ok flag).

Lemma suspend_core_prio x :
  current_priority (threads (suspend_core t s) x) = current_priority (threads s x).
Proof using.
  destruct (suspend_core_fields s t) as (_ & _ & _ & -> & _).
  destruct (decide (t = x)) as [<-|?]; by rewrite ?upd_eq, ?upd_ne by done.
Qed.

Lemma block_core_lists x :
  lists (block_core flag h t s) x =
    if decide (h = x) then enqueue flag (threads s) t (lists s h) else lists s x.
Proof using Hi Hrun.
  clear Hh Hflag. destruct (suspend_core_fields s t) as (_ & _ & El & _).
  assert (Hn : forall y, remove_elt t (lists s y) = lists s y).
  { intros y. apply remove_elt_notin. by apply running_unlinked; [apply Hi|]. }
  pose proof suspend_core_prio as Hp. unfold block_core, queued.
  set (sc := suspend_core t s) in *. clearbody sc.
  cbn. unfold upd. case_decide as E; rewrite El, Hn; [|done]. by apply enqueue_ext.
Qed.

Lemma block_core_ok :
  kinv (block_core flag h t s) /\ no_new s (block_core flag h t s) /\
  ThreadTimer t ∉ timer_list (tm (block_core flag h t s)).
Proof using Hi Ht Hrun Hh Hflag.
  destruct (suspend_core_ok s t Hi Ht (or_intror Hrun)) as (Hi1 & Hu & Htl & Hnn).
  destruct (suspend_core_fields s t) as (Eo & _ & _ & Et & _).
  assert (Ht1 : is_thread (suspend_core t s) t)
    by (unfold is_thread, rt_object_get_type; by rewrite Eo).
  assert (Hst1 : th_stat (threads (suspend_core t s) t) = RT_THREAD_SUSPEND).
  { rewrite Et, upd_eq, th_stat_put; [done|]. unfold RT_THREAD_SUSPEND. lia. }
  split_and!; [|done|done].
  unfold block_core. set (s1 := suspend_core t s) in *. clearbody s1.
  destruct (enqueue_split flag (threads s1) t (lists s1 h) Hflag) as (l1 & l2 & E1 & E2).
  apply (kinv_thread s1 t Hi1 Ht1 _ (threads s1 t)); try done; try (by rewrite Hst1).
  - apply (kwf_link s1 _ t (threads s1 t) h l1 l2); try done; [apply Hi1|..].
    + intros Hs. by apply (kw_prio _ (ki_wf _ Hi1) t Ht1).
    + by destruct h.
    + cbn. by rewrite upd_eq, E2.
    + intros x Hx. cbn. by rewrite upd_ne.
    + intros x. cbn. unfold upd. case_decide; by subst.
    + by destruct h.
    + intros c. by destruct h.
  - apply Hi1.
  - intros x. cbn. unfold upd. case_decide; by subst.
Qed.

Lemma wp_ipc_list_suspend (Q : unit -> kstate -> Prop) :
  rt_thread_self me s = Some t -> Q tt (block_core flag h t s) ->
  wp (rt_ipc_list_suspend (Kn := Big me) h t flag) Q s.
Proof using Hi Ht Hrun Hflag.
  intros Hself HQ. unfold rt_ipc_list_suspend.
  apply wp_bind, (wp_suspend me s t Hi Ht); [by right|].
  destruct Hflag as [-> | ->]; cbn; exact HQ.
Qed.
End block.

(** * A blocking call *)

(** The state in which a blocking call on [h] with [time] leaves [s], before
    it calls [rt_schedule]. *)
Record blocked_at (t : tid) (flag : Z) (h : lhead) (time : Z) (s s' : kstate) : Prop := {
  ba_kinv : kinv s';
  ba_new : no_new s s';
  ba_state : s' = set_tm (tm s') (block_core flag h t s);
  ba_timer : if 0 <? time then
      ThreadTimer t ∈ timer_list (tm s') /\
      timeout_tick (timers (tm s') (ThreadTimer t)) = u32 (rt_tick_get s + time)
    else ThreadTimer t ∉ timer_list (tm s');
  ba_others : forall x, x <> ThreadTimer t ->
    timers (tm s') x = timers (tm s) x /\
    (x ∈ timer_list (tm s') <-> x ∈ timer_list (tm s)) }.

Section blocking.
Context (me : Z) (s : kstate) (t : tid) (Hi : kinv s) (Ht : is_thread s t).
Context (Hrun : th_stat (threads s t) = RT_THREAD_RUNNING).
Context (h : lhead) (flag : Z) (Hh : is_wait_head h = true) (Hflag : ipc_flag_ok flag).
Context (Hself : rt_thread_self me s = Some t).
Context (time : Z) (Htime : time < RT_TICK_MAX / 2).

Lemma block_core_tm : tm (block_core flag h t s) = stop_core (ThreadTimer t) (tm s).
Proof using. exact (proj2 (proj2 (proj2 (proj2 (suspend_core_fields s t))))). Qed.

Lemma block_core_tick : rt_tick_get (block_core flag h t s) = rt_tick_get s.
Proof using. apply (remove_core_cpu t s 0). Qed.

Lemma wp_block B (k : K B) Q :
  (forall s', blocked_at t flag h time s s' -> wp k Q s') ->
  wp (rt_ipc_list_suspend (Kn := Big me) h t flag)
    (fun _ => wp (start_wait_timer (Kn := Big me) t time;; k) Q) s.
Proof using All.
  intros HQ. apply (wp_ipc_list_suspend me s t Hi Ht Hrun h flag Hflag); [done|].
  destruct (block_core_ok s t Hi Ht Hrun h flag Hh Hflag) as (Hi1 & Hn1 & Htl1).
  assert (Hoth : forall x, x <> ThreadTimer t ->
    timers (tm (block_core flag h t s)) x = timers (tm s) x /\
    (x ∈ timer_list (tm (block_core flag h t s)) <-> x ∈ timer_list (tm s))).
  { intros x Hx. rewrite block_core_tm, stop_core_other by done. split; [done|].
    rewrite stop_core_list, elem_of_remove_elt by apply Hi. naive_solver. }
  unfold start_wait_timer. destruct (Z.ltb_spec 0 time) as [Hpos|Hneg].
  - destruct (suspend_core_fields s t) as (Eo & _ & _ & Et & _).
    apply wp_bind, wp_when_true. apply wp_bind.
    eapply wp_mono; [eapply wp_bind_inv; apply (wp_arm_timer me (block_core flag h t s) t)
      with (Q := fun _ s' => wp k Q s') (arg := time)|].
    + done.
    + unfold is_thread, rt_object_get_type.
      change (otype (block_core flag h t s)) with (otype (suspend_core t s)). by rewrite Eo.
    + change (threads (block_core flag h t s)) with (threads (suspend_core t s)).
      rewrite Et, upd_eq, th_stat_put; [done|]. unfold RT_THREAD_SUSPEND. lia.
    + done.
    + lia.
    + intros s' [A1 A2 A3 A4 A5]. apply HQ. rewrite block_core_tick in A4.
      split; [done| |done| |].
      * rewrite A1. exact Hn1.
      * apply Z.ltb_lt in Hpos. by rewrite Hpos.
      * intros x Hx. destruct (A5 x Hx) as [-> ->]. by apply Hoth.
    + intros a s' Hw. cbn in Hw. apply wp_bind. eapply wp_mono; [exact Hw|].
      intros a' s'' Hw'. exact Hw'.
  - apply wp_bind, wp_when_false. apply HQ. split; try done.
    apply Z.ltb_ge in Hneg. by rewrite Hneg.
Qed.
End blocking.

(** The state after a blocking call: the thread waits on [h] at its place, its
    timer runs if the wait is bounded, and the best ready thread has the CPU. *)
Record waiting (me : Z) (cur : tid) (flag : Z) (h : lhead) (time : Z) (s s' : kstate) : Prop := {
  wt_kinv : kinv s';
  wt_depth : lock_depth me 0 s';
  wt_parked : parked_ok s';
  wt_stat : th_stat (threads s' cur) = RT_THREAD_SUSPEND;
  wt_error : error (threads s' cur) = RT_EOK;
  wt_event : event_set (threads s' cur) = event_set (threads s cur) /\
    event_info (threads s' cur) = event_info (threads s cur);
  wt_queue : lists s' h = enqueue flag (threads s) cur (lists s h);
  wt_lists : forall x, is_ready_head x = false -> x <> h -> lists s' x = lists s x;
  wt_timer : if 0 <? time then
      ThreadTimer cur ∈ timer_list (tm s') /\
      timeout_tick (timers (tm s') (ThreadTimer cur)) = u32 (rt_tick_get s + time)
    else ThreadTimer cur ∉ timer_list (tm s');
  wt_objs : same_objs s s';
  wt_otype : forall o, otype s' o = otype s o;
  wt_threads : forall x, x <> cur -> moved (threads s x) (threads s' x);
  wt_next : exists now, rt_thread_self me s' = Some now /\ now <> cur /\
    forall t, eligible me s t ->
      current_priority (threads s' now) <= current_priority (threads s t) }.

Lemma eligible_lists me s s' : (forall h, is_ready_head h = true -> lists s' h = lists s h) ->
  forall x, eligible me s' x <-> eligible me s x.
Proof.
  intros El x. unfold eligible. split; intros (p & Hp & H); exists p; (split; [done|]);
    by rewrite !El in * by done.
Qed.

(** The reference state of [waiting] may differ in what the record ignores. *)
Lemma waiting_from me cur flag h time s s1 s' :
  (forall x, current_priority (threads s1 x) = current_priority (threads s x)) ->
  event_set (threads s1 cur) = event_set (threads s cur) ->
  event_info (threads s1 cur) = event_info (threads s cur) ->
  (forall x, x <> cur -> threads s1 x = threads s x) ->
  (forall x, lists s1 x = lists s x) -> rt_tick_get s1 = rt_tick_get s -> same_objs s s1 ->
  (forall o, otype s1 o = otype s o) ->
  waiting me cur flag h time s1 s' -> waiting me cur flag h time s s'.
Proof.
  intros Ep Es Ei Eth El Et Eo Eot [W1 W2 W3 W4 W5 W5' W6 W7 W8 W9 W9'' W9' W10]. split; try done.
  - by rewrite <-Es, <-Ei.
  - rewrite W6, El. by apply enqueue_ext.
  - intros x Hx Hne. by rewrite W7.
  - by rewrite <-Et.
  - by etrans.
  - intros o. by rewrite W9''.
  - intros x Hx. rewrite <-Eth by done. by apply W9'.
  - destruct W10 as (now & N1 & N2 & N3). exists now. split_and!; [done..|].
    intros t He. rewrite <-Ep. apply N3. by apply (eligible_lists me s s1).
Qed.

Lemma block_core_eligible me t flag h s :
  kinv s -> th_stat (threads s t) = RT_THREAD_RUNNING -> is_wait_head h = true ->
  forall x, eligible me (block_core flag h t s) x <-> eligible me s x.
Proof.
  intros Hi Hst Hh. apply eligible_lists. intros y Hy. rewrite block_core_lists by done.
  case_decide; [subst; by destruct y|done].
Qed.

(** A running thread, outside interrupts: it may call any operation that does
    not block. *)
Record caller (me : Z) (cur : tid) (s : kstate) : Prop := {
  ca_me : 0 <= me < RT_CPUS_NR;
  ca_self : rt_thread_self me s = Some cur;
  ca_irq : irq_nest (cpus s me) = 0;
  ca_kinv : kinv s;
  ca_thread : is_thread s cur;
  ca_run : th_stat (threads s cur) = RT_THREAD_RUNNING }.

(** A running thread that may block: outside interrupts and critical sections,
    with another thread ready to run. *)
Record blocker (me : Z) (cur : tid) (s : kstate) : Prop := {
  br_me : 0 <= me < RT_CPUS_NR;
  br_self : rt_thread_self me s = Some cur;
  br_irq : irq_nest (cpus s me) = 0;
  br_crit : critical_lock_nest (nests s cur) = 0;
  br_kinv : kinv s;
  br_thread : is_thread s cur;
  br_run : th_stat (threads s cur) = RT_THREAD_RUNNING;
  br_next : ~ none_ready me s }.

Lemma blocker_caller me cur s : blocker me cur s -> caller me cur s.
Proof. by intros []. Qed.
#[export] Hint Resolve blocker_caller : rtt.

Section leave.
Context (me : Z) (cur : tid) (flag : Z) (h : lhead) (time : Z) (s s0 s1 : kstate).
Context (Hbr : blocker me cur s) (Herr : error (threads s cur) = RT_EOK).
Context (Hh : is_wait_head h = true).
Context (Hb : blocked_at cur flag h time s s0) (E : keq s0 s1).
Context (Hd1 : lock_depth me 0 s1) (Hp1 : parked_ok s1).

Lemma blocked_fields :
  threads s0 = upd (threads s) cur (put_stat RT_THREAD_SUSPEND (threads s cur)) /\
  (forall x, lists s0 x = if decide (h = x) then enqueue flag (threads s) cur (lists s h)
     else lists s x) /\
  (forall c, rt_thread_self c s0 = rt_thread_self c s) /\ nests s0 = nests s /\
  (forall c, irq_nest (cpus s0 c) = irq_nest (cpus s c)) /\
  same_objs s s0 /\ otype s0 = otype s /\ (forall x, eligible me s0 x <-> eligible me s x).
Proof using Hb Hbr Hh.
  clear E Hd1 Hp1 Herr. destruct (id Hbr) as [_ _ _ _ Hi _ Hst _]. destruct (suspend_core_fields s cur) as (Eo & Es & _ & Et & _).
  rewrite (ba_state _ _ _ _ _ _ Hb). split_and!.
  - exact Et.
  - intros x. by apply block_core_lists.
  - exact Es.
  - apply (remove_core_frame cur s).
  - intros c. apply (remove_core_cpu cur s c).
  - etrans; [apply (suspend_core_objs cur s)|by split].
  - exact Eo.
  - by apply block_core_eligible.
Qed.

Lemma block_gives_way :
  wp (rt_schedule me) (fun _ s' => waiting me cur flag h time s s') s1.
Proof using All.
  destruct blocked_fields as (Et & El & Es & En & Ec & Eo & Eot & Eel).
  pose proof (ba_kinv _ _ _ _ _ _ Hb) as Hi0.
  destruct Hbr as [Hme Hself Hirq Hcr Hi Ht Hst Hn].
  assert (Hs0 : th_stat (threads s0 cur) = RT_THREAD_SUSPEND).
  { rewrite Et, upd_eq, th_stat_put; [done|]. unfold RT_THREAD_SUSPEND. lia. }
  eapply wp_mono; [apply (give_way_schedule 0 me cur s0 s1); try done; try lia|].
  - by rewrite (keq_self _ _ me E), Es.
  - by rewrite <-(keq_cpus _ _ E), Ec.
  - by rewrite <-(keq_crit _ _ E), En.
  - by rewrite Hs0.
  - rewrite none_ready_iff by (done || apply Hi0). intros Hno. apply Hn.
    rewrite none_ready_iff by (done || apply Hi). intros t He. by apply (Hno t), Eel.
  - intros [] s' (Hi' & D & P & Hsw).
    destruct (switched_fields me cur s0 s') as (Em & Est & Eerr & _ & now & N1 & N2 & N3);
      [by rewrite Hs0|done|].
    split; try done.
    + by rewrite Est.
    + by rewrite Eerr, Et, upd_eq.
    + destruct (switched_moved me cur s0 s' cur Hsw) as [-> _]. by rewrite Et, upd_eq.
    + rewrite (switched_lists me cur s0 s'); [|apply Hi0|done|by destruct h].
      by rewrite El, decide_True.
    + intros x Hx Hne. rewrite (switched_lists me cur s0 s'); [|apply Hi0|done|done].
      by rewrite El, decide_False by congruence.
    + rewrite Em. apply Hb.
    + etrans; [exact Eo|by eapply switched_objs].
    + intros o. by rewrite (switched_otype _ _ _ _ Hsw), Eot.
    + intros x Hx. etrans; [|by eapply switched_moved]. by rewrite Et, upd_ne.
    + exists now. split_and!; [done..|]. intros t He. apply Eel in He. specialize (N3 t He).
      destruct (decide (t = cur)) as [->|Htc]; [|by rewrite Et, upd_ne in N3].
      rewrite Et, upd_eq in N3. exact N3.
Qed.

(** The rest of the operation is left for later. *)
Lemma block_leaves A B resumed fuel (b : B) :
  wp (run_flow me resumed fuel (Blocked (A := A) cur b))
    (fun r s' => r = None /\ waiting me cur flag h time s s') s1.
Proof using All.
  assert (W : wp (rt_schedule me) (fun _ s' => waiting me cur flag h time s s') s1)
    by apply block_gives_way.
  destruct fuel; cbn; apply wp_bind; (eapply wp_mono; [exact W|]); intros [] s' Hw;
    destruct (wt_next _ _ _ _ _ _ _ Hw) as (now & N1 & N2 & _);
    wp_steps; rewrite N1, decide_False by congruence; by wp_steps.
Qed.
End leave.

(** The shape of a blocking operation: its first part [m], which acts as [e] on
    the abstract kernel, ends with a result, with a result and a call of
    [rt_schedule], or with the caller on a waiting list. *)
Definition harmless (s s0 : kstate) : Prop :=
  kinv s0 /\ no_new s s0 /\ forall c, rt_thread_self c s0 = rt_thread_self c s.

Definition flow_post {A B} (me : Z) (cur : tid) (s : kstate)
    (QR QS : A -> kstate -> Prop) (QB : Z -> lhead -> Z -> kstate -> Prop)
    (o : flow A B) (s0 : kstate) : Prop :=
  match o with
  | Return r => QR r s0 /\ harmless s s0
  | Resched r => QS r s0 /\ harmless s s0
  | Blocked t _ => t = cur /\ exists flag h time s1,
      QB flag h time s1 /\ harmless s s1 /\ blocker me cur s1 /\
      error (threads s1 cur) = RT_EOK /\ is_wait_head h = true /\
      blocked_at cur flag h time s1 s0
  end.

Definition flow_result {A} (me : Z) (cur : tid)
    (QR QS : A -> kstate -> Prop) (QB : Z -> lhead -> Z -> kstate -> Prop)
    (r : option A) (s' : kstate) : Prop :=
  match r with
  | Some a => (exists s0, QR a s0 /\ keq s0 s') \/
      exists s0 s1, QS a s0 /\ keq s0 s1 /\ schedule_effect me cur s1 s'
  | None => exists flag h time s1, QB flag h time s1 /\ waiting me cur flag h time s1 s'
  end.

Lemma blocked_self t flag h time s s' c :
  blocked_at t flag h time s s' -> rt_thread_self c s' = rt_thread_self c s.
Proof.
  intros Hb. rewrite (ba_state _ _ _ _ _ _ Hb).
  destruct (suspend_core_fields s t) as (_ & Es & _). exact (Es c).
Qed.

Lemma wp_flow {A B} me cur s (m e : K (flow A B)) resumed fuel QR QS QB :
  0 <= me < RT_CPUS_NR -> rt_thread_self me s = Some cur ->
  lock_depth me 0 s -> parked_ok s -> erases me 0 0 m e ->
  wp e (flow_post me cur s QR QS QB) s ->
  wp (o ← m; run_flow me resumed fuel o) (fun r s' =>
    kinv s' /\ lock_depth me 0 s' /\ parked_ok s' /\ flow_result me cur QR QS QB r s') s.
Proof.
  intros Hme Hself Hd Hp He Hw. apply wp_bind.
  eapply wp_mono; [eapply (lift me 0 0) with (Q := flow_post me cur s QR QS QB);
    [done|exact He|done|done|]|].
  { eapply wp_mono; [exact Hw|]. intros [r|r|t b] s0 Hq; (split; [exact Hq|]);
      cbn in Hq; [by destruct Hq as (_ & _ & ? & ?)..|].
    destruct Hq as (-> & flag & h & time & s1 & _ & (_ & Hn & Hs) & _ & _ & _ & Hb).
    split; [etrans; [exact Hn|apply Hb]|]. intros c. by rewrite (blocked_self _ _ _ _ _ _ c Hb). }
  intros o s1 (s0 & Hq & E & D & P & Es). destruct o as [r|r|t b]; cbn [flow_post] in Hq.
  - destruct Hq as (HQ & Hi & _). destruct fuel; cbn; wp_steps;
      (split_and!; [by rewrite <-E|done|done|left; by exists s0]).
  - destruct Hq as (HQ & Hi & _).
    assert (Hi1 : kinv s1) by by rewrite <-E.
    assert (W : wp (rt_schedule me) (fun _ s' => lock_depth me 0 s' /\ parked_ok s' /\
      schedule_effect me cur s1 s') s1).
    { apply rt_schedule_effect; try done; [apply Hi1..|]. by rewrite Es. }
    destruct fuel; cbn; apply wp_bind; (eapply wp_mono; [exact W|]);
      intros [] s' (D' & P' & Hse); wp_steps;
      (split_and!; [apply (schedule_effect_kinv me cur s1); try done; by rewrite Es|done|done|]);
      right; by exists s0, s1.
  - destruct Hq as (-> & flag & h & time & s2 & HQ & _ & Hbr & Herr & Hh & Hb).
    eapply wp_mono; [by apply (block_leaves me cur flag h time s2 s0 s1)|].
    intros r s' (-> & Hw'). split_and!; try apply Hw'. by exists flag, h, time, s2.
Qed.

(** The code after a wait: an error ends the call, otherwise [m] goes on. *)
Definition unless_error {A B} (t : tid) (f : Z -> A) (m : K (flow A B)) : K (flow A B) :=
  s ← get;
  if negb (error (threads s t) =? RT_EOK) then mret (Return (f (error (threads s t)))) else m.

Definition resumed_result {A} (t : tid) (s : kstate) (f : Z -> A)
    (Q : option A -> kstate -> Prop) (r : option A) (s' : kstate) : Prop :=
  error (threads s t) <> RT_EOK /\ r = Some (f (error (threads s t))) /\ keq s s' \/
  error (threads s t) = RT_EOK /\ Q r s'.

Lemma wp_resumed {A B} me cur s (f : Z -> A) (m e : K (flow A B)) resumed fuel QR QS QB :
  0 <= me < RT_CPUS_NR -> rt_thread_self me s = Some cur -> kinv s ->
  lock_depth me 0 s -> parked_ok s ->
  erases me 0 0 (unless_error cur f m) (unless_error cur f e) ->
  wp e (flow_post me cur s QR QS QB) s ->
  wp (o ← unless_error cur f m; run_flow me resumed fuel o) (fun r s' =>
    kinv s' /\ lock_depth me 0 s' /\ parked_ok s' /\
    resumed_result cur s f (flow_result me cur QR QS QB) r s') s.
Proof.
  intros Hme Hself Hi Hd Hp He Hw.
  destruct (Z.eqb_spec (error (threads s cur)) RT_EOK) as [Hz|Hz].
  - eapply wp_mono; [eapply (wp_flow me cur s) with (e := unless_error cur f e)
      (QR := QR) (QS := QS) (QB := QB); [done..|]|].
    + unfold unless_error. wp_steps. by rewrite Hz.
    + intros r s' (H1 & H2 & H3 & H). split_and!; try done. by right.
  - eapply wp_mono; [eapply (wp_flow me cur s) with (e := unless_error cur f e)
      (QR := fun r s0 => r = f (error (threads s cur)) /\ s0 = s) (QS := fun _ _ => False)
      (QB := fun _ _ _ _ => False); [done..|]|].
    + unfold unless_error. wp_steps. apply Z.eqb_neq in Hz. rewrite Hz. cbn [negb]. wp_steps.
      split; [done|]. by split_and!.
    + intros r s' (H1 & H2 & H3 & H). split_and!; try done. left. split; [done|].
      destruct r as [r|]; cbn in H.
      * by destruct H as [(s0 & (-> & ->) & E)|(s0 & s1 & [] & _)].
      * by destruct H as (? & ? & ? & ? & [] & _).
Qed.

(** * Resumption *)

Lemma wp_list_resume me s h t l (Q : unit -> kstate -> Prop) :
  kinv s -> is_wait_head h = true -> lists s h = t :: l ->
  Q tt (resume_core me t s) -> wp (rt_ipc_list_resume (Kn := Big me) h) Q s.
Proof.
  intros Hi Hh El HQ. unfold rt_ipc_list_resume. wp_steps.
  apply (wp_ofopt _ t); [by rewrite El|].
  destruct (kw_loc _ (ki_wf _ Hi) h t) as [Ht Hl]; [rewrite El; by left|].
  apply wp_bind, (wp_resume me s t Hi Ht); [by destruct h|]. by wp_steps.
Qed.

(** A thread of a waiting list is a suspended thread. *)
Lemma waiter_thread s h t : kinv s -> is_wait_head h = true -> t ∈ lists s h ->
  is_thread s t /\ th_stat (threads s t) = RT_THREAD_SUSPEND.
Proof.
  intros Hi Hh Hin. destruct (kw_loc _ (ki_wf _ Hi) h t Hin) as [Ht Hl].
  split; [done|]. by destruct h.
Qed.

(** One round of [rt_ipc_list_resume_all], and all of them. *)
Definition abort_core (me : Z) (t : tid) (s : kstate) : kstate :=
  resume_core me t (with_thread t (set_error (- RT_ERROR) (threads s t)) s).

Fixpoint abort_all (me : Z) (l : list tid) (s : kstate) : kstate :=
  match l with [] => s | t :: l' => abort_all me l' (abort_core me t s) end.

(** Changing a thread where it is, with the fields the lists depend on kept. *)
Lemma kinv_touch s t th' :
  kinv s -> is_thread s t -> same_place (threads s t) th' -> oncpu th' = oncpu (threads s t) ->
  kinv (with_thread t th' s).
Proof.
  intros Hi Ht Hs Ho. destruct (id Hs) as (Est & _).
  apply (kinv_thread s t Hi Ht _ th'); try done.
  - apply (kwf_touch s _ t th'); try done. apply Hi.
  - apply Hi.
  - intros Hr. rewrite Ho. apply (kr_running _ (ki_run _ Hi) t Ht). by rewrite <-Est.
  - by rewrite Est.
Qed.

Lemma kinv_error s t e :
  kinv s -> is_thread s t -> kinv (with_thread t (set_error e (threads s t)) s).
Proof. intros Hi Ht. by apply kinv_touch. Qed.

Section abort.
Context (me : Z) (h : lhead) (Hh : is_wait_head h = true).

(** The head of the waiting list leaves it for its ready list. *)
Lemma abort_core_fields s t l :
  kinv s -> lists s h = t :: l ->
  kinv (abort_core me t s) /\ no_new s (abort_core me t s) /\
  (forall c, rt_thread_self c (abort_core me t s) = rt_thread_self c s) /\
  (forall x, threads (abort_core me t s) x = upd (threads s) t
    (put_stat (wake_stat (threads s t)) (set_error (- RT_ERROR) (threads s t))) x) /\
  lists (abort_core me t s) h = l /\
  (forall x, is_ready_head x = false -> x <> h -> lists (abort_core me t s) x = lists s x) /\
  same_objs s (abort_core me t s) /\
  (forall o, otype (abort_core me t s) o = otype s o).
Proof using Hh.
  intros Hi El.
  destruct (waiter_thread s h t Hi Hh) as [Ht Hst]; [rewrite El; by left|].
  set (s1 := with_thread t (set_error (- RT_ERROR) (threads s t)) s).
  assert (Hs1 : threads s1 t = set_error (- RT_ERROR) (threads s t)) by (cbn; by rewrite upd_eq).
  assert (Hst1 : th_stat (threads s1 t) = RT_THREAD_SUSPEND) by by rewrite Hs1.
  assert (Hi1 : kinv s1) by by apply kinv_error.
  destruct (resume_core_ok me s1 t Hi1 Ht Hst1) as [Hi2 Hn2].
  destruct (resume_core_fields me s1 t) as (Eo & Es & Et & El2 & _).
  change (resume_core me t s1) with (abort_core me t s) in *.
  assert (Hnr : forall x, is_ready_head x = false -> x <> ready_head (threads s1 t)).
  { intros x Hx ->. unfold ready_head in Hx. by destruct (bind_cpu _ =? _). }
  assert (Hnt : forall x, is_ready_head x = false -> x <> h -> t ∉ lists s x).
  { intros x Hx Hne Hin. apply Hne, (kw_disj _ (ki_wf _ Hi) x h t Hin). rewrite El. by left. }
  split_and!.
  - done.
  - etrans; [|exact Hn2]. apply (no_new_upd s s1 t (set_error (- RT_ERROR) (threads s t))); try done.
  - done.
  - intros x. rewrite Et, Hs1. apply upd_twice.
  - rewrite El2, decide_False, app_nil_r by (intros [Hc _]; revert Hc; apply Hnr; by destruct h).
    change (lists s1 h) with (lists s h). rewrite El. apply remove_elt_head.
    rewrite <-El. apply (kw_nodup _ (ki_wf _ Hi)).
  - intros x Hx Hne. rewrite El2, decide_False, app_nil_r by (intros [Hc _]; by apply Hnr in Hc).
    apply remove_elt_notin. by apply Hnt.
  - etrans; [|apply resume_core_objs]. by split.
  - intros o. by rewrite Eo.
Qed.

Lemma wp_resume_all_loop l : forall s fuel (Q : unit -> kstate -> Prop),
  kinv s -> lists s h = l -> (length l <= fuel)%nat -> Q tt (abort_all me l s) ->
  wp (resume_all_loop (Kn := Big me) fuel h) Q s.
Proof using Hh.
  induction l as [|t l IH]; intros s fuel Q Hi El Hf HQ.
  - destruct fuel; cbn [resume_all_loop]; wp_steps; rewrite El; by wp_steps.
  - destruct fuel as [|fuel]; [cbn in Hf; lia|]. cbn [resume_all_loop]. wp_steps. rewrite El.
    cbn [interrupt_disable interrupt_enable Big]. wp_steps.
    destruct (abort_core_fields s t l Hi El) as (Hi1 & _ & _ & _ & El1 & _).
    destruct (waiter_thread s h t Hi Hh) as [Ht Hst]; [rewrite El; by left|].
    assert (Hi0 : kinv (with_thread t (set_error (- RT_ERROR) (threads s t)) s))
      by by apply kinv_error.
    apply (wp_resume me _ t Hi0 Ht); [cbn; by rewrite upd_eq|]. wp_steps.
    apply IH; [done|done|cbn in Hf; lia|done].
Qed.

Lemma wp_resume_all s (Q : unit -> kstate -> Prop) :
  kinv s -> Q tt (abort_all me (lists s h) s) ->
  wp (rt_ipc_list_resume_all (Kn := Big me) h) Q s.
Proof using Hh.
  intros Hi HQ. unfold rt_ipc_list_resume_all. wp_steps. by apply (wp_resume_all_loop (lists s h)).
Qed.

(** All waiters of [h], woken in order. *)
Record all_aborted (l : list tid) (s s' : kstate) : Prop := {
  al_kinv : kinv s';
  al_new : no_new s s';
  al_self : forall c, rt_thread_self c s' = rt_thread_self c s;
  al_empty : lists s' h = [];
  al_woken : forall x, x ∈ l -> error (threads s' x) = - RT_ERROR /\
    th_stat (threads s' x) = wake_stat (threads s x);
  al_rest : forall x, x ∉ l -> threads s' x = threads s x;
  al_lists : forall x, is_ready_head x = false -> x <> h -> lists s' x = lists s x;
  al_objs : same_objs s s';
  al_otype : forall o, otype s' o = otype s o }.

Lemma abort_all_ok l : forall s, kinv s -> lists s h = l -> all_aborted l s (abort_all me l s).
Proof using Hh.
  induction l as [|t l IH]; intros s Hi El; cbn.
  - split; try done. intros x Hx. by apply not_elem_of_nil in Hx.
  - destruct (abort_core_fields s t l Hi El) as (Hi1 & Hn1 & Es & Et & El1 & Eo & Eb & Eot).
    destruct (IH (abort_core me t s) Hi1 El1) as [A1 A2 A3 A4 A5 A6 A7 A8 A9].
    assert (Hnd : t ∉ l).
    { pose proof (kw_nodup _ (ki_wf _ Hi) h) as Hnd. rewrite El in Hnd.
      by apply NoDup_cons in Hnd as [? _]. }
    split; try done; try (by etrans).
    + intros c. by rewrite A3.
    + intros x [->|Hx]%elem_of_cons.
      * rewrite A6, Et, upd_eq by done. split; [done|].
        rewrite th_stat_put; [done|]. unfold wake_stat. by case_match.
      * assert (x <> t) by (intros ->; done). destruct (A5 x Hx) as [-> ->].
        by rewrite Et, upd_ne.
    + intros x Hx. rewrite A6, Et, upd_ne; [done|set_solver..].
    + intros x Hx Hne. by rewrite A7, Eo.
    + intros o. by rewrite A9.
Qed.
End abort.

(** A call of [rt_schedule] at the end of an operation. *)
Lemma wp_schedule_after me cur s0 s1 (Q : unit -> kstate -> Prop) :
  0 <= me < RT_CPUS_NR -> rt_thread_self me s1 = Some cur -> kinv s0 -> keq s0 s1 ->
  lock_depth me 0 s1 -> parked_ok s1 ->
  (forall s', kinv s' -> lock_depth me 0 s' -> parked_ok s' -> schedule_effect me cur s1 s' ->
     Q tt s') ->
  wp (rt_schedule me) Q s1.
Proof.
  intros Hme Hself Hi E Hd Hp HQ. assert (Hi1 : kinv s1) by by rewrite <-E.
  eapply wp_mono; [by apply (rt_schedule_effect me cur); try done; apply Hi1|].
  intros [] s' (D & P & He). apply HQ; try done. by apply (schedule_effect_kinv me cur s1).
Qed.

(** [m] followed by [rt_schedule] when it asks for it. *)
Lemma wp_notify {A} me cur s (m e : K (A * bool)) (QR QS : A -> kstate -> Prop) :
  0 <= me < RT_CPUS_NR -> rt_thread_self me s = Some cur ->
  lock_depth me 0 s -> parked_ok s -> erases me 0 0 m e ->
  wp e (fun r s0 => (if r.2 then QS r.1 s0 else QR r.1 s0) /\ harmless s s0) s ->
  wp ('(r, need) ← m; when need (rt_schedule me);; mret r) (fun r s' =>
    kinv s' /\ lock_depth me 0 s' /\ parked_ok s' /\ flow_result me cur QR QS
      (fun _ _ _ _ => False) (Some r) s') s.
Proof.
  intros Hme Hself Hd Hp He Hw. apply wp_bind.
  eapply wp_mono; [eapply (lift me 0 0) with (Q := fun (r : A * bool) s0 =>
    (if r.2 then QS r.1 s0 else QR r.1 s0) /\ harmless s s0); [done|exact He|done|done|]|].
  { eapply wp_mono; [exact Hw|]. intros r s0 Hq. split; [exact Hq|]. by destruct Hq as (_ & _ & ? & ?). }
  intros [r need] s1 (s0 & (HQ & Hi & _) & E & D & P & Es). destruct need; cbn in HQ |- *.
  - apply wp_bind, (wp_schedule_after me cur s0 s1); try done; [by rewrite Es|].
    intros s' Hi' D' P' He'. wp_steps. split_and!; try done. right. by exists s0, s1.
  - wp_steps. split_and!; try done; [by rewrite <-E|]. left. by exists s0.
Qed.

(** An operation without a call of [rt_schedule]. *)
Lemma wp_plain {A} me d s (m e : K A) (Q : A -> kstate -> Prop) :
  0 <= me < RT_CPUS_NR -> lock_depth me d s -> parked_ok s -> erases me d d m e ->
  wp e (fun r s0 => Q r s0 /\ harmless s s0) s ->
  wp m (fun r s' => kinv s' /\ lock_depth me d s' /\ parked_ok s' /\
    exists s0, Q r s0 /\ keq s0 s') s.
Proof.
  intros Hme Hd Hp He Hw.
  eapply wp_mono; [eapply (lift me d d) with (Q := fun r s0 => Q r s0 /\ harmless s s0);
    [done|exact He|done|done|]|].
  { eapply wp_mono; [exact Hw|]. intros r s0 Hq. split; [exact Hq|]. by destruct Hq as (_ & _ & ? & ?). }
  intros r s1 (s0 & (HQ & Hi & _) & E & D & P & _). split_and!; try done; [by rewrite <-E|].
  by exists s0.
Qed.

(** The thread error code is reset before a wait. *)
Definition reset_error (t : tid) (s : kstate) : kstate :=
  with_thread t (set_error RT_EOK (threads s t)) s.

Lemma blocker_touch me cur s th' :
  blocker me cur s -> same_place (threads s cur) th' -> oncpu th' = oncpu (threads s cur) ->
  blocker me cur (with_thread cur th' s) /\ harmless s (with_thread cur th' s).
Proof.
  intros [B1 B2 B3 B4 B5 B6 B7 B8] Hs Ho. destruct (id Hs) as (Est & _).
  assert (Hi : kinv (with_thread cur th' s)) by by apply kinv_touch.
  split.
  - split; try done. cbn. by rewrite upd_eq, Est.
  - split_and!; [done| |done]. apply (no_new_upd s _ cur th'); [done..|]. by rewrite Est.
Qed.

Lemma reset_blocker me cur s :
  blocker me cur s -> blocker me cur (reset_error cur s) /\ harmless s (reset_error cur s) /\
  error (threads (reset_error cur s) cur) = RT_EOK.
Proof.
  intros Hb. destruct (blocker_touch me cur s (set_error RT_EOK (threads s cur)) Hb) as [Hb1 Hh1];
    [done..|]. split_and!; [done|done|]. cbn. by rewrite upd_eq.
Qed.

Lemma waiting_reset me cur flag h time s s' :
  waiting me cur flag h time (reset_error cur s) s' -> waiting me cur flag h time s s'.
Proof.
  apply waiting_from; try done; try (intros x); cbn; unfold upd; case_decide; by subst.
Qed.

Lemma harmless_trans s s1 s2 : harmless s s1 -> harmless s1 s2 -> harmless s s2.
Proof.
  intros (_ & N1 & S1) (K2 & N2 & S2). split_and!; [done|by etrans|]. intros c. by rewrite S2.
Qed.
Lemma harmless_keq s s1 s2 : keq s1 s2 -> harmless s s1 -> harmless s s2.
Proof.
  intros E (K1 & N1 & S1). split_and!; [by rewrite <-E| |].
  - intros x. rewrite <-(keq_is_thread _ _ x E), <-(keq_threads _ _ E). apply N1.
  - intros c. by rewrite (keq_self _ _ c E).
Qed.
Lemma harmless_error s t e :
  kinv s -> is_thread s t -> harmless s (with_thread t (set_error e (threads s t)) s).
Proof.
  intros Hi Ht. split_and!; [by apply kinv_error| |done].
  by apply (no_new_upd s _ t (set_error e (threads s t))).
Qed.
Lemma harmless_refl s : kinv s -> harmless s s.
Proof. done. Qed.
#[export] Hint Resolve harmless_refl : rtt.

Lemma wp_blocker me cur s h flag time B (k : K B) Q :
  blocker me cur s -> is_wait_head h = true -> ipc_flag_ok flag -> time < RT_TICK_MAX / 2 ->
  (forall s', blocked_at cur flag h time s s' -> wp k Q s') ->
  wp (rt_ipc_list_suspend (Kn := Big me) h cur flag)
    (fun _ => wp (start_wait_timer (Kn := Big me) cur time;; k) Q) s.
Proof. intros [] Hh Hf Ht. by apply wp_block. Qed.

(** The context checks hold for a thread that may block. *)
Lemma wp_blocker_context me cur s Q :
  blocker me cur s -> Q tt s -> wp (RT_DEBUG_IN_THREAD_CONTEXT me) Q s.
Proof.
  intros [_ Hself Hirq _ _ _ _ _] HQ. unfold RT_DEBUG_IN_THREAD_CONTEXT, RT_DEBUG_NOT_IN_INTERRUPT.
  wp_steps; [by apply bool_decide_true; rewrite Hself|by unfold rt_interrupt_get_nest; rewrite Hirq|done].
Qed.

(** Where [rt_thread_resume] leaves the waiting lists. *)
Lemma resume_core_waiters me s h t l :
  kinv s -> is_wait_head h = true -> lists s h = t :: l ->
  lists (resume_core me t s) h = l /\
  forall x, is_ready_head x = false -> x <> h -> lists (resume_core me t s) x = lists s x.
Proof.
  intros Hi Hh El. destruct (resume_core_fields me s t) as (_ & _ & _ & El2 & _).
  assert (Hnr : forall x, is_ready_head x = false -> x <> ready_head (threads s t)).
  { intros x Hx ->. unfold ready_head in Hx. by destruct (bind_cpu _ =? _). }
  split.
  - rewrite El2, decide_False, app_nil_r, El by (intros [Hc _]; revert Hc; apply Hnr; by destruct h).
    apply remove_elt_head. rewrite <-El. apply (kw_nodup _ (ki_wf _ Hi)).
  - intros x Hx Hne. rewrite El2, decide_False, app_nil_r by (intros [Hc _]; by apply Hnr in Hc).
    apply remove_elt_notin. intros Hin. apply Hne, (kw_disj _ (ki_wf _ Hi) x h t Hin).
    rewrite El. by left.
Qed.

Lemma blocker_prio me cur s : blocker me cur s -> 0 <= current_priority (threads s cur) < 32.
Proof.
  intros [_ _ _ _ Hi Ht Hrun _]. apply (kw_prio _ (ki_wf _ Hi) cur Ht). right; right; done.
Qed.
