(* ===== verification/IpcExample.v ===== *)
(** The example state as a starting point of IPC operations. *)
From S2P Require Import Prelude KService Timer KState KInv Sched Kernel KTimer Object Thread ThreadSpec Example Ipc IpcSpec.

Lemma ex_blocker : blocker 0 1%positive ex.
Proof. split; try done; [exact ex_kinv|exact ex_some_ready]. Qed.
