(* ===== verification/RtList.v ===== *)
(** The doubly linked lists of the kernel at the level of their pointers
    ([rt-thread/include/rtservice.h]), and what they have to do with the
    sequences of threads of [KState.v]: every pointer operation on a well-formed
    set of lists is the operation on sequences that the other files use. *)
From S2P Require Import Prelude KService Timer KState KInv Sched Kernel KTimer Object Thread ThreadSpec Example Ipc.

(** The address of an [rt_list_t]: a list head, or the [tlist] node of a
    thread. *)
Inductive lnode := Head (h : lhead) | Tlist (t : tid).
#[export] Instance lnode_eq_dec : EqDecision lnode.
Proof. solve_decision. Defined.

(** [struct rt_list_node], and the memory that holds the nodes. *)
Record rt_list_node := mkNode { next : lnode; prev : lnode }.
Abbreviation lmem := (lnode -> rt_list_node).

(** [a->next = v] and [a->prev = v] *)
Definition set_next (a v : lnode) (m : lmem) : lmem := upd m a (mkNode v (prev (m a))).
Definition set_prev (a v : lnode) (m : lmem) : lmem := upd m a (mkNode (next (m a)) v).

Definition rt_list_init (l : lnode) (m : lmem) : lmem := set_next l l (set_prev l l m).

Definition rt_list_insert_after (l n : lnode) (m : lmem) : lmem :=
  let m := set_prev (next (m l)) n m in
  let m := set_next n (next (m l)) m in
  let m := set_next l n m in
  set_prev n l m.

Definition rt_list_insert_before (l n : lnode) (m : lmem) : lmem :=
  let m := set_next (prev (m l)) n m in
  let m := set_prev n (prev (m l)) m in
  let m := set_prev l n m in
  set_next n l m.

Definition rt_list_remove (n : lnode) (m : lmem) : lmem :=
  let m := set_prev (next (m n)) (prev (m n)) m in
  let m := set_next (prev (m n)) (next (m n)) m in
  let m := set_prev n n m in
  set_next n (prev (m n)) m.

Definition rt_list_isempty (l : lnode) (m : lmem) : bool := bool_decide (next (m l) = l).

(** The loop of [rt_list_len]; a link is followed at most [fuel] times. *)
Fixpoint list_len_from (fuel : nat) (m : lmem) (l p : lnode) (len : Z) : option Z :=
  if decide (next (m p) = l) then Some len
  else match fuel with
       | O => None
       | S fuel => list_len_from fuel m l (next (m p)) (u32 (len + 1))
       end.
Definition rt_list_len (fuel : nat) (l : lnode) (m : lmem) : option Z :=
  list_len_from fuel m l l 0.

(** The search of [rt_ipc_list_suspend] for [RT_IPC_FLAG_PRIO], from the node
    [n] on; [th] gives the thread structures. *)
Fixpoint insert_prio_from (fuel : nat) (th : tid -> thread) (list : lnode) (thread : tid)
    (n : lnode) (m : lmem) : option lmem :=
  if decide (n = list) then Some (rt_list_insert_before list (Tlist thread) m)
  else match n, fuel with
       | Tlist sthread, S fuel =>
           if current_priority (th thread) <? current_priority (th sthread)
           then Some (rt_list_insert_before (Tlist sthread) (Tlist thread) m)
           else insert_prio_from fuel th list thread (next (m n)) m
       | _, _ => None
       end.
Definition insert_prio (fuel : nat) (th : tid -> thread) (list : lnode) (thread : tid) (m : lmem)
  : option lmem := insert_prio_from fuel th list thread (next (m list)) m.

(** * Chains of nodes *)
Definition joined (m : lmem) (a b : lnode) : Prop := next (m a) = b /\ prev (m b) = a.

Fixpoint chain (m : lmem) (l : list lnode) : Prop :=
  match l with
  | a :: (b :: _) as l' => joined m a b /\ chain m l'
  | _ => True
  end.

Lemma chain_cons m a b l : chain m (a :: b :: l) <-> joined m a b /\ chain m (b :: l).
Proof. done. Qed.

Lemma chain_app m l1 a b l2 :
  chain m ((l1 ++ [a]) ++ b :: l2) <-> chain m (l1 ++ [a]) /\ joined m a b /\ chain m (b :: l2).
Proof.
  induction l1 as [|x l1 IH]; cbn [app].
  - rewrite chain_cons. cbn. tauto.
  - destruct (l1 ++ [a]) as [|y l] eqn:E; [by destruct l1|]. cbn [app] in *.
    rewrite !chain_cons, IH. tauto.
Qed.

(** A chain sees the links from each of its nodes to the next one only. *)
Lemma chain_frame m m' l :
  (forall a b, a ∈ l -> b ∈ tail l -> joined m a b -> joined m' a b) -> chain m l -> chain m' l.
Proof.
  induction l as [|a [|b l] IH]; intros Hf; [done..|]. rewrite !chain_cons. intros [Hj Hc].
  split; [apply Hf; [set_solver..|done]|]. apply IH; [|done].
  intros x y Hx Hy. apply Hf; [set_solver|]. cbn in *. set_solver.
Qed.

(** The nodes of a list whose head is [l]: a cycle through [l]. *)
Record dlist (m : lmem) (l : lnode) (xs : list lnode) : Prop := {
  dl_nodup : NoDup (l :: xs);
  dl_chain : chain m ((l :: xs) ++ [l]) }.

(** The cycle opened between [a], the last node of [l :: xs1], and [p], the
    first node of [xs2 ++ [l]]. *)
Record opened (m : lmem) (l : lnode) (xs1 xs2 : list lnode) (a p : lnode) : Prop := {
  op_nodup : NoDup (l :: xs1 ++ xs2);
  op_left : exists A, l :: xs1 = A ++ [a];
  op_right : exists B, xs2 ++ [l] = p :: B;
  op_chain1 : chain m (l :: xs1);
  op_join : joined m a p;
  op_chain2 : chain m (xs2 ++ [l]) }.

Lemma dlist_open m l xs1 xs2 : dlist m l (xs1 ++ xs2) -> exists a p, opened m l xs1 xs2 a p.
Proof.
  intros [Hd Hc]. destruct (exists_last (l := l :: xs1) ltac:(done)) as (A & a & EA).
  assert (exists p B, xs2 ++ [l] = p :: B) as (p & B & EB).
  { destruct xs2 as [|p B]; [by exists l, []|by exists p, (B ++ [l])]. }
  exists a, p. replace ((l :: xs1 ++ xs2) ++ [l]) with ((l :: xs1) ++ (xs2 ++ [l])) in Hc
    by (by rewrite app_assoc). rewrite EA, EB, chain_app in Hc. destruct Hc as (H1 & H2 & H3).
  split; try done; [by exists A|by exists B|by rewrite EA|by rewrite EB].
Qed.

Lemma dlist_close m l xs1 xs2 a p : opened m l xs1 xs2 a p -> dlist m l (xs1 ++ xs2).
Proof.
  intros [Hd (A & EA) (B & EB) H1 H2 H3]. split; [done|].
  replace ((l :: xs1 ++ xs2) ++ [l]) with ((l :: xs1) ++ (xs2 ++ [l])) by (by rewrite app_assoc).
  rewrite EA, EB in *. by apply chain_app.
Qed.

(** [p] is reached from [a] only. *)
Lemma opened_tails m l xs1 xs2 a p : opened m l xs1 xs2 a p ->
  p ∉ xs1 /\ p ∉ tail (xs2 ++ [l]) /\ a ∈ l :: xs1 /\ p ∈ xs2 ++ [l] /\ a ∉ xs2.
Proof.
  intros [Hd (A & EA) (B & EB) _ _ _].
  assert (Ha : a ∈ l :: xs1) by (rewrite EA; set_solver).
  assert (Hp : p ∈ xs2 ++ [l]) by (rewrite EB; set_solver).
  apply NoDup_cons in Hd as [Hl Hd]. apply NoDup_app in Hd as (D1 & D12 & D2).
  split_and!; [|..]; try done.
  - set_solver.
  - destruct xs2 as [|q xs2]; injection EB as <- EB; cbn; [set_solver|].
    apply NoDup_cons in D2 as [Hq _]. set_solver.
  - set_solver.
Qed.

Lemma opened_keep m m' l xs1 xs2 a p n :
  opened m l xs1 xs2 a p -> n ∉ l :: xs1 ++ xs2 ->
  (forall x y, x <> a -> x <> n -> y <> p -> y <> n -> joined m x y -> joined m' x y) ->
  chain m' (l :: xs1) /\ chain m' (xs2 ++ [l]).
Proof.
  intros Ho Hn Hk. destruct (opened_tails _ _ _ _ _ _ Ho) as (T1 & T2 & T3 & T4 & T5).
  destruct Ho as [Hd HA HB H1 [J1 J2] H3].
  split; (eapply chain_frame; [|done]); intros x y Hx Hy Hj.
  - cbn in Hy. assert (y <> p) by set_solver. apply Hk; try done; [|set_solver..].
    intros ->. destruct Hj as [Hj _]. congruence.
  - assert (Hy' : y ∈ xs2 ++ [l]) by (destruct xs2; set_solver).
    assert (y <> p) by (intros ->; contradiction). apply Hk; try done; [|set_solver..].
    intros ->. destruct Hj as [Hj _]. congruence.
Qed.

(** * The operations on one list *)
Section links.
Context (m : lmem) (a p n : lnode) (Hj : joined m a p) (Ha : n <> a) (Hp : n <> p).

(** What an insertion of [n] between [a] and [p] does to the links. *)
Definition inserted (m' : lmem) : Prop :=
  (forall x, next (m' x) = if decide (x = n) then p else if decide (x = a) then n else next (m x)) /\
  (forall x, prev (m' x) = if decide (x = n) then a else if decide (x = p) then n else prev (m x)).

Lemma insert_before_links : inserted (rt_list_insert_before p n m).
Proof using All.
  destruct Hj as [J1 J2].
  split; intros x; unfold rt_list_insert_before, set_next, set_prev, upd;
    repeat (case_decide; cbn in *; try congruence).
Qed.

Lemma insert_after_links : inserted (rt_list_insert_after a n m).
Proof using All.
  destruct Hj as [J1 J2].
  split; intros x; unfold rt_list_insert_after, set_next, set_prev, upd;
    repeat (case_decide; cbn in *; try congruence).
Qed.
End links.

Lemma inserted_dlist m m' l xs1 xs2 a p n :
  opened m l xs1 xs2 a p -> n ∉ l :: xs1 ++ xs2 -> inserted m a p n m' ->
  dlist m' l (xs1 ++ n :: xs2).
Proof.
  intros Ho Hn [I1 I2]. pose proof (opened_tails _ _ _ _ _ _ Ho) as (_ & _ & Ta & Tp & _).
  assert (Hna : n <> a) by set_solver. assert (Hnp : n <> p) by set_solver.
  destruct (opened_keep m m' l xs1 xs2 a p n Ho Hn) as [C1 C2].
  { intros x y ???? [H1 H2]. split; [rewrite I1|rewrite I2]; by repeat case_decide. }
  destruct Ho as [Hd (A & EA) (B & EB) _ _ _].
  replace (xs1 ++ n :: xs2) with ((xs1 ++ [n]) ++ xs2) by (by rewrite <-app_assoc).
  apply (dlist_close m' l (xs1 ++ [n]) xs2 n p). split.
  - assert (Hperm : l :: (xs1 ++ [n]) ++ xs2 ≡ₚ n :: l :: xs1 ++ xs2).
    { rewrite <-app_assoc. cbn. by rewrite <-Permutation_middle, Permutation_swap. }
    rewrite Hperm. by apply NoDup_cons.
  - by exists (l :: xs1).
  - by exists B.
  - rewrite app_comm_cons, EA. apply chain_app. rewrite <-EA.
    split_and!; [done| |done]. split; [rewrite I1|rewrite I2].
    + by rewrite decide_False, decide_True.
    + by rewrite decide_True.
  - split; [rewrite I1|rewrite I2]; [by rewrite decide_True|].
    by rewrite decide_False, decide_True.
  - done.
Qed.

Lemma inserted_other m m' a p n x : inserted m a p n m' -> joined m a p ->
  x <> a -> x <> p -> x <> n -> m' x = m x.
Proof.
  intros [I1 I2] _ Ha Hp Hn. specialize (I1 x). specialize (I2 x).
  destruct (m' x), (m x). cbn in *. repeat case_decide; congruence.
Qed.

(** A node taken out points to itself; its neighbours to each other. *)
Lemma remove_links m a p n : joined m a n -> joined m n p -> n <> a -> n <> p ->
  (forall x, next (rt_list_remove n m x) =
     if decide (x = n) then n else if decide (x = a) then p else next (m x)) /\
  (forall x, prev (rt_list_remove n m x) =
     if decide (x = n) then n else if decide (x = p) then a else prev (m x)).
Proof.
  intros [J1 J2] [J3 J4] Ha Hp.
  split; intros x; unfold rt_list_remove, set_next, set_prev, upd;
    repeat (case_decide; cbn in *; try congruence).
Qed.

Lemma remove_alone m n : joined m n n -> forall x, rt_list_remove n m x = m x.
Proof.
  intros [J1 J2] x. assert (En : m n = mkNode n n) by (destruct (m n); cbn in *; congruence).
  unfold rt_list_remove, set_next, set_prev, upd. rewrite En.
  repeat (cbn; rewrite ?En; case_decide; subst; try done).
Qed.

Lemma dlist_ext m m' l xs : (forall x, x ∈ l :: xs -> m' x = m x) -> dlist m l xs -> dlist m' l xs.
Proof.
  intros E [Hd Hc]. split; [done|]. eapply chain_frame; [|done]. intros x y Hx Hy [H1 H2].
  assert (y ∈ l :: xs) by (destruct xs; set_solver). assert (x ∈ l :: xs) by set_solver.
  split; by rewrite E.
Qed.

Lemma remove_dlist m l xs1 xs2 n : dlist m l (xs1 ++ n :: xs2) ->
  dlist (rt_list_remove n m) l (xs1 ++ xs2) /\ dlist (rt_list_remove n m) n [] /\
  forall x, x ∉ l :: xs1 ++ n :: xs2 -> rt_list_remove n m x = m x.
Proof.
  intros Hl. pose proof Hl as Hl0.
  apply (dlist_open m l xs1 (n :: xs2)) in Hl as (a & n' & Ho1).
  replace (xs1 ++ n :: xs2) with ((xs1 ++ [n]) ++ xs2) in Hl0 by (by rewrite <-app_assoc).
  apply (dlist_open m l (xs1 ++ [n]) xs2) in Hl0 as (n'' & p & Ho2).
  destruct (opened_tails _ _ _ _ _ _ Ho2) as (T1 & T2 & _).
  destruct Ho1 as [Hd HA (B & EB) C1 Ja _]. injection EB as <- EB.
  destruct Ho2 as [_ (A' & EA') HB _ Jp C2].
  rewrite app_comm_cons in EA'. apply app_inj_tail in EA' as [_ <-].
  assert (Hn : n ∉ l :: xs1 ++ xs2 /\ NoDup (l :: xs1 ++ xs2)).
  { assert (Hperm : l :: xs1 ++ n :: xs2 ≡ₚ n :: l :: xs1 ++ xs2)
      by (by rewrite <-Permutation_middle, Permutation_swap).
    rewrite Hperm in Hd. by apply NoDup_cons in Hd. }
  destruct Hn as [Hn Hd'].
  pose proof HA as [A EA]. pose proof HB as [B' EB'].
  assert (Ta : a ∈ l :: xs1) by (rewrite EA; set_solver).
  assert (Tp : p ∈ xs2 ++ [l]) by (rewrite EB'; set_solver).
  assert (Hin : forall x, x ∈ l :: xs1 \/ x ∈ xs2 ++ [l] -> x <> n).
  { intros x Hx ->. apply Hn. set_solver. }
  assert (Hna : a <> n) by auto. assert (Hnp : p <> n) by auto.
  destruct (remove_links m a p n Ja Jp) as [R1 R2]; [done..|].
  assert (Hk : forall x y, x <> n -> y <> n -> y <> p -> joined m x y ->
    joined (rt_list_remove n m) x y).
  { intros x y Hx Hy Hyp [H1 H2]. assert (x <> a) by (intros ->; destruct Ja; congruence).
    split; [rewrite R1|rewrite R2]; by rewrite !decide_False. }
  split_and!.
  - apply (dlist_close _ l xs1 xs2 a p). split; try done.
    + eapply chain_frame; [|exact C1]. cbn [tail]. intros x y Hx Hy.
      apply Hk; [by auto|apply Hin; set_solver|set_solver].
    + split; [rewrite R1|rewrite R2]; rewrite decide_False by done; by rewrite decide_True.
    + eapply chain_frame; [|exact C2]. intros x y Hx Hy.
      assert (y ∈ xs2 ++ [l]) by (destruct xs2; set_solver).
      apply Hk; [by auto|by auto|by intros ->].
  - split; [apply NoDup_singleton|]. cbn. split; [|done].
    split; [rewrite R1|rewrite R2]; by rewrite decide_True.
  - intros x Hx. assert (x <> n /\ x <> a /\ x <> p) as (X1 & X2 & X3).
    { split_and!; intros ->; apply Hx; set_solver. }
    specialize (R1 x). specialize (R2 x). destruct (rt_list_remove n m x), (m x).
    cbn in *. repeat case_decide; congruence.
Qed.

(** * The lists of the kernel

    [represents m L]: in the memory [m] the list of every head holds the
    threads [L] gives, every thread is in at most one list, and the node of a
    thread in no list points to itself. *)
Record represents (m : lmem) (L : lhead -> list tid) : Prop := {
  rp_list : forall h, dlist m (Head h) (Tlist <$> L h);
  rp_free : forall t, (exists h, t ∈ L h) \/ (forall h, t ∉ L h) /\ dlist m (Tlist t) [];
  rp_disj : forall h h' t, t ∈ L h -> t ∈ L h' -> h = h' }.

Lemma elem_of_Tlist t (l : list tid) : Tlist t ∈ Tlist <$> l <-> t ∈ l.
Proof. rewrite list_elem_of_fmap. naive_solver. Qed.
Lemma Head_notin h (l : list tid) : Head h ∉ Tlist <$> l.
Proof. rewrite list_elem_of_fmap. naive_solver. Qed.

(** The nodes of one list are not nodes of another. *)
Lemma nodes_disjoint m L h h' x : represents m L -> h <> h' ->
  x ∈ Head h :: (Tlist <$> L h) -> x ∉ Head h' :: (Tlist <$> L h').
Proof.
  intros [_ _ Hd] Hne. rewrite !elem_of_cons. intros [->|Hx] [E|Hx'].
  - congruence.
  - by apply Head_notin in Hx'.
  - subst. by apply Head_notin in Hx.
  - apply list_elem_of_fmap in Hx as (t & -> & Ht). apply elem_of_Tlist in Hx'.
    by apply Hne, (Hd _ _ t).
Qed.

Lemma represents_insert m m' L h l1 l2 t a p :
  represents m L -> L h = l1 ++ l2 -> (forall h, t ∉ L h) ->
  opened m (Head h) (Tlist <$> l1) (Tlist <$> l2) a p -> inserted m a p (Tlist t) m' ->
  represents m' (upd L h (l1 ++ t :: l2)).
Proof.
  intros Hr El Ht Ho Hi. pose proof (opened_tails _ _ _ _ _ _ Ho) as (_ & _ & Ta & Tp & _).
  assert (Hnodes : Head h :: (Tlist <$> L h) = Head h :: (Tlist <$> l1) ++ (Tlist <$> l2))
    by (by rewrite El, fmap_app).
  assert (Hn : Tlist t ∉ Head h :: (Tlist <$> l1) ++ (Tlist <$> l2)).
  { rewrite <-Hnodes, elem_of_cons, elem_of_Tlist. intros [?|?]; [done|]. by apply (Ht h). }
  assert (Hoth : forall x, x ∉ Head h :: (Tlist <$> L h) -> x <> Tlist t -> m' x = m x).
  { intros x Hx Hxt. rewrite Hnodes in Hx.
    apply (inserted_other m m' a p (Tlist t)); [done|apply Ho|..|done]; intros ->; apply Hx; set_solver. }
  split.
  - intros h'. destruct (decide (h = h')) as [<-|Hne].
    + rewrite upd_eq, fmap_app, fmap_cons. by eapply inserted_dlist.
    + rewrite upd_ne by done. eapply dlist_ext; [|by apply Hr]. intros x Hx. apply Hoth.
      * by apply (nodes_disjoint m L h' h).
      * intros ->. apply elem_of_cons in Hx as [?|Hx]; [done|]. apply elem_of_Tlist in Hx.
        by apply (Ht h').
  - intros t'. destruct (decide (t' = t)) as [->|Hne].
    { left. exists h. rewrite upd_eq. set_solver. }
    destruct (rp_free _ _ Hr t') as [[h' Hin]|[Hf Hd]]; [left|right].
    + exists h'. destruct (decide (h = h')) as [<-|?]; [|by rewrite upd_ne].
      rewrite upd_eq. rewrite El in Hin. set_solver.
    + split.
      * intros h'. destruct (decide (h = h')) as [<-|?]; [|rewrite upd_ne by done; apply Hf].
        rewrite upd_eq. specialize (Hf h). rewrite El in Hf. set_solver.
      * eapply dlist_ext; [|exact Hd]. intros x ->%list_elem_of_singleton.
        apply Hoth; [|congruence].
        rewrite elem_of_cons, elem_of_Tlist. intros [?|?]; [done|]. by apply (Hf h).
  - assert (Hin : forall h' y, y ∈ upd L h (l1 ++ t :: l2) h' -> y ∈ L h' \/ y = t /\ h' = h).
    { intros h' y. destruct (decide (h = h')) as [<-|?]; [rewrite upd_eq, El; set_solver|].
      rewrite upd_ne by done. auto. }
    intros h1 h2 y [H1|[-> ->]]%Hin [H2|[E ->]]%Hin; [by eapply Hr| |by destruct (Ht h2)|done].
    subst. by destruct (Ht h1).
Qed.

Lemma represents_ext m m' L L' :
  (forall x, m' x = m x) -> (forall h, L' h = L h) -> represents m L -> represents m' L'.
Proof.
  intros Em El [H1 H2 H3]. split.
  - intros h. rewrite El. eapply dlist_ext; [|apply H1]. auto.
  - intros t. destruct (H2 t) as [[h Hin]|[Hf Hd]]; [left|right].
    + exists h. by rewrite El.
    + split; [intros h; by rewrite El|]. eapply dlist_ext; [|exact Hd]. auto.
  - intros h h' t. rewrite !El. apply H3.
Qed.

Lemma represents_remove m L t :
  represents m L -> represents (rt_list_remove (Tlist t) m) (fun h => remove_elt t (L h)).
Proof.
  intros Hr. destruct (rp_free _ _ Hr t) as [[h Hin]|[Hf Hd]].
  2: { eapply represents_ext; [| |exact Hr].
       - apply remove_alone. apply Hd.
       - intros h. by apply remove_elt_notin. }
  assert (Hoth : forall h', h' <> h -> remove_elt t (L h') = L h').
  { intros h' Hne. apply remove_elt_notin. intros Hin'. by apply Hne, (rp_disj _ _ Hr _ _ t). }
  pose proof (rp_list _ _ Hr h) as Hl. pose proof (NoDup_fmap_1 _ _ (NoDup_cons_1_2 _ _ (dl_nodup _ _ _ Hl))) as Hnd.
  apply list_elem_of_split in Hin as (l1 & l2 & El).
  assert (Erem : remove_elt t (L h) = l1 ++ l2).
  { rewrite El in Hnd |- *. apply NoDup_app in Hnd as (N1 & N2 & N3).
    rewrite remove_elt_app, remove_elt_head by done. f_equal. apply remove_elt_notin.
    intros Hin. apply (N2 t Hin). set_solver. }
  rewrite El, fmap_app, fmap_cons in Hl.
  destruct (remove_dlist _ _ _ _ _ Hl) as (D1 & D2 & D3).
  assert (Hnodes : Head h :: (Tlist <$> L h) =
    Head h :: (Tlist <$> l1) ++ Tlist t :: (Tlist <$> l2)) by (by rewrite El, fmap_app).
  rewrite <-Hnodes in D3. rewrite <-fmap_app, <-Erem in D1.
  split.
  - intros h'. destruct (decide (h' = h)) as [->|Hne]; [done|]. rewrite Hoth by done.
    eapply dlist_ext; [|by apply Hr]. intros x Hx. apply D3.
    by apply (nodes_disjoint m L h' h).
  - intros t'. destruct (decide (t' = t)) as [->|Hne].
    { right. split; [|done]. intros h'. rewrite elem_of_remove_elt. naive_solver. }
    destruct (rp_free _ _ Hr t') as [[h' Hin]|[Hf Hd]]; [left|right].
    + exists h'. by apply elem_of_remove_elt.
    + split; [intros h'; rewrite elem_of_remove_elt; naive_solver|].
      eapply dlist_ext; [|exact Hd]. intros x ->%list_elem_of_singleton. apply D3.
      rewrite elem_of_cons, elem_of_Tlist. intros [?|?]; [done|]. by apply (Hf h).
  - intros h1 h2 y. rewrite !elem_of_remove_elt. intros [_ ?] [_ ?]. by eapply Hr.
Qed.

(** * The operations on the lists of the kernel *)
Lemma open_at m L h l1 l2 : represents m L -> L h = l1 ++ l2 ->
  exists a p, opened m (Head h) (Tlist <$> l1) (Tlist <$> l2) a p.
Proof.
  intros Hr El. apply dlist_open. rewrite <-fmap_app, <-El. apply Hr.
Qed.

(** The first node behind the opening, and the last one in front of it. *)
Lemma opened_right m l xs1 x xs2 a p : opened m l xs1 (x :: xs2) a p -> p = x.
Proof. intros [_ _ (B & EB) _ _ _]. by injection EB. Qed.
Lemma opened_right_end m l xs1 a p : opened m l xs1 [] a p -> p = l.
Proof. intros [_ _ (B & EB) _ _ _]. by injection EB. Qed.
Lemma opened_left m l xs1 x xs2 a p : opened m l (xs1 ++ [x]) xs2 a p -> a = x.
Proof.
  intros [_ (A & EA) _ _ _ _]. rewrite app_comm_cons in EA. by apply app_inj_tail in EA as [_ <-].
Qed.
Lemma opened_left_start m l xs2 a p : opened m l [] xs2 a p -> a = l.
Proof.
  intros [_ (A & EA) _ _ _ _]. destruct A as [|y A]; [by injection EA|].
  injection EA as _ EA. by destruct A.
Qed.

(** The node the walk stands at, with the threads of [l2] in front of it. *)
Definition node_at (h : lhead) (l2 : list tid) : lnode :=
  match l2 with [] => Head h | s :: _ => Tlist s end.

Lemma opened_node m h l1 l2 a p :
  opened m (Head h) (Tlist <$> l1) (Tlist <$> l2) a p -> p = node_at h l2.
Proof.
  destruct l2; intros Ho; [by apply opened_right_end in Ho|by apply opened_right in Ho].
Qed.

Lemma next_node m L h l1 s l2 :
  represents m L -> L h = l1 ++ s :: l2 -> next (m (Tlist s)) = node_at h l2.
Proof.
  intros Hr El. destruct (open_at m L h (l1 ++ [s]) l2 Hr) as (a & p & Ho).
  { by rewrite El, <-app_assoc. }
  pose proof (opened_node _ _ _ _ _ _ Ho) as ->. rewrite fmap_app in Ho.
  apply opened_left in Ho as Ea. destruct Ho as [_ _ _ _ [J _] _]. by rewrite Ea in J.
Qed.
Lemma next_head m L h : represents m L -> next (m (Head h)) = node_at h (L h).
Proof.
  intros Hr. destruct (open_at m L h [] (L h) Hr eq_refl) as (a & p & Ho).
  pose proof (opened_node _ _ _ _ _ _ Ho) as ->. apply opened_left_start in Ho as Ea.
  destruct Ho as [_ _ _ _ [J _] _]. by rewrite Ea in J.
Qed.

Section ops.
Context (m : lmem) (L : lhead -> list tid) (Hr : represents m L).

Lemma insert_before_node h l1 l2 t : L h = l1 ++ l2 -> (forall h, t ∉ L h) ->
  represents (rt_list_insert_before (node_at h l2) (Tlist t) m) (upd L h (l1 ++ t :: l2)).
Proof using All.
  intros El Ht. destruct (open_at m L h l1 l2 Hr El) as (a & p & Ho).
  pose proof (opened_node _ _ _ _ _ _ Ho) as ->.
  eapply represents_insert; try done. apply insert_before_links; [apply Ho|..].
  - intros E. pose proof (opened_tails _ _ _ _ _ _ Ho) as (_ & _ & Ta & _ & _).
    rewrite <-E, elem_of_cons, elem_of_Tlist in Ta. destruct Ta as [?|Ta]; [done|].
    apply (Ht h). rewrite El. set_solver.
  - destruct l2 as [|s l2]; cbn; [done|]. intros [= ->]. apply (Ht h). rewrite El. set_solver.
Qed.

Lemma insert_after_head h t : (forall h, t ∉ L h) ->
  represents (rt_list_insert_after (Head h) (Tlist t) m) (upd L h (t :: L h)).
Proof using All.
  intros Ht. destruct (open_at m L h [] (L h) Hr eq_refl) as (a & p & Ho).
  pose proof (opened_node _ _ _ _ _ _ Ho) as ->. pose proof (opened_left_start _ _ _ _ _ Ho) as ->.
  eapply (represents_insert m _ L h [] (L h)); try done. apply insert_after_links; [apply Ho|done|].
  destruct (L h) as [|s l] eqn:E; cbn; [done|]. intros [= ->]. apply (Ht h). rewrite E. set_solver.
Qed.

Lemma isempty_nil h : rt_list_isempty (Head h) m = bool_decide (L h = []).
Proof using All.
  unfold rt_list_isempty. rewrite (next_head m L h Hr). apply bool_decide_ext.
  by destruct (L h).
Qed.

Lemma len_from h l2 : forall l1 p len fuel, L h = l1 ++ l2 ->
  next (m p) = node_at h l2 -> (length l2 <= fuel)%nat ->
  list_len_from fuel m (Head h) p len = Some (if l2 then len else u32 (len + Z.of_nat (length l2))).
Proof using All.
  induction l2 as [|s l2 IH]; intros l1 p len fuel El Hp Hf.
  - destruct fuel; cbn; rewrite Hp; by rewrite decide_True.
  - destruct fuel as [|fuel]; cbn in Hf; [lia|]. cbn [list_len_from]. rewrite Hp. cbn [node_at].
    rewrite decide_False by done. rewrite (IH (l1 ++ [s])); [| |by eapply next_node|lia].
    + f_equal. cbn [length]. destruct l2; [done|]. wraps. rewrite Zplus_mod_idemp_l. f_equal. lia.
    + by rewrite El, <-app_assoc.
Qed.

Lemma insert_prio_walk h th t l2 : forall l1 fuel, L h = l1 ++ l2 -> (forall h, t ∉ L h) ->
  (length l2 <= fuel)%nat ->
  exists m', insert_prio_from fuel th (Head h) t (node_at h l2) m = Some m' /\
    represents m' (upd L h (l1 ++ prio_insert th t l2)).
Proof using All.
  induction l2 as [|s l2 IH]; intros l1 fuel El Ht Hf.
  - eexists. split.
    + destruct fuel; cbn [insert_prio_from node_at]; by rewrite decide_True.
    + by apply (insert_before_node h l1 [] t).
  - destruct fuel as [|fuel]; cbn in Hf; [lia|]. cbn [insert_prio_from node_at prio_insert].
    rewrite decide_False by done. case_match.
    + eexists. split; [done|]. by apply (insert_before_node h l1 (s :: l2) t).
    + rewrite (next_node m L h l1 s l2 Hr El).
      destruct (IH (l1 ++ [s]) fuel) as (m' & E & Hm'); [by rewrite El, <-app_assoc|done|lia|].
      exists m'. split; [done|]. by rewrite <-app_assoc in Hm'.
Qed.
End ops.

(** * Property *)

(** C36: the pointer operations on the doubly linked lists of the kernel are
    the operations on sequences with which the scheduler, the threads and the
    IPC objects are modelled: when the memory represents the lists of a kernel
    state, [rt_list_isempty] and [rt_list_len] (which ends) tell their
    emptiness and length, and after [rt_list_remove],
    [rt_list_insert_before], [rt_list_insert_after] and the search loop of
    [rt_ipc_list_suspend] (which ends) it represents the lists after the
    operation of the model. *)
Theorem rt_list_refines m s h t fuel :
  represents m (lists s) -> (length (lists s h) <= fuel)%nat ->
  rt_list_isempty (Head h) m = bool_decide (lists s h = []) /\
  rt_list_len fuel (Head h) m = Some (u32 (Z.of_nat (length (lists s h)))) /\
  wp (list_remove t) (fun _ s' => represents (rt_list_remove (Tlist t) m) (lists s')) s /\
  (unlinked_in s t ->
   wp (list_insert_before h t) (fun _ s' =>
     represents (rt_list_insert_before (Head h) (Tlist t) m) (lists s')) s /\
   wp (list_insert_after h t) (fun _ s' =>
     represents (rt_list_insert_after (Head h) (Tlist t) m) (lists s')) s /\
   exists m', insert_prio fuel (threads s) (Head h) t m = Some m' /\
     wp (list_insert_prio h t) (fun _ s' => represents m' (lists s')) s).
Proof.
  intros Hr Hf. split_and!.
  - by apply isempty_nil.
  - unfold rt_list_len. rewrite (len_from m _ Hr h (lists s h) [] (Head h) 0 fuel); try done.
    + by destruct (lists s h).
    + by apply next_head.
  - by apply represents_remove.
  - intros Ht. split_and!.
    + apply (insert_before_node m (lists s) Hr h (lists s h) [] t); [by rewrite app_nil_r|done].
    + by apply (insert_after_head m (lists s) Hr h t).
    + unfold insert_prio. rewrite (next_head m (lists s) h Hr).
      by apply (insert_prio_walk m (lists s) Hr h (threads s) t (lists s h) []).
Qed.

(** ** Instances *)
Definition ex_mem (x : lnode) : rt_list_node :=
  match x with
  | Head h => match ex_lists h with
              | t :: _ => mkNode (Tlist t) (Tlist t)
              | [] => mkNode x x
              end
  | Tlist 3 => mkNode (Head (Ready 10)) (Head (Ready 10))
  | Tlist 4 => mkNode (Head (CpuReady 0 12)) (Head (CpuReady 0 12))
  | Tlist 5 => mkNode (Head (Suspend 1)) (Head (Suspend 1))
  | _ => mkNode x x
  end.

Lemma dlist_one m l n : l <> n -> joined m l n -> joined m n l -> dlist m l [n].
Proof.
  intros Hne H1 H2. split; [|by cbn].
  apply NoDup_cons. split; [by rewrite list_elem_of_singleton|apply NoDup_singleton].
Qed.

Lemma ex_represents : represents ex_mem (lists ex).
Proof.
  split.
  - intros h. change (lists ex h) with (ex_lists h). destruct (ex_lists h) as [|t l] eqn:E.
    + split; [apply NoDup_singleton|]. cbn [app chain]. split; [|done]. by split; cbn; rewrite E.
    + assert (Hin : t ∈ ex_lists h) by (rewrite E; set_solver).
      apply ex_lists_in in Hin as [[-> ->]|[[-> ->]|[-> ->]]]; injection E as <-;
        by apply dlist_one.
  - intros t. destruct (decide (t ∈ [3; 4; 5]%positive)) as [Hin|Hn]; [left|right].
    + apply elem_of_cons in Hin as [->|Hin]; [exists (Ready 10); by apply list_elem_of_singleton|].
      apply elem_of_cons in Hin as [->|Hin]; [exists (CpuReady 0 12); by apply list_elem_of_singleton|].
      apply list_elem_of_singleton in Hin as ->. exists (Suspend 1). by apply list_elem_of_singleton.
    + split.
      * intros h Hin. apply Hn. apply ex_lists_in in Hin as [[_ ->]|[[_ ->]|[_ ->]]]; set_solver.
      * split; [apply NoDup_singleton|]. rewrite !elem_of_cons in Hn.
        assert (E : ex_mem (Tlist t) = mkNode (Tlist t) (Tlist t)).
        { cbn. repeat case_match; subst; try done; naive_solver. }
        cbn [app chain]. split; [|done]. split; by rewrite E.
  - intros h h' t H1 H2. apply (kw_disj _ ex_kwf h h' t H1 H2).
Qed.

Lemma rt_list_refines_ex :
  let s := ex in let h := Suspend 1 in let t := 6%positive in
  rt_list_isempty (Head h) ex_mem = bool_decide (lists s h = []) /\
  rt_list_len 1 (Head h) ex_mem = Some (u32 (Z.of_nat (length (lists s h)))) /\
  wp (list_remove t) (fun _ s' => represents (rt_list_remove (Tlist t) ex_mem) (lists s')) s /\
  (unlinked_in s t ->
   wp (list_insert_before h t) (fun _ s' =>
     represents (rt_list_insert_before (Head h) (Tlist t) ex_mem) (lists s')) s /\
   wp (list_insert_after h t) (fun _ s' =>
     represents (rt_list_insert_after (Head h) (Tlist t) ex_mem) (lists s')) s /\
   exists m', insert_prio 1 (threads s) (Head h) t ex_mem = Some m' /\
     wp (list_insert_prio h t) (fun _ s' => represents m' (lists s')) s).
Proof. apply (rt_list_refines ex_mem ex (Suspend 1) 6 1 ex_represents). by vm_compute. Defined.
