(* ===== verification/Clock.v ===== *)
(** The tick and the interrupt nesting ([rt-thread/src/clock.c],
    [rt-thread/src/irq.c]) with the tick handler of the hard timers
    ([rt_timer_check] of [rt-thread/src/timer.c]). *)
From S2P Require Import Prelude KService Timer KState KInv Sched Kernel KTimer Object Thread.

(** ** Interrupt nesting *)
Section irq.
Context (me : Z).

Definition rt_interrupt_enter : K unit :=
  rt_hw_interrupt_disable me;;
  cpu_upd me (fun c => set_irq_nest (u16 (irq_nest c + 1)) c);;
  rt_hw_interrupt_enable me.

Definition rt_interrupt_leave : K unit :=
  rt_hw_interrupt_disable me;;
  cpu_upd me (fun c => set_irq_nest (u16 (irq_nest c - 1)) c);;
  rt_hw_interrupt_enable me.

Definition rt_tick_set (t : Z) : K unit :=
  rt_hw_interrupt_disable me;;
  cpu_upd 0 (set_tick t);;
  rt_hw_interrupt_enable me.

(** [rt_interrupt_get_nest] with its critical section. *)
Definition rt_interrupt_get_nest_value : K Z :=
  rt_hw_interrupt_disable me;;
  s ← get;
  let ret := rt_interrupt_get_nest me s in
  rt_hw_interrupt_enable me;;
  mret ret.
End irq.

(** ** The tick handler of the hard timers *)
Section clock.
Context (me : Z).
(** The timeout functions of the application, with their parameter. *)
Context (user_fun : Z -> Z -> K unit).
Let Kn : Kernel := Smp me.
#[local] Existing Instance Kn.

(** [t->timeout_func(t->parameter)] *)
Definition call_timeout (f : tmfun) : K unit :=
  match f with
  | RtThreadTimeout thread => rt_thread_timeout me thread
  | UserFun f parameter => user_fun f parameter
  end.

(** [(current_tick - t->timeout_tick) < RT_TICK_MAX / 2] *)
Definition timer_due (current_tick : Z) (tm : rt_timer) : bool :=
  u32 (current_tick - timeout_tick tm) <? RT_TICK_MAX / 2.

(** One round of the loop: unlink the timer, call, and start it again when it
    is periodic and still active. *)
Definition timer_expire (t : tmr) : K unit :=
  on_tm (_rt_timer_remove t);;
  s ← get;
  call_timeout (timeout_func (timers (tm s) t));;
  s ← get;
  let tm := timers (tm s) t in
  on_tm (timer_upd t (clear_flag RT_TIMER_FLAG_ACTIVATED));;
  when (tm_has RT_TIMER_FLAG_PERIODIC tm && tm_has RT_TIMER_FLAG_ACTIVATED tm)
    (rt_timer_start t;; mret tt).

(** The loop, for at most [fuel] rounds. *)
Fixpoint timer_check_loop (fuel : nat) (current_tick : Z) : K unit :=
  s ← get;
  match timer_list (tm s) with
  | [] => mret tt
  | t :: _ =>
      if timer_due current_tick (timers (tm s) t) then
        match fuel with
        | O => fail
        | S fuel =>
            timer_expire t;;
            s ← get;
            timer_check_loop fuel (rt_tick_get s)
        end
      else mret tt
  end.

Definition rt_timer_check (fuel : nat) : K unit :=
  s ← get;
  interrupt_disable;;
  timer_check_loop fuel (rt_tick_get s);;
  interrupt_enable.

(** The time slice part of [rt_tick_increase]; [remaining_tick] is an
    [rt_ubase_t], 64 bits wide on this CPU. *)
Definition tick_slice : K unit :=
  cpu_upd me (fun c => set_tick (u32 (tick c + 1)) c);;
  s ← get;
  thread ← ofopt (rt_thread_self me s);
  thread_upd thread (fun th => set_remaining_tick (u64 (remaining_tick th - 1)) th);;
  s ← get;
  when (remaining_tick (threads s thread) =? 0)
    (thread_upd thread (fun th => set_remaining_tick (init_tick th) th);;
     thread_upd thread (fun th => set_stat (Z.lor (stat th) RT_THREAD_STAT_YIELD) th);;
     rt_thread_yield me;;
     mret tt).

Definition rt_tick_increase (fuel : nat) : K unit :=
  tick_slice;;
  rt_timer_check fuel.
End clock.
