(* ===== verification/ClockProps.v ===== *)
(** The tick handler of the hard timers: which timers expire, in what state
    their threads and the timer list are left, and that it ends. *)
From S2P Require Import Prelude KService Timer KState KInv Sched Kernel KTimer Object Thread ThreadSpec Example SchedProps ThreadProps Ipc IpcSpec Clock.

(** * Due timers *)
Definition due (now : Z) (s : kstate) (x : tmr) : bool := timer_due now (timers (tm s) x).
Definition periodic (s : kstate) (x : tmr) : bool :=
  tm_has RT_TIMER_FLAG_PERIODIC (timers (tm s) x).
Definition expires (now : Z) (s : kstate) (x : tmr) : Prop :=
  x ∈ timer_list (tm s) /\ due now s x = true.

(** As long as the deadlines and the tick lie in one half of the tick range,
    the test on the wrapped difference says which deadlines are reached. *)
Lemma due_rank B now s x :
  in_window B (tm s) x -> u32 (now - B) < RT_TICK_MAX / 2 ->
  due now s x = (rank B (tm s) x <=? u32 (now - B)).
Proof.
  unfold in_window, rank, due, timer_due, RT_TICK_MAX.
  generalize (timeout_tick (timers (tm s) x)). intros a.
  change (0xffffffff / 2) with 2147483647. wraps. intros Ha Hb.
  assert (E : (now - a) mod 4294967296 =
    ((now - B) mod 4294967296 - (a - B) mod 4294967296) mod 4294967296)
    by (rewrite <-Zminus_mod; f_equal; lia).
  rewrite E. revert Ha Hb.
  pose proof (Z.mod_pos_bound (a - B) 4294967296) as Pa.
  pose proof (Z.mod_pos_bound (now - B) 4294967296) as Pb. revert Pa Pb.
  generalize ((a - B) mod 4294967296) ((now - B) mod 4294967296). intros u v ? ? ? ?.
  destruct (Z.leb_spec u v);
    destruct (Z.ltb_spec ((v - u) mod 4294967296) 2147483647); try reflexivity; zmod.
Qed.

(** The list is sorted, so when its head is not due nothing is. *)
Lemma none_due B now s x l :
  timer_inv B (tm s) -> u32 (now - B) < RT_TICK_MAX / 2 ->
  timer_list (tm s) = x :: l -> due now s x = false ->
  forall y, y ∈ timer_list (tm s) -> due now s y = false.
Proof.
  intros Hi Hn El Hx y Hy. pose proof (ti_sorted _ _ Hi) as Hs. rewrite El in Hs.
  apply StronglySorted_inv in Hs as [_ Hall]. rewrite Forall_forall in Hall.
  assert (Hwx : x ∈ timer_list (tm s)) by (rewrite El; set_solver).
  rewrite (due_rank B) in Hx |- * by (done || by apply Hi).
  rewrite El in Hy. apply elem_of_cons in Hy as [->|Hy]; [done|].
  specialize (Hall y Hy). cbn in Hall. lia.
Qed.

(** * The state of the timers

    [app i f p]: the application may have given its timer [i] the function [f]
    with the parameter [p]. *)
Definition active (s : kstate) (x : tmr) : bool := tm_has RT_TIMER_FLAG_ACTIVATED (timers (tm s) x).

(** The timers of a state the tick handler can start from: thread timers are
    one-shot timers of threads that are off the CPUs, periodic timers have a
    period, and the tick and all deadlines lie in a window that begins at [B]. *)
Record tick_ok (app : positive -> Z -> Z -> Prop) (B now : Z) (s : kstate) : Prop := {
  tk_inv : timer_inv B (tm s);
  tk_now : rt_tick_get s = now;
  tk_window : u32 (now - B) < RT_TICK_MAX / 2;
  tk_type : forall x, x ∈ timer_list (tm s) ->
    rt_object_get_type s (OTimer x) = RT_Object_Class_Timer;
  tk_thread : forall t, ThreadTimer t ∈ timer_list (tm s) ->
    periodic s (ThreadTimer t) = false /\ oncpu (threads s t) = RT_CPU_DETACHED;
  tk_user : forall i, UserTimer i ∈ timer_list (tm s) ->
    exists f p, timeout_func (timers (tm s) (UserTimer i)) = UserFun f p /\ app i f p;
  tk_period : forall x, x ∈ timer_list (tm s) -> periodic s x = true ->
    0 < tm_init_tick (timers (tm s) x) /\
    u32 (now - B) + tm_init_tick (timers (tm s) x) < RT_TICK_MAX / 2 }.

(** A timer out of the list that, if it is periodic and still active, can be
    started again. *)
Record rearmable (app : positive -> Z -> Z -> Prop) (B now : Z) (x : tmr) (s : kstate) : Prop := {
  ra_out : x ∉ timer_list (tm s);
  ra_again : periodic s x = true -> active s x = true ->
    rt_object_get_type s (OTimer x) = RT_Object_Class_Timer /\
    (exists i f p, x = UserTimer i /\ timeout_func (timers (tm s) x) = UserFun f p /\ app i f p) /\
    0 < tm_init_tick (timers (tm s) x) /\
    u32 (now - B) + tm_init_tick (timers (tm s) x) < RT_TICK_MAX / 2 }.

(** * The application's timeout functions *)
Section clock_props.
(** The timers and the threads that the timeout functions may touch. *)
Context (app : positive -> Z -> Z -> Prop) (T : tmr -> Prop) (W : tid -> Prop).
Abbreviation tick_ok := (tick_ok app).
Abbreviation rearmable := (rearmable app).

(** What the timeout function of the application on [x] may do at tick [now]:
    start timers of [T] with a deadline in the future, stop, change or detach them
    ([x] too, if it is one), and change the threads of [W]; outside of the timers
    and threads it is free. *)
Record tame (me now : Z) (s s' : kstate) : Prop := {
  ta_new : forall y, expires now s' y -> expires now s y;
  ta_timers : forall y, ~ T y -> timers (tm s') y = timers (tm s) y /\
    (y ∈ timer_list (tm s') <-> y ∈ timer_list (tm s));
  ta_threads : forall t, ~ W t -> threads s' t = threads s t;
  ta_flag : irq_switch_flag (cpus s me) = 1 -> irq_switch_flag (cpus s' me) = 1 }.

(** Called in the interrupt handler after its timer was unlinked, a function
    returns there, with the timers well formed again and its own not started. *)
Definition user_ok (me : Z) (cur : tid) (d B now : Z) (user_fun : Z -> Z -> K unit) : Prop :=
  forall i f p s, app i f p -> in_isr me cur d s -> tick_ok B now s -> rearmable B now (UserTimer i) s ->
    timeout_func (timers (tm s) (UserTimer i)) = UserFun f p -> active s (UserTimer i) = true ->
    rt_object_get_type s (OTimer (UserTimer i)) = RT_Object_Class_Timer ->
    wp (user_fun f p) (fun _ s' =>
      in_isr me cur d s' /\ tick_ok B now s' /\ rearmable B now (UserTimer i) s' /\ tame me now s s') s.

(** What the unlinking of the timer [x] and the call of its function do. *)
Record called (me now : Z) (x : tmr) (s s' : kstate) : Prop := {
  ca_new : forall y, expires now s' y -> expires now s y /\ y <> x;
  ca_timers : forall y, ~ T y -> timers (tm s') y = timers (tm s) y /\
    (y ∈ timer_list (tm s') <-> y ∈ timer_list (tm s) /\ y <> x);
  ca_thr : forall t, ~ W t -> threads s' t =
    if decide (x = ThreadTimer t)
    then put_stat RT_THREAD_READY (set_error (- RT_ETIMEOUT) (threads s t)) else threads s t;
  ca_flag : irq_switch_flag (cpus s me) = 1 \/ (exists t, x = ThreadTimer t) ->
    irq_switch_flag (cpus s' me) = 1 }.

(** What one round of the loop does to the timer [x] at the head of the list. *)
Record expired (me now : Z) (x : tmr) (s s' : kstate) : Prop := {
  ex_new : forall y, expires now s' y -> expires now s y /\ y <> x;
  ex_others : forall y, ~ T y -> y <> x -> timers (tm s') y = timers (tm s) y;
  ex_list : forall y, ~ T y -> y ∈ timer_list (tm s') <->
    y ∈ timer_list (tm s) /\ (y <> x \/ periodic s x = true);
  ex_self : ~ T x -> timeout_func (timers (tm s') x) = timeout_func (timers (tm s) x) /\
    tm_init_tick (timers (tm s') x) = tm_init_tick (timers (tm s) x) /\
    periodic s' x = periodic s x;
  ex_again : ~ T x -> periodic s x = true ->
    timeout_tick (timers (tm s') x) = u32 (now + tm_init_tick (timers (tm s) x));
  ex_off : ~ T x -> periodic s x = false -> active s' x = false;
  ex_thr : forall t, ~ W t -> threads s' t =
    if decide (x = ThreadTimer t)
    then put_stat RT_THREAD_READY (set_error (- RT_ETIMEOUT) (threads s t)) else threads s t;
  ex_flag : irq_switch_flag (cpus s me) = 1 \/ (exists t, x = ThreadTimer t) ->
    irq_switch_flag (cpus s' me) = 1 }.

Lemma wp_on_tm_m A (m : M tstate A) (Q : A -> kstate -> Prop) s :
  wp m (fun a ts => Q a (set_tm ts s)) (tm s) -> wp (on_tm m) Q s.
Proof. unfold wp, on_tm. by destruct (m (tm s)) as [[a ts]|]. Qed.

Lemma in_isr_tm me cur d s ts :
  in_isr me cur d s -> tm_wf ts ->
  (forall x, timeout_func (timers ts x) = timeout_func (timers (tm s) x)) ->
  (forall x, ThreadTimer x ∈ timer_list ts -> ThreadTimer x ∈ timer_list (tm s)) ->
  in_isr me cur d (set_tm ts s).
Proof.
  intros [H1 H2 H3 H4 H5 H6] Hw Hf Hl. split; try done.
  apply kinv_tm; [done|done|done|]. intros x Hx. left. by apply Hl.
Qed.

(** Switching a timer on or off does not change its mode. *)
Lemma periodic_clear tm : tm_has RT_TIMER_FLAG_PERIODIC (clear_flag RT_TIMER_FLAG_ACTIVATED tm) =
  tm_has RT_TIMER_FLAG_PERIODIC tm.
Proof. unfold tm_has, clear_flag. cbn. by rewrite <-Z.land_assoc. Qed.
Lemma periodic_raise tm : tm_has RT_TIMER_FLAG_PERIODIC (raise_flag RT_TIMER_FLAG_ACTIVATED tm) =
  tm_has RT_TIMER_FLAG_PERIODIC tm.
Proof. unfold tm_has, raise_flag. cbn. by rewrite Z.land_lor_distr_l, Z.lor_0_r. Qed.

(** A timer operation that leaves its state alone up to the timer [x]. *)
Record restarted (B now : Z) (x : tmr) (ts ts' : tstate) : Prop := {
  rs_inv : timer_inv B ts';
  rs_others : forall y, y <> x -> timers ts' y = timers ts y;
  rs_list : forall y, y ∈ timer_list ts' <-> y = x \/ y ∈ timer_list ts;
  rs_func : timeout_func (timers ts' x) = timeout_func (timers ts x);
  rs_init : tm_init_tick (timers ts' x) = tm_init_tick (timers ts x);
  rs_mode : tm_has RT_TIMER_FLAG_PERIODIC (timers ts' x) =
    tm_has RT_TIMER_FLAG_PERIODIC (timers ts x);
  rs_tick : timeout_tick (timers ts' x) = u32 (now + tm_init_tick (timers ts x)) }.

Lemma wp_restart B now x ts :
  timer_inv B ts -> x ∉ timer_list ts -> 0 <= tm_init_tick (timers ts x) ->
  u32 (now - B) + tm_init_tick (timers ts x) < RT_TICK_MAX / 2 ->
  wp (timer_start now x) (fun _ ts' => restarted B now x ts ts') ts.
Proof.
  intros Hi Hn H0 Hlt.
  eapply wp_mono; [apply wp_and; [by apply (timer_start_spec B)|]|].
  - apply (wp_timer_start now x ts (fun _ ts' =>
      tm_has RT_TIMER_FLAG_PERIODIC (timers ts' x) = tm_has RT_TIMER_FLAG_PERIODIC (timers ts x))).
    + assert (0 <= u32 (now - B)) by (apply Z.mod_pos_bound; lia). lia.
    + intros ts' _ Et. rewrite Et. cbn. rewrite !upd_eq, periodic_raise.
      unfold tm_has at 1. cbn. apply periodic_clear.
  - intros r ts' [(_ & Hi' & [Ho Hf] & Ht & Hn' & _ & l1 & l2 & E1 & E2 & _) Hp].
    rewrite remove_elt_notin in E2 by done. split; try done.
    intros y. rewrite E1, E2. set_solver.
Qed.

Lemma tick_ok_unlink B now s ts :
  tick_ok B now s -> timer_inv B ts -> (forall y, y ∈ timer_list ts -> y ∈ timer_list (tm s)) ->
  (forall y, y ∈ timer_list ts -> timers ts y = timers (tm s) y) ->
  tick_ok B now (set_tm ts s).
Proof.
  intros [K1 K2 K3 K4 K5 K6 K7] Hi Hl Ht. split; try done; cbn [tm set_tm].
  - intros y Hy%Hl. by apply K4.
  - intros t Hy. unfold periodic. cbn [tm set_tm]. rewrite Ht by done. by apply K5, Hl.
  - intros i Hy. rewrite Ht by done. by apply K6, Hl.
  - intros y Hy. unfold periodic. cbn [tm set_tm]. rewrite Ht by done. by apply K7, Hl.
Qed.

(** A timer that was started again is not due. *)
Lemma restarted_not_due B now i : 0 < i -> u32 (now - B) + i < RT_TICK_MAX / 2 ->
  u32 (now - u32 (now + i)) <? RT_TICK_MAX / 2 = false.
Proof.
  unfold RT_TICK_MAX. change (0xffffffff / 2) with 2147483647. wraps. intros H0 H1.
  pose proof (Z.mod_pos_bound (now - B) 4294967296). rewrite Zminus_mod_idemp_r.
  apply Z.ltb_ge. zmod.
Qed.

Section tick.
Context (me : Z) (cur : tid) (d : Z) (user_fun : Z -> Z -> K unit) (B now : Z).
Context (Hd : 0 <= d < 31000) (Huser : user_ok me cur (d + 1) B now user_fun).
Let Kn : Kernel := Smp me.
#[local] Existing Instance Kn.

(** The call of the timeout function, after the timer was unlinked. *)
Lemma wp_call_timeout s ts1 x :
  tick_ok B now s -> kinv s -> x ∈ timer_list (tm s) ->
  in_isr me cur (d + 1) (set_tm ts1 s) -> tick_ok B now (set_tm ts1 s) ->
  timers ts1 = timers (tm s) -> (forall y, y ∈ timer_list ts1 <-> y ∈ timer_list (tm s) /\ y <> x) ->
  wp (call_timeout me user_fun (timeout_func (timers ts1 x))) (fun _ s2 =>
    in_isr me cur (d + 1) s2 /\ tick_ok B now s2 /\ rearmable B now x s2 /\ called me now x s s2) (set_tm ts1 s).
Proof using Hd Huser.
  intros Hk Hi Hx Hs1 Hk1 Et1 El1. rewrite Et1.
  assert (Hnew : forall y, expires now (set_tm ts1 s) y -> expires now s y /\ y <> x).
  { intros y [Hy Hdue]. cbn in Hy. apply El1 in Hy as [Hy Hne]. split; [|done]. split; [done|].
    unfold due in *. cbn in Hdue. by rewrite <-Et1. }
  destruct x as [t|i].
  - destruct (kw_timer _ (ki_wf _ Hi) t Hx) as [Ht Hst].
    destruct (ki_own _ Hi t Ht) as (_ & _ & ->); [by rewrite Hst|].
    cbn [call_timeout]. destruct (tk_thread _ _ _ _ Hk t Hx) as [Hnp Ho].
    eapply wp_mono; [apply (thread_timeout_steps me cur (d + 1) t (set_tm ts1 s)); first [exact Hs1|exact Ht|exact Hst|exact Ho|lia|cbn; rewrite El1; tauto]|].
    intros [] s2 [Hs2 [Tf Tt Tr _ Em _ Eo Ec]]. cbn [tm set_tm] in Em. split_and!; [done|..].
    + destruct Hk1 as [K1 K2 K3 K4 K5 K6 K7]. cbn [tm set_tm] in *.
      split; unfold periodic, rt_object_get_type in *; rewrite ?Em; try done.
      * rewrite <-K2. unfold rt_tick_get. apply (Ec 0).
      * intros y Hy. rewrite Eo. by apply K4.
      * intros t' Ht'. destruct (K5 t' Ht') as [? Ho']. split; [done|]. rewrite Tr; [done|].
        intros ->. apply El1 in Ht' as [_ ?]. congruence.
    + split; unfold periodic; rewrite Em; [rewrite El1; tauto|]. rewrite Et1.
      unfold periodic in Hnp. congruence.
    + split.
      * intros y Hy. apply Hnew. unfold expires, due in *. by rewrite Em in Hy.
      * intros y _. rewrite Em, Et1, El1. done.
      * intros t' _. case_decide as E; [injection E as <-; by rewrite Tt|]. by rewrite Tr by congruence.
      * intros _. exact Tf.
  - destruct (tk_user _ _ _ _ Hk i Hx) as (f & p & Ef & Happ). rewrite Ef. cbn [call_timeout].
    eapply wp_mono; [apply (Huser i f p); try done|].
    + split; cbn [tm set_tm]; [rewrite El1; tauto|]. unfold periodic. cbn [tm set_tm]. rewrite Et1. intros Hp _.
      destruct (tk_period _ _ _ _ Hk _ Hx Hp). split_and!; [by apply (tk_type _ _ _ _ Hk)| |done|done].
      by exists i, f, p.
    + cbn. by rewrite Et1.
    + unfold active. cbn [tm set_tm]. rewrite Et1. by apply (ti_active _ _ (tk_inv _ _ _ _ Hk)).
    + by apply (tk_type _ _ _ _ Hk).
    + intros [] s2 (Hs2 & Hk2 & Hr2 & [Tn Tt Th Tf]). split_and!; [done..|]. split.
      * intros y Hy. by apply Hnew, Tn.
      * intros y Hy. destruct (Tt y Hy) as [-> ->]. cbn [tm set_tm]. by rewrite Et1, El1.
      * intros t Ht. rewrite decide_False by done. by rewrite Th.
      * intros [Hf|[t ?]]; [|done]. by apply Tf.
Qed.

(** The rest of the round: the timer is off, or started again. *)
Record finished (x : tmr) (s s' : kstate) : Prop := {
  fi_others : forall y, y <> x -> timers (tm s') y = timers (tm s) y /\
    (y ∈ timer_list (tm s') <-> y ∈ timer_list (tm s));
  fi_self : timeout_func (timers (tm s') x) = timeout_func (timers (tm s) x) /\
    tm_init_tick (timers (tm s') x) = tm_init_tick (timers (tm s) x) /\ periodic s' x = periodic s x;
  fi_again : if periodic s x && active s x
    then x ∈ timer_list (tm s') /\ timeout_tick (timers (tm s') x) = u32 (now + tm_init_tick (timers (tm s) x))
    else x ∉ timer_list (tm s') /\ active s' x = false;
  fi_rest : (forall t, threads s' t = threads s t) /\
    (forall o, otype s' o = otype s o) /\ forall c, cpus s' c = cpus s c;
  fi_inv : timer_inv B (tm s') }.

Lemma wp_expire_end s x :
  in_isr me cur (d + 1) s -> tick_ok B now s -> rearmable B now x s ->
  wp (on_tm (timer_upd x (clear_flag RT_TIMER_FLAG_ACTIVATED));;
      when (tm_has RT_TIMER_FLAG_PERIODIC (timers (tm s) x) &&
            tm_has RT_TIMER_FLAG_ACTIVATED (timers (tm s) x)) (rt_timer_start x;; mret tt))
    (fun _ s' => in_isr me cur (d + 1) s' /\ finished x s s') s.
Proof using Hd T.
  intros Hs Hk [Hn Hper].
  change (tm_has RT_TIMER_FLAG_PERIODIC (timers (tm s) x)) with (periodic s x).
  change (tm_has RT_TIMER_FLAG_ACTIVATED (timers (tm s) x)) with (active s x).
  apply wp_bind, wp_on_tm_m, wp_timer_upd. set (ts := mkT _ _).
  assert (Hi1 : timer_inv B ts).
  { eapply timer_inv_remove; [apply Hk|cbn; symmetry; by apply remove_elt_notin|].
    intros y Hy. cbn. by rewrite upd_ne. }
  assert (Hs1 : in_isr me cur (d + 1) (set_tm ts s)).
  { apply in_isr_tm; [done|by eapply timer_inv_wf| |done].
    intros y. cbn. destruct (decide (x = y)) as [<-|?]; [by rewrite upd_eq|by rewrite upd_ne]. }
  destruct (periodic s x && active s x) eqn:Ep; unfold when.
  2: { apply wp_ret. split; [done|]. split; try done; cbn [tm set_tm timers timer_list ts]; rewrite ?upd_eq.
    - intros y Hy. by rewrite upd_ne.
    - split_and!; [done|done|]. unfold periodic. cbn. rewrite upd_eq. apply periodic_clear.
    - rewrite Ep. split; [done|]. unfold active. cbn. rewrite upd_eq. apply tm_has_clear. }
  apply andb_true_iff in Ep as Ep2. destruct Ep2 as [Hp Ha].
  destruct Hper as (Hty & (i & f & p & -> & _) & H0 & Hlt); [done..|]. apply wp_bind.
  eapply wp_mono; [eapply (lift me (d + 1) (d + 1)) with (Q := fun r s' => exists ts',
    restarted B now (UserTimer i) ts ts' /\ s' = set_tm ts' s);
    [apply Hs|apply rt_timer_start_er; lia|apply Hs1|apply Hs1|]|].
  - apply wp_big_timer_start; [done|]. cbn [tm set_tm].
    change (rt_tick_get (set_tm ts s)) with (rt_tick_get s). rewrite (tk_now _ _ _ _ Hk).
    eapply wp_mono; [apply (wp_restart B now (UserTimer i) ts); [done|done|cbn; rewrite upd_eq; cbn; lia..]|].
    intros r ts' Hr. split; [by exists ts'|]. done.
  - intros r s' (s0 & (ts' & [R1 R2 R3 R4 R5 R6 R7] & ->) & E & D & P & S). apply wp_ret. split.
    + split; try done; [apply Hs|by rewrite S; apply Hs1|by rewrite <-(keq_cpus _ _ E); apply Hs1|].
      apply (kinv_keq _ _ E). apply (in_isr_tm me cur (d + 1) s); [done| | |].
      * by eapply timer_inv_wf.
      * intros y. destruct (decide (y = UserTimer i)) as [->|?].
        -- rewrite R4. cbn. by rewrite upd_eq.
        -- rewrite R2 by done. cbn. by rewrite upd_ne.
      * intros t. rewrite R3. intros [Ex|?]; [|done]. done.
    + cbn in R4, R5, R6, R7. rewrite upd_eq in R4, R5, R6, R7.
      split; unfold periodic, active in *; rewrite <-?(keq_tm _ _ E); cbn [tm set_tm]; try done.
      * intros y Hy. rewrite R2, R3 by done. cbn. rewrite upd_ne by done. naive_solver.
      * split_and!; [done|done|]. rewrite R6. apply periodic_clear.
      * rewrite Ep. rewrite R3. split; [by left|done].
      * split_and!; intros; symmetry; apply E.
Qed.

(** The timers that are left are again as the handler needs them. *)
Lemma finished_tick_ok s s' x :
  tick_ok B now s -> rearmable B now x s -> finished x s s' -> tick_ok B now s'.
Proof using. clear Huser Hd user_fun.
  intros [K1 K2 K3 K4 K5 K6 K7] [Hn Hper] [F1 (F2 & F3 & F4) F5 (F6 & F7 & F8) F9].
  assert (Hl : forall y, y ∈ timer_list (tm s') -> y <> x /\ y ∈ timer_list (tm s) /\ timers (tm s') y = timers (tm s) y \/
    y = x /\ periodic s x = true /\ active s x = true).
  { intros y Hy. destruct (decide (y = x)) as [->|Hne].
    - right. split; [done|]. apply andb_true_iff. destruct (periodic s x && active s x); [done|]. by destruct F5.
    - left. destruct (F1 y Hne) as [? Hiff]. by rewrite Hiff in Hy. }
  split; try done.
  - unfold rt_tick_get. by rewrite F8.
  - intros y Hy. unfold rt_object_get_type. rewrite F7. destruct (Hl y Hy) as [(_ & Hin & _)|(-> & Hp & Ha)]; [by apply K4|].
    by apply Hper.
  - intros t Ht. destruct (Hl _ Ht) as [(_ & Hin & E)|(<- & Hp & Ha)].
    + unfold periodic. rewrite E, F6. by apply K5.
    + destruct Hper as (_ & (? & ? & ? & ? & _) & _); done.
  - intros i Hi. destruct (Hl _ Hi) as [(_ & Hin & E)|(<- & Hp & Ha)]; [rewrite E; by apply K6|].
    destruct Hper as (_ & (j & f & p & [= <-] & Ef & Happ) & _); [done..|]. exists f, p. by rewrite F2.
  - intros y Hy. destruct (Hl y Hy) as [(_ & Hin & E)|(-> & Hp & Ha)].
    + unfold periodic. rewrite E. by apply K7.
    + intros _. rewrite F3. by apply Hper.
Qed.

(** What the whole round leaves, from what its two halves leave. *)
Lemma finished_expired s s2 s3 x :
  tick_ok B now s -> x ∈ timer_list (tm s) -> called me now x s s2 -> rearmable B now x s2 ->
  finished x s2 s3 -> expired me now x s s3.
Proof using. clear Huser Hd user_fun.
  intros Hk Hx [C1 C2 C3 C4] [Hn Hper] [F1 (F2 & F3 & F4) F5 (F6 & F7 & F8) F9].
  assert (Hself : ~ T x -> timers (tm s2) x = timers (tm s) x) by (intros Hx'; by apply C2).
  assert (Hper2 : ~ T x -> periodic s2 x && active s2 x = periodic s x).
  { intros Ht. unfold periodic, active. rewrite Hself by done.
    rewrite (ti_active _ _ (tk_inv _ _ _ _ Hk)) by done. apply andb_true_r. }
  split.
  - intros y [Hy Hdue]. destruct (decide (y = x)) as [->|Hne].
    + exfalso. destruct (periodic s2 x && active s2 x) eqn:Ep; [|by destruct F5].
      apply andb_true_iff in Ep as [Hp Ha]. destruct (Hper Hp Ha) as (_ & _ & H0 & Hlt).
      destruct F5 as [_ E]. unfold due, timer_due in Hdue. rewrite E in Hdue.
      by rewrite (restarted_not_due B) in Hdue.
    + destruct (F1 y Hne) as [E Hiff]. apply C1. split; [by apply Hiff|]. unfold due in *. by rewrite E in Hdue.
  - intros y Ht Hne. rewrite (proj1 (F1 y Hne)). by apply C2.
  - intros y Ht. destruct (decide (y = x)) as [->|Hne].
    + rewrite Hper2 in F5 by done. destruct (periodic s x); naive_solver.
    + rewrite (proj2 (F1 y Hne)), (proj2 (C2 y Ht)). naive_solver.
  - intros Ht. rewrite F2, F3, F4. unfold periodic. by rewrite Hself.
  - intros Ht Hp. rewrite Hper2, Hp in F5 by done. rewrite <-Hself by done. apply F5.
  - intros Ht Hp. rewrite Hper2, Hp in F5 by done. apply F5.
  - intros t Ht. rewrite F6. by apply C3.
  - intros Hf. rewrite F8. by apply C4.
Qed.

Lemma wp_expire s x l :
  in_isr me cur (d + 1) s -> tick_ok B now s -> timer_list (tm s) = x :: l ->
  wp (timer_expire me user_fun x) (fun _ s' =>
    in_isr me cur (d + 1) s' /\ tick_ok B now s' /\ expired me now x s s') s.
Proof using Hd Huser.
  intros Hs Hk El. assert (Hx : x ∈ timer_list (tm s)) by (rewrite El; set_solver).
  unfold timer_expire. apply wp_bind, wp_on_tm_m, wp_timer_remove. wp_steps.
  set (ts1 := mkT (timers (tm s)) (remove_elt x (timer_list (tm s)))).
  assert (El1 : forall y, y ∈ timer_list ts1 <-> y ∈ timer_list (tm s) /\ y <> x)
    by (intros y; cbn; rewrite elem_of_remove_elt; tauto).
  assert (Hi1 : timer_inv B ts1) by (eapply timer_inv_remove; [apply Hk|done..]).
  assert (Hs1 : in_isr me cur (d + 1) (set_tm ts1 s)).
  { apply in_isr_tm; [done|by eapply timer_inv_wf|done|]. intros t. rewrite El1. tauto. }
  assert (Hk1 : tick_ok B now (set_tm ts1 s)).
  { apply tick_ok_unlink; [done|done| |done]. intros y. rewrite El1. tauto. }
  eapply wp_mono; [apply (wp_call_timeout s ts1 x); [done|apply Hs|done..]|].
  intros [] s2 (Hs2 & Hk2 & Hr2 & Hc). apply wp_bind, wp_get. cbv zeta.
  eapply wp_mono; [by apply (wp_expire_end s2 x)|]. intros [] s3 [Hs3 Hf].
  split_and!; [done|by eapply finished_tick_ok|by eapply finished_expired].
Qed.

Lemma expired_expires s s' x :
  expires now s x -> expired me now x s s' -> forall y, ~ T y -> expires now s' y <-> expires now s y /\ y <> x.
Proof using. clear Huser Hd user_fun.
  intros Hx He y Ht. split; [by apply He|]. intros [[Hy Hdue] Hne]. split.
  - apply (ex_list _ _ _ _ _ He); [done|]. auto.
  - unfold due in *. by rewrite (ex_others _ _ _ _ _ He).
Qed.

(** The timers that are due, in the order of the list. *)
Definition due_list (s : kstate) : list tmr :=
  filter (fun x => due now s x = true) (timer_list (tm s)).

Lemma elem_of_due_list s x : x ∈ due_list s <-> expires now s x.
Proof using. clear. unfold due_list, expires. rewrite list_elem_of_filter. tauto. Qed.

Lemma due_list_shrinks s s' x :
  expires now s x -> expired me now x s s' -> timer_inv B (tm s') ->
  (length (due_list s') < length (due_list s))%nat.
Proof using. clear Huser Hd user_fun.
  intros Hx He Hi. assert (Hs : x :: due_list s' ⊆+ due_list s).
  { apply NoDup_submseteq.
    - constructor; [|apply list.NoDup_filter, Hi].
      rewrite elem_of_due_list. intros Hy. by destruct (ex_new _ _ _ _ _ He x Hy).
    - intros y [->|Hy]%elem_of_cons; apply elem_of_due_list; [done|].
      apply elem_of_due_list in Hy. by apply (ex_new _ _ _ _ _ He). }
  apply submseteq_length in Hs. cbn in Hs. lia.
Qed.
End tick.

(** * The tick handler *)

(** No timer is due any more.  Of the timers that the functions leave alone
    exactly those that were due have expired: one-shot timers are off and out of
    the list, periodic timers are set one period ahead, and the threads that
    waited are ready with [-RT_ETIMEOUT]. *)
Record checked (me now : Z) (s s' : kstate) : Prop := {
  ck_none : forall x, x ∈ timer_list (tm s') -> due now s' x = false;
  ck_list : forall x, ~ T x -> x ∈ timer_list (tm s') <->
    x ∈ timer_list (tm s) /\ (due now s x = false \/ periodic s x = true);
  ck_kept : forall x, ~ T x -> ~ expires now s x -> timers (tm s') x = timers (tm s) x;
  ck_again : forall x, ~ T x -> expires now s x -> periodic s x = true ->
    timeout_tick (timers (tm s') x) = u32 (now + tm_init_tick (timers (tm s) x));
  ck_off : forall x, ~ T x -> expires now s x -> periodic s x = false -> active s' x = false;
  ck_woken : forall t, ~ T (ThreadTimer t) -> ~ W t -> expires now s (ThreadTimer t) ->
    threads s' t = put_stat RT_THREAD_READY (set_error (- RT_ETIMEOUT) (threads s t));
  ck_asleep : forall t, ~ W t -> ~ expires now s (ThreadTimer t) -> threads s' t = threads s t;
  ck_flag : irq_switch_flag (cpus s me) = 1 \/ (exists t, ~ T (ThreadTimer t) /\ expires now s (ThreadTimer t)) ->
    irq_switch_flag (cpus s' me) = 1 }.

Lemma checked_refl me now s :
  (forall x, x ∈ timer_list (tm s) -> due now s x = false) -> checked me now s s.
Proof.
  intros H. assert (Hn : forall x, ~ expires now s x).
  { intros x [Hx Hd]. by rewrite H in Hd. }
  split; try done; try (intros x _ Hx; by destruct (Hn _ Hx)).
  - naive_solver.
  - intros t _ _ Ht. by destruct (Hn _ Ht).
  - intros [Hf|(t & _ & Ht)]; [done|]. by destruct (Hn _ Ht).
Qed.

Lemma checked_step me now s s1 s2 x :
  expires now s x -> expired me now x s s1 -> checked me now s1 s2 -> checked me now s s2.
Proof.
  intros Hx He [C1 C2 C3 C4 C5 C6 C7 C8].
  pose proof (expired_expires me now s s1 x Hx He) as Hex.
  pose proof He as [En E1 E2 E3 E6 E7 E8 E11].
  assert (Hp : forall y, ~ T y -> periodic s1 y = periodic s y).
  { intros y Hy. destruct (decide (y = x)) as [->|?]; [by apply E3|]. unfold periodic. by rewrite E1. }
  assert (Hnx : ~ expires now s1 x) by (intros Hc; by destruct (En _ Hc)).
  split; [done|..].
  - intros y Ht. rewrite C2, Hp, E2 by done. destruct (decide (y = x)) as [->|Hy].
    + specialize (E2 x Ht). clear - Hx Hnx E2. unfold expires in *. rewrite E2 in Hnx. destruct Hx as [Hxl Hxd].
      rewrite Hxd. destruct (due now s1 x), (periodic s x); naive_solver.
    + unfold due. rewrite E1 by done. naive_solver.
  - intros y Ht Hy. rewrite C3; [|done|by rewrite Hex by done; tauto]. apply E1; [done|]. by intros ->.
  - intros y Ht Hy Hpy. destruct (decide (y = x)) as [->|?].
    + rewrite C3 by done. by apply E6.
    + rewrite C4; [by rewrite E1|done|by apply Hex|by rewrite Hp].
  - intros y Ht Hy Hpy. destruct (decide (y = x)) as [->|?].
    + unfold active. rewrite C3 by done. by apply E7.
    + apply C5; [done|by apply Hex|by rewrite Hp].
  - intros t Ht Hw Hy. destruct (decide (x = ThreadTimer t)) as [->|?].
    + rewrite C7, E8 by done. by rewrite decide_True.
    + rewrite C6; [|done|done|apply Hex; [done|split; congruence]]. rewrite E8 by done. by rewrite decide_False.
  - intros t Hw Ht. rewrite C7; [|done|intros Hc; by destruct (En _ Hc)]. rewrite E8 by done.
    rewrite decide_False; [done|]. by intros ->.
  - intros Hf. apply C8. destruct Hf as [Hf|(t & Ht & Hy)]; [left; apply E11; by left|].
    destruct (decide (x = ThreadTimer t)) as [->|?].
    + left. apply E11. right. by exists t.
    + right. exists t. split; [done|]. apply Hex; [done|]. split; congruence.
Qed.

Section loop.
Context (me : Z) (cur : tid) (d : Z) (user_fun : Z -> Z -> K unit) (B now : Z).
Context (Hd : 0 <= d < 31000) (Huser : user_ok me cur (d + 1) B now user_fun).

Lemma wp_check_loop fuel : forall s,
  in_isr me cur (d + 1) s -> tick_ok B now s -> (length (due_list now s) <= fuel)%nat ->
  wp (timer_check_loop me user_fun fuel now) (fun _ s' =>
    in_isr me cur (d + 1) s' /\ tick_ok B now s' /\ checked me now s s') s.
Proof using Hd Huser.
  induction fuel as [|fuel IH]; intros s Hs Hk Hl; cbn [timer_check_loop]; wp_steps;
    destruct (timer_list (tm s)) as [|x l] eqn:El;
    try (apply wp_ret; split_and!; [done|done|]; apply checked_refl;
         intros x Hx; rewrite El in Hx; by apply not_elem_of_nil in Hx);
    change (timer_due now (timers (tm s) x)) with (due now s x);
    destruct (due now s x) eqn:Hx;
    try (apply wp_ret; split_and!; [done|done|]; apply checked_refl;
         apply (none_due B now s x l); by try apply Hk).
  all: assert (He : expires now s x) by (split; [rewrite El; set_solver|done]).
  - apply elem_of_due_list in He. destruct (due_list now s); [by apply not_elem_of_nil in He|].
    cbn in Hl. lia.
  - apply wp_bind. eapply wp_mono; [by apply (wp_expire me cur d user_fun B now Hd Huser s x l)|].
    intros [] s1 (Hs1 & Hk1 & Hx1). wp_steps. rewrite (tk_now _ _ _ _ Hk1).
    assert (Hlt : (length (due_list now s1) < length (due_list now s))%nat)
      by (apply (due_list_shrinks me B now s s1 x); try done; apply Hk1).
    eapply wp_mono; [apply IH; [done|done|lia]|]. intros [] s2 (Hs2 & Hk2 & Hc).
    split_and!; [done|done|]. by eapply checked_step.
Qed.
End loop.

(** These notions do not see the lock. *)
Lemma tick_ok_keq B now s s' : keq s s' -> tick_ok B now s -> tick_ok B now s'.
Proof.
  intros E [K1 K2 K3 K4 K5 K6 K7]. pose proof (keq_tm _ _ E) as Em.
  split; unfold periodic, rt_object_get_type; rewrite <-?Em; try done.
  - unfold rt_tick_get. by rewrite <-(keq_cpus _ _ E).
  - intros x Hx. rewrite <-(keq_otype _ _ E). by apply K4.
  - intros t Ht. rewrite <-(keq_threads _ _ E). by apply K5.
Qed.

Lemma expires_keq now s s' x : keq s s' -> expires now s x <-> expires now s' x.
Proof. intros E. unfold expires, due. by rewrite (keq_tm _ _ E). Qed.

Lemma checked_keq me now s s1 s2 s' :
  keq s s1 -> keq s2 s' -> checked me now s1 s2 -> checked me now s s'.
Proof.
  intros E E' [C1 C2 C3 C4 C5 C6 C7 C8].
  pose proof (keq_tm _ _ E) as Em. pose proof (keq_tm _ _ E') as Em'.
  pose proof (fun x => expires_keq now _ _ x E) as Hx.
  split; unfold periodic, due, active in *; rewrite ?Em, <-?Em', <-?(keq_cpus _ _ E'), ?(keq_cpus _ _ E);
    try done.
  - intros x. rewrite Hx. apply C3.
  - intros x. rewrite Hx. apply C4.
  - intros x. rewrite Hx. apply C5.
  - intros t. rewrite Hx, <-(keq_threads _ _ E'), (keq_threads _ _ E). apply C6.
  - intros t. rewrite Hx, <-(keq_threads _ _ E'), (keq_threads _ _ E). apply C7.
  - intros [Hf|(t & Ht & Hy)]; apply C8; [by left|]. right. exists t. split; [done|]. by apply Hx.
Qed.

(** Taking and releasing the CPU lock in an interrupt handler. *)
Lemma in_isr_lock me cur d s : in_isr me cur d s -> 0 <= d < 32768 ->
  wp (rt_hw_interrupt_disable me) (fun _ s' => in_isr me cur (d + 1) s' /\ keq s s') s.
Proof.
  intros [H1 H2 H3 H4 H5 H6] Hd.
  eapply wp_mono; [eapply (lift me d (d + 1)) with (Q := fun _ s' => s' = s);
    [done|by apply er_disable|done|done|by apply wp_ret]|].
  intros [] s' (s0 & -> & E & D & P & S). split; [|done]. split; try done.
  - by rewrite S.
  - by rewrite <-(keq_cpus _ _ E).
  - by apply (kinv_keq _ _ E).
Qed.
Lemma in_isr_unlock me cur d s : in_isr me cur (d + 1) s -> 0 <= d < 32768 ->
  wp (rt_hw_interrupt_enable me) (fun _ s' => in_isr me cur d s' /\ keq s s') s.
Proof.
  intros [H1 H2 H3 H4 H5 H6] Hd.
  eapply wp_mono; [eapply (lift me (d + 1) d) with (Q := fun _ s' => s' = s);
    [done|by apply er_enable|done|done|by apply wp_ret]|].
  intros [] s' (s0 & -> & E & D & P & S). split; [|done]. split; try done.
  - by rewrite S.
  - by rewrite <-(keq_cpus _ _ E).
  - by apply (kinv_keq _ _ E).
Qed.

Lemma timer_check_steps me cur d user_fun B now fuel s :
  0 <= d < 31000 -> user_ok me cur (d + 1) B now user_fun ->
  in_isr me cur d s -> tick_ok B now s -> (length (timer_list (tm s)) <= fuel)%nat ->
  wp (rt_timer_check me user_fun fuel) (fun _ s' =>
    in_isr me cur d s' /\ tick_ok B now s' /\ checked me now s s') s.
Proof.
  intros Hd Hu Hs Hk Hf. unfold rt_timer_check. wp_steps. rewrite (tk_now _ _ _ _ Hk).
  eapply wp_mono; [apply in_isr_lock; [done|lia]|]. intros [] s1 [Hs1 E1]. apply wp_bind.
  eapply wp_mono; [apply (wp_check_loop me cur d user_fun B now Hd Hu); [done| |]|].
  - by eapply tick_ok_keq.
  - etrans; [|exact Hf]. rewrite (keq_tm _ _ E1). apply length_filter.
  - intros [] s2 (Hs2 & Hk2 & Hc). eapply wp_mono; [apply in_isr_unlock; [done|lia]|].
    intros [] s' [Hs' E']. split_and!; [done|by eapply tick_ok_keq|by eapply checked_keq].
Qed.

(** * The tick *)

(** The time slice of the interrupted thread. *)
Definition slice_over (th : thread) : bool := u64 (remaining_tick th - 1) =? 0.
Definition slice_thread (th : thread) : thread :=
  if slice_over th
  then set_stat (Z.lor (stat th) RT_THREAD_STAT_YIELD) (set_remaining_tick (init_tick th) th)
  else set_remaining_tick (u64 (remaining_tick th - 1)) th.

Definition ticked (me : Z) (s : kstate) : kstate :=
  with_cpu me (set_tick (u32 (tick (cpus s me) + 1)) (cpus s me)) s.
Definition sliced (me : Z) (cur : tid) (s : kstate) : kstate :=
  let s1 := with_thread cur (slice_thread (threads s cur)) (ticked me s) in
  if slice_over (threads s cur)
  then with_cpu me (set_irq_switch_flag 1 (cpus s1 me)) s1 else s1.

Lemma slice_thread_place th : same_place th (slice_thread th) /\
  oncpu (slice_thread th) = oncpu th.
Proof.
  unfold same_place, slice_thread, th_stat. case_match; cbn; [|done].
  by rewrite Z.land_lor_distr_l, Z.lor_0_r.
Qed.

Lemma in_isr_does me cur d s s1 s' :
  in_isr me cur d s -> does me d s s1 s' -> kinv s1 ->
  (forall c, current_thread (cpus s1 c) = current_thread (cpus s c)) ->
  irq_nest (cpus s1 me) = irq_nest (cpus s me) -> no_new s s1 -> in_isr me cur d s'.
Proof.
  intros [H1 H2 H3 H4 H5 H6] (E & D & N) Hi Hc Hn Hnn.
  assert (Hself : forall c, rt_thread_self c s' = rt_thread_self c s).
  { intros c. rewrite (keq_self _ _ c E). apply Hc. }
  split; try done.
  - by rewrite Hself.
  - by rewrite <-(keq_cpus _ _ E), Hn.
  - intros t Ht Hst Hcur. rewrite <-E in Ht. rewrite <-(keq_threads _ _ E) in Hst.
    destruct (Hnn t Ht Hst) as [Ht0 Hst0]. rewrite N.
    + apply H5; [done..|]. intros c. rewrite <-Hself. apply Hcur.
    + rewrite <-Hself. by apply Hcur.
  - by apply (kinv_keq _ _ E).
Qed.

Lemma with_thread_twice t a b s : keq (with_thread t b (with_thread t a s)) (with_thread t b s).
Proof. split; try done. intros x. cbn. apply upd_twice. Qed.

Lemma ticked_isr me cur d s : in_isr me cur d s -> in_isr me cur d (ticked me s).
Proof.
  intros Hs. apply (in_isr_does me cur d s (ticked me s)); [done| |..].
  - split_and!; [done| |done]. apply (lock_depth_frame _ _ s); [|done..|apply Hs].
    unfold rt_thread_self. cbn. by rewrite upd_eq.
  - by apply kinv_with_cpu, Hs.
  - intros c. cbn. unfold upd. case_decide; by subst.
  - cbn. by rewrite upd_eq.
  - by intros t.
Qed.

(** A thread that the tick touches without moving it. *)
Lemma in_isr_touch me cur d s t th' :
  in_isr me cur d s -> is_thread s t -> same_place (threads s t) th' ->
  oncpu th' = oncpu (threads s t) -> in_isr me cur d (with_thread t th' s).
Proof.
  intros Hs Ht Hp Ho. apply (in_isr_does me cur d s (with_thread t th' s)); try done.
  - split_and!; [done| |done]. apply (lock_depth_frame _ _ s); [done..|apply Hs].
  - apply kinv_touch; [apply Hs|done..].
  - apply (no_new_upd s _ t th'); [done|done|]. by rewrite (proj1 Hp).
Qed.

(** In an interrupt handler a yield is only a request. *)
Lemma yield_isr me cur d s (Q : Z -> kstate -> Prop) :
  in_isr me cur d s -> 0 <= d < 32000 ->
  (forall s', in_isr me cur d s' ->
     keq (with_cpu me (set_irq_switch_flag 1 (cpus s me)) s) s' -> Q RT_EOK s') ->
  wp (rt_thread_yield me) Q s.
Proof.
  intros Hs Hd HQ. unfold rt_thread_yield. apply wp_bind.
  eapply wp_mono; [apply (rt_schedule_deferred me d cur); [apply Hs|lia|apply Hs|apply Hs]|].
  intros [] s' Hdo. apply wp_ret, HQ; [|apply Hdo].
  eapply in_isr_does; [exact Hs|exact Hdo|apply kinv_with_cpu; [done|done|apply Hs]|..].
  - intros c. cbn. unfold upd. case_decide; by subst.
  - cbn. by rewrite upd_eq.
  - by intros t.
Qed.

Lemma in_isr_same me cur d s s' :
  in_isr me cur d s -> keq s s' -> nests s' = nests s -> cpus_lock s' = cpus_lock s ->
  in_isr me cur d s'.
Proof.
  intros Hs E En El. eapply (in_isr_does me cur d s s); [done| |apply Hs|done|done|done].
  split_and!; [done| |by rewrite En]. apply (lock_depth_frame _ _ s); try done; [|apply Hs].
  apply (keq_self _ _ _ E).
Qed.

Lemma keq_with_cpu c x s s' : keq s s' -> keq (with_cpu c x s) (with_cpu c x s').
Proof.
  intros E. apply (keq_set_cpus _ _ _ _ E). intros c'. unfold upd.
  by rewrite (keq_cpus _ _ E).
Qed.

Lemma tick_slice_steps me cur d s :
  in_isr me cur d s -> 0 <= d < 32000 -> is_thread s cur ->
  wp (tick_slice me) (fun _ s' => in_isr me cur d s' /\ keq (sliced me cur s) s') s.
Proof.
  intros Hs Hd Ht. unfold tick_slice. wp_steps.
  fold (ticked me s). pose proof (ticked_isr _ _ _ _ Hs) as Hs1.
  apply (wp_ofopt _ cur); [apply Hs1|]. wp_steps. cbn [threads with_thread set_threads].
  rewrite upd_eq. cbn [remaining_tick set_remaining_tick].
  set (th := threads (ticked me s) cur). fold (slice_over th).
  pose proof (slice_thread_place th) as [Hp Ho].
  pose proof (in_isr_touch me cur d (ticked me s) cur (slice_thread th) Hs1 Ht Hp Ho) as Hs2.
  unfold sliced. change (threads s cur) with th. unfold slice_thread in *.
  destruct (slice_over th) eqn:Eo; cbn [when]; [|by split].
  wp_steps. match goal with |- wp (rt_thread_yield me) _ ?x =>
    assert (E2 : keq (with_thread cur (set_stat (Z.lor (stat th) RT_THREAD_STAT_YIELD)
      (set_remaining_tick (init_tick th) th)) (ticked me s)) x) end.
  { cbn. rewrite !upd_eq. cbn. split; try done. intros x. cbn. by rewrite !upd_twice. }
  eapply yield_isr; [by eapply in_isr_same; [exact Hs2|exact E2|..]|done|].
  intros s' Hs' E'. apply wp_ret. split; [done|]. rewrite <-E'. by apply keq_with_cpu.
Qed.

Lemma tick_ok_sliced me cur B now s :
  tick_ok B now (ticked me s) -> tick_ok B now (sliced me cur s).
Proof.
  intros [K1 K2 K3 K4 K5 K6 K7].
  assert (Em : tm (sliced me cur s) = tm s) by (unfold sliced; by case_match).
  split; unfold periodic in *; rewrite ?Em; try done.
  - rewrite <-K2. unfold sliced, rt_tick_get. case_match; [|done]. cbn.
    destruct (decide (me = 0)) as [->|?]; [by rewrite !upd_eq|by rewrite !upd_ne].
  - intros x Hx. rewrite <-(K4 x Hx). unfold sliced. by case_match.
  - intros t Ht. destruct (K5 t Ht) as [Hp Ho]. split; [done|]. rewrite <-Ho.
    assert (Eth : threads (sliced me cur s) = upd (threads s) cur (slice_thread (threads s cur)))
      by (unfold sliced; by case_match). rewrite Eth.
    destruct (decide (cur = t)) as [<-|?]; [|by rewrite upd_ne].
    rewrite upd_eq. apply slice_thread_place.
Qed.

(** * Properties *)

(** C35: [rt_timer_check], called in the tick interrupt at tick [now], ends
    after at most as many rounds as there are timers in the list, with no timer
    of the list due any more and the list sorted.  The timeout functions of the
    application may do anything that keeps the kernel and the timer list well
    formed and the tick, within a footprint: start timers of [T] with a deadline in
    the future, stop, change or detach timers of [T], their own too (but not start
    the own one), wake or change threads of [W] ([_delayed_work_timeout_handler]
    of [workqueue.c] stops and detaches its timer and wakes its worker).  Of all
    the other timers exactly those whose deadline was reached have expired:
    one-shot timers are off and out of the list, periodic timers are set for [now]
    plus their period, and their threads, if not of [W], are ready with
    [-RT_ETIMEOUT] and a switch is requested. *)
Theorem rt_timer_check_expires me cur d user_fun B now fuel s :
  0 <= d < 31000 -> user_ok me cur (d + 1) B now user_fun ->
  in_isr me cur d s -> tick_ok B now s -> (length (timer_list (tm s)) <= fuel)%nat ->
  wp (rt_timer_check me user_fun fuel) (fun _ s' =>
    in_isr me cur d s' /\ tick_ok B now s' /\ checked me now s s') s.
Proof. apply timer_check_steps. Qed.

(** [rt_tick_increase] counts the tick, charges it to the interrupted
    thread (which is marked for rotation, with a full new slice and a switch
    requested, when its slice is over), and then expires the timers that are
    due at the new tick. *)
Theorem rt_tick_increase_ticks me cur d user_fun B now fuel s :
  0 <= d < 31000 -> user_ok me cur (d + 1) B now user_fun ->
  in_isr me cur d s -> is_thread s cur -> ~ W cur ->
  tick_ok B now (ticked me s) -> (length (timer_list (tm s)) <= fuel)%nat ->
  wp (rt_tick_increase me user_fun fuel) (fun _ s' =>
    in_isr me cur d s' /\ tick_ok B now s' /\ checked me now (sliced me cur s) s' /\
    threads s' cur = slice_thread (threads s cur) /\
    (slice_over (threads s cur) = true -> irq_switch_flag (cpus s' me) = 1)) s.
Proof.
  intros Hd Hu Hs Ht Hw Hk Hf. unfold rt_tick_increase. apply wp_bind.
  eapply wp_mono; [apply (tick_slice_steps me cur d s Hs ltac:(lia) Ht)|].
  intros [] s1 [Hs1 E1]. pose proof (tick_ok_sliced me cur B now s Hk) as Hk1.
  assert (Em : tm s1 = tm s) by (rewrite <-(keq_tm _ _ E1); unfold sliced; by case_match).
  eapply wp_mono; [apply (timer_check_steps me cur d user_fun B now fuel s1 Hd Hu Hs1);
    [by eapply tick_ok_keq|by rewrite Em]|].
  intros [] s' (Hs' & Hk' & Hc).
  assert (Hc' : checked me now (sliced me cur s) s') by by eapply checked_keq.
  assert (Ecur : threads (sliced me cur s) cur = slice_thread (threads s cur)).
  { unfold sliced. case_match; cbn; by rewrite upd_eq. }
  split_and!; [done|done|done| |].
  - rewrite <-Ecur. apply (ck_asleep _ _ _ _ Hc'); [done|]. intros [Hin _].
    apply (tk_thread _ _ _ _ Hk1) in Hin as [_ Ho]. rewrite Ecur in Ho.
    rewrite (proj2 (slice_thread_place _)) in Ho.
    destruct (kr_cur _ (ki_run _ (ii_kinv _ _ _ _ Hs)) me cur) as [Hon _];
      [apply Hs|apply Hs|]. pose proof (ii_me _ _ _ _ Hs) as Hme.
    rewrite Ho in Hon. unfold RT_CPU_DETACHED, RT_CPUS_NR in *. lia.
  - intros Hover. apply (ck_flag _ _ _ _ Hc'). left. unfold sliced. rewrite Hover. cbn.
    by rewrite upd_eq.
Qed.

End clock_props.

(** ** Instances

    The example in the tick interrupt of CPU 0 at tick 120: the wait of thread
    5 is over since tick 100, the periodic timers 2 and 1 since tick 105 and 110.
    The function of timer 1 sets bit 1 of event 3, for which nobody waits; that
    of timer 2 stops its timer. *)
Definition ex_timers (x : tmr) : rt_timer :=
  match x with
  | UserTimer 1 => mkTimer (Z.lor RT_TIMER_FLAG_PERIODIC RT_TIMER_FLAG_ACTIVATED)
                     (UserFun 0 0) 20 110
  | UserTimer 2 => mkTimer (Z.lor RT_TIMER_FLAG_PERIODIC RT_TIMER_FLAG_ACTIVATED)
                     (UserFun 1 2) 20 105
  | _ => ex_timer x
  end.
Definition ex_due : list tmr := [ThreadTimer 5; UserTimer 2; UserTimer 1].
Definition ex_isr_at (tk : Z) : kstate :=
  with_cpu 0 (mkCpu (Some 1%positive) 1 0 10 (2 ^ 12) tk)
    (set_tm (mkT ex_timers ex_due) ex).
Definition ex_user_fun (f p : Z) : K unit :=
  if f =? 0 then
    modify (fun s => set_events (upd (events s) 3%positive
      (set_evset (Z.lor (evset (events s 3%positive)) 2) (events s 3%positive))) s)
  else rt_timer_stop (Kn := Smp 0) (UserTimer (Z.to_pos p));; mret tt.
Definition ex_app (i : positive) (f p : Z) : Prop :=
  i = 1%positive /\ f = 0 /\ p = 0 \/ i = 2%positive /\ f = 1 /\ p = 2.
Definition ex_touched (x : tmr) : Prop := x = UserTimer 2.
Definition ex_no_thread (t : tid) : Prop := False.

Lemma kinv_events e s : kinv s -> kinv (set_events e s).
Proof. intros [[] [] ? ?]. split; [by split|by split|done|done]. Qed.

(** To stop a timer that is out of the list is to switch it off. *)
Lemma ex_stop cur d B i s (Q : unit -> kstate -> Prop) : 0 <= d < 31000 ->
  in_isr 0 cur (d + 1) s -> timer_inv B (tm s) -> UserTimer i ∉ timer_list (tm s) -> active s (UserTimer i) = true ->
  rt_object_get_type s (OTimer (UserTimer i)) = RT_Object_Class_Timer ->
  (forall s', in_isr 0 cur (d + 1) s' ->
     keq (set_tm (mkT (upd (timers (tm s)) (UserTimer i) (clear_flag RT_TIMER_FLAG_ACTIVATED (timers (tm s) (UserTimer i))))
       (timer_list (tm s))) s) s' -> Q tt s') ->
  wp (rt_timer_stop (Kn := Smp 0) (UserTimer i);; mret tt) Q s.
Proof.
  intros Hd Hs Hi Hn Ha Hty HQ. unfold rt_timer_stop, assert_type. wp_steps; [by apply Z.eqb_eq|]. wp_steps.
  change (tm_has _ _) with (active s (UserTimer i)). rewrite Ha. cbn [negb]. apply wp_bind.
  eapply wp_mono; [apply (in_isr_lock 0 cur (d + 1) s Hs); lia|]. intros [] s1 [Hs1 E1].
  apply wp_bind, wp_on_tm_m, wp_timer_remove. rewrite <-(keq_tm _ _ E1), remove_elt_notin by done.
  set (s2 := set_tm _ s1). assert (E2 : keq s s2) by (destruct E1; split; try done; cbn; by destruct (tm s)).
  assert (Hs2 : in_isr 0 cur (d + 1 + 1) s2) by (apply (in_isr_same 0 cur _ s1); [done| |done..]; etrans; [symmetry; exact E1|exact E2]).
  apply wp_bind. eapply wp_mono; [apply (in_isr_unlock 0 cur (d + 1) s2 Hs2); lia|]. intros [] s3 [Hs3 E3].
  apply wp_bind, wp_on_tm_m, wp_timer_upd, wp_ret. wp_steps.
  assert (E : keq s s3) by (by etrans). rewrite <-(keq_tm _ _ E). apply HQ.
  - apply in_isr_tm; [done| | |intros y; by rewrite <-(keq_tm _ _ E)].
    + eapply timer_inv_wf. eapply timer_inv_remove; [exact Hi|cbn; symmetry; by apply remove_elt_notin|].
      intros y Hy. cbn. by rewrite upd_ne.
    + intros y. rewrite <-(keq_tm _ _ E). cbn. unfold upd. by destruct (decide _) as [<-|].
  - destruct E. by split.
Qed.

Lemma ex_user_ok cur d B now : 0 <= d < 31000 ->
  user_ok ex_app ex_touched ex_no_thread 0 cur (d + 1) B now ex_user_fun.
Proof.
  intros Hd i f p s Happ Hs Hk Hr Hf Ha Hty. destruct Happ as [(-> & -> & ->)|(-> & -> & ->)]; unfold ex_user_fun; cbn [Z.eqb].
  - apply wp_modify. set (s1 := set_events _ s). split_and!; [|by destruct Hk|by destruct Hr|by split].
    apply (in_isr_does 0 cur (d + 1) s s1); try done.
    + split_and!; [done| |done]. apply (lock_depth_frame _ _ s); [done..|apply Hs].
    + apply kinv_events, Hs.
  - eapply (ex_stop cur d B 2); [done|done|apply Hk|apply Hr|done|done|]. cbn [Z.to_pos]. intros s' Hs' E. split; [done|].
    set (s1 := set_tm _ s) in E.
    assert (Hk1 : tick_ok ex_app B now s1).
    { apply tick_ok_unlink; [done| |done|].
      - eapply timer_inv_remove; [apply Hk|cbn; symmetry; by apply remove_elt_notin, Hr|].
        intros y Hy. cbn. by rewrite upd_ne.
      - intros y Hy. cbn. rewrite upd_ne; [done|]. intros <-. by apply (ra_out _ _ _ _ _ Hr). }
    assert (Hoff : active s' (UserTimer 2) = false).
    { unfold active. rewrite <-(keq_tm _ _ E). cbn. apply tm_has_clear. }
    split_and!; [by eapply tick_ok_keq| |].
    + split; [rewrite <-(keq_tm _ _ E); apply Hr|]. by rewrite Hoff.
    + split.
      * intros y [Hy Hdue]. rewrite <-(keq_tm _ _ E) in Hy. split; [done|]. revert Hdue. unfold due. rewrite <-(keq_tm _ _ E).
        cbn. rewrite upd_ne; [done|]. intros <-. by apply (ra_out _ _ _ _ _ Hr).
      * intros y Hy. rewrite <-(keq_tm _ _ E). cbn. rewrite upd_ne; [done|]. intros <-. by apply Hy.
      * intros t _. by rewrite <-(keq_threads _ _ E).
      * by rewrite <-(keq_cpus _ _ E).
Qed.

Lemma ex_timers_in x : x ∈ ex_due -> x = ThreadTimer 5 \/ x = UserTimer 2 \/ x = UserTimer 1.
Proof. unfold ex_due. rewrite !elem_of_cons. intros [?|[?|[?|[]%not_elem_of_nil]]]; auto. Qed.
Lemma ex_due_nodup : NoDup ex_due.
Proof. apply (bool_decide_unpack _). by vm_compute. Qed.

Lemma ex_isr_ok tk : in_isr 0 1%positive 0 (ex_isr_at tk).
Proof.
  split; [by split|done|done|by vm_compute|intros t _ _ _; by left|].
  apply kinv_with_cpu; [done|done|]. apply kinv_tm; [exact ex_kinv| | |].
  - split; [exact ex_due_nodup|].
    intros x [->|[->| ->]]%ex_timers_in; done.
  - intros [t|[i|[i|i|]|]]; done.
  - intros x [[= ->]|[?|?]]%ex_timers_in; [|done..]. right. done.
Qed.

Lemma ex_tick_ok : tick_ok ex_app 90 120 (ex_isr_at 120).
Proof.
  split; cbn [tm ex_isr_at with_cpu set_cpus set_tm timer_list]; try done.
  - split; cbn [tm ex_isr_at with_cpu set_cpus set_tm timer_list].
    + exact ex_due_nodup.
    + intros t [->|[->| ->]]%ex_timers_in; by vm_compute.
    + repeat constructor; by vm_compute.
    + intros x [->|[->| ->]]%ex_timers_in; done.
  - intros x [->|[->| ->]]%ex_timers_in; done.
  - intros t [[= ->]|[?|?]]%ex_timers_in; done.
  - intros i [?|[[= ->]|[= ->]]]%ex_timers_in; [done| |].
    + exists 1, 2. split; [done|]. by right.
    + exists 0, 0. split; [done|]. by left.
  - intros x [->|[->| ->]]%ex_timers_in; [done|..]; intros _; by vm_compute.
Qed.

(** Timer 2 is stopped, timer 1 is set for tick 140. *)
Lemma rt_timer_check_expires_ex :
  wp (rt_timer_check 0 ex_user_fun 3) (fun _ s' =>
    in_isr 0 1%positive 0 s' /\ tick_ok ex_app 90 120 s' /\ checked ex_touched ex_no_thread 0 120 (ex_isr_at 120) s')
    (ex_isr_at 120) /\
  wp (rt_timer_check 0 ex_user_fun 3) (fun _ s' => timer_list (tm s') = [UserTimer 1] /\
    timeout_tick (timers (tm s') (UserTimer 1)) = 140 /\ active s' (UserTimer 2) = false /\
    evset (events s' 3%positive) = Z.lor (evset (events ex 3%positive)) 2) (ex_isr_at 120).
Proof.
  split; [|vm_compute; by split_and!].
  apply (rt_timer_check_expires ex_app ex_touched ex_no_thread 0 1%positive 0 ex_user_fun 90 120 3 (ex_isr_at 120));
    [lia|by apply ex_user_ok|apply ex_isr_ok|exact ex_tick_ok|vm_compute; lia].
Defined.

Lemma ex_tick_ok_before : tick_ok ex_app 90 120 (ticked 0 (ex_isr_at 119)).
Proof.
  apply (tick_ok_keq ex_app 90 120 (ex_isr_at 120)); [|exact ex_tick_ok].
  split; try done. intros c. cbn. unfold upd. by case_decide.
Qed.

Lemma rt_tick_increase_ticks_ex :
  let s := ex_isr_at 119 in
  wp (rt_tick_increase 0 ex_user_fun 3) (fun _ s' =>
    in_isr 0 1%positive 0 s' /\ tick_ok ex_app 90 120 s' /\ checked ex_touched ex_no_thread 0 120 (sliced 0 1%positive s) s' /\
    threads s' 1%positive = slice_thread (threads s 1%positive) /\
    (slice_over (threads s 1%positive) = true -> irq_switch_flag (cpus s' 0) = 1)) s.
Proof.
  intros s. apply (rt_tick_increase_ticks ex_app ex_touched ex_no_thread 0 1%positive 0 ex_user_fun 90 120 3 s);
    [lia|by apply ex_user_ok|apply ex_isr_ok|done|by intros []|exact ex_tick_ok_before|done].
Defined.
