(* ===== verification/Sem.v ===== *)
(** Semaphores ([rt-thread/src/ipc.c], [RT_USING_SEMAPHORE]). *)
From S2P Require Import Prelude KService Timer KState KInv Sched Kernel KTimer Object Thread Ipc.

Definition sem_upd (sem : oid) (f : rt_semaphore -> rt_semaphore) : K unit :=
  modify (fun s => set_sems (upd (sems s) sem (f (sems s sem))) s).

Section ops.
Context {Kn : Kernel}.

Definition rt_sem_detach (sem : oid) : K Z :=
  assert_type (OIpc sem) RT_Object_Class_Semaphore;;
  s ← get;
  assertM (rt_object_is_systemobject s (OIpc sem));;
  rt_ipc_list_resume_all (Suspend sem);;
  rt_object_detach (OIpc sem);;
  mret RT_EOK.

(** [mem] is what [RT_KERNEL_MALLOC] returned. *)
Definition rt_sem_create (mem : option oid) (value flag : Z) : K (option oid) :=
  RT_DEBUG_NOT_IN_INTERRUPT cpu_id;;
  assertM (u32 value <? 0x10000);;
  o ← rt_object_allocate (OIpc <$> mem) RT_Object_Class_Semaphore;
  match o, mem with
  | Some _, Some sem =>
      rt_ipc_object_init sem;;
      sem_upd sem (set_sem_value (u16 value));;
      sem_upd sem (set_sem_flag (u8 flag));;
      mret (Some sem)
  | _, _ => mret None
  end.

Definition rt_sem_delete (sem : oid) : K Z :=
  RT_DEBUG_NOT_IN_INTERRUPT cpu_id;;
  assert_type (OIpc sem) RT_Object_Class_Semaphore;;
  s ← get;
  assertM (negb (rt_object_is_systemobject s (OIpc sem)));;
  rt_ipc_list_resume_all (Suspend sem);;
  rt_object_delete (OIpc sem);;
  mret RT_EOK.

(** [rt_sem_take] up to [rt_schedule], and after it. *)
Definition rt_sem_take_enter (sem : oid) (time : Z) : K (flow Z unit) :=
  assert_type (OIpc sem) RT_Object_Class_Semaphore;;
  interrupt_disable;;
  s ← get;
  if 0 <? sem_value (sems s sem) then
    sem_upd sem (fun x => set_sem_value (u16 (sem_value x - 1)) x);;
    interrupt_enable;;
    mret (Return RT_EOK)
  else if time =? 0 then
    interrupt_enable;;
    mret (Return (- RT_ETIMEOUT))
  else
    RT_DEBUG_IN_THREAD_CONTEXT cpu_id;;
    thread ← ofopt (rt_thread_self cpu_id s);
    thread_upd thread (set_error RT_EOK);;
    rt_ipc_list_suspend (Suspend sem) thread (sem_flag (sems s sem));;
    start_wait_timer thread time;;
    interrupt_enable;;
    mret (Blocked thread tt).

Definition rt_sem_take_resumed (thread : tid) (_ : unit) : K (flow Z unit) :=
  s ← get;
  if negb (error (threads s thread) =? RT_EOK) then mret (Return (error (threads s thread)))
  else mret (Return RT_EOK).

(** [rt_sem_release] up to [rt_schedule]: whether to call it. *)
Definition rt_sem_release_enter (sem : oid) : K bool :=
  assert_type (OIpc sem) RT_Object_Class_Semaphore;;
  interrupt_disable;;
  s ← get;
  need_schedule ←
    (if bool_decide (lists s (Suspend sem) <> []) then
       rt_ipc_list_resume (Suspend sem);;
       mret true
     else
       sem_upd sem (fun x => set_sem_value (u16 (sem_value x + 1)) x);;
       mret false);
  interrupt_enable;;
  mret need_schedule.

(** [RT_IPC_CMD_RESET] up to [rt_schedule]. *)
Definition rt_sem_reset_enter (sem : oid) (value : Z) : K unit :=
  interrupt_disable;;
  rt_ipc_list_resume_all (Suspend sem);;
  sem_upd sem (set_sem_value (u16 value));;
  interrupt_enable.
End ops.

(** ** The whole operations, on CPU [me] *)
Section whole.
Context (me : Z).
Let Kn : Kernel := Smp me.
#[local] Existing Instance Kn.

Definition rt_sem_init (sem : oid) (value flag : Z) : K Z :=
  assertM (u32 value <? 0x10000);;
  rt_object_init me (OIpc sem) RT_Object_Class_Semaphore;;
  rt_ipc_object_init sem;;
  sem_upd sem (set_sem_value (u16 value));;
  sem_upd sem (set_sem_flag (u8 flag));;
  mret RT_EOK.

Definition rt_sem_take (fuel : nat) (sem : oid) (time : Z) : K (option Z) :=
  o ← rt_sem_take_enter sem time;
  run_flow me rt_sem_take_resumed fuel o.

Definition rt_sem_trytake (sem : oid) : K (option Z) := rt_sem_take 1 sem 0.

Definition rt_sem_release (sem : oid) : K Z :=
  need_schedule ← rt_sem_release_enter sem;
  when need_schedule (rt_schedule me);;
  mret RT_EOK.

Definition rt_sem_control (sem : oid) (cmd arg : Z) : K Z :=
  assert_type (OIpc sem) RT_Object_Class_Semaphore;;
  if cmd =? RT_IPC_CMD_RESET then
    rt_sem_reset_enter sem arg;;
    rt_schedule me;;
    mret RT_EOK
  else mret (- RT_ERROR).
End whole.

(** * Erasure *)
Section erase.
Context (me d : Z) (Hd : 0 <= d < 32600).

Lemma rt_sem_take_enter_er sem time :
  erases me d d (rt_sem_take_enter (Kn := Smp me) sem time)
    (rt_sem_take_enter (Kn := Big me) sem time).
Proof using Hd. unfold rt_sem_take_enter, assert_type, sem_upd. er. Qed.

Lemma rt_sem_release_enter_er sem :
  erases me d d (rt_sem_release_enter (Kn := Smp me) sem)
    (rt_sem_release_enter (Kn := Big me) sem).
Proof using Hd. unfold rt_sem_release_enter, assert_type, sem_upd. er. Qed.

Lemma rt_sem_reset_enter_er sem v :
  erases me d d (rt_sem_reset_enter (Kn := Smp me) sem v)
    (rt_sem_reset_enter (Kn := Big me) sem v).
Proof using Hd. unfold rt_sem_reset_enter, sem_upd. er. Qed.

Lemma rt_sem_detach_er sem :
  erases me d d (rt_sem_detach (Kn := Smp me) sem) (rt_sem_detach (Kn := Big me) sem).
Proof using Hd. unfold rt_sem_detach, assert_type. er. Qed.

Lemma rt_sem_delete_er sem :
  erases me d d (rt_sem_delete (Kn := Smp me) sem) (rt_sem_delete (Kn := Big me) sem).
Proof using Hd. unfold rt_sem_delete, assert_type. er. Qed.
End erase.
#[export] Hint Resolve rt_sem_take_enter_er rt_sem_release_enter_er rt_sem_reset_enter_er
  rt_sem_detach_er rt_sem_delete_er : er.
