(* ===== verification/SemProps.v ===== *)
(** The properties of the waiting lists and of the semaphores: a semaphore
    implements an abstract counter with a queue of waiters. *)
From S2P Require Import Prelude KService Timer KState KInv Sched Kernel KTimer Object Thread ThreadSpec Example Ipc IpcSpec IpcExample Sem.

(** * Waiting lists *)

(** [rt_ipc_list_suspend] puts the thread behind all waiters ([FIFO]), or
    behind the waiters of its priority or a better one and in front of all
    others ([PRIO]); a list ordered by priority stays so. *)
Theorem rt_ipc_list_suspend_order me t h flag d s :
  0 <= me < RT_CPUS_NR -> lock_depth me d s -> 0 <= d < 32000 -> parked_ok s -> kinv s ->
  is_thread s t -> th_stat (threads s t) = RT_THREAD_RUNNING -> rt_thread_self me s = Some t ->
  is_wait_head h = true -> ipc_flag_ok flag ->
  wp (rt_ipc_list_suspend (Kn := Smp me) h t flag) (fun _ s' =>
    kinv s' /\ lock_depth me d s' /\ parked_ok s' /\
    (forall x, x <> h -> lists s' x = lists s x) /\
    exists l1 l2, lists s h = l1 ++ l2 /\ lists s' h = l1 ++ t :: l2 /\
      (flag = RT_IPC_FLAG_FIFO -> l2 = []) /\
      (flag = RT_IPC_FLAG_PRIO -> StronglySorted (by_priority (threads s)) (lists s h) ->
        StronglySorted (by_priority (threads s')) (lists s' h) /\
        Forall (fun x => current_priority (threads s x) <= current_priority (threads s t)) l1 /\
        Forall (fun x => current_priority (threads s t) < current_priority (threads s x)) l2)) s.
Proof.
  intros Hme Hd Hd0 Hp Hi Ht Hst Hself Hh Hf.
  destruct (block_core_ok s t Hi Ht Hst h flag Hh Hf) as (Hi1 & Hn1 & _).
  assert (Es : forall c, rt_thread_self c (block_core flag h t s) = rt_thread_self c s).
  { intros c. exact (proj1 (proj2 (suspend_core_fields s t)) c). }
  eapply wp_mono; [eapply wp_plain with (Q := fun _ s0 => s0 = block_core flag h t s);
    [done|done|done|apply rt_ipc_list_suspend_er; lia|]|].
  { by apply (wp_ipc_list_suspend me s t Hi Ht Hst h flag Hf). }
  intros [] s' (Hi' & D & P & s0 & -> & E). split_and!; [done..| |].
  - intros x Hx. by rewrite <-(keq_lists _ _ E), block_core_lists, decide_False by done.
  - assert (Ep : forall x, current_priority (threads s' x) = current_priority (threads s x)).
    { intros x. rewrite <-(keq_threads _ _ E). apply (suspend_core_prio s t). }
    rewrite <-(keq_lists _ _ E), block_core_lists, decide_True by done.
    destruct Hf as [-> | ->]; cbn.
    + exists (lists s h), []. rewrite app_nil_r. done.
    + destruct (prio_insert_split (threads s) t (lists s h)) as (l1 & l2 & E1 & E2 & H1 & H2).
      exists l1, l2. split_and!; [done..|]. intros _ Hs. split_and!; [|done|].
      * apply (StronglySorted_impl_in (by_priority (threads s))); [|by apply prio_insert_sorted].
        intros x y _ _. unfold by_priority. by rewrite !Ep.
      * rewrite E1 in Hs. apply StronglySorted_app_r in Hs. destruct l2 as [|y l2]; [done|].
        apply StronglySorted_inv in Hs as [_ Hall]. constructor; [done|].
        eapply Forall_impl; [exact Hall|]. unfold by_priority. intros z Hz. lia.
Qed.

Lemma rt_ipc_list_suspend_order_ex :
  wp (rt_ipc_list_suspend (Kn := Smp 0) (Suspend 1) 1%positive 1) (fun _ s' =>
    kinv s' /\ lock_depth 0 0 s' /\ parked_ok s' /\
    (forall x, x <> Suspend 1 -> lists s' x = lists ex x) /\
    exists l1 l2, lists ex (Suspend 1) = l1 ++ l2 /\
      lists s' (Suspend 1) = l1 ++ 1%positive :: l2 /\
      (1 = RT_IPC_FLAG_FIFO -> l2 = []) /\
      (1 = RT_IPC_FLAG_PRIO -> StronglySorted (by_priority (threads ex)) (lists ex (Suspend 1)) ->
        StronglySorted (by_priority (threads s')) (lists s' (Suspend 1)) /\
        Forall (fun x => current_priority (threads ex x) <= current_priority (threads ex 1%positive)) l1 /\
        Forall (fun x => current_priority (threads ex 1%positive) < current_priority (threads ex x)) l2)) ex.
Proof.
  apply (rt_ipc_list_suspend_order 0 1%positive (Suspend 1) 1 0 ex);
    [by split|exact (ex_depth 0)|lia|exact ex_parked|exact ex_kinv|done|done|done|done|by right].
Defined.

(** [rt_ipc_list_resume_all] ends, leaves no waiter on the list, stores
    [-RT_ERROR] in all that waited and makes them ready; the other threads,
    waiting lists and IPC objects are as before. *)
Theorem rt_ipc_list_resume_all_wakes me h d s :
  0 <= me < RT_CPUS_NR -> lock_depth me d s -> 0 <= d < 32000 -> parked_ok s -> kinv s ->
  is_wait_head h = true ->
  wp (rt_ipc_list_resume_all (Kn := Smp me) h) (fun _ s' =>
    kinv s' /\ lock_depth me d s' /\ parked_ok s' /\
    all_aborted h (lists s h) s s') s.
Proof.
  intros Hme Hd Hd0 Hp Hi Hh.
  destruct (abort_all_ok me h Hh (lists s h) s Hi eq_refl) as [A1 A2 A3 A4 A5 A6 A7 A8 A9].
  eapply wp_mono; [eapply wp_plain with (Q := fun _ s0 => s0 = abort_all me (lists s h) s);
    [done|done|done|apply rt_ipc_list_resume_all_er; lia|]|].
  { by apply (wp_resume_all me h Hh s). }
  intros [] s' (Hi' & D & P & s0 & -> & E). split_and!; [done..|].
  split; try done.
  - intros t. rewrite <-(keq_threads _ _ E), <-(keq_is_thread _ _ t E). apply A2.
  - intros c. by rewrite (keq_self _ _ c E).
  - by rewrite <-(keq_lists _ _ E).
  - intros x. rewrite <-(keq_threads _ _ E). apply A5.
  - intros x. rewrite <-(keq_threads _ _ E). apply A6.
  - intros x. rewrite <-(keq_lists _ _ E). apply A7.
  - etrans; [exact A8|by apply keq_objs].
  - intros o. by rewrite <-(keq_otype _ _ E).
Qed.

Lemma rt_ipc_list_resume_all_wakes_ex :
  wp (rt_ipc_list_resume_all (Kn := Smp 0) (Suspend 1)) (fun _ s' =>
    kinv s' /\ lock_depth 0 0 s' /\ parked_ok s' /\
    all_aborted (Suspend 1) [5%positive] ex s') ex.
Proof.
  apply (rt_ipc_list_resume_all_wakes 0 (Suspend 1) 0 ex);
    [by split|exact (ex_depth 0)|lia|exact ex_parked|exact ex_kinv|done].
Defined.

(** * The abstract semaphore

    Its value with the threads that wait.  A label says what an operation did:
    take a unit, refuse one, make the thread wait, wake a waiter, give a unit
    back, give one to a full counter; or that a waiter's time was over.  The
    counter has 16 bits, and nothing keeps a unit from being given when it is
    full: it becomes 0, and the 65536 units are lost. *)
Inductive sem_label :=
  | Took
  | Refused
  | Waits (t : tid)
  | Woke (t : tid)
  | Gave
  | Wrapped
  | Expired (t : tid).

Inductive sem_step : Z * list tid -> sem_label -> Z * list tid -> Prop :=
  | step_took v : 0 < v -> sem_step (v, []) Took (v - 1, [])
  | step_refused q : sem_step (0, q) Refused (0, q)
  | step_waits t q1 q2 : sem_step (0, q1 ++ q2) (Waits t) (0, q1 ++ t :: q2)
  | step_woke t q : sem_step (0, t :: q) (Woke t) (0, q)
  | step_gave v : 0 <= v < 65535 -> sem_step (v, []) Gave (v + 1, [])
  | step_wrapped : sem_step (65535, []) Wrapped (0, [])
  | step_expired t q1 q2 : sem_step (0, q1 ++ t :: q2) (Expired t) (0, q1 ++ q2).

Inductive sem_run : Z * list tid -> list sem_label -> Z * list tid -> Prop :=
  | run_nil a : sem_run a [] a
  | run_cons a b c l tr : sem_step a l b -> sem_run b tr c -> sem_run a (l :: tr) c.

(** What a run took, what it gave and what it lost: a woken waiter takes the
    unit that the release that wakes it gives. *)
Definition taken (l : sem_label) : Z := match l with Took | Woke _ => 1 | _ => 0 end.
Definition given (l : sem_label) : Z := match l with Gave | Wrapped | Woke _ => 1 | _ => 0 end.
Definition lost (l : sem_label) : Z := match l with Wrapped => 65536 | _ => 0 end.
Definition total (f : sem_label -> Z) (tr : list sem_label) : Z := foldr (fun l n => f l + n) 0 tr.

(** The abstract state of a semaphore, and its well-formedness. *)
Definition sem_abs (s : kstate) (sem : oid) : Z * list tid :=
  (sem_value (sems s sem), lists s (Suspend sem)).

Record sem_ok (s : kstate) (sem : oid) : Prop := {
  sk_type : rt_object_get_type s (OIpc sem) = RT_Object_Class_Semaphore;
  sk_flag : ipc_flag_ok (sem_flag (sems s sem));
  sk_value : 0 <= sem_value (sems s sem) < 65536;
  sk_waiters : 0 < sem_value (sems s sem) -> lists s (Suspend sem) = [] }.

Definition with_sem (sem : oid) (x : rt_semaphore) (s : kstate) : kstate :=
  set_sems (upd (sems s) sem x) s.

Lemma with_sem_ok sem x s :
  kinv s -> harmless s (with_sem sem x s).
Proof. intros [[] [] ? ?]. split_and!; [by split|done|done]. Qed.

Lemma sem_ok_to s s' sem v :
  sem_ok s sem -> (forall o, otype s' o = otype s o) ->
  sems s' sem = set_sem_value v (sems s sem) -> 0 <= v < 65536 ->
  (0 < v -> lists s' (Suspend sem) = []) -> sem_ok s' sem.
Proof.
  intros [H1 H2 H3 H4] Eo Es Hv El.
  split; unfold rt_object_get_type; rewrite ?Eo, ?Es; auto.
Qed.
Lemma sem_value_same x : set_sem_value (sem_value x) x = x.
Proof. by destruct x. Qed.

(** * Properties *)

(** In every run, the value is the initial one plus the units given minus the
    units taken and lost, and it is positive only when nobody waits. *)
Lemma sem_run_conserves v q v' q' tr :
  sem_run (v, q) tr (v', q') -> 0 <= v -> (0 < v -> q = []) ->
  v' + total taken tr + total lost tr = v + total given tr /\ 0 <= v' /\ (0 < v' -> q' = []).
Proof.
  intros Hr. remember (v, q) as a eqn:Ea. remember (v', q') as b eqn:Eb.
  revert v q v' q' Ea Eb. induction Hr as [a|a b c l tr Hs Hr IH]; intros v q v' q' Ea Eb Hv Hq.
  - subst. injection Eb as -> ->. cbn. split; [lia|auto].
  - destruct b as [v1 q1]. subst a.
    assert (H1 : v1 + taken l + lost l = v + given l /\ 0 <= v1 /\ (0 < v1 -> q1 = [])).
    { inversion Hs; subst; cbn; (split_and!; [lia|lia|auto; lia]). }
    destruct H1 as (H1 & H2 & H3).
    destruct (IH v1 q1 v' q' eq_refl Eb H2 H3) as (E1 & E2 & E3).
    unfold total in *. cbn. split; [lia|auto].
Qed.

(** ** Taking *)
Lemma wp_sem_take_enter me cur sem time s :
  blocker me cur s -> sem_ok s sem -> time < RT_TICK_MAX / 2 ->
  wp (rt_sem_take_enter (Kn := Big me) sem time)
    (flow_post me cur s
      (fun r s0 =>
        0 < sem_value (sems s sem) /\ r = RT_EOK /\
          s0 = with_sem sem (set_sem_value (sem_value (sems s sem) - 1) (sems s sem)) s \/
        sem_value (sems s sem) = 0 /\ time = 0 /\ r = - RT_ETIMEOUT /\ s0 = s)
      (fun _ _ => False)
      (fun flag h t s1 => sem_value (sems s sem) = 0 /\ time <> 0 /\
        flag = sem_flag (sems s sem) /\ h = Suspend sem /\ t = time /\ s1 = reset_error cur s)) s.
Proof.
  intros Hbr [K1 K2 K3 K4] Htime. unfold rt_sem_take_enter.
  cbn [interrupt_disable interrupt_enable Big cpu_id].
  apply wp_bind, wp_assert_type; [done|]. wp_steps.
  destruct (Z.ltb_spec 0 (sem_value (sems s sem))) as [Hv|Hv].
  - unfold sem_upd. wp_steps. split; [left|apply with_sem_ok, Hbr].
    split_and!; [done|done|]. unfold with_sem. by rewrite u16_small by lia.
  - destruct (Z.eqb_spec time 0) as [Hz|Hz].
    + wp_steps. split; [right; split_and!; [lia|done..]|apply harmless_refl, Hbr].
    + destruct (reset_blocker me cur s Hbr) as (Hbr1 & Hh1 & He1). apply wp_bind, (wp_blocker_context me cur); [done|]. wp_steps.
      apply (wp_ofopt _ cur); [apply Hbr|]. wp_steps. fold (reset_error cur s).
      apply wp_blocker; [done..|]. intros s' Hb. wp_steps. split; [done|].
      exists (sem_flag (sems s sem)), (Suspend sem), time, (reset_error cur s).
      split_and!; try done. lia.
Qed.

Lemma sem_take_steps me cur fuel sem time s :
  blocker me cur s -> lock_depth me 0 s -> parked_ok s -> sem_ok s sem ->
  time < RT_TICK_MAX / 2 ->
  wp (rt_sem_take me fuel sem time) (fun r s' =>
    kinv s' /\ lock_depth me 0 s' /\ parked_ok s' /\ sem_ok s' sem /\
    (r = Some RT_EOK /\ sem_step (sem_abs s sem) Took (sem_abs s' sem) /\
       keq (with_sem sem (sems s' sem) s) s' \/
     r = Some (- RT_ETIMEOUT) /\ time = 0 /\ keq s s' /\
       sem_step (sem_abs s sem) Refused (sem_abs s' sem) \/
     r = None /\ time <> 0 /\ waiting me cur (sem_flag (sems s sem)) (Suspend sem) time s s' /\
       sem_step (sem_abs s sem) (Waits cur) (sem_abs s' sem))) s.
Proof.
  intros Hbr Hd Hp Hk Htime. destruct (id Hbr) as [Hme Hself _ _ _ _ _ _].
  eapply wp_mono; [eapply wp_flow; [done|done|done|done|apply rt_sem_take_enter_er; lia|
    by apply wp_sem_take_enter]|].
  intros r s' (Hi' & D & P & H). do 3 (split; [done|]). destruct (id Hk) as [K1 K2 K3 K4].
  unfold sem_abs. destruct r as [r|]; cbn in H.
  - destruct H as [(s0 & [(Hv & -> & ->)|(Hv & Ht & -> & ->)] & E)|(s0 & s1 & [] & _)].
    + assert (Es : sems s' sem = set_sem_value (sem_value (sems s sem) - 1) (sems s sem)).
      { rewrite <-(keq_sems _ _ E). cbn. by rewrite upd_eq. }
      assert (El : lists s' (Suspend sem) = []) by (rewrite <-(keq_lists _ _ E); by apply K4).
      split; [apply (sem_ok_to s _ _ _ Hk) with (2 := Es); auto; [|lia]|left].
      { intros o. by rewrite <-(keq_otype _ _ E). }
      rewrite Es, El, K4 by done. cbn. split_and!; [done|by constructor|done].
    + split.
      { apply (sem_ok_to s _ _ (sem_value (sems s sem)) Hk); auto.
        - intros o. by rewrite <-(keq_otype _ _ E).
        - by rewrite sem_value_same, <-(keq_sems _ _ E).
        - lia. }
      right; left. rewrite <-(keq_sems _ _ E), <-(keq_lists _ _ E), Hv.
      split_and!; [done..|constructor].
  - destruct H as (flag & h & t & s1 & (Hv & Ht & -> & -> & -> & ->) & W).
    apply waiting_reset in W. pose proof (so_sems _ _ (wt_objs _ _ _ _ _ _ _ W)) as Es.
    split.
    { apply (sem_ok_to s _ _ (sem_value (sems s sem)) Hk); auto.
      - apply W.
      - by rewrite sem_value_same, Es.
      - lia. }
    right; right. split_and!; try done. rewrite Es, Hv, (wt_queue _ _ _ _ _ _ _ W).
    destruct (enqueue_split (sem_flag (sems s sem)) (threads s) cur (lists s (Suspend sem)) K2)
      as (l1 & l2 & E1 & E2). rewrite E2, E1. constructor.
Qed.

(** C14: [rt_sem_take] takes a unit when there is one; without one it refuses
    when the caller does not wait, and otherwise puts the caller on the waiting
    list, by arrival or by priority, with its timer set if the wait is bounded,
    and gives the CPU to the best ready thread.  Each case is a step of the
    abstract semaphore, and the invariants are kept. *)
Theorem rt_sem_take_refines me cur fuel sem time s :
  blocker me cur s -> lock_depth me 0 s -> parked_ok s -> sem_ok s sem ->
  time < RT_TICK_MAX / 2 ->
  wp (rt_sem_take me fuel sem time) (fun r s' =>
    kinv s' /\ lock_depth me 0 s' /\ parked_ok s' /\ sem_ok s' sem /\
    (r = Some RT_EOK /\ sem_step (sem_abs s sem) Took (sem_abs s' sem) /\
       keq (with_sem sem (sems s' sem) s) s' \/
     r = Some (- RT_ETIMEOUT) /\ time = 0 /\ keq s s' /\
       sem_step (sem_abs s sem) Refused (sem_abs s' sem) \/
     r = None /\ time <> 0 /\ waiting me cur (sem_flag (sems s sem)) (Suspend sem) time s s' /\
       sem_step (sem_abs s sem) (Waits cur) (sem_abs s' sem))) s.
Proof. intros. by apply sem_take_steps. Qed.

(** Thread 1 waits for semaphore 1, behind thread 5, for at most 25 ticks. *)
Lemma ex_sem1_ok : sem_ok ex 1%positive.
Proof. split; [done|by left|done|done]. Qed.

Lemma rt_sem_take_refines_ex :
  wp (rt_sem_take 0 3 1%positive 25) (fun r s' =>
    kinv s' /\ lock_depth 0 0 s' /\ parked_ok s' /\ sem_ok s' 1%positive /\
    (r = Some RT_EOK /\ sem_step (sem_abs ex 1%positive) Took (sem_abs s' 1%positive) /\
       keq (with_sem 1 (sems s' 1%positive) ex) s' \/
     r = Some (- RT_ETIMEOUT) /\ 25 = 0 /\ keq ex s' /\
       sem_step (sem_abs ex 1%positive) Refused (sem_abs s' 1%positive) \/
     r = None /\ 25 <> 0 /\ waiting 0 1%positive 0 (Suspend 1) 25 ex s' /\
       sem_step (sem_abs ex 1%positive) (Waits 1%positive) (sem_abs s' 1%positive))) ex.
Proof.
  apply (rt_sem_take_refines 0 1%positive 3 1%positive 25 ex ex_blocker (ex_depth 0) ex_parked
    ex_sem1_ok). done.
Defined.

(** ** Releasing *)
Lemma wp_sem_release_enter me sem s :
  kinv s -> sem_ok s sem ->
  wp (rt_sem_release_enter (Kn := Big me) sem) (fun need s0 => harmless s s0 /\
    match lists s (Suspend sem) with
    | [] => need = false /\
        s0 = with_sem sem (set_sem_value (u16 (sem_value (sems s sem) + 1)) (sems s sem)) s
    | t :: _ => need = true /\ s0 = resume_core me t s
    end) s.
Proof.
  intros Hi [K1 K2 K3 K4]. unfold rt_sem_release_enter.
  cbn [interrupt_disable interrupt_enable Big cpu_id].
  apply wp_bind, wp_assert_type; [done|]. wp_steps.
  destruct (lists s (Suspend sem)) as [|t l] eqn:El.
  - unfold sem_upd. wp_steps. split; [by apply with_sem_ok|done].
  - apply wp_bind. apply wp_bind, (wp_list_resume me s (Suspend sem) t l _ Hi); [done|done|]. wp_steps.
    destruct (waiter_thread s (Suspend sem) t Hi) as [Ht Hst]; [done|rewrite El; by left|].
    destruct (resume_core_ok me s t Hi Ht Hst) as [Hi1 Hn1].
    destruct (resume_core_fields me s t) as (_ & Es & _). done.
Qed.

(** What a release does to a semaphore with this value and these waiters. *)
Definition release_label (v : Z) (q : list tid) : sem_label :=
  match q with [] => if v =? 65535 then Wrapped else Gave | t :: _ => Woke t end.

Lemma sem_step_release v :
  0 <= v < 65536 -> sem_step (v, []) (release_label v []) (u16 (v + 1), []).
Proof.
  intros Hv. cbn. destruct (Z.eqb_spec v 65535) as [->|Hne]; [constructor|].
  rewrite u16_small by lia. constructor. lia.
Qed.

Lemma sem_release_steps me cur sem s :
  0 <= me < RT_CPUS_NR -> rt_thread_self me s = Some cur ->
  lock_depth me 0 s -> parked_ok s -> kinv s -> sem_ok s sem ->
  wp (rt_sem_release me sem) (fun r s' =>
    r = RT_EOK /\ kinv s' /\ lock_depth me 0 s' /\ parked_ok s' /\ sem_ok s' sem /\
    sem_step (sem_abs s sem) (release_label (sem_value (sems s sem)) (lists s (Suspend sem)))
      (sem_abs s' sem) /\
    match lists s (Suspend sem) with
    | [] => keq (with_sem sem (sems s' sem) s) s'
    | t :: _ => exists s1, keq (resume_core me t s) s1 /\ schedule_effect me cur s1 s'
    end) s.
Proof.
  intros Hme Hself Hd Hp Hi Hk. unfold rt_sem_release. apply wp_bind.
  eapply wp_mono; [eapply wp_plain; [done|done|done|apply rt_sem_release_enter_er; lia|]|].
  { eapply wp_mono; [by apply (wp_sem_release_enter me sem s)|]. intros need s0 [Hh Hq].
    split; [exact Hq|done]. }
  destruct (id Hk) as [K1 K2 K3 K4]. unfold sem_abs.
  destruct (lists s (Suspend sem)) as [|t l] eqn:El.
  - intros need s' (Hi' & D & P & s0 & (-> & ->) & E). wp_steps.
    assert (Es : sems s' sem = set_sem_value (u16 (sem_value (sems s sem) + 1)) (sems s sem)).
    { rewrite <-(keq_sems _ _ E). cbn. by rewrite upd_eq. }
    assert (El' : lists s' (Suspend sem) = []) by by rewrite <-(keq_lists _ _ E).
    rewrite El', Es. split_and!; try done.
    + apply (sem_ok_to s _ _ _ Hk) with (2 := Es); [|apply Z.mod_pos_bound; lia|done].
      intros o. by rewrite <-(keq_otype _ _ E).
    + by apply sem_step_release.
  - intros need s1 (Hi1 & D & P & s0 & (-> & ->) & E). cbn [when].
    destruct (resume_core_waiters me s (Suspend sem) t l Hi) as [El1 _]; [done|done|].
    destruct (resume_core_fields me s t) as (_ & Es & _).
    apply wp_bind, (wp_schedule_after me cur s1 s1); try done.
    { by rewrite (keq_self _ _ me E), Es. }
    intros s' Hi' D' P' He. wp_steps.
    destruct (schedule_effect_frame me cur s1 s') as (Eo & _ & Ewl); [done..|].
    assert (Eo1 : same_objs s s').
    { etrans; [apply (resume_core_objs me t s)|]. etrans; [by apply keq_objs|done]. }
    assert (Hv0 : sem_value (sems s sem) = 0).
    { destruct (decide (0 < sem_value (sems s sem))) as [Hpos|]; [by specialize (K4 Hpos)|lia]. }
    assert (Hk' : sem_ok s' sem).
    { apply (sem_ok_to s _ _ (sem_value (sems s sem)) Hk); [|..|lia].
      - intros o. rewrite (schedule_effect_otype me cur s1), <-(keq_otype _ _ E) by done.
        by destruct (resume_core_fields me s t) as (-> & _).
      - by rewrite sem_value_same, (so_sems _ _ Eo1).
      - lia. }
    rewrite (so_sems _ _ Eo1), Ewl, <-(keq_lists _ _ E), El1, Hv0 by done.
    split_and!; try done; [cbn; constructor|by exists s1].
Qed.

(** C15: [rt_sem_release], called by a thread or an interrupt handler, hands the
    unit to the first waiter, which is made ready, and asks for a switch; when
    nobody waits it adds one to the 16-bit value, which becomes 0 when it was
    65535.  Each case, the overflow included, is a step of the abstract
    semaphore, and the invariants are kept. *)
Theorem rt_sem_release_refines me cur sem s :
  0 <= me < RT_CPUS_NR -> rt_thread_self me s = Some cur ->
  lock_depth me 0 s -> parked_ok s -> kinv s -> sem_ok s sem ->
  wp (rt_sem_release me sem) (fun r s' =>
    r = RT_EOK /\ kinv s' /\ lock_depth me 0 s' /\ parked_ok s' /\ sem_ok s' sem /\
    sem_step (sem_abs s sem) (release_label (sem_value (sems s sem)) (lists s (Suspend sem)))
      (sem_abs s' sem) /\
    match lists s (Suspend sem) with
    | [] => keq (with_sem sem (sems s' sem) s) s'
    | t :: _ => exists s1, keq (resume_core me t s) s1 /\ schedule_effect me cur s1 s'
    end) s.
Proof. intros. by apply (sem_release_steps me cur). Qed.

Lemma rt_sem_release_refines_ex :
  wp (rt_sem_release 0 1%positive) (fun r s' =>
    r = RT_EOK /\ kinv s' /\ lock_depth 0 0 s' /\ parked_ok s' /\ sem_ok s' 1%positive /\
    sem_step (sem_abs ex 1%positive) (Woke 5%positive) (sem_abs s' 1%positive) /\
        exists s1, keq (resume_core 0 5%positive ex) s1 /\
          schedule_effect 0 1%positive s1 s') ex.
Proof.
  apply (rt_sem_release_refines 0 1%positive 1%positive ex); [by split|done|exact (ex_depth 0)|
    exact ex_parked|exact ex_kinv|exact ex_sem1_ok].
Defined.

(** The counter of a semaphore is not protected against overflow: released
    at 65535 with nobody waiting, its value becomes 0 and the 65535 units are
    lost. *)
Theorem rt_sem_release_overflow me sem s :
  0 <= me < RT_CPUS_NR -> lock_depth me 0 s -> parked_ok s -> kinv s -> sem_ok s sem ->
  sem_value (sems s sem) = 65535 ->
  wp (rt_sem_release me sem) (fun r s' => r = RT_EOK /\ sem_value (sems s' sem) = 0) s.
Proof.
  intros Hme Hd Hp Hi Hk Hv. unfold rt_sem_release. apply wp_bind.
  eapply wp_mono; [eapply wp_plain; [done|done|done|apply rt_sem_release_enter_er; lia|]|].
  { eapply wp_mono; [by apply (wp_sem_release_enter me sem s)|]. intros need s0 [Hh Hq].
    split; [exact Hq|done]. }
  rewrite (sk_waiters _ _ Hk) by lia.
  intros need s' (_ & _ & _ & s0 & (-> & ->) & E). wp_steps. split; [done|].
  rewrite <-(keq_sems _ _ E). cbn. rewrite upd_eq, Hv. done.
Qed.

Definition ex_full : kstate := with_sem 6 (mkSem 0 65535) ex.
Lemma rt_sem_release_overflow_ex :
  wp (rt_sem_release 0 6%positive) (fun r s' => r = RT_EOK /\ sem_value (sems s' 6%positive) = 0) ex_full.
Proof.
  apply (rt_sem_release_overflow 0 6%positive ex_full); [by split|by vm_compute|exact ex_parked| | |done].
  - apply with_sem_ok, ex_kinv.
  - split; [done|by left|done|done].
Defined.

(** ** Histories of a semaphore

    A history interleaves runs of the operations, by any threads and interrupt
    handlers on any CPU, with anything else that leaves the semaphore alone,
    and with the departure of waiters whose time is over. *)
Definition take_label (cur : tid) (r : option Z) : sem_label :=
  match r with None => Waits cur | Some e => if e =? RT_EOK then Took else Refused end.

Inductive sem_history (sem : oid) : kstate -> list sem_label -> kstate -> Prop :=
  | sh_nil s : sem_history sem s [] s
  | sh_take me cur fuel time s r s1 tr s2 :
      blocker me cur s -> lock_depth me 0 s -> parked_ok s ->
      time < RT_TICK_MAX / 2 -> rt_sem_take me fuel sem time s = Some (r, s1) ->
      sem_history sem s1 tr s2 -> sem_history sem s (take_label cur r :: tr) s2
  | sh_release me cur s r s1 tr s2 :
      0 <= me < RT_CPUS_NR -> rt_thread_self me s = Some cur ->
      lock_depth me 0 s -> parked_ok s -> kinv s -> rt_sem_release me sem s = Some (r, s1) ->
      sem_history sem s1 tr s2 ->
      sem_history sem s
        (release_label (sem_value (sems s sem)) (lists s (Suspend sem)) :: tr) s2
  | sh_other s s1 tr s2 :
      sem_abs s1 sem = sem_abs s sem -> (sem_ok s sem -> sem_ok s1 sem) ->
      sem_history sem s1 tr s2 -> sem_history sem s tr s2
  | sh_expired t q1 q2 s s1 tr s2 :
      sem_abs s sem = (0, q1 ++ t :: q2) -> sem_abs s1 sem = (0, q1 ++ q2) ->
      (sem_ok s sem -> sem_ok s1 sem) ->
      sem_history sem s1 tr s2 -> sem_history sem s (Expired t :: tr) s2.

Lemma sem_history_run sem s tr s' :
  sem_history sem s tr s' -> sem_ok s sem ->
  sem_run (sem_abs s sem) tr (sem_abs s' sem) /\ sem_ok s' sem.
Proof.
  induction 1 as [s|me cur fuel time s r s1 tr s2 Hb Hd Hp Ht E _ IH
    |me cur s r s1 tr s2 Hme Hself Hd Hp Hi E _ IH|s s1 tr s2 E Ho _ IH
    |t q1 q2 s s1 tr s2 E0 E1 Ho _ IH]; intros Hk.
  - split; [constructor|done].
  - pose proof (sem_take_steps me cur fuel sem time s Hb Hd Hp Hk Ht) as W.
    unfold wp in W. rewrite E in W. destruct W as (_ & _ & _ & Hk1 & W).
    destruct (IH Hk1) as [IH1 IH2]. split; [|done]. econstructor; [|exact IH1].
    by destruct W as [(-> & W & _)|[(-> & _ & _ & W)|(-> & _ & _ & W)]].
  - pose proof (sem_release_steps me cur sem s Hme Hself Hd Hp Hi Hk) as W.
    unfold wp in W. rewrite E in W. destruct W as (_ & _ & _ & _ & Hk1 & W).
    destruct (IH Hk1) as [IH1 IH2]. split; [|done]. econstructor; [|exact IH1].
    exact (proj1 W).
  - rewrite <-E. auto.
  - destruct (IH (Ho Hk)) as [IH1 IH2]. split; [|done].
    econstructor; [|exact IH1]. rewrite E0, E1. constructor.
Qed.


(** A history that begins with a release or a take in a state where the
    invariants hold. *)
Definition after {A} (f : K A) (s : kstate) : kstate :=
  match f s with Some (_, s') => s' | None => s end.

Definition settled (me : Z) (sem : oid) (s : kstate) : Prop :=
  kinv s /\ lock_depth me 0 s /\ parked_ok s /\ sem_ok s sem.

Lemma release_then me cur sem s s1 l tr s2 :
  0 <= me < RT_CPUS_NR -> rt_thread_self me s = Some cur -> settled me sem s ->
  l = release_label (sem_value (sems s sem)) (lists s (Suspend sem)) ->
  s1 = after (rt_sem_release me sem) s -> (settled me sem s1 -> sem_history sem s1 tr s2) ->
  sem_history sem s (l :: tr) s2.
Proof.
  intros Hme Hself (Hi & Hd & Hp & Hk) -> -> H. unfold after in H.
  pose proof (sem_release_steps me cur sem s Hme Hself Hd Hp Hi Hk) as W. unfold wp in W.
  destruct (rt_sem_release me sem s) as [[r s1]|] eqn:E; [|done].
  destruct W as (_ & Hi1 & D1 & P1 & Hk1 & _).
  by apply (sh_release sem me cur s r s1); try done; apply H.
Qed.

Lemma trytake_then me cur sem s s1 tr s2 :
  blocker me cur s -> settled me sem s -> 0 < sem_value (sems s sem) ->
  s1 = after (rt_sem_take me 0 sem 0) s -> (settled me sem s1 -> sem_history sem s1 tr s2) ->
  sem_history sem s (Took :: tr) s2.
Proof.
  intros Hb (Hi & Hd & Hp & Hk) Hv -> H. unfold after in H.
  assert (Ht : 0 < RT_TICK_MAX / 2) by (vm_compute; reflexivity).
  pose proof (sem_take_steps me cur 0 sem 0 s Hb Hd Hp Hk Ht) as W. unfold wp in W.
  destruct (rt_sem_take me 0 sem 0 s) as [[r s1]|] eqn:E; [|done].
  destruct W as (Hi1 & D1 & P1 & Hk1 & W).
  assert (Er : r = Some RT_EOK).
  { destruct W as [(-> & _)|[(_ & _ & _ & W)|(_ & W & _)]]; [done| |done].
    unfold sem_abs in W. inversion W. lia. }
  subst r. change Took with (take_label cur (Some RT_EOK)).
  by apply (sh_take sem me cur 0%nat 0 s (Some RT_EOK) s1); try done; apply H.
Qed.

(** Thread 1 releases semaphore 1 and wakes thread 5, which runs in its place,
    releases the semaphore again and takes it; semaphore 6 is full, and released. *)
Definition ex_woken : kstate := after (rt_sem_release 0 1) ex.
Definition ex_given : kstate := after (rt_sem_release 0 1) ex_woken.
Definition ex_taken : kstate := after (rt_sem_take 0 0 1 0) ex_given.
Definition ex_wrapped : kstate := after (rt_sem_release 0 6) ex_full.

Lemma ex_settled : settled 0 1 ex.
Proof. split_and!; [exact ex_kinv|exact (ex_depth 0)|exact ex_parked|exact ex_sem1_ok]. Qed.
Lemma ex_given_blocker : kinv ex_given -> blocker 0 5%positive ex_given.
Proof.
  intros Hi. split; [by split|by vm_compute..|exact Hi|by vm_compute|by vm_compute|].
  intros [H _]. by vm_compute in H.
Qed.
Lemma ex_full_ok : settled 0 6 ex_full.
Proof.
  split_and!; [apply with_sem_ok, ex_kinv|by vm_compute|exact ex_parked|].
  split; [done|by left|done|done].
Qed.

