(* ===== verification/Mutex.v ===== *)
(** Mutexes with recursion and priority inheritance ([rt-thread/src/ipc.c],
    [RT_USING_MUTEX]). *)
From S2P Require Import Prelude KService Timer KState KInv Sched Kernel KTimer Object Thread Ipc.

Definition mutex_upd (mutex : oid) (f : rt_mutex -> rt_mutex) : K unit :=
  modify (fun s => set_mutexes (upd (mutexes s) mutex (f (mutexes s mutex))) s).

(** The fields of a mutex that nobody holds. *)
Definition mutex_free (flag : Z) : rt_mutex := mkMutex flag 1 0xff 0 None.

Section ops.
Context {Kn : Kernel}.

Definition rt_mutex_detach (mutex : oid) : K Z :=
  assert_type (OIpc mutex) RT_Object_Class_Mutex;;
  s ← get;
  assertM (rt_object_is_systemobject s (OIpc mutex));;
  rt_ipc_list_resume_all (Suspend mutex);;
  rt_object_detach (OIpc mutex);;
  mret RT_EOK.

Definition rt_mutex_create (mem : option oid) (flag : Z) : K (option oid) :=
  RT_DEBUG_NOT_IN_INTERRUPT cpu_id;;
  o ← rt_object_allocate (OIpc <$> mem) RT_Object_Class_Mutex;
  match o, mem with
  | Some _, Some mutex =>
      rt_ipc_object_init mutex;;
      mutex_upd mutex (fun _ => mutex_free (u8 flag));;
      mret (Some mutex)
  | _, _ => mret None
  end.

Definition rt_mutex_delete (mutex : oid) : K Z :=
  RT_DEBUG_NOT_IN_INTERRUPT cpu_id;;
  assert_type (OIpc mutex) RT_Object_Class_Mutex;;
  s ← get;
  assertM (negb (rt_object_is_systemobject s (OIpc mutex)));;
  rt_ipc_list_resume_all (Suspend mutex);;
  rt_object_delete (OIpc mutex);;
  mret RT_EOK.

(** [rt_thread_control(thread, RT_THREAD_CTRL_CHANGE_PRIORITY, &priority)] *)
Definition control_priority (thread : tid) (priority : Z) : K unit :=
  assert_type (OThread thread) RT_Object_Class_Thread;;
  rt_thread_change_priority thread priority.

(** [rt_mutex_take] from the label [__again] up to [rt_schedule] or to the end. *)
Definition rt_mutex_take_again (mutex : oid) (thread : tid) (time : Z) : K (flow Z unit) :=
  s ← get;
  if 0 <? mutex_value (mutexes s mutex) then
    mutex_upd mutex (fun m => set_mutex_value (u16 (mutex_value m - 1)) m);;
    mutex_upd mutex (set_owner (Some thread));;
    mutex_upd mutex (set_original_priority (current_priority (threads s thread)));;
    mutex_upd mutex (fun m => set_hold (u8 (hold m + 1)) m);;
    interrupt_enable;;
    mret (Return RT_EOK)
  else if time =? 0 then
    thread_upd thread (set_error (- RT_ETIMEOUT));;
    interrupt_enable;;
    mret (Return (- RT_ETIMEOUT))
  else
    holder ← ofopt (owner (mutexes s mutex));
    when (current_priority (threads s thread) <? current_priority (threads s holder))
      (control_priority holder (current_priority (threads s thread)));;
    rt_ipc_list_suspend (Suspend mutex) thread (mutex_flag (mutexes s mutex));;
    start_wait_timer thread time;;
    interrupt_enable;;
    mret (Blocked thread tt).

Definition rt_mutex_take_enter (mutex : oid) (time : Z) : K (flow Z unit) :=
  RT_DEBUG_IN_THREAD_CONTEXT cpu_id;;
  assert_type (OIpc mutex) RT_Object_Class_Mutex;;
  s ← get;
  thread ← ofopt (rt_thread_self cpu_id s);
  interrupt_disable;;
  thread_upd thread (set_error RT_EOK);;
  s ← get;
  if bool_decide (owner (mutexes s mutex) = Some thread) then
    mutex_upd mutex (fun m => set_hold (u8 (hold m + 1)) m);;
    interrupt_enable;;
    mret (Return RT_EOK)
  else rt_mutex_take_again mutex thread time.

(** After [rt_schedule]; [-RT_EINTR] goes back to [__again]. *)
Definition rt_mutex_take_resumed (mutex : oid) (time : Z) (thread : tid) (_ : unit)
  : K (flow Z unit) :=
  s ← get;
  if negb (error (threads s thread) =? RT_EOK) then
    if error (threads s thread) =? - RT_EINTR then rt_mutex_take_again mutex thread time
    else mret (Return (error (threads s thread)))
  else
    interrupt_disable;;
    interrupt_enable;;
    mret (Return RT_EOK).

(** [rt_mutex_release] up to [rt_schedule]: the result, and whether to call it. *)
Definition rt_mutex_release_enter (mutex : oid) : K (Z * bool) :=
  assert_type (OIpc mutex) RT_Object_Class_Mutex;;
  RT_DEBUG_IN_THREAD_CONTEXT cpu_id;;
  s ← get;
  thread ← ofopt (rt_thread_self cpu_id s);
  interrupt_disable;;
  s ← get;
  if negb (bool_decide (owner (mutexes s mutex) = Some thread)) then
    thread_upd thread (set_error (- RT_ERROR));;
    interrupt_enable;;
    mret (- RT_ERROR, false)
  else
    mutex_upd mutex (fun m => set_hold (u8 (hold m - 1)) m);;
    s ← get;
    need_schedule ←
      (if hold (mutexes s mutex) =? 0 then
         when (negb (original_priority (mutexes s mutex) =?
                     current_priority (threads s thread)))
           (control_priority thread (original_priority (mutexes s mutex)));;
         s ← get;
         match lists s (Suspend mutex) with
         | waiter :: _ =>
             mutex_upd mutex (set_owner (Some waiter));;
             mutex_upd mutex (set_original_priority (current_priority (threads s waiter)));;
             mutex_upd mutex (fun m => set_hold (u8 (hold m + 1)) m);;
             rt_ipc_list_resume (Suspend mutex);;
             mret true
         | [] =>
             mutex_upd mutex (fun m => set_mutex_value (u16 (mutex_value m + 1)) m);;
             mutex_upd mutex (set_owner None);;
             mutex_upd mutex (set_original_priority 0xff);;
             mret false
         end
       else mret false);
    interrupt_enable;;
    mret (RT_EOK, need_schedule).
End ops.

(** ** The whole operations, on CPU [me] *)
Section whole.
Context (me : Z).
Let Kn : Kernel := Smp me.
#[local] Existing Instance Kn.

Definition rt_mutex_init (mutex : oid) (flag : Z) : K Z :=
  rt_object_init me (OIpc mutex) RT_Object_Class_Mutex;;
  rt_ipc_object_init mutex;;
  mutex_upd mutex (fun _ => mutex_free (u8 flag));;
  mret RT_EOK.

Definition rt_mutex_take (fuel : nat) (mutex : oid) (time : Z) : K (option Z) :=
  o ← rt_mutex_take_enter mutex time;
  run_flow me (rt_mutex_take_resumed mutex time) fuel o.

Definition rt_mutex_release (mutex : oid) : K Z :=
  '(r, need_schedule) ← rt_mutex_release_enter mutex;
  when need_schedule (rt_schedule me);;
  mret r.

Definition rt_mutex_control (mutex : oid) (cmd arg : Z) : K Z :=
  assert_type (OIpc mutex) RT_Object_Class_Mutex;;
  mret (- RT_ERROR).
End whole.

(** * Erasure *)
Section erase.
Context (me d : Z) (Hd : 0 <= d < 32600).

Lemma control_priority_er t p :
  erases me d d (control_priority (Kn := Smp me) t p) (control_priority (Kn := Big me) t p).
Proof using Hd. unfold control_priority, assert_type. er. Qed.

(** Entered inside the critical section of the caller. *)
Lemma rt_mutex_take_again_er mutex t time :
  erases me (d + 1) d (rt_mutex_take_again (Kn := Smp me) mutex t time)
    (rt_mutex_take_again (Kn := Big me) mutex t time).
Proof using Hd. unfold rt_mutex_take_again, control_priority, assert_type, mutex_upd. er. Qed.
Hint Resolve control_priority_er rt_mutex_take_again_er : er.

Lemma rt_mutex_take_enter_er mutex time :
  erases me d d (rt_mutex_take_enter (Kn := Smp me) mutex time)
    (rt_mutex_take_enter (Kn := Big me) mutex time).
Proof using Hd. unfold rt_mutex_take_enter, assert_type, mutex_upd. er. Qed.

Lemma rt_mutex_release_enter_er mutex :
  erases me d d (rt_mutex_release_enter (Kn := Smp me) mutex)
    (rt_mutex_release_enter (Kn := Big me) mutex).
Proof using Hd. unfold rt_mutex_release_enter, control_priority, assert_type, mutex_upd. er. Qed.
End erase.
#[export] Hint Resolve control_priority_er rt_mutex_take_enter_er rt_mutex_release_enter_er : er.
