(* ===== verification/MutexSpec.v ===== *)
(** Mutexes on the abstract kernel: priority inheritance and the invariant. *)
From S2P Require Import Prelude KService Timer KState KInv Sched Kernel KTimer Object Thread ThreadSpec Ipc IpcSpec Mutex.

(** * Changing the priority of a thread *)
Section change.
Context (me : Z) (s : kstate) (t : tid) (p : Z) (Hi : kinv s) (Ht : is_thread s t).
Context (Hp : 0 <= p < 32) (Hst : schedulable (threads s t)).
Let cc := change_core me s t p.

Lemma change_core_frame :
  otype cc = otype s /\ (forall c, rt_thread_self c cc = rt_thread_self c s) /\
  nests cc = nests s /\ tm cc = tm s /\ same_objs s cc /\
  forall c, irq_nest (cpus cc c) = irq_nest (cpus s c) /\ tick (cpus cc c) = tick (cpus s c).
Proof using.
  clear Hi Ht Hp Hst. unfold cc, change_core. case_match; [|by split_and!].
  set (s1 := with_thread t _ _).
  destruct (insert_core_fields me t s1) as (-> & -> & Es & _).
  destruct (insert_core_frame me t s1) as (_ & En & _).
  destruct (remove_core_frame t s) as (Es0 & En0 & _).
  split_and!.
  - apply remove_core_otype.
  - intros c. rewrite Es. apply Es0.
  - rewrite En. apply En0.
  - apply remove_core_tm.
  - etrans; [apply (remove_core_objs t s)|]. etrans; [|apply insert_core_objs]. by split.
  - intros c. destruct (insert_core_cpu me t s1 c) as [-> ->]. apply (remove_core_cpu t s c).
Qed.

Lemma change_core_threads x :
  threads cc x = if decide (x = t) then
      (if th_stat (threads s t) =? RT_THREAD_READY
       then put_stat RT_THREAD_READY (put_priority p (threads s t))
       else put_priority p (threads s t))
    else threads s x.
Proof using Hi Ht.
  clear Hp Hst. unfold cc, change_core. case_match eqn:Est.
  - apply Z.eqb_eq in Est.
    assert (Ho : oncpu (threads s t) = RT_CPU_DETACHED) by (apply (ready_oncpu s t); done || apply Hi).
    set (s1 := with_thread t _ _).
    destruct (insert_core_fields me t s1) as (_ & _ & _ & -> & _).
    assert (Hs1 : threads s1 t = put_priority p (threads s t)) by (cbn; by rewrite upd_eq).
    rewrite Hs1. assert (wake_stat (put_priority p (threads s t)) = RT_THREAD_READY) as ->.
    { unfold wake_stat. cbn. by rewrite Ho. }
    unfold upd. cbn. rewrite remove_core_threads. unfold upd. repeat case_decide; naive_solver.
  - cbn. unfold upd. repeat case_decide; naive_solver.
Qed.

Lemma change_core_ok' :
  kinv cc /\ no_new s cc /\ schedulable (threads cc t) /\
  current_priority (threads cc t) = p.
Proof using Hi Ht Hp Hst.
  assert (Hb : 0 <= bind_cpu (threads s t) <= RT_CPUS_NR)
    by by apply (kw_prio _ (ki_wf _ Hi) t Ht Hst).
  destruct (change_core_ok me s t p Hi Ht Hp) as (Hi1 & Hn1 & Et); [|done|].
  { destruct Hst as [-> |[-> | ->]]; done. }
  fold cc in Hi1, Hn1, Et. split_and!; try done; rewrite Et; case_match eqn:Est; try done.
  apply Z.eqb_eq in Est. unfold schedulable.
  rewrite th_stat_put by (unfold RT_THREAD_READY; lia). tauto.
Qed.

Lemma change_core_waiters h : is_ready_head h = false -> lists cc h = lists s h.
Proof using Hi Ht.
  clear Hp Hst. intros Hh. unfold cc, change_core. case_match eqn:Est; [|done].
  apply Z.eqb_eq in Est. set (s1 := with_thread t _ _).
  destruct (insert_core_fields me t s1) as (_ & _ & _ & _ & El).
  rewrite El, decide_False, app_nil_r.
  - change (lists s1 h) with (lists (remove_core t s) h). rewrite remove_core_lists.
    apply remove_elt_notin. intros Hin.
    destruct (kw_loc _ (ki_wf _ Hi) h t Hin) as [_ Hl]. destruct h; try done; cbn in Hl; by rewrite Est in Hl.
  - intros [-> _]. unfold ready_head in Hh. by destruct (bind_cpu _ =? _).
Qed.

(** Nobody becomes less able to run on this CPU. *)
Lemma change_core_eligible x : eligible me s x -> eligible me cc x.
Proof using Hi Ht Hp.
  clear Hst. intros (q & Hq & Hin). unfold cc, change_core.
  destruct (Z.eqb_spec (th_stat (threads s t)) RT_THREAD_READY) as [Est|Est];
    [|by exists q].
  assert (Ho : oncpu (threads s t) = RT_CPU_DETACHED) by (apply (ready_oncpu s t); done || apply Hi).
  set (s1 := with_thread t _ _).
  destruct (insert_core_fields me t s1) as (_ & _ & _ & _ & El).
  assert (Hs1 : threads s1 t = put_priority p (threads s t)) by (cbn; by rewrite upd_eq).
  assert (El1 : forall h, lists s1 h = remove_elt t (lists s h)) by apply remove_core_lists.
  destruct (decide (x = t)) as [->|Hne].
  - exists p. split; [done|]. rewrite !El, !El1, Hs1.
    assert (Hr : ready_head (put_priority p (threads s t)) = Ready p \/
      ready_head (put_priority p (threads s t)) = CpuReady me p).
    { destruct Hin as [Hin|Hin]; destruct (kw_loc _ (ki_wf _ Hi) _ t Hin) as [_ (_ & Hl & _)];
        unfold ready_head in Hl |- *; cbn; destruct (bind_cpu (threads s t) =? RT_CPUS_NR);
        inversion Hl; auto. }
    destruct Hr as [Hr|Hr]; [left|right]; rewrite elem_of_app; right;
      (rewrite decide_True; [by left|by rewrite Hr]).
  - exists q. split; [done|]. rewrite !El, !El1, !elem_of_app, !elem_of_remove_elt. naive_solver.
Qed.

Lemma change_core_blocker cur : cur <> t -> blocker me cur s -> blocker me cur cc.
Proof using Hi Ht Hp Hst.
  intros Hne [B1 B2 B3 B4 B5 B6 B7 B8].
  destruct change_core_frame as (Eo & Es & En & _ & _ & Ec). destruct change_core_ok' as (Hi1 & _).
  split; try done.
  - by rewrite Es.
  - by rewrite (proj1 (Ec me)).
  - by rewrite En.
  - unfold is_thread, rt_object_get_type. by rewrite Eo.
  - by rewrite change_core_threads, decide_False.
  - rewrite none_ready_iff by (done || apply Hi1). intros Hno. apply B8.
    apply none_ready_iff; [apply Hi|done|]. intros x Hx. by apply (Hno x), change_core_eligible.
Qed.
End change.

Lemma wp_control_priority me s t p (Q : unit -> kstate -> Prop) :
  kinv s -> is_thread s t -> schedulable (threads s t) -> 0 <= p < 32 ->
  Q tt (change_core me s t p) -> wp (control_priority (Kn := Big me) t p) Q s.
Proof.
  intros Hi Ht Hst Hp HQ. unfold control_priority. apply wp_bind, wp_assert_type; [done|].
  assert (Eu : u8 p = p) by (apply u8_small; lia).
  apply wp_change_priority; [|rewrite Eu; lia|by rewrite Eu].
  by apply (kw_prio _ (ki_wf _ Hi) t Ht Hst).
Qed.

(** * The invariant of a mutex *)
Record mutex_ok (s : kstate) (m : oid) : Prop := {
  mo_type : rt_object_get_type s (OIpc m) = RT_Object_Class_Mutex;
  mo_flag : ipc_flag_ok (mutex_flag (mutexes s m));
  mo_state :
    match owner (mutexes s m) with
    | None => mutexes s m = mutex_free (mutex_flag (mutexes s m)) /\ lists s (Suspend m) = []
    | Some o => 1 <= hold (mutexes s m) < 256 /\ mutex_value (mutexes s m) = 0 /\
        0 <= original_priority (mutexes s m) < 32 /\
        is_thread s o /\ schedulable (threads s o)
    end }.

Definition with_mutex (m : oid) (x : rt_mutex) (s : kstate) : kstate :=
  set_mutexes (upd (mutexes s) m x) s.

Lemma with_mutex_ok m x s : kinv s -> harmless s (with_mutex m x s).
Proof. intros [[] [] ? ?]. split_and!; [by split|done|done]. Qed.

(** The new waiter lends its priority to the owner when it is better. *)
Definition inherit (me : Z) (o cur : tid) (s : kstate) : kstate :=
  if current_priority (threads s cur) <? current_priority (threads s o)
  then change_core me s o (current_priority (threads s cur)) else s.

Lemma inherit_ok me o cur s :
  blocker me cur s -> o <> cur -> is_thread s o -> schedulable (threads s o) ->
  blocker me cur (inherit me o cur s) /\ harmless s (inherit me o cur s) /\
  same_objs s (inherit me o cur s) /\ rt_tick_get (inherit me o cur s) = rt_tick_get s /\
  otype (inherit me o cur s) = otype s /\
  (forall h, is_ready_head h = false -> lists (inherit me o cur s) h = lists s h) /\
  (forall x, x <> o -> threads (inherit me o cur s) x = threads s x) /\
  schedulable (threads (inherit me o cur s) o) /\
  current_priority (threads (inherit me o cur s) o) =
    Z.min (current_priority (threads s o)) (current_priority (threads s cur)).
Proof.
  intros Hbr Hne Ho Hso. unfold inherit. destruct (id Hbr) as [_ _ _ _ Hi Ht Hrun _].
  assert (Hp : 0 <= current_priority (threads s cur) < 32) by by eapply blocker_prio.
  destruct (Z.ltb_spec (current_priority (threads s cur)) (current_priority (threads s o))) as [Hlt|Hge].
  - set (p := current_priority (threads s cur)) in *.
    destruct (change_core_frame me s o p) as (Eo & Es & En & Em & Eb & Ec).
    destruct (change_core_ok' me s o p Hi Ho Hp Hso) as (Hi1 & Hn1 & Hs1 & Ep1).
    split_and!; try done.
    + by apply change_core_blocker.
    + apply (Ec 0).
    + intros h. by apply change_core_waiters.
    + intros x Hx. by rewrite change_core_threads, decide_False.
    + rewrite Ep1. lia.
  - split_and!; try done. lia.
Qed.

(** ** Taking *)
Definition take_done (cur : tid) (m : oid) (time : Z) (s : kstate) (r : Z) (s0 : kstate) : Prop :=
  let M := mutexes s m in
  owner M = Some cur /\ r = RT_EOK /\
    keq (with_mutex m (set_hold (u8 (hold M + 1)) M) (reset_error cur s)) s0 \/
  owner M = None /\ r = RT_EOK /\
    keq (with_mutex m (mkMutex (mutex_flag M) 0 (current_priority (threads s cur)) 1 (Some cur))
           (reset_error cur s)) s0 \/
  (exists o, owner M = Some o /\ o <> cur) /\ time = 0 /\ r = - RT_ETIMEOUT /\
    keq (with_thread cur (set_error (- RT_ETIMEOUT) (threads s cur)) s) s0.

Lemma wp_mutex_take_enter me cur m time s :
  blocker me cur s -> mutex_ok s m -> time < RT_TICK_MAX / 2 ->
  wp (rt_mutex_take_enter (Kn := Big me) m time)
    (flow_post me cur s (take_done cur m time s) (fun _ _ => False)
      (fun flag h t s1 => exists o, owner (mutexes s m) = Some o /\ o <> cur /\ time <> 0 /\
        flag = mutex_flag (mutexes s m) /\ h = Suspend m /\ t = time /\
        s1 = inherit me o cur (reset_error cur s))) s.
Proof.
  intros Hbr [K1 K2 K3] Htime. unfold rt_mutex_take_enter.
  cbn [interrupt_disable interrupt_enable Big cpu_id].
  destruct (reset_blocker me cur s Hbr) as (Hbr1 & Hh1 & He1).
  apply wp_bind, (wp_blocker_context me cur); [done|].
  apply wp_bind, wp_assert_type; [done|]. wp_steps. apply (wp_ofopt _ cur); [apply Hbr|].
  wp_steps. fold (reset_error cur s). change (mutexes (reset_error cur s)) with (mutexes s).
  assert (Hharm : forall x, harmless s (with_mutex m x (reset_error cur s))).
  { intros x. eapply harmless_trans; [exact Hh1|]. apply with_mutex_ok, Hbr1. }
  case_bool_decide as Hown.
  { unfold mutex_upd. wp_steps. split; [by left|apply Hharm]. }
  unfold rt_mutex_take_again. cbn [interrupt_disable interrupt_enable Big cpu_id]. wp_steps.
  change (mutexes (reset_error cur s)) with (mutexes s).
  destruct (owner (mutexes s m)) as [o|] eqn:Eo.
  - destruct K3 as (K3 & K4 & K5 & K6 & K7). rewrite K4. cbn [Z.ltb Z.compare].
    assert (Hne : o <> cur) by congruence.
    destruct (Z.eqb_spec time 0) as [Hz|Hz].
    + wp_steps. set (s2 := with_thread cur (set_error (- RT_ETIMEOUT) _) _).
      assert (E : keq (with_thread cur (set_error (- RT_ETIMEOUT) (threads s cur)) s) s2).
      { split; try done. intros x. cbn. unfold upd. by repeat case_decide. }
      split; [right; right; split_and!; [by exists o|done..]|].
      eapply harmless_keq; [exact E|].
      apply harmless_error; [exact (br_kinv _ _ _ Hbr)|exact (br_thread _ _ _ Hbr)].
    + wp_steps. apply (wp_ofopt _ o); [done|].
      assert (Hth : threads (reset_error cur s) o = threads s o) by (cbn; by rewrite upd_ne).
      assert (Hso : schedulable (threads (reset_error cur s) o)) by by rewrite Hth.
      destruct (inherit_ok me o cur (reset_error cur s) Hbr1 Hne K6 Hso)
        as (Hbr2 & Hh2 & _ & _ & _ & _ & Et2 & _).
      apply wp_bind. eapply wp_mono with
        (P := fun _ s' => s' = inherit me o cur (reset_error cur s)).
      { unfold inherit, when. destruct (_ <? _); [|by wp_steps].
        apply wp_control_priority; [apply Hbr1|done|done| |done].
        by eapply blocker_prio. }
      intros [] s2 ->. wp_steps. apply wp_blocker; [done..|]. intros s' Hb. wp_steps.
      split; [done|].
      exists (mutex_flag (mutexes s m)), (Suspend m), time, (inherit me o cur (reset_error cur s)).
      split_and!; try done; [by exists o|by eapply harmless_trans|by rewrite Et2].
  - destruct K3 as (K3 & K4). rewrite K3. cbn [Z.ltb Z.compare mutex_value mutex_free].
    unfold mutex_upd. wp_steps. set (s2 := set_mutexes _ _).
    set (M := mkMutex (mutex_flag (mutexes s m)) 0 (current_priority (threads s cur)) 1 (Some cur)).
    assert (E : keq (with_mutex m M (reset_error cur s)) s2).
    { split; try done. intros x. cbn. unfold upd. repeat case_decide; try done. subst.
      rewrite K3. cbn. unfold M. by destruct (threads s cur). }
    split; [right; left; split_and!; done|].
    by apply (harmless_keq s (with_mutex m M (reset_error cur s))).
Qed.

(** ** Releasing *)

(** The owner gets its own priority back. *)
Definition restore (me : Z) (cur : tid) (p : Z) (s : kstate) : kstate :=
  if negb (p =? current_priority (threads s cur)) then change_core me s cur p else s.

Lemma remove_core_mutex t m x s : remove_core t (with_mutex m x s) = with_mutex m x (remove_core t s).
Proof. unfold remove_core. cbn. by repeat case_match. Qed.
Lemma insert_core_mutex me t m x s :
  insert_core me t (with_mutex m x s) = with_mutex m x (insert_core me t s).
Proof. unfold insert_core. cbn. by repeat case_match. Qed.

Lemma restore_with_mutex me cur p m x s :
  restore me cur p (with_mutex m x s) = with_mutex m x (restore me cur p s).
Proof.
  unfold restore, change_core. rewrite remove_core_mutex.
  change (threads (with_mutex m x s)) with (threads s).
  do 2 (case_match; [|done]). rewrite <-insert_core_mutex. done.
Qed.

Lemma restore_ok me cur p s :
  kinv s -> is_thread s cur -> th_stat (threads s cur) = RT_THREAD_RUNNING -> 0 <= p < 32 ->
  harmless s (restore me cur p s) /\ same_objs s (restore me cur p s) /\
  otype (restore me cur p s) = otype s /\ nests (restore me cur p s) = nests s /\
  (forall h, is_ready_head h = false -> lists (restore me cur p s) h = lists s h) /\
  (forall x, x <> cur -> threads (restore me cur p s) x = threads s x) /\
  current_priority (threads (restore me cur p s) cur) = p /\
  th_stat (threads (restore me cur p s) cur) = RT_THREAD_RUNNING.
Proof.
  intros Hi Ht Hst Hp. unfold restore.
  assert (Hs : schedulable (threads s cur)) by (right; right; done).
  destruct (Z.eqb_spec p (current_priority (threads s cur))) as [E|E]; cbn [negb].
  - split_and!; try done.
  - destruct (change_core_frame me s cur p) as (Eo & Es & En & _ & Eb & _).
    destruct (change_core_ok' me s cur p Hi Ht Hp Hs) as (Hi1 & Hn1 & _ & Ep).
    split_and!; try done.
    + intros h. by apply change_core_waiters.
    + intros x Hx. by rewrite change_core_threads, decide_False.
    + rewrite change_core_threads, decide_True, Hst by done. exact Hst.
Qed.

(** What a release does to the state, and whether it asks for a switch. *)
Definition release_post (me : Z) (cur : tid) (m : oid) (s : kstate) (r : Z * bool) (s0 : kstate)
  : Prop :=
  let M := mutexes s m in
  let rs := restore me cur (original_priority M) s in
  if bool_decide (owner M = Some cur) then
    if hold M =? 1 then
      match lists s (Suspend m) with
      | [] => r = (RT_EOK, false) /\ keq (with_mutex m (mutex_free (mutex_flag M)) rs) s0
      | t :: _ => r = (RT_EOK, true) /\
          keq (resume_core me t (with_mutex m (mkMutex (mutex_flag M) 0
                 (current_priority (threads rs t)) 1 (Some t)) rs)) s0
      end
    else r = (RT_EOK, false) /\ keq (with_mutex m (set_hold (hold M - 1) M) s) s0
  else r = (- RT_ERROR, false) /\
    keq (with_thread cur (set_error (- RT_ERROR) (threads s cur)) s) s0.

Lemma wp_mutex_release_enter me cur m s :
  caller me cur s -> mutex_ok s m ->
  wp (rt_mutex_release_enter (Kn := Big me) m) (fun r s0 =>
    release_post me cur m s r s0 /\ harmless s s0) s.
Proof.
  intros [_ Hself Hirq Hi Ht Hst] [K1 K2 K3]. unfold rt_mutex_release_enter, release_post.
  cbn [interrupt_disable interrupt_enable Big cpu_id].
  apply wp_bind, wp_assert_type; [done|].
  unfold RT_DEBUG_IN_THREAD_CONTEXT, RT_DEBUG_NOT_IN_INTERRUPT. wp_steps.
  { apply bool_decide_true. by rewrite Hself. }
  { unfold rt_interrupt_get_nest. by rewrite Hirq. }
  apply (wp_ofopt _ cur); [done|]. wp_steps.
  case_bool_decide as Ho; cbn [negb].
  2:{ wp_steps. split; [done|by apply harmless_error]. }
  rewrite Ho in K3. destruct K3 as (K3 & K4 & K5 & K6 & K7).
  set (M := mutexes s m) in *. unfold mutex_upd. wp_steps. fold M.
  assert (Eh : u8 (hold M - 1) = hold M - 1) by (apply u8_small; lia). rewrite Eh.
  set (s1 := set_mutexes _ _).
  change s1 with (with_mutex m (set_hold (hold M - 1) M) s). clear s1.
  cbn [mutexes with_mutex set_mutexes]. rewrite upd_eq. cbn [hold set_hold original_priority].
  destruct (Z.eqb_spec (hold M - 1) 0) as [Hz|Hz].
  2:{ assert (hold M =? 1 = false) as -> by (apply Z.eqb_neq; lia).
      wp_steps. split; [done|by apply with_mutex_ok]. }
  assert (hold M =? 1 = true) as -> by (apply Z.eqb_eq; lia).
  set (M0 := set_hold (hold M - 1) M).
  assert (EM0 : M0 = mkMutex (mutex_flag M) 0 (original_priority M) 0 (owner M)).
  { unfold M0. rewrite Hz. destruct M; cbn in *; by subst. }
  destruct (restore_ok me cur (original_priority M) s Hi Ht Hst K5)
    as (Hh1 & Ho1 & Eot & _ & El1 & Et1 & _ & _).
  set (rs := restore me cur (original_priority M) s) in *.
  apply wp_bind. eapply wp_mono with (P := fun _ s' => s' = with_mutex m M0 rs).
  { unfold rs. rewrite <-restore_with_mutex. unfold when, restore. cbn [threads with_mutex set_mutexes].
    destruct (negb _); [|by wp_steps].
    apply wp_control_priority; [by apply with_mutex_ok|done|by right; right|done|done]. }
  intros [] s2 ->. wp_steps. cbn [lists with_mutex set_mutexes].
  assert (Hhm : forall x, harmless s (with_mutex m x rs)).
  { intros x. eapply harmless_trans; [exact Hh1|]. apply with_mutex_ok, Hh1. }
  rewrite El1 by done. destruct (lists s (Suspend m)) as [|t l] eqn:El.
  - wp_steps. set (s3 := set_mutexes _ _).
    assert (E : keq (with_mutex m (mutex_free (mutex_flag M)) rs) s3).
    { split; try done. intros x. cbn. unfold upd. repeat case_decide; try done.
      by rewrite EM0. }
    split; [done|]. by eapply harmless_keq.
  - wp_steps. set (s3 := set_mutexes _ _).
    set (M1 := mkMutex (mutex_flag M) 0 (current_priority (threads rs t)) 1 (Some t)).
    assert (E : keq (with_mutex m M1 rs) s3).
    { split; try done. intros x. cbn. unfold upd. repeat case_decide; try done.
      by rewrite EM0. }
    destruct (harmless_keq _ _ _ E (Hhm M1)) as (Hi3 & Hn3 & Hs3).
    assert (El3 : lists s3 (Suspend m) = t :: l).
    { rewrite <-(keq_lists _ _ E). cbn. by rewrite El1. }
    apply (wp_list_resume me s3 (Suspend m) t l _ Hi3); [done|done|]. wp_steps.
    destruct (waiter_thread s3 (Suspend m) t Hi3) as [Ht3 Hst3]; [done|rewrite El3; by left|].
    destruct (resume_core_ok me s3 t Hi3 Ht3 Hst3) as [Hi4 Hn4].
    destruct (resume_core_fields me s3 t) as (_ & Es4 & _).
    split; [split; [done|]|].
    + by rewrite E.
    + split_and!; [done|by etrans|]. intros c. by rewrite Es4, Hs3.
Qed.
