(* ===== verification/MutexProps.v ===== *)
(** The properties of the mutexes: a mutex implements an abstract recursive
    lock with a queue, lends priorities, and where it does not give them back. *)
From S2P Require Import Prelude KService Timer KState KInv Sched Kernel KTimer Object Thread ThreadSpec Example Ipc IpcSpec IpcExample Mutex MutexSpec ThreadProps.

(** * The abstract mutex: the owner with its depth, and the waiters *)
Abbreviation amutex := (option (tid * Z) * list tid)%type.

Inductive mutex_label :=
  | Acquired (t : tid)
  | Denied (t : tid)
  | Queued (t : tid)
  | Released (t : tid) (next : option tid)
  | Expired (t : tid).

Inductive mutex_step : amutex -> mutex_label -> amutex -> Prop :=
  | mx_acquire t : mutex_step (None, []) (Acquired t) (Some (t, 1), [])
  | mx_reenter t n q : 0 < n -> mutex_step (Some (t, n), q) (Acquired t) (Some (t, n + 1), q)
  | mx_deny t o n q : o <> t -> mutex_step (Some (o, n), q) (Denied t) (Some (o, n), q)
  | mx_queue t o n q1 q2 : o <> t ->
      mutex_step (Some (o, n), q1 ++ q2) (Queued t) (Some (o, n), q1 ++ t :: q2)
  | mx_leave t n q : 1 < n ->
      mutex_step (Some (t, n), q) (Released t None) (Some (t, n - 1), q)
  | mx_free t : mutex_step (Some (t, 1), []) (Released t None) (None, [])
  | mx_hand t u q : mutex_step (Some (t, 1), u :: q) (Released t (Some u)) (Some (u, 1), q)
  | mx_expire t o n q1 q2 : mutex_step (Some (o, n), q1 ++ t :: q2) (Expired t) (Some (o, n), q1 ++ q2).

Inductive mutex_run : amutex -> list mutex_label -> amutex -> Prop :=
  | mrun_nil a : mutex_run a [] a
  | mrun_cons a b c l tr : mutex_step a l b -> mutex_run b tr c -> mutex_run a (l :: tr) c.

(** What a step changes in the number of times [t] is inside. *)
Definition inside (t : tid) (l : mutex_label) : Z :=
  match l with
  | Acquired u => if decide (u = t) then 1 else 0
  | Released u next => (if decide (u = t) then -1 else 0) + (if decide (next = Some t) then 1 else 0)
  | _ => 0
  end.
Definition depth_of (t : tid) (a : amutex) : Z :=
  match a.1 with Some (o, n) => if decide (o = t) then n else 0 | None => 0 end.

Definition mutex_abs (s : kstate) (m : oid) : amutex :=
  (match owner (mutexes s m) with Some t => Some (t, hold (mutexes s m)) | None => None end,
   lists s (Suspend m)).

(** In every run, the times [t] comes in (at once, or by hand-over) less the
    times it leaves are the depth at which it owns the mutex. *)
Lemma mutex_run_depth a tr b t :
  mutex_run a tr b -> depth_of t b = depth_of t a + foldr (fun l n => inside t l + n) 0 tr.
Proof.
  intros Hr. induction Hr as [a|a b c l tr Hs Hr IH]; cbn; [lia|]. rewrite IH.
  assert (E : depth_of t b = depth_of t a + inside t l); [|lia].
  destruct Hs; unfold depth_of; cbn; repeat case_decide; simplify_eq; lia.
Qed.

Lemma depth_of_one a t u : 0 < depth_of t a -> 0 < depth_of u a -> t = u.
Proof.
  unfold depth_of. destruct a as [[[o n]|] q]; cbn; [|lia]. repeat case_decide; [congruence|lia..].
Qed.

(** ** Taking *)
Lemma mutex_ok_with s m x :
  kinv s -> rt_object_get_type s (OIpc m) = RT_Object_Class_Mutex -> ipc_flag_ok (mutex_flag x) ->
  match owner x with
  | None => x = mutex_free (mutex_flag x) /\ lists s (Suspend m) = []
  | Some o => 1 <= hold x < 256 /\ mutex_value x = 0 /\ 0 <= original_priority x < 32 /\
      is_thread s o /\ schedulable (threads s o)
  end -> mutex_ok (with_mutex m x s) m.
Proof.
  intros Hi Ht Hf Hs. split; cbn; rewrite ?upd_eq; try done.
Qed.

Lemma mutex_ok_keq s s' m : keq s s' -> mutex_ok s m -> mutex_ok s' m.
Proof.
  intros E [H1 H2 H3]. split; unfold rt_object_get_type;
    rewrite <-?(keq_otype _ _ E), <-?(keq_mutexes _ _ E); [done..|].
  destruct (owner (mutexes s m)) as [o|].
  - by rewrite <-(keq_is_thread _ _ o E), <-(keq_threads _ _ E).
  - by rewrite <-(keq_lists _ _ E).
Qed.

(** The state after an acquisition. *)
Lemma acquired_ok me cur m x s s' :
  blocker me cur s -> mutex_ok s m -> keq (with_mutex m x (reset_error cur s)) s' ->
  mutex_flag x = mutex_flag (mutexes s m) -> owner x = Some cur -> 1 <= hold x < 256 ->
  mutex_value x = 0 -> 0 <= original_priority x < 32 ->
  mutex_ok s' m /\ mutexes s' m = x /\ lists s' (Suspend m) = lists s (Suspend m).
Proof.
  intros Hbr [K1 K2 _] E Ef Eo Hh Hv Hp. destruct (reset_blocker me cur s Hbr) as ([] & _ & _).
  split_and!.
  - apply (mutex_ok_keq _ _ _ E), mutex_ok_with; try done; [by rewrite Ef|].
    rewrite Eo. split_and!; try done; try lia. right; right. done.
  - rewrite <-(keq_mutexes _ _ E). cbn. by rewrite upd_eq.
  - by rewrite <-(keq_lists _ _ E).
Qed.

(** The invariant while others wait: the owner is still alive. *)
Lemma queued_ok me cur m o time s s' :
  blocker me cur s -> mutex_ok s m -> owner (mutexes s m) = Some o -> o <> cur ->
  waiting me cur (mutex_flag (mutexes s m)) (Suspend m) time (inherit me o cur (reset_error cur s)) s' ->
  mutex_ok s' m /\ mutexes s' m = mutexes s m /\
  lists s' (Suspend m) = enqueue (mutex_flag (mutexes s m))
    (threads (inherit me o cur (reset_error cur s))) cur (lists s (Suspend m)) /\
  current_priority (threads s' o) =
    Z.min (current_priority (threads s o)) (current_priority (threads s cur)).
Proof.
  intros Hbr [K1 K2 K3] Eo Hne W. rewrite Eo in K3. destruct K3 as (K3 & K4 & K5 & K6 & K7).
  destruct (reset_blocker me cur s Hbr) as (Hbr1 & _ & _).
  assert (Hth : threads (reset_error cur s) o = threads s o) by (cbn; by rewrite upd_ne).
  assert (Hpc : current_priority (threads (reset_error cur s) cur) = current_priority (threads s cur))
    by (cbn; by rewrite upd_eq).
  destruct (inherit_ok me o cur (reset_error cur s) Hbr1 Hne K6) as
    (_ & _ & Eb & _ & Eot & El & Et & Hso & Ep); [by rewrite Hth|].
  pose proof (wt_threads _ _ _ _ _ _ _ W o Hne) as [Em Hsch].
  assert (Emx : mutexes s' m = mutexes s m).
  { rewrite (so_mutexes _ _ (wt_objs _ _ _ _ _ _ _ W)). apply Eb. }
  split_and!; [|done| |].
  - split; unfold rt_object_get_type; rewrite ?(wt_otype _ _ _ _ _ _ _ W), ?Eot, ?Emx; [done..|].
    rewrite Eo. split_and!; try done; try lia; [|by apply Hsch].
    unfold is_thread, rt_object_get_type. by rewrite (wt_otype _ _ _ _ _ _ _ W), Eot.
  - rewrite (wt_queue _ _ _ _ _ _ _ W). by rewrite El.
  - rewrite Em. cbn. rewrite Ep, Hth, Hpc. done.
Qed.

(** The one take that is not a step: the depth has 8 bits. *)
Inductive mutex_wrap (t : tid) : amutex -> amutex -> Prop :=
  | mx_wrap q : mutex_wrap t (Some (t, 255), q) (Some (t, 0), q).

Definition full (m : oid) (cur : tid) (s : kstate) : Prop :=
  owner (mutexes s m) = Some cur /\ hold (mutexes s m) = 255.

Lemma mutex_wrap_steps me cur fuel m time s :
  blocker me cur s -> lock_depth me 0 s -> parked_ok s -> mutex_ok s m ->
  time < RT_TICK_MAX / 2 -> full m cur s ->
  wp (rt_mutex_take me fuel m time) (fun r s' =>
    kinv s' /\ lock_depth me 0 s' /\ parked_ok s' /\
    r = Some RT_EOK /\ mutex_wrap cur (mutex_abs s m) (mutex_abs s' m) /\
    keq (with_mutex m (set_hold 0 (mutexes s m)) (reset_error cur s)) s') s.
Proof.
  intros Hbr Hd Hp Hk Htime [Ho Hh]. destruct (id Hbr) as [Hme Hself _ _ _ _ _ _].
  eapply wp_mono; [eapply wp_flow; [done|done|done|done|apply rt_mutex_take_enter_er; lia|
    by apply wp_mutex_take_enter]|].
  intros r s' (Hi' & D & P & H). do 3 (split; [done|]). destruct r as [r|]; cbn in H.
  - destruct H as [(s0 & Hq & E)|(s0 & s1 & [] & _)].
    destruct Hq as [(_ & -> & E0)|[(Hc & _)|((o & Hc & Hne) & _)]]; [|congruence..].
    rewrite E, Hh in E0. split_and!; [done| |done]. unfold mutex_abs.
    rewrite <-(keq_mutexes _ _ E0), <-(keq_lists _ _ E0). cbn. rewrite upd_eq. cbn.
    rewrite Ho, Hh. constructor.
  - destruct H as (flag & h & t & s1 & (o & Hc & Hne & _) & _). congruence.
Qed.

Lemma mutex_take_steps me cur fuel m time s :
  blocker me cur s -> lock_depth me 0 s -> parked_ok s -> mutex_ok s m ->
  time < RT_TICK_MAX / 2 -> (owner (mutexes s m) = Some cur -> hold (mutexes s m) < 255) ->
  wp (rt_mutex_take me fuel m time) (fun r s' =>
    kinv s' /\ lock_depth me 0 s' /\ parked_ok s' /\ mutex_ok s' m /\
    (r = Some RT_EOK /\ mutex_step (mutex_abs s m) (Acquired cur) (mutex_abs s' m) /\
       keq (with_mutex m (mutexes s' m) (reset_error cur s)) s' /\
       (owner (mutexes s m) = None ->
          original_priority (mutexes s' m) = current_priority (threads s cur)) \/
     r = Some (- RT_ETIMEOUT) /\ time = 0 /\ mutexes s' m = mutexes s m /\
       mutex_step (mutex_abs s m) (Denied cur) (mutex_abs s' m) \/
     r = None /\ time <> 0 /\ mutexes s' m = mutexes s m /\
       mutex_step (mutex_abs s m) (Queued cur) (mutex_abs s' m) /\
       exists o, owner (mutexes s m) = Some o /\ o <> cur /\
         current_priority (threads s' o) =
           Z.min (current_priority (threads s o)) (current_priority (threads s cur)) /\
         waiting me cur (mutex_flag (mutexes s m)) (Suspend m) time
           (inherit me o cur (reset_error cur s)) s')) s.
Proof.
  intros Hbr Hd Hp Hk Htime Hdeep. destruct (id Hbr) as [Hme Hself _ _ Hi Ht Hrun _].
  destruct (reset_blocker me cur s Hbr) as (Hbr1 & Hh1 & He1).
  eapply wp_mono; [eapply wp_flow; [done|done|done|done|apply rt_mutex_take_enter_er; lia|
    by apply wp_mutex_take_enter]|].
  intros r s' (Hi' & D & P & H). do 3 (split; [done|]).
  destruct r as [r|]; cbn in H.
  - destruct H as [(s0 & Hq & E)|(s0 & s1 & [] & _)]. unfold mutex_abs.
    destruct Hq as [(Ho & -> & E0)|[(Ho & -> & E0)|((o & Ho & Hne) & Ht0 & -> & E0)]].
    + pose proof (mo_state _ _ Hk) as K3. rewrite Ho in K3. destruct K3 as (K3 & K4 & K5 & K6 & K7).
      rewrite u8_small in E0 by (specialize (Hdeep Ho); lia). rewrite E in E0.
      destruct (acquired_ok me cur m _ s s' Hbr Hk E0) as (A1 & A2 & A3);
        cbn; try done; try (specialize (Hdeep Ho); lia).
      split; [done|left]. rewrite A2, A3, Ho. cbn. rewrite Ho.
      split_and!; [done|constructor; lia|done|done].
    + pose proof (mo_state _ _ Hk) as K3. rewrite Ho in K3. destruct K3 as (K3 & K4).
      rewrite E in E0. pose proof (blocker_prio me cur s Hbr) as Hpr.
      destruct (acquired_ok me cur m _ s s' Hbr Hk E0) as (A1 & A2 & A3); cbn; try done.
      split; [done|left]. rewrite A2, A3, Ho, K4. split_and!; [done|constructor|done|done].
    + rewrite E in E0. assert (Em : mutexes s' m = mutexes s m) by by rewrite <-(keq_mutexes _ _ E0).
      assert (Hk' : mutex_ok s' m).
      { apply (mutex_ok_keq _ _ _ E0). destruct Hk as [K1 K2 K3]. split; [done..|].
        cbn. rewrite Ho in K3 |- *. destruct K3 as (? & ? & ? & ? & ?). split_and!; try done; try lia.
        by rewrite upd_ne. }
      split; [done|right; left]. rewrite Em, Ho, <-(keq_lists _ _ E0).
      split_and!; [done..|]. by constructor.
  - destruct H as (flag & h & t & s1 & (o & Ho & Hne & Ht0 & -> & -> & -> & ->) & W).
    destruct (queued_ok me cur m o time s s') as (A1 & A2 & A3 & A4); try done.
    split; [done|right; right]. unfold mutex_abs. rewrite A2, A3, Ho.
    split_and!; [done..| |by exists o].
    destruct (enqueue_split (mutex_flag (mutexes s m))
      (threads (inherit me o cur (reset_error cur s))) cur (lists s (Suspend m)) (mo_flag _ _ Hk))
      as (l1 & l2 & E1 & E2). rewrite E2, E1. by constructor.
Qed.

(** C17: [rt_mutex_take] makes the caller the owner of a free mutex, with its
    priority recorded, and increases the depth of an owner; without the mutex a
    caller that does not wait gets [-RT_ETIMEOUT], and a caller that waits is
    queued, lends its priority to the owner when it is better, and leaves the
    CPU.  Each of these cases is a step of the abstract mutex and keeps the
    invariant of the mutex; the remaining one, the take of an owner 255 levels
    deep, succeeds and makes the 8-bit depth 0 with the owner, the waiters and
    everything else but the error number of the caller as before. *)
Theorem rt_mutex_take_refines me cur fuel m time s :
  blocker me cur s -> lock_depth me 0 s -> parked_ok s -> mutex_ok s m ->
  time < RT_TICK_MAX / 2 ->
  wp (rt_mutex_take me fuel m time) (fun r s' =>
    kinv s' /\ lock_depth me 0 s' /\ parked_ok s' /\
    (~ full m cur s /\ mutex_ok s' m /\
     (r = Some RT_EOK /\ mutex_step (mutex_abs s m) (Acquired cur) (mutex_abs s' m) /\
       keq (with_mutex m (mutexes s' m) (reset_error cur s)) s' /\
       (owner (mutexes s m) = None ->
          original_priority (mutexes s' m) = current_priority (threads s cur)) \/
     r = Some (- RT_ETIMEOUT) /\ time = 0 /\ mutexes s' m = mutexes s m /\
       mutex_step (mutex_abs s m) (Denied cur) (mutex_abs s' m) \/
     r = None /\ time <> 0 /\ mutexes s' m = mutexes s m /\
       mutex_step (mutex_abs s m) (Queued cur) (mutex_abs s' m) /\
       exists o, owner (mutexes s m) = Some o /\ o <> cur /\
         current_priority (threads s' o) =
           Z.min (current_priority (threads s o)) (current_priority (threads s cur)) /\
         waiting me cur (mutex_flag (mutexes s m)) (Suspend m) time
           (inherit me o cur (reset_error cur s)) s') \/
     full m cur s /\ r = Some RT_EOK /\ mutex_wrap cur (mutex_abs s m) (mutex_abs s' m) /\
       keq (with_mutex m (set_hold 0 (mutexes s m)) (reset_error cur s)) s')) s.
Proof.
  intros Hbr Hd Hp Hk Ht. destruct (decide (owner (mutexes s m) = Some cur /\ hold (mutexes s m) = 255))
    as [Hf|Hf]; fold (full m cur s) in Hf.
  - eapply wp_mono; [by apply (mutex_wrap_steps me cur)|]. intros r s' (? & ? & ? & ?). tauto.
  - eapply wp_mono; [apply (mutex_take_steps me cur); try done|].
    + pose proof (mo_state _ _ Hk) as K. intros Ho. rewrite Ho in K.
      assert (hold (mutexes s m) <> 255) by (intros E; by apply Hf). lia.
    + intros r s' (? & ? & ? & ? & ?). tauto.
Qed.

(** Thread 1 waits for mutex 7, held by thread 4, and lends it its priority. *)
Lemma ex_mutex7_ok : mutex_ok ex 7%positive.
Proof. split; [done|by right|]. cbn. split_and!; try done; lia || (left; done). Qed.

Lemma rt_mutex_take_refines_ex :
  wp (rt_mutex_take 0 2 7%positive 50) (fun r s' =>
    kinv s' /\ lock_depth 0 0 s' /\ parked_ok s' /\
    (~ full 7 1 ex /\ mutex_ok s' 7%positive /\
    (r = Some RT_EOK /\
       mutex_step (mutex_abs ex 7%positive) (Acquired 1%positive) (mutex_abs s' 7%positive) /\
       keq (with_mutex 7 (mutexes s' 7%positive) (reset_error 1 ex)) s' /\
       (Some 4%positive = None ->
          original_priority (mutexes s' 7%positive) = current_priority (threads ex 1%positive)) \/
     r = Some (- RT_ETIMEOUT) /\ 50 = 0 /\ mutexes s' 7%positive = mutexes ex 7%positive /\
       mutex_step (mutex_abs ex 7%positive) (Denied 1%positive) (mutex_abs s' 7%positive) \/
     r = None /\ 50 <> 0 /\ mutexes s' 7%positive = mutexes ex 7%positive /\
       mutex_step (mutex_abs ex 7%positive) (Queued 1%positive) (mutex_abs s' 7%positive) /\
       exists o, owner (mutexes ex 7%positive) = Some o /\ o <> 1%positive /\
         current_priority (threads s' o) =
           Z.min (current_priority (threads ex o)) (current_priority (threads ex 1%positive)) /\
         waiting 0 1%positive 1 (Suspend 7) 50 (inherit 0 o 1 (reset_error 1 ex)) s') \/
     full 7 1 ex /\ r = Some RT_EOK /\
       mutex_wrap 1 (mutex_abs ex 7%positive) (mutex_abs s' 7%positive) /\
       keq (with_mutex 7 (set_hold 0 (mutexes ex 7%positive)) (reset_error 1 ex)) s')) ex.
Proof.
  apply (rt_mutex_take_refines 0 1%positive 2 7%positive 50 ex ex_blocker (ex_depth 0) ex_parked
    ex_mutex7_ok). done.
Defined.

(** ** Releasing *)

(** Who gets the mutex next. *)
Definition next_owner (s : kstate) (m : oid) : option tid :=
  if hold (mutexes s m) =? 1 then head (lists s (Suspend m)) else None.

(** The state after the last release with a waiter. *)
Definition handed (me : Z) (cur t : tid) (m : oid) (s : kstate) : kstate :=
  let rs := restore me cur (original_priority (mutexes s m)) s in
  resume_core me t (with_mutex m
    (mkMutex (mutex_flag (mutexes s m)) 0 (current_priority (threads s t)) 1 (Some t)) rs).

Section release.
Context (me : Z) (cur : tid) (m : oid) (s : kstate).
Context (Hca : caller me cur s) (Hk : mutex_ok s m) (Ho : owner (mutexes s m) = Some cur).
Let M := mutexes s m.
Let rs := restore me cur (original_priority M) s.

Lemma owner_facts :
  1 <= hold M < 256 /\ mutex_value M = 0 /\ 0 <= original_priority M < 32 /\
  kinv rs /\ same_objs s rs /\ otype rs = otype s /\
  (forall h, is_ready_head h = false -> lists rs h = lists s h) /\
  (forall x, x <> cur -> threads rs x = threads s x) /\
  current_priority (threads rs cur) = original_priority M.
Proof using Hca Hk Ho.
  destruct Hca as [_ _ _ Hi Ht Hst]. pose proof (mo_state _ _ Hk) as H. rewrite Ho in H.
  destruct H as (H1 & H2 & H3 & _).
  destruct (restore_ok me cur (original_priority M) s Hi Ht Hst H3)
    as ((R1 & _) & R2 & R3 & _ & R4 & R5 & R6 & _).
  unfold rs, M in *. split_and!; try done; lia.
Qed.

Lemma left_ok s' :
  1 < hold M -> keq (with_mutex m (set_hold (hold M - 1) M) s) s' ->
  mutex_ok s' m /\ mutex_abs s' m = (Some (cur, hold M - 1), lists s (Suspend m)).
Proof using Hca Hk Ho.
  intros Hd E. destruct owner_facts as (H1 & H2 & H3 & _).
  destruct Hca as [_ _ _ Hi Ht Hst]. split.
  - apply (mutex_ok_keq _ _ _ E), mutex_ok_with; [done|apply Hk|apply Hk|]. cbn. fold M in Ho.
    rewrite Ho. split_and!; try done; try lia. right; right. exact Hst.
  - unfold mutex_abs. rewrite <-(keq_mutexes _ _ E), <-(keq_lists _ _ E). cbn.
    rewrite upd_eq. cbn. fold M in Ho. by rewrite Ho.
Qed.

Lemma freed_ok s' :
  lists s (Suspend m) = [] -> keq (with_mutex m (mutex_free (mutex_flag M)) rs) s' ->
  mutex_ok s' m /\ mutex_abs s' m = (None, []) /\
  current_priority (threads s' cur) = original_priority M.
Proof using Hca Hk Ho.
  intros El E. destruct owner_facts as (_ & _ & _ & R1 & _ & R3 & R4 & _ & R6). split_and!.
  - apply (mutex_ok_keq _ _ _ E), mutex_ok_with; [done| |apply Hk|].
    + unfold rt_object_get_type. rewrite R3. apply Hk.
    + cbn. by rewrite R4.
  - unfold mutex_abs. rewrite <-(keq_mutexes _ _ E), <-(keq_lists _ _ E). cbn.
    rewrite upd_eq. cbn. by rewrite R4, El.
  - by rewrite <-(keq_threads _ _ E).
Qed.

Lemma handed_ok t l s1 s' :
  lists s (Suspend m) = t :: l -> keq (handed me cur t m s) s1 -> schedule_effect me cur s1 s' ->
  mutex_ok s' m /\ mutex_abs s' m = (Some (t, 1), l) /\
  current_priority (threads s' cur) = original_priority M.
Proof using Hca Hk Ho.
  intros El E He. destruct owner_facts as (_ & _ & _ & R1 & R2 & R3 & R4 & R5 & R6).
  destruct Hca as [Hme _ _ Hi Ht Hst].
  destruct (waiter_thread s (Suspend m) t Hi) as [Htt Hts]; [done|rewrite El; by left|].
  assert (Hne : t <> cur) by (intros ->; by rewrite Hst in Hts).
  set (N := mkMutex (mutex_flag M) 0 (current_priority (threads s t)) 1 (Some t)).
  set (w := with_mutex m N rs).
  assert (Hw : kinv w) by by apply with_mutex_ok.
  assert (Elw : lists w (Suspend m) = t :: l) by (change (lists rs (Suspend m) = t :: l); by rewrite R4).
  destruct (resume_core_waiters me w (Suspend m) t l Hw) as [El1 _]; [done..|].
  destruct (resume_core_fields me w t) as (Eot & _ & Eth & _).
  assert (Hi1 : kinv s1).
  { rewrite <-E. apply (resume_core_ok me w t Hw).
    - unfold is_thread, rt_object_get_type. change (otype w) with (otype rs). by rewrite R3.
    - change (th_stat (threads rs t) = RT_THREAD_SUSPEND). by rewrite R5. }
  destruct (schedule_effect_frame me cur s1 s') as (Eo & _ & Ewl); [done..|].
  pose proof (schedule_effect_otype me cur s1 s' He) as Eot'.
  pose proof (fun x => schedule_effect_moved me cur s1 s' x He) as Hmv.
  assert (Em : mutexes s' m = N).
  { rewrite (so_mutexes _ _ Eo), <-(keq_mutexes _ _ E).
    change (mutexes (resume_core me t w) m = N).
    rewrite (so_mutexes _ _ (resume_core_objs me t w)). cbn. by rewrite upd_eq. }
  assert (Ety : forall o, otype s' o = otype s o).
  { intros o. rewrite Eot', <-(keq_otype _ _ E). change (otype (resume_core me t w) o = otype s o).
    rewrite Eot. change (otype rs o = otype s o). by rewrite R3. }
  assert (Els : lists s' (Suspend m) = l) by by rewrite Ewl, <-(keq_lists _ _ E).
  assert (Eth1 : forall x, threads s1 x = threads (resume_core me t w) x)
    by (intros x; by rewrite <-(keq_threads _ _ E)).
  split_and!.
  - split; unfold rt_object_get_type; rewrite ?Ety, ?Em; [apply Hk..|]. cbn.
    assert (Hsch : schedulable (threads s t)) by (right; left; done).
    split_and!; try done; try (by apply (kw_prio _ (ki_wf _ Hi) t Htt Hsch)).
    + unfold is_thread, rt_object_get_type. by rewrite Ety.
    + apply Hmv. rewrite Eth1, Eth, upd_eq. unfold schedulable. rewrite wake_stat_put.
      unfold wake_stat. case_match; tauto.
  - unfold mutex_abs. by rewrite Em, Els.
  - destruct (Hmv cur) as [-> _]. cbn. rewrite Eth1, Eth, upd_ne by done. exact R6.
Qed.
End release.

Lemma mutex_release_steps me cur m s :
  caller me cur s -> lock_depth me 0 s -> parked_ok s -> mutex_ok s m ->
  wp (rt_mutex_release me m) (fun r s' =>
    kinv s' /\ lock_depth me 0 s' /\ parked_ok s' /\ mutex_ok s' m /\
    (owner (mutexes s m) = Some cur /\ r = RT_EOK /\
       mutex_step (mutex_abs s m) (Released cur (next_owner s m)) (mutex_abs s' m) /\
       (hold (mutexes s m) = 1 ->
          current_priority (threads s' cur) = original_priority (mutexes s m)) /\
       (forall t, next_owner s m = Some t ->
          exists s1, keq (handed me cur t m s) s1 /\ schedule_effect me cur s1 s') \/
     owner (mutexes s m) <> Some cur /\ r = - RT_ERROR /\ mutex_abs s' m = mutex_abs s m /\
       keq (with_thread cur (set_error (- RT_ERROR) (threads s cur)) s) s')) s.
Proof.
  intros Hca Hd Hp Hk. unfold rt_mutex_release. destruct (id Hca) as [Hme Hself Hirq Hi Ht Hst].
  eapply wp_mono; [eapply (wp_notify me cur s) with
    (QR := fun r s0 => release_post me cur m s (r, false) s0)
    (QS := fun r s0 => release_post me cur m s (r, true) s0);
    [done..|apply rt_mutex_release_enter_er; lia|]|].
  { eapply wp_mono; [by apply wp_mutex_release_enter|]. intros [r []] s0 Hq; exact Hq. }
  intros r s' (Hi' & D & P & H). do 3 (split; [done|]).
  unfold release_post, next_owner in *. case_bool_decide as Ho.
  - destruct (owner_facts me cur m s Hca Hk Ho) as ((Hh & _) & _).
    assert (Ea : mutex_abs s m = (Some (cur, hold (mutexes s m)), lists s (Suspend m)))
      by (unfold mutex_abs; by rewrite Ho).
    rewrite Ea. destruct (Z.eqb_spec (hold (mutexes s m)) 1) as [E1|E1].
    + destruct (lists s (Suspend m)) as [|t l] eqn:El; cbn [head].
      * destruct H as [(s0 & ([= ->] & E0) & E)|(s0 & s1 & ([=] & _) & _)].
        rewrite E in E0. destruct (freed_ok me cur m s Hca Hk Ho s' El E0) as (A1 & -> & A3).
        split; [done|left]. rewrite E1. split_and!; [done..|constructor|done|done].
      * destruct H as [(s0 & ([=] & _) & E)|(s0 & s1 & ([= ->] & E0) & E & He)].
        assert (Hne : t <> cur).
        { intros ->. destruct (waiter_thread s (Suspend m) cur Hi) as [_ Hs]; [done|rewrite El; by left|].
          by rewrite Hst in Hs. }
        destruct (owner_facts me cur m s Hca Hk Ho) as (_ & _ & _ & _ & _ & _ & _ & R5 & _).
        rewrite R5, E in E0 by done.
        destruct (handed_ok me cur m s Hca Hk Ho t l s1 s' El E0 He) as (A1 & -> & A3).
        split; [done|left]. rewrite E1. split_and!; [done..|constructor|done|].
        intros u [= <-]. by exists s1.
    + destruct H as [(s0 & ([= ->] & E0) & E)|(s0 & s1 & ([=] & _) & _)].
      rewrite E in E0. destruct (left_ok me cur m s Hca Hk Ho s') as (A1 & ->); [lia|done|].
      split; [done|left]. split_and!; [done..|constructor; lia|done|done].
  - destruct H as [(s0 & ([= ->] & E0) & E)|(s0 & s1 & ([=] & _) & _)].
    rewrite E in E0.
    assert (Em : mutex_abs s' m = mutex_abs s m).
    { unfold mutex_abs. by rewrite <-(keq_mutexes _ _ E0), <-(keq_lists _ _ E0). }
    split; [|by right].
    apply (mutex_ok_keq _ _ _ E0). destruct Hk as [K1 K2 K3]. split; [done..|].
    cbn. destruct (owner (mutexes s m)) as [o|]; [|done].
    destruct K3 as (? & ? & ? & ? & ?). split_and!; try done; try lia. by rewrite upd_ne by congruence.
Qed.

(** C18: [rt_mutex_release] of the owner takes back one level; at the last one
    the owner gets its own priority back and the mutex goes to the first
    waiter, which is made ready, or becomes free.  Anybody else gets
    [-RT_ERROR].  Each case is a step of the abstract mutex. *)
Theorem rt_mutex_release_refines me cur m s :
  caller me cur s -> lock_depth me 0 s -> parked_ok s -> mutex_ok s m ->
  wp (rt_mutex_release me m) (fun r s' =>
    kinv s' /\ lock_depth me 0 s' /\ parked_ok s' /\ mutex_ok s' m /\
    (owner (mutexes s m) = Some cur /\ r = RT_EOK /\
       mutex_step (mutex_abs s m) (Released cur (next_owner s m)) (mutex_abs s' m) /\
       (hold (mutexes s m) = 1 ->
          current_priority (threads s' cur) = original_priority (mutexes s m)) /\
       (forall t, next_owner s m = Some t ->
          exists s1, keq (handed me cur t m s) s1 /\ schedule_effect me cur s1 s') \/
     owner (mutexes s m) <> Some cur /\ r = - RT_ERROR /\ mutex_abs s' m = mutex_abs s m /\
       keq (with_thread cur (set_error (- RT_ERROR) (threads s cur)) s) s')) s.
Proof. intros. by apply mutex_release_steps. Qed.

(** Thread 4 holds mutex 7 and is not on CPU 0: thread 1 may not release it. *)
Lemma ex_caller : caller 0 1 ex.
Proof. apply blocker_caller, ex_blocker. Qed.

(** Mutex 7 held by thread 1, with no waiter and another priority. *)
Definition ex_held : kstate := with_mutex 7 (mkMutex 1 0 12 1 (Some 1%positive)) ex.
Lemma ex_held_caller : caller 0 1 ex_held.
Proof. destruct ex_caller as [? ? ? H ? ?]. split; try done. by apply with_mutex_ok. Qed.
Lemma ex_held_ok : mutex_ok ex_held 7%positive.
Proof. split; [done|by right|]. cbn. split_and!; try done. right; right. done. Qed.

Lemma rt_mutex_release_refines_ex :
  wp (rt_mutex_release 0 7%positive) (fun r s' =>
    kinv s' /\ lock_depth 0 0 s' /\ parked_ok s' /\ mutex_ok s' 7%positive /\
    (owner (mutexes ex_held 7%positive) = Some 1%positive /\ r = RT_EOK /\
       mutex_step (mutex_abs ex_held 7%positive) (Released 1 (next_owner ex_held 7))
         (mutex_abs s' 7%positive) /\
       (hold (mutexes ex_held 7%positive) = 1 ->
          current_priority (threads s' 1%positive) = original_priority (mutexes ex_held 7%positive)) /\
       (forall t, next_owner ex_held 7 = Some t ->
          exists s1, keq (handed 0 1 t 7 ex_held) s1 /\ schedule_effect 0 1%positive s1 s') \/
     owner (mutexes ex_held 7%positive) <> Some 1%positive /\ r = - RT_ERROR /\
       mutex_abs s' 7%positive = mutex_abs ex_held 7%positive /\
       keq (with_thread 1 (set_error (- RT_ERROR) (threads ex_held 1%positive)) ex_held) s')) ex_held.
Proof.
  apply (rt_mutex_release_refines 0 1%positive 7%positive ex_held ex_held_caller);
    [exact (ex_depth 0)|exact ex_parked|exact ex_held_ok].
Defined.

(** ** Where the lock of the code is weaker than it should be *)

(** Thread 1 (priority 10) waits for mutex 7 of thread 4 (priority 12), which
    gets priority 10; in the tick interrupt its timer has just left the list. *)
Definition ex_lent : kstate :=
  match rt_mutex_take 0 0 7 50 ex with Some (_, s') => s' | None => ex end.
Definition then_tick (me : Z) (s : kstate) : kstate :=
  with_cpu me (set_irq_nest 1 (cpus s me)) (set_tm (mkT (timers (tm s)) []) s).

Definition ex_lent_tick : kstate := then_tick 0 ex_lent.

(** C19: a lent priority is not given back when the wait ends without the
    mutex: in the tick interrupt the wait of thread [t] for a mutex that [o]
    owns is over, [o] runs at a better priority than its own, and of those that
    wait only [t] has a better one; then the handler takes [t] off the waiting
    list and leaves the owner as it is, what is left of [rt_mutex_take] in [t]
    returns [-RT_ETIMEOUT] and changes nothing, and [o] still has a better
    priority than its own although no waiter has one. *)
Theorem rt_mutex_timeout_keeps_boost me cur d t o m s :
  in_isr me cur d s -> 0 <= d < 32000 ->
  is_thread s t -> th_stat (threads s t) = RT_THREAD_SUSPEND ->
  oncpu (threads s t) = RT_CPU_DETACHED -> ThreadTimer t ∉ timer_list (tm s) ->
  t ∈ lists s (Suspend m) -> owner (mutexes s m) = Some o -> o <> t ->
  current_priority (threads s o) < original_priority (mutexes s m) ->
  (forall x, x ∈ lists s (Suspend m) -> x <> t ->
    original_priority (mutexes s m) <= current_priority (threads s x)) ->
  wp (rt_thread_timeout me t) (fun _ s' =>
    kinv s' /\ lists s' (Suspend m) = remove_elt t (lists s (Suspend m)) /\
    th_stat (threads s' t) = RT_THREAD_READY /\
    (forall me' time s2, threads s2 t = threads s' t ->
      rt_mutex_take_resumed (Kn := Smp me') m time t tt s2
        = Some (Return (- RT_ETIMEOUT), s2)) /\
    mutexes s' m = mutexes s m /\ threads s' o = threads s o /\
    current_priority (threads s' o) < original_priority (mutexes s' m) /\
    forall x, x ∈ lists s' (Suspend m) ->
      original_priority (mutexes s' m) <= current_priority (threads s' x)) s.
Proof.
  intros Hisr Hd Ht Hst Hc Htl Hin Hown Hne Hlent Hoth.
  eapply wp_mono; [by apply (thread_timeout_steps me cur d t s)|].
  intros [] s' [Hisr' [_ Et Er El _ Em _ _]].
  assert (Els : lists s' (Suspend m) = remove_elt t (lists s (Suspend m))).
  { rewrite El, decide_False, app_nil_r; [done|]. unfold ready_head. by destruct (_ =? _). }
  split_and!; [apply Hisr'|done|rewrite Et; by apply th_stat_put| |apply Em|by apply Er|..].
  - intros me' time s2 E2. unfold rt_mutex_take_resumed, mbind, M_bind, get. cbn.
    rewrite E2, Et. reflexivity.
  - by rewrite Em, Er.
  - intros x. rewrite Els, Em, elem_of_remove_elt. intros [Hx Hx2]. rewrite Er by done. by apply Hoth.
Qed.

Lemma then_tick_isr me cur s :
  0 <= me < RT_CPUS_NR -> kinv s -> parked_ok s -> lock_depth me 0 s ->
  rt_thread_self me s = Some cur -> in_isr me cur 0 (then_tick me s).
Proof.
  intros Hme Hi Hp Hd Hs.
  assert (Hi1 : kinv (set_tm (mkT (timers (tm s)) []) s)).
  { apply kinv_tm; [done| |done|].
    - split; [by apply NoDup_nil_2|]. intros t Ht. by apply not_elem_of_nil in Ht.
    - intros x Hx. by apply not_elem_of_nil in Hx. }
  destruct (with_cpu_quiet me (set_irq_nest 1 (cpus s me)) (set_tm (mkT (timers (tm s)) []) s))
    as (_ & _ & Hp' & Es); [done..|].
  split; [done|by rewrite Es|cbn; by rewrite upd_eq| |by apply Hp'|by apply kinv_with_cpu].
  unfold lock_depth. rewrite Es. exact Hd.
Qed.

Lemma take_then_tick me cur next fuel m time s :
  blocker me cur s -> lock_depth me 0 s -> parked_ok s -> mutex_ok s m ->
  time < RT_TICK_MAX / 2 -> (owner (mutexes s m) = Some cur -> hold (mutexes s m) < 255) ->
  let s' := match rt_mutex_take me fuel m time s with Some (_, s') => s' | None => s end in
  rt_thread_self me s' = Some next -> in_isr me next 0 (then_tick me s').
Proof.
  intros Hb Hd Hp Hk Ht Hh. destruct (id Hb) as [Hme _ _ _ _ _ _ _].
  pose proof (mutex_take_steps me cur fuel m time s Hb Hd Hp Hk Ht Hh) as W.
  unfold wp in W. destruct (rt_mutex_take me fuel m time s) as [[r s']|]; [|done].
  intros s0 Es. by apply then_tick_isr; try apply W.
Qed.

Lemma ex_lent_isr : in_isr 0 4%positive 0 ex_lent_tick.
Proof.
  apply (take_then_tick 0 1%positive 4%positive 0 7%positive 50 ex ex_blocker (ex_depth 0)
    ex_parked ex_mutex7_ok); [done|done|by vm_compute].
Qed.

Lemma rt_mutex_timeout_keeps_boost_ex :
  wp (rt_thread_timeout 0 1%positive) (fun _ s' =>
    kinv s' /\
    lists s' (Suspend 7) = remove_elt 1%positive (lists ex_lent_tick (Suspend 7)) /\
    th_stat (threads s' 1%positive) = RT_THREAD_READY /\
    (forall me' time s2, threads s2 1%positive = threads s' 1%positive ->
      rt_mutex_take_resumed (Kn := Smp me') 7 time 1 tt s2 = Some (Return (- RT_ETIMEOUT), s2)) /\
    mutexes s' 7%positive = mutexes ex_lent_tick 7%positive /\
    threads s' 4%positive = threads ex_lent_tick 4%positive /\
    current_priority (threads s' 4%positive) < original_priority (mutexes s' 7%positive) /\
    forall x, x ∈ lists s' (Suspend 7) ->
      original_priority (mutexes s' 7%positive) <= current_priority (threads s' x)) ex_lent_tick.
Proof.
  apply (rt_mutex_timeout_keeps_boost 0 4%positive 0 1%positive 4%positive 7%positive ex_lent_tick);
    [exact ex_lent_isr|lia|by vm_compute|by vm_compute|by vm_compute|apply not_elem_of_nil|
     |by vm_compute|done|by vm_compute|].
  - assert (lists ex_lent_tick (Suspend 7) = [1%positive]) as -> by (vm_compute; reflexivity). by left.
  - assert (lists ex_lent_tick (Suspend 7) = [1%positive]) as -> by (vm_compute; reflexivity).
    intros x Hx%list_elem_of_singleton. done.
Defined.

(** ** Histories of a mutex

    As for the semaphores: calls of [rt_mutex_take] and [rt_mutex_release] on
    any CPU, steps that leave the mutex alone, and the departure of waiters
    whose time is over. *)
Definition mutex_take_label (cur : tid) (r : option Z) : mutex_label :=
  match r with
  | None => Queued cur
  | Some e => if e =? RT_EOK then Acquired cur else Denied cur
  end.
Definition mutex_release_labels (cur : tid) (s : kstate) (m : oid) : list mutex_label :=
  if bool_decide (owner (mutexes s m) = Some cur) then [Released cur (next_owner s m)] else [].

Inductive mutex_history (m : oid) : kstate -> list mutex_label -> kstate -> Prop :=
  | mh_nil s : mutex_history m s [] s
  | mh_take me cur fuel time s r s1 tr s2 :
      blocker me cur s -> lock_depth me 0 s -> parked_ok s -> time < RT_TICK_MAX / 2 ->
      (owner (mutexes s m) = Some cur -> hold (mutexes s m) < 255) ->
      rt_mutex_take me fuel m time s = Some (r, s1) ->
      mutex_history m s1 tr s2 -> mutex_history m s (mutex_take_label cur r :: tr) s2
  | mh_release me cur s r s1 tr s2 :
      caller me cur s -> lock_depth me 0 s -> parked_ok s ->
      rt_mutex_release me m s = Some (r, s1) ->
      mutex_history m s1 tr s2 -> mutex_history m s (mutex_release_labels cur s m ++ tr) s2
  | mh_other s s1 tr s2 :
      mutex_abs s1 m = mutex_abs s m -> (mutex_ok s m -> mutex_ok s1 m) ->
      mutex_history m s1 tr s2 -> mutex_history m s tr s2
  | mh_expired t o q1 q2 s s1 tr s2 :
      mutex_abs s m = (Some o, q1 ++ t :: q2) -> mutex_abs s1 m = (Some o, q1 ++ q2) ->
      (mutex_ok s m -> mutex_ok s1 m) ->
      mutex_history m s1 tr s2 -> mutex_history m s (Expired t :: tr) s2.

Lemma mutex_history_run m s tr s' :
  mutex_history m s tr s' -> mutex_ok s m ->
  mutex_run (mutex_abs s m) tr (mutex_abs s' m) /\ mutex_ok s' m.
Proof.
  induction 1 as [s|me cur fuel time s r s1 tr s2 Hb Hd Hp Ht Hh E _ IH
    |me cur s r s1 tr s2 Hc Hd Hp E _ IH|s s1 tr s2 E Ho _ IH
    |t [o n] q1 q2 s s1 tr s2 E0 E1 Ho _ IH]; intros Hk.
  - split; [constructor|done].
  - pose proof (mutex_take_steps me cur fuel m time s Hb Hd Hp Hk Ht Hh) as W.
    unfold wp in W. rewrite E in W. destruct W as (_ & _ & _ & Hk1 & W).
    destruct (IH Hk1) as [IH1 IH2]. split; [|done]. econstructor; [|exact IH1].
    by destruct W as [(-> & W & _)|[(-> & _ & _ & W)|(-> & _ & _ & W & _)]].
  - pose proof (mutex_release_steps me cur m s Hc Hd Hp Hk) as W.
    unfold wp in W. rewrite E in W. destruct W as (_ & _ & _ & Hk1 & W).
    destruct (IH Hk1) as [IH1 IH2]. split; [|done]. unfold mutex_release_labels.
    destruct W as [(Ho & _ & W & _)|(Ho & _ & W & _)].
    + rewrite bool_decide_true by done. econstructor; [exact W|exact IH1].
    + rewrite bool_decide_false by done. by rewrite <-W.
  - rewrite <-E. auto.
  - destruct (IH (Ho Hk)) as [IH1 IH2]. split; [|done].
    econstructor; [|exact IH1]. rewrite E0, E1. constructor.
Qed.

(** How often [t] is inside after a history. *)
Definition inside_after (m : oid) (s : kstate) (tr : list mutex_label) (t : tid) : Z :=
  depth_of t (mutex_abs s m) + foldr (fun l n => inside t l + n) 0 tr.


(** Thread 1 takes mutex 7, which it holds, once more. *)
Definition ex_deeper : kstate :=
  match rt_mutex_take 0 0 7 0 ex_held with Some (_, s') => s' | None => ex end.

Lemma ex_held_blocker : blocker 0 1 ex_held.
Proof. destruct ex_blocker as [? ? ? ? H ? ? ?]. split; try done. by apply with_mutex_ok. Qed.

