(* ===== verification/Event.v ===== *)
(** Event sets ([rt-thread/src/ipc.c], [RT_USING_EVENT]). *)
From S2P Require Import Prelude KService Timer KState KInv Sched Kernel KTimer Object Thread Ipc.

Definition RT_EVENT_FLAG_AND : Z := 0x01.
Definition RT_EVENT_FLAG_OR : Z := 0x02.
Definition RT_EVENT_FLAG_CLEAR : Z := 0x04.

Definition has (flag option : Z) : bool := negb (Z.land option flag =? 0).

Definition event_upd (event : oid) (f : rt_event -> rt_event) : K unit :=
  modify (fun s => set_events (upd (events s) event (f (events s event))) s).

Section ops.
Context {Kn : Kernel}.

Definition rt_event_detach (event : oid) : K Z :=
  assert_type (OIpc event) RT_Object_Class_Event;;
  s ← get;
  assertM (rt_object_is_systemobject s (OIpc event));;
  rt_ipc_list_resume_all (Suspend event);;
  rt_object_detach (OIpc event);;
  mret RT_EOK.

Definition rt_event_create (mem : option oid) (flag : Z) : K (option oid) :=
  RT_DEBUG_NOT_IN_INTERRUPT cpu_id;;
  o ← rt_object_allocate (OIpc <$> mem) RT_Object_Class_Event;
  match o, mem with
  | Some _, Some event =>
      event_upd event (set_event_flag (u8 flag));;
      rt_ipc_object_init event;;
      event_upd event (set_evset 0);;
      mret (Some event)
  | _, _ => mret None
  end.

Definition rt_event_delete (event : oid) : K Z :=
  assert_type (OIpc event) RT_Object_Class_Event;;
  s ← get;
  assertM (negb (rt_object_is_systemobject s (OIpc event)));;
  RT_DEBUG_NOT_IN_INTERRUPT cpu_id;;
  rt_ipc_list_resume_all (Suspend event);;
  rt_object_delete (OIpc event);;
  mret RT_EOK.

(** One round of the loop of [rt_event_send]: the thread is woken when the
    condition it waits for is satisfied. *)
Definition event_wake (event : oid) (thread : tid) : K bool :=
  s ← get;
  let th := threads s thread in
  let set := evset (events s event) in
  status ←
    (if has RT_EVENT_FLAG_AND (event_info th) then
       mret (Z.land (event_set th) set =? event_set th)
     else if has RT_EVENT_FLAG_OR (event_info th) then
       if negb (Z.land (event_set th) set =? 0) then
         thread_upd thread (set_event_set (Z.land (event_set th) set));;
         mret true
       else mret false
     else mret false);
  if (status : bool) then
    s ← get;
    when (has RT_EVENT_FLAG_CLEAR (event_info (threads s thread)))
      (event_upd event (fun e =>
         set_evset (Z.land (evset e) (Z.lnot (event_set (threads s thread)))) e));;
    rt_thread_resume thread;;
    mret true
  else mret false.

(** The walk over the waiting list.  The link to the next thread is read
    before a thread is unlinked, so the walk visits the list as it was. *)
Fixpoint event_wake_all (event : oid) (l : list tid) (need_schedule : bool) : K bool :=
  match l with
  | [] => mret need_schedule
  | thread :: l' =>
      woken ← event_wake event thread;
      event_wake_all event l' (need_schedule || woken)
  end.

(** [rt_event_send] up to [rt_schedule]: the result, and whether to call it. *)
Definition rt_event_send_enter (event : oid) (set : Z) : K (Z * bool) :=
  assert_type (OIpc event) RT_Object_Class_Event;;
  if set =? 0 then mret (- RT_ERROR, false)
  else
    interrupt_disable;;
    event_upd event (fun e => set_evset (Z.lor (evset e) set) e);;
    s ← get;
    need_schedule ← event_wake_all event (lists s (Suspend event)) false;
    interrupt_enable;;
    mret (RT_EOK, need_schedule).

(** [rt_event_recv]: the result is the status with the value stored through
    [recved], if any. *)
Definition rt_event_recv_enter (event : oid) (set option timeout : Z)
  : K (flow (Z * Datatypes.option Z) unit) :=
  RT_DEBUG_IN_THREAD_CONTEXT cpu_id;;
  assert_type (OIpc event) RT_Object_Class_Event;;
  if set =? 0 then mret (Return (- RT_ERROR, None))
  else
    s ← get;
    thread ← ofopt (rt_thread_self cpu_id s);
    thread_upd thread (set_error RT_EOK);;
    interrupt_disable;;
    s ← get;
    let cur := evset (events s event) in
    status ←
      (if has RT_EVENT_FLAG_AND option then mret (Z.land cur set =? set)
       else if has RT_EVENT_FLAG_OR option then mret (negb (Z.land cur set =? 0))
       else fail);
    if (status : bool) then
      when (has RT_EVENT_FLAG_CLEAR option)
        (event_upd event (fun e => set_evset (Z.land (evset e) (Z.lnot set)) e));;
      interrupt_enable;;
      s ← get;
      mret (Return (error (threads s thread), Some (Z.land cur set)))
    else if timeout =? 0 then
      thread_upd thread (set_error (- RT_ETIMEOUT));;
      interrupt_enable;;
      s ← get;
      mret (Return (error (threads s thread), None))
    else
      thread_upd thread (set_event_set set);;
      thread_upd thread (set_event_info (u8 option));;
      rt_ipc_list_suspend (Suspend event) thread (event_flag (events s event));;
      start_wait_timer thread timeout;;
      interrupt_enable;;
      mret (Blocked thread tt).

Definition rt_event_recv_resumed (thread : tid) (_ : unit)
  : K (flow (Z * Datatypes.option Z) unit) :=
  s ← get;
  if negb (error (threads s thread) =? RT_EOK) then
    mret (Return (error (threads s thread), None))
  else
    interrupt_disable;;
    s ← get;
    let recved := event_set (threads s thread) in
    interrupt_enable;;
    s ← get;
    mret (Return (error (threads s thread), Some recved)).

(** [RT_IPC_CMD_RESET] up to [rt_schedule]. *)
Definition rt_event_reset_enter (event : oid) : K unit :=
  interrupt_disable;;
  rt_ipc_list_resume_all (Suspend event);;
  event_upd event (set_evset 0);;
  interrupt_enable.
End ops.

(** ** The whole operations, on CPU [me] *)
Section whole.
Context (me : Z).
Let Kn : Kernel := Smp me.
#[local] Existing Instance Kn.

Definition rt_event_init (event : oid) (flag : Z) : K Z :=
  rt_object_init me (OIpc event) RT_Object_Class_Event;;
  event_upd event (set_event_flag (u8 flag));;
  rt_ipc_object_init event;;
  event_upd event (set_evset 0);;
  mret RT_EOK.

Definition rt_event_send (event : oid) (set : Z) : K Z :=
  '(r, need_schedule) ← rt_event_send_enter event set;
  when need_schedule (rt_schedule me);;
  mret r.

Definition rt_event_recv (fuel : nat) (event : oid) (set option timeout : Z)
  : K (Datatypes.option (Z * Datatypes.option Z)) :=
  o ← rt_event_recv_enter event set option timeout;
  run_flow me rt_event_recv_resumed fuel o.

Definition rt_event_control (event : oid) (cmd : Z) : K Z :=
  assert_type (OIpc event) RT_Object_Class_Event;;
  if cmd =? RT_IPC_CMD_RESET then
    rt_event_reset_enter event;;
    rt_schedule me;;
    mret RT_EOK
  else mret (- RT_ERROR).
End whole.

(** * Erasure *)
Section erase.
Context (me d : Z) (Hd : 0 <= d < 32600).

Lemma event_wake_er event t :
  erases me d d (event_wake (Kn := Smp me) event t) (event_wake (Kn := Big me) event t).
Proof using Hd. unfold event_wake, event_upd. er. Qed.
Hint Resolve event_wake_er : er.

Lemma event_wake_all_er event l b :
  erases me d d (event_wake_all (Kn := Smp me) event l b)
    (event_wake_all (Kn := Big me) event l b).
Proof using Hd. revert b. induction l as [|t l IH]; intros b; cbn; er. Qed.
End erase.
#[export] Hint Resolve event_wake_er event_wake_all_er : er.

Section erase2.
Context (me d : Z) (Hd : 0 <= d < 32500).

Lemma rt_event_send_enter_er event set :
  erases me d d (rt_event_send_enter (Kn := Smp me) event set)
    (rt_event_send_enter (Kn := Big me) event set).
Proof using Hd. unfold rt_event_send_enter, assert_type, event_upd. er. Qed.

Lemma rt_event_recv_enter_er event set option timeout :
  erases me d d (rt_event_recv_enter (Kn := Smp me) event set option timeout)
    (rt_event_recv_enter (Kn := Big me) event set option timeout).
Proof using Hd. unfold rt_event_recv_enter, assert_type, event_upd. er. apply er_fail. Qed.
End erase2.
#[export] Hint Resolve rt_event_send_enter_er rt_event_recv_enter_er : er.
