(* ===== verification/EventProps.v ===== *)
(** The properties of the event sets: which waiters a send wakes, what they
    receive, and that no satisfied waiter is left on the list. *)
From S2P Require Import Prelude KService Timer KState KInv Sched Kernel KTimer Object Thread ThreadSpec Example Ipc IpcSpec IpcExample Event.

(** * The specification of delivery *)

(** What a thread that asks for [want] with [option] receives from [set]. *)
Definition receives (option want set : Z) : Datatypes.option Z :=
  if has RT_EVENT_FLAG_AND option then
    if Z.land want set =? want then Some want else None
  else if has RT_EVENT_FLAG_OR option then
    if Z.land want set =? 0 then None else Some (Z.land want set)
  else None.

(** The bits that are left when [v] was received. *)
Definition after (option v set : Z) : Z :=
  if has RT_EVENT_FLAG_CLEAR option then Z.land set (Z.lnot v) else set.

Definition served (th : thread) (set : Z) : option Z :=
  receives (event_info th) (event_set th) set.

(** The waiters in their order, each with what is left by those before it: who
    is woken with what, and the bits that are left at the end. *)
Fixpoint deliver (th : tid -> thread) (l : list tid) (set : Z) : list (tid * Z) * Z :=
  match l with
  | [] => ([], set)
  | t :: l' =>
      match served (th t) set with
      | Some v =>
          let '(w, rest) := deliver th l' (after (event_info (th t)) v set) in ((t, v) :: w, rest)
      | None => deliver th l' set
      end
  end.

Lemma receives_mono option want set mask :
  receives option want set = None -> receives option want (Z.land set mask) = None.
Proof.
  unfold receives. destruct (has RT_EVENT_FLAG_AND option).
  - destruct (Z.eqb_spec (Z.land want set) want) as [|H]; [done|].
    destruct (Z.eqb_spec (Z.land want (Z.land set mask)) want) as [H'|]; [|done].
    intros _. exfalso. apply H. rewrite <-H' at 1. rewrite <-Z.land_assoc.
    by rewrite (Z.land_comm set mask), <-(Z.land_assoc mask), Z.land_diag, (Z.land_comm mask).
  - destruct (has RT_EVENT_FLAG_OR option); [|done].
    destruct (Z.eqb_spec (Z.land want set) 0) as [H|]; [|done].
    by rewrite Z.land_assoc, H, Z.land_0_l.
Qed.

Lemma after_mask option v set : exists mask, after option v set = Z.land set mask.
Proof.
  unfold after. case_match; [by eexists|]. exists (-1). by rewrite Z.land_m1_r.
Qed.

Lemma receives_after option want o v set :
  receives option want set = None -> receives option want (after o v set) = None.
Proof. destruct (after_mask o v set) as [mask ->]. apply receives_mono. Qed.

Lemma deliver_ext th th' l : forall set,
  (forall t, t ∈ l -> th t = th' t) -> deliver th l set = deliver th' l set.
Proof.
  induction l as [|t l IH]; intros set H; cbn; [done|].
  rewrite (H t) by left. case_match; rewrite IH; try done; intros x Hx; apply H; by right.
Qed.

Lemma deliver_in th l : forall set t, t ∈ (deliver th l set).1.*1 -> t ∈ l.
Proof.
  induction l as [|x l IH]; intros set t; cbn; [done|]. case_match.
  - destruct (deliver th l _) as [w rest] eqn:E. cbn.
    intros [->|Ht]%elem_of_cons; [by left|]. right. apply (IH (after (event_info (th x)) z set)).
    by rewrite E.
  - intros Ht. right. by eapply IH.
Qed.

(** Who is not served is not satisfied at the end either. *)
Lemma deliver_unserved th l : forall set t,
  t ∈ l -> t ∉ (deliver th l set).1.*1 -> served (th t) (deliver th l set).2 = None.
Proof.
  assert (Hm : forall x l set, served x set = None -> served x (deliver th l set).2 = None).
  { intros x l0. induction l0 as [|y l0 IH]; intros set H; cbn; [done|]. case_match; [|by apply IH].
    destruct (deliver th l0 _) as [w rest] eqn:E. cbn.
    specialize (IH (after (event_info (th y)) z set)). rewrite E in IH. apply IH. by apply receives_after. }
  induction l as [|x l IH]; intros set t; [by intros ?%not_elem_of_nil|]. cbn.
  intros [->|Hin]%elem_of_cons; case_match eqn:Es.
  - destruct (deliver th l _) as [w rest]. cbn. intros Hn. exfalso. apply Hn. left.
  - intros _. by apply Hm.
  - destruct (deliver th l _) as [w rest] eqn:E. cbn. intros Hn.
    specialize (IH (after (event_info (th x)) z set) t Hin). rewrite E in IH. apply IH.
    intros Hw. apply Hn. by right.
  - by apply IH.
Qed.

(** * Waking *)
Definition with_event (event : oid) (x : rt_event) (s : kstate) : kstate :=
  set_events (upd (events s) event x) s.

Lemma with_event_ok event x s : kinv s -> harmless s (with_event event x s).
Proof. intros [[] [] ? ?]. split_and!; [by split|done|done]. Qed.

(** The state after the waiters [w] were woken and [rest] was left. *)
Record delivered (event : oid) (w : list (tid * Z)) (rest : Z) (s s' : kstate) : Prop := {
  dl_harmless : harmless s s';
  dl_set : events s' event = set_evset rest (events s event);
  dl_list : lists s' (Suspend event) = filter (fun t => t ∉ w.*1) (lists s (Suspend event));
  dl_lists : forall h, is_ready_head h = false -> h <> Suspend event -> lists s' h = lists s h;
  dl_woken : forall t v, (t, v) ∈ w ->
    threads s' t = put_stat (wake_stat (threads s t)) (set_event_set v (threads s t));
  dl_rest : forall t, t ∉ w.*1 -> threads s' t = threads s t;
  dl_events : forall x, x <> event -> events s' x = events s x;
  dl_otype : forall o, otype s' o = otype s o }.

Section wake.
Context (me : Z) (event : oid).

(** A waiter that receives [v]. *)
Definition wake_core (t : tid) (v : Z) (s : kstate) : kstate :=
  resume_core me t (with_event event
    (set_evset (after (event_info (threads s t)) v (evset (events s event))) (events s event))
    (with_thread t (set_event_set v (threads s t)) s)).

Lemma kinv_event_set s t v :
  kinv s -> is_thread s t -> kinv (with_thread t (set_event_set v (threads s t)) s).
Proof. intros Hi Ht. by apply kinv_touch. Qed.

Lemma wake_core_ok s t v s' :
  kinv s -> t ∈ lists s (Suspend event) -> keq (wake_core t v s) s' ->
  delivered event [(t, v)] (after (event_info (threads s t)) v (evset (events s event))) s s'.
Proof.
  intros Hi Hin E. destruct (waiter_thread s (Suspend event) t Hi) as [Ht Hst]; [done|done|].
  set (s1 := with_thread t (set_event_set v (threads s t)) s).
  assert (Hi1 : kinv s1) by by apply kinv_event_set.
  set (x := set_evset (after (event_info (threads s t)) v (evset (events s event))) (events s event)).
  destruct (with_event_ok event x s1 Hi1) as (Hi2 & Hn2 & _).
  set (s2 := with_event event x s1) in *.
  assert (Hs2 : threads s2 t = set_event_set v (threads s t)) by (cbn; by rewrite upd_eq).
  assert (Hst2 : th_stat (threads s2 t) = RT_THREAD_SUSPEND) by by rewrite Hs2.
  destruct (resume_core_ok me s2 t Hi2 Ht Hst2) as [Hi3 Hn3].
  destruct (resume_core_fields me s2 t) as (Eot & Es & Et & El & _).
  pose proof (so_events _ _ (resume_core_objs me t s2)) as Ee.
  change (wake_core t v s) with (resume_core me t s2) in E.
  assert (Hrh : forall h, is_ready_head h = false -> h <> ready_head (threads s2 t)).
  { intros h Hh ->. unfold ready_head in Hh. by destruct (bind_cpu _ =? _). }
  assert (Hl : forall h, is_ready_head h = false -> lists s' h = remove_elt t (lists s h)).
  { intros h Hh. rewrite <-(keq_lists _ _ E), El, decide_False, app_nil_r; [done|].
    intros [Hc _]. by apply (Hrh h). }
  split.
  - apply (harmless_keq s (resume_core me t s2)); [done|]. split_and!; [done| |].
    + etrans; [|exact Hn3]. etrans; [|exact Hn2].
      by apply (no_new_upd s s1 t (set_event_set v (threads s t))).
    + intros c. by rewrite Es.
  - rewrite <-(keq_events _ _ E), Ee. cbn. by rewrite upd_eq.
  - rewrite Hl by done. unfold remove_elt. apply list_filter_iff. intros y. cbn.
    rewrite list_elem_of_singleton. done.
  - intros h Hh Hne. rewrite Hl by done. apply remove_elt_notin. intros Hin'.
    apply Hne, (kw_disj _ (ki_wf _ Hi) h (Suspend event) t Hin' Hin).
  - intros y u Hy%list_elem_of_singleton. injection Hy as -> ->.
    by rewrite <-(keq_threads _ _ E), Et, upd_eq, Hs2.
  - intros y Hy. assert (y <> t) by (intros ->; apply Hy; by left).
    rewrite <-(keq_threads _ _ E), Et, upd_ne by done. cbn. by rewrite upd_ne.
  - intros y Hy. rewrite <-(keq_events _ _ E), Ee. cbn. by rewrite upd_ne.
  - intros o. by rewrite <-(keq_otype _ _ E), Eot.
Qed.

Lemma wp_event_wake s t (Q : bool -> kstate -> Prop) :
  kinv s -> t ∈ lists s (Suspend event) ->
  match served (threads s t) (evset (events s event)) with
  | Some v => forall s', keq (wake_core t v s) s' -> Q true s'
  | None => Q false s
  end -> wp (event_wake (Kn := Big me) event t) Q s.
Proof.
  intros Hi Hin HQ. destruct (waiter_thread s (Suspend event) t Hi) as [Ht Hst]; [done|done|].
  assert (Hend : forall v s1, keq (with_thread t (set_event_set v (threads s t)) s) s1 ->
    (forall s', keq (wake_core t v s) s' -> Q true s') ->
    wp (s ← get;
        when (has RT_EVENT_FLAG_CLEAR (event_info (threads s t)))
          (event_upd event (fun e =>
             set_evset (Z.land (evset e) (Z.lnot (event_set (threads s t)))) e));;
        rt_thread_resume (Kn := Big me) t;; mret true) Q s1).
  { intros v s1 E HQ'. wp_steps. rewrite <-(keq_threads _ _ E). cbn. rewrite upd_eq.
    assert (Ee : forall x, events s1 x = events s x) by (intros x; exact (eq_sym (keq_events _ _ E x))).
    cbn [event_info event_set set_event_set].
    set (s2 := with_event event
      (set_evset (after (event_info (threads s t)) v (evset (events s event))) (events s event)) s1).
    assert (E2 : keq (with_event event (set_evset (after (event_info (threads s t)) v
        (evset (events s event))) (events s event))
        (with_thread t (set_event_set v (threads s t)) s)) s2).
    { destruct E as [? ? ? ? ? ? ? ? ? ? ? ? He ? ?]. split; try done. intros x. cbn. unfold upd.
      case_decide; [done|]. apply He. }
    eapply wp_mono with (P := fun _ s' => keq s2 s').
    - unfold when, s2, after. destruct (has RT_EVENT_FLAG_CLEAR _).
      + unfold event_upd. wp_steps. by rewrite Ee.
      + wp_steps. split; try done. intros x. cbn. unfold upd. case_decide; [subst|done].
        rewrite Ee. by destruct (events s event).
    - intros [] s3 E3. rewrite E3 in E2.
      assert (Hi1 : kinv (with_event event (set_evset (after (event_info (threads s t)) v
        (evset (events s event))) (events s event))
        (with_thread t (set_event_set v (threads s t)) s)))
        by by apply with_event_ok, kinv_event_set.
      apply wp_bind, (wp_resume me s3 t).
      + by rewrite <-E2.
      + by rewrite <-E2.
      + rewrite <-(keq_threads _ _ E2). cbn. by rewrite upd_eq.
      + wp_steps. apply HQ'. unfold wake_core. by rewrite E2. }
  unfold event_wake, served, receives in *. wp_steps.
  destruct (has RT_EVENT_FLAG_AND _).
  - wp_steps. destruct (_ =? _); [|by wp_steps].
    apply (Hend (event_set (threads s t))); [|done]. split; try done.
    intros x. cbn. unfold upd. case_decide; [subst|done]. by destruct (threads s x).
  - destruct (has RT_EVENT_FLAG_OR _); [|by wp_steps].
    destruct (_ =? _); cbn [negb]; wp_steps; [done|].
    apply wp_bind_inv. exact (Hend _ _ ltac:(reflexivity) HQ).
Qed.
End wake.

Lemma delivered_refl event s : kinv s -> delivered event [] (evset (events s event)) s s.
Proof.
  intros Hi. split; try done.
  - by destruct (events s event).
  - induction (lists s (Suspend event)) as [|t l IH]; [done|].
    rewrite filter_cons_True by apply not_elem_of_nil. by rewrite <-IH.
  - intros t v H. by apply not_elem_of_nil in H.
Qed.

Lemma delivered_trans event t v r1 w r2 s s1 s2 :
  t ∉ w.*1 -> delivered event [(t, v)] r1 s s1 -> delivered event w r2 s1 s2 ->
  delivered event ((t, v) :: w) r2 s s2.
Proof.
  intros Ht [A1 A2 A3 A4 A5 A6 A7 A8] [B1 B2 B3 B4 B5 B6 B7 B8]. split.
  - by eapply harmless_trans.
  - by rewrite B2, A2.
  - rewrite B3, A3, list_filter_filter. apply list_filter_iff. intros y.
    change ([(t, v)].*1) with [t]. change (((t, v) :: w).*1) with (t :: w.*1).
    rewrite !not_elem_of_cons. pose proof (not_elem_of_nil (A:=tid) y). tauto.
  - intros h Hh Hne. by rewrite B4, A4.
  - intros y u [Hy|Hy]%elem_of_cons.
    + injection Hy as -> ->. rewrite B6 by done. apply A5. by left.
    + assert (y <> t). { intros ->. apply Ht. by apply (list_elem_of_fmap_2 fst w (t, u)). }
      rewrite (B5 y u Hy), A6; [done|]. cbn. by rewrite list_elem_of_singleton.
  - intros y Hy. rewrite B6, A6; [done|..]; intros Hc; apply Hy; cbn.
    + apply list_elem_of_singleton in Hc as ->. by left.
    + by right.
  - intros x Hx. by rewrite B7, A7.
  - intros o. by rewrite B8, A8.
Qed.

Lemma wp_event_wake_all me event l : forall s b,
  kinv s -> NoDup l -> (forall t, t ∈ l -> t ∈ lists s (Suspend event)) ->
  wp (event_wake_all (Kn := Big me) event l b) (fun b' s' =>
    let '(w, rest) := deliver (threads s) l (evset (events s event)) in
    b' = (b || match w with [] => false | _ => true end) /\ delivered event w rest s s') s.
Proof.
  induction l as [|t l IH]; intros s b Hi Hnd Hl; cbn.
  - wp_steps. split; [by destruct b|by apply delivered_refl].
  - apply NoDup_cons in Hnd as [Ht Hnd].
    apply wp_bind, wp_event_wake; [done|apply Hl; by left|].
    destruct (served (threads s t) (evset (events s event))) as [v|].
    + intros s1 E. pose proof (wake_core_ok me event s t v s1 Hi) as D.
      specialize (D ltac:(apply Hl; by left) E).
      set (r1 := after (event_info (threads s t)) v (evset (events s event))) in *.
      rewrite (deliver_ext (threads s) (threads s1)).
      2:{ intros x Hx. symmetry. apply (dl_rest _ _ _ _ _ D).
          by intros ->%list_elem_of_singleton. }
      eapply wp_mono; [apply (IH s1)|].
      * apply D.
      * done.
      * intros x Hx. rewrite (dl_list _ _ _ _ _ D). apply list_elem_of_filter. split.
        { by intros ->%list_elem_of_singleton. }
        apply Hl. by right.
      * intros b' s2. rewrite (dl_set _ _ _ _ _ D). cbn [evset set_evset].
        destruct (deliver (threads s1) l r1) as [w rest] eqn:Ed. intros [-> Hd]. split.
        { by destruct b. }
        eapply delivered_trans; [|done..]. intros Hin. apply Ht.
        apply (deliver_in (threads s1) l r1). by rewrite Ed.
    + eapply wp_mono; [apply (IH s); [done..|]|].
      * intros x Hx. apply Hl. by right.
      * intros b' s2. destruct (deliver _ _ _) as [w rest]. by rewrite orb_false_r.
Qed.

(** * Properties *)

(** No waiter is satisfied by the bits of the set. *)
Record event_ok (s : kstate) (event : oid) : Prop := {
  ek_type : rt_object_get_type s (OIpc event) = RT_Object_Class_Event;
  ek_flag : ipc_flag_ok (event_flag (events s event));
  ek_waiters : forall t, t ∈ lists s (Suspend event) ->
    served (threads s t) (evset (events s event)) = None }.

(** ** Sending *)
Lemma wp_event_send_enter me event set s :
  kinv s -> rt_object_get_type s (OIpc event) = RT_Object_Class_Event -> set <> 0 ->
  wp (rt_event_send_enter (Kn := Big me) event set) (fun r s0 =>
    let '(w, rest) := deliver (threads s) (lists s (Suspend event))
      (Z.lor (evset (events s event)) set) in
    r = (RT_EOK, match w with [] => false | _ => true end) /\ delivered event w rest s s0) s.
Proof.
  intros Hi Ht Hset. unfold rt_event_send_enter. cbn [interrupt_disable interrupt_enable Big].
  apply wp_bind, wp_assert_type; [done|]. apply Z.eqb_neq in Hset. rewrite Hset.
  unfold event_upd. wp_steps.
  set (s1 := set_events _ s).
  change s1 with (with_event event
    (set_evset (Z.lor (evset (events s event)) set) (events s event)) s). clear s1.
  set (s1 := with_event _ _ s).
  destruct (with_event_ok event (set_evset (Z.lor (evset (events s event)) set) (events s event)) s Hi)
    as (Hi1 & Hn1 & Es1).
  assert (Ee : events s1 event = set_evset (Z.lor (evset (events s event)) set) (events s event))
    by (cbn; by rewrite upd_eq).
  eapply wp_mono; [apply (wp_event_wake_all me event (lists s (Suspend event)) s1);
    [done|apply (kw_nodup _ (ki_wf _ Hi))|done]|].
  intros b s2. rewrite Ee. cbn [evset set_evset]. change (threads s1) with (threads s).
  destruct (deliver _ _ _) as [w rest]. intros [-> [D1 D2 D3 D4 D5 D6 D7 D8]]. wp_steps.
  split; [done|].
  split; [exact (harmless_trans _ _ _ (with_event_ok _ _ _ Hi) D1)|by rewrite D2, Ee|done|done|done|done| |done].
  intros x Hx. rewrite D7 by done. cbn. by rewrite upd_ne.
Qed.

Lemma event_resumed_er me d t u : 0 <= d < 32500 ->
  erases me d d (rt_event_recv_resumed (Kn := Smp me) t u) (rt_event_recv_resumed (Kn := Big me) t u).
Proof. intros Hd. unfold rt_event_recv_resumed. er. Qed.

(** What the rest of [rt_event_recv] returns to a thread that waited. *)
Lemma wp_event_resumed me t s :
  0 <= me < RT_CPUS_NR -> lock_depth me 0 s -> parked_ok s -> kinv s ->
  wp (rt_event_recv_resumed (Kn := Smp me) t tt) (fun r s' => keq s s' /\
    r = Return (error (threads s t),
      if error (threads s t) =? RT_EOK then Some (event_set (threads s t)) else None)) s.
Proof.
  intros Hme Hd Hp Hi. eapply wp_mono; [eapply wp_plain with (Q := fun r s0 => s0 = s /\
    r = Return (error (threads s t),
      if error (threads s t) =? RT_EOK then Some (event_set (threads s t)) else None));
    [done|done|done|apply event_resumed_er; lia|]|].
  - unfold rt_event_recv_resumed. cbn [interrupt_disable interrupt_enable Big]. wp_steps.
    destruct (Z.eqb_spec (error (threads s t)) RT_EOK) as [H|H]; cbn [negb]; wp_steps;
      rewrite ?H; (split; [done|by apply harmless_refl]).
  - intros r s' (_ & _ & _ & s0 & (-> & ->) & E). done.
Qed.

(** The waiters of an event set before and after a send. *)
Record sent (me : Z) (event : oid) (set : Z) (s s' : kstate) : Prop := {
  sd_set : evset (events s' event) = (deliver (threads s) (lists s (Suspend event))
    (Z.lor (evset (events s event)) set)).2;
  sd_list : lists s' (Suspend event) =
    filter (fun t => t ∉ (deliver (threads s) (lists s (Suspend event))
      (Z.lor (evset (events s event)) set)).1.*1) (lists s (Suspend event));
  sd_woken : forall t v, (t, v) ∈ (deliver (threads s) (lists s (Suspend event))
      (Z.lor (evset (events s event)) set)).1 ->
    moved (put_stat (wake_stat (threads s t)) (set_event_set v (threads s t))) (threads s' t) /\
    (error (threads s t) = RT_EOK ->
     wp (rt_event_recv_resumed (Kn := Smp me) t tt)
       (fun r _ => r = Return (RT_EOK, Some v)) s');
  sd_rest : forall t, t ∉ (deliver (threads s) (lists s (Suspend event))
      (Z.lor (evset (events s event)) set)).1.*1 -> moved (threads s t) (threads s' t) }.

Lemma delivered_sent me event set w rest s s0 s' :
  0 <= me < RT_CPUS_NR -> lock_depth me 0 s' -> parked_ok s' -> kinv s' ->
  deliver (threads s) (lists s (Suspend event)) (Z.lor (evset (events s event)) set) = (w, rest) ->
  event_ok s event -> delivered event w rest s s0 ->
  (forall o, otype s' o = otype s0 o) -> events s' event = events s0 event ->
  lists s' (Suspend event) = lists s0 (Suspend event) ->
  (forall t, moved (threads s0 t) (threads s' t)) ->
  event_ok s' event /\ sent me event set s s'.
Proof.
  intros Hme Hd Hp Hi Ed [K1 K2 K3] [D1 D2 D3 D4 D5 D6 D7 D8] Eo Ee El Em.
  assert (Hrest : forall t, t ∉ w.*1 -> moved (threads s t) (threads s' t))
    by (intros t Ht; by rewrite <-(D6 t Ht)).
  split; split.
  - unfold rt_object_get_type. by rewrite Eo, D8.
  - by rewrite Ee, D2.
  - intros t. rewrite El, D3, Ee, D2. cbn [evset set_evset]. intros [Ht Hin]%list_elem_of_filter.
    pose proof (deliver_unserved (threads s) (lists s (Suspend event))
      (Z.lor (evset (events s event)) set) t Hin) as Hu. rewrite Ed in Hu. specialize (Hu Ht).
    destruct (Hrest t Ht) as [-> _]. exact Hu.
  - by rewrite Ee, D2, Ed.
  - by rewrite El, D3, Ed.
  - rewrite Ed. cbn. intros t v Hin. pose proof (Em t) as Hm. rewrite (D5 t v Hin) in Hm.
    split; [done|]. intros He. eapply wp_mono; [by apply wp_event_resumed|].
    intros r s2 [_ ->]. destruct Hm as [-> _]. cbn. by rewrite He.
  - rewrite Ed. exact Hrest.
Qed.

(** C20: [rt_event_send], called by a thread or an interrupt handler, wakes, in
    the order of the list, exactly the waiters whose condition the bits satisfy,
    each with the bits it receives, where those with the CLEAR option take
    their bits away from the waiters behind them; what is left is stored, and
    no waiter that stays on the list is satisfied by it.  A woken waiter's
    [rt_event_recv] returns [RT_EOK] and these bits. *)
Theorem rt_event_send_delivers me cur event set s :
  0 <= me < RT_CPUS_NR -> rt_thread_self me s = Some cur ->
  lock_depth me 0 s -> parked_ok s -> kinv s -> event_ok s event -> set <> 0 ->
  wp (rt_event_send me event set) (fun r s' =>
    r = RT_EOK /\ kinv s' /\ lock_depth me 0 s' /\ parked_ok s' /\
    event_ok s' event /\ sent me event set s s') s.
Proof.
  intros Hme Hself Hd Hp Hi Hk Hset. unfold rt_event_send.
  set (Q b := fun (r : Z) s0 =>
    let '(w, rest) := deliver (threads s) (lists s (Suspend event))
      (Z.lor (evset (events s event)) set) in
    (r, b) = (RT_EOK, match w with [] => false | _ => true end) /\ delivered event w rest s s0).
  eapply wp_mono; [eapply (wp_notify me cur s) with (QR := Q false) (QS := Q true);
    [done..|apply rt_event_send_enter_er; lia|]|].
  { eapply wp_mono; [apply wp_event_send_enter; [done|apply Hk|done]|].
    intros [r b] s0 H. unfold Q. destruct (deliver _ _ _) as [w rest].
    split; [by destruct b|apply H]. }
  intros r s' (Hi' & D & P & H). unfold Q in H.
  destruct (deliver _ _ _) as [w rest] eqn:Ed.
  destruct H as [(s0 & ([= -> _] & Hdl) & E)|(s0 & s1 & ([= -> _] & Hdl) & E & He)].
  - split_and!; try done; apply (delivered_sent me event set w rest s s0 s'); try done.
    + intros o. by rewrite <-(keq_otype _ _ E).
    + by rewrite <-(keq_events _ _ E).
    + by rewrite <-(keq_lists _ _ E).
    + intros t. by rewrite <-(keq_threads _ _ E).
    + intros o. by rewrite <-(keq_otype _ _ E).
    + by rewrite <-(keq_events _ _ E).
    + by rewrite <-(keq_lists _ _ E).
    + intros t. by rewrite <-(keq_threads _ _ E).
  - assert (Hi1 : kinv s1) by (rewrite <-E; apply Hdl).
    destruct (schedule_effect_frame me cur s1 s') as (Eo & _ & Ewl); [done..|].
    pose proof (schedule_effect_otype me cur s1 s' He) as Eot.
    assert (R : event_ok s' event /\ sent me event set s s'); [|destruct R; by split_and!].
    apply (delivered_sent me event set w rest s s0 s'); try done.
    + intros o. by rewrite Eot, <-(keq_otype _ _ E).
    + by rewrite (so_events _ _ Eo), <-(keq_events _ _ E).
    + by rewrite Ewl, <-(keq_lists _ _ E).
    + intros t. rewrite (keq_threads _ _ E). by apply (schedule_effect_moved me cur).
Qed.

(** ** Receiving *)
Definition asked (cur : tid) (set option : Z) (s : kstate) : kstate :=
  with_thread cur (set_event_info option (set_event_set set (threads s cur))) s.

Definition recv_done (me : Z) (cur : tid) (event : oid) (set option timeout : Z) (s : kstate)
    (r : Z * Datatypes.option Z) (s0 : kstate) : Prop :=
  match receives option set (evset (events s event)) with
  | Some v => r = (RT_EOK, Some v) /\
      keq (with_event event (set_evset (after option v (evset (events s event))) (events s event))
             (reset_error cur s)) s0
  | None => timeout = 0 /\ r = (- RT_ETIMEOUT, None) /\
      keq (with_thread cur (set_error (- RT_ETIMEOUT) (threads s cur)) s) s0
  end.

Definition recv_blocked (cur : tid) (event : oid) (set option timeout : Z) (s : kstate)
    (flag : Z) (h : lhead) (t : Z) (s1 : kstate) : Prop :=
  receives option set (evset (events s event)) = None /\ timeout <> 0 /\
  flag = event_flag (events s event) /\ h = Suspend event /\ t = timeout /\
  keq (asked cur set option (reset_error cur s)) s1.

(** Clearing what was asked for clears what was received. *)
Lemma after_asked v set old :
  (v = set \/ v = Z.land set old) -> Z.land old (Z.lnot v) = Z.land old (Z.lnot set).
Proof.
  intros [-> | ->]; [done|]. apply Z.bits_inj'. intros n Hn.
  rewrite !Z.land_spec, !Z.lnot_spec, Z.land_spec by done. by do 2 destruct (Z.testbit _ _).
Qed.

Lemma receives_test option set old :
  match receives option set old with
  | Some v => Z.land old set = v /\
      (has RT_EVENT_FLAG_AND option = true -> (Z.land old set =? set) = true) /\
      (has RT_EVENT_FLAG_AND option = false ->
         has RT_EVENT_FLAG_OR option = true /\ negb (Z.land old set =? 0) = true) /\
      after option v old =
        if has RT_EVENT_FLAG_CLEAR option then Z.land old (Z.lnot set) else old
  | None =>
      (has RT_EVENT_FLAG_AND option = true -> (Z.land old set =? set) = false) /\
      (has RT_EVENT_FLAG_AND option = false -> negb (Z.land old set =? 0) = false)
  end \/ has RT_EVENT_FLAG_AND option || has RT_EVENT_FLAG_OR option = false.
Proof.
  unfold receives, after. rewrite (Z.land_comm set old).
  destruct (has RT_EVENT_FLAG_AND option).
  - left. destruct (Z.eqb_spec (Z.land old set) set) as [E|E]; [|done].
    by rewrite E.
  - destruct (has RT_EVENT_FLAG_OR option); [left|by right].
    destruct (Z.eqb_spec (Z.land old set) 0) as [E|E]; [by rewrite E|].
    split_and!; try done.
    case_match; [|done]. apply after_asked. right. by rewrite Z.land_comm.
Qed.

Lemma wp_event_recv_enter me cur event set option timeout s :
  blocker me cur s -> event_ok s event -> set <> 0 -> 0 <= option < 256 ->
  has RT_EVENT_FLAG_AND option || has RT_EVENT_FLAG_OR option = true ->
  timeout < RT_TICK_MAX / 2 ->
  wp (rt_event_recv_enter (Kn := Big me) event set option timeout)
    (flow_post me cur s (recv_done me cur event set option timeout s) (fun _ _ => False)
      (recv_blocked cur event set option timeout s)) s.
Proof.
  intros Hbr [K1 K2 K3] Hset Hopt Hor Htime. unfold rt_event_recv_enter.
  cbn [interrupt_disable interrupt_enable Big cpu_id].
  destruct (reset_blocker me cur s Hbr) as (Hbr1 & Hh1 & He1).
  apply wp_bind, (wp_blocker_context me cur); [done|].
  apply wp_bind, wp_assert_type; [done|]. apply Z.eqb_neq in Hset. rewrite Hset. wp_steps.
  apply (wp_ofopt _ cur); [apply Hbr|]. wp_steps. fold (reset_error cur s).
  change (events (reset_error cur s)) with (events s).
  destruct (receives_test option set (evset (events s event))) as [R|R]; [|congruence]. unfold recv_done, recv_blocked.
  destruct (receives option set (evset (events s event))) as [v|].
  - destruct R as (Ev & Ea & Eo & Ec).
    eapply wp_mono with (P := fun b s' => b = true /\ s' = reset_error cur s).
    { destruct (has RT_EVENT_FLAG_AND option).
      - wp_steps. by rewrite Ea.
      - destruct Eo as [-> Eo]; [done|]. wp_steps. by rewrite Eo. }
    intros b s1 [-> ->].
    apply wp_bind. eapply wp_mono with (P := fun _ s' => keq (with_event event
      (set_evset (after option v (evset (events s event))) (events s event)) (reset_error cur s)) s').
    { rewrite Ec. unfold when. destruct (has RT_EVENT_FLAG_CLEAR option).
      - unfold event_upd. by wp_steps.
      - wp_steps. split; try done. intros x. cbn. unfold upd. case_decide; [subst|done].
        by destruct (events s x). }
    intros [] s2 E. wp_steps. rewrite <-(keq_threads _ _ E). cbn. rewrite upd_eq. cbn.
    rewrite Ev. split; [done|]. eapply harmless_keq; [exact E|].
    eapply harmless_trans; [exact Hh1|]. by apply with_event_ok, Hbr1.
  - destruct R as [Ea Eo].
    eapply wp_mono with (P := fun b s' => b = false /\ s' = reset_error cur s).
    { destruct (has RT_EVENT_FLAG_AND option).
      - wp_steps. by rewrite Ea.
      - cbn in Hor. rewrite Hor. wp_steps. by rewrite Eo. }
    intros b s1 [-> ->]. destruct (Z.eqb_spec timeout 0) as [Hz|Hz].
    + wp_steps. set (s2 := with_thread cur (set_error (- RT_ETIMEOUT) _) (reset_error cur s)).
      assert (E : keq (with_thread cur (set_error (- RT_ETIMEOUT) (threads s cur)) s) s2).
      { split; try done. intros x. cbn. unfold upd. by repeat case_decide. }
      rewrite <-(keq_threads _ _ E). cbn. rewrite upd_eq. cbn.
      split; [done|]. eapply harmless_keq; [exact E|].
      apply harmless_error; [exact (br_kinv _ _ _ Hbr)|exact (br_thread _ _ _ Hbr)].
    + wp_steps. set (s2 := with_thread cur (set_event_set set _) (reset_error cur s)).
      destruct (blocker_touch me cur (reset_error cur s)
        (set_event_set set (threads (reset_error cur s) cur)) Hbr1) as [Hbr2 Hh2]; [done..|].
      change (with_thread cur _ (reset_error cur s)) with s2 in Hbr2, Hh2.
      destruct (blocker_touch me cur s2 (set_event_info (u8 option) (threads s2 cur)) Hbr2)
        as [Hbr3 Hh3]; [done..|].
      set (s3 := with_thread cur (set_event_info (u8 option) (threads s2 cur)) s2) in *.
      assert (E : keq (asked cur set option (reset_error cur s)) s3).
      { split; try done. intros x. cbn. unfold upd. rewrite u8_small by lia.
        by repeat case_decide. }
      apply wp_blocker; [done..|]. intros s' Hb. wp_steps. split; [done|].
      exists (event_flag (events s event)), (Suspend event), timeout, s3.
      split_and!; try done.
      * eapply harmless_trans; [exact Hh1|]. by eapply harmless_trans.
      * rewrite <-(keq_threads _ _ E). cbn. by rewrite !upd_eq.
Qed.

Lemma event_ok_to s s' event set l :
  event_ok s event -> (forall o, otype s' o = otype s o) ->
  events s' event = set_evset set (events s event) ->
  lists s' (Suspend event) = l ->
  (forall t, t ∈ l -> served (threads s' t) set = None) -> event_ok s' event.
Proof.
  intros [K1 K2 K3] Eo Ee El Hl. split.
  - unfold rt_object_get_type. by rewrite Eo.
  - by rewrite Ee.
  - rewrite El, Ee. exact Hl.
Qed.

Lemma event_recv_steps me cur fuel event set option timeout s :
  blocker me cur s -> lock_depth me 0 s -> parked_ok s -> event_ok s event ->
  set <> 0 -> 0 <= option < 256 ->
  has RT_EVENT_FLAG_AND option || has RT_EVENT_FLAG_OR option = true ->
  timeout < RT_TICK_MAX / 2 ->
  wp (rt_event_recv me fuel event set option timeout) (fun r s' =>
    kinv s' /\ lock_depth me 0 s' /\ parked_ok s' /\ event_ok s' event /\
    match receives option set (evset (events s event)) with
    | Some v => r = Some (RT_EOK, Some v) /\
        keq (with_event event (set_evset (after option v (evset (events s event)))
               (events s event)) (reset_error cur s)) s'
    | None =>
        timeout = 0 /\ r = Some (- RT_ETIMEOUT, None) /\
          keq (with_thread cur (set_error (- RT_ETIMEOUT) (threads s cur)) s) s' \/
        timeout <> 0 /\ r = None /\ events s' event = events s event /\
          event_set (threads s' cur) = set /\ event_info (threads s' cur) = option /\
          waiting me cur (event_flag (events s event)) (Suspend event) timeout
            (asked cur set option (reset_error cur s)) s'
    end) s.
Proof.
  intros Hbr Hd Hp Hk Hset Hopt Hor Htime. destruct (id Hbr) as [Hme Hself _ _ Hi Ht Hrun _].
  eapply wp_mono; [eapply wp_flow; [done|done|done|done|apply rt_event_recv_enter_er; lia|
    by apply wp_event_recv_enter]|].
  intros r s' (Hi' & D & P & H). do 3 (split; [done|]).
  assert (Hcur : forall t, t ∈ lists s (Suspend event) -> t <> cur).
  { intros t Hin ->. destruct (waiter_thread s (Suspend event) cur Hi eq_refl Hin) as [_ Hs].
    by rewrite Hrun in Hs. }
  destruct r as [r|]; cbn in H.
  - destruct H as [(s0 & Hq & E)|(s0 & s1 & [] & _)]. unfold recv_done in Hq.
    destruct (receives option set (evset (events s event))) as [v|].
    + destruct Hq as [-> E0]. rewrite E in E0. split; [|done].
      apply (event_ok_to s s' event (after option v (evset (events s event)))
        (lists s (Suspend event)) Hk).
      * intros o. by rewrite <-(keq_otype _ _ E0).
      * rewrite <-(keq_events _ _ E0). cbn. by rewrite upd_eq.
      * by rewrite <-(keq_lists _ _ E0).
      * intros t Hin. rewrite <-(keq_threads _ _ E0). cbn. rewrite upd_ne by (intros ->; by apply (Hcur t)).
        apply receives_after. by apply (ek_waiters _ _ Hk).
    + destruct Hq as (Hz & -> & E0). rewrite E in E0. split; [|by left].
      apply (event_ok_to s s' event (evset (events s event)) (lists s (Suspend event)) Hk).
      * intros o. by rewrite <-(keq_otype _ _ E0).
      * rewrite <-(keq_events _ _ E0). cbn. by destruct (events s event).
      * by rewrite <-(keq_lists _ _ E0).
      * intros t Hin. rewrite <-(keq_threads _ _ E0). cbn. rewrite upd_ne by (intros ->; by apply (Hcur t)).
        by apply (ek_waiters _ _ Hk).
  - destruct H as (flag & h & t & s1 & (Hn & Hz & -> & -> & -> & E) & W). rewrite Hn.
    set (sa := asked cur set option (reset_error cur s)) in *.
    assert (W' : waiting me cur (event_flag (events s event)) (Suspend event) timeout sa s').
    { revert W. apply waiting_from; try (intros x; try intros _).
      - by rewrite <-(keq_threads _ _ E).
      - by rewrite <-(keq_threads _ _ E).
      - by rewrite <-(keq_threads _ _ E).
      - by rewrite <-(keq_threads _ _ E).
      - by rewrite <-(keq_lists _ _ E).
      - unfold rt_tick_get. by rewrite (keq_cpus _ _ E).
      - by apply keq_objs.
      - by rewrite <-(keq_otype _ _ E). }
    destruct (wt_event _ _ _ _ _ _ _ W') as [Hw1 Hw2].
    assert (Hsa : threads sa cur = set_event_info option (set_event_set set
      (set_error RT_EOK (threads s cur)))) by (cbn; by rewrite !upd_eq).
    rewrite Hsa in Hw1, Hw2. cbn in Hw1, Hw2.
    assert (Hee : events s' event = events s event)
      by by rewrite (so_events _ _ (wt_objs _ _ _ _ _ _ _ W')).
    split; [|right; by split_and!].
    apply (event_ok_to s s' event (evset (events s event)) _ Hk) with (3 := eq_refl).
    + intros o. by rewrite (wt_otype _ _ _ _ _ _ _ W').
    + rewrite Hee. by destruct (events s event).
    + intros t Hin. rewrite (wt_queue _ _ _ _ _ _ _ W') in Hin.
      destruct (decide (t = cur)) as [->|Hne]; [unfold served; by rewrite Hw1, Hw2|].
      destruct (wt_threads _ _ _ _ _ _ _ W' t Hne) as [-> _]. cbn. rewrite !upd_ne by done.
      apply (ek_waiters _ _ Hk).
      destruct (enqueue_split (event_flag (events s event)) (threads sa) cur
        (lists sa (Suspend event)) (ek_flag _ _ Hk)) as (l1 & l2 & E1 & E2).
      rewrite E2 in Hin. change (lists s (Suspend event)) with (lists sa (Suspend event)).
      rewrite E1. apply elem_of_app in Hin as [?|[?|?]%elem_of_cons]; rewrite elem_of_app; auto.
      by destruct Hne.
Qed.

(** [rt_event_recv] returns at once with the bits when its condition is
    satisfied, and takes them out of the set with the CLEAR option; otherwise a
    caller that does not wait gets [-RT_ETIMEOUT], and a caller that waits is
    queued with what it asks for and leaves the CPU.  No waiter is ever left
    satisfied. *)
Theorem rt_event_recv_receives me cur fuel event set option timeout s :
  blocker me cur s -> lock_depth me 0 s -> parked_ok s -> event_ok s event ->
  set <> 0 -> 0 <= option < 256 ->
  has RT_EVENT_FLAG_AND option || has RT_EVENT_FLAG_OR option = true ->
  timeout < RT_TICK_MAX / 2 ->
  wp (rt_event_recv me fuel event set option timeout) (fun r s' =>
    kinv s' /\ lock_depth me 0 s' /\ parked_ok s' /\ event_ok s' event /\
    match receives option set (evset (events s event)) with
    | Some v => r = Some (RT_EOK, Some v) /\
        keq (with_event event (set_evset (after option v (evset (events s event)))
               (events s event)) (reset_error cur s)) s'
    | None =>
        timeout = 0 /\ r = Some (- RT_ETIMEOUT, None) /\
          keq (with_thread cur (set_error (- RT_ETIMEOUT) (threads s cur)) s) s' \/
        timeout <> 0 /\ r = None /\ events s' event = events s event /\
          event_set (threads s' cur) = set /\ event_info (threads s' cur) = option /\
          waiting me cur (event_flag (events s event)) (Suspend event) timeout
            (asked cur set option (reset_error cur s)) s'
    end) s.
Proof. intros. by apply event_recv_steps. Qed.

(** Thread 1 waits for bit 1 or bit 2 of event set 3, which has bit 0. *)
Lemma ex_event3_ok : event_ok ex 3%positive.
Proof. split; [done|by left|]. intros t Ht. by apply not_elem_of_nil in Ht. Qed.

Lemma rt_event_recv_receives_ex :
  wp (rt_event_recv 0 0 3%positive 6 6 (-1)) (fun r s' =>
    kinv s' /\ lock_depth 0 0 s' /\ parked_ok s' /\ event_ok s' 3%positive /\
    (-1 = 0 /\ r = Some (- RT_ETIMEOUT, None) /\
       keq (with_thread 1 (set_error (- RT_ETIMEOUT) (threads ex 1%positive)) ex) s' \/
     -1 <> 0 /\ r = None /\ events s' 3%positive = events ex 3%positive /\
       event_set (threads s' 1%positive) = 6 /\ event_info (threads s' 1%positive) = 6 /\
       waiting 0 1%positive 0 (Suspend 3) (-1) (asked 1 6 6 (reset_error 1 ex)) s')) ex.
Proof.
  apply (rt_event_recv_receives 0 1%positive 0 3%positive 6 6 (-1) ex ex_blocker (ex_depth 0)
    ex_parked ex_event3_ok); done || lia.
Defined.

(** Then thread 3, which runs now, sends bit 2: thread 1 receives it. *)
Definition ex_asking : kstate :=
  match rt_event_recv 0 0 3%positive 6 6 (-1) ex with Some (_, s') => s' | None => ex end.

Lemma ex_asking_ok :
  kinv ex_asking /\ lock_depth 0 0 ex_asking /\ parked_ok ex_asking /\ event_ok ex_asking 3%positive.
Proof.
  apply (wp_final (rt_event_recv 0 0 3%positive 6 6 (-1)) (fun s' =>
    kinv s' /\ lock_depth 0 0 s' /\ parked_ok s' /\ event_ok s' 3%positive)).
  eapply wp_mono; [apply (event_recv_steps 0 1%positive 0 3%positive 6 6 (-1) ex ex_blocker
    (ex_depth 0) ex_parked ex_event3_ok); done || lia|].
  by intros r s' (? & ? & ? & ? & _).
Qed.

Lemma rt_event_send_delivers_ex :
  wp (rt_event_send 0 3%positive 4) (fun r s' =>
    r = RT_EOK /\ kinv s' /\ lock_depth 0 0 s' /\ parked_ok s' /\
    event_ok s' 3%positive /\ sent 0 3%positive 4 ex_asking s') ex_asking /\
  deliver (threads ex_asking) (lists ex_asking (Suspend 3))
    (Z.lor (evset (events ex_asking 3%positive)) 4) = ([(1%positive, 4)], 1).
Proof.
  destruct ex_asking_ok as (H1 & H2 & H3 & H4). split; [|vm_compute; reflexivity].
  apply (rt_event_send_delivers 0 3%positive 3%positive 4 ex_asking); try done.
Defined.
