(* ===== verification/Ring.v ===== *)
(** Rings: [count] values of a pool, from index [out] on, modulo [size].  The
    mailboxes and the queues of the device drivers keep their values so. *)
From S2P Require Import Prelude.

Section ring.
Context {A : Type} `{!Inhabited A}.
Implicit Types (pool : list A) (size out count : Z).

Definition slot (size out i : Z) : nat := Z.to_nat ((out + i) mod size).

Definition ring (pool : list A) (size out count : Z) : list A :=
  (fun i => pool !!! slot size out (Z.of_nat i)) <$> seq 0 (Z.to_nat count).

Lemma ring_length pool size out count : length (ring pool size out count) = Z.to_nat count.
Proof. unfold ring. by rewrite length_fmap, length_seq. Qed.

Lemma ring_empty pool size out : ring pool size out 0 = [].
Proof. done. Qed.

(** Two positions less than a turn apart are different slots. *)
Lemma slot_inj size out i j :
  0 < size -> 0 <= i < size -> 0 <= j < size -> slot size out i = slot size out j -> i = j.
Proof.
  unfold slot. intros Hs Hi Hj E.
  apply Z2Nat.inj in E; [|apply Z.mod_pos_bound; lia..].
  assert (E' : (out + i - (out + j)) mod size = 0).
  { rewrite Zminus_mod, E, Z.sub_diag. apply Z.mod_0_l. lia. }
  replace (out + i - (out + j)) with (i - j) in E' by lia.
  apply Z.mod_divide in E' as [k Hk]; [|lia].
  assert (- size < k * size < size) as [H1 H2] by lia. assert (k = 0) by nia. nia.
Qed.

Lemma slot_bound size out i pool :
  0 < size -> size <= Z.of_nat (length pool) -> (slot size out i < length pool)%nat.
Proof.
  intros Hs Hl. unfold slot. pose proof (Z.mod_pos_bound (out + i) size Hs). lia.
Qed.

Lemma ring_put pool size out count v :
  0 < size <= Z.of_nat (length pool) -> 0 <= count < size ->
  ring (<[slot size out count := v]> pool) size out (count + 1) = ring pool size out count ++ [v].
Proof.
  intros [Hs Hl] Hc. unfold ring.
  replace (Z.to_nat (count + 1)) with (S (Z.to_nat count)) by lia.
  rewrite seq_S, fmap_app. cbn [Nat.add]. f_equal.
  - apply list_fmap_ext. intros k i Hi. apply lookup_seq in Hi as [-> Hk].
    apply list_lookup_total_insert_ne. intros E.
    apply slot_inj in E; lia.
  - cbn. f_equal. rewrite Z2Nat.id by lia.
    apply list_lookup_total_insert_eq. apply slot_bound; lia.
Qed.

Lemma ring_get pool size out count :
  0 < size -> 0 < count ->
  ring pool size out count =
    (pool !!! slot size out 0) :: ring pool size ((out + 1) mod size) (count - 1).
Proof.
  intros Hs Hc. unfold ring.
  replace (Z.to_nat count) with (S (Z.to_nat (count - 1))) by lia.
  cbn [seq]. rewrite fmap_cons. f_equal. rewrite <-fmap_S_seq, <-list_fmap_compose.
  apply list_fmap_ext. intros k i _. cbn. f_equal. unfold slot. f_equal.
  rewrite Zplus_mod_idemp_l. f_equal. lia.
Qed.

Lemma slot_0 size out : 0 <= out < size -> slot size out 0 = Z.to_nat out.
Proof. intros H. unfold slot. by rewrite Z.add_0_r, Z.mod_small. Qed.

(** An index that is stepped and set back at the end of the pool. *)
Lemma step_mod size i :
  0 <= i < size -> (if size <=? i + 1 then 0 else i + 1) = (i + 1) mod size.
Proof.
  intros H. destruct (Z.leb_spec size (i + 1)).
  - replace (i + 1) with size by lia. rewrite Z.mod_same; lia.
  - rewrite Z.mod_small; lia.
Qed.
End ring.

(** ** Blocks of values

    [store pool size w vs] writes the values [vs] from index [w] on, going on
    at the start of the pool when its first [size] slots are used up. *)
Section store.
Context {A : Type} `{!Inhabited A}.
Implicit Types (pool vs : list A) (size w : Z).

Definition blit (pool : list A) (dst : nat) (vs : list A) : list A :=
  take dst pool ++ vs ++ drop (dst + length vs) pool.

Definition store (pool : list A) (size w : Z) (vs : list A) : list A :=
  if Z.of_nat (length vs) <? size - w then blit pool (Z.to_nat w) vs
  else blit (blit pool (Z.to_nat w) (take (Z.to_nat (size - w)) vs)) 0
         (drop (Z.to_nat (size - w)) vs).

Lemma blit_length pool dst vs :
  (dst + length vs <= length pool)%nat -> length (blit pool dst vs) = length pool.
Proof. intros H. unfold blit. rewrite !length_app, length_take, length_drop. lia. Qed.

Lemma blit_lookup pool dst vs i : (dst + length vs <= length pool)%nat ->
  blit pool dst vs !!! i =
    if decide (dst <= i < dst + length vs)%nat then vs !!! (i - dst)%nat else pool !!! i.
Proof.
  intros H. unfold blit. case_decide as Hi; rewrite !list_lookup_total_alt; f_equal.
  - rewrite lookup_app_r by (rewrite length_take; lia).
    rewrite lookup_app_l by (rewrite length_take; lia).
    by rewrite length_take, Nat.min_l by lia.
  - destruct (decide (i < dst)%nat).
    + rewrite lookup_app_l by (rewrite length_take; lia). by rewrite lookup_take_lt.
    + rewrite lookup_app_r by (rewrite length_take; lia).
      rewrite lookup_app_r by (rewrite length_take; lia).
      rewrite length_take, lookup_drop, Nat.min_l by lia. f_equal. lia.
Qed.

(** The slots of a store: [w + j] for [j] less than the number of values. *)
Lemma store_length pool size w vs :
  0 <= w < size -> size <= Z.of_nat (length pool) -> Z.of_nat (length vs) <= size ->
  length (store pool size w vs) = length pool.
Proof.
  intros Hw Hs Hv. unfold store.
  destruct (Z.ltb_spec (Z.of_nat (length vs)) (size - w)); rewrite !blit_length;
    rewrite ?length_drop, ?length_take, ?blit_length; rewrite ?length_take; lia.
Qed.

Lemma store_lookup pool size w vs i :
  0 <= w < size -> size <= Z.of_nat (length pool) -> Z.of_nat (length vs) <= size ->
  0 <= i < size ->
  store pool size w vs !!! Z.to_nat i =
    if (i - w) mod size <? Z.of_nat (length vs) then vs !!! Z.to_nat ((i - w) mod size)
    else pool !!! Z.to_nat i.
Proof.
  intros Hw Hs Hv Hi. unfold store.
  assert (Em : (i - w) mod size = if w <=? i then i - w else i - w + size).
  { destruct (Z.leb_spec w i); [apply Z.mod_small; lia|].
    rewrite <-(Z_mod_plus_full _ 1), Z.mul_1_l. apply Z.mod_small. lia. }
  rewrite Em. destruct (Z.ltb_spec (Z.of_nat (length vs)) (size - w)).
  - rewrite blit_lookup by lia. destruct (Z.leb_spec w i); case_decide; case_match; try lia;
      try done; f_equal; lia.
  - rewrite !blit_lookup;
      rewrite ?blit_length, ?length_drop, ?length_take; rewrite ?length_take; try lia.
    rewrite !list_lookup_total_alt.
    destruct (Z.leb_spec w i); repeat case_decide; case_match; try lia; try done; f_equal.
    all: rewrite ?lookup_drop, ?lookup_take_lt by lia; f_equal; lia.
Qed.

Lemma ring_store pool size out count vs :
  0 <= out < size -> size <= Z.of_nat (length pool) -> 0 <= count ->
  count + Z.of_nat (length vs) <= size ->
  ring (store pool size ((out + count) mod size) vs) size out (count + Z.of_nat (length vs)) =
    ring pool size out count ++ vs.
Proof.
  intros Ho Hs Hc Hv. pose proof (Z.mod_pos_bound (out + count) size ltac:(lia)) as Hb.
  assert (Hk : forall k, 0 <= k < size -> ((out + k) mod size - (out + count) mod size) mod size =
    if count <=? k then k - count else k - count + size).
  { intros k Hk. rewrite <-Zminus_mod. replace (out + k - (out + count)) with (k - count) by lia.
    destruct (Z.leb_spec count k); [apply Z.mod_small; lia|].
    rewrite <-(Z_mod_plus_full _ 1), Z.mul_1_l. apply Z.mod_small. lia. }
  apply list_eq. intros i. unfold ring at 1, slot.
  destruct (decide (Z.of_nat i < count + Z.of_nat (length vs))) as [Hi|Hi].
  - rewrite list_lookup_fmap, lookup_seq_lt by lia. cbn [fmap option_fmap option_map Nat.add].
    rewrite store_lookup by (try lia; apply Z.mod_pos_bound; lia).
    rewrite Hk by lia. destruct (Z.leb_spec count (Z.of_nat i)).
    + assert (Z.of_nat i - count <? Z.of_nat (length vs) = true) as -> by lia.
      rewrite lookup_app_r by (rewrite ring_length; lia). rewrite ring_length.
      replace (Z.to_nat (Z.of_nat i - count)) with (i - Z.to_nat count)%nat by lia.
      symmetry. apply list_lookup_lookup_total_lt. lia.
    + assert (Z.of_nat i - count + size <? Z.of_nat (length vs) = false) as -> by lia.
      rewrite lookup_app_l by (rewrite ring_length; lia). unfold ring, slot.
      by rewrite list_lookup_fmap, lookup_seq_lt by lia.
  - rewrite list_lookup_fmap, lookup_seq_ge by lia. symmetry. apply lookup_ge_None.
    rewrite length_app, ring_length. lia.
Qed.

Lemma ring_drop pool size out count n :
  0 < size -> 0 <= n <= count ->
  ring pool size ((out + n) mod size) (count - n) = drop (Z.to_nat n) (ring pool size out count).
Proof.
  intros Hs Hn. unfold ring, slot. apply list_eq. intros i.
  rewrite lookup_drop, !list_lookup_fmap.
  destruct (decide (Z.of_nat i < count - n)).
  - rewrite !lookup_seq_lt by lia. cbn. do 3 f_equal. rewrite Zplus_mod_idemp_l. f_equal. lia.
  - by rewrite !lookup_seq_ge by lia.
Qed.

(** The first values of a ring, as one or two stretches of the pool. *)
Lemma ring_take pool size out count n :
  0 <= out < size -> size <= Z.of_nat (length pool) -> 0 <= n <= count -> count <= size ->
  take (Z.to_nat n) (ring pool size out count) =
    if n <? size - out then take (Z.to_nat n) (drop (Z.to_nat out) pool)
    else take (Z.to_nat (size - out)) (drop (Z.to_nat out) pool) ++
         take (Z.to_nat (n - (size - out))) (drop 0 pool).
Proof.
  intros Ho Hs Hn Hc. rewrite drop_0. apply list_eq. intros i.
  destruct (decide (Z.of_nat i < n)) as [Hi|Hi].
  - rewrite lookup_take_lt by lia. unfold ring, slot.
    rewrite list_lookup_fmap, lookup_seq_lt by lia. cbn [fmap option_fmap option_map Nat.add].
    assert (Em : (out + Z.of_nat i) mod size =
      if Z.of_nat i <? size - out then out + Z.of_nat i else out + Z.of_nat i - size).
    { destruct (Z.ltb_spec (Z.of_nat i) (size - out)); [apply Z.mod_small; lia|].
      rewrite <-(Z_mod_plus_full _ (-1)). rewrite Z.mod_small; lia. }
    rewrite Em. destruct (Z.ltb_spec n (size - out)).
    + assert (Z.of_nat i <? size - out = true) as -> by lia.
      rewrite lookup_take_lt, lookup_drop by lia. symmetry.
      rewrite list_lookup_lookup_total_lt by lia. do 2 f_equal. lia.
    + destruct (Z.ltb_spec (Z.of_nat i) (size - out)).
      * rewrite lookup_app_l by (rewrite length_take, length_drop; lia).
        rewrite lookup_take_lt, lookup_drop by lia. symmetry.
        rewrite list_lookup_lookup_total_lt by lia. do 2 f_equal. lia.
      * rewrite lookup_app_r by (rewrite length_take, length_drop; lia).
        rewrite length_take, length_drop, lookup_take_lt by lia. symmetry.
        rewrite list_lookup_lookup_total_lt by lia. do 2 f_equal. lia.
  - rewrite !lookup_ge_None_2; [done| |].
    + case_match; rewrite ?length_app, ?length_take, ?length_drop; lia.
    + rewrite length_take, ring_length. lia.
Qed.

Lemma store_one pool size w v : 0 <= w < size -> size <= Z.of_nat (length pool) ->
  store pool size w [v] = <[Z.to_nat w := v]> pool.
Proof.
  intros Hw Hs. unfold store. cbn [length].
  destruct (Z.ltb_spec (Z.of_nat 1) (size - w)).
  - unfold blit. cbn [length]. symmetry. rewrite insert_take_drop by lia.
    by rewrite Nat.add_1_r.
  - assert (Z.to_nat (size - w) = 1%nat) as -> by lia. cbn [take drop].
    unfold blit at 1. cbn. unfold blit. cbn [length]. symmetry.
    rewrite insert_take_drop by lia. by rewrite Nat.add_1_r.
Qed.
End store.
