(* ===== verification/Mailbox.v ===== *)
(** Mailboxes ([rt-thread/src/ipc.c], [RT_USING_MAILBOX]). *)
From S2P Require Import Prelude KService Timer KState KInv Sched Kernel KTimer Object Thread Ipc.

Definition mb_upd (mb : oid) (f : rt_mailbox -> rt_mailbox) : K unit :=
  modify (fun s => set_mailboxes (upd (mailboxes s) mb (f (mailboxes s mb))) s).

(** The fields of an empty mailbox over a pool of [size] slots. *)
Definition mb_fresh (flag : Z) (msgpool : list Z) (size : Z) : rt_mailbox :=
  mkMb (u8 flag) msgpool (u16 size) 0 0 0.

(** [msg_pool[in_offset] = value] and [*value = msg_pool[out_offset]], with the
    moves of the offsets; an access outside the pool has no result. *)
Definition mb_put (mb : oid) (value : Z) : K unit :=
  s ← get;
  assertM (in_offset (mailboxes s mb) <? Z.of_nat (length (mb_pool (mailboxes s mb))));;
  mb_upd mb (fun m => set_mb_pool (<[Z.to_nat (in_offset m) := value]> (mb_pool m)) m);;
  mb_upd mb (fun m => set_in_offset (u16 (in_offset m + 1)) m);;
  s ← get;
  when (mb_size (mailboxes s mb) <=? in_offset (mailboxes s mb))
    (mb_upd mb (set_in_offset 0));;
  mb_upd mb (fun m => set_mb_entry (u16 (mb_entry m + 1)) m).

Definition mb_get (mb : oid) : K Z :=
  s ← get;
  value ← ofopt (mb_pool (mailboxes s mb) !! Z.to_nat (out_offset (mailboxes s mb)));
  mb_upd mb (fun m => set_out_offset (u16 (out_offset m + 1)) m);;
  s ← get;
  when (mb_size (mailboxes s mb) <=? out_offset (mailboxes s mb))
    (mb_upd mb (set_out_offset 0));;
  mb_upd mb (fun m => set_mb_entry (u16 (mb_entry m - 1)) m);;
  mret value.

(** A thread that waits remembers its timeout and the tick at which it
    started to wait. *)
Definition wait_info : Type := Z * Z.

Section ops.
Context {Kn : Kernel}.

Definition rt_mb_detach (mb : oid) : K Z :=
  assert_type (OIpc mb) RT_Object_Class_MailBox;;
  s ← get;
  assertM (rt_object_is_systemobject s (OIpc mb));;
  rt_ipc_list_resume_all (Suspend mb);;
  rt_ipc_list_resume_all (Sender mb);;
  rt_object_detach (OIpc mb);;
  mret RT_EOK.

(** [pool] is what [RT_KERNEL_MALLOC] returned for the message pool. *)
Definition rt_mb_create (mem : option oid) (pool : option (list Z)) (size flag : Z)
  : K (option oid) :=
  RT_DEBUG_NOT_IN_INTERRUPT cpu_id;;
  o ← rt_object_allocate (OIpc <$> mem) RT_Object_Class_MailBox;
  match o, mem with
  | Some _, Some mb =>
      mb_upd mb (set_mb_flag (u8 flag));;
      rt_ipc_object_init mb;;
      mb_upd mb (set_mb_size (u16 size));;
      match pool with
      | None => rt_object_delete (OIpc mb);; mret None
      | Some msgpool =>
          mb_upd mb (fun _ => mb_fresh flag msgpool size);;
          init_list (Sender mb);;
          mret (Some mb)
      end
  | _, _ => mret None
  end.

Definition rt_mb_delete (mb : oid) : K Z :=
  RT_DEBUG_NOT_IN_INTERRUPT cpu_id;;
  assert_type (OIpc mb) RT_Object_Class_MailBox;;
  s ← get;
  assertM (negb (rt_object_is_systemobject s (OIpc mb)));;
  rt_ipc_list_resume_all (Suspend mb);;
  rt_ipc_list_resume_all (Sender mb);;
  rt_object_delete (OIpc mb);;
  mret RT_EOK.

(** The loop of [rt_mb_send_wait] and what follows it, up to [rt_schedule];
    entered inside the critical section. *)
Definition mb_send_loop (mb : oid) (value : Z) (thread : option tid) (w : wait_info)
  : K (flow Z wait_info) :=
  let (timeout, tick_delta) := w in
  s ← get;
  if mb_entry (mailboxes s mb) =? mb_size (mailboxes s mb) then
    thread ← ofopt thread;
    thread_upd thread (set_error RT_EOK);;
    if timeout =? 0 then
      interrupt_enable;;
      mret (Return (- RT_EFULL))
    else
      RT_DEBUG_IN_THREAD_CONTEXT cpu_id;;
      rt_ipc_list_suspend (Sender mb) thread (mb_flag (mailboxes s mb));;
      start_wait_timer thread timeout;;
      interrupt_enable;;
      mret (Blocked thread (timeout, if 0 <? timeout then rt_tick_get s else tick_delta))
  else
    mb_put mb value;;
    s ← get;
    if bool_decide (lists s (Suspend mb) <> []) then
      rt_ipc_list_resume (Suspend mb);;
      interrupt_enable;;
      mret (Resched RT_EOK)
    else
      interrupt_enable;;
      mret (Return RT_EOK).

Definition rt_mb_send_wait_enter (mb : oid) (value timeout : Z) : K (flow Z wait_info) :=
  assert_type (OIpc mb) RT_Object_Class_MailBox;;
  s ← get;
  let thread := rt_thread_self cpu_id s in
  interrupt_disable;;
  s ← get;
  if (mb_entry (mailboxes s mb) =? mb_size (mailboxes s mb)) && (timeout =? 0) then
    interrupt_enable;;
    mret (Return (- RT_EFULL))
  else mb_send_loop mb value thread (timeout, 0).

Definition rt_mb_send_resumed (mb : oid) (value : Z) (thread : tid) (w : wait_info)
  : K (flow Z wait_info) :=
  s ← get;
  if negb (error (threads s thread) =? RT_EOK) then mret (Return (error (threads s thread)))
  else
    interrupt_disable;;
    s ← get;
    mb_send_loop mb value (Some thread) (time_left w.1 w.2 (rt_tick_get s), w.2).

(** The loop of [rt_mb_recv]; the result is the status with the value stored
    through the argument [value], if any. *)
Definition mb_recv_loop (mb : oid) (thread : option tid) (w : wait_info)
  : K (flow (Z * option Z) wait_info) :=
  let (timeout, tick_delta) := w in
  s ← get;
  if mb_entry (mailboxes s mb) =? 0 then
    thread ← ofopt thread;
    thread_upd thread (set_error RT_EOK);;
    if timeout =? 0 then
      interrupt_enable;;
      thread_upd thread (set_error (- RT_ETIMEOUT));;
      mret (Return (- RT_ETIMEOUT, None))
    else
      RT_DEBUG_IN_THREAD_CONTEXT cpu_id;;
      rt_ipc_list_suspend (Suspend mb) thread (mb_flag (mailboxes s mb));;
      start_wait_timer thread timeout;;
      interrupt_enable;;
      mret (Blocked thread (timeout, if 0 <? timeout then rt_tick_get s else tick_delta))
  else
    value ← mb_get mb;
    s ← get;
    if bool_decide (lists s (Sender mb) <> []) then
      rt_ipc_list_resume (Sender mb);;
      interrupt_enable;;
      mret (Resched (RT_EOK, Some value))
    else
      interrupt_enable;;
      mret (Return (RT_EOK, Some value)).

Definition rt_mb_recv_enter (mb : oid) (timeout : Z) : K (flow (Z * option Z) wait_info) :=
  assert_type (OIpc mb) RT_Object_Class_MailBox;;
  s ← get;
  let thread := rt_thread_self cpu_id s in
  interrupt_disable;;
  s ← get;
  if (mb_entry (mailboxes s mb) =? 0) && (timeout =? 0) then
    interrupt_enable;;
    mret (Return (- RT_ETIMEOUT, None))
  else mb_recv_loop mb thread (timeout, 0).

Definition rt_mb_recv_resumed (mb : oid) (thread : tid) (w : wait_info)
  : K (flow (Z * option Z) wait_info) :=
  s ← get;
  if negb (error (threads s thread) =? RT_EOK) then
    mret (Return (error (threads s thread), None))
  else
    interrupt_disable;;
    s ← get;
    mb_recv_loop mb (Some thread) (time_left w.1 w.2 (rt_tick_get s), w.2).

(** [RT_IPC_CMD_RESET] up to [rt_schedule]. *)
Definition rt_mb_reset_enter (mb : oid) : K unit :=
  interrupt_disable;;
  rt_ipc_list_resume_all (Suspend mb);;
  rt_ipc_list_resume_all (Sender mb);;
  mb_upd mb (fun m => set_out_offset 0 (set_in_offset 0 (set_mb_entry 0 m)));;
  interrupt_enable.
End ops.

(** ** The whole operations, on CPU [me] *)
Section whole.
Context (me : Z).
Let Kn : Kernel := Smp me.
#[local] Existing Instance Kn.

Definition rt_mb_init (mb : oid) (msgpool : list Z) (size flag : Z) : K Z :=
  rt_object_init me (OIpc mb) RT_Object_Class_MailBox;;
  rt_ipc_object_init mb;;
  mb_upd mb (fun _ => mb_fresh flag msgpool size);;
  init_list (Sender mb);;
  mret RT_EOK.

Definition rt_mb_send_wait (fuel : nat) (mb : oid) (value timeout : Z) : K (option Z) :=
  o ← rt_mb_send_wait_enter mb value timeout;
  run_flow me (rt_mb_send_resumed mb value) fuel o.

Definition rt_mb_send (mb : oid) (value : Z) : K (option Z) := rt_mb_send_wait 1 mb value 0.

Definition rt_mb_recv (fuel : nat) (mb : oid) (timeout : Z) : K (option (Z * option Z)) :=
  o ← rt_mb_recv_enter mb timeout;
  run_flow me (rt_mb_recv_resumed mb) fuel o.

Definition rt_mb_control (mb : oid) (cmd : Z) : K Z :=
  assert_type (OIpc mb) RT_Object_Class_MailBox;;
  if cmd =? RT_IPC_CMD_RESET then
    rt_mb_reset_enter mb;;
    rt_schedule me;;
    mret RT_EOK
  else mret (- RT_ERROR).
End whole.

(** * Erasure *)
Section erase.
Context (me d : Z) (Hd : 0 <= d < 32600).

Lemma mb_put_er mb value : erases me d d (mb_put mb value) (mb_put mb value).
Proof using. clear Hd. unfold mb_put, mb_upd. er. Qed.
Lemma mb_get_er mb : erases me d d (mb_get mb) (mb_get mb).
Proof using. clear Hd. unfold mb_get, mb_upd. er. Qed.
End erase.
#[export] Hint Resolve mb_put_er mb_get_er : er.

Section erase2.
Context (me d : Z) (Hd : 0 <= d < 32500).

Lemma mb_send_loop_er mb value thread w :
  erases me (d + 1) d (mb_send_loop (Kn := Smp me) mb value thread w)
    (mb_send_loop (Kn := Big me) mb value thread w).
Proof using Hd. unfold mb_send_loop. destruct w. er. Qed.
Lemma mb_recv_loop_er mb thread w :
  erases me (d + 1) d (mb_recv_loop (Kn := Smp me) mb thread w)
    (mb_recv_loop (Kn := Big me) mb thread w).
Proof using Hd. unfold mb_recv_loop. destruct w. er. Qed.
Hint Resolve mb_send_loop_er mb_recv_loop_er : er.

Lemma rt_mb_send_wait_enter_er mb value timeout :
  erases me d d (rt_mb_send_wait_enter (Kn := Smp me) mb value timeout)
    (rt_mb_send_wait_enter (Kn := Big me) mb value timeout).
Proof using Hd. unfold rt_mb_send_wait_enter, assert_type. er. Qed.
Lemma rt_mb_recv_enter_er mb timeout :
  erases me d d (rt_mb_recv_enter (Kn := Smp me) mb timeout)
    (rt_mb_recv_enter (Kn := Big me) mb timeout).
Proof using Hd. unfold rt_mb_recv_enter, assert_type. er. Qed.
Lemma rt_mb_reset_enter_er mb :
  erases me d d (rt_mb_reset_enter (Kn := Smp me) mb) (rt_mb_reset_enter (Kn := Big me) mb).
Proof using Hd. unfold rt_mb_reset_enter, mb_upd. er. Qed.
End erase2.
#[export] Hint Resolve rt_mb_send_wait_enter_er rt_mb_recv_enter_er rt_mb_reset_enter_er : er.
