(* ===== verification/Transfer.v ===== *)
(** What the calls that pass a value through a queue object have in common:
    the value is passed, and a waiter on the other side is woken; or the caller
    is refused; or it waits.  Used for the mailboxes and the message queues. *)
From S2P Require Import Prelude KService Timer KState KInv Sched Kernel KTimer Object Thread ThreadSpec Ipc IpcSpec.

(** [s1] is the state [s] with the object changed, [hw] the list of the waiters
    on the other side, [hq] the list on which the caller waits.  A result at
    once, with the status [busy] when the caller does not wait: *)
Definition pass_done {A} (cur : tid) (hw : lhead) (s1 : kstate) (ok busy : A)
    (avail : bool) (time : Z) (s : kstate) (r : A) (s0 : kstate) : Prop :=
  if avail then r = ok /\ lists s hw = [] /\ keq s1 s0
  else time = 0 /\ r = busy /\
    (s0 = s \/ exists e, keq (with_thread cur (set_error e (threads s cur)) s) s0).

(** A result, and a waiter made ready. *)
Definition pass_woke {A} (me : Z) (hw : lhead) (s1 : kstate) (ok : A)
    (avail : bool) (s : kstate) (r : A) (s0 : kstate) : Prop :=
  avail = true /\ r = ok /\ exists t l, lists s hw = t :: l /\ keq (resume_core me t s1) s0.

(** The caller waits. *)
Definition pass_waits (cur : tid) (f : Z) (hq : lhead) (avail : bool) (time : Z) (s : kstate)
    (flag : Z) (h : lhead) (t : Z) (s0 : kstate) : Prop :=
  avail = false /\ time <> 0 /\ flag = f /\ h = hq /\ t = time /\ s0 = reset_error cur s.

(** What a call comes to in the end. *)
Definition pass_result {A} (me : Z) (cur : tid) (f : Z) (hw hq : lhead) (s1 : kstate) (ok busy : A)
    (avail : bool) (time : Z) (s : kstate) (r : option A) (s' : kstate) : Prop :=
  if avail then r = Some ok /\
    match lists s hw with
    | [] => keq s1 s'
    | t :: l => lists s' hw = l /\
        exists s2, keq (resume_core me t s1) s2 /\ schedule_effect me cur s2 s'
    end
  else time = 0 /\ r = Some busy /\
      (keq s s' \/ exists e, keq (with_thread cur (set_error e (threads s cur)) s) s') \/
    time <> 0 /\ r = None /\ waiting me cur f hq time s s'.

(** The change of the object leaves the threads and the lists alone. *)
Record object_change (s s1 : kstate) : Prop := {
  oc_harmless : harmless s s1;
  oc_lists : forall h, lists s1 h = lists s h;
  oc_threads : forall t, threads s1 t = threads s t;
  oc_otype : forall o, otype s1 o = otype s o }.

Section pass.
Context (me : Z) (cur : tid) (s s1 : kstate) (hw : lhead).
Context (Hme : 0 <= me < RT_CPUS_NR) (Hi : kinv s) (Hhw : is_wait_head hw = true).
Context (Hc : object_change s s1).

Lemma pass_wake t l : lists s hw = t :: l ->
  harmless s (resume_core me t s1) /\ lists (resume_core me t s1) hw = l.
Proof using Hi Hhw Hc.
  intros El. destruct Hc as [(Hi1 & Hn1 & Es1) El1 _ _].
  assert (El' : lists s1 hw = t :: l) by by rewrite El1.
  destruct (waiter_thread s1 hw t Hi1) as [Ht Hst]; [done|rewrite El'; by left|].
  destruct (resume_core_ok me s1 t Hi1 Ht Hst) as [Hi2 Hn2].
  destruct (resume_core_fields me s1 t) as (_ & Es2 & _).
  destruct (resume_core_waiters me s1 hw t l Hi1) as [El2 _]; [done..|].
  split; [|done]. split_and!; [done|by etrans|]. intros c. by rewrite Es2.
Qed.

Lemma wp_pass_wake t l s2 (Q : unit -> kstate -> Prop) :
  lists s hw = t :: l -> keq s1 s2 ->
  (forall s3, keq (resume_core me t s1) s3 -> harmless s s3 -> Q tt s3) ->
  wp (rt_ipc_list_resume (Kn := Big me) hw) Q s2.
Proof using Hi Hhw Hc.
  intros El E HQ. destruct (pass_wake t l El) as [Hh _]. destruct Hc as [(Hi1 & _) El1 _ _].
  assert (Hi2 : kinv s2) by by rewrite <-E.
  apply (wp_list_resume me s2 hw t l _ Hi2); [done|by rewrite <-(keq_lists _ _ E), El1|].
  apply HQ; [by rewrite E|]. eapply harmless_keq; [|exact Hh]. by rewrite E.
Qed.

Context {A : Type} (f : Z) (hq : lhead) (ok busy : A) (avail : bool) (time : Z).

Lemma pass_result_flow r s' :
  flow_result me cur (pass_done cur hw s1 ok busy avail time s)
    (pass_woke me hw s1 ok avail s) (pass_waits cur f hq avail time s) r s' ->
  pass_result me cur f hw hq s1 ok busy avail time s r s'.
Proof using Hme Hi Hhw Hc.
  unfold pass_result, pass_done, pass_woke, pass_waits. destruct r as [r|]; cbn.
  - intros [(s0 & H & E)|(s0 & s2 & (-> & -> & t & l & El & E0) & E & He)].
    + destruct avail.
      * destruct H as (-> & -> & E0). split; [done|]. by rewrite E0.
      * destruct H as (Ht & -> & H). left. split_and!; [done..|].
        destruct H as [->|(e & E0)]; [by left|right]. exists e. by rewrite E0.
    + split; [done|]. rewrite El. destruct (pass_wake t l El) as [(Hi2 & _) El2].
      rewrite E in E0. split; [|by exists s2].
      assert (Hi3 : kinv s2) by by rewrite <-E0.
      destruct (schedule_effect_frame me cur s2 s') as (_ & _ & Ewl); [done..|].
      rewrite Ewl, <-(keq_lists _ _ E0) by (by destruct hw). exact El2.
  - intros (flag & h & t & s2 & (-> & Hz & -> & -> & -> & ->) & W). right.
    split_and!; [done..|]. by apply waiting_reset.
Qed.

Lemma pass_result_frame r s' :
  pass_result me cur f hw hq s1 ok busy avail time s r s' ->
  (forall o, otype s' o = otype s o) /\ same_objs (if avail then s1 else s) s'.
Proof using Hme Hi Hhw Hc.
  unfold pass_result. destruct avail.
  - intros [-> H]. destruct (lists s hw) as [|t l] eqn:El.
    + split; [|by apply keq_objs]. intros o. rewrite <-(keq_otype _ _ H). apply Hc.
    + destruct H as (_ & s2 & E & He). destruct (pass_wake t l El) as [(Hi2 & _) _].
      assert (Hi3 : kinv s2) by by rewrite <-E.
      destruct (schedule_effect_frame me cur s2 s') as (Eo & _ & _); [done..|]. split.
      * intros o. rewrite (schedule_effect_otype me cur s2 s' He), <-(keq_otype _ _ E).
        destruct (resume_core_fields me s1 t) as (-> & _). apply Hc.
      * etrans; [apply (resume_core_objs me t s1)|]. etrans; [by apply keq_objs|done].
  - intros [(_ & _ & [E|(e & E)])|(_ & _ & W)].
    + split; [intros o; by rewrite <-(keq_otype _ _ E)|by apply keq_objs].
    + split; [intros o; by rewrite <-(keq_otype _ _ E)|].
      etrans; [|by apply keq_objs]. by split.
    + split; apply W.
Qed.
End pass.

(** A call that may put the caller on a waiting list is made by a thread that
    can give the CPU away. *)
Record may_call (me : Z) (cur : tid) (timeout : Z) (s : kstate) : Prop := {
  mc_me : 0 <= me < RT_CPUS_NR;
  mc_self : rt_thread_self me s = Some cur;
  mc_depth : lock_depth me 0 s;
  mc_parked : parked_ok s;
  mc_kinv : kinv s;
  mc_time : timeout < RT_TICK_MAX / 2;
  mc_wait : timeout = 0 \/ blocker me cur s }.

(** What is left of a wait that took less than 2^31 ticks. *)
Lemma time_left_spec timeout start now :
  timeout < RT_TICK_MAX / 2 -> u32 (now - start) <= 2 ^ 31 ->
  time_left timeout start now =
    if 0 <? timeout then Z.max 0 (timeout - u32 (now - start)) else timeout.
Proof.
  unfold time_left. change (RT_TICK_MAX / 2) with 2147483647.
  change (2 ^ 31) with 2147483648. intros Ht Hd. destruct (Z.ltb_spec 0 timeout) as [Hp|]; [|done].
  assert (0 <= u32 (now - start)) by (unfold u32; apply Z.mod_pos_bound; lia).
  rewrite i32_small by lia.
  destruct (Z.ltb_spec (timeout - u32 (now - start)) 0); lia.
Qed.

(** ** Waking the waiters of both sides *)
Record aborted_both (o : oid) (s s' : kstate) : Prop := {
  ab_harmless : harmless s s';
  ab_objs : same_objs s s';
  ab_otype : forall x, otype s' x = otype s x;
  ab_receivers : lists s' (Suspend o) = [];
  ab_senders : lists s' (Sender o) = [];
  ab_error : forall t, t ∈ lists s (Suspend o) ++ lists s (Sender o) ->
    error (threads s' t) = - RT_ERROR;
  ab_rest : forall t, t ∉ lists s (Suspend o) ++ lists s (Sender o) ->
    threads s' t = threads s t }.

Lemma wp_abort_both {B} me o s (k : K B) Q :
  kinv s -> (forall s', aborted_both o s s' -> wp k Q s') ->
  wp (rt_ipc_list_resume_all (Kn := Big me) (Suspend o))
    (fun _ => wp (rt_ipc_list_resume_all (Kn := Big me) (Sender o);; k) Q) s.
Proof.
  intros Hi HQ. apply (wp_resume_all me (Suspend o)); [done|done|].
  destruct (abort_all_ok me (Suspend o) eq_refl _ s Hi eq_refl) as [A1 A2 A3 A4 A5 A6 A7 A8 A9].
  set (s1 := abort_all me (lists s (Suspend o)) s) in *.
  apply wp_bind, (wp_resume_all me (Sender o)); [done|done|].
  destruct (abort_all_ok me (Sender o) eq_refl _ s1 A1 eq_refl) as [B1 B2 B3 B4 B5 B6 B7 B8 B9].
  assert (El : lists s1 (Sender o) = lists s (Sender o)) by by rewrite A7.
  rewrite El in *. apply HQ. split.
  - split_and!; [done|by etrans|]. intros c. by rewrite B3.
  - by etrans.
  - intros x. by rewrite B9.
  - by rewrite B7.
  - done.
  - intros t. rewrite elem_of_app. destruct (decide (t ∈ lists s (Sender o))) as [Hin|Hn].
    + intros _. by apply B5.
    + intros [Hin|Hin]; [|done]. rewrite B6 by done. by apply A5.
  - intros t Hn. rewrite B6, A6; [done|..]; intros Hin; apply Hn; apply elem_of_app; auto.
Qed.
