(* ===== verification/MailboxProps.v ===== *)
(** The properties of the mailboxes: a mailbox is a bounded queue. *)
From S2P Require Import Prelude KService Timer KState KInv Sched Kernel KTimer Object Thread ThreadSpec Example Ipc IpcSpec IpcExample Ring Mailbox Transfer.

(** * The mails of a mailbox *)
Definition mails (m : rt_mailbox) : list Z := ring (mb_pool m) (mb_size m) (out_offset m) (mb_entry m).

Record ring_ok (m : rt_mailbox) : Prop := {
  rk_size : 0 < mb_size m < 65536;
  rk_pool : mb_size m <= Z.of_nat (length (mb_pool m));
  rk_entry : 0 <= mb_entry m <= mb_size m;
  rk_out : 0 <= out_offset m < mb_size m;
  rk_in : in_offset m = (out_offset m + mb_entry m) mod mb_size m }.

(** What [mb_put] and [mb_get] make of the mailbox. *)
Definition put_mail (v : Z) (m : rt_mailbox) : rt_mailbox :=
  mkMb (mb_flag m) (<[Z.to_nat (in_offset m) := v]> (mb_pool m)) (mb_size m) (mb_entry m + 1)
    ((in_offset m + 1) mod mb_size m) (out_offset m).
Definition get_mail (m : rt_mailbox) : rt_mailbox :=
  mkMb (mb_flag m) (mb_pool m) (mb_size m) (mb_entry m - 1) (in_offset m)
    ((out_offset m + 1) mod mb_size m).

Lemma put_mail_ok v m :
  ring_ok m -> mb_entry m < mb_size m -> ring_ok (put_mail v m) /\ mails (put_mail v m) = mails m ++ [v].
Proof.
  intros [R1 R2 R3 R4 R5] He. split.
  - split; cbn; try done; try lia.
    + by rewrite length_insert.
    + rewrite R5, Zplus_mod_idemp_l. f_equal. lia.
  - unfold mails. cbn. rewrite R5. apply ring_put; lia.
Qed.

Lemma get_mail_ok m :
  ring_ok m -> 0 < mb_entry m ->
  ring_ok (get_mail m) /\ exists v, mb_pool m !! Z.to_nat (out_offset m) = Some v /\
    mails m = v :: mails (get_mail m).
Proof.
  intros [R1 R2 R3 R4 R5] He. split.
  - split; cbn; try done; try lia.
    + apply Z.mod_pos_bound. lia.
    + rewrite R5, Zplus_mod_idemp_l. f_equal. lia.
  - exists (mb_pool m !!! Z.to_nat (out_offset m)). split.
    + apply list_lookup_lookup_total_lt. lia.
    + unfold mails. rewrite ring_get by lia. by rewrite slot_0 by lia.
Qed.

Lemma fresh_mails flag pool size :
  0 < size < 65536 -> size <= Z.of_nat (length pool) ->
  ring_ok (mb_fresh flag pool size) /\ mails (mb_fresh flag pool size) = [].
Proof.
  intros Hs Hp. unfold mb_fresh. rewrite u16_small by lia. split; [|done].
  split; cbn; try lia. by rewrite Z.mod_0_l by lia.
Qed.

Definition with_mb (mb : oid) (x : rt_mailbox) (s : kstate) : kstate :=
  set_mailboxes (upd (mailboxes s) mb x) s.

Lemma with_mb_ok mb x s : kinv s -> harmless s (with_mb mb x s).
Proof. intros [[] [] ? ?]. split_and!; [by split|done|done]. Qed.

Lemma with_mb_twice mb x y s s' : keq (with_mb mb x s) s' -> keq (with_mb mb y s) (with_mb mb y s').
Proof.
  intros E. pose proof (keq_mailboxes _ _ E) as Em. destruct E. split; try done.
  intros o. cbn. destruct (decide (mb = o)) as [<-|Hne]; [by rewrite !upd_eq|].
  rewrite !upd_ne by done. rewrite <-Em. cbn. by rewrite upd_ne.
Qed.
Lemma with_mb_same mb s : keq (with_mb mb (mailboxes s mb) s) s.
Proof. split; try done. intros o. cbn. unfold upd. case_decide; by subst. Qed.
Lemma with_mb_lookup mb x s s' : keq (with_mb mb x s) s' -> mailboxes s' mb = x.
Proof. intros E. rewrite <-(keq_mailboxes _ _ E). cbn. by rewrite upd_eq. Qed.

(** One access through [mb_upd]. *)
Lemma wp_mb_upd mb x s s0 f (Q : unit -> kstate -> Prop) :
  keq (with_mb mb x s) s0 -> (forall s', keq (with_mb mb (f x) s) s' -> Q tt s') ->
  wp (mb_upd mb f) Q s0.
Proof.
  intros E HQ. unfold mb_upd. wp_steps. apply HQ.
  rewrite (with_mb_lookup _ _ _ _ E). by apply (with_mb_twice mb x).
Qed.

Lemma wp_mb_put mb v s (Q : unit -> kstate -> Prop) :
  ring_ok (mailboxes s mb) -> mb_entry (mailboxes s mb) < mb_size (mailboxes s mb) ->
  (forall s', keq (with_mb mb (put_mail v (mailboxes s mb)) s) s' -> Q tt s') ->
  wp (mb_put mb v) Q s.
Proof.
  intros [R1 R2 R3 R4 R5] He HQ. set (m := mailboxes s mb) in *.
  assert (Hin : 0 <= in_offset m < mb_size m) by (rewrite R5; apply Z.mod_pos_bound; lia).
  unfold mb_put. wp_steps.
  { fold m. apply Z.ltb_lt. lia. }
  apply (wp_mb_upd mb m s); [apply with_mb_same|].
  intros s1 E1. wp_steps. apply (wp_mb_upd mb _ s _ _ _ E1). intros s2 E2. wp_steps.
  rewrite (with_mb_lookup _ _ _ _ E2). cbn [in_offset mb_size set_in_offset set_mb_pool].
  rewrite u16_small by lia. eapply wp_mono with (P := fun _ s3 => keq (with_mb mb
    (mkMb (mb_flag m) (<[Z.to_nat (in_offset m) := v]> (mb_pool m)) (mb_size m) (mb_entry m)
      ((in_offset m + 1) mod mb_size m) (out_offset m)) s) s3).
  { rewrite <-step_mod by done. cbn [in_offset set_mb_pool] in E2. rewrite u16_small in E2 by lia. unfold when.
    destruct (Z.leb_spec (mb_size m) (in_offset m + 1)); [|by wp_steps].
    by apply (wp_mb_upd mb _ s _ _ _ E2). }
  intros [] s3 E3. wp_steps. apply (wp_mb_upd mb _ s _ _ _ E3). intros s4 E4. apply HQ.
  revert E4. unfold set_mb_entry, put_mail. cbn [mb_flag mb_pool mb_size mb_entry in_offset out_offset].
  by rewrite u16_small by lia.
Qed.

Lemma wp_mb_get mb s (Q : Z -> kstate -> Prop) :
  ring_ok (mailboxes s mb) -> 0 < mb_entry (mailboxes s mb) ->
  (forall v s', mails (mailboxes s mb) = v :: mails (get_mail (mailboxes s mb)) ->
     keq (with_mb mb (get_mail (mailboxes s mb)) s) s' -> Q v s') ->
  wp (mb_get mb) Q s.
Proof.
  intros Hr He HQ. destruct (get_mail_ok _ Hr He) as (_ & v & Ev & Em). destruct Hr as [R1 R2 R3 R4 R5].
  set (m := mailboxes s mb) in *. unfold mb_get. wp_steps. apply (wp_ofopt _ v); [done|]. wp_steps.
  apply (wp_mb_upd mb m s); [apply with_mb_same|]. intros s1 E1. wp_steps.
  rewrite (with_mb_lookup _ _ _ _ E1). cbn [out_offset mb_size set_out_offset].
  rewrite u16_small by lia. eapply wp_mono with (P := fun _ s3 => keq (with_mb mb
    (mkMb (mb_flag m) (mb_pool m) (mb_size m) (mb_entry m) (in_offset m)
      ((out_offset m + 1) mod mb_size m)) s) s3).
  { rewrite <-step_mod by done. rewrite u16_small in E1 by lia. unfold when.
    destruct (Z.leb_spec (mb_size m) (out_offset m + 1)); [|by wp_steps].
    by apply (wp_mb_upd mb _ s _ _ _ E1). }
  intros [] s3 E3. wp_steps. apply (wp_mb_upd mb _ s _ _ _ E3). intros s4 E4. wp_steps. apply HQ; [done|].
  revert E4. unfold set_mb_entry, get_mail. cbn [mb_flag mb_pool mb_size mb_entry in_offset out_offset].
  by rewrite u16_small by lia.
Qed.

(** * Sending and receiving on the abstract kernel *)
Record mb_ok (s : kstate) (mb : oid) : Prop := {
  bk_type : rt_object_get_type s (OIpc mb) = RT_Object_Class_MailBox;
  bk_flag : ipc_flag_ok (mb_flag (mailboxes s mb));
  bk_ring : ring_ok (mailboxes s mb) }.

Definition mb_full (s : kstate) (mb : oid) : Prop :=
  mb_entry (mailboxes s mb) = mb_size (mailboxes s mb).
Definition mb_empty (s : kstate) (mb : oid) : Prop := mb_entry (mailboxes s mb) = 0.

Lemma with_mb_change mb x s : kinv s -> object_change s (with_mb mb x s).
Proof. intros Hi. split; try done. by apply with_mb_ok. Qed.

Section loops.
Context (me : Z) (cur mb : oid) (s : kstate) (w : wait_info).
Context (Hi : kinv s) (Hk : mb_ok s mb) (Htime : w.1 < RT_TICK_MAX / 2).
Let m := mailboxes s mb.

Definition can_send : bool := negb (mb_entry m =? mb_size m).
Definition can_recv : bool := negb (mb_entry m =? 0).

Lemma wp_mb_send_loop value (thread : option tid) :
  can_send = true \/ blocker me cur s /\ thread = Some cur ->
  wp (mb_send_loop (Kn := Big me) mb value thread w)
    (flow_post me cur s
      (pass_done cur (Suspend mb) (with_mb mb (put_mail value m) s) RT_EOK (- RT_EFULL) can_send w.1 s)
      (pass_woke me (Suspend mb) (with_mb mb (put_mail value m) s) RT_EOK can_send s)
      (pass_waits cur (mb_flag m) (Sender mb) can_send w.1 s)) s.
Proof using Hi Hk Htime.
  intros Hc. unfold mb_send_loop. destruct w as [timeout td]. cbn [fst snd] in *.
  cbn [interrupt_disable interrupt_enable Big cpu_id]. wp_steps. fold m.
  unfold pass_done, pass_woke, pass_waits, can_send in *.
  destruct (Z.eqb_spec (mb_entry m) (mb_size m)) as [Hf|Hf]; cbn [negb] in *.
  - destruct Hc as [|[Hbr ->]]; [done|]. destruct (reset_blocker me cur s Hbr) as (Hbr1 & Hh1 & He1).
    wp_steps. apply (wp_ofopt _ cur); [done|]. wp_steps. fold (reset_error cur s).
    destruct (Z.eqb_spec timeout 0) as [Hz|Hz].
    + wp_steps. split; [|done]. split_and!; [done..|]. right. exists RT_EOK. done.
    + wp_steps. apply (wp_blocker_context me cur); [done|].
      wp_steps. apply wp_blocker; [done|done|apply Hk|done|]. intros s' Hb. wp_steps. split; [done|].
      exists (mb_flag m), (Sender mb), timeout, (reset_error cur s). by split_and!.
  - destruct Hk as [_ _ Hr]. assert (He : mb_entry m < mb_size m) by (pose proof (rk_entry _ Hr) as H; fold m in H; lia).
    clear Hc. apply wp_bind, wp_mb_put; [done|done|]. intros s1 E1. wp_steps.
    rewrite <-(keq_lists _ _ E1). cbn [lists with_mb set_mailboxes].
    destruct (lists s (Suspend mb)) as [|t l] eqn:El.
    + rewrite bool_decide_false by (by intros H). wp_steps.
      split; [done|]. eapply harmless_keq; [exact E1|]. by apply with_mb_ok.
    + rewrite bool_decide_true by done. wp_steps.
      apply (wp_pass_wake me s (with_mb mb (put_mail value m) s) (Suspend mb) Hi eq_refl (with_mb_change _ _ _ Hi) t l);
        [done|done|].
      intros s2 E2 Hh2. wp_steps. split; [|done]. split_and!; [done..|]. by exists t, l.
Qed.

Lemma wp_mb_recv_loop (thread : option tid) :
  can_recv = true \/ blocker me cur s /\ thread = Some cur ->
  wp (mb_recv_loop (Kn := Big me) mb thread w)
    (flow_post me cur s
      (pass_done cur (Sender mb) (with_mb mb (get_mail m) s) (RT_EOK, head (mails m)) (- RT_ETIMEOUT, None)
         can_recv w.1 s)
      (pass_woke me (Sender mb) (with_mb mb (get_mail m) s) (RT_EOK, head (mails m)) can_recv s)
      (pass_waits cur (mb_flag m) (Suspend mb) can_recv w.1 s)) s.
Proof using Hi Hk Htime.
  intros Hc. unfold mb_recv_loop. destruct w as [timeout td]. cbn [fst snd] in *.
  cbn [interrupt_disable interrupt_enable Big cpu_id]. wp_steps. fold m.
  unfold pass_done, pass_woke, pass_waits, can_recv in *.
  destruct (Z.eqb_spec (mb_entry m) 0) as [Hf|Hf]; cbn [negb] in *.
  - destruct Hc as [|[Hbr ->]]; [done|]. destruct (reset_blocker me cur s Hbr) as (Hbr1 & Hh1 & He1).
    wp_steps. apply (wp_ofopt _ cur); [done|]. wp_steps. fold (reset_error cur s).
    destruct (Z.eqb_spec timeout 0) as [Hz|Hz].
    + wp_steps. set (s2 := with_thread cur _ (reset_error cur s)).
      assert (E : keq (with_thread cur (set_error (- RT_ETIMEOUT) (threads s cur)) s) s2).
      { split; try done. intros x. cbn. unfold upd. by repeat case_decide. }
      split; [split_and!; [done..|]; right; by exists (- RT_ETIMEOUT)|].
      eapply harmless_keq; [exact E|].
      apply harmless_error; [done|exact (br_thread _ _ _ Hbr)].
    + wp_steps. apply (wp_blocker_context me cur); [done|].
      wp_steps. apply wp_blocker; [done|done|apply Hk|done|]. intros s' Hb. wp_steps. split; [done|].
      exists (mb_flag m), (Suspend mb), timeout, (reset_error cur s). by split_and!.
  - destruct Hk as [_ _ Hr]. assert (He : 0 < mb_entry m) by (pose proof (rk_entry _ Hr) as H; fold m in H; lia).
    clear Hc. apply wp_bind, wp_mb_get; [done|done|]. intros v s1 Ev E1. wp_steps. fold m in Ev.
    rewrite Ev. cbn [head]. rewrite <-(keq_lists _ _ E1). cbn [lists with_mb set_mailboxes].
    destruct (lists s (Sender mb)) as [|t l] eqn:El.
    + rewrite bool_decide_false by (by intros H). wp_steps.
      split; [done|]. eapply harmless_keq; [exact E1|]. by apply with_mb_ok.
    + rewrite bool_decide_true by done. wp_steps.
      apply (wp_pass_wake me s (with_mb mb (get_mail m) s) (Sender mb) Hi eq_refl (with_mb_change _ _ _ Hi) t l);
        [done|done|].
      intros s2 E2 Hh2. wp_steps. split; [|done]. split_and!; [done..|]. by exists t, l.
Qed.
End loops.

(** * The operations *)
#[local] Hint Resolve mb_send_loop_er mb_recv_loop_er : er.

Lemma rt_mb_send_resumed_er me d mb value t w : 0 <= d < 32500 ->
  erases me d d (rt_mb_send_resumed (Kn := Smp me) mb value t w)
    (rt_mb_send_resumed (Kn := Big me) mb value t w).
Proof. intros Hd. unfold rt_mb_send_resumed. er. Qed.
Lemma rt_mb_recv_resumed_er me d mb t w : 0 <= d < 32500 ->
  erases me d d (rt_mb_recv_resumed (Kn := Smp me) mb t w)
    (rt_mb_recv_resumed (Kn := Big me) mb t w).
Proof. intros Hd. unfold rt_mb_recv_resumed. er. Qed.

Lemma mb_pass_ok {A} me cur mb f hw hq x (ok busy : A) avail time s r s' :
  0 <= me < RT_CPUS_NR -> kinv s -> is_wait_head hw = true -> mb_ok s mb ->
  (avail = true -> ring_ok x /\ mb_flag x = mb_flag (mailboxes s mb)) ->
  pass_result me cur f hw hq (with_mb mb x s) ok busy avail time s r s' ->
  mb_ok s' mb /\ mailboxes s' mb = if avail then x else mailboxes s mb.
Proof.
  intros Hme Hi Hhw [K1 K2 K3] Hx H.
  destruct (pass_result_frame me cur s (with_mb mb x s) hw Hme Hi Hhw (with_mb_change mb x s Hi)
    f hq ok busy avail time r s' H) as [Ho Hs].
  assert (Em : mailboxes s' mb = if avail then x else mailboxes s mb).
  { rewrite (so_mailboxes _ _ Hs). destruct avail; [|done]. cbn. by rewrite upd_eq. }
  split; [|done]. split; rewrite ?Em.
  - unfold rt_object_get_type. by rewrite Ho.
  - destruct avail; [|done]. destruct (Hx eq_refl) as [_ ->]. done.
  - destruct avail; [|done]. by destruct (Hx eq_refl).
Qed.

Section sends.
Context (me : Z) (cur mb : oid) (s : kstate) (value : Z) (Hk : mb_ok s mb).
Let m := mailboxes s mb.

Definition mb_send_result (time : Z) (r : option Z) (s' : kstate) : Prop :=
  pass_result me cur (mb_flag (mailboxes s mb)) (Suspend mb) (Sender mb)
    (with_mb mb (put_mail value (mailboxes s mb)) s) RT_EOK (- RT_EFULL)
    (can_send mb s) time s r s'.

Lemma mb_send_ok time r s' :
  0 <= me < RT_CPUS_NR -> kinv s -> mb_send_result time r s' ->
  mb_ok s' mb /\ mails (mailboxes s' mb) =
    if can_send mb s then mails m ++ [value] else mails m.
Proof using Hk.
  intros Hme Hi H. unfold mb_send_result in H. unfold can_send in *. fold m in H |- *.
  apply mb_pass_ok in H; [|done..|].
  - destruct H as [Hk' ->]. split; [done|]. destruct (Z.eqb_spec (mb_entry m) (mb_size m)); [done|].
    apply put_mail_ok; [apply Hk|]. pose proof (rk_entry _ (bk_ring _ _ Hk)) as He. fold m in He. lia.
  - intros Hf%negb_true_iff%Z.eqb_neq. split; [|done].
    apply put_mail_ok; [apply Hk|]. pose proof (rk_entry _ (bk_ring _ _ Hk)) as He. fold m in He. lia.
Qed.

Lemma mb_send_steps fuel timeout :
  may_call me cur timeout s ->
  wp (rt_mb_send_wait me fuel mb value timeout) (fun r s' =>
    kinv s' /\ lock_depth me 0 s' /\ parked_ok s' /\ mb_send_result timeout r s') s.
Proof using Hk.
  intros [Hme Hself Hd Hp Hi Ht Hw]. eapply wp_mono;
    [eapply wp_flow; [done|done|done|done|apply rt_mb_send_wait_enter_er; lia|]|].
  { unfold rt_mb_send_wait_enter. cbn [interrupt_disable interrupt_enable Big cpu_id].
    apply wp_bind, wp_assert_type; [apply Hk|]. wp_steps. fold m.
    destruct ((mb_entry m =? mb_size m) && (timeout =? 0)) eqn:E.
    - apply andb_true_iff in E as [E1 E2]. wp_steps.
      instantiate (1 := pass_waits cur (mb_flag m) (Sender mb) (can_send mb s) timeout s).
      instantiate (1 := pass_woke me (Suspend mb) (with_mb mb (put_mail value m) s) RT_EOK (can_send mb s) s).
      instantiate (1 := pass_done cur (Suspend mb) (with_mb mb (put_mail value m) s) RT_EOK (- RT_EFULL)
        (can_send mb s) timeout s).
      split; [|by apply harmless_refl]. unfold pass_done, can_send. fold m. rewrite E1. cbn.
      split_and!; [by apply Z.eqb_eq|done|by left].
    - rewrite Hself. apply (wp_mb_send_loop me cur mb s (timeout, 0)); try done.
      unfold can_send. fold m. destruct (mb_entry m =? mb_size m); [right|by left].
      destruct Hw as [->|Hw]; [done|]. by split. }
  intros r s' (Hi' & D & P & H). split_and!; try done. apply pass_result_flow; [done|done|done|by apply with_mb_change|done].
Qed.

(** After the wait: an error ends the call, otherwise it goes on with what is
    left of its time. *)
Lemma mb_send_resumed_steps fuel w :
  may_call me cur (time_left w.1 w.2 (rt_tick_get s)) s -> blocker me cur s ->
  wp (o ← rt_mb_send_resumed (Kn := Smp me) mb value cur w;
      run_flow me (rt_mb_send_resumed (Kn := Smp me) mb value) fuel o) (fun r s' =>
    kinv s' /\ lock_depth me 0 s' /\ parked_ok s' /\
    resumed_result cur s id (mb_send_result (time_left w.1 w.2 (rt_tick_get s))) r s') s.
Proof using Hk.
  intros [Hme Hself Hd Hp Hi Ht _] Hbr.
  eapply wp_mono; [eapply (wp_resumed me cur s id); [done..|apply rt_mb_send_resumed_er; lia|]|].
  { cbn [interrupt_disable interrupt_enable Big cpu_id]. wp_steps.
    apply (wp_mb_send_loop me cur mb s (_, w.2)); [done|done|done|right; by split]. }
  intros r s' (Hi' & D & P & H). split_and!; try done.
  destruct H as [H|(He & H)]; [by left|right]. split; [done|]. apply pass_result_flow; [done|done|done|by apply with_mb_change|done].
Qed.
End sends.

Section receives.
Context (me : Z) (cur mb : oid) (s : kstate) (Hk : mb_ok s mb).
Let m := mailboxes s mb.

Definition mb_recv_result (time : Z) (r : option (Z * option Z)) (s' : kstate) : Prop :=
  pass_result me cur (mb_flag (mailboxes s mb)) (Sender mb) (Suspend mb)
    (with_mb mb (get_mail (mailboxes s mb)) s)
    (RT_EOK, head (mails (mailboxes s mb))) (- RT_ETIMEOUT, None) (can_recv mb s) time s r s'.

Lemma mb_recv_ok time r s' :
  0 <= me < RT_CPUS_NR -> kinv s -> mb_recv_result time r s' ->
  mb_ok s' mb /\ mails (mailboxes s' mb) = if can_recv mb s then tail (mails m) else mails m.
Proof using Hk.
  intros Hme Hi H. unfold mb_recv_result in H. unfold can_recv in *. fold m in H |- *.
  pose proof (rk_entry _ (bk_ring _ _ Hk)) as He. fold m in He.
  apply mb_pass_ok in H; [|done..|].
  - destruct H as [Hk' ->]. split; [done|]. destruct (Z.eqb_spec (mb_entry m) 0); [done|].
    destruct (get_mail_ok m (bk_ring _ _ Hk)) as (_ & v & _ & Em); [lia|]. cbn. by rewrite Em.
  - intros Hf%negb_true_iff%Z.eqb_neq. split; [|done].
    apply get_mail_ok; [apply Hk|lia].
Qed.

Lemma mb_recv_steps fuel timeout :
  may_call me cur timeout s ->
  wp (rt_mb_recv me fuel mb timeout) (fun r s' =>
    kinv s' /\ lock_depth me 0 s' /\ parked_ok s' /\ mb_recv_result timeout r s') s.
Proof using Hk.
  intros [Hme Hself Hd Hp Hi Ht Hw]. eapply wp_mono;
    [eapply wp_flow; [done|done|done|done|apply rt_mb_recv_enter_er; lia|]|].
  { unfold rt_mb_recv_enter. cbn [interrupt_disable interrupt_enable Big cpu_id].
    apply wp_bind, wp_assert_type; [apply Hk|]. wp_steps. fold m.
    destruct ((mb_entry m =? 0) && (timeout =? 0)) eqn:E.
    - apply andb_true_iff in E as [E1 E2]. wp_steps.
      instantiate (1 := pass_waits cur (mb_flag m) (Suspend mb) (can_recv mb s) timeout s).
      instantiate (1 := pass_woke me (Sender mb) (with_mb mb (get_mail m) s) (RT_EOK, head (mails m))
        (can_recv mb s) s).
      instantiate (1 := pass_done cur (Sender mb) (with_mb mb (get_mail m) s) (RT_EOK, head (mails m))
        (- RT_ETIMEOUT, None) (can_recv mb s) timeout s).
      split; [|by apply harmless_refl]. unfold pass_done, can_recv. fold m. rewrite E1. cbn.
      split_and!; [by apply Z.eqb_eq|done|by left].
    - rewrite Hself. apply (wp_mb_recv_loop me cur mb s (timeout, 0)); try done.
      unfold can_recv. fold m. destruct (mb_entry m =? 0); [right|by left].
      destruct Hw as [->|Hw]; [done|]. by split. }
  intros r s' (Hi' & D & P & H). split_and!; try done. apply pass_result_flow; [done|done|done|by apply with_mb_change|done].
Qed.

Lemma mb_recv_resumed_steps fuel w :
  may_call me cur (time_left w.1 w.2 (rt_tick_get s)) s -> blocker me cur s ->
  wp (o ← rt_mb_recv_resumed (Kn := Smp me) mb cur w;
      run_flow me (rt_mb_recv_resumed (Kn := Smp me) mb) fuel o) (fun r s' =>
    kinv s' /\ lock_depth me 0 s' /\ parked_ok s' /\
    resumed_result cur s (fun e => (e, None))
      (mb_recv_result (time_left w.1 w.2 (rt_tick_get s))) r s') s.
Proof using Hk.
  intros [Hme Hself Hd Hp Hi Ht _] Hbr.
  eapply wp_mono; [eapply (wp_resumed me cur s (fun e => (e, None)));
    [done..|apply rt_mb_recv_resumed_er; lia|]|].
  { cbn [interrupt_disable interrupt_enable Big cpu_id]. wp_steps.
    apply (wp_mb_recv_loop me cur mb s (_, w.2)); [done|done|done|right; by split]. }
  intros r s' (Hi' & D & P & H). split_and!; try done.
  destruct H as [H|(He & H)]; [by left|right]. split; [done|]. apply pass_result_flow; [done|done|done|by apply with_mb_change|done].
Qed.
End receives.

(** * Properties *)

(** [rt_mb_send_wait] (and [rt_mb_send]) puts the value behind the mails when
    there is room and wakes the first waiting receiver; at a full mailbox a
    caller that does not wait gets [-RT_EFULL], and a caller that waits is
    queued with the senders and leaves the CPU.  The mailbox stays well-formed. *)
Theorem rt_mb_send_wait_refines me cur fuel mb value timeout s :
  may_call me cur timeout s -> mb_ok s mb ->
  wp (rt_mb_send_wait me fuel mb value timeout) (fun r s' =>
    kinv s' /\ lock_depth me 0 s' /\ parked_ok s' /\ mb_ok s' mb /\
    mails (mailboxes s' mb) =
      (if can_send mb s then mails (mailboxes s mb) ++ [value] else mails (mailboxes s mb)) /\
    mb_send_result me cur mb s value timeout r s') s.
Proof.
  intros Hc Hk. eapply wp_mono; [by apply (mb_send_steps me cur mb s value Hk)|].
  intros r s' (H1 & H2 & H3 & H). destruct (mb_send_ok me cur mb s value Hk timeout r s') as [H4 H5];
    [apply Hc|apply Hc|done|]. by split_and!.
Qed.

(** [rt_mb_recv] takes the oldest mail when there is one and wakes the first
    waiting sender; at an empty mailbox a caller that does not wait gets
    [-RT_ETIMEOUT], and a caller that waits is queued and leaves the CPU. *)
Theorem rt_mb_recv_refines me cur fuel mb timeout s :
  may_call me cur timeout s -> mb_ok s mb ->
  wp (rt_mb_recv me fuel mb timeout) (fun r s' =>
    kinv s' /\ lock_depth me 0 s' /\ parked_ok s' /\ mb_ok s' mb /\
    mails (mailboxes s' mb) =
      (if can_recv mb s then tail (mails (mailboxes s mb)) else mails (mailboxes s mb)) /\
    mb_recv_result me cur mb s timeout r s') s.
Proof.
  intros Hc Hk. eapply wp_mono; [by apply (mb_recv_steps me cur mb s Hk)|].
  intros r s' (H1 & H2 & H3 & H). destruct (mb_recv_ok me cur mb s Hk timeout r s') as [H4 H5];
    [apply Hc|apply Hc|done|]. by split_and!.
Qed.

Lemma ex_mb4_ok : mb_ok ex 4%positive.
Proof. split; [done|by left|]. split; cbn; lia || done. Qed.
Lemma ex_may_call timeout : timeout < RT_TICK_MAX / 2 -> may_call 0 1 timeout ex.
Proof.
  intros Ht. split; [done|done|apply ex_depth|exact ex_parked|exact ex_kinv|done|right; exact ex_blocker].
Qed.

Lemma rt_mb_send_wait_refines_ex :
  wp (rt_mb_send_wait 0 1 4%positive 23 9) (fun r s' =>
    kinv s' /\ lock_depth 0 0 s' /\ parked_ok s' /\ mb_ok s' 4%positive /\
    mails (mailboxes s' 4%positive) = [17; 23] /\
    mb_send_result 0 1 4 ex 23 9 r s') ex.
Proof.
  apply (rt_mb_send_wait_refines 0 1%positive 1 4%positive 23 9 ex (ex_may_call 9 ltac:(done))
    ex_mb4_ok).
Defined.

Lemma rt_mb_recv_refines_ex :
  wp (rt_mb_recv 0 1 4%positive 0) (fun r s' =>
    kinv s' /\ lock_depth 0 0 s' /\ parked_ok s' /\ mb_ok s' 4%positive /\
    mails (mailboxes s' 4%positive) = [] /\
    mb_recv_result 0 1 4 ex 0 r s') ex.
Proof.
  apply (rt_mb_recv_refines 0 1%positive 1 4%positive 0 ex (ex_may_call 0 ltac:(done)) ex_mb4_ok).
Defined.

(** ** Histories of a mailbox

    Calls and resumed calls by any threads and interrupt handlers on any CPU,
    with steps that leave the mailbox alone.  A label is a mail that was sent
    or received. *)
Inductive mail_label := Sent (v : Z) | Got (v : option Z).

Definition send_labels (v : Z) (r : option Z) : list mail_label :=
  match r with Some e => if e =? RT_EOK then [Sent v] else [] | None => [] end.
Definition recv_labels (r : option (Z * option Z)) : list mail_label :=
  match r with Some (e, v) => if e =? RT_EOK then [Got v] else [] | None => [] end.

Inductive mb_history (mb : oid) : kstate -> list mail_label -> kstate -> Prop :=
  | bh_nil s : mb_history mb s [] s
  | bh_send me cur fuel v timeout s r s1 tr s2 :
      may_call me cur timeout s -> rt_mb_send_wait me fuel mb v timeout s = Some (r, s1) ->
      mb_history mb s1 tr s2 -> mb_history mb s (send_labels v r ++ tr) s2
  | bh_send_resumed me cur fuel v w s r s1 tr s2 :
      may_call me cur (time_left w.1 w.2 (rt_tick_get s)) s -> blocker me cur s ->
      (o ← rt_mb_send_resumed (Kn := Smp me) mb v cur w;
       run_flow me (rt_mb_send_resumed (Kn := Smp me) mb v) fuel o) s = Some (r, s1) ->
      mb_history mb s1 tr s2 -> mb_history mb s (send_labels v r ++ tr) s2
  | bh_recv me cur fuel timeout s r s1 tr s2 :
      may_call me cur timeout s -> rt_mb_recv me fuel mb timeout s = Some (r, s1) ->
      mb_history mb s1 tr s2 -> mb_history mb s (recv_labels r ++ tr) s2
  | bh_recv_resumed me cur fuel w s r s1 tr s2 :
      may_call me cur (time_left w.1 w.2 (rt_tick_get s)) s -> blocker me cur s ->
      (o ← rt_mb_recv_resumed (Kn := Smp me) mb cur w;
       run_flow me (rt_mb_recv_resumed (Kn := Smp me) mb) fuel o) s = Some (r, s1) ->
      mb_history mb s1 tr s2 -> mb_history mb s (recv_labels r ++ tr) s2
  | bh_other s s1 tr s2 :
      mailboxes s1 mb = mailboxes s mb -> (mb_ok s mb -> mb_ok s1 mb) ->
      mb_history mb s1 tr s2 -> mb_history mb s tr s2.

Fixpoint sent_mails (tr : list mail_label) : list Z :=
  match tr with [] => [] | Sent v :: tr' => v :: sent_mails tr' | Got _ :: tr' => sent_mails tr' end.
Fixpoint got_mails (tr : list mail_label) : list (option Z) :=
  match tr with [] => [] | Sent _ :: tr' => got_mails tr' | Got v :: tr' => v :: got_mails tr' end.

(** One step: what it sent goes to the end, what it received comes from the front. *)
Definition mail_step (s : kstate) (tr : list mail_label) (s1 : kstate) (mb : oid) : Prop :=
  mb_ok s1 mb /\ (Some <$> mails (mailboxes s mb)) ++ (Some <$> sent_mails tr)
    = got_mails tr ++ (Some <$> mails (mailboxes s1 mb)).

Lemma mb_send_result_step me cur mb s v time r s1 :
  0 <= me < RT_CPUS_NR -> kinv s -> mb_ok s mb -> mb_send_result me cur mb s v time r s1 ->
  mail_step s (send_labels v r) s1 mb.
Proof.
  intros Hme Hi Hk H. destruct (mb_send_ok me cur mb s v Hk time r s1 Hme Hi H) as [Hk1 Em].
  split; [done|]. rewrite Em. unfold mb_send_result, pass_result in H.
  destruct (can_send mb s).
  - destruct H as [-> _]. cbn. by rewrite fmap_app.
  - destruct H as [(_ & -> & _)|(_ & -> & _)]; cbn; by rewrite app_nil_r.
Qed.

Lemma mb_recv_result_step me cur mb s time r s1 :
  0 <= me < RT_CPUS_NR -> kinv s -> mb_ok s mb -> mb_recv_result me cur mb s time r s1 ->
  mail_step s (recv_labels r) s1 mb.
Proof.
  intros Hme Hi Hk H. destruct (mb_recv_ok me cur mb s Hk time r s1 Hme Hi H) as [Hk1 Em].
  split; [done|]. rewrite Em. unfold mb_recv_result, pass_result, can_recv in *.
  destruct (Z.eqb_spec (mb_entry (mailboxes s mb)) 0) as [He|He]; cbn [negb] in *.
  - destruct H as [(_ & -> & _)|(_ & -> & _)]; cbn; by rewrite app_nil_r.
  - destruct H as [-> _]. pose proof (bk_ring _ _ Hk) as Hr. pose proof (rk_entry _ Hr).
    destruct (get_mail_ok _ Hr) as (_ & v & _ & Ev); [lia|]. rewrite Ev. cbn. by rewrite app_nil_r.
Qed.

Lemma resumed_step {A} t s (f : Z -> A) Q r s1 mb (labels : option A -> list mail_label) :
  mb_ok s mb -> resumed_result t s f Q r s1 ->
  (forall e, e <> RT_EOK -> labels (Some (f e)) = []) ->
  (Q r s1 -> mail_step s (labels r) s1 mb) -> mail_step s (labels r) s1 mb.
Proof.
  intros Hk [(He & -> & E)|(_ & H)] Hl HQ; [|auto]. rewrite Hl by done. destruct Hk as [K1 K2 K3].
  split; cbn.
  - split; unfold rt_object_get_type; by rewrite <-?(keq_otype _ _ E), <-?(keq_mailboxes _ _ E).
  - by rewrite app_nil_r, <-(keq_mailboxes _ _ E).
Qed.

Lemma mail_steps_trans mb s tr1 s1 tr2 s2 :
  mail_step s tr1 s1 mb -> mail_step s1 tr2 s2 mb -> mail_step s (tr1 ++ tr2) s2 mb.
Proof.
  intros [H1 E1] [H2 E2]. split; [done|].
  assert (Es : sent_mails (tr1 ++ tr2) = sent_mails tr1 ++ sent_mails tr2)
    by (clear; induction tr1 as [|[] tr1 IH]; cbn; by rewrite ?IH).
  assert (Eg : got_mails (tr1 ++ tr2) = got_mails tr1 ++ got_mails tr2)
    by (clear; induction tr1 as [|[] tr1 IH]; cbn; by rewrite ?IH).
  by rewrite Es, Eg, fmap_app, app_assoc, E1, <-!app_assoc, E2.
Qed.

Lemma mb_history_step mb s tr s' :
  mb_history mb s tr s' -> mb_ok s mb -> mail_step s tr s' mb.
Proof.
  induction 1 as [s|me cur fuel v timeout s r s1 tr s2 Hc E _ IH
    |me cur fuel v w s r s1 tr s2 Hc Hb E _ IH|me cur fuel timeout s r s1 tr s2 Hc E _ IH
    |me cur fuel w s r s1 tr s2 Hc Hb E _ IH|s s1 tr s2 E Ho _ IH]; intros Hk.
  - split; [done|]. cbn. by rewrite app_nil_r.
  - pose proof (mb_send_steps me cur mb s v Hk fuel timeout Hc) as W. unfold wp in W. rewrite E in W.
    destruct W as (_ & _ & _ & W). eapply mb_send_result_step in W; [|apply Hc|apply Hc|done].
    eapply mail_steps_trans; [exact W|]. apply IH, W.
  - pose proof (mb_send_resumed_steps me cur mb s v Hk fuel w Hc Hb) as W.
    unfold wp in W. rewrite E in W. destruct W as (_ & _ & _ & W).
    assert (Hs : mail_step s (send_labels v r) s1 mb).
    { eapply (resumed_step _ _ _ _ r s1 mb (send_labels v)); [done|exact W|..].
      - intros e He. cbn. apply Z.eqb_neq in He. by rewrite He.
      - intros W'. eapply mb_send_result_step; [apply Hc|apply Hc|done|exact W']. }
    eapply mail_steps_trans; [exact Hs|]. apply IH, Hs.
  - pose proof (mb_recv_steps me cur mb s Hk fuel timeout Hc) as W. unfold wp in W. rewrite E in W.
    destruct W as (_ & _ & _ & W). eapply mb_recv_result_step in W; [|apply Hc|apply Hc|done].
    eapply mail_steps_trans; [exact W|]. apply IH, W.
  - pose proof (mb_recv_resumed_steps me cur mb s Hk fuel w Hc Hb) as W.
    unfold wp in W. rewrite E in W. destruct W as (_ & _ & _ & W).
    assert (Hs : mail_step s (recv_labels r) s1 mb).
    { eapply (resumed_step _ _ _ _ r s1 mb recv_labels); [done|exact W|..].
      - intros e He. cbn. apply Z.eqb_neq in He. by rewrite He.
      - intros W'. eapply mb_recv_result_step; [apply Hc|apply Hc|done|exact W']. }
    eapply mail_steps_trans; [exact Hs|]. apply IH, Hs.
  - specialize (IH (Ho Hk)). unfold mail_step in *. by rewrite <-E.
Qed.

(** C21: a mailbox is a bounded first-in first-out queue: in every history of
    calls and resumed calls of [rt_mb_send_wait] and [rt_mb_recv] the initial
    mails followed by those sent are those received followed by those that are
    still there, in this order; and there are never more than the mailbox holds. *)
Theorem rt_mb_fifo mb s tr s' :
  mb_history mb s tr s' -> mb_ok s mb ->
  mb_ok s' mb /\
  (Some <$> mails (mailboxes s mb)) ++ (Some <$> sent_mails tr)
    = got_mails tr ++ (Some <$> mails (mailboxes s' mb)) /\
  Z.of_nat (length (mails (mailboxes s' mb))) <= mb_size (mailboxes s' mb).
Proof.
  intros H Hk. destruct (mb_history_step mb s tr s' H Hk) as [Hk' E]. split_and!; [done..|].
  unfold mails. rewrite ring_length. pose proof (rk_entry _ (bk_ring _ _ Hk')). lia.
Qed.

(** Mail 23 is sent to mailbox 4, which holds 17, and one mail is received. *)
Definition ex_sent : kstate :=
  match rt_mb_send_wait 0 0 4 23 0 ex with Some (_, s') => s' | None => ex end.
Definition ex_got : kstate :=
  match rt_mb_recv 0 0 4 0 ex_sent with Some (_, s') => s' | None => ex end.

Lemma ex_sent_call : may_call 0 1 0 ex_sent.
Proof.
  assert (H : kinv ex_sent /\ lock_depth 0 0 ex_sent /\ parked_ok ex_sent).
  { apply (wp_final (rt_mb_send_wait 0 0 4 23 0) (fun s' =>
      kinv s' /\ lock_depth 0 0 s' /\ parked_ok s')).
    eapply wp_mono; [apply (mb_send_steps 0 1 4 ex 23 ex_mb4_ok 0 0 (ex_may_call 0 ltac:(done)))|].
    by intros r s' (? & ? & ? & _). }
  destruct H as (H1 & H2 & H3).
  split; [done|by vm_compute|done|done|done|done|by left].
Qed.

Lemma rt_mb_fifo_ex :
  mb_ok ex_got 4%positive /\
  [Some 17; Some 23] = [Some 17] ++ (Some <$> mails (mailboxes ex_got 4%positive)) /\
  Z.of_nat (length (mails (mailboxes ex_got 4%positive))) <= mb_size (mailboxes ex_got 4%positive).
Proof.
  apply (rt_mb_fifo 4 ex [Sent 23; Got (Some 17)] ex_got); [|exact ex_mb4_ok].
  refine (bh_send 4 0 1%positive 0%nat 23 0 ex (Some RT_EOK) ex_sent [Got (Some 17)] _
    (ex_may_call 0 _) _ (bh_recv 4 0 1%positive 0%nat 0 ex_sent (Some (RT_EOK, Some 17)) ex_got
      [] _ ex_sent_call _ (bh_nil _ _))); vm_compute; reflexivity.
Defined.
