(* ===== verification/MsgQueue.v ===== *)
(** Message queues ([rt-thread/src/ipc.c], [RT_USING_MESSAGEQUEUE]).

    The pool is an array of nodes; a node is its index, and the pool carries
    its links and the bytes behind them. *)
From S2P Require Import Prelude KService Timer KState KInv Sched Kernel KTimer Object Thread Ipc Mailbox.

(** [RT_ALIGN(size, align)] on a 64-bit [rt_size_t]. *)
Definition RT_ALIGN (size align : Z) : Z := u64 (Z.land (u64 (size + align - 1)) (Z.lnot (align - 1))).
(** [sizeof(struct rt_mq_message)]: one pointer. *)
Definition mq_message_size : Z := 8.

Definition mq_upd (mq : oid) (f : rt_messagequeue -> rt_messagequeue) : K unit :=
  modify (fun s => set_mqs (upd (mqs s) mq (f (mqs s mq))) s).

(** [head->next = msg_queue_free; msg_queue_free = head] *)
Definition free_push (head : Z) (m : rt_messagequeue) : rt_messagequeue :=
  set_msg_queue_free (Some head) (set_mq_next (upd (mq_next m) head (msg_queue_free m)) m).

(** The loop that puts the nodes [0 .. n - 1] on the free list. *)
Fixpoint fill_free (n : nat) (m : rt_messagequeue) : rt_messagequeue :=
  match n with
  | O => m
  | S n' => free_push (Z.of_nat n') (fill_free n' m)
  end.

(** The lists of a message queue set up over its pool. *)
Definition mq_setup (m : rt_messagequeue) : rt_messagequeue :=
  set_mq_entry 0
    (fill_free (Z.to_nat (max_msgs m))
      (set_msg_queue_free None (set_msg_queue_tail None (set_msg_queue_head None m)))).

(** Taking a node off the free list; [None] when there is none. *)
Definition mq_alloc (mq : oid) : K (option Z) :=
  s ← get;
  match msg_queue_free (mqs s mq) with
  | None => mret None
  | Some msg => mq_upd mq (fun m => set_msg_queue_free (mq_next m msg) m);; mret (Some msg)
  end.

(** [rt_memcpy(msg + 1, buffer, size)], in range of the caller's buffer. *)
Definition mq_fill (mq : oid) (msg : Z) (buffer : list Z) (size : Z) : K unit :=
  assertM (size <=? Z.of_nat (length buffer));;
  mq_upd mq (fun m => set_mq_data (upd (mq_data m) msg
    (take (Z.to_nat size) buffer ++ drop (Z.to_nat size) (mq_data m msg))) m).

(** Linking a filled node at the tail, or at the head. *)
Definition mq_link_tail (msg : Z) (m : rt_messagequeue) : rt_messagequeue :=
  let m := match msg_queue_tail m with
           | Some tail => set_mq_next (upd (mq_next m) tail (Some msg)) m
           | None => m
           end in
  let m := set_msg_queue_tail (Some msg) m in
  let m := match msg_queue_head m with
           | None => set_msg_queue_head (Some msg) m
           | Some _ => m
           end in
  set_mq_entry (u16 (mq_entry m + 1)) m.

Definition mq_link_head (msg : Z) (m : rt_messagequeue) : rt_messagequeue :=
  let m := set_mq_next (upd (mq_next m) msg (msg_queue_head m)) m in
  let m := set_msg_queue_head (Some msg) m in
  let m := match msg_queue_tail m with
           | None => set_msg_queue_tail (Some msg) m
           | Some _ => m
           end in
  set_mq_entry (u16 (mq_entry m + 1)) m.

(** Unlinking the head node. *)
Definition mq_unlink (msg : Z) (m : rt_messagequeue) : rt_messagequeue :=
  let m := set_msg_queue_head (mq_next m msg) m in
  let m := if bool_decide (msg_queue_tail m = Some msg) then set_msg_queue_tail None m else m in
  m.

(** The loop of [RT_IPC_CMD_RESET] that gives all messages back; a link is
    followed at most [fuel] times. *)
Fixpoint mq_release_all (fuel : nat) (mq : oid) : K unit :=
  s ← get;
  match msg_queue_head (mqs s mq) with
  | None => mret tt
  | Some msg =>
      match fuel with
      | O => fail
      | S fuel =>
          mq_upd mq (mq_unlink msg);;
          mq_upd mq (free_push msg);;
          mq_release_all fuel mq
      end
  end.

Section ops.
Context {Kn : Kernel}.

Definition rt_mq_detach (mq : oid) : K Z :=
  assert_type (OIpc mq) RT_Object_Class_MessageQueue;;
  s ← get;
  assertM (rt_object_is_systemobject s (OIpc mq));;
  rt_ipc_list_resume_all (Suspend mq);;
  rt_ipc_list_resume_all (Sender mq);;
  rt_object_detach (OIpc mq);;
  mret RT_EOK.

(** [pool] is what [RT_KERNEL_MALLOC] returned for the message pool: the
    contents of its nodes. *)
Definition rt_mq_create (mem : option oid) (pool : option (Z -> list Z))
    (msg_size max_msgs flag : Z) : K (option oid) :=
  RT_DEBUG_NOT_IN_INTERRUPT cpu_id;;
  o ← rt_object_allocate (OIpc <$> mem) RT_Object_Class_MessageQueue;
  match o, mem with
  | Some _, Some mq =>
      mq_upd mq (set_mq_flag (u8 flag));;
      rt_ipc_object_init mq;;
      mq_upd mq (set_msg_size (u16 (RT_ALIGN msg_size RT_ALIGN_SIZE)));;
      mq_upd mq (set_max_msgs (u16 max_msgs));;
      match pool with
      | None => rt_object_delete (OIpc mq);; mret None
      | Some data =>
          mq_upd mq (fun m => mq_setup (set_mq_data data m));;
          init_list (Sender mq);;
          mret (Some mq)
      end
  | _, _ => mret None
  end.

Definition rt_mq_delete (mq : oid) : K Z :=
  RT_DEBUG_NOT_IN_INTERRUPT cpu_id;;
  assert_type (OIpc mq) RT_Object_Class_MessageQueue;;
  s ← get;
  assertM (negb (rt_object_is_systemobject s (OIpc mq)));;
  rt_ipc_list_resume_all (Suspend mq);;
  rt_ipc_list_resume_all (Sender mq);;
  rt_object_delete (OIpc mq);;
  mret RT_EOK.

(** The last part of [rt_mq_send_wait] and [rt_mq_urgent], with the node
    allocated and the lock released: fill it, link it, wake a receiver. *)
Definition mq_deliver (mq : oid) (link : Z -> rt_messagequeue -> rt_messagequeue)
    (msg : Z) (buffer : list Z) (size : Z) : K (flow Z wait_info) :=
  mq_fill mq msg buffer size;;
  interrupt_disable;;
  mq_upd mq (link msg);;
  s ← get;
  if bool_decide (lists s (Suspend mq) <> []) then
    rt_ipc_list_resume (Suspend mq);;
    interrupt_enable;;
    mret (Resched RT_EOK)
  else
    interrupt_enable;;
    mret (Return RT_EOK).

(** The loop of [rt_mq_send_wait] and what follows it, up to [rt_schedule];
    entered inside the critical section. *)
Definition mq_send_loop (mq : oid) (buffer : list Z) (size : Z) (thread : option tid)
    (w : wait_info) : K (flow Z wait_info) :=
  let (timeout, tick_delta) := w in
  s ← get;
  msg ← mq_alloc mq;
  match msg with
  | None =>
      thread ← ofopt thread;
      thread_upd thread (set_error RT_EOK);;
      if timeout =? 0 then
        interrupt_enable;;
        mret (Return (- RT_EFULL))
      else
        RT_DEBUG_IN_THREAD_CONTEXT cpu_id;;
        rt_ipc_list_suspend (Sender mq) thread (mq_flag (mqs s mq));;
        start_wait_timer thread timeout;;
        interrupt_enable;;
        mret (Blocked thread (timeout, if 0 <? timeout then rt_tick_get s else tick_delta))
  | Some msg =>
      interrupt_enable;;
      mq_upd mq (fun m => set_mq_next (upd (mq_next m) msg None) m);;
      mq_deliver mq mq_link_tail msg buffer size
  end.

Definition rt_mq_send_wait_enter (mq : oid) (buffer : list Z) (size timeout : Z)
  : K (flow Z wait_info) :=
  assert_type (OIpc mq) RT_Object_Class_MessageQueue;;
  assertM (negb (size =? 0));;
  s ← get;
  if msg_size (mqs s mq) <? size then mret (Return (- RT_ERROR))
  else
    let thread := rt_thread_self cpu_id s in
    interrupt_disable;;
    s ← get;
    if bool_decide (msg_queue_free (mqs s mq) = None) && (timeout =? 0) then
      interrupt_enable;;
      mret (Return (- RT_EFULL))
    else mq_send_loop mq buffer size thread (timeout, 0).

Definition rt_mq_send_resumed (mq : oid) (buffer : list Z) (size : Z) (thread : tid)
    (w : wait_info) : K (flow Z wait_info) :=
  s ← get;
  if negb (error (threads s thread) =? RT_EOK) then mret (Return (error (threads s thread)))
  else
    interrupt_disable;;
    s ← get;
    mq_send_loop mq buffer size (Some thread) (time_left w.1 w.2 (rt_tick_get s), w.2).

Definition rt_mq_urgent_enter (mq : oid) (buffer : list Z) (size : Z) : K (flow Z wait_info) :=
  assert_type (OIpc mq) RT_Object_Class_MessageQueue;;
  assertM (negb (size =? 0));;
  s ← get;
  if msg_size (mqs s mq) <? size then mret (Return (- RT_ERROR))
  else
    interrupt_disable;;
    msg ← mq_alloc mq;
    match msg with
    | None =>
        interrupt_enable;;
        mret (Return (- RT_EFULL))
    | Some msg =>
        interrupt_enable;;
        mq_deliver mq mq_link_head msg buffer size
    end.

(** The loop of [rt_mq_recv] and what follows it; the result is the status
    with the bytes copied to the caller's buffer. *)
Definition mq_recv_loop (mq : oid) (size : Z) (thread : option tid) (w : wait_info)
  : K (flow (Z * list Z) wait_info) :=
  let (timeout, tick_delta) := w in
  s ← get;
  if mq_entry (mqs s mq) =? 0 then
    RT_DEBUG_IN_THREAD_CONTEXT cpu_id;;
    thread ← ofopt thread;
    thread_upd thread (set_error RT_EOK);;
    if timeout =? 0 then
      interrupt_enable;;
      thread_upd thread (set_error (- RT_ETIMEOUT));;
      mret (Return (- RT_ETIMEOUT, []))
    else
      rt_ipc_list_suspend (Suspend mq) thread (mq_flag (mqs s mq));;
      start_wait_timer thread timeout;;
      interrupt_enable;;
      mret (Blocked thread (timeout, if 0 <? timeout then rt_tick_get s else tick_delta))
  else
    msg ← ofopt (msg_queue_head (mqs s mq));
    mq_upd mq (mq_unlink msg);;
    mq_upd mq (fun m => set_mq_entry (u16 (mq_entry m - 1)) m);;
    interrupt_enable;;
    s ← get;
    let bytes := take (Z.to_nat (Z.min size (msg_size (mqs s mq)))) (mq_data (mqs s mq) msg) in
    interrupt_disable;;
    mq_upd mq (free_push msg);;
    s ← get;
    if bool_decide (lists s (Sender mq) <> []) then
      rt_ipc_list_resume (Sender mq);;
      interrupt_enable;;
      mret (Resched (RT_EOK, bytes))
    else
      interrupt_enable;;
      mret (Return (RT_EOK, bytes)).

Definition rt_mq_recv_enter (mq : oid) (size timeout : Z)
  : K (flow (Z * list Z) wait_info) :=
  assert_type (OIpc mq) RT_Object_Class_MessageQueue;;
  assertM (negb (size =? 0));;
  s ← get;
  let thread := rt_thread_self cpu_id s in
  interrupt_disable;;
  s ← get;
  if (mq_entry (mqs s mq) =? 0) && (timeout =? 0) then
    interrupt_enable;;
    mret (Return (- RT_ETIMEOUT, []))
  else mq_recv_loop mq size thread (timeout, 0).

Definition rt_mq_recv_resumed (mq : oid) (size : Z) (thread : tid) (w : wait_info)
  : K (flow (Z * list Z) wait_info) :=
  s ← get;
  if negb (error (threads s thread) =? RT_EOK) then
    mret (Return (error (threads s thread), []))
  else
    interrupt_disable;;
    s ← get;
    mq_recv_loop mq size (Some thread) (time_left w.1 w.2 (rt_tick_get s), w.2).

(** [RT_IPC_CMD_RESET] up to [rt_schedule]. *)
Definition rt_mq_reset_enter (mq : oid) : K unit :=
  interrupt_disable;;
  rt_ipc_list_resume_all (Suspend mq);;
  rt_ipc_list_resume_all (Sender mq);;
  s ← get;
  mq_release_all (Z.to_nat (max_msgs (mqs s mq))) mq;;
  mq_upd mq (set_mq_entry 0);;
  interrupt_enable.
End ops.

(** ** The whole operations, on CPU [me] *)
Section whole.
Context (me : Z).
Let Kn : Kernel := Smp me.
#[local] Existing Instance Kn.

(** [data] is what the pool of [pool_size] bytes holds behind the links. *)
Definition rt_mq_init (mq : oid) (data : Z -> list Z) (msg_size_ pool_size flag : Z) : K Z :=
  rt_object_init me (OIpc mq) RT_Object_Class_MessageQueue;;
  mq_upd mq (set_mq_flag (u8 flag));;
  rt_ipc_object_init mq;;
  mq_upd mq (set_mq_data data);;
  mq_upd mq (set_msg_size (u16 (RT_ALIGN msg_size_ RT_ALIGN_SIZE)));;
  mq_upd mq (fun m => set_max_msgs (u16 (pool_size / (msg_size m + mq_message_size))) m);;
  mq_upd mq mq_setup;;
  init_list (Sender mq);;
  mret RT_EOK.

Definition rt_mq_send_wait (fuel : nat) (mq : oid) (buffer : list Z) (size timeout : Z)
  : K (option Z) :=
  o ← rt_mq_send_wait_enter mq buffer size timeout;
  run_flow me (rt_mq_send_resumed mq buffer size) fuel o.

Definition rt_mq_send (mq : oid) (buffer : list Z) (size : Z) : K (option Z) :=
  rt_mq_send_wait 1 mq buffer size 0.

Definition rt_mq_urgent (mq : oid) (buffer : list Z) (size : Z) : K (option Z) :=
  o ← rt_mq_urgent_enter mq buffer size;
  run_flow me (fun _ _ => fail) 0 o.

Definition rt_mq_recv (fuel : nat) (mq : oid) (size timeout : Z) : K (option (Z * list Z)) :=
  o ← rt_mq_recv_enter mq size timeout;
  run_flow me (rt_mq_recv_resumed mq size) fuel o.

Definition rt_mq_control (mq : oid) (cmd : Z) : K Z :=
  assert_type (OIpc mq) RT_Object_Class_MessageQueue;;
  if cmd =? RT_IPC_CMD_RESET then
    rt_mq_reset_enter mq;;
    rt_schedule me;;
    mret RT_EOK
  else mret (- RT_ERROR).
End whole.

(** * Erasure *)
Section erase.
Context (me d : Z) (Hd : 0 <= d < 32600).

Lemma mq_alloc_er mq : erases me d d (mq_alloc mq) (mq_alloc mq).
Proof using. clear Hd. unfold mq_alloc, mq_upd. er. Qed.
Lemma mq_release_all_er fuel mq :
  erases me d d (mq_release_all fuel mq) (mq_release_all fuel mq).
Proof using.
  clear Hd. induction fuel as [|fuel IH]; cbn; unfold mq_upd in *;
    (apply er_get; intros s n b; cbv beta zeta; cbn);
    destruct (msg_queue_head (mqs s mq)); er; apply er_fail.
Qed.
Lemma mq_deliver_er mq link msg buffer size :
  erases me d d (mq_deliver (Kn := Smp me) mq link msg buffer size)
    (mq_deliver (Kn := Big me) mq link msg buffer size).
Proof using Hd. unfold mq_deliver, mq_fill, mq_upd. er. Qed.
End erase.
#[export] Hint Resolve mq_alloc_er mq_release_all_er mq_deliver_er : er.

Section erase2.
Context (me d : Z) (Hd : 0 <= d < 32500).

Lemma mq_send_loop_er mq buffer size thread w :
  erases me (d + 1) d (mq_send_loop (Kn := Smp me) mq buffer size thread w)
    (mq_send_loop (Kn := Big me) mq buffer size thread w).
Proof using Hd. unfold mq_send_loop, mq_upd. destruct w. er. Qed.
Lemma mq_recv_loop_er mq size thread w :
  erases me (d + 1) d (mq_recv_loop (Kn := Smp me) mq size thread w)
    (mq_recv_loop (Kn := Big me) mq size thread w).
Proof using Hd. unfold mq_recv_loop, mq_upd. destruct w. er. Qed.
Hint Resolve mq_send_loop_er mq_recv_loop_er : er.

Lemma rt_mq_send_wait_enter_er mq buffer size timeout :
  erases me d d (rt_mq_send_wait_enter (Kn := Smp me) mq buffer size timeout)
    (rt_mq_send_wait_enter (Kn := Big me) mq buffer size timeout).
Proof using Hd. unfold rt_mq_send_wait_enter, assert_type. er. Qed.
Lemma rt_mq_urgent_enter_er mq buffer size :
  erases me d d (rt_mq_urgent_enter (Kn := Smp me) mq buffer size)
    (rt_mq_urgent_enter (Kn := Big me) mq buffer size).
Proof using Hd. unfold rt_mq_urgent_enter, assert_type. er. Qed.
Lemma rt_mq_recv_enter_er mq size timeout :
  erases me d d (rt_mq_recv_enter (Kn := Smp me) mq size timeout)
    (rt_mq_recv_enter (Kn := Big me) mq size timeout).
Proof using Hd. unfold rt_mq_recv_enter, assert_type. er. Qed.
Lemma rt_mq_reset_enter_er mq :
  erases me d d (rt_mq_reset_enter (Kn := Smp me) mq) (rt_mq_reset_enter (Kn := Big me) mq).
Proof using Hd. unfold rt_mq_reset_enter, mq_upd. er. Qed.
End erase2.
#[export] Hint Resolve rt_mq_send_wait_enter_er rt_mq_urgent_enter_er rt_mq_recv_enter_er
  rt_mq_reset_enter_er : er.
