(* ===== verification/MqPool.v ===== *)
(** The pool of a message queue: its nodes are partitioned into the messages in
    their order, the free nodes, and the nodes that a call is filling or
    reading.  Every list operation of the queue keeps the partition. *)
From S2P Require Import Prelude KService Timer KState KInv Sched Kernel KTimer Object Thread Ipc MsgQueue.

Abbreviation node := Z (only parsing).

(** The nodes of a list in memory. *)
Fixpoint chain (next : node -> option node) (h : option node) (l : list node) : Prop :=
  match l with
  | [] => h = None
  | i :: l' => h = Some i /\ chain next (next i) l'
  end.

(** At most [n] nodes of the list that starts at [h]. *)
Fixpoint walk (n : nat) (next : node -> option node) (h : option node) : list node :=
  match n, h with
  | S n', Some i => i :: walk n' next (next i)
  | _, _ => []
  end.

Lemma chain_walk next h l : chain next h l -> walk (length l) next h = l.
Proof.
  revert h. induction l as [|i l IH]; intros h; cbn; [done|]. intros [-> H]. by rewrite IH.
Qed.

Lemma chain_upd next h l i v : i ∉ l -> chain (upd next i v) h l <-> chain next h l.
Proof.
  revert h. induction l as [|j l IH]; intros h Hi; cbn; [done|].
  apply not_elem_of_cons in Hi as [Hne Hi]. by rewrite upd_ne, IH by done.
Qed.

Lemma chain_snoc next h l i :
  chain next h l -> next i = None -> NoDup (l ++ [i]) ->
  match last l with
  | Some t => chain (upd next t (Some i)) h (l ++ [i])
  | None => chain next (Some i) (l ++ [i])
  end.
Proof.
  intros Hc Hi Hnd. destruct (last l) as [t|] eqn:El.
  - apply last_Some in El as [l' ->]. rewrite <-app_assoc in *. cbn in *.
    revert h Hc. induction l' as [|j l' IH]; intros h; cbn in *.
    + intros [-> _]. rewrite upd_eq. split_and!; [done..|]. rewrite upd_ne; [done|].
      apply NoDup_cons in Hnd as [Hnd _]. intros ->. apply Hnd. by left.
    + apply NoDup_cons in Hnd as [Hj Hnd]. intros [-> H]. split; [done|].
      rewrite upd_ne; [by apply IH|]. intros ->. apply Hj. apply elem_of_app. right. by left.
  - apply last_None in El as ->. by split.
Qed.

Lemma last_cons_ne {A} (x : A) l : l <> [] -> last (x :: l) = last l.
Proof. by destruct l. Qed.

(** * The partition *)
Record mq_inv (m : rt_messagequeue) (q f held : list node) : Prop := {
  qi_head : chain (mq_next m) (msg_queue_head m) q;
  qi_tail : msg_queue_tail m = last q;
  qi_free : chain (mq_next m) (msg_queue_free m) f;
  qi_nodup : NoDup (q ++ f ++ held);
  qi_range : forall i, i ∈ q ++ f ++ held -> 0 <= i < max_msgs m;
  qi_count : Z.of_nat (length (q ++ f ++ held)) = max_msgs m;
  qi_entry : mq_entry m = Z.of_nat (length q);
  qi_max : max_msgs m < 65536 }.

(** A node in one part is in no other one. *)
Lemma part_facts (q f held : list node) i :
  NoDup (q ++ f ++ i :: held) -> i ∉ q /\ i ∉ f /\ i ∉ held.
Proof.
  rewrite !NoDup_app, NoDup_cons. intros (_ & H1 & _ & H2 & H3 & _).
  split_and!; [|intros H; apply (H2 i H); by left|done].
  intros H. apply (H1 i H). apply elem_of_app. right. by left.
Qed.

Lemma inv_perm m q f held m' q' f' held' :
  mq_inv m q f held ->
  q' ++ f' ++ held' ≡ₚ q ++ f ++ held -> max_msgs m' = max_msgs m ->
  chain (mq_next m') (msg_queue_head m') q' -> msg_queue_tail m' = last q' ->
  chain (mq_next m') (msg_queue_free m') f' -> mq_entry m' = Z.of_nat (length q') ->
  mq_inv m' q' f' held'.
Proof.
  intros [] Hp Em H1 H2 H3 H4. split; try done; rewrite ?Em; try done.
  - by rewrite Hp.
  - intros i. rewrite Hp. auto.
  - by rewrite Hp.
Qed.

(** Taking a node off the free list. *)
Lemma alloc_inv m q i f held :
  mq_inv m q (i :: f) held ->
  msg_queue_free m = Some i /\ mq_inv (set_msg_queue_free (mq_next m i) m) q f (i :: held).
Proof.
  intros H. destruct (id H) as [H1 H2 [H3 H3'] H4 H5 H6 He H7]. split; [done|].
  apply (inv_perm _ _ _ _ _ _ _ _ H); try done.
  apply Permutation_app_head. cbn. by rewrite Permutation_middle.
Qed.

Lemma free_empty m q f held : mq_inv m q f held -> msg_queue_free m = None <-> f = [].
Proof.
  intros [_ _ H _ _ _ _ _]. destruct f as [|i f']; cbn in H; [by rewrite H|].
  destruct H as [-> _]. done.
Qed.

Lemma inv_bound m q f held : mq_inv m q f held -> Z.of_nat (length q) <= max_msgs m < 65536.
Proof. intros []. rewrite !length_app in qi_count0. lia. Qed.

(** Writing in a node that is held. *)
Lemma touch_inv m q f held i v :
  mq_inv m q f (i :: held) -> mq_inv (set_mq_next (upd (mq_next m) i v) m) q f (i :: held).
Proof.
  intros H. destruct (id H) as [H1 H2 H3 H4 H5 H6 He H7].
  destruct (part_facts q f held i H4) as (Hq & Hf & _).
  apply (inv_perm _ _ _ _ _ _ _ _ H); try done; cbn; by rewrite chain_upd.
Qed.

Lemma data_inv m q f held d : mq_inv m q f held -> mq_inv (set_mq_data d m) q f held.
Proof. by intros []. Qed.

(** Giving a held node back. *)
Lemma free_push_inv m q f held i :
  mq_inv m q f (i :: held) -> mq_inv (free_push i m) q (i :: f) held.
Proof.
  intros H. destruct (id H) as [H1 H2 H3 H4 H5 H6 He H7].
  destruct (part_facts q f held i H4) as (Hq & Hf & _).
  apply (inv_perm _ _ _ _ _ _ _ _ H); try done.
  - apply Permutation_app_head. cbn. by rewrite Permutation_middle.
  - cbn. by rewrite chain_upd.
  - cbn. rewrite upd_eq, chain_upd by done. done.
Qed.

(** Linking a held node behind the messages, or in front of them. *)
Lemma link_tail_inv m q f held i :
  mq_inv m q f (i :: held) -> mq_next m i = None -> mq_inv (mq_link_tail i m) (q ++ [i]) f held.
Proof.
  intros H Hn. destruct (id H) as [H1 H2 H3 H4 H5 H6 He H7].
  destruct (part_facts q f held i H4) as (Hq & Hf & _).
  assert (Hb : Z.of_nat (length q) + 1 < 65536).
  { rewrite !length_app in H6. cbn in H6. lia. }
  assert (Hnd : NoDup (q ++ [i])).
  { apply NoDup_app. split_and!; [by apply NoDup_app in H4 as [? _]| |apply NoDup_singleton].
    intros x Hx Hx'%list_elem_of_singleton. by subst. }
  assert (Hp : (q ++ [i]) ++ f ++ held ≡ₚ q ++ f ++ i :: held).
  { rewrite <-app_assoc. apply Permutation_app_head. cbn. by rewrite Permutation_middle. }
  pose proof (chain_snoc _ _ _ _ H1 Hn Hnd) as Hc. unfold mq_link_tail. rewrite H2.
  destruct (last q) as [t|] eqn:El.
  - assert (Hh : exists j, msg_queue_head m = Some j).
    { destruct q as [|j q']; [done|]. destruct H1 as [-> _]. by exists j. }
    destruct Hh as [j Hj]. cbn [msg_queue_head set_msg_queue_tail set_mq_next]. rewrite Hj.
    assert (Ht : t ∉ f).
    { apply last_Some in El as [l' ->]. intros Ht. rewrite <-app_assoc in H4.
      apply NoDup_app in H4 as (_ & _ & H4). apply NoDup_cons in H4 as [H4 _]. apply H4.
      apply elem_of_app. by left. }
    apply (inv_perm _ _ _ _ _ _ _ _ H); try done; cbn.
    + by rewrite last_snoc.
    + by rewrite chain_upd.
    + rewrite He, u16_small, length_app; cbn; lia.
  - apply last_None in El as ->. cbn in H1 |- *. rewrite H1.
    apply (inv_perm _ _ _ _ _ _ _ _ H); try done; cbn.
    by rewrite He.
Qed.

Lemma link_head_inv m q f held i :
  mq_inv m q f (i :: held) -> mq_inv (mq_link_head i m) (i :: q) f held.
Proof.
  intros H. destruct (id H) as [H1 H2 H3 H4 H5 H6 He H7].
  destruct (part_facts q f held i H4) as (Hq & Hf & _).
  assert (Hb : Z.of_nat (length q) + 1 < 65536).
  { rewrite !length_app in H6. cbn in H6. lia. }
  assert (Hp : (i :: q) ++ f ++ held ≡ₚ q ++ f ++ i :: held).
  { cbn. by rewrite <-(Permutation_middle f held i), <-(Permutation_middle q (f ++ held) i). }
  assert (Hu : u16 (mq_entry m + 1) = Z.of_nat (length (i :: q))).
  { rewrite He, u16_small; cbn; lia. }
  unfold mq_link_head. cbn [msg_queue_tail set_msg_queue_head set_mq_next]. rewrite H2.
  destruct (last q) as [t|] eqn:El; apply (inv_perm _ _ _ _ _ _ _ _ H); try done; cbn;
    rewrite ?upd_eq, ?chain_upd by done; try done.
  - rewrite H2. symmetry. rewrite last_cons, El. done.
  - by rewrite last_cons, El.
Qed.

(** Unlinking the first message. *)
Lemma unlink_inv m q f held i :
  mq_inv m (i :: q) f held ->
  msg_queue_head m = Some i /\
  mq_inv (set_mq_entry (u16 (mq_entry m - 1)) (mq_unlink i m)) q f (i :: held).
Proof.
  intros H. destruct (id H) as [[H1 H1'] H2 H3 H4 H5 H6 He H7]. split; [done|].
  pose proof (inv_bound _ _ _ _ H) as Hb. cbn in Hb.
  assert (Hp : q ++ f ++ i :: held ≡ₚ (i :: q) ++ f ++ held).
  { cbn. by rewrite <-(Permutation_middle f held i), <-(Permutation_middle q (f ++ held) i). }
  assert (Hu : u16 (mq_entry m - 1) = Z.of_nat (length q)).
  { rewrite He, u16_small; cbn in *; lia. }
  assert (Et : bool_decide (msg_queue_tail m = Some i) = bool_decide (q = [])).
  { apply bool_decide_ext. rewrite H2, last_cons. destruct (last q) as [t|] eqn:El.
    - apply last_Some in El as [l' ->]. split; [|by destruct l'].
      intros [= ->]. exfalso. cbn in H4. apply NoDup_cons in H4 as [H4 _]. apply H4.
      apply elem_of_app. left. apply elem_of_app. right. by left.
    - apply last_None in El. done. }
  unfold mq_unlink. cbv zeta. cbn [msg_queue_tail set_msg_queue_head]. rewrite Et.
  destruct (decide (q = [])) as [Eq|Eq];
    [rewrite bool_decide_true by done|rewrite bool_decide_false by done];
    apply (inv_perm _ _ _ _ _ _ _ _ H); try done; cbn.
  - by subst.
  - rewrite H2. by apply last_cons_ne.
Qed.

(** * The set-up and the reset *)
Lemma fill_free_inv n m :
  msg_queue_free m = None ->
  msg_queue_head (fill_free n m) = msg_queue_head m /\
  msg_queue_tail (fill_free n m) = msg_queue_tail m /\
  max_msgs (fill_free n m) = max_msgs m /\
  chain (mq_next (fill_free n m)) (msg_queue_free (fill_free n m))
    (reverse (Z.of_nat <$> seq 0 n)).
Proof.
  intros Hf. induction n as [|n (I1 & I2 & I3 & I4)]; [done|].
  split_and!; [done..|]. rewrite seq_S, fmap_app, reverse_app. cbn.
  rewrite upd_eq, chain_upd; [done|]. rewrite elem_of_reverse, list_elem_of_fmap.
  intros (k & Hk & Hin). apply elem_of_seq in Hin. lia.
Qed.

(** The queue over a pool of [max_msgs] nodes: all of them are free. *)
Lemma setup_inv m :
  0 <= max_msgs m < 65536 ->
  mq_inv (mq_setup m) [] (reverse (Z.of_nat <$> seq 0 (Z.to_nat (max_msgs m)))) [].
Proof.
  intros Hm. unfold mq_setup.
  set (m0 := set_msg_queue_free None (set_msg_queue_tail None (set_msg_queue_head None m))).
  destruct (fill_free_inv (Z.to_nat (max_msgs m)) m0) as (F1 & F2 & F3 & F4); [done|].
  split; cbn; rewrite ?app_nil_r, ?F1, ?F2, ?F3; try done; try lia.
  - rewrite reverse_Permutation. apply NoDup_fmap_2; [intros x y; lia|apply NoDup_seq].
  - intros i. rewrite elem_of_reverse, list_elem_of_fmap. cbn.
    intros (k & -> & Hin). apply elem_of_seq in Hin. lia.
  - rewrite length_reverse, length_fmap, length_seq. cbn. lia.
  - cbn. lia.
Qed.

(** ** Changes of one queue in the state *)
Definition with_mq (mq : oid) (x : rt_messagequeue) (s : kstate) : kstate :=
  set_mqs (upd (mqs s) mq x) s.

Lemma with_mq_lookup mq x s : mqs (with_mq mq x s) mq = x.
Proof. cbn. by rewrite upd_eq. Qed.

Lemma with_mq_twice mq x y s : keq (with_mq mq y (with_mq mq x s)) (with_mq mq y s).
Proof. split; try done. intros o. cbn. unfold upd. by repeat case_decide. Qed.

Lemma with_mq_same mq s : keq (with_mq mq (mqs s mq) s) s.
Proof. split; try done. intros o. cbn. unfold upd. case_decide; by subst. Qed.

#[export] Instance with_mq_proper mq x : Proper (keq ==> keq) (with_mq mq x).
Proof.
  intros s s' E. pose proof (keq_mqs _ _ E) as Em. destruct E. split; try done.
  intros o. cbn. unfold upd. case_decide; [done|]. apply Em.
Qed.

Lemma wp_mq_upd mq x s s0 f (Q : unit -> kstate -> Prop) :
  keq (with_mq mq x s) s0 -> (forall s', keq (with_mq mq (f x) s) s' -> Q tt s') ->
  wp (mq_upd mq f) Q s0.
Proof.
  intros E HQ. unfold mq_upd. wp_steps. apply HQ.
  assert (Em : mqs s0 mq = x) by (rewrite <-(keq_mqs _ _ E); apply with_mq_lookup).
  rewrite Em. change (keq (with_mq mq (f x) s) (with_mq mq (f x) s0)).
  by rewrite <-E, with_mq_twice.
Qed.

Lemma unlink_entry i n m : mq_unlink i (set_mq_entry n m) = set_mq_entry n (mq_unlink i m).
Proof. unfold mq_unlink. cbv zeta. cbn. by case_match. Qed.
Lemma unlink_params i m :
  mq_flag (mq_unlink i m) = mq_flag m /\ max_msgs (mq_unlink i m) = max_msgs m /\
  msg_size (mq_unlink i m) = msg_size m /\ mq_data (mq_unlink i m) = mq_data m.
Proof. unfold mq_unlink. cbv zeta. by case_match. Qed.

(** [RT_IPC_CMD_RESET] gives every message back, and ends; the count is set
    to 0 behind the loop. *)
Lemma wp_release_all mq q : forall fuel m f s s0 (Q : unit -> kstate -> Prop),
  mq_inv (set_mq_entry (Z.of_nat (length q)) m) q f [] -> (length q <= fuel)%nat ->
  keq (with_mq mq m s) s0 ->
  (forall m' f' s', mq_inv (set_mq_entry 0 m') [] f' [] -> mq_flag m' = mq_flag m ->
     max_msgs m' = max_msgs m -> keq (with_mq mq m' s) s' -> Q tt s') ->
  wp (mq_release_all fuel mq) Q s0.
Proof.
  induction q as [|i q IH]; intros fuel m f s s0 Q H Hf E HQ;
    (assert (Em : mqs s0 mq = m) by (rewrite <-(keq_mqs _ _ E); apply with_mq_lookup)).
  - assert (Eh : msg_queue_head m = None) by (by destruct H).
    destruct fuel; cbn [mq_release_all]; wp_steps; rewrite Em, Eh; wp_steps; by apply (HQ m f).
  - destruct fuel as [|fuel]; [cbn in Hf; lia|]. cbn [mq_release_all]. wp_steps.
    pose proof (inv_bound _ _ _ _ H) as Hb. cbn in Hb.
    destruct (unlink_inv _ q f [] i H) as [Eh H1]. cbn in Eh. rewrite Em, Eh.
    apply wp_bind, (wp_mq_upd mq m s _ _ _ E). intros s1 E1.
    apply wp_bind, (wp_mq_upd mq _ s _ _ _ E1). intros s2 E2.
    rewrite unlink_entry in H1. apply free_push_inv in H1.
    destruct (unlink_params i m) as (P1 & P2 & _).
    apply (IH fuel (free_push i (mq_unlink i m)) (i :: f) s); [|cbn in Hf; lia|done|].
    + assert (Eu : u16 (mq_entry (set_mq_entry (Z.of_nat (length (i :: q))) m) - 1)
        = Z.of_nat (length q)) by (cbn [mq_entry set_mq_entry length]; rewrite u16_small; lia).
      rewrite Eu in H1. exact H1.
    + intros m' f' s' H' F1 F2 E'. apply (HQ m' f' s' H'); [by rewrite F1|by rewrite F2|done].
Qed.
