(* ===== verification/MsgQueueProps.v ===== *)
(** The properties of the message queues: a queue of messages, with urgent
    messages at the front, over a pool whose nodes are never lost. *)
From S2P Require Import Prelude KService Timer KState KInv Sched Kernel KTimer Object Thread ThreadSpec Example Ipc IpcSpec IpcExample Mailbox Transfer MsgQueue MqPool.

(** * The messages *)
Definition messages (m : rt_messagequeue) : list (list Z) :=
  mq_data m <$> walk (Z.to_nat (mq_entry m)) (mq_next m) (msg_queue_head m).

(** The bytes of a node behind which [size] bytes of [buffer] were copied. *)
Definition overlay (size : Z) (buffer old : list Z) : list Z :=
  take (Z.to_nat size) buffer ++ drop (Z.to_nat size) old.

Definition filled (i : Z) (size : Z) (buffer : list Z) (m : rt_messagequeue) : rt_messagequeue :=
  set_mq_data (upd (mq_data m) i (overlay size buffer (mq_data m i))) m.

Definition send_msg (size : Z) (buffer : list Z) (i : Z) (m : rt_messagequeue) : rt_messagequeue :=
  mq_link_tail i (filled i size buffer
    (set_mq_next (upd (mq_next m) i None) (set_msg_queue_free (mq_next m i) m))).
Definition urgent_msg (size : Z) (buffer : list Z) (i : Z) (m : rt_messagequeue) : rt_messagequeue :=
  mq_link_head i (filled i size buffer (set_msg_queue_free (mq_next m i) m)).
Definition recv_msg (i : Z) (m : rt_messagequeue) : rt_messagequeue :=
  free_push i (set_mq_entry (u16 (mq_entry m - 1)) (mq_unlink i m)).

Definition same_params (m m' : rt_messagequeue) : Prop :=
  mq_flag m' = mq_flag m /\ msg_size m' = msg_size m /\ max_msgs m' = max_msgs m.

Lemma messages_inv m q f held : mq_inv m q f held -> messages m = mq_data m <$> q.
Proof.
  intros []. unfold messages. rewrite qi_entry, Nat2Z.id. by rewrite (chain_walk _ _ q).
Qed.

Lemma link_tail_params i m :
  same_params m (mq_link_tail i m) /\ mq_data (mq_link_tail i m) = mq_data m.
Proof. unfold mq_link_tail, same_params. cbv zeta. by repeat case_match. Qed.
Lemma link_head_params i m :
  same_params m (mq_link_head i m) /\ mq_data (mq_link_head i m) = mq_data m.
Proof. unfold mq_link_head, same_params. cbv zeta. by repeat case_match. Qed.

Lemma fmap_upd_out {A} (d : Z -> A) i v (l : list Z) : i ∉ l -> upd d i v <$> l = d <$> l.
Proof.
  intros Hi. apply list_fmap_ext. intros k x Hx. apply upd_ne. intros ->. apply Hi.
  by eapply list_elem_of_lookup_2.
Qed.

Lemma send_msg_ok size buffer m q f i :
  mq_inv m q (i :: f) [] ->
  mq_inv (send_msg size buffer i m) (q ++ [i]) f [] /\ same_params m (send_msg size buffer i m) /\
  messages (send_msg size buffer i m) = messages m ++ [overlay size buffer (mq_data m i)].
Proof.
  intros H. destruct (alloc_inv _ _ _ _ _ H) as [_ H1].
  destruct (part_facts q f [] i (qi_nodup _ _ _ _ H1)) as (Hq & _).
  pose proof (touch_inv _ _ _ _ _ None H1) as H2.
  unfold send_msg. set (m1 := set_mq_next _ _) in *.
  assert (H3 : mq_inv (filled i size buffer m1) q f [i]) by by apply data_inv.
  apply link_tail_inv in H3; [|cbn; by rewrite upd_eq].
  destruct (link_tail_params i (filled i size buffer m1)) as [P1 P2].
  split_and!; [done|done|]. rewrite (messages_inv _ _ _ _ H3), (messages_inv _ _ _ _ H), P2, fmap_app.
  cbn. rewrite upd_eq. f_equal. by apply fmap_upd_out.
Qed.

Lemma urgent_msg_ok size buffer m q f i :
  mq_inv m q (i :: f) [] ->
  mq_inv (urgent_msg size buffer i m) (i :: q) f [] /\ same_params m (urgent_msg size buffer i m) /\
  messages (urgent_msg size buffer i m) = overlay size buffer (mq_data m i) :: messages m.
Proof.
  intros H. destruct (alloc_inv _ _ _ _ _ H) as [_ H1].
  destruct (part_facts q f [] i (qi_nodup _ _ _ _ H1)) as (Hq & _).
  unfold urgent_msg. set (m1 := set_msg_queue_free _ _) in *.
  assert (H3 : mq_inv (filled i size buffer m1) q f [i]) by by apply data_inv.
  apply link_head_inv in H3.
  destruct (link_head_params i (filled i size buffer m1)) as [P1 P2].
  split_and!; [done|done|]. rewrite (messages_inv _ _ _ _ H3), (messages_inv _ _ _ _ H), P2.
  cbn. rewrite upd_eq. f_equal. by apply fmap_upd_out.
Qed.

Lemma recv_msg_ok m q f i :
  mq_inv m (i :: q) f [] ->
  mq_inv (recv_msg i m) q (i :: f) [] /\ same_params m (recv_msg i m) /\
  messages m = mq_data m i :: messages (recv_msg i m).
Proof.
  intros H. destruct (unlink_inv _ _ _ _ _ H) as [Eh H1]. apply free_push_inv in H1.
  change (mq_inv (recv_msg i m) q (i :: f) []) in H1.
  destruct (unlink_params i m) as (P1 & P2 & P3 & P4).
  split_and!; [done|by split_and!|].
  rewrite (messages_inv _ _ _ _ H), (messages_inv _ _ _ _ H1). cbn. by rewrite P4.
Qed.

(** * The invariant of a message queue in the kernel *)
Record mq_ok (s : kstate) (mq : oid) : Prop := {
  qk_type : rt_object_get_type s (OIpc mq) = RT_Object_Class_MessageQueue;
  qk_flag : ipc_flag_ok (mq_flag (mqs s mq));
  qk_pool : exists q f, mq_inv (mqs s mq) q f [] }.

Lemma with_mq_ok mq x s : kinv s -> harmless s (with_mq mq x s).
Proof. intros [[] [] ? ?]. split_and!; [by split|done|done]. Qed.
Lemma with_mq_change mq x s : kinv s -> object_change s (with_mq mq x s).
Proof. intros Hi. split; try done. by apply with_mq_ok. Qed.

(** The last part of a send. *)
Lemma wp_mq_deliver me cur mq link i buffer size m s s0 f hq time :
  kinv s -> size <= Z.of_nat (length buffer) -> keq (with_mq mq m s) s0 ->
  wp (mq_deliver (Kn := Big me) mq link i buffer size)
    (flow_post me cur s
      (pass_done cur (Suspend mq) (with_mq mq (link i (filled i size buffer m)) s) RT_EOK
         (- RT_EFULL) true time s)
      (pass_woke me (Suspend mq) (with_mq mq (link i (filled i size buffer m)) s) RT_EOK true s)
      (pass_waits cur f hq true time s)) s0.
Proof.
  intros Hi Hb E. unfold mq_deliver, mq_fill. cbn [interrupt_disable interrupt_enable Big].
  wp_steps; [by apply Z.leb_le|]. apply (wp_mq_upd mq m s _ _ _ E). intros s1 E1. wp_steps.
  apply (wp_mq_upd mq _ s _ _ _ E1). intros s2 E2. wp_steps.
  change (set_mq_data _ m) with (filled i size buffer m) in E2.
  set (x := link i (filled i size buffer m)) in *. rewrite <-(keq_lists _ _ E2).
  change (lists (with_mq mq x s)) with (lists s).
  destruct (lists s (Suspend mq)) as [|t l] eqn:El.
  - rewrite bool_decide_false by (by intros H). wp_steps.
    split; [done|]. eapply harmless_keq; [exact E2|]. by apply with_mq_ok.
  - rewrite bool_decide_true by done. wp_steps.
    apply (wp_pass_wake me s (with_mq mq x s) (Suspend mq) Hi eq_refl (with_mq_change _ _ _ Hi) t l);
      [done|done|].
    intros s3 E3 Hh3. wp_steps. split; [|done]. split_and!; [done..|]. by exists t, l.
Qed.

(** The queue after a send, an urgent send and a receive. *)
Definition after_send (link : Z -> list Z -> Z -> rt_messagequeue -> rt_messagequeue)
    (size : Z) (buffer : list Z) (m : rt_messagequeue) : rt_messagequeue :=
  match msg_queue_free m with Some i => link size buffer i m | None => m end.
Definition after_recv (m : rt_messagequeue) : rt_messagequeue :=
  match msg_queue_head m with Some i => recv_msg i m | None => m end.
(** The bytes a receive copies. *)
Definition first_bytes (size : Z) (m : rt_messagequeue) : list Z :=
  take (Z.to_nat (Z.min size (msg_size m))) (default [] (head (messages m))).

Definition mq_can_send (m : rt_messagequeue) : bool := bool_decide (msg_queue_free m <> None).
Definition mq_can_recv (m : rt_messagequeue) : bool := negb (mq_entry m =? 0).

Section loops.
Context (me : Z) (cur mq : oid) (s : kstate) (w : wait_info).
Context (Hi : kinv s) (Hk : mq_ok s mq) (Htime : w.1 < RT_TICK_MAX / 2).
Let m := mqs s mq.

Lemma wp_mq_alloc (Q : option Z -> kstate -> Prop) :
  match msg_queue_free m with
  | None => Q None s
  | Some i => Q (Some i) (with_mq mq (set_msg_queue_free (mq_next m i) m) s)
  end -> wp (mq_alloc mq) Q s.
Proof using.
  intros HQ. unfold mq_alloc, mq_upd. wp_steps. fold m. destruct (msg_queue_free m); by wp_steps.
Qed.

Lemma wp_mq_send_loop buffer size (thread : option tid) :
  size <= Z.of_nat (length buffer) ->
  mq_can_send m = true \/ blocker me cur s /\ thread = Some cur ->
  wp (mq_send_loop (Kn := Big me) mq buffer size thread w)
    (flow_post me cur s
      (pass_done cur (Suspend mq) (with_mq mq (after_send send_msg size buffer m) s) RT_EOK
         (- RT_EFULL) (mq_can_send m) w.1 s)
      (pass_woke me (Suspend mq) (with_mq mq (after_send send_msg size buffer m) s) RT_EOK
         (mq_can_send m) s)
      (pass_waits cur (mq_flag m) (Sender mq) (mq_can_send m) w.1 s)) s.
Proof using Hi Hk Htime.
  intros Hb Hc. unfold mq_send_loop. destruct w as [timeout td]. cbn [fst snd] in *.
  cbn [interrupt_disable interrupt_enable Big cpu_id]. wp_steps. fold m.
  apply wp_mq_alloc. unfold mq_can_send, after_send in *.
  destruct (msg_queue_free m) as [i|] eqn:Ef.
  - rewrite bool_decide_true by done. clear Hc. wp_steps.
    apply (wp_mq_upd mq (set_msg_queue_free (mq_next m i) m) s); [reflexivity|]. intros s1 E1.
    eapply wp_mono; [apply (wp_mq_deliver me cur mq mq_link_tail i buffer size _ s s1
      (mq_flag m) (Sender mq) timeout Hi Hb E1)|]. done.
  - rewrite bool_decide_false by (intros H; by apply H). rewrite bool_decide_false in Hc by (intros H; by apply H).
    destruct Hc as [|[Hbr ->]]; [done|]. destruct (reset_blocker me cur s Hbr) as (Hbr1 & Hh1 & He1).
    wp_steps. apply (wp_ofopt _ cur); [done|]. wp_steps. fold (reset_error cur s).
    destruct (Z.eqb_spec timeout 0) as [Hz|Hz].
    + wp_steps. split; [|done]. split_and!; [done..|]. right. by exists RT_EOK.
    + wp_steps. apply (wp_blocker_context me cur); [done|].
      wp_steps. apply wp_blocker; [done|done|apply Hk|done|]. intros s' Hbl. wp_steps. split; [done|].
      exists (mq_flag m), (Sender mq), timeout, (reset_error cur s). by split_and!.
Qed.

Lemma wp_mq_recv_loop size (thread : option tid) :
  mq_can_recv m = true \/ blocker me cur s /\ thread = Some cur ->
  wp (mq_recv_loop (Kn := Big me) mq size thread w)
    (flow_post me cur s
      (pass_done cur (Sender mq) (with_mq mq (after_recv m) s) (RT_EOK, first_bytes size m)
         (- RT_ETIMEOUT, []) (mq_can_recv m) w.1 s)
      (pass_woke me (Sender mq) (with_mq mq (after_recv m) s) (RT_EOK, first_bytes size m)
         (mq_can_recv m) s)
      (pass_waits cur (mq_flag m) (Suspend mq) (mq_can_recv m) w.1 s)) s.
Proof using Hi Hk Htime.
  intros Hc. unfold mq_recv_loop. destruct w as [timeout td]. cbn [fst snd] in *.
  cbn [interrupt_disable interrupt_enable Big cpu_id]. wp_steps. fold m.
  unfold mq_can_recv in *. destruct (Z.eqb_spec (mq_entry m) 0) as [He|He]; cbn [negb] in *.
  - destruct Hc as [|[Hbr ->]]; [done|]. destruct (reset_blocker me cur s Hbr) as (Hbr1 & Hh1 & He1).
    apply wp_bind, (wp_blocker_context me cur); [done|].
    wp_steps. apply (wp_ofopt _ cur); [done|]. wp_steps. fold (reset_error cur s).
    destruct (Z.eqb_spec timeout 0) as [Hz|Hz].
    + wp_steps. set (s2 := with_thread cur _ (reset_error cur s)).
      assert (E : keq (with_thread cur (set_error (- RT_ETIMEOUT) (threads s cur)) s) s2).
      { split; try done. intros x. cbn. unfold upd. by repeat case_decide. }
      split; [split_and!; [done..|]; right; by exists (- RT_ETIMEOUT)|].
      eapply harmless_keq; [exact E|].
      apply harmless_error; [done|exact (br_thread _ _ _ Hbr)].
    + wp_steps. apply wp_blocker; [done|done|apply Hk|done|]. intros s' Hb. wp_steps. split; [done|].
      exists (mq_flag m), (Suspend mq), timeout, (reset_error cur s). by split_and!.
  - clear Hc. destruct Hk as [_ _ (q & f & Hinv)]. fold m in Hinv.
    destruct q as [|i q]; [destruct Hinv as [_ _ _ _ _ _ H _]; by rewrite H in He|].
    destruct (unlink_inv _ _ _ _ _ Hinv) as [Eh _]. unfold first_bytes, after_recv.
    rewrite Eh, (messages_inv _ _ _ _ Hinv). cbn [fmap list_fmap head default id].
    destruct (unlink_params i m) as (P1 & P2 & P3 & P4).
    wp_steps. apply (wp_ofopt _ i); [done|].
    apply wp_bind, (wp_mq_upd mq m s); [apply with_mq_same|]. intros s1 E1.
    wp_steps. apply (wp_mq_upd mq _ s _ _ _ E1). intros s2 E2. wp_steps.
    apply (wp_mq_upd mq _ s _ _ _ E2). intros s3 E3. wp_steps.
    assert (Em : mqs s2 mq = set_mq_entry (u16 (mq_entry (mq_unlink i m) - 1)) (mq_unlink i m))
      by (rewrite <-(keq_mqs _ _ E2); apply with_mq_lookup).
    rewrite Em. cbn [msg_size mq_data set_mq_entry]. rewrite P3, P4.
    assert (Ee : mq_entry (mq_unlink i m) = mq_entry m) by (unfold mq_unlink; cbv zeta; by case_match).
    rewrite Ee in E3. change (free_push i _) with (recv_msg i m) in E3.
    rewrite <-(keq_lists _ _ E3). change (lists (with_mq mq (recv_msg i m) s)) with (lists s).
    destruct (lists s (Sender mq)) as [|t l] eqn:El.
    + rewrite bool_decide_false by (by intros H). wp_steps.
      split; [done|]. eapply harmless_keq; [exact E3|]. by apply with_mq_ok.
    + rewrite bool_decide_true by done. wp_steps.
      apply (wp_pass_wake me s (with_mq mq (recv_msg i m) s) (Sender mq) Hi eq_refl
        (with_mq_change _ _ _ Hi) t l); [done|done|].
      intros s4 E4 Hh4. wp_steps. split; [|done]. split_and!; [done..|]. by exists t, l.
Qed.
End loops.

(** * The operations *)
#[local] Hint Resolve mq_send_loop_er mq_recv_loop_er : er.

Lemma rt_mq_send_resumed_er me d mq buffer size t w : 0 <= d < 32500 ->
  erases me d d (rt_mq_send_resumed (Kn := Smp me) mq buffer size t w)
    (rt_mq_send_resumed (Kn := Big me) mq buffer size t w).
Proof. intros Hd. unfold rt_mq_send_resumed. er. Qed.
Lemma rt_mq_recv_resumed_er me d mq size t w : 0 <= d < 32500 ->
  erases me d d (rt_mq_recv_resumed (Kn := Smp me) mq size t w)
    (rt_mq_recv_resumed (Kn := Big me) mq size t w).
Proof. intros Hd. unfold rt_mq_recv_resumed. er. Qed.

(** A message that the queue takes: not empty, not longer than its messages, and
    within the caller's buffer. *)
Definition fits (mq : oid) (size : Z) (buffer : list Z) (s : kstate) : Prop :=
  0 < size <= msg_size (mqs s mq) /\ size <= Z.of_nat (length buffer).

Section operations.
Context (me : Z) (cur mq : oid) (s : kstate) (Hk : mq_ok s mq).
Let m := mqs s mq.

Definition mq_send_result (size : Z) (buffer : list Z) (time : Z) (r : option Z) (s' : kstate) : Prop :=
  pass_result me cur (mq_flag (mqs s mq)) (Suspend mq) (Sender mq)
    (with_mq mq (after_send send_msg size buffer (mqs s mq)) s) RT_EOK (- RT_EFULL)
    (mq_can_send (mqs s mq)) time s r s'.
Definition mq_recv_result (size time : Z) (r : option (Z * list Z)) (s' : kstate) : Prop :=
  pass_result me cur (mq_flag (mqs s mq)) (Sender mq) (Suspend mq)
    (with_mq mq (after_recv (mqs s mq)) s) (RT_EOK, first_bytes size (mqs s mq))
    (- RT_ETIMEOUT, []) (mq_can_recv (mqs s mq)) time s r s'.

Lemma mq_send_steps fuel buffer size timeout :
  may_call me cur timeout s -> fits mq size buffer s ->
  wp (rt_mq_send_wait me fuel mq buffer size timeout) (fun r s' =>
    kinv s' /\ lock_depth me 0 s' /\ parked_ok s' /\ mq_send_result size buffer timeout r s') s.
Proof using Hk.
  intros [Hme Hself Hd Hp Hi Ht Hw] [Hs Hb]. eapply wp_mono;
    [eapply wp_flow; [done|done|done|done|apply rt_mq_send_wait_enter_er; lia|]|].
  { unfold rt_mq_send_wait_enter. cbn [interrupt_disable interrupt_enable Big cpu_id].
    apply wp_bind, wp_assert_type; [apply Hk|]. wp_steps.
    { apply negb_true_iff, Z.eqb_neq. lia. }
    fold m in Hs |- *. assert (msg_size m <? size = false) as -> by (apply Z.ltb_ge; lia). wp_steps.
    fold m. rewrite Hself.
    destruct (bool_decide (msg_queue_free m = None) && (timeout =? 0)) eqn:E.
    - apply andb_true_iff in E as [E1%bool_decide_eq_true E2]. wp_steps.
      instantiate (1 := pass_waits cur (mq_flag m) (Sender mq) (mq_can_send m) timeout s).
      instantiate (1 := pass_woke me (Suspend mq) (with_mq mq (after_send send_msg size buffer m) s)
        RT_EOK (mq_can_send m) s).
      instantiate (1 := pass_done cur (Suspend mq) (with_mq mq (after_send send_msg size buffer m) s)
        RT_EOK (- RT_EFULL) (mq_can_send m) timeout s).
      split; [|by apply harmless_refl]. unfold pass_done, mq_can_send.
      rewrite bool_decide_false by (intros H; by apply H).
      split_and!; [by apply Z.eqb_eq|done|by left].
    - apply (wp_mq_send_loop me cur mq s (timeout, 0)); try done.
      unfold mq_can_send. fold m. destruct (msg_queue_free m) as [i|];
        [left; by rewrite bool_decide_true|right]. rewrite bool_decide_true in E by done.
      destruct Hw as [->|Hw]; [done|]. by split. }
  intros r s' (Hi' & D & P & H). split_and!; try done.
  apply pass_result_flow; [done|done|done|by apply with_mq_change|done].
Qed.

Lemma mq_send_resumed_steps fuel buffer size w :
  may_call me cur (time_left w.1 w.2 (rt_tick_get s)) s -> blocker me cur s ->
  size <= Z.of_nat (length buffer) ->
  wp (o ← rt_mq_send_resumed (Kn := Smp me) mq buffer size cur w;
      run_flow me (rt_mq_send_resumed (Kn := Smp me) mq buffer size) fuel o) (fun r s' =>
    kinv s' /\ lock_depth me 0 s' /\ parked_ok s' /\
    resumed_result cur s id (mq_send_result size buffer (time_left w.1 w.2 (rt_tick_get s))) r s') s.
Proof using Hk.
  intros [Hme Hself Hd Hp Hi Ht _] Hbr Hb.
  eapply wp_mono; [eapply (wp_resumed me cur s id); [done..|apply rt_mq_send_resumed_er; lia|]|].
  { cbn [interrupt_disable interrupt_enable Big cpu_id]. wp_steps.
    apply (wp_mq_send_loop me cur mq s (_, w.2)); [done|done|done|done|right; by split]. }
  intros r s' (Hi' & D & P & H). split_and!; try done.
  destruct H as [H|(He & H)]; [by left|right]. split; [done|].
  apply pass_result_flow; [done|done|done|by apply with_mq_change|done].
Qed.

Lemma mq_recv_steps fuel size timeout :
  may_call me cur timeout s -> size <> 0 ->
  wp (rt_mq_recv me fuel mq size timeout) (fun r s' =>
    kinv s' /\ lock_depth me 0 s' /\ parked_ok s' /\ mq_recv_result size timeout r s') s.
Proof using Hk.
  intros [Hme Hself Hd Hp Hi Ht Hw] Hs. eapply wp_mono;
    [eapply wp_flow; [done|done|done|done|apply rt_mq_recv_enter_er; lia|]|].
  { unfold rt_mq_recv_enter. cbn [interrupt_disable interrupt_enable Big cpu_id].
    apply wp_bind, wp_assert_type; [apply Hk|]. wp_steps.
    { apply negb_true_iff, Z.eqb_neq. lia. }
    fold m. rewrite Hself.
    destruct ((mq_entry m =? 0) && (timeout =? 0)) eqn:E.
    - apply andb_true_iff in E as [E1 E2]. wp_steps.
      instantiate (1 := pass_waits cur (mq_flag m) (Suspend mq) (mq_can_recv m) timeout s).
      instantiate (1 := pass_woke me (Sender mq) (with_mq mq (after_recv m) s)
        (RT_EOK, first_bytes size m) (mq_can_recv m) s).
      instantiate (1 := pass_done cur (Sender mq) (with_mq mq (after_recv m) s)
        (RT_EOK, first_bytes size m) (- RT_ETIMEOUT, []) (mq_can_recv m) timeout s).
      split; [|by apply harmless_refl]. unfold pass_done, mq_can_recv. rewrite E1. cbn.
      split_and!; [by apply Z.eqb_eq|done|by left].
    - apply (wp_mq_recv_loop me cur mq s (timeout, 0)); try done.
      unfold mq_can_recv. fold m. destruct (mq_entry m =? 0); [right|by left].
      destruct Hw as [->|Hw]; [done|]. by split. }
  intros r s' (Hi' & D & P & H). split_and!; try done.
  apply pass_result_flow; [done|done|done|by apply with_mq_change|done].
Qed.

Lemma mq_recv_resumed_steps fuel size w :
  may_call me cur (time_left w.1 w.2 (rt_tick_get s)) s -> blocker me cur s ->
  wp (o ← rt_mq_recv_resumed (Kn := Smp me) mq size cur w;
      run_flow me (rt_mq_recv_resumed (Kn := Smp me) mq size) fuel o) (fun r s' =>
    kinv s' /\ lock_depth me 0 s' /\ parked_ok s' /\
    resumed_result cur s (fun e => (e, []))
      (mq_recv_result size (time_left w.1 w.2 (rt_tick_get s))) r s') s.
Proof using Hk.
  intros [Hme Hself Hd Hp Hi Ht _] Hbr.
  eapply wp_mono; [eapply (wp_resumed me cur s (fun e => (e, [])));
    [done..|apply rt_mq_recv_resumed_er; lia|]|].
  { cbn [interrupt_disable interrupt_enable Big cpu_id]. wp_steps.
    apply (wp_mq_recv_loop me cur mq s (_, w.2)); [done|done|done|right; by split]. }
  intros r s' (Hi' & D & P & H). split_and!; try done.
  destruct H as [H|(He & H)]; [by left|right]. split; [done|].
  apply pass_result_flow; [done|done|done|by apply with_mq_change|done].
Qed.

(** [rt_mq_urgent] never waits. *)
Lemma mq_urgent_steps buffer size :
  may_call me cur 0 s -> fits mq size buffer s ->
  wp (rt_mq_urgent me mq buffer size) (fun r s' =>
    kinv s' /\ lock_depth me 0 s' /\ parked_ok s' /\
    pass_result me cur (mq_flag m) (Suspend mq) (Sender mq)
      (with_mq mq (after_send urgent_msg size buffer m) s) RT_EOK (- RT_EFULL)
      (mq_can_send m) 0 s r s') s.
Proof using Hk.
  intros [Hme Hself Hd Hp Hi Ht Hw] [Hs Hb]. eapply wp_mono;
    [eapply wp_flow; [done|done|done|done|apply rt_mq_urgent_enter_er; lia|]|].
  { unfold rt_mq_urgent_enter. cbn [interrupt_disable interrupt_enable Big cpu_id].
    apply wp_bind, wp_assert_type; [apply Hk|]. wp_steps.
    { apply negb_true_iff, Z.eqb_neq. lia. }
    fold m in Hs |- *. assert (msg_size m <? size = false) as -> by (apply Z.ltb_ge; lia). wp_steps.
    apply wp_mq_alloc. fold m.
    instantiate (1 := pass_waits cur (mq_flag m) (Sender mq) (mq_can_send m) 0 s).
    instantiate (1 := pass_woke me (Suspend mq) (with_mq mq (after_send urgent_msg size buffer m) s)
      RT_EOK (mq_can_send m) s).
    instantiate (1 := pass_done cur (Suspend mq) (with_mq mq (after_send urgent_msg size buffer m) s)
      RT_EOK (- RT_EFULL) (mq_can_send m) 0 s).
    unfold mq_can_send, after_send. destruct (msg_queue_free m) as [i|] eqn:Ef.
    - rewrite bool_decide_true by done. wp_steps.
      eapply wp_mono; [apply (wp_mq_deliver me cur mq mq_link_head i buffer size
        (set_msg_queue_free (mq_next m i) m) s _ (mq_flag m) (Sender mq) 0 Hi Hb); reflexivity|]. done.
    - rewrite bool_decide_false by (intros H; by apply H). wp_steps.
      split; [|by apply harmless_refl]. split_and!; [done|done|by left]. }
  intros r s' (Hi' & D & P & H). split_and!; try done.
  apply pass_result_flow; [done|done|done|by apply with_mq_change|done].
Qed.
End operations.

(** * The abstract message queue

    The messages in their order, at most [cap] of them; a message keeps the
    bytes of its node behind those that were copied into it. *)
Inductive mq_label :=
  | Put (size : Z) (buffer : list Z)
  | PutFirst (size : Z) (buffer : list Z)
  | Take (bytes : list Z).

Inductive mq_step (cap width : Z) : list (list Z) -> mq_label -> list (list Z) -> Prop :=
  | mqs_put q size buffer rest :
      Z.of_nat (length q) < cap ->
      mq_step cap width q (Put size buffer) (q ++ [take (Z.to_nat size) buffer ++ rest])
  | mqs_put_first q size buffer rest :
      Z.of_nat (length q) < cap ->
      mq_step cap width q (PutFirst size buffer) ((take (Z.to_nat size) buffer ++ rest) :: q)
  | mqs_take q size bytes :
      mq_step cap width (bytes :: q) (Take (take (Z.to_nat (Z.min size width)) bytes)) q.

Inductive mq_run (cap width : Z) : list (list Z) -> list mq_label -> list (list Z) -> Prop :=
  | mqr_nil q : mq_run cap width q [] q
  | mqr_cons q1 q2 q3 l tr :
      mq_step cap width q1 l q2 -> mq_run cap width q2 tr q3 -> mq_run cap width q1 (l :: tr) q3.

Lemma mq_run_app cap width q1 q2 q3 tr1 tr2 :
  mq_run cap width q1 tr1 q2 -> mq_run cap width q2 tr2 q3 -> mq_run cap width q1 (tr1 ++ tr2) q3.
Proof. induction 1; cbn; [done|]. intros H'. econstructor; eauto. Qed.

Lemma mq_pass_ok {A} me cur mq fl hw hq x (ok busy : A) avail time s r s' :
  0 <= me < RT_CPUS_NR -> kinv s -> is_wait_head hw = true -> mq_ok s mq ->
  (avail = true -> (exists q f, mq_inv x q f []) /\ same_params (mqs s mq) x) ->
  pass_result me cur fl hw hq (with_mq mq x s) ok busy avail time s r s' ->
  mq_ok s' mq /\ mqs s' mq = if avail then x else mqs s mq.
Proof.
  intros Hme Hi Hhw [K1 K2 K3] Hx H.
  destruct (pass_result_frame me cur s (with_mq mq x s) hw Hme Hi Hhw (with_mq_change mq x s Hi)
    fl hq ok busy avail time r s' H) as [Ho Hs].
  assert (Em : mqs s' mq = if avail then x else mqs s mq).
  { rewrite (so_mqs _ _ Hs). destruct avail; [|done]. apply with_mq_lookup. }
  split; [|done]. split; rewrite ?Em.
  - unfold rt_object_get_type. by rewrite Ho.
  - destruct avail; [|done]. destruct (Hx eq_refl) as [_ (-> & _)]. done.
  - destruct avail; [|done]. by destruct (Hx eq_refl).
Qed.

Lemma can_send_inv s mq : mq_ok s mq -> mq_can_send (mqs s mq) = true ->
  exists q f i, msg_queue_free (mqs s mq) = Some i /\ mq_inv (mqs s mq) q (i :: f) [] /\
    Z.of_nat (length (messages (mqs s mq))) < max_msgs (mqs s mq).
Proof.
  intros [_ _ (q & f & H)] Hc%bool_decide_eq_true. destruct f as [|i f].
  - exfalso. apply Hc. by eapply free_empty.
  - exists q, f, i. split; [by destruct (alloc_inv _ _ _ _ _ H)|]. split; [done|].
    rewrite (messages_inv _ _ _ _ H), length_fmap. destruct H. rewrite !length_app in *. cbn in *. lia.
Qed.

Lemma can_recv_inv s mq : mq_ok s mq -> mq_can_recv (mqs s mq) = true ->
  exists q f i, msg_queue_head (mqs s mq) = Some i /\ mq_inv (mqs s mq) (i :: q) f [].
Proof.
  intros [_ _ (q & f & H)] Hc%negb_true_iff%Z.eqb_neq. destruct q as [|i q].
  - destruct H as [_ _ _ _ _ _ He _]. done.
  - exists q, f, i. split; [by destruct (unlink_inv _ _ _ _ _ H)|done].
Qed.

(** A call as steps of the abstract queue. *)
Definition mq_steps (s : kstate) (mq : oid) (tr : list mq_label) (s1 : kstate) : Prop :=
  mq_ok s1 mq /\ same_params (mqs s mq) (mqs s1 mq) /\
  mq_run (max_msgs (mqs s mq)) (msg_size (mqs s mq)) (messages (mqs s mq)) tr (messages (mqs s1 mq)).

Lemma mq_steps_none s mq s1 : mq_ok s1 mq -> mqs s1 mq = mqs s mq -> mq_steps s mq [] s1.
Proof. intros H E. split; [done|]. rewrite E. split; [done|constructor]. Qed.

Lemma mq_steps_trans s mq tr1 s1 tr2 s2 :
  mq_steps s mq tr1 s1 -> mq_steps s1 mq tr2 s2 -> mq_steps s mq (tr1 ++ tr2) s2.
Proof.
  intros (H1 & (P1 & P2 & P3) & R1) (H2 & (Q1 & Q2 & Q3) & R2). split; [done|].
  split; [split_and!; congruence|]. rewrite P2, P3 in R2. by eapply mq_run_app.
Qed.

Definition put_labels (l : mq_label) (r : option Z) : list mq_label :=
  match r with Some e => if e =? RT_EOK then [l] else [] | None => [] end.
Definition take_labels (r : option (Z * list Z)) : list mq_label :=
  match r with Some (e, bytes) => if e =? RT_EOK then [Take bytes] else [] | None => [] end.

(** The common shape of the sends. *)
Lemma put_result_steps me cur mq fl hq link l size buffer time s r s' :
  0 <= me < RT_CPUS_NR -> kinv s -> mq_ok s mq ->
  (forall m q f i, mq_inv m q (i :: f) [] -> Z.of_nat (length (messages m)) < max_msgs m ->
     (exists q', mq_inv (link size buffer i m) q' f []) /\ same_params m (link size buffer i m) /\
     mq_step (max_msgs m) (msg_size m) (messages m) l (messages (link size buffer i m))) ->
  pass_result me cur fl (Suspend mq) hq (with_mq mq (after_send link size buffer (mqs s mq)) s)
    RT_EOK (- RT_EFULL) (mq_can_send (mqs s mq)) time s r s' ->
  mq_steps s mq (put_labels l r) s'.
Proof.
  intros Hme Hi Hk Hl H.
  destruct (mq_can_send (mqs s mq)) eqn:Hc.
  - destruct (can_send_inv s mq Hk Hc) as (q & f & i & Ef & Hinv & Hlen).
    destruct (Hl _ _ _ _ Hinv Hlen) as ((q' & Hq') & Hp & Hstep).
    unfold after_send in H. rewrite Ef in H. pose proof H as H'.
    apply mq_pass_ok in H as [H1 H2]; [|done..|eauto].
    destruct H' as [-> _]. cbn. split; [done|]. rewrite H2. split; [done|].
    econstructor; [exact Hstep|constructor].
  - pose proof H as H'. apply mq_pass_ok in H as [H1 H2]; [|done..].
    assert (Hr : put_labels l r = []) by (by destruct H' as [(_ & -> & _)|(_ & -> & _)]).
    rewrite Hr. by apply mq_steps_none.
Qed.

Lemma send_step m q f i size buffer :
  mq_inv m q (i :: f) [] -> Z.of_nat (length (messages m)) < max_msgs m ->
  (exists q', mq_inv (send_msg size buffer i m) q' f []) /\ same_params m (send_msg size buffer i m) /\
  mq_step (max_msgs m) (msg_size m) (messages m) (Put size buffer) (messages (send_msg size buffer i m)).
Proof.
  intros H Hl. destruct (send_msg_ok size buffer m q f i H) as (H1 & H2 & ->).
  split_and!; [by eexists|done|by constructor].
Qed.
Lemma urgent_step m q f i size buffer :
  mq_inv m q (i :: f) [] -> Z.of_nat (length (messages m)) < max_msgs m ->
  (exists q', mq_inv (urgent_msg size buffer i m) q' f []) /\
  same_params m (urgent_msg size buffer i m) /\
  mq_step (max_msgs m) (msg_size m) (messages m) (PutFirst size buffer)
    (messages (urgent_msg size buffer i m)).
Proof.
  intros H Hl. destruct (urgent_msg_ok size buffer m q f i H) as (H1 & H2 & ->).
  split_and!; [by eexists|done|by constructor].
Qed.

Lemma take_result_steps me cur mq size time s r s' :
  0 <= me < RT_CPUS_NR -> kinv s -> mq_ok s mq ->
  mq_recv_result me cur mq s size time r s' -> mq_steps s mq (take_labels r) s'.
Proof.
  intros Hme Hi Hk H. unfold mq_recv_result in H.
  destruct (mq_can_recv (mqs s mq)) eqn:Hc.
  - destruct (can_recv_inv s mq Hk Hc) as (q & f & i & Eh & Hinv).
    destruct (recv_msg_ok _ _ _ _ Hinv) as (H1 & H2 & H3).
    unfold after_recv in H. rewrite Eh in H. pose proof H as H'.
    apply mq_pass_ok in H as [K1 K2]; [|done..|eauto].
    destruct H' as [-> _]. cbn. split; [done|]. rewrite K2. split; [done|].
    unfold first_bytes. rewrite H3. cbn. econstructor; [constructor|constructor].
  - pose proof H as H'. apply mq_pass_ok in H as [H1 H2]; [|done..].
    assert (Hr : take_labels r = []) by (by destruct H' as [(_ & -> & _)|(_ & -> & _)]).
    rewrite Hr. by apply mq_steps_none.
Qed.

Lemma resumed_steps {A} t s (f : Z -> A) Q r s1 mq (labels : option A -> list mq_label) :
  mq_ok s mq -> resumed_result t s f Q r s1 ->
  (forall e, e <> RT_EOK -> labels (Some (f e)) = []) ->
  (Q r s1 -> mq_steps s mq (labels r) s1) -> mq_steps s mq (labels r) s1.
Proof.
  intros Hk [(He & -> & E)|(_ & H)] Hl HQ; [|auto]. rewrite Hl by done.
  destruct Hk as [K1 K2 K3].
  apply mq_steps_none; [|by rewrite <-(keq_mqs _ _ E)].
  split; unfold rt_object_get_type; by rewrite <-?(keq_otype _ _ E), <-?(keq_mqs _ _ E).
Qed.

(** ** Histories of a message queue *)
Inductive mq_history (mq : oid) : kstate -> list mq_label -> kstate -> Prop :=
  | qh_nil s : mq_history mq s [] s
  | qh_send me cur fuel buffer size timeout s r s1 tr s2 :
      may_call me cur timeout s -> fits mq size buffer s ->
      rt_mq_send_wait me fuel mq buffer size timeout s = Some (r, s1) ->
      mq_history mq s1 tr s2 -> mq_history mq s (put_labels (Put size buffer) r ++ tr) s2
  | qh_send_resumed me cur fuel buffer size w s r s1 tr s2 :
      may_call me cur (time_left w.1 w.2 (rt_tick_get s)) s -> blocker me cur s ->
      size <= Z.of_nat (length buffer) ->
      (o ← rt_mq_send_resumed (Kn := Smp me) mq buffer size cur w;
       run_flow me (rt_mq_send_resumed (Kn := Smp me) mq buffer size) fuel o) s = Some (r, s1) ->
      mq_history mq s1 tr s2 -> mq_history mq s (put_labels (Put size buffer) r ++ tr) s2
  | qh_urgent me cur buffer size s r s1 tr s2 :
      may_call me cur 0 s -> fits mq size buffer s ->
      rt_mq_urgent me mq buffer size s = Some (r, s1) ->
      mq_history mq s1 tr s2 -> mq_history mq s (put_labels (PutFirst size buffer) r ++ tr) s2
  | qh_recv me cur fuel size timeout s r s1 tr s2 :
      may_call me cur timeout s -> size <> 0 ->
      rt_mq_recv me fuel mq size timeout s = Some (r, s1) ->
      mq_history mq s1 tr s2 -> mq_history mq s (take_labels r ++ tr) s2
  | qh_recv_resumed me cur fuel size w s r s1 tr s2 :
      may_call me cur (time_left w.1 w.2 (rt_tick_get s)) s -> blocker me cur s ->
      (o ← rt_mq_recv_resumed (Kn := Smp me) mq size cur w;
       run_flow me (rt_mq_recv_resumed (Kn := Smp me) mq size) fuel o) s = Some (r, s1) ->
      mq_history mq s1 tr s2 -> mq_history mq s (take_labels r ++ tr) s2
  | qh_other s s1 tr s2 :
      mqs s1 mq = mqs s mq -> (mq_ok s mq -> mq_ok s1 mq) ->
      mq_history mq s1 tr s2 -> mq_history mq s tr s2.

Lemma history_send_steps me cur mq s buffer size fuel timeout r s1 :
  may_call me cur timeout s -> fits mq size buffer s -> mq_ok s mq ->
  rt_mq_send_wait me fuel mq buffer size timeout s = Some (r, s1) ->
  mq_steps s mq (put_labels (Put size buffer) r) s1.
Proof.
  intros Hc Hf Hk E. pose proof (mq_send_steps me cur mq s Hk fuel buffer size timeout Hc Hf) as W.
  unfold wp in W. rewrite E in W. destruct W as (_ & _ & _ & W).
  eapply put_result_steps; [apply Hc|apply Hc|done|intros; by eapply send_step|exact W].
Qed.

Lemma history_send_resumed_steps me cur mq s buffer size fuel w r s1 :
  may_call me cur (time_left w.1 w.2 (rt_tick_get s)) s -> blocker me cur s ->
  size <= Z.of_nat (length buffer) -> mq_ok s mq ->
  (o ← rt_mq_send_resumed (Kn := Smp me) mq buffer size cur w;
   run_flow me (rt_mq_send_resumed (Kn := Smp me) mq buffer size) fuel o) s = Some (r, s1) ->
  mq_steps s mq (put_labels (Put size buffer) r) s1.
Proof.
  intros Hc Hb Hl Hk E.
  pose proof (mq_send_resumed_steps me cur mq s Hk fuel buffer size w Hc Hb Hl) as W.
  unfold wp in W. rewrite E in W. destruct W as (_ & _ & _ & W).
  eapply (resumed_steps _ _ _ _ r s1 mq (put_labels (Put size buffer))); [done|exact W|..].
  - intros e He. cbn. apply Z.eqb_neq in He. by rewrite He.
  - intros W'. eapply put_result_steps; [apply Hc|apply Hc|done|intros; by eapply send_step|exact W'].
Qed.

Lemma history_urgent_steps me cur mq s buffer size r s1 :
  may_call me cur 0 s -> fits mq size buffer s -> mq_ok s mq ->
  rt_mq_urgent me mq buffer size s = Some (r, s1) ->
  mq_steps s mq (put_labels (PutFirst size buffer) r) s1.
Proof.
  intros Hc Hf Hk E. pose proof (mq_urgent_steps me cur mq s Hk buffer size Hc Hf) as W.
  unfold wp in W. rewrite E in W. destruct W as (_ & _ & _ & W).
  eapply put_result_steps; [apply Hc|apply Hc|done|intros; by eapply urgent_step|exact W].
Qed.

Lemma history_recv_steps me cur mq s size fuel timeout r s1 :
  may_call me cur timeout s -> size <> 0 -> mq_ok s mq ->
  rt_mq_recv me fuel mq size timeout s = Some (r, s1) -> mq_steps s mq (take_labels r) s1.
Proof.
  intros Hc Hz Hk E. pose proof (mq_recv_steps me cur mq s Hk fuel size timeout Hc Hz) as W.
  unfold wp in W. rewrite E in W. destruct W as (_ & _ & _ & W).
  eapply take_result_steps; [apply Hc|apply Hc|done|exact W].
Qed.

Lemma history_recv_resumed_steps me cur mq s size fuel w r s1 :
  may_call me cur (time_left w.1 w.2 (rt_tick_get s)) s -> blocker me cur s -> mq_ok s mq ->
  (o ← rt_mq_recv_resumed (Kn := Smp me) mq size cur w;
   run_flow me (rt_mq_recv_resumed (Kn := Smp me) mq size) fuel o) s = Some (r, s1) ->
  mq_steps s mq (take_labels r) s1.
Proof.
  intros Hc Hb Hk E. pose proof (mq_recv_resumed_steps me cur mq s Hk fuel size w Hc Hb) as W.
  unfold wp in W. rewrite E in W. destruct W as (_ & _ & _ & W).
  eapply (resumed_steps _ _ _ _ r s1 mq take_labels); [done|exact W|..].
  - intros e He. cbn. apply Z.eqb_neq in He. by rewrite He.
  - intros W'. eapply take_result_steps; [apply Hc|apply Hc|done|exact W'].
Qed.

Lemma mq_history_steps mq s tr s' :
  mq_history mq s tr s' -> mq_ok s mq -> mq_steps s mq tr s'.
Proof.
  assert (Hj : forall s tr1 s1 tr2 s2, mq_steps s mq tr1 s1 ->
    (mq_ok s1 mq -> mq_steps s1 mq tr2 s2) -> mq_steps s mq (tr1 ++ tr2) s2).
  { intros s0 tr1 s1 tr2 s2 H H'. eapply mq_steps_trans; [exact H|]. apply H', H. }
  induction 1 as [s|me cur fuel buffer size timeout s r s1 tr s2 Hc Hf E _ IH
    |me cur fuel buffer size w s r s1 tr s2 Hc Hb Hl E _ IH
    |me cur buffer size s r s1 tr s2 Hc Hf E _ IH
    |me cur fuel size timeout s r s1 tr s2 Hc Hz E _ IH
    |me cur fuel size w s r s1 tr s2 Hc Hb E _ IH|s s1 tr s2 E Ho _ IH]; intros Hk.
  - by apply mq_steps_none.
  - eapply Hj; [by eapply history_send_steps|done].
  - eapply Hj; [by eapply history_send_resumed_steps|done].
  - eapply Hj; [by eapply history_urgent_steps|done].
  - eapply Hj; [by eapply history_recv_steps|done].
  - eapply Hj; [by eapply history_recv_resumed_steps|done].
  - apply (Hj s [] s1 tr s2); [apply mq_steps_none; auto|done].
Qed.

(** C22: a message queue is a bounded queue with urgent messages at its front: in
    every history of calls and resumed calls of [rt_mq_send_wait],
    [rt_mq_urgent] and [rt_mq_recv] the messages change as in the abstract
    queue; a receive returns the first bytes of the oldest message, and no node
    of the pool is lost. *)
Theorem rt_mq_history_refines mq s tr s' :
  mq_history mq s tr s' -> mq_ok s mq ->
  mq_ok s' mq /\
  mq_run (max_msgs (mqs s mq)) (msg_size (mqs s mq)) (messages (mqs s mq)) tr
    (messages (mqs s' mq)).
Proof. intros H Hk. by destruct (mq_history_steps mq s tr s' H Hk) as (H1 & _ & H2). Qed.

(** [rt_mq_send_wait] copies the message into a free node and links it at
    the tail, and wakes the first waiting receiver; without a free node the
    caller gets [-RT_EFULL] or waits with the senders. *)
Theorem rt_mq_send_wait_refines me cur fuel mq buffer size timeout s :
  may_call me cur timeout s -> fits mq size buffer s -> mq_ok s mq ->
  wp (rt_mq_send_wait me fuel mq buffer size timeout) (fun r s' =>
    kinv s' /\ lock_depth me 0 s' /\ parked_ok s' /\
    mq_steps s mq (put_labels (Put size buffer) r) s' /\
    mq_send_result me cur mq s size buffer timeout r s') s.
Proof.
  intros Hc Hf Hk. eapply wp_mono; [by apply (mq_send_steps me cur mq s Hk)|].
  intros r s' (H1 & H2 & H3 & H4). split_and!; try done.
  eapply put_result_steps; [apply Hc|apply Hc|done|intros; by eapply send_step|exact H4].
Qed.

(** [rt_mq_recv] takes the oldest message, copies at most [size] bytes of it,
    gives its node back and wakes the first waiting sender; from an empty queue
    the caller gets [-RT_ETIMEOUT] or waits. *)
Theorem rt_mq_recv_refines me cur fuel mq size timeout s :
  may_call me cur timeout s -> size <> 0 -> mq_ok s mq ->
  wp (rt_mq_recv me fuel mq size timeout) (fun r s' =>
    kinv s' /\ lock_depth me 0 s' /\ parked_ok s' /\
    mq_steps s mq (take_labels r) s' /\
    mq_recv_result me cur mq s size timeout r s') s.
Proof.
  intros Hc Hz Hk. eapply wp_mono; [by apply (mq_recv_steps me cur mq s Hk)|].
  intros r s' (H1 & H2 & H3 & H4). split_and!; try done.
  eapply take_result_steps; [apply Hc|apply Hc|done|exact H4].
Qed.

(** A message longer than the queue's messages is refused with [-RT_ERROR]
    and changes nothing, whether it is sent or urgent. *)
Theorem rt_mq_too_long me fuel mq buffer size timeout s :
  0 <= me < RT_CPUS_NR -> mq_ok s mq -> 0 <= msg_size (mqs s mq) < size ->
  rt_mq_send_wait me fuel mq buffer size timeout s = Some (Some (- RT_ERROR), s) /\
  rt_mq_urgent me mq buffer size s = Some (Some (- RT_ERROR), s).
Proof.
  intros Hme Hk Hs.
  assert (Hz : negb (size =? 0) = true) by (apply negb_true_iff, Z.eqb_neq; lia).
  assert (Hl : msg_size (mqs s mq) <? size = true) by (apply Z.ltb_lt; lia).
  unfold rt_mq_send_wait, rt_mq_urgent, rt_mq_send_wait_enter, rt_mq_urgent_enter, assert_type,
    mbind, M_bind, get, assertM. rewrite (qk_type _ _ Hk). cbn [Z.eqb]. rewrite Z.eqb_refl.
  cbn. rewrite Hz. cbn. rewrite Hl. cbn. by destruct fuel.
Qed.

(** ** The set-up and the reset *)

(** The set-up of [rt_mq_init] and [rt_mq_create] makes an empty queue over
    any pool of at most 65535 messages: every node is on the free list. *)
Theorem mq_setup_partitions m :
  0 <= max_msgs m < 65536 ->
  mq_inv (mq_setup m) [] (reverse (Z.of_nat <$> seq 0 (Z.to_nat (max_msgs m)))) [] /\
  messages (mq_setup m) = [].
Proof.
  intros Hm. pose proof (setup_inv m Hm) as H. split; [done|]. by rewrite (messages_inv _ _ _ _ H).
Qed.

Lemma wp_mq_reset_enter me mq s :
  kinv s -> mq_ok s mq ->
  wp (rt_mq_reset_enter (Kn := Big me) mq) (fun _ s0 =>
    (lists s0 (Suspend mq) = [] /\ lists s0 (Sender mq) = [] /\ mq_ok s0 mq /\
     messages (mqs s0 mq) = [] /\ max_msgs (mqs s0 mq) = max_msgs (mqs s mq) /\
     forall t, t ∈ lists s (Suspend mq) ++ lists s (Sender mq) ->
       error (threads s0 t) = - RT_ERROR) /\ harmless s s0) s.
Proof.
  intros Hi [K1 K2 (q & f & Hinv)]. unfold rt_mq_reset_enter.
  cbn [interrupt_disable interrupt_enable Big]. wp_steps.
  apply wp_abort_both; [done|]. intros s1 [[B0 B0'] B1 B2 B3 B4 B5 _].
  wp_steps. rewrite (so_mqs _ _ B1). pose proof (inv_bound _ _ _ _ Hinv) as Hb.
  apply (wp_release_all mq q _ (mqs s mq) f s1); [|lia| |].
  - by destruct (id Hinv) as [_ _ _ _ _ _ <- _]; destruct (mqs s mq).
  - rewrite <-(so_mqs _ _ B1). apply with_mq_same.
  - intros m' f' s2 H' F1 F2 E2. apply wp_bind, (wp_mq_upd mq m' s1 _ _ _ E2). intros s3 E3.
    wp_steps.
    assert (Em : mqs s3 mq = set_mq_entry 0 m') by (rewrite <-(keq_mqs _ _ E3); apply with_mq_lookup).
    split.
    + rewrite Em, <-!(keq_lists _ _ E3). split_and!; try done.
      * split.
        -- unfold rt_object_get_type. by rewrite <-(keq_otype _ _ E3), <-K1; cbn; rewrite B2.
        -- rewrite Em. cbn. by rewrite F1.
        -- rewrite Em. by exists [], f'.
      * intros t Ht. rewrite <-(keq_threads _ _ E3). by apply B5.
    + eapply harmless_keq; [exact E3|]. eapply harmless_trans; [by split|]. by apply with_mq_ok.
Qed.

(** The reset of a message queue ends, whatever the pool holds: all waiters
    on both sides are made ready with [-RT_ERROR], all messages are dropped and
    their nodes are free again. *)
Theorem rt_mq_control_resets me cur mq s :
  0 <= me < RT_CPUS_NR -> rt_thread_self me s = Some cur ->
  lock_depth me 0 s -> parked_ok s -> kinv s -> mq_ok s mq ->
  wp (rt_mq_control me mq RT_IPC_CMD_RESET) (fun r s' =>
    r = RT_EOK /\ kinv s' /\ lock_depth me 0 s' /\ parked_ok s' /\ mq_ok s' mq /\
    messages (mqs s' mq) = [] /\ max_msgs (mqs s' mq) = max_msgs (mqs s mq) /\
    lists s' (Suspend mq) = [] /\ lists s' (Sender mq) = [] /\
    forall t, t ∈ lists s (Suspend mq) ++ lists s (Sender mq) ->
      error (threads s' t) = - RT_ERROR) s.
Proof.
  intros Hme Hself Hd Hp Hi Hk. unfold rt_mq_control.
  apply wp_bind, wp_assert_type; [apply Hk|]. cbn [Z.eqb RT_IPC_CMD_RESET Pos.eqb].
  apply wp_bind. eapply wp_mono; [eapply (wp_plain me 0) with (Q := fun _ s0 =>
    lists s0 (Suspend mq) = [] /\ lists s0 (Sender mq) = [] /\ mq_ok s0 mq /\
    messages (mqs s0 mq) = [] /\ max_msgs (mqs s0 mq) = max_msgs (mqs s mq) /\
    (forall t, t ∈ lists s (Suspend mq) ++ lists s (Sender mq) ->
       error (threads s0 t) = - RT_ERROR) /\ rt_thread_self me s0 = Some cur);
    [done|done|done|apply rt_mq_reset_enter_er; lia|]|].
  { eapply wp_mono; [by apply wp_mq_reset_enter|]. intros [] s0 [(H1 & H2 & H3 & H4 & H5 & H6) Hh].
    split; [|done]. split_and!; try done. destruct Hh as (_ & _ & Hs). by rewrite Hs. }
  intros [] s1 (Hi1 & D1 & P1 & s0 & (H1 & H2 & [T1 T2 T3] & H4 & H5 & H6 & H7) & E).
  apply wp_bind, (wp_schedule_after me cur s1 s1); try done.
  { by rewrite (keq_self _ _ me E). }
  intros s' Hi' D' P' He. wp_steps.
  destruct (schedule_effect_frame me cur s1 s') as (Eo & _ & El); [done..|].
  pose proof (schedule_effect_otype me cur s1 s' He) as Eot.
  rewrite (so_mqs _ _ Eo), !El, <-!(keq_mqs _ _ E), <-!(keq_lists _ _ E) by done.
  split_and!; try done.
  - split; unfold rt_object_get_type; by rewrite ?(so_mqs _ _ Eo), ?Eot, <-?(keq_mqs _ _ E), <-?(keq_otype _ _ E).
  - intros t Ht. destruct (schedule_effect_moved me cur s1 s' t He) as [-> _]. cbn.
    rewrite <-(keq_threads _ _ E). by apply H6.
Qed.

(** ** Witnesses: queue 5 holds one message of two *)
Lemma ex_mq5_ok : mq_ok ex 5%positive.
Proof.
  split; [done|by left|]. exists [0], [1]. split; cbn; try done.
  - apply NoDup_cons. split; [|apply NoDup_singleton]. by intros ?%list_elem_of_singleton.
  - intros i [->|Hi]%elem_of_cons; [done|]. by apply list_elem_of_singleton in Hi as ->.
Qed.
Lemma ex_calls timeout : timeout < RT_TICK_MAX / 2 -> may_call 0 1 timeout ex.
Proof.
  intros Ht. split; [done|done|apply ex_depth|exact ex_parked|exact ex_kinv|done|right; exact ex_blocker].
Qed.

Lemma rt_mq_send_wait_refines_ex :
  wp (rt_mq_send_wait 0 0 5%positive [7; 8; 9] 3 0) (fun r s' =>
    kinv s' /\ lock_depth 0 0 s' /\ parked_ok s' /\
    mq_steps ex 5 (put_labels (Put 3 [7; 8; 9]) r) s' /\
    mq_send_result 0 1 5 ex 3 [7; 8; 9] 0 r s') ex.
Proof.
  apply (rt_mq_send_wait_refines 0 1%positive 0 5%positive [7; 8; 9] 3 0 ex (ex_calls 0 ltac:(done)));
    [by split|exact ex_mq5_ok].
Defined.

Lemma rt_mq_recv_refines_ex :
  wp (rt_mq_recv 0 0 5%positive 2 10) (fun r s' =>
    kinv s' /\ lock_depth 0 0 s' /\ parked_ok s' /\ mq_steps ex 5 (take_labels r) s' /\
    mq_recv_result 0 1 5 ex 2 10 r s') ex.
Proof.
  apply (rt_mq_recv_refines 0 1%positive 0 5%positive 2 10 ex (ex_calls 10 ltac:(done)));
    [done|exact ex_mq5_ok].
Defined.

Lemma rt_mq_too_long_ex :
  rt_mq_send_wait 0 0 5%positive [1; 2; 3; 4; 5] 5 0 ex = Some (Some (- RT_ERROR), ex) /\
  rt_mq_urgent 0 5%positive [1; 2; 3; 4; 5] 5 ex = Some (Some (- RT_ERROR), ex).
Proof. apply (rt_mq_too_long 0 0 5%positive [1; 2; 3; 4; 5] 5 0 ex); [done|exact ex_mq5_ok|done]. Defined.

Lemma rt_mq_control_resets_ex :
  wp (rt_mq_control 0 5%positive RT_IPC_CMD_RESET) (fun r s' =>
    r = RT_EOK /\ kinv s' /\ lock_depth 0 0 s' /\ parked_ok s' /\ mq_ok s' 5%positive /\
    messages (mqs s' 5%positive) = [] /\ max_msgs (mqs s' 5%positive) = 2 /\
    lists s' (Suspend 5) = [] /\ lists s' (Sender 5) = [] /\
    forall t, t ∈ lists ex (Suspend 5) ++ lists ex (Sender 5) ->
      error (threads s' t) = - RT_ERROR) ex.
Proof.
  apply (rt_mq_control_resets 0 1%positive 5%positive ex); try done;
    [exact ex_parked|exact ex_kinv|exact ex_mq5_ok].
Defined.

(** An urgent message, and the receive that gets it. *)
Definition ex_urgent : kstate :=
  match rt_mq_urgent 0 5 [7; 8; 9] 3 ex with Some (_, s') => s' | None => ex end.

Lemma rt_mq_history_refines_ex :
  mq_ok ex_urgent 5%positive /\
  mq_run 2 4 [[0; 0; 0; 0]] [PutFirst 3 [7; 8; 9]] (messages (mqs ex_urgent 5%positive)).
Proof.
  apply (rt_mq_history_refines 5 ex [PutFirst 3 [7; 8; 9]] ex_urgent); [|exact ex_mq5_ok].
  refine (qh_urgent 5 0 1%positive [7; 8; 9] 3 ex (Some RT_EOK) ex_urgent [] _ (ex_calls 0 _)
    _ _ (qh_nil _ _)); [done|by split|vm_compute; reflexivity].
Defined.
