(* ===== verification/RingBuffer.v ===== *)
(** The ring buffer of the device drivers
    ([rt-thread/components/drivers/src/ringbuffer.c]): a byte pool with read
    and write indices, each with a mirror bit that tells a full buffer from an
    empty one. *)
From S2P Require Import Prelude Ring.

Record rt_ringbuffer := mkRb {
  buffer_ptr : list Z;
  read_mirror : Z; read_index : Z;
  write_mirror : Z; write_index : Z;
  buffer_size : Z }.
Definition set_buffer_ptr v rb :=
  mkRb v (read_mirror rb) (read_index rb) (write_mirror rb) (write_index rb) (buffer_size rb).
(** The bit fields: one bit for a mirror, 15 bits for an index. *)
Definition set_read_mirror v rb :=
  mkRb (buffer_ptr rb) (v mod 2) (read_index rb) (write_mirror rb) (write_index rb) (buffer_size rb).
Definition set_read_index v rb :=
  mkRb (buffer_ptr rb) (read_mirror rb) (v mod 2 ^ 15) (write_mirror rb) (write_index rb)
    (buffer_size rb).
Definition set_write_mirror v rb :=
  mkRb (buffer_ptr rb) (read_mirror rb) (read_index rb) (v mod 2) (write_index rb) (buffer_size rb).
Definition set_write_index v rb :=
  mkRb (buffer_ptr rb) (read_mirror rb) (read_index rb) (write_mirror rb) (v mod 2 ^ 15)
    (buffer_size rb).

Inductive rt_ringbuffer_state := RT_RINGBUFFER_EMPTY | RT_RINGBUFFER_FULL | RT_RINGBUFFER_HALFFULL.

Definition rt_ringbuffer_status (rb : rt_ringbuffer) : rt_ringbuffer_state :=
  if read_index rb =? write_index rb then
    if read_mirror rb =? write_mirror rb then RT_RINGBUFFER_EMPTY else RT_RINGBUFFER_FULL
  else RT_RINGBUFFER_HALFFULL.

(** The result is an [rt_size_t], 64 bits wide. *)
Definition rt_ringbuffer_data_len (rb : rt_ringbuffer) : Z :=
  match rt_ringbuffer_status rb with
  | RT_RINGBUFFER_EMPTY => 0
  | RT_RINGBUFFER_FULL => u64 (buffer_size rb)
  | RT_RINGBUFFER_HALFFULL =>
      if read_index rb <? write_index rb then write_index rb - read_index rb
      else u64 (buffer_size rb - (read_index rb - write_index rb))
  end.
Definition rt_ringbuffer_space_len (rb : rt_ringbuffer) : Z :=
  u64 (buffer_size rb - rt_ringbuffer_data_len rb).

Definition rt_ringbuffer_init (pool : list Z) (size : Z) : M rt_ringbuffer unit :=
  assertM (0 <? size);;
  modify (fun _ => mkRb pool 0 0 0 0 (RT_ALIGN_DOWN size RT_ALIGN_SIZE)).

Definition rt_ringbuffer_reset : M rt_ringbuffer unit :=
  modify (fun rb => set_write_index 0 (set_write_mirror 0 (set_read_index 0 (set_read_mirror 0 rb)))).

(** [memcpy(&buffer_ptr[dst], &ptr[src], n)] and
    [memcpy(ptr, &buffer_ptr[src], n)], inside the pool and the block. *)
Definition copy_in (dst : Z) (ptr : list Z) (src n : Z) : M rt_ringbuffer unit :=
  rb ← get;
  assertM ((0 <=? dst) && (0 <=? src) && (0 <=? n) &&
           (dst + n <=? Z.of_nat (length (buffer_ptr rb))) &&
           (src + n <=? Z.of_nat (length ptr)));;
  modify (fun rb => set_buffer_ptr (blit (buffer_ptr rb) (Z.to_nat dst)
    (take (Z.to_nat n) (drop (Z.to_nat src) ptr))) rb).
Definition copy_out (src n : Z) : M rt_ringbuffer (list Z) :=
  rb ← get;
  assertM ((0 <=? src) && (0 <=? n) && (src + n <=? Z.of_nat (length (buffer_ptr rb))));;
  mret (take (Z.to_nat n) (drop (Z.to_nat src) (buffer_ptr rb))).

(** The copying part of [rt_ringbuffer_put] and [rt_ringbuffer_put_force]:
    whether the write index went into the other mirror. *)
Definition put_bytes (ptr : list Z) (length : Z) : M rt_ringbuffer bool :=
  rb ← get;
  if length <? buffer_size rb - write_index rb then
    copy_in (write_index rb) ptr 0 length;;
    modify (fun rb => set_write_index (write_index rb + length) rb);;
    mret false
  else
    copy_in (write_index rb) ptr 0 (buffer_size rb - write_index rb);;
    copy_in 0 ptr (buffer_size rb - write_index rb)
      (length - (buffer_size rb - write_index rb));;
    modify (fun rb => set_write_mirror (Z.lnot (write_mirror rb)) rb);;
    modify (fun rb => set_write_index (length - (buffer_size rb - write_index rb)) rb);;
    mret true.

Definition rt_ringbuffer_put (ptr : list Z) (length : Z) : M rt_ringbuffer Z :=
  rb ← get;
  let size := u16 (rt_ringbuffer_space_len rb) in
  if size =? 0 then mret 0
  else
    let length := if size <? length then size else length in
    put_bytes ptr length;;
    mret length.

Definition rt_ringbuffer_put_force (ptr : list Z) (length : Z) : M rt_ringbuffer Z :=
  rb ← get;
  let space_length := u16 (rt_ringbuffer_space_len rb) in
  let ptr := if buffer_size rb <? length then drop (Z.to_nat (length - buffer_size rb)) ptr
             else ptr in
  let length := if buffer_size rb <? length then buffer_size rb else length in
  wrapped ← put_bytes ptr length;
  (if space_length <? length then
     (if (wrapped : bool) then
        modify (fun rb => set_read_mirror (Z.lnot (read_mirror rb)) rb)
      else mret tt);;
     modify (fun rb => set_read_index (write_index rb) rb)
   else mret tt);;
  mret length.

(** The result with the bytes stored through [ptr]. *)
Definition rt_ringbuffer_get (length : Z) : M rt_ringbuffer (Z * list Z) :=
  rb ← get;
  let size := rt_ringbuffer_data_len rb in
  if size =? 0 then mret (0, [])
  else
    let length := if size <? length then u16 size else length in
    if length <? buffer_size rb - read_index rb then
      bytes ← copy_out (read_index rb) length;
      modify (fun rb => set_read_index (read_index rb + length) rb);;
      mret (length, bytes)
    else
      bytes1 ← copy_out (read_index rb) (buffer_size rb - read_index rb);
      bytes2 ← copy_out 0 (length - (buffer_size rb - read_index rb));
      modify (fun rb => set_read_mirror (Z.lnot (read_mirror rb)) rb);;
      modify (fun rb => set_read_index (length - (buffer_size rb - read_index rb)) rb);;
      mret (length, bytes1 ++ bytes2).

(** [buffer_ptr[write_index] = ch] *)
Definition store_char (ch : Z) : M rt_ringbuffer unit :=
  rb ← get;
  assertM (write_index rb <? Z.of_nat (length (buffer_ptr rb)));;
  modify (fun rb => set_buffer_ptr (<[Z.to_nat (write_index rb) := ch]> (buffer_ptr rb)) rb).

Definition rt_ringbuffer_putchar (ch : Z) : M rt_ringbuffer Z :=
  rb ← get;
  if rt_ringbuffer_space_len rb =? 0 then mret 0
  else
    store_char ch;;
    (if write_index rb =? buffer_size rb - 1 then
       modify (fun rb => set_write_mirror (Z.lnot (write_mirror rb)) rb);;
       modify (set_write_index 0)
     else modify (fun rb => set_write_index (write_index rb + 1) rb));;
    mret 1.

Definition rt_ringbuffer_putchar_force (ch : Z) : M rt_ringbuffer Z :=
  rb ← get;
  let old_state := rt_ringbuffer_status rb in
  let full := match old_state with RT_RINGBUFFER_FULL => true | _ => false end in
  store_char ch;;
  (if write_index rb =? buffer_size rb - 1 then
     modify (fun rb => set_write_mirror (Z.lnot (write_mirror rb)) rb);;
     modify (set_write_index 0);;
     (if full then
        modify (fun rb => set_read_mirror (Z.lnot (read_mirror rb)) rb);;
        modify (fun rb => set_read_index (write_index rb) rb)
      else mret tt)
   else
     modify (fun rb => set_write_index (write_index rb + 1) rb);;
     (if full then modify (fun rb => set_read_index (write_index rb) rb) else mret tt));;
  mret 1.

(** The result with the byte stored through [ch]. *)
Definition rt_ringbuffer_getchar : M rt_ringbuffer (Z * option Z) :=
  rb ← get;
  if rt_ringbuffer_data_len rb =? 0 then mret (0, None)
  else
    ch ← ofopt (buffer_ptr rb !! Z.to_nat (read_index rb));
    (if read_index rb =? buffer_size rb - 1 then
       modify (fun rb => set_read_mirror (Z.lnot (read_mirror rb)) rb);;
       modify (set_read_index 0)
     else modify (fun rb => set_read_index (read_index rb + 1) rb));;
    mret (1, Some ch).

(** [mem] is what the first allocation returned, [pool] the second. *)
Definition rt_ringbuffer_create (mem : option rt_ringbuffer) (pool : option (list Z)) (size : Z)
  : option (option rt_ringbuffer) :=
  if 0 <? size then
    let size := u16 (RT_ALIGN_DOWN size RT_ALIGN_SIZE) in
    match mem, pool with
    | Some rb, Some pool =>
        match rt_ringbuffer_init pool (i16 size) rb with
        | Some (_, rb) => Some (Some rb)
        | None => None
        end
    | _, _ => Some None
    end
  else None.
