(* ===== verification/RingBufferProps.v ===== *)
(** The properties of the ring buffer: it is a bounded queue of bytes, except
    for [rt_ringbuffer_put_force] when the old bytes are in front of the wrap. *)
From S2P Require Import Prelude Ring RingBuffer.

(** * The bytes in a buffer *)
Definition bytes (rb : rt_ringbuffer) : list Z :=
  ring (buffer_ptr rb) (buffer_size rb) (read_index rb) (rt_ringbuffer_data_len rb).

Definition mirrored (rb : rt_ringbuffer) : bool := negb (read_mirror rb =? write_mirror rb).

Record rb_ok (rb : rt_ringbuffer) : Prop := {
  rb_size : 0 < buffer_size rb < 32768;
  rb_pool : buffer_size rb <= Z.of_nat (length (buffer_ptr rb));
  rb_read : 0 <= read_index rb < buffer_size rb /\ 0 <= read_mirror rb < 2;
  rb_write : 0 <= write_index rb < buffer_size rb /\ 0 <= write_mirror rb < 2;
  rb_order : if mirrored rb then write_index rb <= read_index rb
             else read_index rb <= write_index rb }.

(** How many bytes there are. *)
Definition count (rb : rt_ringbuffer) : Z :=
  write_index rb - read_index rb + if mirrored rb then buffer_size rb else 0.

Lemma data_len_count rb : rb_ok rb -> rt_ringbuffer_data_len rb = count rb.
Proof.
  intros [H1 H2 [H3 _] [H4 _] H5]. unfold rt_ringbuffer_data_len, rt_ringbuffer_status, count, mirrored in *.
  wraps. destruct (Z.eqb_spec (read_index rb) (write_index rb)),
    (Z.eqb_spec (read_mirror rb) (write_mirror rb)); cbn [negb] in *;
    try destruct (Z.ltb_spec (read_index rb) (write_index rb));
    rewrite ?Z.mod_small by lia; lia.
Qed.

Lemma count_bound rb : rb_ok rb -> 0 <= count rb <= buffer_size rb.
Proof. intros [H1 H2 [H3 _] [H4 _] H5]. unfold count. case_match; lia. Qed.

Lemma space_len_count rb : rb_ok rb -> rt_ringbuffer_space_len rb = buffer_size rb - count rb.
Proof.
  intros Hr. unfold rt_ringbuffer_space_len. rewrite data_len_count by done.
  pose proof (count_bound rb Hr). destruct Hr. wraps. apply Z.mod_small. lia.
Qed.

Lemma write_position rb : rb_ok rb ->
  write_index rb = (read_index rb + count rb) mod buffer_size rb.
Proof.
  intros [H1 H2 [H3 _] [H4 _] H5]. unfold count. case_match.
  - replace (_ + _) with (write_index rb + 1 * buffer_size rb) by lia.
    by rewrite Z_mod_plus_full, Z.mod_small.
  - rewrite Z.mod_small; lia.
Qed.

Lemma bytes_length rb : rb_ok rb -> Z.of_nat (length (bytes rb)) = count rb.
Proof.
  intros Hr. unfold bytes. rewrite ring_length, data_len_count by done.
  pose proof (count_bound rb Hr). lia.
Qed.

(** The bytes wrap around the end of the pool when they reach it. *)
Lemma mirrored_reach rb : rb_ok rb -> mirrored rb = (buffer_size rb <=? read_index rb + count rb).
Proof.
  intros [H1 H2 [H3 _] [H4 _] H5]. unfold count. destruct (mirrored rb), (Z.leb_spec (buffer_size rb) (read_index rb + (write_index rb - read_index rb + buffer_size rb))),
    (Z.leb_spec (buffer_size rb) (read_index rb + (write_index rb - read_index rb + 0))); try done; lia.
Qed.

(** * Moving the indices *)
Definition advance_write (n : Z) (rb : rt_ringbuffer) : rt_ringbuffer :=
  if n <? buffer_size rb - write_index rb then set_write_index (write_index rb + n) rb
  else set_write_index (n - (buffer_size rb - write_index rb))
         (set_write_mirror (Z.lnot (write_mirror rb)) rb).
Definition advance_read (n : Z) (rb : rt_ringbuffer) : rt_ringbuffer :=
  if n <? buffer_size rb - read_index rb then set_read_index (read_index rb + n) rb
  else set_read_index (n - (buffer_size rb - read_index rb))
         (set_read_mirror (Z.lnot (read_mirror rb)) rb).

Lemma flip_bit m : 0 <= m < 2 -> Z.lnot m mod 2 = 1 - m.
Proof. intros H. unfold Z.lnot. assert (m = 0 \/ m = 1) as [-> | ->] by lia; done. Qed.

Lemma advance_write_ok n rb :
  rb_ok rb -> 0 <= n -> count rb + n <= buffer_size rb ->
  rb_ok (advance_write n rb) /\ count (advance_write n rb) = count rb + n.
Proof.
  intros [H1 H2 [H3 H6] [H4 H7] H5] Hn. unfold count, advance_write, mirrored in *.
  change (2 ^ 15) with 32768.
  destruct (Z.ltb_spec n (buffer_size rb - write_index rb)); intros Hc.
  - cbn. change (2 ^ 15) with 32768. rewrite Z.mod_small by lia.
    split; [|case_match; lia]. split; cbn; unfold mirrored in *; cbn; try done;
      change (2 ^ 15) with 32768; rewrite Z.mod_small by lia; case_match; lia.
  - cbn. change (2 ^ 15) with 32768. rewrite flip_bit by lia.
    destruct (Z.eqb_spec (read_mirror rb) (write_mirror rb)),
      (Z.eqb_spec (read_mirror rb) (1 - write_mirror rb)); cbn [negb] in *; try lia.
    rewrite Z.mod_small by lia. split; [|lia].
    split; cbn; unfold mirrored; cbn; try done; change (2 ^ 15) with 32768;
      rewrite ?flip_bit, ?Z.mod_small by lia; try lia. case_match; lia.
Qed.

Lemma advance_read_ok n rb :
  rb_ok rb -> 0 <= n <= count rb ->
  rb_ok (advance_read n rb) /\ count (advance_read n rb) = count rb - n.
Proof.
  intros [H1 H2 [H3 H6] [H4 H7] H5]. unfold count, advance_read, mirrored in *.
  change (2 ^ 15) with 32768.
  destruct (Z.ltb_spec n (buffer_size rb - read_index rb)); intros Hc.
  - cbn. change (2 ^ 15) with 32768. rewrite Z.mod_small by lia.
    split; [|case_match; lia]. split; cbn; unfold mirrored in *; cbn; try done;
      change (2 ^ 15) with 32768; rewrite Z.mod_small by lia; case_match; lia.
  - cbn. change (2 ^ 15) with 32768. rewrite flip_bit by lia.
    destruct (Z.eqb_spec (read_mirror rb) (write_mirror rb)),
      (Z.eqb_spec (1 - read_mirror rb) (write_mirror rb)); cbn [negb] in *; try lia.
    rewrite Z.mod_small by lia. split; [|lia].
    split; cbn; unfold mirrored; cbn; try done; change (2 ^ 15) with 32768;
      rewrite ?flip_bit, ?Z.mod_small by lia; try lia. case_match; lia.
Qed.

Definition write_bytes (vs : list Z) (rb : rt_ringbuffer) : rt_ringbuffer :=
  advance_write (Z.of_nat (length vs))
    (set_buffer_ptr (store (buffer_ptr rb) (buffer_size rb) (write_index rb) vs) rb).

Lemma advance_write_fields n rb :
  buffer_ptr (advance_write n rb) = buffer_ptr rb /\
  buffer_size (advance_write n rb) = buffer_size rb /\
  read_index (advance_write n rb) = read_index rb /\
  read_mirror (advance_write n rb) = read_mirror rb.
Proof. unfold advance_write. by case_match. Qed.
Lemma advance_read_fields n rb :
  buffer_ptr (advance_read n rb) = buffer_ptr rb /\
  buffer_size (advance_read n rb) = buffer_size rb.
Proof. unfold advance_read. by case_match. Qed.

Lemma stored_ok rb vs : rb_ok rb -> Z.of_nat (length vs) <= buffer_size rb ->
  rb_ok (set_buffer_ptr (store (buffer_ptr rb) (buffer_size rb) (write_index rb) vs) rb).
Proof.
  intros [H1 H2 [H3 H6] [H4 H7] H5] Hn. split; try done. cbn. rewrite store_length; lia.
Qed.

Lemma write_bytes_ok rb vs :
  rb_ok rb -> count rb + Z.of_nat (length vs) <= buffer_size rb ->
  rb_ok (write_bytes vs rb) /\ bytes (write_bytes vs rb) = bytes rb ++ vs /\
  buffer_size (write_bytes vs rb) = buffer_size rb /\ read_index (write_bytes vs rb) = read_index rb.
Proof.
  intros Hr Hn. pose proof (count_bound rb Hr) as Hc.
  pose proof (stored_ok rb vs Hr ltac:(lia)) as Hs.
  destruct (advance_write_ok (Z.of_nat (length vs)) _ Hs) as [Ho E]; [lia|exact Hn|].
  destruct (advance_write_fields (Z.of_nat (length vs))
    (set_buffer_ptr (store (buffer_ptr rb) (buffer_size rb) (write_index rb) vs) rb))
    as (E1 & E2 & E3 & _).
  split; [done|]. split; [|done]. unfold bytes. rewrite !data_len_count by done.
  unfold write_bytes. rewrite E, E1, E2, E3. cbn [buffer_ptr set_buffer_ptr buffer_size read_index].
  change (count (set_buffer_ptr _ rb)) with (count rb). rewrite (write_position rb Hr).
  apply ring_store; try lia; apply Hr.
Qed.

Lemma advance_read_index rb n : rb_ok rb -> 0 <= n <= count rb ->
  read_index (advance_read n rb) = (read_index rb + n) mod buffer_size rb.
Proof.
  intros Hr Hn. pose proof (count_bound rb Hr) as Hc. destruct Hr as [H1 H2 [H3 H6] [H4 H7] H5]. unfold advance_read.
  destruct (Z.ltb_spec n (buffer_size rb - read_index rb)); cbn [read_index set_read_index set_read_mirror];
    change (2 ^ 15) with 32768; rewrite (Z.mod_small _ 32768) by lia.
  - symmetry. apply Z.mod_small. lia.
  - rewrite <-(Z_mod_plus_full (_ + _) (-1)). symmetry. rewrite Z.mod_small; lia.
Qed.

Lemma read_bytes_ok rb n : rb_ok rb -> 0 <= n <= count rb ->
  rb_ok (advance_read n rb) /\ bytes (advance_read n rb) = drop (Z.to_nat n) (bytes rb) /\
  buffer_size (advance_read n rb) = buffer_size rb /\
  read_index (advance_read n rb) = (read_index rb + n) mod buffer_size rb.
Proof.
  intros Hr Hn. pose proof (count_bound rb Hr) as Hc.
  destruct (advance_read_ok n rb Hr Hn) as [Ho E].
  destruct (advance_read_fields n rb) as [E1 E2].
  assert (Ei : read_index (advance_read n rb) = (read_index rb + n) mod buffer_size rb) by by apply advance_read_index.
  split_and!; [done| |done|done]. unfold bytes. rewrite !data_len_count by done.
  rewrite E, E1, E2, Ei. by rewrite <-ring_drop by (destruct Hr; lia).
Qed.

(** * The copies *)
Lemma wp_copy_in dst ptr src n rb (Q : unit -> rt_ringbuffer -> Prop) :
  0 <= dst -> 0 <= src -> 0 <= n -> dst + n <= Z.of_nat (length (buffer_ptr rb)) ->
  src + n <= Z.of_nat (length ptr) ->
  Q tt (set_buffer_ptr (blit (buffer_ptr rb) (Z.to_nat dst)
    (take (Z.to_nat n) (drop (Z.to_nat src) ptr))) rb) ->
  wp (copy_in dst ptr src n) Q rb.
Proof.
  intros H1 H2 H3 H4 H5 HQ. unfold copy_in. wp_steps; [|done].
  rewrite !andb_true_iff, !Z.leb_le. lia.
Qed.

Lemma wp_copy_out src n rb (Q : list Z -> rt_ringbuffer -> Prop) :
  0 <= src -> 0 <= n -> src + n <= Z.of_nat (length (buffer_ptr rb)) ->
  Q (take (Z.to_nat n) (drop (Z.to_nat src) (buffer_ptr rb))) rb ->
  wp (copy_out src n) Q rb.
Proof.
  intros H1 H2 H3 HQ. unfold copy_out. wp_steps; [|done]. rewrite !andb_true_iff, !Z.leb_le. lia.
Qed.

Lemma wp_put_bytes ptr n rb (Q : bool -> rt_ringbuffer -> Prop) :
  rb_ok rb -> 0 <= n <= buffer_size rb -> n <= Z.of_nat (length ptr) ->
  Q (negb (n <? buffer_size rb - write_index rb)) (write_bytes (take (Z.to_nat n) ptr) rb) ->
  wp (put_bytes ptr n) Q rb.
Proof.
  intros [H1 H2 [H3 H6] [H4 H7] H5] Hn Hl. unfold put_bytes, write_bytes, store, advance_write.
  rewrite length_take, Nat.min_l, Z2Nat.id by lia. cbn [buffer_size write_index set_buffer_ptr].
  destruct (Z.ltb_spec n (buffer_size rb - write_index rb)) as [Hlt|Hge]; intros HQ; wp_steps.
  - assert (n <? buffer_size rb - write_index rb = true) as -> by lia. apply wp_bind.
    apply wp_copy_in; try lia. wp_steps. exact HQ.
  - assert (n <? buffer_size rb - write_index rb = false) as -> by lia. apply wp_bind.
    apply wp_copy_in; try lia. apply wp_bind. apply wp_copy_in; try lia.
    + cbn [buffer_ptr set_buffer_ptr]. rewrite blit_length; [lia|].
      rewrite length_take, length_drop. lia.
    + wp_steps. cbn in HQ |- *.
      rewrite take_take, Nat.min_l in HQ by lia. rewrite skipn_firstn_comm in HQ.
      replace (Z.to_nat (n - (buffer_size rb - write_index rb))) with
        (Z.to_nat n - Z.to_nat (buffer_size rb - write_index rb))%nat by lia.
      exact HQ.
Qed.

(** * The operations *)
Definition cap_min (a b : Z) : Z := if a <? b then a else b.

Lemma wp_put ptr n rb : rb_ok rb -> 0 <= n < 65536 -> n <= Z.of_nat (length ptr) ->
  wp (rt_ringbuffer_put ptr n) (fun r rb' =>
    r = cap_min (buffer_size rb - count rb) n /\ rb_ok rb' /\
    buffer_size rb' = buffer_size rb /\ bytes rb' = bytes rb ++ take (Z.to_nat r) ptr /\
    read_index rb' = read_index rb) rb.
Proof.
  intros Hr Hn Hl. unfold rt_ringbuffer_put. wp_steps. rewrite space_len_count by done.
  pose proof (count_bound rb Hr) as Hc. pose proof (rb_size rb Hr) as Hs.
  unfold u16. rewrite Z.mod_small by (change (2 ^ 16) with 65536; lia).
  destruct (Z.eqb_spec (buffer_size rb - count rb) 0) as [E|E].
  - wp_steps. split_and!; [|done|done|by rewrite app_nil_r|done].
    unfold cap_min. rewrite E. destruct (Z.ltb_spec 0 n); lia.
  - fold (cap_min (buffer_size rb - count rb) n).
    set (m := cap_min _ _). assert (Hm : 0 <= m <= n /\ m <= buffer_size rb - count rb).
    { unfold m, cap_min. case_match; lia. }
    apply wp_bind, (wp_put_bytes ptr m rb); [done|lia|lia|]. wp_steps.
    destruct (write_bytes_ok rb (take (Z.to_nat m) ptr) Hr) as (H1 & H2 & H3 & H4);
      [rewrite length_take; lia|done].
Qed.

Lemma wp_get_bytes n rb : rb_ok rb -> 0 <= n < 65536 ->
  wp (rt_ringbuffer_get n) (fun r rb' =>
    r = (cap_min (count rb) n, take (Z.to_nat n) (bytes rb)) /\ rb_ok rb' /\
    buffer_size rb' = buffer_size rb /\ bytes rb' = drop (Z.to_nat n) (bytes rb) /\
    read_index rb' = (read_index rb + cap_min (count rb) n) mod buffer_size rb) rb.
Proof.
  intros Hr Hn. unfold rt_ringbuffer_get. wp_steps. rewrite data_len_count by done.
  pose proof (count_bound rb Hr) as Hc. pose proof (rb_size rb Hr) as Hs.
  pose proof (bytes_length rb Hr) as Hb.
  destruct (Z.eqb_spec (count rb) 0) as [E|E].
  - wp_steps. rewrite E. destruct (bytes rb) as [|b l]; [|cbn in Hb; lia].
    rewrite take_nil, drop_nil. assert (Em : cap_min 0 n = 0) by (unfold cap_min; destruct (Z.ltb_spec 0 n); lia).
    rewrite Em, Z.add_0_r, Z.mod_small by apply Hr. by split_and!.
  - rewrite u16_small by lia. fold (cap_min (count rb) n). set (m := cap_min _ _).
    assert (Hm : 0 <= m <= n /\ m <= count rb) by (unfold m, cap_min; case_match; lia).
    assert (Et : take (Z.to_nat n) (bytes rb) = take (Z.to_nat m) (bytes rb) /\
      drop (Z.to_nat n) (bytes rb) = drop (Z.to_nat m) (bytes rb)).
    { unfold m, cap_min. destruct (Z.ltb_spec (count rb) n); [|done].
      rewrite !take_ge, !drop_ge by lia. done. }
    destruct Et as [-> ->].
    assert (Hring := ring_take (buffer_ptr rb) (buffer_size rb) (read_index rb) (count rb) m).
    destruct (read_bytes_ok rb m Hr) as (H1 & H2 & H3 & H4); [lia|].
    pose proof (rb_read rb Hr) as [Hri _]. pose proof (rb_pool rb Hr) as Hp.
    assert (Eb : bytes rb = ring (buffer_ptr rb) (buffer_size rb) (read_index rb) (count rb))
      by (unfold bytes; by rewrite data_len_count).
    rewrite <-Eb in Hring. rewrite Hring by lia. clear Hring.
    unfold advance_read in H1, H2, H3, H4.
    destruct (Z.ltb_spec m (buffer_size rb - read_index rb)).
    + wp_steps. apply wp_copy_out; [lia..|]. by wp_steps.
    + wp_steps. apply wp_copy_out; [lia..|]. wp_steps. apply wp_copy_out; [lia..|]. by wp_steps.
Qed.

(** Storing one byte is the same as putting a block of one. *)
Lemma write_one ch rb : rb_ok rb ->
  write_bytes [ch] rb = advance_write 1
    (set_buffer_ptr (<[Z.to_nat (write_index rb) := ch]> (buffer_ptr rb)) rb).
Proof. intros [H1 H2 H3 [H4 _] H5]. unfold write_bytes. by rewrite store_one by lia. Qed.

Lemma advance_write_one rb : rb_ok rb -> advance_write 1 rb =
  if write_index rb =? buffer_size rb - 1 then
    set_write_index 0 (set_write_mirror (Z.lnot (write_mirror rb)) rb)
  else set_write_index (write_index rb + 1) rb.
Proof.
  intros [H1 H2 H3 [H4 _] H5]. unfold advance_write.
  destruct (Z.ltb_spec 1 (buffer_size rb - write_index rb)),
    (Z.eqb_spec (write_index rb) (buffer_size rb - 1)); try lia; try done. f_equal. lia.
Qed.
Lemma advance_read_one rb : rb_ok rb -> advance_read 1 rb =
  if read_index rb =? buffer_size rb - 1 then
    set_read_index 0 (set_read_mirror (Z.lnot (read_mirror rb)) rb)
  else set_read_index (read_index rb + 1) rb.
Proof.
  intros [H1 H2 [H3 _] H4 H5]. unfold advance_read.
  destruct (Z.ltb_spec 1 (buffer_size rb - read_index rb)),
    (Z.eqb_spec (read_index rb) (buffer_size rb - 1)); try lia; try done. f_equal. lia.
Qed.

Lemma wp_store_char ch rb (Q : unit -> rt_ringbuffer -> Prop) : rb_ok rb ->
  Q tt (set_buffer_ptr (<[Z.to_nat (write_index rb) := ch]> (buffer_ptr rb)) rb) ->
  wp (store_char ch) Q rb.
Proof.
  intros [H1 H2 H3 [H4 _] H5] HQ. unfold store_char. wp_steps; [|done]. lia.
Qed.

Lemma wp_putchar ch rb : rb_ok rb ->
  wp (rt_ringbuffer_putchar ch) (fun r rb' =>
    rb_ok rb' /\ buffer_size rb' = buffer_size rb /\
    if count rb =? buffer_size rb then r = 0 /\ rb' = rb
    else r = 1 /\ bytes rb' = bytes rb ++ [ch] /\ read_index rb' = read_index rb) rb.
Proof.
  intros Hr. unfold rt_ringbuffer_putchar. wp_steps. rewrite space_len_count by done.
  pose proof (count_bound rb Hr) as Hc.
  destruct (Z.eqb_spec (buffer_size rb - count rb) 0), (Z.eqb_spec (count rb) (buffer_size rb));
    try lia; [by wp_steps|].
  destruct (write_bytes_ok rb [ch] Hr) as (H1 & H2 & H3 & H4); [cbn; lia|].
  rewrite write_one in H1, H2, H3, H4 by done. apply wp_bind, wp_store_char; [done|]. apply wp_bind.
  set (rb1 := set_buffer_ptr _ rb) in *.
  assert (Hr1 : rb_ok rb1).
  { destruct Hr as [K1 K2 K3 K4 K5]. split; try done. cbn. by rewrite length_insert. }
  rewrite advance_write_one in H1, H2, H3, H4 by done.
  change (write_index rb) with (write_index rb1).
  change (buffer_size rb) with (buffer_size rb1) in H1, H2, H3, H4 |- *.
  case_match; by wp_steps.
Qed.

Lemma wp_getchar rb : rb_ok rb ->
  wp rt_ringbuffer_getchar (fun r rb' =>
    rb_ok rb' /\ buffer_size rb' = buffer_size rb /\
    match bytes rb with
    | [] => r = (0, None) /\ rb' = rb
    | ch :: l => r = (1, Some ch) /\ bytes rb' = l /\ read_index rb' = (read_index rb + 1) mod buffer_size rb
    end) rb.
Proof.
  intros Hr. unfold rt_ringbuffer_getchar. wp_steps. rewrite data_len_count by done.
  pose proof (count_bound rb Hr) as Hc. pose proof (bytes_length rb Hr) as Hb.
  destruct (Z.eqb_spec (count rb) 0) as [E|E].
  - wp_steps. destruct (bytes rb); [done|]. cbn in Hb. lia.
  - destruct (read_bytes_ok rb 1 Hr) as (H1 & H2 & H3 & H4); [lia|].
    pose proof (rb_read rb Hr) as [Hri _]. pose proof (rb_pool rb Hr) as Hp.
    assert (Hch : bytes rb !! 0%nat = buffer_ptr rb !! Z.to_nat (read_index rb)).
    { unfold bytes. rewrite data_len_count, ring_get, slot_0 by (done || lia). cbn.
      symmetry. apply list_lookup_lookup_total_lt. lia. }
    destruct (bytes rb) as [|ch l]; [cbn in Hb; lia|]. cbn in Hch.
    apply wp_bind, (wp_ofopt _ ch); [done|]. rewrite advance_read_one in H1, H2, H3, H4 by done.
    case_match; by wp_steps.
Qed.

Lemma rb_eq (a b : rt_ringbuffer) :
  buffer_ptr a = buffer_ptr b -> read_mirror a = read_mirror b -> read_index a = read_index b ->
  write_mirror a = write_mirror b -> write_index a = write_index b ->
  buffer_size a = buffer_size b -> a = b.
Proof. destruct a, b; cbn; congruence. Qed.

(** Writing over the oldest bytes while both indices move: the oldest bytes
    are dropped first, then the new ones are written. *)
Definition overwrite (vs : list Z) (rb : rt_ringbuffer) : rt_ringbuffer :=
  let rb' := write_bytes vs rb in
  let d := count rb + Z.of_nat (length vs) - buffer_size rb in
  if 0 <? d then
    set_read_index (write_index rb')
      (if Z.of_nat (length vs) <? buffer_size rb - write_index rb then rb'
       else set_read_mirror (Z.lnot (read_mirror rb')) rb')
  else rb'.

Lemma overwrite_drops vs rb :
  rb_ok rb -> mirrored rb = true -> Z.of_nat (length vs) <= buffer_size rb ->
  let d := count rb + Z.of_nat (length vs) - buffer_size rb in
  0 < d -> overwrite vs rb = write_bytes vs (advance_read d rb).
Proof.
  intros [H1 H2 [H3 H6] [H4 H7] H5] Hm Hn d Hd. unfold overwrite. fold d.
  assert (0 <? d = true) as -> by lia.
  assert (Ed : d = write_index rb - read_index rb + Z.of_nat (length vs))
    by (unfold d, count; rewrite Hm; lia). rewrite Hm in H5. clearbody d.
  unfold write_bytes, advance_write, advance_read.
  destruct (Z.ltb_spec d (buffer_size rb - read_index rb)); cbn;
    destruct (Z.ltb_spec (Z.of_nat (length vs)) (buffer_size rb - write_index rb)); try lia;
    apply rb_eq; cbn; try done; change (2 ^ 15) with 32768; rewrite ?Z.mod_mod, ?Z.mod_small by lia; lia.
Qed.

Lemma overwrite_ok vs rb :
  rb_ok rb -> mirrored rb = true -> Z.of_nat (length vs) <= buffer_size rb ->
  let d := count rb + Z.of_nat (length vs) - buffer_size rb in
  rb_ok (overwrite vs rb) /\ buffer_size (overwrite vs rb) = buffer_size rb /\
  bytes (overwrite vs rb) = drop (Z.to_nat d) (bytes rb) ++ vs /\
  read_index (overwrite vs rb) = if 0 <? d then (read_index rb + d) mod buffer_size rb else read_index rb.
Proof.
  intros Hr Hm Hn d. pose proof (count_bound rb Hr) as Hc. destruct (decide (0 < d)) as [Hd|Hd].
  - rewrite overwrite_drops by done. fold d. assert (0 <? d = true) as -> by lia.
    destruct (read_bytes_ok rb d Hr) as (H1 & H2 & H3 & H4); [lia|].
    destruct (advance_read_ok d rb Hr) as [_ Ec]; [lia|].
    destruct (write_bytes_ok (advance_read d rb) vs H1) as (K1 & K2 & K3 & K4); [lia|].
    rewrite K2, K3, K4, H2. done.
  - unfold overwrite. fold d. assert (0 <? d = false) as -> by lia.
    replace (Z.to_nat d) with 0%nat by lia. rewrite drop_0.
    destruct (write_bytes_ok rb vs Hr) as (H1 & H2 & H3 & H4); [lia|]. done.
Qed.

(** With old bytes in front of the wrap, both mirrors flip and the buffer ends
    up empty. *)
Lemma overwrite_loses vs rb :
  rb_ok rb -> mirrored rb = false -> Z.of_nat (length vs) <= buffer_size rb ->
  0 < count rb + Z.of_nat (length vs) - buffer_size rb ->
  rb_ok (overwrite vs rb) /\ buffer_size (overwrite vs rb) = buffer_size rb /\
  bytes (overwrite vs rb) = [] /\
  read_index (overwrite vs rb) = (read_index rb + (count rb + Z.of_nat (length vs) - buffer_size rb)) mod buffer_size rb.
Proof.
  intros Hr Hm Hn Hd. pose proof Hr as [H1 H2 [H3 H6] [H4 H7] H5].
  assert (Ho : rb_ok (overwrite vs rb) /\ count (overwrite vs rb) = 0 /\
    buffer_size (overwrite vs rb) = buffer_size rb).
  { unfold overwrite. assert (0 <? _ = true) as -> by lia.
    unfold count in Hd. rewrite Hm in *. unfold write_bytes, advance_write.
    cbn [buffer_size write_index set_buffer_ptr].
    destruct (Z.ltb_spec (Z.of_nat (length vs)) (buffer_size rb - write_index rb)); [lia|].
    unfold mirrored in Hm. apply negb_false_iff, Z.eqb_eq in Hm.
    split_and!; [|unfold count, mirrored|]; cbn; change (2 ^ 15) with 32768;
      rewrite ?Z.mod_small, ?flip_bit, ?Hm, ?Z.eqb_refl by (try apply Z.mod_pos_bound; lia);
      cbn; try lia.
    split; cbn; unfold mirrored; cbn; change (2 ^ 15) with 32768;
      rewrite ?Z.mod_small, ?flip_bit, ?Hm, ?Z.eqb_refl by (try apply Z.mod_pos_bound; lia);
      cbn; try lia. by rewrite store_length by lia. }
  destruct Ho as (Ho & Ec & Es). split_and!; [done|done| |].
  - unfold bytes. by rewrite data_len_count, Ec.
  - revert Hd. unfold overwrite, count. rewrite Hm. intros Hd. assert (0 <? _ = true) as -> by lia.
    unfold write_bytes, advance_write. cbn [buffer_size write_index set_buffer_ptr].
    destruct (Z.ltb_spec (Z.of_nat (length vs)) (buffer_size rb - write_index rb)); [lia|].
    cbn. change (2 ^ 15) with 32768. rewrite Z.mod_mod, !Z.mod_small by lia. lia.
Qed.

Lemma wp_put_force ptr n rb (Q : Z -> rt_ringbuffer -> Prop) :
  rb_ok rb -> 0 <= n < 65536 -> n <= Z.of_nat (length ptr) ->
  let m := cap_min (buffer_size rb) n in
  let vs := take (Z.to_nat m) (drop (Z.to_nat (n - buffer_size rb)) ptr) in
  Q m (overwrite vs rb) -> wp (rt_ringbuffer_put_force ptr n) Q rb.
Proof.
  intros Hr Hn Hl m vs HQ. unfold rt_ringbuffer_put_force. wp_steps.
  rewrite space_len_count by done. pose proof (count_bound rb Hr) as Hc.
  pose proof (rb_size rb Hr) as Hs. rewrite u16_small by lia.
  fold (cap_min (buffer_size rb) n). fold m.
  assert (Hm : 0 <= m <= buffer_size rb /\ m <= n) by (unfold m, cap_min; case_match; lia).
  assert (Ep : (if buffer_size rb <? n then drop (Z.to_nat (n - buffer_size rb)) ptr else ptr) =
    drop (Z.to_nat (n - buffer_size rb)) ptr).
  { destruct (Z.ltb_spec (buffer_size rb) n); [done|].
    by replace (Z.to_nat (n - buffer_size rb)) with 0%nat by lia. }
  rewrite Ep. assert (Hlen : m <= Z.of_nat (length (drop (Z.to_nat (n - buffer_size rb)) ptr))).
  { rewrite length_drop. unfold m, cap_min in *. case_match; lia. }
  apply (wp_put_bytes _ m rb); [done|lia|done|]. fold vs. wp_steps.
  assert (Ev : Z.of_nat (length vs) = m) by (unfold vs; rewrite length_take; lia).
  unfold overwrite in HQ. rewrite Ev in HQ.
  destruct (Z.ltb_spec (buffer_size rb - count rb) m), (Z.ltb_spec 0 (count rb + m - buffer_size rb));
    try lia; [|by wp_steps].
  destruct (Z.ltb_spec m (buffer_size rb - write_index rb)); cbn [negb]; by wp_steps.
Qed.

Lemma wp_putchar_force ch rb : rb_ok rb ->
  wp (rt_ringbuffer_putchar_force ch) (fun r rb' => r = 1 /\
    rb_ok rb' /\ buffer_size rb' = buffer_size rb /\
    bytes rb' = (if count rb =? buffer_size rb then drop 1 (bytes rb) else bytes rb) ++ [ch] /\
    read_index rb' = if count rb =? buffer_size rb then (read_index rb + 1) mod buffer_size rb else read_index rb) rb.
Proof.
  intros Hr. pose proof (count_bound rb Hr) as Hc. pose proof Hr as [H1 H2 [H3 H6] [H4 H7] H5].
  assert (Hrb : wp (rt_ringbuffer_putchar_force ch) (fun r rb' => r = 1 /\ rb' = overwrite [ch] rb) rb).
  { unfold rt_ringbuffer_putchar_force. wp_steps. apply wp_store_char; [done|]. apply wp_bind.
    unfold overwrite. rewrite write_one by done. set (rb1 := set_buffer_ptr _ rb).
    assert (Hr1 : rb_ok rb1).
    { split; try done. cbn. by rewrite length_insert. }
    rewrite advance_write_one by done. change (Z.of_nat (length [ch])) with 1.
    assert (Hf : match rt_ringbuffer_status rb with RT_RINGBUFFER_FULL => true | _ => false end =
      (0 <? count rb + 1 - buffer_size rb)).
    { unfold rt_ringbuffer_status, count, mirrored in *.
      destruct (Z.eqb_spec (read_index rb) (write_index rb)),
        (Z.eqb_spec (read_mirror rb) (write_mirror rb)); cbn [negb] in *; lia. }
    assert (Hw1 : write_index rb1 < buffer_size rb1) by (cbn; lia).
    rewrite Hf. change (write_index rb) with (write_index rb1).
    change (buffer_size rb) with (buffer_size rb1).
    destruct (Z.eqb_spec (write_index rb1) (buffer_size rb1 - 1)),
      (Z.ltb_spec 1 (buffer_size rb1 - write_index rb1)); try lia;
      destruct (0 <? _); by wp_steps. }
  eapply wp_mono; [exact Hrb|]. intros r rb' [-> ->]. split; [done|].
  destruct (Z.eqb_spec (count rb) (buffer_size rb)) as [E|E].
  - assert (Hm : mirrored rb = true).
    { unfold count in E. destruct (mirrored rb); [done|lia]. }
    destruct (overwrite_ok [ch] rb Hr Hm) as (K1 & K2 & K3 & K4); [cbn; lia|].
    rewrite E in K3, K4. replace (Z.to_nat _) with 1%nat in K3 by (cbn; lia).
    replace (buffer_size rb + Z.of_nat (length [ch]) - buffer_size rb) with 1 in K4 by (cbn; lia). done.
  - unfold overwrite. assert (0 <? count rb + Z.of_nat (length [ch]) - buffer_size rb = false)
      as -> by (change (Z.of_nat (length [ch])) with 1; lia).
    destruct (write_bytes_ok rb [ch] Hr) as (K1 & K2 & K3 & K4);
      [change (Z.of_nat (length [ch])) with 1; lia|done].
Qed.

(** [rt_ringbuffer_put_force] keeps the newest bytes, as many as the
    buffer holds, and drops the oldest - but only when the bytes in the buffer
    already reach its end.  When they do not, a call that overwrites
    any of them flips both mirror bits and leaves the buffer empty: the bytes
    just put are lost with the old ones. *)
Lemma rt_ringbuffer_put_force_loses ptr n rb :
  rb_ok rb -> 0 <= n < 65536 -> n <= Z.of_nat (length ptr) ->
  let m := cap_min (buffer_size rb) n in
  let vs := take (Z.to_nat m) (drop (Z.to_nat (n - buffer_size rb)) ptr) in
  let lost := count rb + m - buffer_size rb in
  wp (rt_ringbuffer_put_force ptr n) (fun r rb' =>
    r = m /\ rb_ok rb' /\ buffer_size rb' = buffer_size rb /\
    bytes rb' = (if (0 <? lost) && (read_index rb + count rb <? buffer_size rb) then []
                 else drop (Z.to_nat lost) (bytes rb) ++ vs) /\
    read_index rb' = if 0 <? lost then (read_index rb + lost) mod buffer_size rb else read_index rb) rb.
Proof.
  intros Hr Hn Hl m vs lost. pose proof (rb_size rb Hr) as Hs.
  assert (Ev : Z.of_nat (length vs) = m).
  { unfold vs. rewrite length_take, length_drop. unfold m, cap_min in *. case_match; lia. }
  assert (Hm : m <= buffer_size rb) by (unfold m, cap_min; case_match; lia).
  apply (wp_put_force ptr n rb); [done|done|done|]. fold m vs. split; [done|].
  assert (Ereach : (read_index rb + count rb <? buffer_size rb) = negb (mirrored rb)).
  { rewrite mirrored_reach by done. by rewrite Z.ltb_antisym. }
  rewrite Ereach. destruct (mirrored rb) eqn:Emi.
  - rewrite andb_false_r. destruct (overwrite_ok vs rb Hr Emi) as (H1 & H2 & H3 & H4); [lia|].
    rewrite Ev in H3, H4. fold lost in H3, H4. done.
  - destruct (Z.ltb_spec 0 lost) as [Hlo|Hlo]; cbn [andb negb].
    + replace lost with (count rb + Z.of_nat (length vs) - buffer_size rb) by (by rewrite Ev).
      apply overwrite_loses; [done|done|lia|]. rewrite Ev. exact Hlo.
    + unfold overwrite. rewrite Ev. fold lost. assert (0 <? lost = false) as -> by lia.
      replace (Z.to_nat lost) with 0%nat by lia. rewrite drop_0.
      destruct (write_bytes_ok rb vs Hr) as (H1 & H2 & H3 & H4); [unfold lost in *; lia|done].
Qed.

(** * The ring buffer as a bounded queue *)
Inductive rb_op :=
  | Put (ptr : list Z) (length : Z)
  | PutForce (ptr : list Z) (length : Z)
  | PutChar (ch : Z)
  | PutCharForce (ch : Z)
  | Get (length : Z)
  | GetChar
  | Reset.

(** The number returned, and the bytes stored for the caller. *)
Abbreviation rb_result := (Z * list Z)%type (only parsing).

Definition run_op (op : rb_op) : M rt_ringbuffer (Z * list Z) :=
  match op with
  | Put ptr n => r ← rt_ringbuffer_put ptr n; mret (r, [])
  | PutForce ptr n => r ← rt_ringbuffer_put_force ptr n; mret (r, [])
  | PutChar ch => r ← rt_ringbuffer_putchar ch; mret (r, [])
  | PutCharForce ch => r ← rt_ringbuffer_putchar_force ch; mret (r, [])
  | Get n => rt_ringbuffer_get n
  | GetChar => '(r, ch) ← rt_ringbuffer_getchar; mret (r, option_list ch)
  | Reset => rt_ringbuffer_reset;; mret (0, [])
  end.

(** The specification: a queue [q] of at most [size] bytes, the oldest of them at
    place [at_] of the pool.  The place matters to [PutForce] alone: if it drops
    bytes, and the queue does not reach the end of the pool, all bytes are lost. *)
Record bqueue := mkQ { at_ : Z; q_ : list Z }.
Definition queue_op (size : Z) (op : rb_op) (b : bqueue) : (Z * list Z) * bqueue :=
  let q := q_ b in
  let len := Z.of_nat (length q) in
  let space := size - len in
  let onward n := (at_ b + n) mod size in
  match op with
  | Put ptr n => let m := cap_min space n in ((m, []), mkQ (at_ b) (q ++ take (Z.to_nat m) ptr))
  | PutForce ptr n =>
      let m := cap_min size n in
      let newest := take (Z.to_nat m) (drop (Z.to_nat (n - size)) ptr) in
      let lost := len + m - size in
      ((m, []), if 0 <? lost
        then mkQ (onward lost) (if at_ b + len <? size then [] else drop (Z.to_nat lost) q ++ newest)
        else mkQ (at_ b) (q ++ newest))
  | PutChar ch => if space =? 0 then ((0, []), b) else ((1, []), mkQ (at_ b) (q ++ [ch]))
  | PutCharForce ch =>
      ((1, []), if space =? 0 then mkQ (onward 1) (drop 1 q ++ [ch]) else mkQ (at_ b) (q ++ [ch]))
  | Get n => let m := cap_min len n in ((m, take (Z.to_nat n) q), mkQ (onward m) (drop (Z.to_nat n) q))
  | GetChar => match q with [] => ((0, []), b) | ch :: q' => ((1, [ch]), mkQ (onward 1) q') end
  | Reset => ((0, []), mkQ 0 [])
  end.
(** The queue of a ring buffer. *)
Definition queue_of (rb : rt_ringbuffer) : bqueue := mkQ (read_index rb) (bytes rb).

(** The arguments are as the C types and the contract of [ptr] say. *)
Definition op_ok (op : rb_op) : Prop :=
  match op with
  | Put ptr n | PutForce ptr n => 0 <= n < 65536 /\ n <= Z.of_nat (length ptr)
  | Get n => 0 <= n < 65536
  | _ => True
  end.

Fixpoint run_ops (ops : list rb_op) : M rt_ringbuffer (list (Z * list Z)) :=
  match ops with
  | [] => mret []
  | op :: ops => r ← run_op op; rs ← run_ops ops; mret (r :: rs)
  end.
Fixpoint queue_ops (size : Z) (ops : list rb_op) (q : bqueue) : list (Z * list Z) * bqueue :=
  match ops with
  | [] => ([], q)
  | op :: ops =>
      let (r, q1) := queue_op size op q in
      let (rs, q2) := queue_ops size ops q1 in (r :: rs, q2)
  end.

Lemma run_op_refines op rb : rb_ok rb -> op_ok op ->
  wp (run_op op) (fun r rb' => rb_ok rb' /\ buffer_size rb' = buffer_size rb /\
    (r, queue_of rb') = queue_op (buffer_size rb) op (queue_of rb)) rb.
Proof.
  intros Hr Hop. pose proof (bytes_length rb Hr) as Hb. pose proof (count_bound rb Hr) as Hc.
  destruct op as [ptr n|ptr n|ch|ch|n| |]; cbn [run_op queue_op op_ok] in *; unfold queue_of; cbn [q_ at_]; rewrite ?Hb.
  - destruct Hop. apply wp_bind. eapply wp_mono; [by apply wp_put|].
    intros r rb' (-> & H1 & H2 & H3 & H4). wp_steps. by rewrite H3, H4.
  - destruct Hop. apply wp_bind. eapply wp_mono; [by apply rt_ringbuffer_put_force_loses|].
    intros r rb' (-> & H1 & H2 & H3 & H4). wp_steps. rewrite H3, H4.
    destruct (Z.ltb_spec 0 (count rb + cap_min (buffer_size rb) n - buffer_size rb)); cbn [andb]; [done|].
    replace (Z.to_nat (_ - buffer_size rb)) with 0%nat by lia. done.
  - apply wp_bind. eapply wp_mono; [by apply wp_putchar|]. intros r rb' (H1 & H2 & H3). wp_steps.
    destruct (Z.eqb_spec (count rb) (buffer_size rb)), (Z.eqb_spec (buffer_size rb - count rb) 0);
      try lia; [by destruct H3 as [-> ->]|]. by destruct H3 as (-> & -> & ->).
  - apply wp_bind. eapply wp_mono; [by apply wp_putchar_force|].
    intros r rb' (-> & H1 & H2 & H3 & H4). wp_steps. rewrite H3, H4.
    destruct (Z.eqb_spec (count rb) (buffer_size rb)), (Z.eqb_spec (buffer_size rb - count rb) 0);
      try lia; done.
  - eapply wp_mono; [by apply wp_get_bytes|]. by intros r rb' (-> & H1 & H2 & -> & ->).
  - apply wp_bind. eapply wp_mono; [by apply wp_getchar|].
    intros [r ch] rb' (H1 & H2 & H3). wp_steps. destruct (bytes rb) as [|c l] eqn:E.
    + destruct H3 as [[= -> ->] ->]. by rewrite E.
    + destruct H3 as ([= -> ->] & -> & ->). done.
  - wp_steps. destruct Hr as [H1 H2 H3 H4 H5]. split; [|done].
    change (rb_ok (mkRb (buffer_ptr rb) 0 0 0 0 (buffer_size rb))). split; cbn; try done; lia.
Qed.

Lemma run_ops_refine ops rb : rb_ok rb -> Forall op_ok ops ->
  wp (run_ops ops) (fun rs rb' => rb_ok rb' /\ buffer_size rb' = buffer_size rb /\
    (rs, queue_of rb') = queue_ops (buffer_size rb) ops (queue_of rb)) rb.
Proof.
  intros Hr Hops. revert rb Hr.
  induction Hops as [|op ops Hop Hops IH]; intros rb Hr; cbn [run_ops queue_ops]; [by wp_steps|].
  apply wp_bind. eapply wp_mono; [by apply run_op_refines|].
  intros r rb1 (Hr1 & Es1 & E1). apply wp_bind. eapply wp_mono; [by apply IH|].
  intros rs rb2 (Hr2 & Es2 & E2). wp_steps. rewrite <-E1, <-Es1, <-E2, Es2. done.
Qed.

(** A fresh ring buffer. *)
Lemma wp_init pool size rb0 (Q : unit -> rt_ringbuffer -> Prop) :
  8 <= size < 32768 -> size <= Z.of_nat (length pool) ->
  (forall rb, rb_ok rb -> buffer_size rb = 8 * (size / 8) -> queue_of rb = mkQ 0 [] -> Q tt rb) ->
  wp (rt_ringbuffer_init pool size) Q rb0.
Proof.
  intros Hs Hl HQ. unfold rt_ringbuffer_init. wp_steps; [lia|].
  assert (E : RT_ALIGN_DOWN size RT_ALIGN_SIZE = 8 * (size / 8)).
  { unfold RT_ALIGN_DOWN, RT_ALIGN_SIZE. change (8 - 1) with (Z.ones 3).
    rewrite <-Z.ldiff_land, Z.ldiff_ones_r by lia.
    rewrite Z.shiftl_mul_pow2, Z.shiftr_div_pow2 by lia. change (2 ^ 3) with 8. lia. }
  rewrite E. apply HQ; [|done|done]. split; cbn; try done; zmod.
Qed.

(** * Properties *)

(** C37: in every history of calls of [rt_ringbuffer_put], [_put_force],
    [_putchar], [_putchar_force], [_get], [_getchar] and [_reset] on a buffer set
    up by [rt_ringbuffer_init], the calls return what a queue of bytes returns
    whose capacity is the size rounded down to a multiple of 8: bytes come out
    once and in order, puts are cut to the free space, a forced byte drops the
    oldest one, and a forced block is cut to its newest bytes and drops the oldest
    ones - except that, where it has to drop any and the queue does not reach the
    end of the pool, it loses every byte, the new ones too.  The buffer then holds
    the bytes of that queue, at its place in the pool. *)
Theorem rt_ringbuffer_fifo pool size ops rb0 :
  8 <= size < 32768 -> size <= Z.of_nat (length pool) -> Forall op_ok ops ->
  wp (rt_ringbuffer_init pool size;; run_ops ops) (fun rs rb =>
    rb_ok rb /\ (rs, queue_of rb) = queue_ops (8 * (size / 8)) ops (mkQ 0 [])) rb0.
Proof.
  intros Hs Hl Hops. apply wp_bind, wp_init; [done|done|]. intros rb Hr Es Eb.
  eapply wp_mono; [by apply run_ops_refine|]. intros rs rb' (Hr' & _ & E).
  by rewrite <-Es, <-Eb.
Qed.

Definition ex_rb0 : rt_ringbuffer := mkRb [] 0 0 0 0 0.
(** The first forced block finds the queue around the end of the pool, the second not. *)
Lemma rt_ringbuffer_fifo_ex :
  let ops := [Put [1; 2; 3; 4; 5; 6] 6; Get 4; Put [7; 8; 9; 10; 11; 12; 13] 7; PutCharForce 14;
    PutForce [15; 16] 2; Get 99; Reset; PutChar 17; PutForce [18; 19; 20; 21; 22; 23; 24; 25] 8; GetChar] in
  queue_ops 8 ops (mkQ 0 []) = ([(6, []); (4, [1; 2; 3; 4]); (6, []); (1, []); (2, []);
    (8, [8; 9; 10; 11; 12; 14; 15; 16]); (0, []); (1, []); (8, []); (0, [])], mkQ 1 []) /\
  wp (rt_ringbuffer_init (repeat 0 9) 9;; run_ops ops) (fun rs rb =>
    rb_ok rb /\ (rs, queue_of rb) = queue_ops (8 * (9 / 8)) ops (mkQ 0 [])) ex_rb0.
Proof.
  split; [by vm_compute|].
  apply (rt_ringbuffer_fifo (repeat 0 9) 9 _ ex_rb0); [lia|by vm_compute|].
  repeat constructor; by vm_compute.
Defined.
