(* ===== verification/Page.v ===== *)
(** The page allocator of the heap ([rt-thread/src/slab.c]): the list of free
    page blocks, sorted by address, threaded through the first page of each
    block.

    A [struct rt_page_head *] is the number of its page; as the structure is
    one page long, pointer arithmetic is arithmetic on page numbers.  The heap
    semaphore is its value: these operations take it and give it back, and a
    caller that finds it taken waits ([Sem.v]), which is no result here. *)
From S2P Require Import Prelude.

Record rt_page_head := mkPage { page_next : option Z; page : Z }.

Record heap := mkHeap {
  page_heads : Z -> rt_page_head;
  rt_page_list : option Z;
  heap_sem : Z }.

(** A [struct rt_page_head **]: the list head, or the link of a block. *)
Inductive plink := PageList | NextOf (b : Z).

Definition set_page_next (b : Z) (v : option Z) (h : heap) : heap :=
  mkHeap (upd (page_heads h) b (mkPage v (page (page_heads h b)))) (rt_page_list h) (heap_sem h).
Definition set_page (b : Z) (v : Z) (h : heap) : heap :=
  mkHeap (upd (page_heads h) b (mkPage (page_next (page_heads h b)) (u64 v)))
    (rt_page_list h) (heap_sem h).
Definition load (l : plink) (h : heap) : option Z :=
  match l with PageList => rt_page_list h | NextOf b => page_next (page_heads h b) end.
Definition store_link (l : plink) (v : option Z) (h : heap) : heap :=
  match l with
  | PageList => mkHeap (page_heads h) v (heap_sem h)
  | NextOf b => set_page_next b v h
  end.

(** [rt_sem_take(&heap_sem, RT_WAITING_FOREVER)] without waiting, and
    [rt_sem_release(&heap_sem)] without waiters. *)
Definition heap_take : M heap unit :=
  h ← get;
  assertM (0 <? heap_sem h);;
  modify (fun h => mkHeap (page_heads h) (rt_page_list h) (u16 (heap_sem h - 1))).
Definition heap_release : M heap unit :=
  modify (fun h => mkHeap (page_heads h) (rt_page_list h) (u16 (heap_sem h + 1))).

(** The first-fit search; a link is followed at most [fuel] times. *)
Fixpoint page_alloc_loop (fuel : nat) (prev : plink) (npages : Z) : M heap (option Z) :=
  h ← get;
  match load prev h with
  | None => mret None
  | Some b =>
      if npages <? page (page_heads h b) then
        let n := b + npages in
        modify (set_page_next n (page_next (page_heads h b)));;
        modify (set_page n (page (page_heads h b) - npages));;
        modify (store_link prev (Some n));;
        mret (Some b)
      else if page (page_heads h b) =? npages then
        modify (store_link prev (page_next (page_heads h b)));;
        mret (Some b)
      else
        match fuel with
        | O => fail
        | S fuel => page_alloc_loop fuel (NextOf b) npages
        end
  end.

Definition rt_page_alloc (fuel : nat) (npages : Z) : M heap (option Z) :=
  if npages =? 0 then mret None
  else
    heap_take;;
    b ← page_alloc_loop fuel PageList npages;
    heap_release;;
    mret b.

(** [n->page = npages; n->next = b; *prev = n] *)
Definition page_link (prev : plink) (n npages : Z) (b : option Z) : M heap unit :=
  modify (set_page n npages);;
  modify (set_page_next n b);;
  modify (store_link prev (Some n)).

(** The search for the place of the block [n], with the merges. *)
Fixpoint page_free_loop (fuel : nat) (prev : plink) (n npages : Z) : M heap unit :=
  h ← get;
  match load prev h with
  | None => page_link prev n npages None
  | Some b =>
      let pages := page (page_heads h b) in
      assertM (0 <? pages);;
      assertM ((n <? b) || (b + pages <=? n));;
      if b + pages =? n then
        modify (fun h => set_page b (page (page_heads h b) + npages) h);;
        h ← get;
        match page_next (page_heads h b) with
        | Some c =>
            if b + page (page_heads h b) =? c then
              modify (fun h => set_page b (page (page_heads h b) + page (page_heads h c)) h);;
              modify (fun h => set_page_next b (page_next (page_heads h c)) h)
            else mret tt
        | None => mret tt
        end
      else if b =? n + npages then
        modify (set_page n (pages + npages));;
        modify (set_page_next n (page_next (page_heads h b)));;
        modify (store_link prev (Some n))
      else if n + npages <? b then page_link prev n npages (Some b)
      else
        match fuel with
        | O => fail
        | S fuel => page_free_loop fuel (NextOf b) n npages
        end
  end.

(** [addr] is the number of the page, not [RT_NULL] and page aligned. *)
Definition rt_page_free (fuel : nat) (addr npages : Z) : M heap unit :=
  assertM (negb (addr =? 0));;
  assertM (negb (npages =? 0));;
  heap_take;;
  page_free_loop fuel PageList addr npages;;
  heap_release.

Definition rt_page_init (addr npages : Z) : M heap unit :=
  assertM (negb (addr =? 0));;
  assertM (negb (npages =? 0));;
  modify (fun h => mkHeap (page_heads h) None (heap_sem h));;
  rt_page_free 0 addr npages.
