(* ===== verification/PageProps.v ===== *)
(** The properties of the page allocator: it hands out disjoint blocks of free
    pages, and the free list stays sorted and fully merged. *)
From S2P Require Import Prelude Page.

(** * The free list as a sequence of blocks *)
(** The first-fit allocation and the merging release, on sequences. *)
Fixpoint alloc_blocks (npages : Z) (l : list (Z * Z)) : option Z * list (Z * Z) :=
  match l with
  | [] => (None, [])
  | (b, k) :: l' =>
      if npages <? k then (Some b, (b + npages, k - npages) :: l')
      else if k =? npages then (Some b, l')
      else let (r, l'') := alloc_blocks npages l' in (r, (b, k) :: l'')
  end.

Fixpoint free_blocks (n npages : Z) (l : list (Z * Z)) : list (Z * Z) :=
  match l with
  | [] => [(n, npages)]
  | (b, k) :: l' =>
      if b + k =? n then
        match l' with
        | (c, j) :: l'' => if n + npages =? c then (b, k + npages + j) :: l''
                           else (b, k + npages) :: l'
        | [] => [(b, k + npages)]
        end
      else if b =? n + npages then (n, k + npages) :: l'
      else if n + npages <? b then (n, npages) :: l
      else (b, k) :: free_blocks n npages l'
  end.

(** Blocks in order, with a gap between any two. *)
Definition apart (x y : Z * Z) : Prop := x.1 + x.2 < y.1.
Record blocks_ok (l : list (Z * Z)) : Prop := {
  bk_sorted : StronglySorted apart l;
  bk_pos : forall b k, (b, k) ∈ l -> 0 < b /\ 0 < k /\ b + k < 2 ^ 52 }.

(** The pages of a block, and the free ones. *)
Definition in_block (x : Z) (bk : Z * Z) : Prop := bk.1 <= x < bk.1 + bk.2.
Definition free_page (l : list (Z * Z)) (x : Z) : Prop := exists bk, bk ∈ l /\ in_block x bk.

Lemma free_page_nil x : free_page [] x <-> False.
Proof. split; [|done]. intros (bk & H & _). by apply not_elem_of_nil in H. Qed.
Lemma free_page_cons bk l x : free_page (bk :: l) x <-> in_block x bk \/ free_page l x.
Proof. unfold free_page. setoid_rewrite elem_of_cons. naive_solver. Qed.

Lemma blocks_ok_nil : blocks_ok [].
Proof. split; [constructor|]. intros b k H. by apply not_elem_of_nil in H. Qed.
Lemma blocks_ok_cons b k l :
  blocks_ok ((b, k) :: l) <->
    0 < b /\ 0 < k /\ b + k < 2 ^ 52 /\ (forall c j, (c, j) ∈ l -> b + k < c) /\ blocks_ok l.
Proof.
  split.
  - intros [Hs Hp]. apply StronglySorted_inv in Hs as [Hs Ha]. rewrite Forall_forall in Ha.
    destruct (Hp b k ltac:(set_solver)) as (? & ? & ?). split_and!; try done.
    + intros c j Hc. by apply (Ha (c, j)).
    + split; [done|]. intros c j Hc. apply Hp. set_solver.
  - intros (H1 & H2 & H3 & H4 & [Hs Hp]). split.
    + constructor; [done|]. apply Forall_forall. intros [c j] Hc. by apply (H4 c j).
    + intros c j [[= -> ->]|Hc]%elem_of_cons; [done|by apply Hp].
Qed.

(** The first free page of the blocks behind a position. *)
Lemma free_page_above b k l x :
  blocks_ok ((b, k) :: l) -> free_page l x -> b + k < x.
Proof.
  rewrite blocks_ok_cons. intros (_ & _ & _ & Ha & _) ([c j] & Hc & Hx).
  specialize (Ha c j Hc). unfold in_block in Hx. cbn in Hx. lia.
Qed.

(** ** Allocation *)
Lemma alloc_blocks_within npages l r l' : 0 < npages -> blocks_ok l ->
  alloc_blocks npages l = (r, l') ->
  forall c j, (c, j) ∈ l' -> exists c0 j0, (c0, j0) ∈ l /\ c0 <= c.
Proof.
  intros Hn. revert r l'. induction l as [|[b k] l IH]; intros r l' Hok E c j Hc; cbn in E.
  - injection E as <- <-. by apply not_elem_of_nil in Hc.
  - repeat case_match; injection E as <- <-.
    + apply elem_of_cons in Hc as [[= -> ->]|Hc].
      * exists b, k. split; [set_solver|lia].
      * exists c, j. split; [set_solver|lia].
    + exists c, j. split; [set_solver|lia].
    + apply blocks_ok_cons in Hok as (_ & _ & _ & _ & Hok).
      apply elem_of_cons in Hc as [[= -> ->]|Hc].
      * exists b, k. split; [set_solver|lia].
      * destruct (IH _ _ Hok eq_refl c j Hc) as (c0 & j0 & ? & ?). exists c0, j0.
        split; [set_solver|done].
Qed.

Lemma alloc_blocks_spec npages l r l' : 0 < npages -> blocks_ok l ->
  alloc_blocks npages l = (r, l') ->
  blocks_ok l' /\
  match r with
  | None => l' = l /\ forall b k, (b, k) ∈ l -> k < npages
  | Some a => 0 < a /\ (forall x, in_block x (a, npages) -> free_page l x) /\
      forall x, free_page l' x <-> free_page l x /\ ~ in_block x (a, npages)
  end.
Proof.
  intros Hn. revert r l'. induction l as [|[b k] l IH]; intros r l' Hok E; cbn in E.
  - injection E as <- <-. split; [done|]. split; [done|].
    intros b k H. by apply not_elem_of_nil in H.
  - pose proof Hok as Hok0. apply blocks_ok_cons in Hok as (H1 & H2 & H3 & H4 & Hok).
    pose proof (fun x => free_page_above b k l x Hok0) as Hab.
    destruct (Z.ltb_spec npages k); [|destruct (Z.eqb_spec k npages) as [->|Hk]].
    + injection E as <- <-. split.
      { apply blocks_ok_cons. split_and!; try done; try lia. intros c j Hc.
        specialize (H4 c j Hc). lia. }
      split; [lia|]. split.
      * intros x Hx. apply free_page_cons. left. unfold in_block in *. cbn in *. lia.
      * intros x. rewrite !free_page_cons. specialize (Hab x). unfold in_block in *. cbn in *.
        split; [intros [?|Hf]; [split; [left; lia|lia]|specialize (Hab Hf); split; [by right|lia]]|].
        intros [[?|Hf] ?]; [left; lia|by right].
    + injection E as <- <-. split; [done|]. split; [done|]. split.
      * intros x Hx. apply free_page_cons. by left.
      * intros x. rewrite free_page_cons. specialize (Hab x). unfold in_block in *. cbn in *.
        split; [intros Hf; specialize (Hab Hf); split; [by right|lia]|].
        intros [[?|Hf] ?]; [lia|done].
    + destruct (alloc_blocks npages l) as [r1 l1] eqn:E1. injection E as <- <-.
      destruct (IH r1 l1 Hok eq_refl) as [Hok1 Hr].
      split.
      { apply blocks_ok_cons. split_and!; try done. intros c j Hc.
        destruct (alloc_blocks_within npages l r1 l1 Hn Hok E1 c j Hc) as (c0 & j0 & Hc0 & ?).
        specialize (H4 c0 j0 Hc0). lia. }
      destruct r1 as [a|].
      * destruct Hr as (Ha & Hin & Hfr). split; [done|]. split.
        -- intros x Hx. apply free_page_cons. right. by apply Hin.
        -- intros x. rewrite !free_page_cons, Hfr. specialize (Hab x).
           split; [|naive_solver]. intros [Hx|[Hf ?]]; [|by split; [right|]].
           split; [by left|]. intros Hx'. apply Hin in Hx'. specialize (Hab Hx').
           unfold in_block in Hx. cbn in Hx. lia.
      * destruct Hr as [-> Hr]. split; [done|]. intros b' k' [[= -> ->]|Hin]%elem_of_cons; [lia|].
        by apply (Hr b' k').
Qed.

(** An allocation that succeeds found a block large enough. *)
Lemma alloc_blocks_large npages l r l' : alloc_blocks npages l = (r, l') ->
  r <> None -> exists b k, (b, k) ∈ l /\ npages <= k.
Proof.
  revert r l'. induction l as [|[b k] l IH]; intros r l' E Hr; cbn in E; [by simplify_eq|].
  destruct (Z.ltb_spec npages k); [exists b, k; split; [set_solver|lia]|].
  destruct (Z.eqb_spec k npages); [exists b, k; split; [set_solver|lia]|].
  destruct (alloc_blocks npages l) as [r1 l1]. injection E as -> _.
  destruct (IH r l1 eq_refl Hr) as (c & j & ? & ?). exists c, j. split; [set_solver|done].
Qed.

(** ** Release *)
Lemma free_blocks_starts n m l c j :
  (c, j) ∈ free_blocks n m l -> c = n \/ exists j0, (c, j0) ∈ l.
Proof.
  induction l as [|[b k] l IH]; cbn.
  - intros [= -> ->]%list_elem_of_singleton. by left.
  - repeat case_match; subst; rewrite ?elem_of_cons; intros Hc;
      try (destruct Hc as [[= -> ->]|Hc]); try set_solver.
Qed.

Lemma free_blocks_spec n m l : 0 < n -> 0 < m -> n + m < 2 ^ 52 -> blocks_ok l ->
  (forall x, in_block x (n, m) -> ~ free_page l x) ->
  blocks_ok (free_blocks n m l) /\
  forall x, free_page (free_blocks n m l) x <-> free_page l x \/ in_block x (n, m).
Proof.
  intros Hn Hm Hnm. induction l as [|[b k] l IH]; intros Hok Hfr; cbn [free_blocks].
  - split.
    + apply blocks_ok_cons. split_and!; try done. intros c j H. by apply not_elem_of_nil in H.
    + intros x. rewrite free_page_cons, free_page_nil. tauto.
  - pose proof Hok as Hok0. apply blocks_ok_cons in Hok as (H1 & H2 & H3 & H4 & Hok).
    assert (Hdis : n + m <= b \/ b + k <= n).
    { destruct (decide (n + m <= b)); [by left|]. destruct (decide (b + k <= n)); [by right|].
      exfalso. apply (Hfr (Z.max n b)); [unfold in_block; cbn; lia|].
      apply free_page_cons. left. unfold in_block. cbn. lia. }
    assert (Hfr' : forall x, in_block x (n, m) -> ~ free_page l x).
    { intros x Hx Hf. apply (Hfr x Hx), free_page_cons. by right. }
    assert (Hnext : forall c j, (c, j) ∈ l -> 0 < j -> b + k <= n -> n + m <= c \/ c + j <= n).
    { intros c j Hc Hj _. destruct (decide (n + m <= c)); [by left|].
      destruct (decide (c + j <= n)); [by right|]. exfalso.
      apply (Hfr' (Z.max n c)); [unfold in_block; cbn; lia|]. exists (c, j). split; [done|].
      unfold in_block. cbn. lia. }
    destruct (Z.eqb_spec (b + k) n) as [<-|Hbn].
    + destruct l as [|[c j] l].
      * split.
        -- apply blocks_ok_cons. split_and!; try done; [lia|lia|].
           intros c j H. by apply not_elem_of_nil in H.
        -- intros x. rewrite !free_page_cons, free_page_nil. unfold in_block. cbn. lia.
      * pose proof Hok as Hok1. apply blocks_ok_cons in Hok1 as (C1 & C2 & C3 & C4 & Hok1).
        pose proof (H4 c j ltac:(set_solver)) as Hbc.
        destruct (Hnext c j) as [Hle|?]; [set_solver|done|lia| |lia].
        destruct (Z.eqb_spec (b + k + m) c) as [<-|Hne]; split.
        -- apply blocks_ok_cons. split_and!; try done; try lia. intros c' j' Hc.
           specialize (C4 c' j' Hc). lia.
        -- intros x. rewrite !free_page_cons. unfold in_block. cbn. split.
           ++ intros [?|?]; [|tauto]. destruct (decide (x < b + k)); [left; left; lia|].
              destruct (decide (x < b + k + m)); [right; lia|]. left. right. left. lia.
           ++ intros [[?|[?|?]]|?]; [left; lia|left; lia|by right|left; lia].
        -- apply blocks_ok_cons. split_and!; try done; try lia. intros c' j' Hc.
           apply elem_of_cons in Hc as [[= -> ->]|Hc]; [lia|]. specialize (C4 c' j' Hc). lia.
        -- intros x. rewrite !free_page_cons. unfold in_block. cbn. split.
           ++ intros [?|?]; [|tauto]. destruct (decide (x < b + k)); [left; left; lia|right; lia].
           ++ intros [[?|?]|?]; [left; lia|by right|left; lia].
    + destruct (Z.eqb_spec b (n + m)) as [->|Hbm]; [|destruct (Z.ltb_spec (n + m) b)].
      * split.
        -- apply blocks_ok_cons. split_and!; try done; try lia. intros c j Hc.
           specialize (H4 c j Hc). lia.
        -- intros x. rewrite !free_page_cons. unfold in_block. cbn. split.
           ++ intros [?|?]; [|tauto]. destruct (decide (x < n + m)); [right; lia|left; left; lia].
           ++ intros [[?|?]|?]; [left; lia|by right|left; lia].
      * split.
        -- apply blocks_ok_cons. split_and!; try done. intros c j Hc.
           apply elem_of_cons in Hc as [[= -> ->]|Hc]; [lia|]. specialize (H4 c j Hc). lia.
        -- intros x. rewrite !free_page_cons. unfold in_block. cbn. tauto.
      * destruct (IH Hok Hfr') as [Hok1 Hf1]. split.
        -- apply blocks_ok_cons. split_and!; try done. intros c j Hc.
           destruct (free_blocks_starts _ _ _ _ _ Hc) as [->|[j0 Hj0]]; [lia|].
           specialize (H4 c j0 Hj0). lia.
        -- intros x. rewrite !free_page_cons, Hf1. tauto.
Qed.

(** * The free list in memory *)
Fixpoint path (hs : Z -> rt_page_head) (p : option Z) (l : list (Z * Z)) (q : option Z) : Prop :=
  match l with
  | [] => p = q
  | (b, k) :: l' => p = Some b /\ page (hs b) = k /\ path hs (page_next (hs b)) l' q
  end.

Definition holds (h : heap) (l : list (Z * Z)) : Prop :=
  path (page_heads h) (rt_page_list h) l None.

(** The link that leads out of a part of the list. *)
Definition link_of (l1 : list (Z * Z)) : plink :=
  match last l1 with Some (b, _) => NextOf b | None => PageList end.

Lemma path_app hs p l1 l2 q :
  path hs p (l1 ++ l2) q <-> exists r, path hs p l1 r /\ path hs r l2 q.
Proof.
  revert p. induction l1 as [|[b k] l1 IH]; intros p; cbn.
  - split; [intros H; by exists p|]. by intros (r & <- & H).
  - rewrite IH. naive_solver.
Qed.

Lemma path_frame hs hs' p l q :
  (forall b k, (b, k) ∈ l -> hs' b = hs b) -> path hs p l q -> path hs' p l q.
Proof.
  revert p. induction l as [|[b k] l IH]; intros p Hf; cbn; [done|].
  intros (-> & <- & H). rewrite (Hf b (page (hs b))) by set_solver. split_and!; try done.
  apply IH; [|done]. intros c j Hc. apply (Hf c j). set_solver.
Qed.

Lemma link_of_snoc l b k : link_of (l ++ [(b, k)]) = NextOf b.
Proof. unfold link_of. by rewrite last_snoc. Qed.

Lemma holds_load h l1 l2 : holds h (l1 ++ l2) ->
  path (page_heads h) (load (link_of l1) h) l2 None.
Proof.
  unfold holds. rewrite path_app. intros (r & H1 & H2). enough (load (link_of l1) h = r) as -> by done.
  destruct l1 as [|[b k] l1 _] using rev_ind; [done|]. rewrite link_of_snoc. cbn.
  rewrite path_app in H1. destruct H1 as (r' & _ & H1). cbn in H1. tauto.
Qed.

(** A new rest of the list, stored through the link. *)
Lemma holds_store h h' l1 l2 l2' v :
  holds h (l1 ++ l2) -> blocks_ok (l1 ++ l2) ->
  rt_page_list h' = rt_page_list h ->
  (forall b k, (b, k) ∈ l1 -> page_heads h' b = page_heads h b) ->
  (forall b k j, (b, k) ∈ l1 -> (b, j) ∉ l2') ->
  path (page_heads h') v l2' None -> holds (store_link (link_of l1) v h') (l1 ++ l2').
Proof.
  unfold holds. intros Hh Hok Er Ef Hd Hp. destruct l1 as [|[b k] l1 _] using rev_ind; [done|].
  rewrite link_of_snoc. cbn [store_link set_page_next page_heads rt_page_list].
  rewrite path_app in Hh. destruct Hh as (r & Hh & _). rewrite path_app in Hh.
  destruct Hh as (r' & H1 & H2). cbn in H2.
  destruct H2 as (-> & H2 & _). rewrite Er.
  assert (Hb : forall k', (b, k') ∉ l1).
  { intros k' Hin. rewrite <-app_assoc in Hok. destruct Hok as [Hs Hpos].
    apply list_elem_of_split in Hin as (m1 & m2 & ->). rewrite <-app_assoc in Hs.
    apply StronglySorted_app_r, StronglySorted_inv in Hs as [_ Ha]. rewrite Forall_forall in Ha.
    specialize (Ha (b, k) ltac:(set_solver)). unfold apart in Ha. cbn in Ha.
    destruct (Hpos b k' ltac:(set_solver)) as (_ & ? & _). lia. }
  rewrite <-app_assoc, path_app. exists (Some b). split.
  - eapply path_frame; [|exact H1]. intros c j Hc. rewrite upd_ne.
    + apply (Ef c j). set_solver.
    + intros ->. by apply (Hb j).
  - cbn. rewrite upd_eq. cbn. rewrite (Ef b k) by set_solver. split_and!; try done.
    eapply path_frame; [|exact Hp]. intros c j Hc. rewrite upd_ne; [done|].
    intros <-. by apply (Hd b k j); [set_solver|].
Qed.

Lemma blocks_ok_app l1 l2 b k c j :
  blocks_ok (l1 ++ l2) -> (b, k) ∈ l1 -> (c, j) ∈ l2 -> b + k < c /\ 0 < k.
Proof.
  intros [Hs Hp] Hb Hc. apply list_elem_of_split in Hb as (m1 & m2 & ->).
  destruct (Hp b k ltac:(set_solver)) as (_ & ? & _). split; [|done].
  rewrite <-app_assoc in Hs. apply StronglySorted_app_r, StronglySorted_inv in Hs as [_ Ha].
  rewrite Forall_forall in Ha. by apply (Ha (c, j)); set_solver.
Qed.

Lemma u64_page z : 0 <= z < 2 ^ 52 -> u64 z = z.
Proof. intros H. unfold u64. apply Z.mod_small. change (2 ^ 52) with 4503599627370496 in H.
  change (2 ^ 64) with 18446744073709551616. lia. Qed.

Lemma page_alloc_refines npages l2 : forall l1 fuel h,
  0 < npages -> holds h (l1 ++ l2) -> blocks_ok (l1 ++ l2) -> (length l2 <= fuel)%nat ->
  wp (page_alloc_loop fuel (link_of l1) npages) (fun r h' =>
    let (r', l2') := alloc_blocks npages l2 in
    r = r' /\ holds h' (l1 ++ l2') /\ heap_sem h' = heap_sem h) h.
Proof.
  induction l2 as [|[b k] l2 IH]; intros l1 fuel h Hn Hh Hok Hf;
    pose proof (holds_load _ _ _ Hh) as Hl; cbn [path] in Hl.
  - destruct fuel; cbn [page_alloc_loop]; wp_steps; rewrite Hl; by wp_steps.
  - destruct Hl as (El & Ek & Hl).
    assert (Hpre : forall c j, (c, j) ∈ l1 -> c < b).
    { intros c j Hc. destruct (blocks_ok_app l1 ((b, k) :: l2) c j b k Hok Hc); [set_solver|lia]. }
    assert (Hpost : forall c j, (c, j) ∈ l2 -> b + k < c).
    { intros c j Hc. replace (l1 ++ (b, k) :: l2) with ((l1 ++ [(b, k)]) ++ l2) in Hok
        by (by rewrite <-app_assoc).
      destruct (blocks_ok_app _ _ b k c j Hok); [set_solver|done..]. }
    destruct (bk_pos _ Hok b k) as (B1 & B2 & B3); [set_solver|].
    destruct fuel as [|fuel]; cbn in Hf; [lia|]. cbn [page_alloc_loop alloc_blocks]. wp_steps.
    rewrite El, Ek. destruct (Z.ltb_spec npages k); [|destruct (Z.eqb_spec k npages) as [->|Hk]].
    + wp_steps. split; [done|]. split; [|by destruct (link_of l1)].
      eapply (holds_store h _ l1 ((b, k) :: l2)); try done.
      * intros c j Hc. specialize (Hpre c j Hc). cbn. by rewrite !upd_ne by lia.
      * intros c j j' Hc [[= -> ->]|Hc']%elem_of_cons; specialize (Hpre _ _ Hc); [lia|].
        specialize (Hpost _ _ Hc'). lia.
      * cbn. rewrite !upd_eq. cbn. rewrite u64_page by lia. split_and!; [done|done|].
        eapply path_frame; [|exact Hl]. intros c j Hc. specialize (Hpost c j Hc).
        by rewrite !upd_ne by lia.
    + wp_steps. split; [done|]. split; [|by destruct (link_of l1)].
      eapply (holds_store h _ l1 ((b, npages) :: l2)); try done.
      intros c j j' Hc Hc'. specialize (Hpre _ _ Hc). specialize (Hpost _ _ Hc'). lia.
    + rewrite <-(link_of_snoc l1 b k).
      eapply wp_mono; [apply (IH (l1 ++ [(b, k)]) fuel h); [done|by rewrite <-app_assoc..|lia]|].
      intros r h'. destruct (alloc_blocks npages l2) as [r' l2']. intros (-> & Hh' & Es).
      by rewrite <-app_assoc in Hh'.
Qed.

(** A block that changes in place. *)
Lemma holds_update h h' l1 b k l2 k' l2' :
  holds h (l1 ++ (b, k) :: l2) -> rt_page_list h' = rt_page_list h ->
  (forall c j, (c, j) ∈ l1 -> page_heads h' c = page_heads h c) ->
  page (page_heads h' b) = k' -> path (page_heads h') (page_next (page_heads h' b)) l2' None ->
  holds h' (l1 ++ (b, k') :: l2').
Proof.
  unfold holds. rewrite !path_app. intros (r & H1 & H2) Er Ef Ek Hp. cbn in H2.
  destruct H2 as (-> & _). exists (Some b). rewrite Er. split; [|done].
  by eapply path_frame.
Qed.

Lemma released_start n m l c j :
  0 < m -> blocks_ok l -> (forall x, in_block x (n, m) -> ~ free_page l x) -> (c, j) ∈ l -> c <> n.
Proof.
  intros Hm Hok Hfr Hc ->. destruct (bk_pos _ Hok n j Hc) as (_ & ? & _).
  apply (Hfr n); [unfold in_block; cbn; lia|]. exists (n, j). split; [done|].
  unfold in_block. cbn. lia.
Qed.

Lemma page_free_refines n m l2 : forall l1 fuel h,
  0 < n -> 0 < m -> n + m < 2 ^ 52 -> holds h (l1 ++ l2) -> blocks_ok (l1 ++ l2) ->
  (forall x, in_block x (n, m) -> ~ free_page (l1 ++ l2) x) -> (length l2 <= fuel)%nat ->
  wp (page_free_loop fuel (link_of l1) n m) (fun _ h' =>
    holds h' (l1 ++ free_blocks n m l2) /\ heap_sem h' = heap_sem h) h.
Proof.
  induction l2 as [|[b k] l2 IH]; intros l1 fuel h Hn Hm Hnm Hh Hok Hfr Hf;
    pose proof (holds_load _ _ _ Hh) as Hl; cbn [path] in Hl;
    pose proof (fun c j => released_start n m _ c j Hm Hok Hfr) as Hfn0;
    assert (Hfn : forall c j, (c, j) ∈ l1 -> c <> n)
      by (intros c j Hc; apply (Hfn0 c j), elem_of_app; by left).
  - assert (Hlink : wp (page_link (link_of l1) n m None) (fun _ h' =>
      holds h' (l1 ++ [(n, m)]) /\ heap_sem h' = heap_sem h) h).
    { unfold page_link. wp_steps. split; [|by destruct (link_of l1)].
      eapply (holds_store h _ l1 []); try done.
      - intros c j Hc. cbn. rewrite !upd_ne by (by apply not_eq_sym, (Hfn c j)). done.
      - intros c j j' Hc [= -> ->]%list_elem_of_singleton. by apply (Hfn n j).
      - cbn. rewrite !upd_eq. cbn. by rewrite u64_page by lia. }
    destruct fuel; cbn [page_free_loop free_blocks]; wp_steps; rewrite Hl; exact Hlink.
  - destruct Hl as (El & Ek & Hl).
    assert (Hpre : forall c j, (c, j) ∈ l1 -> c < b).
    { intros c j Hc. destruct (blocks_ok_app l1 ((b, k) :: l2) c j b k Hok Hc); [set_solver|lia]. }
    assert (Hpost : forall c j, (c, j) ∈ l2 -> b + k < c).
    { intros c j Hc. replace (l1 ++ (b, k) :: l2) with ((l1 ++ [(b, k)]) ++ l2) in Hok
        by (by rewrite <-app_assoc).
      destruct (blocks_ok_app _ _ b k c j Hok); [set_solver|done..]. }
    destruct (bk_pos _ Hok b k) as (B1 & B2 & B3); [set_solver|].
    assert (Hdis : n + m <= b \/ b + k <= n).
    { destruct (decide (n + m <= b)); [by left|]. destruct (decide (b + k <= n)); [by right|].
      exfalso. apply (Hfr (Z.max n b)); [unfold in_block; cbn; lia|]. exists (b, k).
      split; [set_solver|]. unfold in_block. cbn. lia. }
    destruct fuel as [|fuel]; cbn in Hf; [lia|]. cbn [page_free_loop free_blocks]. wp_steps.
    rewrite El, Ek. cbv zeta. wp_steps; [lia| |].
    { apply orb_true_iff. rewrite Z.ltb_lt, Z.leb_le. lia. }
    destruct (Z.eqb_spec (b + k) n) as [<-|Hbn]; [|destruct (Z.eqb_spec b (n + m)) as [Hbm|Hbm];
      [|destruct (Z.ltb_spec (n + m) b)]].
    + wp_steps. cbn [page_heads set_page]. rewrite !upd_eq. cbn [page_next page].
      rewrite Ek, (u64_page (k + m)) by lia.
      set (h1 := set_page b (k + m) h).
      assert (H1b : page_heads h1 b = mkPage (page_next (page_heads h b)) (k + m)).
      { cbn. by rewrite upd_eq, u64_page by lia. }
      assert (H1o : forall c, c <> b -> page_heads h1 c = page_heads h c).
      { intros c Hc. cbn. by rewrite upd_ne. }
      assert (Hdone : holds h1 (l1 ++ (b, k + m) :: l2)).
      { eapply (holds_update h h1); [exact Hh|done| |by rewrite H1b|].
        - intros c j Hc. specialize (Hpre c j Hc). apply H1o. lia.
        - rewrite H1b. eapply path_frame; [|exact Hl]. intros c j Hc. specialize (Hpost c j Hc).
          apply H1o. lia. }
      destruct l2 as [|[c j] l2]; cbn [path] in Hl; [rewrite Hl; by wp_steps|].
      destruct Hl as (Ec & Ej & Hl). rewrite Ec.
      destruct (bk_pos _ Hok c j) as (C1 & C2 & C3); [set_solver|].
      replace (b + (k + m)) with (b + k + m) by lia.
      destruct (Z.eqb_spec (b + k + m) c) as [Ebc|Hne]; [|by wp_steps].
      pose proof (Hpost c j ltac:(set_solver)) as Hbc.
      assert (Hcl : forall d i, (d, i) ∈ l2 -> c < d).
      { intros d i Hd. replace (l1 ++ (b, k) :: (c, j) :: l2) with
          ((l1 ++ [(b, k); (c, j)]) ++ l2) in Hok by (by rewrite <-app_assoc).
        destruct (blocks_ok_app _ _ c j d i Hok); [set_solver|done|lia]. }
      wp_steps. split; [|done]. fold h1. rewrite H1b, (H1o c) by lia. cbn [page].
      rewrite Ej. eapply (holds_update h1 _ l1 b (k + m) _ _ l2); [exact Hdone|done|..].
      * intros d i Hd. specialize (Hpre d i Hd). cbn. by rewrite !upd_ne by lia.
      * cbn. rewrite !upd_eq. cbn. rewrite u64_page by lia. lia.
      * cbn. rewrite !upd_eq. cbn. rewrite !upd_ne by lia.
        eapply path_frame; [|exact Hl]. intros d i Hd. specialize (Hcl d i Hd).
        by rewrite !upd_ne by lia.
    + wp_steps. split; [|by destruct (link_of l1)].
      eapply (holds_store h _ l1 ((b, k) :: l2)); try done.
      * intros c j Hc. cbn. rewrite !upd_ne by (by apply not_eq_sym, (Hfn c j)). done.
      * intros c j j' Hc [[= -> ->]|Hc']%elem_of_cons; [by apply (Hfn n j)|].
        specialize (Hpre _ _ Hc). specialize (Hpost _ _ Hc'). lia.
      * cbn. rewrite !upd_eq. cbn. rewrite u64_page by lia.
        split_and!; [done|done|]. eapply path_frame; [|exact Hl]. intros c j Hc.
        specialize (Hpost c j Hc). by rewrite !upd_ne by lia.
    + unfold page_link. wp_steps. split; [|by destruct (link_of l1)].
      eapply (holds_store h _ l1 ((b, k) :: l2)); try done.
      * intros c j Hc. cbn. rewrite !upd_ne by (by apply not_eq_sym, (Hfn c j)). done.
      * intros c j j' Hc Hin. rewrite !elem_of_cons in Hin. destruct Hin as [[= -> ->]|[[= -> ->]|Hc']].
        -- by apply (Hfn n j).
        -- specialize (Hpre _ _ Hc). lia.
        -- specialize (Hpre _ _ Hc). specialize (Hpost _ _ Hc'). lia.
      * cbn. rewrite !upd_eq. cbn. rewrite u64_page by lia. rewrite !upd_ne by lia.
        split_and!; try done. eapply path_frame; [|exact Hl]. intros c j Hc.
        specialize (Hpost c j Hc). by rewrite !upd_ne by lia.
    + rewrite <-(link_of_snoc l1 b k).
      eapply wp_mono; [apply (IH (l1 ++ [(b, k)]) fuel h); try done; [by rewrite <-app_assoc..|lia]|].
      intros [] h' [Hh' Es]. by rewrite <-app_assoc in Hh'.
Qed.

(** * Counting the blocks a page is in *)
Definition inb (x : Z) (bk : Z * Z) : nat :=
  if (bk.1 <=? x) && (x <? bk.1 + bk.2) then 1 else 0.
Definition cover (x : Z) (l : list (Z * Z)) : nat := sum_list_with (inb x) l.

Ltac inb_lia :=
  unfold cover, inb in *; cbn -[Z.add Z.leb Z.ltb] in *;
  repeat match goal with
    | |- context [?a <=? ?b] => destruct (Z.leb_spec a b)
    | |- context [?a <? ?b] => destruct (Z.ltb_spec a b)
    end; cbn in *; lia.

Lemma inb_in x bk : in_block x bk <-> inb x bk = 1%nat.
Proof. unfold in_block, inb. destruct (Z.leb_spec bk.1 x), (Z.ltb_spec x (bk.1 + bk.2)); cbn; lia. Qed.

Lemma cover_app x l1 l2 : cover x (l1 ++ l2) = (cover x l1 + cover x l2)%nat.
Proof. apply sum_list_with_app. Qed.

Lemma cover_elem x bk l : bk ∈ l -> (inb x bk <= cover x l)%nat.
Proof. unfold cover. induction 1; cbn; lia. Qed.

Lemma cover_free x l : free_page l x -> (1 <= cover x l)%nat.
Proof. intros (bk & Hin & Hx). apply inb_in in Hx. pose proof (cover_elem x bk l Hin). lia. Qed.

Lemma cover_free_inv x l : (1 <= cover x l)%nat -> free_page l x.
Proof.
  induction l as [|bk l IH]; cbn; intros H; [lia|]. apply free_page_cons.
  destruct (inb x bk) eqn:E; [right; apply IH; unfold cover; lia|]. left. apply inb_in.
  revert E. unfold inb. case_match; congruence.
Qed.

Lemma alloc_blocks_cover npages l x : 0 < npages ->
  let (r, l') := alloc_blocks npages l in
  cover x l = (cover x l' + match r with Some a => inb x (a, npages) | None => 0 end)%nat.
Proof.
  intros Hn. induction l as [|[b k] l IH]; cbn [alloc_blocks]; [done|].
  destruct (Z.ltb_spec npages k); [inb_lia|]. destruct (Z.eqb_spec k npages) as [->|]; [inb_lia|].
  destruct (alloc_blocks npages l) as [r l']. unfold cover in *. cbn. lia.
Qed.

Lemma free_blocks_cover n m l x :
  0 < m -> (forall b k, (b, k) ∈ l -> 0 < k) ->
  cover x (free_blocks n m l) = (cover x l + inb x (n, m))%nat.
Proof.
  intros Hm. induction l as [|[b k] l IH]; intros Hk; cbn [free_blocks]; [done|].
  pose proof (Hk b k ltac:(set_solver)). destruct (Z.eqb_spec (b + k) n) as [<-|].
  - destruct l as [|[c j] l]; [inb_lia|]. pose proof (Hk c j ltac:(set_solver)).
    destruct (Z.eqb_spec (b + k + m) c) as [<-|]; inb_lia.
  - destruct (Z.eqb_spec b (n + m)) as [->|]; [inb_lia|].
    destruct (n + m <? b); [unfold cover; cbn; lia|]. unfold cover in *. cbn.
    rewrite IH by (intros c j Hc; apply (Hk c j); set_solver). lia.
Qed.

(** * Histories of allocations and releases *)
Inductive page_op := PAlloc (npages : Z) | PFree (i : nat).

(** [out] are the allocations not yet released; [PFree i] releases the [i]th. *)
Definition page_exec (fuel : nat) (op : page_op) (out : list (Z * Z)) : M heap (list (Z * Z)) :=
  match op with
  | PAlloc npages =>
      a ← rt_page_alloc fuel npages;
      mret (match a with Some a => (a, npages) :: out | None => out end)
  | PFree i =>
      match out !! i with
      | Some (a, npages) => rt_page_free fuel a npages;; mret (delete i out)
      | None => mret out
      end
  end.

Fixpoint page_run (fuel : nat) (ops : list page_op) (out : list (Z * Z)) : M heap (list (Z * Z)) :=
  match ops with
  | [] => mret out
  | op :: ops => out ← page_exec fuel op out; page_run fuel ops out
  end.

(** Every page of the heap is in one block, free or allocated, and the free
    blocks are sorted and merged. *)
Record page_inv (lo n : Z) (l out : list (Z * Z)) (h : heap) : Prop := {
  pi_holds : holds h l;
  pi_ok : blocks_ok l;
  pi_sem : heap_sem h = 1;
  pi_out : forall a k, (a, k) ∈ out -> 0 < k;
  pi_cover : forall x, cover x (l ++ out) = inb x (lo, n) }.

(** As the blocks are apart, there are no more of them than pages. *)
Lemma blocks_ok_length l : forall lo hi, blocks_ok l ->
  (forall b k, (b, k) ∈ l -> lo <= b /\ b + k <= hi) -> lo <= hi -> Z.of_nat (length l) <= hi - lo.
Proof.
  induction l as [|[b k] l IH]; intros lo hi Hok Hb Hlh; cbn [length]; [lia|].
  apply blocks_ok_cons in Hok as (H1 & H2 & H3 & H4 & Hok).
  destruct (Hb b k ltac:(set_solver)). enough (Z.of_nat (length l) <= hi - (b + k)) by lia.
  apply IH; [done| |lia]. intros c j Hc. specialize (H4 c j Hc).
  destruct (Hb c j ltac:(set_solver)). lia.
Qed.

Lemma cover_perm x l l' : l ≡ₚ l' -> cover x l = cover x l'.
Proof. unfold cover. induction 1; cbn; lia. Qed.

Lemma cover_delete x out i bk : out !! i = Some bk -> cover x out = (inb x bk + cover x (delete i out))%nat.
Proof. intros H. by rewrite (cover_perm x _ _ (delete_Permutation out i bk H)). Qed.

Section History.
Context (fuel : nat) (lo n : Z).
Hypotheses (Hlo : 0 < lo) (Hn : 0 < n) (Hhi : lo + n < 2 ^ 52) (Hfuel : (Z.to_nat n <= fuel)%nat).

Lemma page_inv_within l out h b k : page_inv lo n l out h ->
  (b, k) ∈ l ++ out -> 0 < k -> lo <= b /\ b + k <= lo + n.
Proof using.
  clear. intros Hinv Hin Hk.
  assert (H : forall x, in_block x (b, k) -> lo <= x < lo + n).
  { intros x Hx. apply inb_in in Hx. pose proof (cover_elem x _ _ Hin) as Hc.
    rewrite (pi_cover _ _ _ _ _ Hinv), Hx in Hc. apply (inb_in x (lo, n)).
    revert Hc. unfold inb. case_match; lia. }
  unfold in_block in H. cbn in H. pose proof (H b). pose proof (H (b + k - 1)). lia.
Qed.

Lemma page_inv_length l out h : page_inv lo n l out h -> (length l <= fuel)%nat.
Proof using Hn Hfuel.
  clear Hlo Hhi. intros Hinv. enough (Z.of_nat (length l) <= lo + n - lo) by lia.
  apply blocks_ok_length; [apply Hinv| |lia]. intros b k Hb.
  destruct (bk_pos _ (pi_ok _ _ _ _ _ Hinv) b k Hb) as (_ & ? & _).
  apply (page_inv_within l out h); [done|set_solver|done].
Qed.

Lemma page_alloc_inv npages l out h : 0 <= npages -> page_inv lo n l out h ->
  wp (rt_page_alloc fuel npages) (fun r h' =>
    match r with
    | Some a => (exists l', page_inv lo n l' ((a, npages) :: out) h') /\
        exists b k, (b, k) ∈ l /\ npages <= k
    | None => page_inv lo n l out h' /\ (npages <> 0 -> forall b k, (b, k) ∈ l -> k < npages)
    end) h.
Proof using Hn Hfuel.
  clear Hlo Hhi. intros Hnp Hinv. pose proof (page_inv_length _ _ _ Hinv) as Hlen. destruct Hinv as [H1 H2 H3 H4 H5].
  unfold rt_page_alloc. destruct (Z.eqb_spec npages 0) as [->|Hne]; [by wp_steps|].
  unfold heap_take, heap_release. wp_steps; [by rewrite H3|].
  eapply wp_mono; [apply (page_alloc_refines npages l []); [lia|exact H1|exact H2|exact Hlen]|].
  intros r h' Hr. destruct (alloc_blocks npages l) as [r' l'] eqn:E. destruct Hr as (-> & Hh' & Hs).
  pose proof (alloc_blocks_spec npages l r' l' ltac:(lia) H2 E) as [Hok' Hspec].
  assert (Hc : forall x, cover x l = (cover x l' + match r' with Some a => inb x (a, npages) | None => 0 end)%nat).
  { intros x. pose proof (alloc_blocks_cover npages l x ltac:(lia)) as Hc. by rewrite E in Hc. }
  assert (Hs1 : u16 (heap_sem h' + 1) = 1) by (rewrite Hs; cbn; by rewrite H3).
  wp_steps. destruct r' as [a|].
  - split; [|by apply (alloc_blocks_large npages l (Some a) l')]. exists l'. split; try done.
    + intros c j [[= -> ->]|Hcj]%elem_of_cons; [lia|by apply (H4 c j)].
    + intros x. rewrite <-H5, !cover_app, (Hc x). unfold cover. cbn. lia.
  - destruct Hspec as [-> Hsmall]. split; [|done]. by split.
Qed.

Lemma page_free_inv i a k l out h : out !! i = Some (a, k) -> page_inv lo n l out h ->
  wp (rt_page_free fuel a k) (fun _ h' => exists l', page_inv lo n l' (delete i out) h') h.
Proof using Hlo Hn Hhi Hfuel.
  intros Hi Hinv. pose proof (page_inv_length _ _ _ Hinv) as Hlen.
  pose proof (list_elem_of_lookup_2 _ _ _ Hi) as Hin.
  pose proof (pi_out _ _ _ _ _ Hinv a k Hin) as Hk.
  destruct (page_inv_within l out h a k Hinv) as [Ha1 Ha2]; [set_solver|done|].
  destruct Hinv as [H1 H2 H3 H4 H5].
  assert (Hfr : forall x, in_block x (a, k) -> ~ free_page l x).
  { intros x Hx Hf. apply inb_in in Hx. apply cover_free in Hf. pose proof (H5 x) as H.
    rewrite cover_app, (cover_delete x out i (a, k)) in H by done. revert H. unfold inb at 2.
    case_match; lia. }
  unfold rt_page_free, heap_take, heap_release. wp_steps; [lia|lia|by rewrite H3|].
  eapply wp_mono; [apply (page_free_refines a k l []); try done; lia|].
  intros [] h' [Hh' Hs]. wp_steps. exists (free_blocks a k l).
  destruct (free_blocks_spec a k l) as [Hok' _]; [lia..|done|done|].
  split; [done|done|by cbn; rewrite Hs; cbn; rewrite H3| |].
  - intros c j Hc. apply (H4 c j). rewrite (delete_Permutation out i _ Hi). set_solver.
  - intros x. rewrite cover_app, free_blocks_cover; [|done|].
    + rewrite <-H5, cover_app, (cover_delete x out i (a, k)) by done. lia.
    + intros b j Hb. by apply (bk_pos _ H2 b j).
Qed.

Definition page_op_ok (op : page_op) : Prop :=
  match op with PAlloc npages => 0 <= npages | PFree _ => True end.

Lemma page_run_inv ops : forall l out h, Forall page_op_ok ops -> page_inv lo n l out h ->
  wp (page_run fuel ops out) (fun out' h' => exists l', page_inv lo n l' out' h') h.
Proof using Hlo Hn Hhi Hfuel.
  induction ops as [|op ops IH]; intros l out h Hops Hinv; cbn [page_run].
  { wp_steps. by exists l. }
  apply Forall_cons in Hops as [Hop Hops]. wp_steps.
  apply (wp_mono _ (fun out' h' => exists l', page_inv lo n l' out' h')); cycle 1.
  { intros out' h' [l' H']. by apply (IH l'). }
  destruct op as [npages|i]; cbn [page_exec].
  - wp_steps. eapply wp_mono; [by apply (page_alloc_inv npages l out)|].
    intros [a|] h' Hr; wp_steps; [apply Hr|exists l; apply Hr].
  - destruct (out !! i) as [[a k]|] eqn:E; [|wp_steps; by exists l].
    wp_steps. eapply wp_mono; [by apply (page_free_inv i a k l out)|]. intros [] h' Hr.
    by wp_steps.
Qed.

Lemma page_init_inv h : heap_sem h = 1 ->
  wp (rt_page_init lo n) (fun _ h' => page_inv lo n [(lo, n)] [] h') h.
Proof using Hlo Hn Hhi.
  clear Hfuel. intros Hs. unfold rt_page_init, rt_page_free, heap_take, heap_release.
  cbn [page_free_loop]. unfold page_link.
  wp_steps; cbn -[u16 u64]; rewrite ?Hs; try lia; try done. wp_steps. split.
  - unfold holds. cbn -[u64]. rewrite !upd_eq. cbn -[u64]. by rewrite u64_page by lia.
  - apply blocks_ok_cons. split_and!; [done..| |apply blocks_ok_nil].
    intros c j H. by apply not_elem_of_nil in H.
  - cbn. by rewrite ?Hs.
  - intros a k H. by apply not_elem_of_nil in H.
  - intros x. unfold cover. cbn -[inb]. lia.
Qed.

Lemma single_block l : blocks_ok l -> (forall x, cover x l = inb x (lo, n)) -> l = [(lo, n)].
Proof using Hn.
  clear Hlo Hhi Hfuel. intros Hok Hc.
  assert (Hf : forall x, free_page l x <-> lo <= x < lo + n).
  { intros x. change (lo <= x < lo + n) with (in_block x (lo, n)). rewrite inb_in, <-Hc. split.
    - intros H%cover_free. pose proof (Hc x). revert H0. unfold inb. case_match; lia.
    - intros H. apply cover_free_inv. lia. }
  destruct l as [|[b k] l]; [exfalso; by apply (free_page_nil lo), Hf; lia|].
  setoid_rewrite free_page_cons in Hf. unfold in_block in Hf. cbn in Hf.
  pose proof (fun x => free_page_above b k l x Hok) as Hab.
  apply blocks_ok_cons in Hok as (H1 & H2 & H3 & H4 & Hok).
  assert (Hb : lo <= b < lo + n) by (apply Hf; lia).
  assert (b = lo) as ->.
  { destruct (proj2 (Hf lo)) as [?|H]; [lia|lia|]. specialize (Hab lo H). lia. }
  assert (lo + k - 1 < lo + n) by (apply Hf; lia).
  assert (k = n) as ->.
  { destruct (decide (lo + k < lo + n)) as [?|?]; [|lia].
    destruct (proj2 (Hf (lo + k))) as [?|H0]; [lia|lia|]. specialize (Hab _ H0). lia. }
  destruct l as [|[c j] l]; [done|]. exfalso. specialize (H4 c j ltac:(set_solver)).
  apply blocks_ok_cons in Hok as (_ & ? & _). enough (c < lo + n) by lia. apply Hf. right.
  apply free_page_cons. left. unfold in_block. cbn. lia.
Qed.
End History.

(** In every history of allocations and releases on a heap of [n] pages
    from page [lo] on, every page is in exactly one block, free or allocated,
    and the free list stays sorted with its neighbours merged; when everything
    is released it is the one block of the start; and an allocation fails
    exactly when no free block is large enough. *)
Theorem rt_page_history fuel lo n ops h :
  0 < lo -> 0 < n -> lo + n < 2 ^ 52 -> (Z.to_nat n <= fuel)%nat ->
  heap_sem h = 1 -> Forall page_op_ok ops ->
  wp (rt_page_init lo n;; page_run fuel ops []) (fun out h' => exists l,
    page_inv lo n l out h' /\ (out = [] -> l = [(lo, n)]) /\
    forall npages, 0 < npages ->
      wp (rt_page_alloc fuel npages)
        (fun r _ => r = None <-> forall b k, (b, k) ∈ l -> k < npages) h') h.
Proof.
  intros Hlo Hn Hhi Hfuel Hs Hops. wp_steps. eapply wp_mono; [by apply page_init_inv|].
  intros [] h1 H1. eapply wp_mono; [by apply (page_run_inv fuel lo n Hlo Hn Hhi Hfuel _ [(lo, n)])|].
  intros out h2 [l H2]. exists l. split; [done|]. split.
  - intros ->. apply single_block; [done|apply H2|]. intros x. rewrite <-(pi_cover _ _ _ _ _ H2 x).
    by rewrite app_nil_r.
  - intros np Hnp. eapply wp_mono; [apply (page_alloc_inv fuel lo n Hn Hfuel np l out); [lia|done]|].
    intros [a|] h' Hr; [|split; [intros _; apply Hr; lia|done]].
    destruct Hr as (_ & b & k & Hb & Hk). split; [done|]. intros Hsm. specialize (Hsm b k Hb). lia.
Qed.

Definition ex_heap : heap := mkHeap (fun _ => mkPage None 0) None 1.
Definition ex_page_ops : list page_op := [PAlloc 2; PAlloc 3; PAlloc 9; PFree 1; PAlloc 1; PFree 1].

Lemma rt_page_history_ex :
  (exists h', wp (rt_page_init 100 8;; page_run 8 ex_page_ops [])
     (fun out h => out = [(100, 1)] /\ h' = h) ex_heap) /\
  wp (rt_page_init 100 8;; page_run 8 ex_page_ops []) (fun out h' => exists l,
    page_inv 100 8 l out h' /\ (out = [] -> l = [(100, 8)]) /\
    forall npages, 0 < npages ->
      wp (rt_page_alloc 8 npages)
        (fun r _ => r = None <-> forall b k, (b, k) ∈ l -> k < npages) h') ex_heap.
Proof.
  split.
  - eexists. vm_compute. split; reflexivity.
  - apply (rt_page_history 8 100 8 ex_page_ops ex_heap); [lia|lia|vm_compute; reflexivity|vm_compute; lia|reflexivity|].
    unfold ex_page_ops. repeat constructor; vm_compute; discriminate.
Defined.
