(* ===== verification/Idle.v ===== *)
(** The idle thread's work ([rt-thread/src/idle.c]): the threads on the defunct
    list are taken out of the object system, and the stack and the structure
    of those that [rt_thread_create] made are given back to the heap; and the
    hooks of the idle loop. *)
From S2P Require Import Prelude KService Timer KState KInv Sched Kernel KTimer Object.

Section idle.
Context (me : Z).
(** The cleanup functions of the application, [thread->cleanup(thread)]. *)
Context (cleanup_fun : Z -> tid -> K unit).
Let Kn : Kernel := Smp me.
#[local] Existing Instance Kn.

Definition _has_defunct_thread (s : kstate) : bool := bool_decide (lists s Defunct <> []).

(** With interrupts disabled: the first defunct thread, taken off the list. *)
Definition idle_take : K (option tid) :=
  rt_hw_interrupt_disable me;;
  s ← get;
  match lists s Defunct with
  | [] => mret None
  | thread :: _ => list_remove thread;; mret (Some thread)
  end.

(** The cleanup in the critical section; the result is whether the thread is
    a static object, which ends the call. *)
Definition idle_cleanup (thread : tid) : K bool :=
  rt_enter_critical me;;
  s ← get;
  when (negb (cleanup (threads s thread) =? 0))
    (cleanup_fun (cleanup (threads s thread)) thread);;
  s ← get;
  if rt_object_is_systemobject s (OThread thread) then
    rt_object_detach (OThread thread);;
    rt_exit_critical me;;
    rt_hw_interrupt_enable me;;
    mret true
  else
    rt_exit_critical me;;
    rt_hw_interrupt_enable me;;
    mret false.

(** [freed] are the threads whose stack and structure went back to the heap;
    at most [fuel] defunct threads are handled. *)
Fixpoint rt_thread_idle_excute (fuel : nat) (freed : list tid) : K (list tid) :=
  s ← get;
  if negb (_has_defunct_thread s) then mret freed
  else
    match fuel with
    | O => fail
    | S fuel =>
        RT_DEBUG_NOT_IN_INTERRUPT me;;
        thread ← idle_take;
        match thread with
        | None => rt_hw_interrupt_enable me;; mret freed
        | Some thread =>
            static ← idle_cleanup thread;
            if (static : bool) then mret freed
            else
              rt_object_delete (OThread thread);;
              rt_thread_idle_excute fuel (freed ++ [thread])
        end
    end.

(** The loop of [rt_thread_idle_entry] on CPU 0, [rounds] times: the hooks in
    the order of the table, then the cleanup. *)
Context (hook_fun : positive -> K unit).
Fixpoint run_hooks (idle_hook_list : list (option positive)) : K unit :=
  match idle_hook_list with
  | [] => mret tt
  | None :: l => run_hooks l
  | Some hook :: l => hook_fun hook;; run_hooks l
  end.

Fixpoint rt_thread_idle_entry (rounds fuel : nat) (idle_hook_list : list (option positive))
    (freed : list tid) : K (list tid) :=
  match rounds with
  | O => mret freed
  | S rounds =>
      run_hooks idle_hook_list;;
      freed ← rt_thread_idle_excute fuel freed;
      rt_thread_idle_entry rounds fuel idle_hook_list freed
  end.
End idle.

(** ** The hooks of the idle loop

    [idle_hook_list] is a table of [RT_IDLE_HOOK_LIST_SIZE] function pointers;
    a hook is its address.  Both operations run with interrupts disabled. *)
Definition RT_IDLE_HOOK_LIST_SIZE : nat := 4.

(** The first entry that holds [x] gets [v]. *)
Fixpoint hook_replace (x v : option positive) (l : list (option positive))
  : option (list (option positive)) :=
  match l with
  | [] => None
  | y :: l' => if bool_decide (y = x) then Some (v :: l') else cons y <$> hook_replace x v l'
  end.

Definition rt_thread_idle_sethook (hook : option positive) (idle_hook_list : list (option positive))
  : Z * list (option positive) :=
  match hook_replace None hook idle_hook_list with
  | Some l => (RT_EOK, l)
  | None => (- RT_EFULL, idle_hook_list)
  end.

Definition rt_thread_idle_delhook (hook : option positive) (idle_hook_list : list (option positive))
  : Z * list (option positive) :=
  match hook_replace hook None idle_hook_list with
  | Some l => (RT_EOK, l)
  | None => (- RT_ENOSYS, idle_hook_list)
  end.
