(* ===== verification/IdleProps.v ===== *)
(** The properties of the idle thread's cleanup: which defunct threads one call
    removes, and the order in which it takes the two spin locks. *)
From S2P Require Import Prelude KService Timer KState KInv Sched Kernel KTimer Object Thread ThreadSpec Idle Example Ipc IpcSpec.

(** * Critical sections inside the CPU lock *)
Section critical.
Context (me : Z) (cur : tid).

(** Other lock counters, and another state of the critical lock. *)
Definition recrit (n : tid -> nest) (b : bool) (s : kstate) : kstate :=
  set_nests n (set_critical_lock b s).

Lemma wp_enter_critical (Q : unit -> kstate -> Prop) s :
  rt_thread_self me s = Some cur -> critical_lock s = false ->
  nests s cur = mkNest 1 1 0 ->
  (forall n', n' cur = mkNest 2 1 1 -> (forall x, x <> cur -> n' x = nests s x) ->
    Q tt (recrit n' true s)) ->
  wp (rt_enter_critical me) Q s.
Proof using.
  intros Hs Hb Hn HQ. unfold rt_enter_critical, rt_hw_spin_lock_critical, nest_upd.
  wp_steps. rewrite Hs, Hn. cbn -[u16]. wp_steps; [by rewrite Hb|]. apply HQ.
  - cbn -[u16]. rewrite !upd_eq. cbn -[u16]. by rewrite Hn.
  - intros x Hx. cbn -[u16]. by rewrite !upd_ne by done.
Qed.

(** The CPU lock is held, so the scheduler is not called. *)
Lemma wp_exit_critical (Q : unit -> kstate -> Prop) s :
  rt_thread_self me s = Some cur -> nests s cur = mkNest 2 1 1 ->
  (forall n', n' cur = mkNest 1 1 0 -> (forall x, x <> cur -> n' x = nests s x) ->
    Q tt (recrit n' false s)) ->
  wp (rt_exit_critical me) Q s.
Proof using.
  intros Hs Hn HQ. unfold rt_exit_critical, nest_upd. wp_steps. rewrite Hs. wp_steps.
  set (n' := upd _ _ _). assert (Hn' : n' cur = mkNest 1 1 0).
  { unfold n'. cbn -[u16]. rewrite !upd_eq. cbn -[u16]. by rewrite Hn. }
  assert (Ho : forall x, x <> cur -> n' x = nests s x).
  { intros x Hx. unfold n'. cbn -[u16]. by rewrite !upd_ne by done. }
  clearbody n'. cbn. rewrite Hn'. cbn. wp_steps. cbn. rewrite Hn'. cbn. wp_steps. by apply HQ.
Qed.

(** What was done inside the section is what is left of it. *)
Lemma keq_recrit n n' s s' :
  keq (recrit n true s) s' -> critical_lock s = false ->
  (forall x, critical_lock_nest (n' x) = critical_lock_nest (nests s x)) ->
  keq s (recrit n' false s').
Proof using. intros [] Hc Hn. by split. Qed.
End critical.

(** * The removal of one defunct thread *)
Definition reap_core (t : tid) (s : kstate) : kstate :=
  object_gone (OThread t) (unlinked t s).

#[export] Instance reap_core_proper : Proper (eq ==> keq ==> keq) reap_core.
Proof.
  intros t _ <- s s' E. unfold reap_core, object_gone. destruct (keq_unlinked s s' t E).
  split; cbn; try done; intros.
  - unfold upd. case_decide; [done|by apply E].
  - f_equal. apply E.
Qed.

Section reap.
Context (s : kstate) (t : tid) (Hi : kinv s) (Hin : t ∈ lists s Defunct).

Lemma defunct_closed : is_thread s t /\ th_stat (threads s t) = RT_THREAD_CLOSE.
Proof using Hi Hin. apply (kw_loc _ (ki_wf _ Hi) Defunct t Hin). Qed.

Lemma defunct_timer : ThreadTimer t ∉ timer_list (tm s).
Proof using Hi Hin.
  intros H. destruct (kw_timer _ (ki_wf _ Hi) t H) as [_ H1].
  by rewrite (proj2 defunct_closed) in H1.
Qed.

Lemma unlinked_self : unlinked_in (unlinked t s) t.
Proof using. intros h. cbn. rewrite elem_of_remove_elt. naive_solver. Qed.

Lemma unlinked_defunct_kinv : kinv (unlinked t s).
Proof using Hi Hin.
  destruct defunct_closed as [Ht Hst].
  assert (K : kwf (with_thread t (threads s t) (unlinked t s))).
  { apply kwf_unlink_quiet; try done.
    - apply Hi.
    - intros _ [H|[H|H]]; by rewrite Hst in H.
    - by rewrite Hst.
    - intros H. by destruct defunct_timer.
    - by rewrite Hst. }
  assert (Et : forall x, threads (unlinked t s) x = upd (threads s) t (threads s t) x).
  { intros x. unfold upd. case_decide; by subst. }
  apply (kinv_thread s t Hi Ht _ (threads s t)); try done; [|apply Hi|by rewrite Hst].
  eapply kwf_keq; [|exact K]. by split.
Qed.

Lemma reap_core_ok : kinv (reap_core t s) /\ no_new s (reap_core t s) /\
  forall x, is_thread (reap_core t s) x <-> x <> t /\ is_thread s x.
Proof using Hi Hin.
  apply (object_gone_ok t (unlinked t s)).
  - apply unlinked_defunct_kinv.
  - apply unlinked_self.
  - apply defunct_closed.
  - apply defunct_timer.
Qed.
End reap.

Section gone.
Context (me : Z) (o : obj).

Lemma sim_does d s s0 s' :
  sim me d s0 s' -> rt_thread_self me s0 = rt_thread_self me s -> nests s0 = nests s ->
  does me d s s0 s'.
Proof using.
  intros Hs Es En. split_and!; [by eapply sim_keq|by eapply sim_depth|].
  destruct Hs as (n & b & -> & Ha & _). intros x Hx. cbn. rewrite (proj2 (Ha x)), En; [done|].
  by rewrite Es.
Qed.

Lemma rt_object_detach_does d s : lock_depth me d s -> 0 <= d < 32767 ->
  wp (rt_object_detach (Kn := Smp me) o) (fun _ => does me d s (object_gone o s)) s.
Proof using.
  intros Hd Hd0.
  eapply wp_mono; [eapply (wp_erase me d d _ _ _ (fun _ s' => s' = object_gone o s) s);
    [by apply rt_object_detach_er|by apply sim_refl|]|].
  - unfold rt_object_detach, otype_upd, container_remove. cbn [interrupt_disable interrupt_enable Big].
    by wp_steps.
  - intros [] s' (s0 & -> & Hs & Es & En). by apply sim_does.
Qed.

Lemma rt_object_delete_does d s : lock_depth me d s -> 0 <= d < 32767 ->
  rt_object_is_systemobject s o = false ->
  wp (rt_object_delete (Kn := Smp me) o) (fun _ => does me d s (object_gone o s)) s.
Proof using.
  intros Hd Hd0 Hsys.
  eapply wp_mono; [eapply (wp_erase me d d _ _ _ (fun _ s' => s' = object_gone o s) s);
    [by apply rt_object_delete_er|by apply sim_refl|]|].
  - unfold rt_object_delete, otype_upd, container_remove. cbn [interrupt_disable interrupt_enable Big].
    wp_steps; [by rewrite Hsys|done].
  - intros [] s' (s0 & -> & Hs & Es & En). by apply sim_does.
Qed.
End gone.

#[export] Instance object_gone_proper : Proper (eq ==> keq ==> keq) object_gone.
Proof.
  intros o _ <- s s' E. unfold object_gone. destruct E as [].
  split; cbn; try done; intros; unfold upd; try case_decide; try done; congruence.
Qed.

(** The state after the threads [gone] were removed, in order. *)
Definition reaped (gone : list tid) (s : kstate) : kstate :=
  foldl (fun s t => reap_core t s) s gone.

(** One call stops behind the first static thread: the threads it removes, and
    those it leaves. *)
Fixpoint reap (static : tid -> bool) (l : list tid) : list tid * list tid :=
  match l with
  | [] => ([], [])
  | t :: l' =>
      if static t then ([t], l')
      else let (gone, rest) := reap static l' in (t :: gone, rest)
  end.

Lemma reap_app static l : l = (reap static l).1 ++ (reap static l).2.
Proof.
  induction l as [|t l IH]; cbn; [done|]. destruct (static t); [done|].
  destruct (reap static l) as [gone rest]. cbn in *. by rewrite <-IH.
Qed.

Lemma reap_ext f g l : (forall t, t ∈ l -> f t = g t) -> reap f l = reap g l.
Proof.
  induction l as [|t l IH]; cbn; intros H; [done|]. rewrite H by set_solver.
  by rewrite IH by set_solver.
Qed.

Lemma filter_eq_in (f g : tid -> bool) (l : list tid) : (forall t, t ∈ l -> f t = g t) ->
  filter (fun t => f t = false) l = filter (fun t => g t = false) l.
Proof.
  induction l as [|t l IH]; intros H; [done|]. rewrite !filter_cons, IH by set_solver.
  by rewrite H by set_solver.
Qed.

Lemma filter_eq_in' (f g : tid -> bool) (l : list tid) : (forall t, t ∈ l -> f t = g t) ->
  filter (fun t => f t = true) l = filter (fun t => g t = true) l.
Proof.
  induction l as [|t l IH]; intros H; [done|]. rewrite !filter_cons, IH by set_solver.
  by rewrite H by set_solver.
Qed.

Definition static_in (s : kstate) (t : tid) : bool := rt_object_is_systemobject s (OThread t).

Lemma unlinked_rest s t D : kinv s -> lists s Defunct = t :: D -> lists (reap_core t s) Defunct = D.
Proof.
  intros Hi El. cbn. rewrite El. pose proof (kw_nodup _ (ki_wf _ Hi) Defunct) as Hn.
  rewrite El in Hn. apply NoDup_cons in Hn as [Hn _]. unfold remove_elt. cbn.
  rewrite decide_False by naive_solver. by apply remove_elt_notin.
Qed.

(** * What a cleanup function may do

    [thread->cleanup(thread)] is code of the application.  It runs with
    interrupts disabled and in a critical section, after its thread was taken
    off the defunct list. *)
Record in_cleanup (me : Z) (cur t : tid) (s : kstate) : Prop := {
  cu_self : rt_thread_self me s = Some cur;
  cu_nest : nests s cur = mkNest 2 1 1;
  cu_lock : cpus_lock s = true;
  cu_crit : critical_lock s = true;
  cu_irq : irq_nest (cpus s me) = 0;
  cu_kinv : kinv s;
  cu_thread : is_thread s t;
  cu_closed : th_stat (threads s t) = RT_THREAD_CLOSE;
  cu_off : unlinked_in s t;
  cu_timer : ThreadTimer t ∉ timer_list (tm s) }.

(** It may do to the kernel what it wants (free memory, give a semaphore and so
    wake threads, delete an IPC object, change the fields of its thread), as
    long as no thread is made, finished or removed from the kernel. *)
Record no_thread_changes (s s' : kstate) : Prop := {
  nt_defunct : lists s' Defunct = lists s Defunct;
  nt_type : forall x, otype s' (OThread x) = otype s (OThread x);
  nt_container : forall x c, OThread x ∈ containers s' c <-> OThread x ∈ containers s c;
  nt_closed : forall x, th_stat (threads s x) = RT_THREAD_CLOSE -> th_stat (threads s' x) = RT_THREAD_CLOSE }.

(** It returns, with the locks as they were and the kernel well-formed; it runs
    under the CPU lock, so that no CPU runs another thread afterwards. *)
Definition cleanup_ok (me : Z) (cur : tid) (cleanup_fun : Z -> tid -> K unit) : Prop :=
  forall f t s, in_cleanup me cur t s ->
    wp (cleanup_fun f t) (fun _ s' => in_cleanup me cur t s' /\ no_thread_changes s s' /\
      (forall c, rt_thread_self c s' = rt_thread_self c s) /\
      forall x, x <> cur -> nests s' x = nests s x) s.

(** * One call of [rt_thread_idle_excute] *)
Section round.
Context (me : Z) (cur : tid) (cleanup_fun : Z -> tid -> K unit).

(** The cleanup function was called, inside a critical section, in [s], and
    left [s1] behind. *)
Definition called (f : Z) (t : tid) (s s1 : kstate) : Prop :=
  exists n sin sout, in_cleanup me cur t sin /\ keq s (recrit n false sin) /\
    cleanup_fun f t sin = Some (tt, sout) /\ s1 = recrit n false sout.

(** The threads are removed in this order, each after its cleanup. *)
Inductive reap_run : list tid -> kstate -> kstate -> Prop :=
  | rr_nil s s' : keq s s' -> reap_run [] s s'
  | rr_plain t l s s' : cleanup (threads s t) = 0 ->
      reap_run l (reap_core t s) s' -> reap_run (t :: l) s s'
  | rr_cleanup t l s s1 s' : cleanup (threads s t) <> 0 ->
      called (cleanup (threads s t)) t (unlinked t s) s1 ->
      reap_run l (object_gone (OThread t) s1) s' -> reap_run (t :: l) s s'.

(** The idle thread holds the CPU lock [d] times and nothing else. *)
Record at_depth (d : Z) (s0 s : kstate) : Prop := {
  ad_keq : keq s0 s;
  ad_self : rt_thread_self me s0 = Some cur;
  ad_depth : lock_depth me d s;
  ad_crit : critical_lock_nest (nests s0 cur) = 0;
  ad_free : critical_lock s0 = false }.

Lemma at_depth_nest d s0 s : at_depth d s0 s ->
  rt_thread_self me s = Some cur /\ critical_lock s = false /\
  nests s cur = mkNest (if d =? 0 then 0 else 1) d 0.
Proof using.
  intros [E Hs Hd Hc Hf]. assert (Es : rt_thread_self me s = Some cur) by by rewrite (keq_self _ _ me E).
  split_and!; [done|by rewrite <-(keq_critical _ _ E)|]. unfold lock_depth in Hd. rewrite Es in Hd.
  destruct Hd as (D1 & D2 & D3 & D4). rewrite <-(keq_crit _ _ E cur), Hc in D3.
  pose proof (keq_crit _ _ E cur) as D5. rewrite Hc in D5.
  destruct (nests s cur) as [a b c]. cbn in *. subst. by destruct (d =? 0).
Qed.

Lemma wp_idle_take s0 s t D :
  at_depth 0 s0 s -> lists s0 Defunct = t :: D ->
  wp (idle_take me) (fun r s' => r = Some t /\ at_depth 1 (unlinked t s0) s' /\
    forall x, x <> cur -> nests s' x = nests s x) s.
Proof using.
  intros Ha El. destruct (at_depth_nest _ _ _ Ha) as (Es & _ & _). destruct Ha as [E Hs Hd Hc Hf].
  unfold idle_take. apply wp_bind, (wp_lock me 0); [done|lia|]. intros s1 H1 Hd1.
  wp_steps. rewrite <-(keq_lists _ _ (proj1 H1)), <-(keq_lists _ _ E), El. wp_steps.
  split; [done|]. split; [split; try done|].
  - apply keq_unlinked. etrans; [exact E|apply H1].
  - intros x Hx. apply H1. congruence.
Qed.

(** The end of [idle_cleanup], from the class check on. *)
Definition cleanup_end (t : tid) : K bool :=
  s ← get;
  if rt_object_is_systemobject s (OThread t) then
    rt_object_detach (Kn := Smp me) (OThread t);;
    rt_exit_critical me;; rt_hw_interrupt_enable me;; mret true
  else rt_exit_critical me;; rt_hw_interrupt_enable me;; mret false.

Section cleanup_end.
Context (s : kstate) (n1 : tid -> nest) (Ha : at_depth 1 s s) (Hn1 : n1 cur = mkNest 2 1 1).
Let s1 := recrit n1 true s.

Lemma cleanup_depth : lock_depth me 1 s1.
Proof using Ha Hn1.
  destruct (at_depth_nest _ _ _ Ha) as (Es & _ & _). pose proof (ad_depth _ _ _ Ha) as Hd.
  unfold lock_depth in *. change (rt_thread_self me s1) with (rt_thread_self me s). rewrite Es in *.
  cbn [s1 recrit set_nests nests cpus_lock set_critical_lock]. rewrite Hn1. cbn.
  split_and!; try done; try lia. apply Hd.
Qed.

Lemma wp_cleanup_exit (b : bool) t s3 :
  does me 1 s1 (recrit n1 true (if b then object_gone (OThread t) s else s)) s3 ->
  (forall x, x <> cur -> critical_lock_nest (n1 x) = critical_lock_nest (nests s x)) ->
  wp (rt_exit_critical me;; rt_hw_interrupt_enable me;; mret b) (fun r s' => r = b /\
    at_depth 0 (if b then object_gone (OThread t) s else s) s' /\
    forall x, x <> cur -> nests s' x = n1 x) s3.
Proof using Ha Hn1.
  intros (E3 & D3 & N3) Ho1. destruct (at_depth_nest _ _ _ Ha) as (Es & Hcl & Hn).
  assert (Hcl2 : critical_lock (if b then object_gone (OThread t) s else s) = false) by by destruct b.
  assert (Es3 : rt_thread_self me s3 = Some cur).
  { rewrite (keq_self _ _ me E3). by destruct b. }
  pose proof (keq_crit _ _ E3 cur) as C3. cbn [recrit set_nests nests] in C3. rewrite Hn1 in C3.
  assert (Hn3 : nests s3 cur = mkNest 2 1 1).
  { unfold lock_depth in D3. rewrite Es3 in D3. destruct D3 as (L1 & _ & L3 & _).
    destruct (nests s3 cur) as [a x c]. cbn in *. by subst. }
  apply wp_bind, (wp_exit_critical me cur); [done..|]. intros n4 Hn4 Ho4.
  apply wp_bind, (wp_unlock me 0); [|lia|].
  { unfold lock_depth in *. change (rt_thread_self me (recrit n4 false s3)) with (rt_thread_self me s3).
    rewrite Es3 in *. cbn [recrit set_nests nests cpus_lock set_critical_lock]. rewrite Hn4.
    split_and!; try done; try (cbn; lia). apply D3. }
  intros s5 [E5 N5] D5. wp_steps. split; [done|]. split; [split; try done|].
  - etrans; [|exact E5]. apply (keq_recrit n1 n4 _ s3 E3 Hcl2).
    intros x. destruct (decide (x = cur)) as [->|Hx].
    + rewrite Hn4. destruct b; cbn; by rewrite Hn.
    + rewrite Ho4 by done. rewrite <-(keq_crit _ _ E3 x). cbn. rewrite Ho1 by done. by destruct b.
  - by destruct b.
  - destruct b; apply Ha.
  - intros x Hx. rewrite N5 by (change (rt_thread_self me s3 <> Some x); congruence).
    cbn. rewrite Ho4, N3 by (done || (change (rt_thread_self me s <> Some x); congruence)). done.
Qed.

Lemma wp_cleanup_end t :
  (forall x, x <> cur -> critical_lock_nest (n1 x) = critical_lock_nest (nests s x)) ->
  let static := static_in s t in
  wp (cleanup_end t) (fun r s' => r = static /\
    at_depth 0 (if static then object_gone (OThread t) s else s) s' /\
    forall x, x <> cur -> nests s' x = n1 x) s1.
Proof using Ha Hn1.
  intros Ho1. unfold cleanup_end. wp_steps.
  change (rt_object_is_systemobject s1 (OThread t)) with (static_in s t). cbv zeta.
  destruct (static_in s t) eqn:Est.
  - wp_steps. eapply wp_mono; [apply (rt_object_detach_does me (OThread t) 1);
      [exact cleanup_depth|lia]|].
    intros [] s3 H3. by apply (wp_cleanup_exit true).
  - apply (wp_cleanup_exit false t); [|done]. split_and!; [done|exact cleanup_depth|done].
Qed.
End cleanup_end.

(** The thread [t] was taken off the defunct list and nothing else. *)
Definition taken_off (t : tid) (s0 : kstate) : Prop :=
  kinv s0 /\ is_thread s0 t /\ th_stat (threads s0 t) = RT_THREAD_CLOSE /\ unlinked_in s0 t /\
  ThreadTimer t ∉ timer_list (tm s0) /\ irq_nest (cpus s0 me) = 0.

(** What the cleanup, if there is one, makes of the state. *)
Definition cleaned (t : tid) (s0 s1 : kstate) : Prop :=
  taken_off t s1 /\ no_thread_changes s0 s1 /\
  (forall c, rt_thread_self c s1 = rt_thread_self c s0) /\
  (cleanup (threads s0 t) = 0 -> keq s0 s1) /\
  (cleanup (threads s0 t) <> 0 -> called (cleanup (threads s0 t)) t s0 s1).

Hypothesis Hclean : cleanup_ok me cur cleanup_fun.

Lemma kinv_recrit n b s : kinv s -> kinv (recrit n b s).
Proof using. clear. intros [[] [] ? ?]. split; [by split|by split|done|done]. Qed.

Lemma in_cleanup_keq n1 t s0 s :
  at_depth 1 s0 s -> taken_off t s0 -> n1 cur = mkNest 2 1 1 -> in_cleanup me cur t (recrit n1 true s).
Proof using.
  clear. intros Ha (Hi & Ht & Hst & Hu & Htm & Hirq) Hn. destruct (at_depth_nest _ _ _ Ha) as (Es & _ & _).
  pose proof (ad_keq _ _ _ Ha) as E. pose proof (ad_depth _ _ _ Ha) as Hd.
  unfold lock_depth in Hd. rewrite Es in Hd.
  split; try done.
  - apply Hd.
  - rewrite <-Hirq. cbn. by rewrite (keq_cpus _ _ E).
  - apply kinv_recrit. by rewrite <-E.
  - change (is_thread s t). by rewrite <-E.
  - cbn. by rewrite <-(keq_threads _ _ E).
  - intros h. cbn. by rewrite <-(keq_lists _ _ E).
  - cbn. by rewrite <-(keq_tm _ _ E).
Qed.

Lemma recrit_back n b' s : critical_lock s = true -> s = recrit (nests s) true (recrit n b' s).
Proof using. clear. destruct s. cbn. by intros ->. Qed.

Lemma wp_result {A} (m : K A) (Q : A -> kstate -> Prop) s :
  wp m Q s -> exists a s', m s = Some (a, s') /\ Q a s'.
Proof using. clear. unfold wp. destruct (m s) as [[a s']|]; [eauto|done]. Qed.
Lemma wp_known {A} (m : K A) a s' (Q : A -> kstate -> Prop) s : m s = Some (a, s') -> Q a s' -> wp m Q s.
Proof using. clear. unfold wp. by intros ->. Qed.

Lemma reap_run_keq l s0 s1 s' : keq s0 s1 -> reap_run l s0 s' -> reap_run l s1 s'.
Proof using.
  clear. intros E Hr. revert s1 E.
  induction Hr as [s s' H|t l s s' Hc Hr IH|t l s s1 s' Hc Hca Hr IH]; intros s2 E.
  - apply rr_nil. by rewrite <-E.
  - apply rr_plain; [by rewrite <-E|]. apply IH. by rewrite E.
  - apply (rr_cleanup t l s2 s1); [by rewrite <-E| |done]. rewrite <-(keq_threads _ _ E).
    destruct Hca as (n & sin & sout & H1 & H2 & H3). exists n, sin, sout. split; [done|].
    split; [|done]. by rewrite <-(keq_unlinked _ _ t E).
Qed.

Lemma no_thread_changes_keq s0 s s' : keq s0 s -> no_thread_changes s s' -> no_thread_changes s0 s'.
Proof using.
  clear. intros E [H1 H2 H3 H4]. split.
  - by rewrite H1, (keq_lists _ _ E).
  - intros x. by rewrite H2, (keq_otype _ _ E).
  - intros x c. by rewrite H3, (keq_containers _ _ E).
  - intros x. rewrite (keq_threads _ _ E). apply H4.
Qed.

Lemma at_depth_keq d s0 s0' s : keq s0 s0' -> at_depth d s0 s -> at_depth d s0' s.
Proof using.
  clear. intros E [H1 H2 H3 H4 H5]. split; [by rewrite <-E|by rewrite (keq_self _ _ me E)|done| |].
  - by rewrite <-(keq_crit _ _ E).
  - by rewrite <-(keq_critical _ _ E).
Qed.

Lemma static_in_type s s' t : otype s' (OThread t) = otype s (OThread t) -> static_in s' t = static_in s t.
Proof using. clear. unfold static_in, rt_object_is_systemobject. by intros ->. Qed.

(** The state outside the section, after the cleanup function ran inside. *)
Lemma called_ok n1 t s0 s s2 :
  at_depth 1 s0 s -> taken_off t s0 -> n1 cur = mkNest 2 1 1 ->
  cleanup_fun (cleanup (threads s0 t)) t (recrit n1 true s) = Some (tt, s2) ->
  in_cleanup me cur t s2 -> no_thread_changes (recrit n1 true s) s2 ->
  let s1 := recrit (nests s) false s2 in
  called (cleanup (threads s0 t)) t s0 s1 /\ taken_off t s1 /\ no_thread_changes s0 s1 /\
  at_depth 1 s1 s1.
Proof using.
  clear Hclean. intros Ha Ho Hn1 Ef Hc2 Hnt s1. pose proof (in_cleanup_keq n1 t s0 s Ha Ho Hn1) as Hc1.
  destruct (at_depth_nest _ _ _ Ha) as (Es & Hcl & Hn). pose proof (ad_keq _ _ _ Ha) as E.
  destruct Hc2 as [C1 C2 C3 C4 C5 C6 C7 C8 C9 C10].
  assert (E1 : keq s (recrit (nests s) false (recrit n1 true s))) by by split.
  split_and!.
  - exists (nests s), (recrit n1 true s), s2. split_and!; [done|by etrans|done|done].
  - split_and!; try done. by apply kinv_recrit.
  - apply (no_thread_changes_keq s0 s s1 E). by destruct Hnt.
  - split; try done.
    + unfold lock_depth. change (rt_thread_self me s1) with (rt_thread_self me s2). rewrite C1.
      cbn [s1 recrit set_nests nests cpus_lock set_critical_lock]. rewrite Hn. cbn.
      split_and!; try done; lia.
    + cbn. by rewrite Hn.
Qed.

Lemma wp_idle_cleanup s0 s t :
  at_depth 1 s0 s -> taken_off t s0 ->
  wp (idle_cleanup me cleanup_fun t) (fun r s' => r = static_in s0 t /\
    exists s1, cleaned t s0 s1 /\
      at_depth 0 (if static_in s0 t then object_gone (OThread t) s1 else s1) s' /\
      forall x, x <> cur -> nests s' x = nests s x) s.
Proof using Hclean.
  intros Ha Ho. destruct (at_depth_nest _ _ _ Ha) as (Es & Hcl & Hn). pose proof (ad_keq _ _ _ Ha) as E.
  unfold idle_cleanup. apply wp_bind, (wp_enter_critical me cur); [done..|].
  intros n1 Hn1 Ho1. wp_steps. change (threads (recrit n1 true s) t) with (threads s t).
  rewrite <-(keq_threads _ _ E). unfold when. destruct (Z.eqb_spec (cleanup (threads s0 t)) 0) as [Ec|Ec]; cbn [negb].
  - wp_step. assert (Has : at_depth 1 s s).
    { split; try done; [apply Ha|by rewrite Hn]. }
    eapply wp_mono; [apply (wp_cleanup_end s n1 Has Hn1 t); intros x Hx; by rewrite Ho1|].
    cbv zeta. intros ? s' (-> & Ha' & Hn').
    assert (Et : static_in s t = static_in s0 t) by (apply static_in_type; by rewrite (keq_otype _ _ E)).
    rewrite Et in *. split; [done|]. exists s0. split; [|split].
    + split; [done|]. split; [by split|by split].
    + destruct (static_in s0 t); [|by apply (at_depth_keq 0 s)].
      apply (at_depth_keq 0 (object_gone (OThread t) s)); [by rewrite E|done].
    + intros x Hx. by rewrite Hn', Ho1.
  - pose proof (Hclean (cleanup (threads s0 t)) t _ (in_cleanup_keq n1 t s0 s Ha Ho Hn1)) as W.
    destruct (wp_result _ _ _ W) as ([] & s2 & Ef & Hc2 & Hnt & Hsf & Hn2).
    apply (wp_known _ tt s2); [done|].
    destruct (called_ok n1 t s0 s s2 Ha Ho Hn1 Ef Hc2 Hnt) as (H1 & H2 & H3 & H4).
    set (s1 := recrit (nests s) false s2) in *.
    rewrite (recrit_back (nests s) false s2 (cu_crit _ _ _ _ Hc2)). fold s1.
    eapply wp_mono; [apply (wp_cleanup_end s1 (nests s2) H4 (cu_nest _ _ _ _ Hc2) t)|].
    { intros x Hx. cbn. rewrite Hn2 by done. cbn. by rewrite Ho1. }
    cbv zeta. intros ? s' (-> & Ha' & Hn').
    assert (Et : static_in s1 t = static_in s0 t) by (apply static_in_type; apply H3).
    rewrite Et in *. split; [done|]. exists s1.
    split; [split; [done|split; [done|split; [|done]]]|].
    { intros c. rewrite <-(keq_self _ _ c E). exact (Hsf c). }
    split; [done|].
    intros x Hx. rewrite Hn', Hn2 by done. cbn. by rewrite Ho1.
Qed.

Lemma taken_off_first s t D :
  kinv s -> irq_nest (cpus s me) = 0 -> lists s Defunct = t :: D -> taken_off t (unlinked t s).
Proof using.
  clear. intros Hi Hirq El. assert (Hin : t ∈ lists s Defunct) by (rewrite El; by left).
  destruct (defunct_closed s t Hi Hin) as [Ht Hst].
  split; [by apply unlinked_defunct_kinv|]. split; [done|]. split; [done|].
  split; [apply unlinked_self|]. split; [exact (defunct_timer s t Hi Hin)|done].
Qed.

(** What is known of the state after the threads [gone] were removed. *)
Definition after_reap (gone rest : list tid) (s0 s1 : kstate) : Prop :=
  kinv s1 /\ lists s1 Defunct = rest /\ irq_nest (cpus s1 me) = 0 /\ no_new s0 s1 /\
  (forall c, rt_thread_self c s1 = rt_thread_self c s0) /\
  (forall x, x ∉ gone -> otype s1 (OThread x) = otype s0 (OThread x)) /\
  (forall x, is_thread s1 x <-> is_thread s0 x /\ x ∉ gone) /\
  (forall x c, OThread x ∈ containers s1 c <-> OThread x ∈ containers s0 c /\ x ∉ gone).

(** The object of a cleaned thread leaves the object system. *)
Lemma after_cleaned s0 t D s1 :
  kinv s0 -> lists s0 Defunct = t :: D -> cleaned t (unlinked t s0) s1 ->
  after_reap [t] D s0 (object_gone (OThread t) s1).
Proof using.
  clear. intros Hi El ((I1 & I2 & I3 & I4 & I5 & I6) & [N1 N2 N3 N4] & N5 & _).
  destruct (object_gone_ok t s1 I1 I4 I3 I5) as (G1 & G2 & G3). split_and!; try done.
  - cbn. rewrite N1. exact (unlinked_rest s0 t D Hi El).
  - intros x Hx Hs. destruct (G2 x Hx Hs) as [Hx1 Hs1]. split.
    + unfold is_thread, rt_object_get_type in *. by rewrite N2 in Hx1.
    + intros Hc. by apply Hs1, (N4 x).
  - intros x Hx. cbn. rewrite upd_ne by set_solver. apply N2.
  - intros x. rewrite G3. unfold is_thread, rt_object_get_type. rewrite N2. cbn. set_solver.
  - intros x c. cbn. rewrite elem_of_remove_elt, N3. cbn. set_solver.
Qed.

Lemma after_reap_trans t gone rest D s0 s1 s2 :
  after_reap [t] D s0 s1 -> after_reap gone rest s1 s2 -> after_reap (t :: gone) rest s0 s2.
Proof using.
  clear. intros (A1 & A2 & A3 & A4 & A5 & A6 & A7 & A8) (B1 & B2 & B3 & B4 & B5 & B6 & B7 & B8).
  split_and!; try done.
  - by etrans.
  - intros c. by rewrite B5.
  - intros x Hx. rewrite B6, A6 by set_solver. done.
  - intros x. rewrite B7, A7. set_solver.
  - intros x c. rewrite B8, A8. set_solver.
Qed.

Lemma reap_run_cleaned t l s0 s1 s' :
  cleaned t (unlinked t s0) s1 -> reap_run l (object_gone (OThread t) s1) s' ->
  reap_run (t :: l) s0 s'.
Proof using.
  clear. intros (_ & _ & _ & H1 & H2) Hr. destruct (decide (cleanup (threads s0 t) = 0)) as [Ec|Ec].
  - apply rr_plain; [done|]. specialize (H1 Ec). unfold reap_core. by eapply reap_run_keq; [rewrite H1|].
  - by apply (rr_cleanup t l s0 s1); [|apply H2|].
Qed.

Lemma wp_idle_loop D : forall fuel acc s0 s gone rest,
  at_depth 0 s0 s -> kinv s0 -> irq_nest (cpus s0 me) = 0 ->
  lists s0 Defunct = D -> (length D <= fuel)%nat ->
  reap (static_in s0) D = (gone, rest) ->
  wp (rt_thread_idle_excute me cleanup_fun fuel acc) (fun r s' =>
    r = acc ++ filter (fun t => static_in s0 t = false) gone /\
    exists s1, reap_run gone s0 s1 /\ after_reap gone rest s0 s1 /\ at_depth 0 s1 s' /\
      forall x, x <> cur -> nests s' x = nests s x) s.
Proof using Hclean.
  induction D as [|t D IH]; intros fuel acc s0 s gone rest Ha Hi Hirq El Hf Er.
  { cbn [reap] in Er. injection Er as <- <-. destruct fuel; cbn [rt_thread_idle_excute]; wp_steps;
      unfold _has_defunct_thread; rewrite <-(keq_lists _ _ (ad_keq _ _ _ Ha)), El;
      rewrite bool_decide_false by (by intros []); cbn [negb]; wp_steps;
      (split; [by rewrite app_nil_r|]; exists s0; split; [by apply rr_nil|]; split; [|done]);
      split_and!; try done; set_solver. }
  destruct fuel as [|fuel]; [cbn in Hf; lia|]. cbn [length] in Hf.
  assert (Hin : t ∈ lists s0 Defunct) by (rewrite El; by left).
  assert (Hnd : t ∉ D).
  { pose proof (kw_nodup _ (ki_wf _ Hi) Defunct) as Hnd. rewrite El in Hnd.
    by apply NoDup_cons in Hnd as [? _]. }
  cbn [rt_thread_idle_excute]. wp_steps. unfold _has_defunct_thread.
  rewrite <-(keq_lists _ _ (ad_keq _ _ _ Ha)), El, bool_decide_true by done. cbn [negb].
  unfold RT_DEBUG_NOT_IN_INTERRUPT. wp_steps.
  { unfold rt_interrupt_get_nest. by rewrite <-(keq_cpus _ _ (ad_keq _ _ _ Ha)), Hirq. }
  eapply wp_mono; [by apply (wp_idle_take s0 s t D)|]. intros ? s1 (-> & Ha1 & Hn1). wp_steps.
  eapply wp_mono; [apply (wp_idle_cleanup _ _ _ Ha1); by apply (taken_off_first s0 t D)|].
  cbv beta. intros ? s2 (-> & sc & Hc & Ha2 & Hn2).
  change (static_in (unlinked t s0) t) with (static_in s0 t) in *.
  pose proof (after_cleaned s0 t D sc Hi El Hc) as Hr. cbn [reap] in Er. destruct (static_in s0 t) eqn:Est.
  { injection Er as <- <-. wp_steps. rewrite filter_cons_False, app_nil_r by congruence. split; [done|].
    exists (object_gone (OThread t) sc). split; [apply (reap_run_cleaned _ _ _ _ _ Hc); by apply rr_nil|].
    split; [done|]. split; [done|]. intros x Hx. by rewrite Hn2, Hn1. }
  assert (Est2 : rt_object_is_systemobject s2 (OThread t) = false).
  { unfold rt_object_is_systemobject. rewrite <-(keq_otype _ _ (ad_keq _ _ _ Ha2)).
    destruct Hc as (_ & Hnt & _). by rewrite (nt_type _ _ Hnt). }
  wp_steps. eapply wp_mono; [by apply (rt_object_delete_does me (OThread t) 0); [apply Ha2|lia|]|].
  intros [] s3 (E3 & D3 & N3). set (sg := object_gone (OThread t) sc) in *.
  assert (Ha3 : at_depth 0 sg s3).
  { destruct Ha2 as [H1 H2 H3 H4 H5]. split; try done. etrans; [|exact E3]. unfold sg. by rewrite H1. }
  destruct (id Hr) as (R1 & R2 & R3 & R4 & R5 & R6 & R7 & R8).
  assert (Hs : forall x, x ∈ D -> static_in sg x = static_in s0 x).
  { intros x Hx. apply static_in_type, R6. set_solver. }
  pose proof (reap_app (static_in s0) D) as Happ.
  destruct (reap (static_in s0) D) as [g r] eqn:Eg. cbn [fst snd] in *. injection Er as <- <-.
  pose proof (IH fuel (acc ++ [t]) sg s3 g r Ha3 R1 R3 R2 ltac:(lia)) as W.
  rewrite (reap_ext _ _ D Hs) in W. specialize (W Eg).
  eapply wp_mono; [exact W|]. intros ? s4 (-> & sf & Hrun & Haf & Ha4 & Hn4).
  rewrite filter_cons_True by done. rewrite <-app_assoc. split.
  - do 2 f_equal. apply filter_eq_in. intros x Hx. rewrite Hs; [done|]. rewrite Happ. set_solver.
  - exists sf. split; [by apply (reap_run_cleaned _ _ _ _ _ Hc)|].
    split; [by apply (after_reap_trans t g r D s0 sg)|]. split; [done|].
    intros x Hx. rewrite Hn4, N3, Hn2, Hn1; try done.
    destruct (at_depth_nest _ _ _ Ha2) as (-> & _). congruence.
Qed.
End round.

Section theorems.
Context (me : Z) (cur : tid).

Lemma in_thread_at_depth s :
  in_thread me cur s -> critical_lock s = false -> at_depth me cur 0 s s.
Proof. intros [H1 H2 H3 H4 H5 H6] Hf. by split. Qed.

(** The idle thread goes on as it was. *)
Lemma at_depth_in_thread s gone rest s1 s' :
  in_thread me cur s -> after_reap me gone rest s s1 ->
  at_depth me cur 0 s1 s' -> (forall x, x <> cur -> nests s' x = nests s x) ->
  in_thread me cur s' /\ kinv s' /\ critical_lock s' = false.
Proof.
  intros [H1 H2 H3 H4 H5 H6] (K & _ & I & N & Sf & _) Ha Hn.
  destruct (at_depth_nest _ _ _ _ _ Ha) as (E1 & E2 & E3). destruct Ha as [E _ Hd _ _].
  split; [|split; [by rewrite <-E|done]]. split; try done.
  - intros t Ht Hst Hc. rewrite <-E in Ht. rewrite <-(keq_threads _ _ E) in Hst.
    assert (Hct : t <> cur) by (intros ->; by apply (Hc me)).
    rewrite Hn by done. destruct (N t Ht Hst) as [Ht0 Hst0]. apply H4; [done..|].
    intros c Hcr. specialize (Hc c Hcr). by rewrite (keq_self _ _ c E), Sf in Hc.
  - by rewrite <-(keq_cpus _ _ E).
  - by rewrite E3.
Qed.
End theorems.

(** What one call does, with the threads [acc] given back before. *)
Definition idle_post (me : Z) (cur : tid) (cleanup_fun : Z -> tid -> K unit) (s : kstate)
    (acc gone rest freed : list tid) (s' : kstate) : Prop :=
  freed = acc ++ filter (fun t => static_in s t = false) gone /\
  lists s' Defunct = rest /\
  (forall t, is_thread s' t <-> is_thread s t /\ t ∉ gone) /\
  (forall t c, OThread t ∈ containers s' c <-> OThread t ∈ containers s c /\ t ∉ gone) /\
  (forall t, t ∉ gone -> static_in s' t = static_in s t) /\
  (exists s1, reap_run me cur cleanup_fun gone s s1 /\ keq s1 s') /\
  in_thread me cur s' /\ kinv s' /\ critical_lock s' = false.

Lemma wp_idle_excute me cur cleanup_fun fuel acc s :
  cleanup_ok me cur cleanup_fun ->
  in_thread me cur s -> kinv s -> critical_lock s = false ->
  (length (lists s Defunct) <= fuel)%nat ->
  let (gone, rest) := reap (static_in s) (lists s Defunct) in
  wp (rt_thread_idle_excute me cleanup_fun fuel acc)
    (idle_post me cur cleanup_fun s acc gone rest) s.
Proof.
  intros Hclean Hit Hi Hf Hfuel.
  destruct (reap (static_in s) (lists s Defunct)) as [gone rest] eqn:Er.
  eapply wp_mono; [exact (wp_idle_loop me cur cleanup_fun Hclean (lists s Defunct) fuel acc s s
    gone rest (in_thread_at_depth me cur s Hit Hf) Hi (it_irq _ _ _ Hit) eq_refl Hfuel Er)|].
  intros r s' (-> & s1 & Hrun & Haf & Ha & Hn). pose proof (ad_keq _ _ _ _ _ Ha) as E.
  destruct (at_depth_in_thread me cur s gone rest s1 s' Hit Haf Ha Hn) as (I1 & I2 & I3).
  destruct Haf as (_ & L & _ & _ & _ & O & T & C).
  split; [done|]. split; [by rewrite <-E|]. split; [intros t; by rewrite <-E, T|].
  split; [intros t c; by rewrite <-(keq_containers _ _ E), C|].
  split; [|split; [by exists s1|done]].
  intros t Ht. apply static_in_type. rewrite <-(keq_otype _ _ E). by apply O.
Qed.

(** C10: with cleanup functions of the application that return, leave the locks
    and a well-formed kernel behind, and make, finish and remove no thread, one
    call of [rt_thread_idle_excute] ends and removes the defunct threads in
    their order up to the first static one, that one included: they are no
    kernel objects and in no container any more, and exactly the dynamic ones
    among them go back to the heap; the threads behind it stay on the defunct
    list.  All that changes is what the cleanup functions change, each called
    once, in a critical section, and the removals themselves ([reap_run]). *)
Theorem rt_thread_idle_excute_reaps me cur cleanup_fun fuel s :
  cleanup_ok me cur cleanup_fun ->
  in_thread me cur s -> kinv s -> critical_lock s = false ->
  (length (lists s Defunct) <= fuel)%nat ->
  let (gone, rest) := reap (static_in s) (lists s Defunct) in
  wp (rt_thread_idle_excute me cleanup_fun fuel []) (fun freed s' =>
    freed = filter (fun t => static_in s t = false) gone /\
    lists s' Defunct = rest /\
    (forall t, is_thread s' t <-> is_thread s t /\ t ∉ gone) /\
    (forall t c, OThread t ∈ containers s' c <-> OThread t ∈ containers s c /\ t ∉ gone) /\
    (exists s1, reap_run me cur cleanup_fun gone s s1 /\ keq s1 s') /\
    in_thread me cur s' /\ kinv s' /\ critical_lock s' = false) s.
Proof.
  intros Hclean Hit Hi Hf Hfuel.
  pose proof (wp_idle_excute me cur cleanup_fun fuel [] s Hclean Hit Hi Hf Hfuel) as Hw.
  destruct (reap (static_in s) (lists s Defunct)) as [gone rest]. eapply wp_mono; [exact Hw|].
  unfold idle_post. naive_solver.
Qed.

(** ** The example with defunct threads *)
Definition defunct_add (s : kstate) (x : tid * Z) : kstate :=
  with_list Defunct (x.1 :: lists s Defunct) (set_otype (upd (otype s) (OThread x.1) x.2) s).

Lemma defunct_add_ok s t ty :
  kinv s -> unlinked_in s t -> th_stat (threads s t) = RT_THREAD_CLOSE ->
  oncpu (threads s t) = RT_CPU_DETACHED -> ThreadTimer t ∉ timer_list (tm s) ->
  Z.land ty (Z.lnot RT_Object_Class_Static) = RT_Object_Class_Thread ->
  kinv (defunct_add s (t, ty)).
Proof.
  intros Hi Hu Hst Hon Htl Hty. unfold defunct_add. cbn [fst snd].
  set (s1 := set_otype (upd (otype s) (OThread t) ty) s).
  assert (Ei : forall x, x <> t -> is_thread s1 x <-> is_thread s x).
  { intros x Hx. unfold is_thread, rt_object_get_type. cbn. by rewrite upd_ne by congruence. }
  assert (Hth : is_thread s1 t).
  { unfold is_thread, rt_object_get_type. cbn. by rewrite upd_eq. }
  assert (K : kwf s1) by (apply (kwf_retype s s1 t); try done; apply Hi).
  apply (defunct_link_ok t s1); try done. destruct (ki_run _ Hi) as [R1 R2 R3].
  split; [done| |apply Hi|].
  - split.
    + intros c x Hc Hx. destruct (R1 c x Hc Hx) as [Ho Hor]. split; [done|].
      destruct (decide (x = t)) as [->|?]; [by left|]. by rewrite Ei.
    + intros x Hx Ho. destruct (decide (x = t)) as [->|?]; [done|]. apply R2; [by apply Ei|done].
    + intros x Hx. destruct (decide (x = t)) as [->|?]; [change (threads s1 t) with (threads s t); by rewrite Hst|]. apply R3. by apply Ei.
  - intros x Hx Hs. destruct (decide (x = t)) as [->|Hne]; [done|].
    apply Ei in Hx; [|done]. destruct (ki_own _ Hi x Hx Hs) as (O1 & O2 & O3).
    unfold own_timer, rt_object_get_type, rt_object_is_systemobject. cbn. by rewrite upd_ne.
Qed.

(** Threads 7, 8 and 10 are dynamic, 9 is static. *)
Definition ex_idle : kstate :=
  foldl defunct_add ex
    [(10%positive, 0x1); (9%positive, 0x81); (8%positive, 0x1); (7%positive, 0x1)].

Lemma ex_idle_kinv : kinv ex_idle.
Proof.
  assert (Hu : forall s t, (forall h, lists s h = if decide (h = Defunct) then lists s Defunct
      else ex_lists h) -> t ∉ lists s Defunct -> (6 < t)%positive -> unlinked_in s t).
  { intros s t El Hn Ht h. rewrite El. case_decide; [done|]. intros Hx%ex_lists_in.
    destruct Hx as [[_ ->]|[[_ ->]|[_ ->]]]; lia. }
  assert (Hl : forall s x, (forall h, lists s h = if decide (h = Defunct) then lists s Defunct
      else ex_lists h) -> forall h, lists (defunct_add s x) h =
      if decide (h = Defunct) then lists (defunct_add s x) Defunct else ex_lists h).
  { intros s x El h. case_decide as E; [by rewrite E|]. cbn. rewrite upd_ne by done.
    by rewrite El, decide_False. }
  assert (H0 : forall h, lists ex h = if decide (h = Defunct) then lists ex Defunct else ex_lists h).
  { intros h. case_decide; by subst. }
  assert (Htm : forall t, (5 < t)%positive -> ThreadTimer t ∉ [ThreadTimer 5]).
  { intros t Ht [= ->]%list_elem_of_singleton. lia. }
  unfold ex_idle. cbn [foldl].
  repeat (apply defunct_add_ok; [|apply Hu; [repeat apply Hl; exact H0|vm_compute; set_solver|lia]
    |done|done|by apply Htm|done]).
  exact ex_kinv.
Qed.

Lemma ex_idle_in_thread : in_thread 0 1%positive ex_idle.
Proof. split; [by split|done|exact (ex_depth 0)| |done|done]. intros t _ _ _. by left. Qed.

(** A cleanup function as that of the pthreads: it clears the cleanup of its
    thread and gives a semaphore that nobody waits for. *)
Definition ex_cleanup (f : Z) (t : tid) : K unit :=
  thread_upd t (set_cleanup 0);;
  modify (fun s => set_sems (upd (sems s) 6%positive (mkSem 0 f)) s).

Lemma ex_cleanup_ok me cur : cleanup_ok me cur ex_cleanup.
Proof.
  intros f t s [C1 C2 C3 C4 C5 C6 C7 C8 C9 C10]. unfold ex_cleanup. wp_steps.
  set (s1 := with_thread t (set_cleanup 0 (threads s t)) s).
  assert (K : kinv s1) by by apply kinv_touch.
  assert (Ht : forall x, th_stat (threads s1 x) = th_stat (threads s x)).
  { intros x. cbn. unfold upd. by case_decide; subst. }
  split; [|split; [|done]].
  - split; try done; [|change (th_stat (threads s1 t) = RT_THREAD_CLOSE); by rewrite Ht].
    destruct K as [[] [] ? ?]. by split.
  - split; try done. intros x Hx. change (th_stat (threads s1 x) = RT_THREAD_CLOSE). by rewrite Ht.
Qed.

Definition no_cleanup (f : Z) (t : tid) : K unit := mret tt.

(** Thread 8 has a cleanup function. *)
Definition ex_cleaned : kstate :=
  with_thread 8 (set_cleanup 5 (threads ex_idle 8%positive)) ex_idle.
Lemma ex_cleaned_kinv : kinv ex_cleaned.
Proof. by apply kinv_touch; [exact ex_idle_kinv|..]. Qed.
Lemma ex_cleaned_in_thread : in_thread 0 1%positive ex_cleaned.
Proof. split; [by split|done|exact (ex_depth 0)| |done|done]. intros t _ _ _. by left. Qed.

Lemma rt_thread_idle_excute_reaps_ex :
  reap (static_in ex_cleaned) (lists ex_cleaned Defunct) = ([7; 8; 9], [10])%positive /\
  cleanup (threads ex_cleaned 8%positive) = 5 /\
  let (gone, rest) := reap (static_in ex_cleaned) (lists ex_cleaned Defunct) in
  wp (rt_thread_idle_excute 0 ex_cleanup 4 []) (fun freed s' =>
    freed = filter (fun t => static_in ex_cleaned t = false) gone /\
    lists s' Defunct = rest /\
    (forall t, is_thread s' t <-> is_thread ex_cleaned t /\ t ∉ gone) /\
    (forall t c, OThread t ∈ containers s' c <-> OThread t ∈ containers ex_cleaned c /\ t ∉ gone) /\
    (exists s1, reap_run 0 1%positive ex_cleanup gone ex_cleaned s1 /\ keq s1 s') /\
    in_thread 0 1%positive s' /\ kinv s' /\ critical_lock s' = false) ex_cleaned.
Proof.
  split; [vm_compute; reflexivity|]. split; [reflexivity|].
  apply (rt_thread_idle_excute_reaps 0 1%positive ex_cleanup 4 ex_cleaned);
    [apply ex_cleanup_ok|exact ex_cleaned_in_thread|exact ex_cleaned_kinv|done|vm_compute; lia].
Defined.

(** ** The loop of the idle thread *)

(** The idle thread runs, outside all sections and interrupts. *)
Definition idling (cur : tid) (s : kstate) : Prop :=
  in_thread 0 cur s /\ kinv s /\ critical_lock s = false.

(** The hooks of the application may do to the kernel what they want, and let
    other threads run, as long as they return to the idle thread and no thread
    was made, finished or removed from the kernel. *)
Definition hook_ok (cur : tid) (hook_fun : positive -> K unit) : Prop :=
  forall f s, idling cur s ->
    wp (hook_fun f) (fun _ s' => idling cur s' /\ no_thread_changes s s') s.

#[export] Instance no_thread_changes_preorder : PreOrder no_thread_changes.
Proof.
  split; [by intros s; split|]. intros s1 s2 s3 [A1 A2 A3 A4] [B1 B2 B3 B4].
  split; intros; [congruence|by rewrite B2|by rewrite B3|auto].
Qed.

Section entry.
Context (cur : tid) (cleanup_fun : Z -> tid -> K unit) (hook_fun : positive -> K unit).
Hypothesis Hclean : cleanup_ok 0 cur cleanup_fun.
Hypothesis Hhook : hook_ok cur hook_fun.

Lemma wp_run_hooks l : forall s, idling cur s ->
  wp (run_hooks hook_fun l) (fun _ s' => idling cur s' /\ no_thread_changes s s') s.
Proof using Hhook.
  clear Hclean cleanup_fun. induction l as [|[f|] l IH]; intros s Hs; cbn [run_hooks]; [by wp_steps| |by apply IH].
  wp_steps. eapply wp_mono; [by apply Hhook|]. intros [] s1 [Hs1 N1].
  eapply wp_mono; [by apply IH|]. intros [] s2 [Hs2 N2]. split; [done|]. by etrans.
Qed.

Definition statics (s : kstate) (l : list tid) : nat := length (filter (fun t => static_in s t = true) l).

(** How many calls the defunct list takes. *)
Lemma reap_rounds f l :
  let (gone, rest) := reap f l in
  rest = [] \/
  length (filter (fun t => f t = true) l) = S (length (filter (fun t => f t = true) rest)).
Proof using.
  clear. induction l as [|t l IH]; cbn [reap]; [by left|]. rewrite filter_cons.
  destruct (f t) eqn:E.
  - right. by rewrite decide_True by done.
  - rewrite decide_False by congruence. destruct (reap f l) as [gone rest]. exact IH.
Qed.

Lemma wp_idle_entry rounds hooks : forall fuel acc s,
  in_thread 0 cur s -> kinv s -> critical_lock s = false ->
  (length (lists s Defunct) <= fuel)%nat ->
  lists s Defunct = [] \/ (statics s (lists s Defunct) < rounds)%nat ->
  wp (rt_thread_idle_entry 0 cleanup_fun hook_fun rounds fuel hooks acc) (fun freed s' =>
    freed = acc ++ filter (fun t => static_in s t = false) (lists s Defunct) /\
    lists s' Defunct = [] /\
    (forall t, is_thread s' t <-> is_thread s t /\ t ∉ lists s Defunct) /\
    in_thread 0 cur s' /\ kinv s' /\ critical_lock s' = false) s.
Proof using Hclean Hhook.
  induction rounds as [|rounds IH]; intros fuel acc s Hit Hi Hf Hfuel Hr; cbn [rt_thread_idle_entry].
  { destruct Hr as [Hr|?]; [|lia]. rewrite Hr. wp_steps. rewrite app_nil_r.
    split_and!; try done. set_solver. }
  wp_steps. eapply wp_mono; [by apply wp_run_hooks|].
  intros [] sh [(Hith & Hih & Hfh) [N1 N2 N3 N4]].
  rewrite <-N1 in Hfuel, Hr |- *.
  assert (Hsh : forall t, static_in sh t = static_in s t) by (intros t; apply static_in_type, N2).
  assert (Hth : forall t, is_thread sh t <-> is_thread s t)
    by (intros t; unfold is_thread, rt_object_get_type; by rewrite N2).
  unfold statics in Hr. rewrite <-(filter_eq_in' (static_in sh) (static_in s)) in Hr by done.
  rewrite <-(filter_eq_in (static_in sh) (static_in s)) by done.
  eapply wp_mono with (P := fun freed s' => freed = acc ++ filter (fun t => static_in sh t = false)
      (lists sh Defunct) /\ lists s' Defunct = [] /\
      (forall t, is_thread s' t <-> is_thread sh t /\ t ∉ lists sh Defunct) /\ idling cur s').
  2:{ intros r s' (H1 & H2 & H3 & H4 & H5 & H6). split_and!; try done.
      intros t. by rewrite H3, Hth. }
  clear dependent s. rename sh into s, Hith into Hit, Hih into Hi, Hfh into Hf.
  apply wp_bind.
  pose proof (wp_idle_excute 0 cur cleanup_fun fuel acc s Hclean Hit Hi Hf Hfuel) as Hw.
  pose proof (reap_app (static_in s) (lists s Defunct)) as El.
  pose proof (reap_rounds (static_in s) (lists s Defunct)) as Hrr.
  pose proof (kw_nodup _ (ki_wf _ Hi) Defunct) as Hnd.
  destruct (reap (static_in s) (lists s Defunct)) as [gone rest]. cbn [fst snd] in El.
  rewrite El in Hnd. apply NoDup_app in Hnd as (_ & Hnd & _).
  eapply wp_mono; [exact Hw|]. intros r s1 (-> & L & T & C & S & _ & I1 & I2 & I3).
  assert (Hst : forall t, t ∈ rest -> static_in s1 t = static_in s t).
  { intros t Ht. apply S. intros Hg. by apply (Hnd t). }
  eapply wp_mono; [apply (IH fuel _ s1 I1 I2 I3)|].
  - rewrite L. rewrite El, length_app in Hfuel. lia.
  - rewrite L. destruct Hrr as [->|Hrr]; [by left|]. right. destruct Hr as [Hr|Hr].
    { by rewrite Hr in Hrr. }
    unfold statics in *. rewrite (filter_eq_in' (static_in s1) (static_in s) rest Hst). lia.
  - intros freed s2 (-> & L2 & T2 & I4 & I5 & I6). rewrite L in *. split_and!; try done.
    + rewrite El, filter_app, <-app_assoc. do 2 f_equal. by apply filter_eq_in.
    + intros t. rewrite T2, T, El, elem_of_app. naive_solver.
Qed.
End entry.

(** C11: with cleanup functions and hooks that return, leave the locks and a
    well-formed kernel behind, and make, finish and remove no thread, the idle
    loop reclaims every finished thread: after one round more than there are
    static threads on the defunct list it is empty, no thread of it is a kernel
    object any more, and each dynamic one was given back to the heap exactly
    once, in the order of the list. *)
Theorem rt_thread_idle_entry_drains cur cleanup_fun hook_fun rounds fuel hooks s :
  cleanup_ok 0 cur cleanup_fun -> hook_ok cur hook_fun ->
  in_thread 0 cur s -> kinv s -> critical_lock s = false ->
  (length (lists s Defunct) <= fuel)%nat ->
  (length (filter (fun t => static_in s t = true) (lists s Defunct)) < rounds)%nat ->
  wp (rt_thread_idle_entry 0 cleanup_fun hook_fun rounds fuel hooks []) (fun freed s' =>
    freed = filter (fun t => static_in s t = false) (lists s Defunct) /\
    lists s' Defunct = [] /\
    (forall t, is_thread s' t <-> is_thread s t /\ t ∉ lists s Defunct) /\
    in_thread 0 cur s' /\ kinv s' /\ critical_lock s' = false) s.
Proof.
  intros Hclean Hhook Hit Hi Hf Hfuel Hr.
  apply (wp_idle_entry cur cleanup_fun hook_fun Hclean Hhook rounds hooks fuel [] s); try done.
  by right.
Qed.

(** A hook that counts its calls in a semaphore. *)
Definition ex_hook (f : positive) : K unit :=
  modify (fun s => set_sems (upd (sems s) f (mkSem 0 (u16 (sem_value (sems s f) + 1)))) s).

Lemma ex_hook_ok cur : hook_ok cur ex_hook.
Proof.
  intros f s ([I1 I2 I3 I4 I5 I6] & Hi & Hf). unfold ex_hook. wp_steps.
  split; [|by split]. split; [by split|]. split; [|done]. destruct Hi as [[] [] ? ?]. by split.
Qed.

Lemma rt_thread_idle_entry_drains_ex :
  filter (fun t => static_in ex_cleaned t = false) (lists ex_cleaned Defunct) = [7; 8; 10]%positive /\
  wp (rt_thread_idle_entry 0 ex_cleanup ex_hook 2 4 [None; Some 1%positive] []) (fun freed s' =>
    freed = filter (fun t => static_in ex_cleaned t = false) (lists ex_cleaned Defunct) /\
    lists s' Defunct = [] /\
    (forall t, is_thread s' t <-> is_thread ex_cleaned t /\ t ∉ lists ex_cleaned Defunct) /\
    in_thread 0 1%positive s' /\ kinv s' /\ critical_lock s' = false) ex_cleaned.
Proof.
  split; [vm_compute; reflexivity|].
  apply (rt_thread_idle_entry_drains 1%positive ex_cleanup ex_hook 2 4 [None; Some 1%positive] ex_cleaned);
    [apply ex_cleanup_ok|apply ex_hook_ok|exact ex_cleaned_in_thread|exact ex_cleaned_kinv|done|
     vm_compute; lia|vm_compute; lia].
Defined.

(** ** The order of the locks *)

(** [t] runs on CPU [c] in a critical section, outside the CPU lock. *)
Record in_critical (c : Z) (t : tid) (s : kstate) : Prop := {
  ic_self : rt_thread_self c s = Some t;
  ic_crit : 0 < critical_lock_nest (nests s t);
  ic_lock : critical_lock s = true;
  ic_cpus : cpus_lock_nest (nests s t) = 0 }.

(** C12: the idle thread takes the CPU lock and then the critical lock.  When a
    thread of another CPU is in a critical section at that time, the two
    deadlock as soon as that thread disables interrupts, as any kernel call
    does: in the state the idle thread reaches with the CPU lock held, its
    [rt_enter_critical] waits for the critical lock, and the other CPU's
    [rt_hw_interrupt_disable] for the CPU lock. *)
Theorem rt_thread_idle_deadlock me other cur t x D cleanup_fun s :
  in_thread me cur s -> lists s Defunct = t :: D -> cur <> x -> in_critical other x s ->
  wp (idle_take me) (fun r s' => r = Some t /\ cpus_lock s' = true /\ in_critical other x s' /\
    idle_cleanup me cleanup_fun t s' = None /\ rt_hw_interrupt_disable other s' = None) s.
Proof.
  intros Hit El Hne [Hx Hc Hl Hn]. destruct Hit as [Hme Hs Hd _ _ Hcr].
  unfold idle_take. apply wp_bind, (wp_lock me 0); [done|lia|]. intros s1 [E N] Hd1.
  wp_steps. rewrite <-(keq_lists _ _ E), El. wp_steps.
  assert (Es : forall c, rt_thread_self c s1 = rt_thread_self c s) by (intros; by apply keq_self).
  assert (Hcl : cpus_lock s1 = true).
  { unfold lock_depth in Hd1. rewrite Es, Hs in Hd1. by destruct Hd1 as (_ & _ & _ & ?). }
  assert (Nx : nests s1 x = nests s x) by (apply N; congruence).
  assert (Ex : rt_thread_self other (unlinked t s1) = Some x) by (by rewrite <-Hx, <-Es).
  assert (Eme : rt_thread_self me (unlinked t s1) = Some cur) by (by rewrite <-Hs, <-Es).
  split; [done|]. split; [done|]. split; [split; try done; cbn; [by rewrite Nx|by rewrite <-(keq_critical _ _ E)|by rewrite Nx]|].
  split.
  - unfold idle_cleanup, rt_enter_critical, rt_hw_spin_lock_critical, mbind, M_bind, get. rewrite Eme.
    cbn [nests unlinked set_lists]. rewrite <-(keq_crit _ _ E cur), Hcr. cbn.
    by rewrite <-(keq_critical _ _ E), Hl.
  - unfold rt_hw_interrupt_disable, rt_cpus_lock, rt_hw_spin_lock_cpus, nest_upd, modify, when,
      assertM, mbind, M_bind, get. rewrite Ex. cbn. rewrite Nx, Hn. cbn.
    by rewrite Hcl.
Qed.

(** The example with thread 2 in a critical section on CPU 1. *)
Definition ex_crossing : kstate :=
  set_critical_lock true (set_nests (upd (nests ex_idle) 2%positive (mkNest 1 0 1)) ex_idle).

Lemma rt_thread_idle_deadlock_ex :
  wp (idle_take 0) (fun r s' => r = Some 7%positive /\ cpus_lock s' = true /\
    in_critical 1 2%positive s' /\ idle_cleanup 0 no_cleanup 7%positive s' = None /\
    rt_hw_interrupt_disable 1 s' = None) ex_crossing.
Proof.
  apply (rt_thread_idle_deadlock 0 1 1%positive 7%positive 2%positive [8; 9; 10]%positive
    no_cleanup ex_crossing); [|reflexivity|done|by split].
  split; [by split|done|exact (ex_depth 0)| |done|done].
  intros t _ _ Hc. left. cbn. rewrite upd_ne; [done|]. intros <-. by apply (Hc 1); [by split|].
Defined.
