(* ===== verification/Boot.v ===== *)
(** The start of the kernel ([rtthread_startup] of [rt-thread/src/components.c],
    [rt_thread_idle_init] of [idle.c], [rt_system_timer_init] of [timer.c]) and
    of the second CPU ([secondary_cpu_c_start] of
    [rt-thread/libcpu/risc-v/k210/cpuport_smp.c]).

    [rt_hw_board_init] and the set-up of the interrupt controller and the tick
    of a CPU access hardware registers and are left out; the state in which
    the model starts is any state the board set-up may leave ([BootProps.v]).
    There is no software timer thread in this configuration. *)
From S2P Require Import Prelude KService Timer KState KInv Sched Kernel KTimer Object Thread.

Definition RT_MAIN_THREAD_PRIORITY : Z := 10.

Section boot.
Context (me : Z).
(** [struct rt_thread idle[_CPUS_NR]] *)
Context (idle : Z -> tid).

Definition rt_system_timer_init : K unit :=
  modify (fun s => set_tm (mkT (timers (tm s)) []) s).

(** [mem] and [stack] are what the allocations of [rt_thread_create] returned. *)
Definition rt_application_init (mem : option tid) (stack : bool) : K unit :=
  tid ← rt_thread_create me mem stack RT_MAIN_THREAD_PRIORITY 20;
  main ← ofopt tid;
  rt_thread_startup me main;;
  mret tt.

(** The rounds of the loop from [i] on. *)
Fixpoint idle_init_from (i : Z) (n : nat) : K unit :=
  match n with
  | O => mret tt
  | S n =>
      rt_thread_init me (idle i) (RT_THREAD_PRIORITY_MAX - 1) 32;;
      rt_thread_control me (idle i) RT_THREAD_CTRL_BIND_CPU i;;
      rt_thread_startup me (idle i);;
      idle_init_from (i + 1) n
  end.
Definition rt_thread_idle_init : K unit := idle_init_from 0 (Z.to_nat RT_CPUS_NR).

Definition rtthread_startup (mem : option tid) (stack : bool) : K unit :=
  rt_hw_interrupt_disable me;;
  rt_system_timer_init;;
  rt_system_scheduler_init;;
  rt_application_init mem stack;;
  rt_thread_idle_init;;
  rt_hw_spin_lock_cpus;;
  rt_system_scheduler_start me.

Definition secondary_cpu_c_start : K unit :=
  rt_hw_spin_lock_cpus;;
  rt_system_scheduler_start me.
End boot.
