(* ===== verification/BootProps.v ===== *)
(** The start of the kernel establishes the invariant every other theorem
    assumes: from any state the board set-up may leave, [rtthread_startup] runs
    the main thread on CPU 0, and [secondary_cpu_c_start] the idle thread on
    CPU 1. *)
From S2P Require Import Prelude KService Timer KState KInv Sched Kernel KTimer Object Thread ThreadSpec Boot.

(** * Before the scheduler runs

    No thread runs on [me]: the lock operations and critical sections do
    nothing. *)
Section none.
Context (me : Z) (s : kstate) (Hs : rt_thread_self me s = None).

Lemma wp_none_disable (Q : unit -> kstate -> Prop) : Q tt s -> wp (rt_hw_interrupt_disable me) Q s.
Proof using Hs. intros HQ. unfold rt_hw_interrupt_disable, rt_cpus_lock. wp_steps. rewrite Hs. by wp_steps. Qed.
Lemma wp_none_enable (Q : unit -> kstate -> Prop) : Q tt s -> wp (rt_hw_interrupt_enable me) Q s.
Proof using Hs. intros HQ. unfold rt_hw_interrupt_enable, rt_cpus_unlock. wp_steps. rewrite Hs. by wp_steps. Qed.
Lemma wp_none_enter (Q : unit -> kstate -> Prop) : Q tt s -> wp (rt_enter_critical me) Q s.
Proof using Hs. intros HQ. unfold rt_enter_critical. wp_steps. rewrite Hs. by wp_steps. Qed.
Lemma wp_none_exit (Q : unit -> kstate -> Prop) : Q tt s -> wp (rt_exit_critical me) Q s.
Proof using Hs. intros HQ. unfold rt_exit_critical. wp_steps. rewrite Hs. by wp_steps. Qed.
End none.

Lemma wp_assert_absent o l (Q : unit -> kstate -> Prop) s :
  o ∉ l -> Q tt s -> wp (assert_absent o l) Q s.
Proof.
  intros Hl HQ. induction l as [|x l IH]; cbn [assert_absent]; [by wp_steps|].
  wp_steps; [apply bool_decide_eq_true; set_solver|]. apply IH. set_solver.
Qed.

Ltac none_steps :=
  repeat (wp_steps; first
    [ apply wp_none_disable; [done|] | apply wp_none_enable; [done|]
    | apply wp_none_enter; [done|] | apply wp_none_exit; [done|] ]); wp_steps.

(** ** A thread is made *)
Definition new_thread (prio : Z) (th : thread) : Prop :=
  th_stat th = RT_THREAD_INIT /\ oncpu th = RT_CPU_DETACHED /\ bind_cpu th = RT_CPUS_NR /\
  current_priority th = prio /\ init_priority th = prio /\ cleanup th = 0.

Record creates (t : tid) (ty prio : Z) (s s' : kstate) : Prop := {
  cr_thread : new_thread prio (threads s' t);
  cr_threads : forall x, x <> t -> threads s' x = threads s x;
  cr_nest : nests s' t = mkNest 0 0 0;
  cr_nests : forall x, x <> t -> nests s' x = nests s x;
  cr_lists : lists s' = lists s;
  cr_group : ready_group s' = ready_group s;
  cr_cpus : cpus s' = cpus s;
  cr_locks : cpus_lock s' = cpus_lock s /\ critical_lock s' = critical_lock s;
  cr_tlist : timer_list (tm s') = timer_list (tm s);
  cr_func : timeout_func (timers (tm s') (ThreadTimer t)) = RtThreadTimeout t;
  cr_timers : forall x, x <> ThreadTimer t -> timers (tm s') x = timers (tm s) x;
  cr_type : otype s' (OThread t) = ty;
  cr_ttype : otype s' (OTimer (ThreadTimer t)) = 0x8a;
  cr_types : forall o, o <> OThread t -> o <> OTimer (ThreadTimer t) -> otype s' o = otype s o;
  cr_conts : forall o c, o <> OThread t -> o <> OTimer (ThreadTimer t) ->
    o ∈ containers s' c <-> o ∈ containers s c }.

Ltac creates_fields :=
  split; cbn; try done; intros; cbn in *; unfold upd; repeat case_decide; subst; try done;
  try congruence.

(** An object enters the object system. *)
Definition object_known (o : obj) (hdr c : Z) (s : kstate) : kstate :=
  set_containers (upd (containers s) c (o :: containers s c))
    (set_otype (upd (otype s) o hdr) s).

Lemma wp_none_object_init me o ty s (Q : unit -> kstate -> Prop) :
  rt_thread_self me s = None -> rt_object_get_information ty = Some ty ->
  o ∉ containers s ty -> Q tt (object_known o (Z.lor ty RT_Object_Class_Static) ty s) ->
  wp (rt_object_init me o ty) Q s.
Proof.
  intros Hs Hi Ho HQ. unfold rt_object_init, otype_upd, container_insert.
  eapply wp_bind, wp_ofopt; [exact Hi|]. none_steps. apply wp_assert_absent; [done|].
  none_steps. exact HQ.
Qed.

Lemma wp_none_thread_fields me t prio tick s s1 ty (Q : Z -> kstate -> Prop) :
  rt_thread_self me s = None -> 0 <= prio < 32 ->
  OTimer (ThreadTimer t) ∉ containers s RT_Object_Class_Timer ->
  s1 = object_known (OThread t) ty RT_Object_Class_Thread s ->
  (forall s', creates t ty prio s s' -> Q RT_EOK s') ->
  wp (_rt_thread_init me t prio tick) Q s1.
Proof.
  intros Hs Hp Hc -> HQ. assert (Hu : u8 prio = prio) by (apply Z.mod_small; lia).
  unfold _rt_thread_init, rt_timer_init, nest_upd. rewrite Hu.
  wp_steps; [unfold RT_THREAD_PRIORITY_MAX; lia|].
  apply wp_none_object_init; [done|reflexivity| |].
  { cbn. rewrite upd_ne by done. exact Hc. }
  unfold _rt_timer_init. wp_steps. apply HQ. split; try done.
  - unfold new_thread. cbn. by rewrite upd_eq.
  - intros x Hx. cbn. by rewrite upd_ne.
  - cbn. by rewrite upd_eq.
  - intros x Hx. cbn. by rewrite upd_ne.
  - cbn. by rewrite upd_eq.
  - intros x Hx. cbn. by rewrite upd_ne.
  - cbn. by rewrite upd_ne, upd_eq.
  - cbn. by rewrite upd_eq.
  - intros o H1 H2. cbn. by rewrite !upd_ne by congruence.
  - intros o c H1 H2. cbn. unfold upd. repeat case_decide; subst; rewrite ?elem_of_cons;
      naive_solver.
Qed.

Lemma wp_none_thread_init me t prio tick s (Q : Z -> kstate -> Prop) :
  rt_thread_self me s = None -> 0 <= prio < 32 ->
  OThread t ∉ containers s RT_Object_Class_Thread ->
  OTimer (ThreadTimer t) ∉ containers s RT_Object_Class_Timer ->
  (forall s', creates t 0x81 prio s s' -> Q RT_EOK s') -> wp (rt_thread_init me t prio tick) Q s.
Proof.
  intros Hs Hp H1 H2 HQ. unfold rt_thread_init.
  apply wp_bind, wp_none_object_init; [done|reflexivity|done|].
  by apply (wp_none_thread_fields me t prio tick s _ 0x81).
Qed.

Lemma wp_none_thread_create me t prio tick s (Q : option tid -> kstate -> Prop) :
  rt_thread_self me s = None -> 0 <= prio < 32 -> irq_nest (cpus s me) = 0 ->
  OTimer (ThreadTimer t) ∉ containers s RT_Object_Class_Timer ->
  (forall s', creates t 0x1 prio s s' -> Q (Some t) s') ->
  wp (rt_thread_create me (Some t) true prio tick) Q s.
Proof.
  intros Hs Hp Hirq H2 HQ. unfold rt_thread_create, rt_object_allocate, otype_upd, container_insert.
  cbn [fmap option_fmap option_map interrupt_disable interrupt_enable Smp cpu_id]. none_steps.
  { by rewrite Hirq. }
  eapply wp_ofopt; [reflexivity|]. none_steps.
  by apply (wp_none_thread_fields me t prio tick s _ 0x1).
Qed.

(** A made thread is ready to be started, and the kernel stays well-formed. *)
Section created.
Context (t : tid) (ty prio : Z) (s s' : kstate) (Hc : creates t ty prio s s').
Context (Hi : kinv s) (Hp : 0 <= prio < 32) (Hty : ty = 0x81 \/ ty = 0x1).
Context (Hu : unlinked_in s t) (Htl : ThreadTimer t ∉ timer_list (tm s)).
Context (Hrun : forall c, 0 <= c < RT_CPUS_NR -> rt_thread_self c s <> Some t).

Lemma created_thread x : is_thread s' x <-> x = t \/ is_thread s x.
Proof using Hc Hty.
  clear Hi Hp Hu Htl Hrun. unfold is_thread, rt_object_get_type.
  destruct (decide (x = t)) as [->|Hx].
  - rewrite (cr_type _ _ _ _ _ Hc). destruct Hty as [-> | ->]; naive_solver.
  - rewrite (cr_types _ _ _ _ _ Hc) by congruence. naive_solver.
Qed.

Lemma created_kinv : kinv s' /\ fresh s' t.
Proof using All.
  destruct (cr_thread _ _ _ _ _ Hc) as (T1 & T2 & T3 & T4 & T5 & T6).
  pose proof created_thread as Ei.
  assert (Es : forall c, rt_thread_self c s' = rt_thread_self c s).
  { intros c. unfold rt_thread_self. by rewrite (cr_cpus _ _ _ _ _ Hc). }
  assert (Ex : forall x, x <> t -> is_thread s' x <-> is_thread s x).
  { intros x Hx. rewrite Ei. naive_solver. }
  assert (K : kwf s').
  { apply (kwf_remake s s' t); try done; [apply Hi|..|apply Hc|apply Hc|].
    - unfold schedulable. rewrite T1. by intros [?|[?|?]].
    - intros h. by rewrite (cr_lists _ _ _ _ _ Hc).
    - apply Hc.
    - intros c. by rewrite (cr_cpus _ _ _ _ _ Hc). }
  destruct (ki_run _ Hi) as [R1 R2 R3]. split.
  - split; [done|split| |].
    + intros c x Hcr. rewrite Es. intros Hx. assert (Hxt : x <> t) by (intros ->; by apply (Hrun c)).
      rewrite Ex, (cr_threads _ _ _ _ _ Hc) by done. by apply R1.
    + intros x. destruct (decide (x = t)) as [->|Hxt]; [by rewrite T2|].
      rewrite Ex, (cr_threads _ _ _ _ _ Hc), Es by done. apply R2.
    + intros x. destruct (decide (x = t)) as [->|Hxt]; [by rewrite T1|].
      rewrite Ex, (cr_threads _ _ _ _ _ Hc) by done. apply R3.
    + destruct (ki_tm _ Hi) as [W1 W2]. unfold tm_wf. rewrite (cr_tlist _ _ _ _ _ Hc).
      split; [done|]. intros x Hx. rewrite (cr_timers _ _ _ _ _ Hc); [by apply W2|].
      intros ->. done.
    + intros x Hx Hs. destruct (decide (x = t)) as [->|Hxt].
      * unfold own_timer, rt_object_get_type, rt_object_is_systemobject.
        by rewrite (cr_ttype _ _ _ _ _ Hc), (cr_func _ _ _ _ _ Hc).
      * apply Ex in Hx; [|done]. rewrite (cr_threads _ _ _ _ _ Hc) in Hs by done.
        destruct (ki_own _ Hi x Hx Hs) as (O1 & O2 & O3).
        unfold own_timer, rt_object_get_type, rt_object_is_systemobject.
        by rewrite (cr_types _ _ _ _ _ Hc), (cr_timers _ _ _ _ _ Hc) by congruence.
  - split; try done.
    + apply Ei. by left.
    + by rewrite T5.
    + by rewrite T3.
    + intros h. rewrite (cr_lists _ _ _ _ _ Hc). apply Hu.
    + by rewrite (cr_tlist _ _ _ _ _ Hc).
Qed.
End created.

(** * The CPU lock before the scheduler runs *)
Definition keeps_lock (me : Z) {A} (m : K A) : Prop := forall s a s',
  rt_thread_self me s = None -> m s = Some (a, s') ->
  rt_thread_self me s' = None /\ cpus_lock s' = cpus_lock s.

Section keeps.
Context (me : Z).

Lemma kl_ret A (a : A) : keeps_lock me (mret a).
Proof. by intros s a' s' Hs [= <- <-]. Qed.
Lemma kl_bind A B (m : K A) (k : A -> K B) :
  keeps_lock me m -> (forall a, keeps_lock me (k a)) -> keeps_lock me (mbind k m).
Proof.
  intros Hm Hk s b s' Hs H. unfold mbind, M_bind in H. destruct (m s) as [[a s1]|] eqn:E; [|done].
  destruct (Hm s a s1 Hs E) as [H1 L1]. destruct (Hk a s1 b s' H1 H) as [H2 L2].
  by rewrite L2, L1.
Qed.
Lemma kl_get A (k : kstate -> K A) : (forall s, keeps_lock me (k s)) -> keeps_lock me (mbind k get).
Proof. intros Hk s a s' Hs H. exact (Hk s s a s' Hs H). Qed.
Lemma kl_assert b : keeps_lock me (assertM (S := kstate) b).
Proof. intros s a s' Hs. destruct b; [|done]. by intros [= <- <-]. Qed.
Lemma kl_ofopt A (o : option A) : keeps_lock me (ofopt (S := kstate) o).
Proof. intros s a s' Hs. destruct o; [|done]. by intros [= <- <-]. Qed.
Lemma kl_on_tm A (m : M tstate A) : keeps_lock me (on_tm m).
Proof. intros s a s' Hs. unfold on_tm. cbn. destruct (m (tm s)) as [[x ts]|]; [|done]. by intros [= <- <-]. Qed.
Lemma kl_modify f :
  (forall s, rt_thread_self me (f s) = rt_thread_self me s /\ cpus_lock (f s) = cpus_lock s) ->
  keeps_lock me (modify f).
Proof. intros Hf s a s' Hs [= <- <-]. by destruct (Hf s) as [-> ->]. Qed.
Lemma kl_when b m : keeps_lock me m -> keeps_lock me (when b m).
Proof. intros Hm. destruct b; [done|apply kl_ret]. Qed.
Lemma kl_disable : keeps_lock me (rt_hw_interrupt_disable me).
Proof.
  intros s a s' Hs. unfold rt_hw_interrupt_disable, rt_cpus_lock, mbind, M_bind, get. rewrite Hs.
  by intros [= <- <-].
Qed.
Lemma kl_enable : keeps_lock me (rt_hw_interrupt_enable me).
Proof.
  intros s a s' Hs. unfold rt_hw_interrupt_enable, rt_cpus_unlock, mbind, M_bind, get. rewrite Hs.
  by intros [= <- <-].
Qed.
Lemma kl_priority_group c f : keeps_lock me (cpu_upd c (fun x => set_priority_group (f x) x)).
Proof. apply kl_modify. intros s. split; [|done]. unfold rt_thread_self. cbn. apply self_upd_group. Qed.
End keeps.

Ltac kl :=
  repeat lazymatch goal with
  | |- keeps_lock _ (mbind _ get) => apply kl_get; intros; cbv beta zeta
  | |- keeps_lock _ (mbind _ _) => apply kl_bind; [|intros; cbv beta zeta]
  | |- keeps_lock _ (when _ _) => apply kl_when
  | |- keeps_lock _ (mret _) => apply kl_ret
  | |- keeps_lock _ (assertM _) => apply kl_assert
  | |- keeps_lock _ (ofopt _) => apply kl_ofopt
  | |- keeps_lock _ (on_tm _) => apply kl_on_tm
  | |- keeps_lock _ (rt_hw_interrupt_disable _) => apply kl_disable
  | |- keeps_lock _ (rt_hw_interrupt_enable _) => apply kl_enable
  | |- keeps_lock _ (cpu_upd _ _) => apply kl_priority_group
  | |- keeps_lock _ (modify _) => apply kl_modify; intros; by split
  | |- keeps_lock _ (thread_upd _ _) => apply kl_modify; intros; by split
  | |- keeps_lock _ (list_remove _) => apply kl_modify; intros; by split
  | |- keeps_lock _ (list_insert_before _ _) => apply kl_modify; intros; by split
  | |- keeps_lock _ (rt_hw_ipi_send _) => apply kl_modify; intros; by split
  | |- keeps_lock _ (if ?b then _ else _) => destruct b
  | |- keeps_lock _ (match ?b with _ => _ end) => destruct b
  end.

Lemma kl_insert me t : keeps_lock me (rt_schedule_insert_thread me t).
Proof. unfold rt_schedule_insert_thread, rt_cpu_index. kl. Qed.
Lemma kl_remove me t : keeps_lock me (rt_schedule_remove_thread me t).
Proof. unfold rt_schedule_remove_thread, rt_cpu_index. kl. Qed.
Lemma kl_startup me t : keeps_lock me (rt_thread_startup_enter (Kn := Smp me) t).
Proof.
  unfold rt_thread_startup_enter, rt_thread_resume, rt_timer_stop, assert_type.
  cbn [interrupt_disable interrupt_enable schedule_insert_thread Smp]. kl. apply kl_insert.
Qed.

Lemma kl_wp me A (m : K A) (Q : A -> kstate -> Prop) s :
  keeps_lock me m -> rt_thread_self me s = None -> wp m Q s ->
  wp m (fun a s' => Q a s' /\ rt_thread_self me s' = None /\ cpus_lock s' = cpus_lock s) s.
Proof.
  intros Hm Hs Hw. apply wp_run in Hw as (a & s' & E & HQ). apply wp_run. exists a, s'.
  split; [done|]. split; [done|]. by apply (Hm s a s').
Qed.

(** ** The first thread of a CPU *)
Definition start_core (me : Z) (to : tid) (s : kstate) : kstate :=
  on_cpu me to (with_thread to (set_stat RT_THREAD_RUNNING (set_oncpu me (threads s to)))
    (remove_core to s)).

Section start.
Context (me : Z) (to : tid) (p : Z) (s : kstate) (Hi : kinv s) (Hme : 0 <= me < RT_CPUS_NR).
Context (Hs : rt_thread_self me s = None) (Hb : best me s to p).

Lemma start_core_self c :
  rt_thread_self c (start_core me to s) = if decide (c = me) then Some to else rt_thread_self c s.
Proof using.
  unfold rt_thread_self. cbn. case_decide as E; [subst c; by rewrite upd_eq|].
  rewrite upd_ne by done. apply (remove_core_frame to s).
Qed.

Lemma start_core_threads x : threads (start_core me to s) x =
  if decide (x = to) then set_stat RT_THREAD_RUNNING (set_oncpu me (threads s to)) else threads s x.
Proof using.
  cbn. rewrite remove_core_threads. case_decide as E; [subst x; by rewrite upd_eq|by rewrite upd_ne].
Qed.

Lemma start_core_is_thread x : is_thread (start_core me to s) x <-> is_thread s x.
Proof using. unfold is_thread, rt_object_get_type. cbn. by rewrite remove_core_otype. Qed.

Lemma start_core_kinv : kinv (start_core me to s).
Proof using All.
  pose proof (ki_wf _ Hi) as Hk. destruct Hb as [B1 B2 B3 B4 B5 B6 B7 B8].
  destruct (kw_prio _ Hk to B1) as (P1 & P2 & P3); [by left|].
  assert (Htl : ThreadTimer to ∉ timer_list (tm s)).
  { intros H. destruct (kw_timer _ Hk to H) as [_ E]. by rewrite B2 in E. }
  set (th := set_stat RT_THREAD_RUNNING (set_oncpu me (threads s to))).
  assert (K : kwf (with_thread to th (remove_core to s))).
  { apply kwf_remove; try done. by left. }
  destruct (ki_run _ Hi) as [R1 R2 R3]. split.
  - eapply kwf_ext; [exact K|done..| |done].
    intros c. cbn [cpus on_cpu with_cpu set_cpus start_core]. unfold upd. by case_decide; subst.
  - split.
    + intros c x Hc. rewrite start_core_self, start_core_is_thread, start_core_threads.
      case_decide as E.
      * intros [= <-]. subst c. rewrite decide_True by done. auto.
      * intros Hx. destruct (R1 c x Hc Hx) as [Ho Hor]. rewrite decide_False; [done|].
        intros ->. rewrite B6 in Ho. unfold RT_CPU_DETACHED in Ho. lia.
    + intros x. rewrite start_core_is_thread, start_core_threads. case_decide as E.
      * intros _ _. subst x. cbn. by rewrite start_core_self, decide_True.
      * intros Hx Ho. destruct (R2 x Hx Ho) as [H1 H2]. split; [done|].
        rewrite start_core_self, decide_False; [done|]. intros Eme. rewrite Eme in H2. congruence.
    + intros x. rewrite start_core_is_thread, start_core_threads. case_decide as E.
      * intros _ _. cbn. unfold RT_CPU_DETACHED. lia.
      * apply R3.
  - cbn. rewrite remove_core_tm. apply Hi.
  - intros x. rewrite start_core_is_thread, start_core_threads. intros Hx Hst.
    unfold own_timer, rt_object_get_type, rt_object_is_systemobject. cbn.
    rewrite remove_core_otype, remove_core_tm. apply (ki_own _ Hi x Hx).
    case_decide as E; [|done]. subst x. by rewrite B2.
Qed.
End start.

(** What the start of the scheduler on a CPU leaves. *)
Record started_cpu (me : Z) (to : tid) (p : Z) (s s' : kstate) : Prop := {
  sc_best : best me s to p;
  sc_keq : keq (start_core me to s) s';
  sc_kinv : kinv s';
  sc_in : in_thread me to s';
  sc_nests : forall x, x <> to -> nests s' x = nests s x }.

Lemma start_core_keq me to s s' :
  rt_thread_self me s = None -> keq (remove_core to (with_thread to (set_oncpu me (threads s to)) s)) s' ->
  keq (start_core me to s) (on_cpu me to (with_thread to (set_stat RT_THREAD_RUNNING (threads s' to)) s')).
Proof.
  intros Hs E. set (s1 := with_thread to (set_oncpu me (threads s to)) s) in *.
  assert (E1 : keq (on_cpu me to (with_thread to (set_stat RT_THREAD_RUNNING (set_oncpu me (threads s to)))
    (remove_core to s1))) (on_cpu me to (with_thread to (set_stat RT_THREAD_RUNNING (threads s' to)) s'))).
  { assert (Et : threads s' to = set_oncpu me (threads s to)).
    { rewrite <-(keq_threads _ _ E), remove_core_threads. unfold s1. cbn. by rewrite upd_eq. }
    rewrite Et. destruct E. split; try done; intros x; cbn; unfold upd; repeat case_decide;
      try done; subst; congruence. }
  etrans; [|exact E1]. unfold start_core, s1, remove_core, ready_head. cbn.
  rewrite !upd_eq. cbn. case_bool_decide; [case_match|]; split; try done; intros x; cbn;
    unfold upd; repeat case_decide; try done; by subst.
Qed.

Lemma wp_scheduler_start me s :
  kinv s -> parked_ok s -> cpus_lock s = true -> rt_thread_self me s = None ->
  0 <= me < RT_CPUS_NR -> irq_nest (cpus s me) = 0 -> ~ none_ready me s ->
  wp (rt_system_scheduler_start me) (fun _ s' => exists to p, started_cpu me to p s s') s.
Proof.
  intros Hi Hpk Hl Hs Hme Hirq Hn. pose proof (ki_wf _ Hi) as Hk. unfold rt_system_scheduler_start.
  apply wp_bind. eapply wp_mono; [by apply _get_highest_priority_thread_spec|].
  intros [to p] s0 [-> Hb]. cbn [fst snd] in Hb. wp_steps.
  set (s1 := with_thread to (set_oncpu me (threads s to)) s).
  destruct (kw_prio _ Hk to (best_thread _ _ _ _ Hb)) as (P1 & P2 & P3); [left; apply Hb|].
  assert (Hd : lock_depth me 0 s1) by (unfold lock_depth; by change (rt_thread_self me s1) with (rt_thread_self me s); rewrite Hs).
  eapply wp_mono; [apply (kl_wp me _ _ (fun _ => does me 0 s1 (remove_core to s1)) s1 (kl_remove me to)); [done|];
    apply (rt_schedule_remove_thread_spec me 0); [done|lia|cbn; by rewrite upd_eq]|].
  intros [] s2 ((E2 & _ & N2) & Hs2 & L2). wp_steps.
  set (s3 := with_thread to (set_stat RT_THREAD_RUNNING (threads s2 to)) s2).
  assert (Hnest : forall x, nests s2 x = nests s x).
  { intros x. rewrite N2; [done|]. change (rt_thread_self me s1) with (rt_thread_self me s). congruence. }
  assert (Hto : parked (nests s to)).
  { apply Hpk; [apply Hb| |].
    - by rewrite (best_stat _ _ _ _ Hb).
    - intros c Hc H. destruct (kr_cur _ (ki_run _ Hi) c to Hc H) as [Ho _].
      rewrite (best_oncpu _ _ _ _ Hb) in Ho. unfold RT_CPU_DETACHED in Ho. lia. }
  eapply wp_mono; [apply (rt_hw_context_switch_spec me to s3); [cbn; by rewrite Hnest|cbn; by rewrite L2]|].
  intros [] s4 (D4 & E4 & N4).
  assert (E : keq (start_core me to s) s4).
  { etrans; [|exact E4]. apply start_core_keq; [done|exact E2]. }
  assert (Hi4 : kinv s4) by (rewrite <-E; by apply (start_core_kinv me to p)).
  assert (Hs4 : forall c, rt_thread_self c s4 = if decide (c = me) then Some to else rt_thread_self c s).
  { intros c. rewrite (keq_self _ _ c E). apply start_core_self. }
  assert (N : forall x, x <> to -> nests s4 x = nests s x) by (intros x Hx; rewrite N4 by done; apply Hnest).
  exists to, p. split; try done. split; try done.
  - by rewrite Hs4, decide_True.
  - intros x Hx Hst Hc.
    assert (Hxt : x <> to). { intros ->. apply (Hc me Hme). by rewrite Hs4, decide_True. }
    rewrite N by done. rewrite <-E in Hx. rewrite <-(keq_threads _ _ E), start_core_threads, decide_False in Hst by done.
    apply Hpk; [by apply start_core_is_thread in Hx|done|].
    intros c Hcr H. apply (Hc c Hcr). rewrite Hs4, decide_False; [done|]. intros ->. congruence.
  - rewrite <-(keq_cpus _ _ E). cbn. rewrite upd_eq. cbn. by rewrite (proj1 (remove_core_cpu to s me)).
  - rewrite <-(keq_crit _ _ E). cbn. destruct (remove_core_frame to s) as (_ & -> & _).
    destruct Hto as [-> | ->]; done.
Qed.

(** * The threads of the start *)
Definition in_cpus (c : Z) : Prop := 0 <= c < RT_CPUS_NR.

(** The kernel while it starts, with the threads [L] started. *)
Record booting (L : list tid) (s : kstate) : Prop := {
  bo_kinv : kinv s;
  bo_parked : parked_ok s;
  bo_self : forall c, in_cpus c -> rt_thread_self c s = None;
  bo_irq : forall c, in_cpus c -> irq_nest (cpus s c) = 0;
  bo_lock : cpus_lock s = false;
  bo_threads : forall x, is_thread s x <-> x ∈ L;
  bo_ready : forall x, x ∈ L -> th_stat (threads s x) = RT_THREAD_READY;
  bo_conts : forall x, x ∉ L -> OThread x ∉ containers s RT_Object_Class_Thread /\
    OTimer (ThreadTimer x) ∉ containers s RT_Object_Class_Timer }.

Lemma booting_new L s t : booting L s -> t ∉ L ->
  unlinked_in s t /\ ThreadTimer t ∉ timer_list (tm s).
Proof.
  intros Hb Ht. pose proof (ki_wf _ (bo_kinv _ _ Hb)) as Hk. split.
  - intros h Hin. apply Ht, (bo_threads _ _ Hb), (kw_loc _ Hk h t Hin).
  - intros Hin. apply Ht, (bo_threads _ _ Hb), (kw_timer _ Hk t Hin).
Qed.

(** A made thread, possibly bound to a CPU. *)
Record made (L : list tid) (t : tid) (prio b : Z) (s s' : kstate) : Prop := {
  ma_kinv : kinv s';
  ma_fresh : fresh s' t;
  ma_prio : init_priority (threads s' t) = prio;
  ma_bind : bind_cpu (threads s' t) = b;
  ma_threads : forall x, is_thread s' x <-> x ∈ t :: L;
  ma_other : forall x, x <> t -> threads s' x = threads s x;
  ma_parked : parked_ok s';
  ma_cpus : cpus s' = cpus s;
  ma_lock : cpus_lock s' = cpus_lock s;
  ma_conts : forall x, x ∉ t :: L -> OThread x ∉ containers s' RT_Object_Class_Thread /\
    OTimer (ThreadTimer x) ∉ containers s' RT_Object_Class_Timer }.

Lemma creates_made L t ty prio s s' :
  booting L s -> t ∉ L -> creates t ty prio s s' -> 0 <= prio < 32 -> ty = 0x81 \/ ty = 0x1 ->
  made L t prio RT_CPUS_NR s s'.
Proof.
  intros Hb Ht Hc Hp Hty. destruct (booting_new L s t Hb Ht) as [Hu Htl].
  assert (Hrun : forall c, 0 <= c < RT_CPUS_NR -> rt_thread_self c s <> Some t).
  { intros c Hcr. by rewrite (bo_self _ _ Hb c Hcr). }
  destruct (created_kinv t ty prio s s' Hc (bo_kinv _ _ Hb) Hp Hty Hu Htl Hrun) as [Hi' Hf].
  destruct (cr_thread _ _ _ _ _ Hc) as (T1 & T2 & T3 & T4 & T5 & T6).
  assert (Ei : forall x, is_thread s' x <-> x ∈ t :: L).
  { intros x. rewrite (created_thread t ty prio s s' Hc Hty), elem_of_cons.
    by rewrite (bo_threads _ _ Hb). }
  split; try done; try apply Hc.
  - intros x Hx Hst Hcx. destruct (decide (x = t)) as [->|Hxt].
    + left. apply Hc.
    + rewrite (cr_nests _ _ _ _ _ Hc) by done. rewrite (cr_threads _ _ _ _ _ Hc) in Hst by done.
      apply (bo_parked _ _ Hb); [|done|].
      * apply (bo_threads _ _ Hb). apply Ei in Hx. set_solver.
      * intros c Hcr. by rewrite (bo_self _ _ Hb c Hcr).
  - intros x Hx. assert (Hxt : x <> t /\ x ∉ L) by set_solver. destruct Hxt as [Hxt HxL].
    destruct (bo_conts _ _ Hb x HxL) as [C1 C2].
    by rewrite !(cr_conts _ _ _ _ _ Hc) by congruence.
Qed.

Lemma made_bind L t prio b0 b s s' :
  made L t prio b0 s s' -> 0 <= b <= RT_CPUS_NR ->
  made L t prio b s (with_thread t (set_bind_cpu b (threads s' t)) s').
Proof.
  intros [H1 H2 H3 H4 H5 H6 H7 H8 H9 H10] Hb. destruct (id H2) as [F1 F2 F3 F4 F5 F6 F7].
  set (th := set_bind_cpu b (threads s' t)).
  assert (K : kwf (with_thread t th s')).
  { apply (kwf_remake s' _ t); try done; [apply H1| |].
    - cbn. rewrite upd_eq. unfold schedulable, th. change (th_stat (set_bind_cpu b (threads s' t)))
        with (th_stat (threads s' t)). rewrite F2. by intros [?|[?|?]].
    - intros x Hx. cbn. by rewrite upd_ne. }
  split; try done.
  - apply (kinv_thread s' t H1 F1 _ th); try done; [apply H1|].
    change (th_stat th) with (th_stat (threads s' t)). by rewrite F2.
  - split; try done; cbn; by rewrite upd_eq.
  - cbn. by rewrite upd_eq.
  - cbn. by rewrite upd_eq.
  - intros x Hx. cbn. rewrite upd_ne by done. by apply H6.
  - intros x Hx Hst. apply H7; [done|]. revert Hst. cbn. unfold upd. case_decide; [by subst|done].
Qed.

Lemma resume_core_cpu me t s : 
  (forall c, irq_nest (cpus (resume_core me t s) c) = irq_nest (cpus s c)) /\
  (forall c, containers (resume_core me t s) c = containers s c).
Proof.
  split; intros c; unfold resume_core.
  - by apply (insert_core_cpu me t (stop_thread_timer t (unlinked t s))).
  - unfold insert_core. by repeat case_match.
Qed.

(** Before the scheduler runs, a started thread is queued, and the caller goes on. *)
Lemma wp_boot_startup me L t prio b s s' (Q : Z -> kstate -> Prop) :
  in_cpus me -> booting L s -> t ∉ L -> made L t prio b s s' ->
  (forall s2, booting (t :: L) s2 -> current_priority (threads s2 t) = prio ->
    bind_cpu (threads s2 t) = b -> (forall x, x <> t -> threads s2 x = threads s x) -> Q RT_EOK s2) ->
  wp (rt_thread_startup me t) Q s'.
Proof.
  intros Hme Hb Ht [M1 M2 M3 M4 M5 M6 M7 M8 M9 M10] HQ. unfold rt_thread_startup.
  assert (Hself : forall c, in_cpus c -> rt_thread_self c s' = None).
  { intros c Hc. unfold rt_thread_self. rewrite M8. by apply (bo_self _ _ Hb). }
  destruct (started_ok s' t M1 M2) as [Hi1 Hn1].
  set (s1 := with_thread t (started (threads s' t)) s') in *.
  assert (Hs1 : threads s1 t = started (threads s' t)) by (cbn; by rewrite upd_eq).
  destruct (resume_core_ok me s1 t Hi1 (fr_thread _ _ M2)) as [Hi2 Hn2]; [by rewrite Hs1|].
  destruct (resume_core_fields me s1 t) as (Eo2 & Es2 & Et2 & El2 & _).
  destruct (resume_core_cpu me t s1) as [Ec2 En2].
  assert (Hwake : wake_stat (threads s1 t) = RT_THREAD_READY).
  { rewrite Hs1. unfold wake_stat. cbn. by rewrite (fr_oncpu _ _ M2). }
  set (s2 := resume_core me t s1) in *. rewrite Hwake, Hs1 in Et2.
  apply wp_bind. eapply wp_mono.
  { apply (kl_wp me unit _ (fun _ s3 => exists s0, keq s2 s0 /\ keq s0 s3 /\ lock_depth me 0 s3 /\
      parked_ok s3 /\ forall c, rt_thread_self c s3 = rt_thread_self c s'));
      [apply kl_startup|by apply Hself|].
    eapply (lift me 0 0) with (Q := fun _ s' => keq s2 s');
      [done|apply rt_thread_startup_enter_er; lia| |done|].
    { unfold lock_depth. by rewrite Hself. }
    apply (wp_startup_enter me s' t M1 M2). intros s3 E. fold s1 s2 in E. split; [done|].
    assert (Es3 : forall c, rt_thread_self c s3 = rt_thread_self c s').
    { intros c. by rewrite (keq_self _ _ c E), Es2. }
    split; [|done]. etrans; [exact Hn1|]. etrans; [exact Hn2|]. intros x.
    by rewrite <-(keq_is_thread _ _ x E), <-(keq_threads _ _ E). }
  intros [] s3 ((s0 & E0 & E & D & P & Eself) & Hs3 & L3). assert (E3 : keq s2 s3) by by etrans.
  wp_steps. rewrite Hs3, bool_decide_false by (by intros [? ?]). wp_steps.
  assert (Hth : forall x, threads s3 x = upd (threads s1) t
    (put_stat RT_THREAD_READY (started (threads s' t))) x) by (intros x; by rewrite <-(keq_threads _ _ E3), Et2).
  assert (Hoth : forall x, x <> t -> threads s3 x = threads s x).
  { intros x Hx. rewrite Hth, upd_ne by done. cbn. rewrite upd_ne by done. by apply M6. }
  apply HQ; [|by rewrite Hth, upd_eq|by rewrite Hth, upd_eq|done].
  split; try done.
  - by rewrite <-E3.
  - intros c Hc. rewrite Eself. by apply Hself.
  - intros c Hc. rewrite <-(keq_cpus _ _ E3), Ec2. cbn. rewrite M8. by apply (bo_irq _ _ Hb).
  - rewrite L3, M9. apply Hb.
  - intros x. rewrite <-E3. unfold is_thread, rt_object_get_type. rewrite Eo2. apply M5.
  - intros x [->|Hx]%elem_of_cons.
    + rewrite Hth, upd_eq. by apply th_stat_put.
    + rewrite Hoth by (intros ->; done). by apply (bo_ready _ _ Hb).
  - intros x Hx. rewrite <-!(keq_containers _ _ E3), !En2. by apply M10.
Qed.

(** ** The initialised scheduler *)
Lemma init_ready_ok mk n s :
  wp (init_ready mk n) (fun _ s' => exists l, s' = set_lists l s /\
    (forall h, l h = [] \/ l h = lists s h) /\
    forall i, 0 <= i < Z.of_nat n -> l (mk i) = []) s.
Proof.
  induction n as [|n IH]; cbn [init_ready].
  { wp_steps. exists (lists s). split_and!; [by destruct s|by right|lia]. }
  wp_steps. eapply wp_mono; [exact IH|]. intros [] s1 (l & -> & H1 & H2). unfold init_list. wp_steps.
  eexists. split; [reflexivity|]. split.
  - intros h. cbn. unfold upd. case_decide; [by left|apply H1].
  - intros i Hi. cbn. unfold upd. case_decide; [done|]. apply H2.
    destruct (decide (i = Z.of_nat n)) as [->|]; [done|lia].
Qed.

Lemma init_cpus_ok n s :
  wp (init_cpus n) (fun _ s' => exists l cs, s' = set_cpus cs (set_lists l s) /\
    (forall h, l h = [] \/ l h = lists s h) /\
    (forall c, 0 <= c < Z.of_nat n -> current_thread (cs c) = None /\ priority_group (cs c) = 0 /\
       forall p, 0 <= p < RT_THREAD_PRIORITY_MAX -> l (CpuReady c p) = []) /\
    forall c, irq_nest (cs c) = irq_nest (cpus s c)) s.
Proof.
  induction n as [|n IH]; cbn [init_cpus].
  { wp_steps. exists (lists s), (cpus s). split_and!; [by destruct s|by right|lia|done]. }
  wp_steps. eapply wp_mono; [exact IH|]. intros [] s1 (l & cs & -> & H1 & H2 & H3).
  wp_steps. eapply wp_mono; [apply init_ready_ok|]. intros [] s2 (l2 & -> & L1 & L2). wp_steps.
  eexists l2, _. split; [reflexivity|]. split_and!.
  - intros h. destruct (L1 h) as [->| ->]; [by left|apply H1].
  - intros c Hc. cbn. destruct (decide (c = Z.of_nat n)) as [->|Hn].
    + rewrite !upd_eq. cbn. split_and!; [done|done|]. intros p Hp. apply L2.
      unfold RT_THREAD_PRIORITY_MAX in *. lia.
    + rewrite !upd_ne by done. destruct (H2 c) as (C1 & C2 & C3); [lia|]. split_and!; [done|done|].
      intros p Hp. destruct (L1 (CpuReady c p)) as [->| ->]; [done|by apply C3].
  - intros c. cbn. unfold upd. repeat case_decide; subst; cbn; try done; by rewrite H3.
Qed.

(** A state the board set-up may leave: no thread objects, and no list holds a
    thread but those the scheduler initialises. *)
Record blank (s : kstate) : Prop := {
  bl_types : forall t, otype s (OThread t) = 0;
  bl_conts : forall t, OThread t ∉ containers s RT_Object_Class_Thread /\
    OTimer (ThreadTimer t) ∉ containers s RT_Object_Class_Timer;
  bl_lists : forall h, match h with
    | Ready p => 0 <= p < RT_THREAD_PRIORITY_MAX
    | CpuReady c p => in_cpus c /\ 0 <= p < RT_THREAD_PRIORITY_MAX
    | Defunct => True
    | Suspend _ | Sender _ => False
    end \/ lists s h = [];
  bl_self : rt_thread_self 0 s = None;
  bl_irq : forall c, in_cpus c -> irq_nest (cpus s c) = 0;
  bl_lock : cpus_lock s = false }.

Lemma wp_scheduler_init s : blank s -> timer_list (tm s) = [] ->
  wp rt_system_scheduler_init (fun _ s' => booting [] s') s.
Proof.
  intros [B1 B2 B3 B4 B5 B6] Htl. unfold rt_system_scheduler_init, init_list. apply wp_bind.
  eapply wp_mono; [apply init_ready_ok|]. intros [] s1 (l1 & -> & L1 & R1). apply wp_bind.
  eapply wp_mono; [apply init_cpus_ok|]. intros [] s2 (l2 & cs & -> & L2 & C2 & I2). wp_steps.
  match goal with |- booting [] ?x => set (s3 := x) end.
  assert (El : forall h, lists s3 h = []).
  { intros h. cbn. unfold upd. case_decide as E; [done|]. destruct (L2 h) as [->|E2]; [done|].
    cbn in E2. rewrite E2. destruct (L1 h) as [->|E1]; [done|]. rewrite E1.
    destruct (B3 h) as [Hh| ->]; [|done]. destruct h as [p|c p| | |]; try done.
    - rewrite <-E1. by apply R1.
    - destruct Hh as [Hc Hp]. destruct (C2 c Hc) as (_ & _ & C3). by rewrite <-E1, <-E2, C3. }
  assert (Ei : forall x, ~ is_thread s3 x).
  { intros x. unfold is_thread, rt_object_get_type. cbn. by rewrite B1. }
  assert (Ec : forall c, in_cpus c -> rt_thread_self c s3 = None).
  { intros c Hc. by destruct (C2 c Hc). }
  split; try done.
  - split.
    + split; try done.
      * intros h. rewrite El. apply NoDup_nil_2.
      * intros h h' t. rewrite El. intros H. by apply not_elem_of_nil in H.
      * intros h t. rewrite El. intros H. by apply not_elem_of_nil in H.
      * intros t Ht. by destruct (Ei t).
      * intros t Ht. by destruct (Ei t).
      * split; [by split|]. intros p Hp. rewrite El. by rewrite Z.bits_0.
      * intros c Hc. destruct (C2 c Hc) as (_ & G & _). cbn [cpus s3 set_lists set_cpus set_ready_group].
        rewrite G. split; [by split|]. intros p Hp. rewrite El. by rewrite Z.bits_0.
      * intros t. cbn. rewrite Htl. intros H. by apply not_elem_of_nil in H.
    + split.
      * intros c t Hc. by rewrite Ec.
      * intros t Ht. by destruct (Ei t).
      * intros t Ht. by destruct (Ei t).
    + unfold tm_wf. cbn. rewrite Htl. split; [apply NoDup_nil_2|]. intros t H. by apply not_elem_of_nil in H.
    + intros t Ht. by destruct (Ei t).
  - intros x Hx. by destruct (Ei x).
  - intros c Hc. cbn. rewrite I2. by apply B5.
  - intros x. split; [intros H; by destruct (Ei x)|intros H; by apply not_elem_of_nil in H].
  - intros x H. by apply not_elem_of_nil in H.
Qed.

(** ** The main thread and the idle threads *)
Lemma wp_application_init main s : booting [] s ->
  wp (rt_application_init 0 (Some main) true) (fun _ s' => booting [main] s' /\
    current_priority (threads s' main) = RT_MAIN_THREAD_PRIORITY /\
    bind_cpu (threads s' main) = RT_CPUS_NR) s.
Proof.
  intros Hb. unfold rt_application_init.
  assert (H0 : in_cpus 0) by (unfold in_cpus, RT_CPUS_NR; lia).
  apply wp_bind, wp_none_thread_create; [by apply (bo_self _ _ Hb)|done|by apply (bo_irq _ _ Hb)|
    apply (bo_conts _ _ Hb); by apply not_elem_of_nil|].
  intros s1 Hc. eapply wp_bind, wp_ofopt; [reflexivity|]. apply wp_bind.
  apply (wp_boot_startup 0 [] main RT_MAIN_THREAD_PRIORITY RT_CPUS_NR s s1); [done|done|by apply not_elem_of_nil| |].
  { eapply creates_made; [done|by apply not_elem_of_nil|exact Hc|done|by right]. }
  intros s2 Hb2 Hp Hbd _. by wp_steps.
Qed.

Lemma wp_idle_round idle i n L s (Q : unit -> kstate -> Prop) :
  in_cpus i -> booting L s -> idle i ∉ L ->
  (forall s', booting (idle i :: L) s' -> current_priority (threads s' (idle i)) = RT_THREAD_PRIORITY_MAX - 1 ->
    bind_cpu (threads s' (idle i)) = i -> (forall x, x <> idle i -> threads s' x = threads s x) ->
    wp (idle_init_from 0 idle (i + 1) n) Q s') ->
  wp (idle_init_from 0 idle i (S n)) Q s.
Proof.
  intros Hi Hb HL HQ. cbn [idle_init_from].
  assert (H0 : in_cpus 0) by (unfold in_cpus, RT_CPUS_NR; lia).
  destruct (bo_conts _ _ Hb (idle i) HL) as [C1 C2].
  apply wp_bind, wp_none_thread_init; [by apply (bo_self _ _ Hb)|by split|done|done|].
  intros s1 Hc. assert (Hm : made L (idle i) (RT_THREAD_PRIORITY_MAX - 1) RT_CPUS_NR s s1).
  { eapply creates_made; [done|done|exact Hc|by split|by left]. }
  assert (Hu : u8 i = i) by (unfold in_cpus, RT_CPUS_NR in Hi; apply Z.mod_small; lia).
  unfold rt_thread_control. apply wp_bind, wp_bind, wp_assert_type; [apply (fr_thread _ _ (ma_fresh _ _ _ _ _ _ Hm))|].
  cbn [Z.eqb Pos.eqb RT_THREAD_CTRL_BIND_CPU RT_THREAD_CTRL_CHANGE_PRIORITY RT_THREAD_CTRL_STARTUP RT_THREAD_CTRL_CLOSE].
  unfold rt_thread_bind_cpu. rewrite Hu. wp_steps. rewrite (fr_stat _ _ (ma_fresh _ _ _ _ _ _ Hm)). cbn [negb Z.eqb RT_THREAD_INIT].
  wp_steps. assert ((RT_CPUS_NR <? i) = false) as -> by (unfold in_cpus in Hi; lia).
  apply (wp_boot_startup 0 L (idle i) (RT_THREAD_PRIORITY_MAX - 1) i s); [done|done|done| |].
  - eapply made_bind; [exact Hm|]. unfold in_cpus in Hi. lia.
  - intros s2 Hb2 Hp Hbd Ho. by apply HQ.
Qed.

Lemma ready_eligible me s t :
  kwf s -> is_thread s t -> th_stat (threads s t) = RT_THREAD_READY ->
  bind_cpu (threads s t) = RT_CPUS_NR \/ bind_cpu (threads s t) = me -> eligible me s t.
Proof.
  intros Hk Hth Hst Hbd. destruct (kw_prio _ Hk t Hth) as (P1 & _ & _); [by left|].
  pose proof (kw_ready _ Hk t Hth Hst) as Hin. exists (current_priority (threads s t)).
  split; [done|]. unfold ready_head in Hin. destruct Hbd as [E|E]; rewrite E in Hin.
  - by left.
  - destruct (Z.eqb_spec me RT_CPUS_NR); [by left|by right].
Qed.

(** ** The two starts *)
Section starts.
Context (main : tid) (idle : Z -> tid) (Hnd : NoDup [main; idle 0; idle 1]).

(** The threads before the scheduler starts. *)
Record queued (s : kstate) : Prop := {
  qu_booting : booting [idle 1; idle 0; main] s;
  qu_main : current_priority (threads s main) = RT_MAIN_THREAD_PRIORITY;
  qu_main_bind : bind_cpu (threads s main) = RT_CPUS_NR;
  qu_idle : forall i, in_cpus i -> bind_cpu (threads s (idle i)) = i /\
    current_priority (threads s (idle i)) = RT_THREAD_PRIORITY_MAX - 1 }.

Lemma in_cpus_cases i : in_cpus i -> i = 0 \/ i = 1.
Proof using. unfold in_cpus, RT_CPUS_NR. lia. Qed.

Lemma distinct : idle 0 <> main /\ idle 1 <> main /\ idle 1 <> idle 0.
Proof using Hnd.
  apply NoDup_cons in Hnd as [H1 H2]. apply NoDup_cons in H2 as [H2 _].
  rewrite !elem_of_cons in H1. rewrite elem_of_cons in H2.
  split_and!; intros E; rewrite E in *; tauto.
Qed.

Lemma wp_startup_queued s (Q : unit -> kstate -> Prop) : blank s ->
  (forall s', queued s' -> wp (rt_hw_spin_lock_cpus;; rt_system_scheduler_start 0) Q s') ->
  wp (rtthread_startup 0 idle (Some main) true) Q s.
Proof using Hnd.
  intros Hb HQ. unfold rtthread_startup. destruct distinct as (D1 & D2 & D3).
  apply wp_bind, wp_none_disable; [apply Hb|]. unfold rt_system_timer_init. wp_steps.
  eapply wp_mono; [apply wp_scheduler_init; [|done]|].
  { destruct Hb as [B1 B2 B3 B4 B5 B6]. by split. }
  intros [] s1 H1. wp_steps. eapply wp_mono; [by apply wp_application_init|].
  intros [] s2 (H2 & Hp & Hbd). apply wp_bind. unfold rt_thread_idle_init. change (Z.to_nat RT_CPUS_NR) with 2%nat.
  apply (wp_idle_round idle 0 1 [main]); [by split|done|set_solver|]. intros s3 H3 P3 Q3 O3.
  apply (wp_idle_round idle 1 0 [idle 0; main]); [by split|done|set_solver|]. intros s4 H4 P4 Q4 O4.
  cbn [idle_init_from]. apply wp_ret. apply HQ. split; [done|..].
  - by rewrite O4, O3.
  - by rewrite O4, O3.
  - intros i [-> | ->]%in_cpus_cases; [by rewrite O4|done].
Qed.

Lemma queued_lock s : queued s -> kinv (set_cpus_lock true s) /\ parked_ok (set_cpus_lock true s).
Proof using.
  clear Hnd. intros Hq. split; [|apply (qu_booting _ Hq)].
  assert (E : keq s (set_cpus_lock true s)) by by split. rewrite <-E. apply (qu_booting _ Hq).
Qed.

Lemma wp_first_cpu s : queued s ->
  wp (rt_hw_spin_lock_cpus;; rt_system_scheduler_start 0) (fun _ s' =>
    started_cpu 0 main RT_MAIN_THREAD_PRIORITY (set_cpus_lock true s) s') s.
Proof using Hnd.
  intros Hq. destruct distinct as (D1 & D2 & D3). pose proof (qu_booting _ Hq) as Hb.
  destruct (queued_lock s Hq) as [Hi Hp]. set (s1 := set_cpus_lock true s) in *.
  assert (Hel : eligible 0 s1 main).
  { apply ready_eligible; [apply Hi| | |left; apply Hq].
    - apply (bo_threads _ _ Hb). set_solver.
    - apply (bo_ready _ _ Hb). set_solver. }
  unfold rt_hw_spin_lock_cpus. wp_steps; [by rewrite (bo_lock _ _ Hb)|]. fold s1.
  eapply wp_mono; [apply (wp_scheduler_start 0 s1); try done|].
  - by apply (bo_self _ _ Hb).
  - by apply (bo_irq _ _ Hb).
  - rewrite none_ready_iff by (done || apply Hi). intros H. by apply (H main).
  - intros [] s2 (to & p & Hst). pose proof (sc_best _ _ _ _ _ Hst) as B.
    pose proof (best_max _ _ _ _ B main Hel) as Hmax. change (threads s1) with (threads s) in Hmax.
    rewrite (qu_main _ Hq) in Hmax. pose proof (best_prio _ _ _ _ B) as Hpr.
    change (threads s1) with (threads s) in Hpr.
    assert (Hto : to = main).
    { pose proof (proj1 (bo_threads _ _ Hb to) (best_thread _ _ _ _ B)) as Hin.
      rewrite !elem_of_cons in Hin. destruct Hin as [->|[->|[->|Hin]]]; [| |done|by apply not_elem_of_nil in Hin].
      - destruct (qu_idle _ Hq 1) as [_ E]; [by split|]. rewrite E in Hpr. subst p.
        by unfold RT_MAIN_THREAD_PRIORITY, RT_THREAD_PRIORITY_MAX in Hmax.
      - destruct (qu_idle _ Hq 0) as [_ E]; [by split|]. rewrite E in Hpr. subst p.
        by unfold RT_MAIN_THREAD_PRIORITY, RT_THREAD_PRIORITY_MAX in Hmax. }
    subst to. rewrite (qu_main _ Hq) in Hpr. by subst p.
Qed.

(** The second CPU starts while the first one runs the main thread. *)
Lemma wp_second_cpu s s1 : queued s ->
  started_cpu 0 main RT_MAIN_THREAD_PRIORITY (set_cpus_lock true s) s1 ->
  wp (secondary_cpu_c_start 1) (fun _ s2 => exists p, started_cpu 1 (idle 1) p (set_cpus_lock true s1) s2) s1.
Proof using Hnd.
  intros Hq [B E Hi Hit HN]. destruct distinct as (D1 & D2 & D3). pose proof (qu_booting _ Hq) as Hb.
  assert (H1 : in_cpus 1) by by split.
  assert (Hth : forall x, threads s1 x = if decide (x = main)
    then set_stat RT_THREAD_RUNNING (set_oncpu 0 (threads s main)) else threads s x).
  { intros x. rewrite <-(keq_threads _ _ E). exact (start_core_threads 0 main (set_cpus_lock true s) x). }
  assert (Hty : forall x, is_thread s1 x <-> x ∈ [idle 1; idle 0; main]).
  { intros x. rewrite <-E, start_core_is_thread. exact (bo_threads _ _ Hb x). }
  assert (Hs1 : rt_thread_self 1 s1 = None).
  { rewrite (keq_self _ _ 1 E), start_core_self, decide_False by done. exact (bo_self _ _ Hb 1 H1). }
  assert (Hl : cpus_lock s1 = false).
  { pose proof (it_depth _ _ _ Hit) as D. unfold lock_depth in D. rewrite (it_self _ _ _ Hit) in D. apply D. }
  assert (Hel : eligible 1 s1 (idle 1)).
  { apply ready_eligible; [apply Hi|apply Hty; set_solver|..]; rewrite Hth, decide_False by done.
    - apply (bo_ready _ _ Hb). set_solver.
    - right. by apply (qu_idle _ Hq). }
  unfold secondary_cpu_c_start, rt_hw_spin_lock_cpus. wp_steps; [by rewrite Hl|].
  set (s1' := set_cpus_lock true s1). assert (Es : keq s1 s1') by by split.
  eapply wp_mono; [apply (wp_scheduler_start 1 s1'); try done|].
  - by rewrite <-Es.
  - apply Hit.
  - rewrite <-(keq_cpus _ _ Es), <-(keq_cpus _ _ E). cbn. rewrite upd_ne by done.
    rewrite (proj1 (remove_core_cpu main (set_cpus_lock true s) 1)). exact (bo_irq _ _ Hb 1 H1).
  - rewrite none_ready_iff by (done || (rewrite <-Es; apply Hi)). intros H. by apply (H (idle 1)).
  - intros [] s2 (to & p & Hst). pose proof (sc_best _ _ _ _ _ Hst) as B2.
    assert (Hto : to = idle 1); [|subst to; by exists p].
    destruct B2 as [C1 C2 C3 C4 C5 C6 C7 C8].
    change (is_thread s1' to) with (is_thread s1 to) in C1. change (threads s1') with (threads s1) in *.
    apply Hty in C1. rewrite !elem_of_cons in C1. destruct C1 as [->|[->|[->|C1]]]; [done|..].
    + rewrite Hth, decide_False in C5 by done. destruct (qu_idle _ Hq 0) as [Eb _]; [by split|].
      rewrite Eb in C5. by destruct C5.
    + by rewrite Hth, decide_True in C2.
    + by apply not_elem_of_nil in C1.
Qed.
End starts.

(** C4: the invariant of the kernel is established by its start.  From any state
    the board set-up may leave, [rtthread_startup] on CPU 0 followed by
    [secondary_cpu_c_start] on CPU 1 ends in a well-formed kernel with exactly
    the main thread and the two idle threads: the main thread runs on CPU 0,
    the idle thread of CPU 1 there, both outside locks and interrupts, and the
    idle thread of CPU 0 waits in its ready queue. *)
Theorem rtthread_startup_establishes main idle s :
  blank s -> NoDup [main; idle 0; idle 1] ->
  wp (rtthread_startup 0 idle (Some main) true;; secondary_cpu_c_start 1) (fun _ s' =>
    kinv s' /\ in_thread 0 main s' /\ in_thread 1 (idle 1) s' /\
    (forall t, is_thread s' t <-> t ∈ [idle 1; idle 0; main]) /\
    th_stat (threads s' main) = RT_THREAD_RUNNING /\
    th_stat (threads s' (idle 1)) = RT_THREAD_RUNNING /\
    idle 0 ∈ lists s' (CpuReady 0 31)) s.
Proof.
  intros Hb Hnd. destruct (distinct main idle Hnd) as (D1 & D2 & D3). apply wp_bind.
  apply (wp_startup_queued main idle Hnd); [done|]. intros s1 Hq.
  eapply wp_mono; [by apply (wp_first_cpu main idle Hnd)|]. intros [] s2 H1.
  eapply wp_mono; [by apply (wp_second_cpu main idle Hnd s1)|]. intros [] s3 (p & H2).
  destruct H1 as [_ E1 _ Hit1 _], H2 as [_ E2 Hi2 Hit2 N2].
  assert (T1 : forall x, threads s2 x = if decide (x = main)
    then set_stat RT_THREAD_RUNNING (set_oncpu 0 (threads s1 main)) else threads s1 x).
  { intros x. rewrite <-(keq_threads _ _ E1). exact (start_core_threads 0 main (set_cpus_lock true s1) x). }
  assert (T2 : forall x, threads s3 x = if decide (x = idle 1)
    then set_stat RT_THREAD_RUNNING (set_oncpu 1 (threads s2 (idle 1))) else threads s2 x).
  { intros x. rewrite <-(keq_threads _ _ E2). exact (start_core_threads 1 (idle 1) (set_cpus_lock true s2) x). }
  assert (Ty : forall x, is_thread s3 x <-> x ∈ [idle 1; idle 0; main]).
  { intros x. rewrite <-E2, start_core_is_thread. change (is_thread (set_cpus_lock true s2) x) with (is_thread s2 x).
    rewrite <-E1, start_core_is_thread. exact (bo_threads _ _ (qu_booting _ _ _ Hq) x). }
  destruct Hit1 as [A1 A2 A3 A4 A5 A6].
  assert (Hs3 : rt_thread_self 0 s3 = Some main).
  { rewrite (keq_self _ _ 0 E2), start_core_self, decide_False by done. exact A2. }
  assert (Hl : cpus_lock s3 = false).
  { pose proof (it_depth _ _ _ Hit2) as D. unfold lock_depth in D. rewrite (it_self _ _ _ Hit2) in D. apply D. }
  assert (Nm : nests s3 main = nests s2 main) by (rewrite N2 by done; done).
  split_and!; try done.
  - split; try done.
    + unfold lock_depth in *. rewrite Hs3. rewrite A2 in A3. rewrite Nm, Hl.
      destruct A3 as (Q1 & [Q2 Q2'] & Q3 & _). split_and!; [exact Q1|exact Q2|exact Q2'|exact Q3|done].
    + apply Hit2.
    + rewrite <-(keq_cpus _ _ E2). cbn. rewrite upd_ne by done.
      rewrite (proj1 (remove_core_cpu (idle 1) (set_cpus_lock true s2) 0)). exact A5.
    + by rewrite Nm.
  - by rewrite T2, decide_False, T1, decide_True.
  - by rewrite T2, decide_True.
  - assert (Ht0 : threads s3 (idle 0) = threads s1 (idle 0)) by by rewrite T2, decide_False, T1, decide_False.
    destruct (qu_idle _ _ _ Hq 0) as [Eb Ep]; [by split|].
    pose proof (kw_ready _ (ki_wf _ Hi2) (idle 0)) as Hr. unfold ready_head in Hr.
    rewrite Ht0, Eb, Ep in Hr. apply Hr; [apply Ty; set_solver|].
    apply (bo_ready _ _ (qu_booting _ _ _ Hq)). set_solver.
Qed.

(** The zeroed memory of the start. *)
Definition ex_blank : kstate :=
  mkK (fun _ => mkThread 0 0 0 0 0 0 0 0 0 0 0 0) (fun _ => mkNest 0 0 0) (fun _ => []) 0
    (fun _ => mkCpu None 0 0 0 0 0) 0 false false
    (mkT (fun _ => mkTimer 0 (UserFun 0 0) 0 0) []) (fun _ => 0) (fun _ => [])
    (fun _ => mkSem 0 0) (fun _ => mkMutex 0 0 0 0 None) (fun _ => mkEvent 0 0)
    (fun _ => mkMb 0 [] 0 0 0 0) (fun _ => mkMq 0 0 0 0 (fun _ => None) (fun _ => []) None None None).

Definition ex_idle_thread (i : Z) : tid := if i =? 0 then 2%positive else 3%positive.

Lemma rtthread_startup_establishes_ex :
  wp (rtthread_startup 0 ex_idle_thread (Some 1%positive) true;; secondary_cpu_c_start 1) (fun _ s' =>
    kinv s' /\ in_thread 0 1%positive s' /\ in_thread 1 (ex_idle_thread 1) s' /\
    (forall t, is_thread s' t <-> t ∈ [ex_idle_thread 1; ex_idle_thread 0; 1%positive]) /\
    th_stat (threads s' 1%positive) = RT_THREAD_RUNNING /\
    th_stat (threads s' (ex_idle_thread 1)) = RT_THREAD_RUNNING /\
    ex_idle_thread 0 ∈ lists s' (CpuReady 0 31)) ex_blank.
Proof.
  apply (rtthread_startup_establishes 1%positive ex_idle_thread ex_blank).
  - split; try done; intros; try (split; by apply not_elem_of_nil). by right.
  - repeat (apply NoDup_cons; split; [vm_compute; set_solver|]). apply NoDup_nil_2.
Defined.
