(* ===== verification/KMem.v ===== *)
(** The memory and string functions of [rt-thread/src/kservice.c], on memory as
    a partial function from addresses to bytes.

    A load or store at an address that is not mapped has no result, and so has
    a [long] access at an address that is not a multiple of 8.  A loop is cut
    at [fuel] iterations.  A [char] is unsigned on this processor. *)
From S2P Require Import Prelude.

Definition ram : Type := Z -> option Z.

(** * Loads, stores and loops *)
Definition load8 (p : Z) : M ram Z := m ← get; ofopt (m p).
Definition store8 (p v : Z) : M ram unit :=
  load8 p;; modify (fun m : ram => upd m p (Some (u8 v))).

(** [n] bytes, the least significant first. *)
Fixpoint load_le (n : nat) (p : Z) : M ram Z :=
  match n with
  | O => mret 0
  | S n => b ← load8 p; v ← load_le n (p + 1); mret (b + 256 * v)
  end.
Fixpoint store_le (n : nat) (p v : Z) : M ram unit :=
  match n with
  | O => mret tt
  | S n => store8 p v;; store_le n (p + 1) (v / 256)
  end.

(** [sizeof (long)] is 8. *)
Definition load_long (p : Z) : M ram Z := assertM (p mod 8 =? 0);; load_le 8 p.
Definition store_long (p v : Z) : M ram unit := assertM (p mod 8 =? 0);; store_le 8 p v.

(** A loop with state [X]: an iteration gives the next state, or leaves. *)
Fixpoint loop {S X A} (fuel : nat) (body : X -> M S (X + A)) (x : X) : M S A :=
  match fuel with
  | O => fail
  | S fuel => r ← body x; match r with inl x => loop fuel body x | inr a => mret a end
  end.

(** * Filling, copying, comparing *)
Definition memset_blocks (buffer : Z) (x : Z * Z) : M ram (Z * Z + Z * Z) :=
  let (aligned_addr, count) := x in
  if 8 * 4 <=? count then
    store_long aligned_addr buffer;;
    store_long (aligned_addr + 8) buffer;;
    store_long (aligned_addr + 16) buffer;;
    store_long (aligned_addr + 24) buffer;;
    mret (inl (aligned_addr + 32, u64 (count - 4 * 8)))
  else mret (inr (aligned_addr, count)).
Definition memset_longs (buffer : Z) (x : Z * Z) : M ram (Z * Z + Z * Z) :=
  let (aligned_addr, count) := x in
  if 8 <=? count then
    store_long aligned_addr buffer;;
    mret (inl (aligned_addr + 8, u64 (count - 8)))
  else mret (inr (aligned_addr, count)).
Definition memset_bytes (d : Z) (x : Z * Z) : M ram (Z * Z + unit) :=
  let (m, count) := x in
  if count =? 0 then mret (inr tt)
  else store8 m d;; mret (inl (m + 1, u64 (count - 1))).

(** [d] in every byte of a word *)
Definition memset_buffer (d : Z) : Z :=
  Nat.iter 8 (fun buffer => Z.lor (u64 (Z.shiftl buffer 8)) d) 0.

Definition rt_memset (fuel : nat) (s c count : Z) : M ram Z :=
  let d := Z.land c 255 in
  x ← (if negb (count <? 8) && (Z.land s (8 - 1) =? 0) then
         let buffer := memset_buffer d in
         x ← loop fuel (memset_blocks buffer) (s, count);
         loop fuel (memset_longs buffer) x
       else mret (s, count));
  loop fuel (memset_bytes d) x;;
  mret s.

(** One [*aligned_dst++ = *aligned_src++] *)
Definition copy_long (dst src : Z) : M ram unit := v ← load_long src; store_long dst v.
Definition copy_byte (dst src : Z) : M ram unit := v ← load8 src; store8 dst v.

(** [len] is an [int]; the comparisons with [sizeof (long)] are unsigned. *)
Definition memcpy_blocks (x : Z * Z * Z) : M ram (Z * Z * Z + Z * Z * Z) :=
  let '(aligned_dst, aligned_src, len) := x in
  if 32 <=? u64 len then
    copy_long aligned_dst aligned_src;;
    copy_long (aligned_dst + 8) (aligned_src + 8);;
    copy_long (aligned_dst + 16) (aligned_src + 16);;
    copy_long (aligned_dst + 24) (aligned_src + 24);;
    mret (inl (aligned_dst + 32, aligned_src + 32, i32 (u64 len - 32)))
  else mret (inr x).
Definition memcpy_longs (x : Z * Z * Z) : M ram (Z * Z * Z + Z * Z * Z) :=
  let '(aligned_dst, aligned_src, len) := x in
  if 8 <=? u64 len then
    copy_long aligned_dst aligned_src;;
    mret (inl (aligned_dst + 8, aligned_src + 8, i32 (u64 len - 8)))
  else mret (inr x).
Definition memcpy_bytes (x : Z * Z * Z) : M ram (Z * Z * Z + unit) :=
  let '(dst_ptr, src_ptr, len) := x in
  if len =? 0 then mret (inr tt)
  else copy_byte dst_ptr src_ptr;; mret (inl (dst_ptr + 1, src_ptr + 1, i32 (len - 1))).

Definition rt_memcpy (fuel : nat) (dst src count : Z) : M ram Z :=
  let len := i32 count in
  x ← (if negb (u64 len <? 32) && (Z.lor (Z.land src 7) (Z.land dst 7) =? 0) then
         x ← loop fuel memcpy_blocks (dst, src, len);
         loop fuel memcpy_longs x
       else mret (dst, src, len));
  loop fuel memcpy_bytes x;;
  mret dst.

Definition memmove_down (x : Z * Z * Z) : M ram (Z * Z * Z + unit) :=
  let '(tmp, s, n) := x in
  if n =? 0 then mret (inr tt)
  else copy_byte (tmp - 1) (s - 1);; mret (inl (tmp - 1, s - 1, u64 (n - 1))).
Definition memmove_up (x : Z * Z * Z) : M ram (Z * Z * Z + unit) :=
  let '(tmp, s, n) := x in
  if n =? 0 then mret (inr tt)
  else copy_byte tmp s;; mret (inl (tmp + 1, s + 1, u64 (n - 1))).

Definition rt_memmove (fuel : nat) (dest src n : Z) : M ram Z :=
  (if (src <? dest) && (dest <? src + n) then loop fuel memmove_down (dest + n, src + n, n)
   else loop fuel memmove_up (dest, src, n));;
  mret dest.

Definition memcmp_bytes (x : Z * Z * Z * Z) : M ram (Z * Z * Z * Z + Z) :=
  let '(su1, su2, count, res) := x in
  if 0 <? count then
    a ← load8 su1;
    b ← load8 su2;
    let res := i32 (a - b) in
    if negb (res =? 0) then mret (inr res)
    else mret (inl (su1 + 1, su2 + 1, u64 (count - 1), res))
  else mret (inr res).
Definition rt_memcmp (fuel : nat) (cs ct count : Z) : M ram Z :=
  loop fuel memcmp_bytes (cs, ct, count, 0).

(** * Strings *)
Definition strlen_bytes (s sc : Z) : M ram (Z + Z) :=
  c ← load8 sc;
  if negb (c =? 0) then mret (inl (sc + 1)) else mret (inr (u64 (sc - s))).
Definition rt_strlen (fuel : nat) (s : Z) : M ram Z := loop fuel (strlen_bytes s) s.

Definition strnlen_bytes (s maxlen sc : Z) : M ram (Z + Z) :=
  c ← load8 sc;
  if negb (c =? 0) && (u64 (sc - s) <? maxlen) then mret (inl (sc + 1))
  else mret (inr (u64 (sc - s))).
Definition rt_strnlen (fuel : nat) (s maxlen : Z) : M ram Z :=
  loop fuel (strnlen_bytes s maxlen) s.

Definition strcmp_bytes (x : Z * Z) : M ram (Z * Z + Z) :=
  let (cs, ct) := x in
  a ← load8 cs;
  if negb (a =? 0) then
    b ← load8 ct;
    if a =? b then mret (inl (cs + 1, ct + 1)) else mret (inr (i32 (a - b)))
  else
    b ← load8 ct;
    mret (inr (i32 (a - b))).
Definition rt_strcmp (fuel : nat) (cs ct : Z) : M ram Z := loop fuel strcmp_bytes (cs, ct).

(** A [signed char] *)
Definition i8 (z : Z) : Z := (z + 2 ^ 7) mod 2 ^ 8 - 2 ^ 7.

Definition strncmp_bytes (x : Z * Z * Z * Z) : M ram (Z * Z * Z * Z + Z) :=
  let '(cs, ct, count, res) := x in
  if negb (count =? 0) then
    a ← load8 cs;
    b ← load8 ct;
    let res := i8 (a - b) in
    if negb (res =? 0) then mret (inr res)
    else if a =? 0 then mret (inr res)
    else mret (inl (cs + 1, ct + 1, u64 (count - 1), res))
  else mret (inr res).
Definition rt_strncmp (fuel : nat) (cs ct count : Z) : M ram Z :=
  loop fuel strncmp_bytes (cs, ct, count, 0).

Definition to_lower (c : Z) : Z := if (65 <=? c) && (c <=? 90) then c + (97 - 65) else c.
Definition strcasecmp_bytes (x : Z * Z) : M ram (Z * Z + Z) :=
  let (a, b) := x in
  ca ← load8 a;
  cb ← load8 b;
  let ca := to_lower (Z.land ca 255) in
  let cb := to_lower (Z.land cb 255) in
  if (ca =? cb) && negb (ca =? 0) then mret (inl (a + 1, b + 1))
  else mret (inr (u32 (ca - cb))).
Definition rt_strcasecmp (fuel : nat) (a b : Z) : M ram Z := loop fuel strcasecmp_bytes (a, b).

(** [while (--n != 0) *d++ = 0] *)
Definition strncpy_pad (x : Z * Z) : M ram (Z * Z + unit) :=
  let (d, n) := x in
  let n := u64 (n - 1) in
  if negb (n =? 0) then store8 d 0;; mret (inl (d + 1, n)) else mret (inr tt).
Definition strncpy_bytes (fuel : nat) (x : Z * Z * Z) : M ram (Z * Z * Z + unit) :=
  let '(d, s, n) := x in
  c ← load8 s;
  store8 d c;;
  if c =? 0 then loop fuel strncpy_pad (d + 1, n);; mret (inr tt)
  else
    let n := u64 (n - 1) in
    if negb (n =? 0) then mret (inl (d + 1, s + 1, n)) else mret (inr tt).
Definition rt_strncpy (fuel : nat) (dst src n : Z) : M ram Z :=
  (if negb (n =? 0) then loop fuel (strncpy_bytes fuel) (dst, src, n) else mret tt);;
  mret dst.

(** [int] lengths; [None] is [RT_NULL]. *)
Definition strstr_at (fuel : nat) (s2 l2 : Z) (x : Z * Z) : M ram (Z * Z + option Z) :=
  let (s1, l1) := x in
  if l2 <=? l1 then
    let l1 := i32 (l1 - 1) in
    r ← rt_memcmp fuel s1 s2 (u64 l2);
    if r =? 0 then mret (inr (Some s1)) else mret (inl (s1 + 1, l1))
  else mret (inr None).
Definition rt_strstr (fuel : nat) (s1 s2 : Z) : M ram (option Z) :=
  l2 ← rt_strlen fuel s2;
  let l2 := i32 l2 in
  if l2 =? 0 then mret (Some s1)
  else
    l1 ← rt_strlen fuel s1;
    loop fuel (strstr_at fuel s2 l2) (s1, i32 l1).
