(* ===== verification/KMemProps.v ===== *)
(** The properties of the memory and string functions: the copies and fills by
    words do what the plain loops by bytes do, and the comparisons find the
    first difference. *)
From S2P Require Import Prelude KMem.

(** * Reference memory operations *)
Definition within (p n a : Z) : bool := (p <=? a) && (a <? p + n).
Definition filled (p n d : Z) (m : ram) : ram := fun a => if within p n a then Some d else m a.
Definition copied (d s n : Z) (m : ram) : ram := fun a => if within d n a then m (s + (a - d)) else m a.

(** The addresses of a block are mapped, and cells hold bytes. *)
Definition mapped (m : ram) (p n : Z) : Prop := forall a, p <= a < p + n -> is_Some (m a).
Definition bytes_ok (m : ram) : Prop := forall a b, m a = Some b -> 0 <= b < 256.

Lemma within_in p n a : within p n a = true <-> p <= a < p + n.
Proof. unfold within. lia. Qed.

Ltac ram_cases := repeat match goal with
  | |- context [within ?p ?n ?a] =>
      let H := fresh "Hw" in destruct (within p n a) eqn:H;
      [apply within_in in H|apply not_true_iff_false in H; rewrite within_in in H]
  end.
Ltac ram_lia := unfold filled, copied; ram_cases; try lia; try done; try (f_equal; lia).

(** What a loop keeps, and what it counts down. *)
Lemma wp_loop {S X A} (body : X -> M S (X + A)) (I : X -> S -> Prop) (size : X -> nat)
    (Q : A -> S -> Prop) fuel x s :
  (forall x s, I x s -> wp (body x) (fun r s' =>
    match r with inl x' => I x' s' /\ (size x' < size x)%nat | inr a => Q a s' end) s) ->
  I x s -> (size x < fuel)%nat -> wp (loop fuel body x) Q s.
Proof.
  intros HB. revert x s. induction fuel as [|fuel IH]; intros x s HI Hf; [lia|].
  cbn [loop]. apply wp_bind. eapply wp_mono; [by apply HB|].
  intros [x'|a] s'; [intros [HI' Hs]; apply IH; [done|lia]|intros HQ; by apply wp_ret].
Qed.

Lemma wp_loop_S {S X A} (body : X -> M S (X + A)) (Q : A -> S -> Prop) fuel x s :
  wp (body x) (fun r s' =>
    match r with inl x' => wp (loop fuel body x') Q s' | inr a => Q a s' end) s ->
  wp (loop (Datatypes.S fuel) body x) Q s.
Proof. intros H. cbn [loop]. apply wp_bind. eapply wp_mono; [exact H|]. intros [x'|a] s'; [done|]. by wp_steps. Qed.

(** * Loads and stores *)
Section access.
Context (m : ram).

Lemma wp_load8 p b (Q : Z -> ram -> Prop) : m p = Some b -> Q b m -> wp (load8 p) Q m.
Proof. intros Hp HQ. unfold load8. wp_steps. rewrite Hp. by wp_steps. Qed.

Lemma wp_store8 p v (Q : unit -> ram -> Prop) :
  is_Some (m p) -> Q tt (upd m p (Some (u8 v))) -> wp (store8 p v) Q m.
Proof. intros [b Hp] HQ. unfold store8. apply wp_bind. apply (wp_load8 p b); [done|]. by wp_steps. Qed.

Lemma upd_within (f : ram) p v a : upd f p (Some v) a = if within p 1 a then Some v else f a.
Proof. unfold upd. case_decide; ram_cases; try lia; done. Qed.

Lemma mapped_sub p n q k : mapped m p n -> p <= q -> q + k <= p + n -> mapped m q k.
Proof. intros H ? ? a Ha. apply H. lia. Qed.
End access.

Lemma mapped_same m m' p n : (forall a, is_Some (m a) -> is_Some (m' a)) -> mapped m p n -> mapped m' p n.
Proof. intros H Hm a Ha. by apply H, Hm. Qed.

Lemma u8_id b : 0 <= b < 256 -> u8 b = b.
Proof. apply u8_small. Qed.

Lemma wp_store_le n : forall p v m, mapped m p (Z.of_nat n) ->
  wp (store_le n p v) (fun _ m' => forall a,
    m' a = if within p (Z.of_nat n) a then Some (u8 (v / 256 ^ (a - p))) else m a) m.
Proof.
  induction n as [|n IH]; intros p v m Hm; cbn [store_le].
  { wp_steps. intros a. ram_lia. }
  apply wp_bind, wp_store8; [apply Hm; lia|].
  eapply wp_mono; [apply IH|].
  - intros a Ha. rewrite upd_within. ram_cases; [by eexists|]. apply Hm. lia.
  - intros [] m' H a. rewrite H, upd_within. ram_cases; try lia; [| |done].
    + do 2 f_equal. replace (a - p) with (1 + (a - (p + 1))) by lia.
      rewrite Z.pow_add_r, Z.div_div by lia. done.
    + do 2 f_equal. replace (a - p) with 0 by lia. by rewrite Z.div_1_r.
Qed.

Lemma wp_load_le n : forall p m, bytes_ok m -> mapped m p (Z.of_nat n) ->
  wp (load_le n p) (fun v m' => m' = m /\ 0 <= v < 256 ^ Z.of_nat n /\
    forall a, p <= a < p + Z.of_nat n -> m a = Some (u8 (v / 256 ^ (a - p)))) m.
Proof.
  induction n as [|n IH]; intros p m Hb Hm; cbn [load_le].
  { wp_steps. split_and!; [done|lia..|]. intros a Ha. lia. }
  destruct (Hm p) as [b Eb]; [lia|]. pose proof (Hb p b Eb) as Hr.
  apply wp_bind, (wp_load8 _ _ b); [done|].
  apply wp_bind. eapply wp_mono; [apply IH; [done|]|].
  - eapply mapped_sub; [done|lia|lia].
  - intros v m' (-> & Hv & Ha). wp_steps.
    assert (E : 256 ^ Z.of_nat (S n) = 256 * 256 ^ Z.of_nat n).
    { rewrite Nat2Z.inj_succ, Z.pow_succ_r by lia. done. }
    split_and!; [done|lia|rewrite E; lia|]. intros a Ha'. destruct (decide (a = p)) as [->|Hne].
    + rewrite Eb, Z.sub_diag, Z.pow_0_r, Z.div_1_r. f_equal. wraps. zmod.
    + rewrite (Ha a) by lia. f_equal. replace (a - p) with (1 + (a - (p + 1))) by lia.
      rewrite Z.pow_add_r, <-Z.div_div by lia. do 2 f_equal. change (256 ^ 1) with 256. zmod.
Qed.

Lemma wp_copy_byte d s m : bytes_ok m -> is_Some (m s) -> is_Some (m d) ->
  wp (copy_byte d s) (fun _ m' => forall a, m' a = copied d s 1 m a) m.
Proof.
  intros Hb [b Es] Hd. unfold copy_byte. apply wp_bind, (wp_load8 _ _ b); [done|].
  apply wp_store8; [done|]. intros a. rewrite upd_within. unfold copied. ram_cases; [|done].
  replace (s + (a - d)) with s by lia. by rewrite Es, u8_id by by apply (Hb s).
Qed.

Lemma wp_copy_long d s m : bytes_ok m -> mapped m s 8 -> mapped m d 8 ->
  d mod 8 = 0 -> s mod 8 = 0 ->
  wp (copy_long d s) (fun _ m' => forall a, m' a = copied d s 8 m a) m.
Proof.
  intros Hb Hs Hd Ed Es. unfold copy_long, load_long, store_long. wp_steps; [lia|].
  eapply wp_mono; [by apply (wp_load_le 8)|]. intros v m' (-> & Hv & Ha). wp_steps; [lia|].
  eapply wp_mono; [by apply (wp_store_le 8)|]. intros [] m' H a. rewrite H. unfold copied.
  ram_cases; try lia; [|done]. rewrite (Ha (s + (a - d))) by lia. do 4 f_equal. lia.
Qed.

(** * Copying *)
Section copy.
Context (m0 : ram) (d s n : Z).
Hypotheses (Hb : bytes_ok m0) (Hs : mapped m0 s n) (Hd : mapped m0 d n).

Definition copied_upto (k : Z) (m : ram) : Prop := forall a, m a = copied d s k m0 a.

Lemma copied_bytes_ok k m : copied_upto k m -> bytes_ok m.
Proof using Hb.
  clear Hs Hd. intros H a b. rewrite H. unfold copied. ram_cases; apply Hb.
Qed.

Lemma copied_is_some k m a : copied_upto k m -> k <= n -> is_Some (m0 a) -> is_Some (m a).
Proof using Hs.
  clear Hb Hd. intros H Hk Ha. rewrite H. unfold copied. ram_cases; [apply Hs; lia|done].
Qed.

(** The source of the bytes from [k] on is not yet overwritten. *)
Hypothesis Hapart : d <= s \/ s + n <= d.

Lemma copied_app k j m m' : 0 <= k -> 0 <= j -> k + j <= n ->
  copied_upto k m -> (forall a, m' a = copied (d + k) (s + k) j m a) -> copied_upto (k + j) m'.
Proof using Hapart.
  clear Hb Hs Hd. intros Hk Hj Hn H H' a. rewrite H'. unfold copied at 1.
  destruct (within (d + k) j a) eqn:E; [apply within_in in E|apply not_true_iff_false in E; rewrite within_in in E];
    rewrite H; ram_lia.
Qed.

Lemma copy_byte_step k m : 0 <= k -> k + 1 <= n -> copied_upto k m ->
  wp (copy_byte (d + k) (s + k)) (fun _ m' => copied_upto (k + 1) m') m.
Proof using All.
  intros Hk Hn H. eapply wp_mono; [apply wp_copy_byte|].
  - by eapply copied_bytes_ok.
  - apply (copied_is_some k m); [done|lia|apply Hs; lia].
  - apply (copied_is_some k m); [done|lia|apply Hd; lia].
  - intros [] m' H'. apply (copied_app k 1 m); try done; lia.
Qed.

Lemma copy_long_step k m : d mod 8 = 0 -> s mod 8 = 0 -> k mod 8 = 0 ->
  0 <= k -> k + 8 <= n -> copied_upto k m ->
  wp (copy_long (d + k) (s + k)) (fun _ m' => copied_upto (k + 8) m') m.
Proof using All.
  intros Ed Es Ek Hk Hn H. eapply wp_mono; [apply wp_copy_long|].
  - by eapply copied_bytes_ok.
  - intros a Ha. apply (copied_is_some k m); [done|lia|apply Hs; lia].
  - intros a Ha. apply (copied_is_some k m); [done|lia|apply Hd; lia].
  - zmod.
  - zmod.
  - intros [] m' H'. apply (copied_app k 8 m); try done; lia.
Qed.

Definition copying (al : Z) (x : Z * Z * Z) (m : ram) : Prop :=
  exists k, x = (d + k, s + k, n - k) /\ 0 <= k <= n /\ k mod al = 0 /\ copied_upto k m.

Hypothesis Hn : n < 2 ^ 31.
Let len_of (x : Z * Z * Z) : nat := Z.to_nat x.2.

Lemma u64_len k : 0 <= k <= n -> u64 (n - k) = n - k.
Proof using Hn. clear Hb Hs Hd Hapart. intros. wraps. rewrite Z.mod_small; lia. Qed.
Lemma i32_len k : 0 <= k <= n -> i32 (n - k) = n - k.
Proof using Hn. clear Hb Hs Hd Hapart. intros. apply i32_small. wraps. lia. Qed.

Lemma wp_memcpy_blocks fuel x m : d mod 8 = 0 -> s mod 8 = 0 ->
  (len_of x < fuel)%nat -> copying 8 x m ->
  wp (loop fuel memcpy_blocks x) (fun x' m' => copying 8 x' m' /\ (len_of x' <= len_of x)%nat) m.
Proof using All.
  intros Ed Es Hf HI.
  apply (wp_loop _ (fun y m' => copying 8 y m' /\ (len_of y <= len_of x)%nat) len_of); [|by split|done].
  clear m HI. intros y m [(k & -> & Hk & Ek & Hc) Hle]. unfold memcpy_blocks. rewrite u64_len by lia.
  destruct (Z.leb_spec 32 (n - k)); [|wp_steps; split; [by exists k|done]].
  apply wp_bind. eapply wp_mono; [apply copy_long_step; try done; lia|]. intros [] m1 H1.
  rewrite <-!Z.add_assoc.
  apply wp_bind. eapply wp_mono; [apply (copy_long_step (k + 8)); try done; [zmod|lia..]|]. intros [] m2 H2.
  apply wp_bind. eapply wp_mono; [apply (copy_long_step (k + 16)); rewrite <-?Z.add_assoc in *; try done; [zmod|lia..]|]. intros [] m3 H3.
  apply wp_bind. eapply wp_mono; [apply (copy_long_step (k + 24)); rewrite <-?Z.add_assoc in *; try done; [zmod|lia..]|]. intros [] m4 H4.
  replace (n - k - 32) with (n - (k + 32)) by lia. rewrite i32_len by lia.
  wp_steps. unfold len_of in *. cbn [snd] in *. rewrite <-Z.add_assoc in H4. split_and!; [|lia..].
  exists (k + 32). split_and!; [done|lia|lia|zmod|done].
Qed.

Lemma wp_memcpy_longs fuel x m : d mod 8 = 0 -> s mod 8 = 0 ->
  (len_of x < fuel)%nat -> copying 8 x m ->
  wp (loop fuel memcpy_longs x) (fun x' m' => copying 8 x' m' /\ (len_of x' <= len_of x)%nat) m.
Proof using All.
  intros Ed Es Hf HI.
  apply (wp_loop _ (fun y m' => copying 8 y m' /\ (len_of y <= len_of x)%nat) len_of); [|by split|done].
  clear m HI. intros y m [(k & -> & Hk & Ek & Hc) Hle]. unfold memcpy_longs. rewrite u64_len by lia.
  destruct (Z.leb_spec 8 (n - k)); [|wp_steps; split; [by exists k|done]].
  apply wp_bind. eapply wp_mono; [apply copy_long_step; try done; lia|]. intros [] m1 H1.
  rewrite <-!Z.add_assoc. replace (n - k - 8) with (n - (k + 8)) by lia. rewrite i32_len by lia.
  wp_steps. unfold len_of in *. cbn [snd] in *. split_and!; [|lia..].
  exists (k + 8). split_and!; [done|lia|lia|zmod|done].
Qed.

Lemma wp_memcpy_bytes fuel x m : (len_of x < fuel)%nat -> copying 1 x m ->
  wp (loop fuel memcpy_bytes x) (fun _ m' => copied_upto n m') m.
Proof using All.
  intros Hf HI. apply (wp_loop _ (copying 1) len_of); [|done|done].
  clear m HI. intros y m (k & -> & Hk & Ek & Hc). unfold memcpy_bytes.
  destruct (Z.eqb_spec (n - k) 0); [wp_steps; by replace n with k by lia|].
  apply wp_bind. eapply wp_mono; [apply copy_byte_step; try done; lia|]. intros [] m1 H1.
  replace (n - k - 1) with (n - (k + 1)) by lia. rewrite i32_len by lia.
  wp_steps. unfold len_of. cbn [snd]. split; [|lia].
  exists (k + 1). rewrite <-!Z.add_assoc. split_and!; [done|lia|lia|by rewrite Z.mod_1_r|done].
Qed.
End copy.

Lemma mod8_land a : Z.land a (8 - 1) = a mod 8.
Proof. change (8 - 1) with (Z.ones 3). by rewrite Z.land_ones. Qed.

Lemma aligned_both d s : Z.lor (Z.land s 7) (Z.land d 7) = 0 <-> s mod 8 = 0 /\ d mod 8 = 0.
Proof.
  change 7 with (8 - 1). rewrite !mod8_land. split; [|by intros [-> ->]].
  by intros [-> ->]%Z.lor_eq_0_iff.
Qed.

Lemma rt_memcpy_spec fuel d s n m : 0 <= n < 2 ^ 31 -> (Z.to_nat n < fuel)%nat ->
  bytes_ok m -> mapped m s n -> mapped m d n -> d <= s \/ s + n <= d ->
  wp (rt_memcpy fuel d s n) (fun r m' => r = d /\ forall a, m' a = copied d s n m a) m.
Proof.
  intros Hn Hf Hb Hs Hd Ha. unfold rt_memcpy. rewrite i32_small by (wraps; lia). apply wp_bind.
  assert (Hi : forall al, copying m d s n al (d, s, n) m).
  { intros al. exists 0. rewrite !Z.add_0_r, Z.sub_0_r. split_and!; [done|lia|lia|by rewrite Zmod_0_l|].
    intros a. ram_lia. }
  apply (wp_mono _ (fun x m' => copying m d s n 1 x m' /\ (Z.to_nat x.2 <= Z.to_nat n)%nat)); cycle 1.
  { intros x m' [Hc Hl]. apply wp_bind. eapply wp_mono; [by apply (wp_memcpy_bytes m d s n); try done; lia|].
    intros [] m'' H. by apply wp_ret. }
  destruct (negb _ && _) eqn:E; [|apply wp_ret; split; [done|done]].
  apply andb_true_iff in E as [_ E]. apply Z.eqb_eq, aligned_both in E as [Es Ed].
  apply wp_bind. eapply wp_mono; [apply (wp_memcpy_blocks m d s n); try done; try lia|].
  intros x m1 [H1 L1]. eapply wp_mono; [apply (wp_memcpy_longs m d s n); try done; try lia|].
  - cbn in *. lia.
  - intros x2 m2 [(k & -> & Hk & Ek & Hc) L2]. cbn in *. split; [|lia].
    exists k. split_and!; [done|lia|lia|by rewrite Z.mod_1_r|done].
Qed.

Section move.
Context (m0 : ram) (d s n : Z).
Hypotheses (Hb : bytes_ok m0) (Hs : mapped m0 s n) (Hd : mapped m0 d n) (Hn : 0 <= n < 2 ^ 64).

(** Downwards, the bytes from [k] on are moved. *)
Definition moved_from (k : Z) (m : ram) : Prop := forall a, m a = copied (d + k) (s + k) (n - k) m0 a.

Lemma moved_step k m : s < d -> 0 < k <= n -> moved_from k m ->
  wp (copy_byte (d + k - 1) (s + k - 1)) (fun _ m' => moved_from (k - 1) m') m.
Proof using Hb Hs Hd.
  intros Hsd Hk H. eapply wp_mono; [apply wp_copy_byte|].
  - intros a b. rewrite H. unfold copied. ram_cases; apply Hb.
  - rewrite H. unfold copied. ram_cases; apply Hs; lia.
  - rewrite H. unfold copied. ram_cases; [apply Hs; lia|apply Hd; lia].
  - intros [] m' H' a. rewrite H'. unfold copied at 1.
    destruct (within (d + k - 1) 1 a) eqn:E; [apply within_in in E|apply not_true_iff_false in E; rewrite within_in in E];
      rewrite H; ram_lia.
Qed.

Lemma wp_memmove_down fuel : s < d -> (Z.to_nat n < fuel)%nat ->
  wp (loop fuel memmove_down (d + n, s + n, n)) (fun _ m' => forall a, m' a = copied d s n m0 a) m0.
Proof using All.
  intros Hsd Hf.
  apply (wp_loop _ (fun x m => exists k, x = (d + k, s + k, k) /\ 0 <= k <= n /\ moved_from k m)
    (fun x => Z.to_nat x.2)); [|exists n; split_and!; [done|lia|lia|intros a; ram_lia]|done].
  intros x m (k & -> & Hk & H). unfold memmove_down. destruct (Z.eqb_spec k 0) as [->|].
  - wp_steps. intros a. rewrite H, !Z.add_0_r. by rewrite Z.sub_0_r.
  - apply wp_bind. eapply wp_mono; [by apply moved_step; try done; lia|]. intros [] m' H'. wp_steps.
    assert (E : u64 (k - 1) = k - 1) by (wraps; rewrite Z.mod_small; lia).
    rewrite E. cbn. split; [|lia]. exists (k - 1). split_and!; [do 2 f_equal; lia|lia|lia|done].
Qed.

Lemma wp_memmove_up fuel : d <= s \/ s + n <= d -> (Z.to_nat n < fuel)%nat ->
  wp (loop fuel memmove_up (d, s, n)) (fun _ m' => forall a, m' a = copied d s n m0 a) m0.
Proof using All.
  intros Hsd Hf.
  apply (wp_loop _ (fun x m => exists k, x = (d + k, s + k, n - k) /\ 0 <= k <= n /\ copied_upto m0 d s k m)
    (fun x => Z.to_nat x.2)); [|exists 0; rewrite !Z.add_0_r, Z.sub_0_r; split_and!; [done|lia|lia|intros a; ram_lia]|done].
  intros x m (k & -> & Hk & H). unfold memmove_up. destruct (Z.eqb_spec (n - k) 0).
  - wp_steps. by replace n with k by lia.
  - apply wp_bind. eapply wp_mono; [apply (copy_byte_step m0 d s n); try done; lia|]. intros [] m' H'. wp_steps.
    assert (E : u64 (n - k - 1) = n - (k + 1)) by (wraps; rewrite Z.mod_small; lia).
    rewrite E. cbn. split; [|lia]. exists (k + 1). rewrite <-!Z.add_assoc. split_and!; [done|lia|lia|done].
Qed.

Lemma rt_memmove_spec fuel : (Z.to_nat n < fuel)%nat ->
  wp (rt_memmove fuel d s n) (fun r m' => r = d /\ forall a, m' a = copied d s n m0 a) m0.
Proof using All.
  intros Hf. unfold rt_memmove. apply wp_bind. destruct (_ && _) eqn:E.
  - eapply wp_mono; [apply wp_memmove_down; [lia|done]|]. intros [] m' H. by wp_steps.
  - eapply wp_mono; [apply wp_memmove_up; [lia|done]|]. intros [] m' H. by wp_steps.
Qed.
End move.

(** * Filling *)
(** Every byte of the word is [d]: a check over all values of a byte. *)
Definition buffer_ok (d : Z) : bool :=
  forallb (fun i => u8 (memset_buffer d / 256 ^ i) =? d) [0; 1; 2; 3; 4; 5; 6; 7].

Lemma buffer_ok_all : forallb buffer_ok (seqZ 0 256) = true.
Proof. vm_compute. reflexivity. Qed.

Lemma forallb_elem {A} (f : A -> bool) l x : forallb f l = true -> x ∈ l -> f x = true.
Proof. rewrite forallb_forall. intros H Hx. by apply H, list_elem_of_In. Qed.

Lemma memset_buffer_bytes d i : 0 <= d < 256 -> 0 <= i < 8 ->
  u8 (memset_buffer d / 256 ^ i) = d.
Proof.
  intros Hd Hi. pose proof (forallb_elem _ _ d buffer_ok_all) as H. rewrite elem_of_seqZ in H.
  specialize (H ltac:(lia)). apply Z.eqb_eq. revert H. unfold buffer_ok.
  generalize (memset_buffer d). intros b H. apply (forallb_elem _ _ i H). rewrite !elem_of_cons. lia.
Qed.

Section fill.
Context (m0 : ram) (s n d : Z).
Hypotheses (Hm : mapped m0 s n) (Hn : 0 <= n < 2 ^ 64) (Hd : 0 <= d < 256).

Definition filling (al : Z) (x : Z * Z) (m : ram) : Prop :=
  exists k, x = (s + k, n - k) /\ 0 <= k <= n /\ k mod al = 0 /\ forall a, m a = filled s k d m0 a.
Let len_of (x : Z * Z) : nat := Z.to_nat x.2.

Lemma store_long_step k m : s mod 8 = 0 -> k mod 8 = 0 -> 0 <= k -> k + 8 <= n ->
  (forall a, m a = filled s k d m0 a) ->
  wp (store_long (s + k) (memset_buffer d)) (fun _ m' => forall a, m' a = filled s (k + 8) d m0 a) m.
Proof using Hm Hd.
  clear Hn.
  intros Es Ek Hk Hkn H. unfold store_long. apply wp_bind, wp_assert; [zmod|].
  eapply wp_mono; [apply (wp_store_le 8)|].
  - intros a Ha. rewrite H. unfold filled. ram_cases; [by eexists|apply Hm; lia].
  - intros [] m' H' a. rewrite H', H. unfold filled. ram_cases; try lia; try done.
    f_equal. apply memset_buffer_bytes; lia.
Qed.

Lemma u64_left k : 0 <= k <= n -> u64 (n - k) = n - k.
Proof using Hn. clear Hm Hd. intros. wraps. rewrite Z.mod_small; lia. Qed.

Lemma wp_memset_blocks fuel x m : s mod 8 = 0 -> (len_of x < fuel)%nat -> filling 8 x m ->
  wp (loop fuel (memset_blocks (memset_buffer d)) x)
    (fun x' m' => filling 8 x' m' /\ (len_of x' <= len_of x)%nat) m.
Proof using All.
  intros Es Hf HI.
  apply (wp_loop _ (fun y m' => filling 8 y m' /\ (len_of y <= len_of x)%nat) len_of); [|by split|done].
  clear m HI. intros y m [(k & -> & Hk & Ek & Hc) Hle]. unfold memset_blocks. change (8 * 4) with 32. change (4 * 8) with 32.
  destruct (Z.leb_spec 32 (n - k)); [|wp_steps; split; [by exists k|done]].
  apply wp_bind. eapply wp_mono; [apply store_long_step; try done; lia|]. intros [] m1 H1.
  rewrite <-!Z.add_assoc.
  apply wp_bind. eapply wp_mono; [apply (store_long_step (k + 8)); try done; [zmod|lia..]|]. intros [] m2 H2.
  apply wp_bind. eapply wp_mono; [apply (store_long_step (k + 16)); rewrite <-?Z.add_assoc in *; try done; [zmod|lia..]|]. intros [] m3 H3.
  apply wp_bind. eapply wp_mono; [apply (store_long_step (k + 24)); rewrite <-?Z.add_assoc in *; try done; [zmod|lia..]|]. intros [] m4 H4.
  replace (n - k - 32) with (n - (k + 32)) by lia. rewrite u64_left by lia.
  wp_steps. unfold len_of in *. cbn [snd] in *. rewrite <-Z.add_assoc in H4. split_and!; [|lia..].
  exists (k + 32). split_and!; [done|lia|lia|zmod|done].
Qed.

Lemma wp_memset_longs fuel x m : s mod 8 = 0 -> (len_of x < fuel)%nat -> filling 8 x m ->
  wp (loop fuel (memset_longs (memset_buffer d)) x)
    (fun x' m' => filling 8 x' m' /\ (len_of x' <= len_of x)%nat) m.
Proof using All.
  intros Es Hf HI.
  apply (wp_loop _ (fun y m' => filling 8 y m' /\ (len_of y <= len_of x)%nat) len_of); [|by split|done].
  clear m HI. intros y m [(k & -> & Hk & Ek & Hc) Hle]. unfold memset_longs.
  destruct (Z.leb_spec 8 (n - k)); [|wp_steps; split; [by exists k|done]].
  apply wp_bind. eapply wp_mono; [apply store_long_step; try done; lia|]. intros [] m1 H1.
  rewrite <-!Z.add_assoc. replace (n - k - 8) with (n - (k + 8)) by lia. rewrite u64_left by lia.
  wp_steps. unfold len_of in *. cbn [snd] in *. split_and!; [|lia..].
  exists (k + 8). split_and!; [done|lia|lia|zmod|done].
Qed.

Lemma wp_memset_bytes fuel x m : (len_of x < fuel)%nat -> filling 1 x m ->
  wp (loop fuel (memset_bytes d) x) (fun _ m' => forall a, m' a = filled s n d m0 a) m.
Proof using All.
  intros Hf HI. apply (wp_loop _ (filling 1) len_of); [|done|done].
  clear m HI. intros y m (k & -> & Hk & Ek & Hc). unfold memset_bytes.
  destruct (Z.eqb_spec (n - k) 0); [wp_steps; by replace n with k by lia|].
  apply wp_bind, wp_store8; [rewrite Hc; unfold filled; ram_cases; [by eexists|apply Hm; lia]|].
  replace (n - k - 1) with (n - (k + 1)) by lia. rewrite u64_left by lia.
  wp_steps. unfold len_of. cbn [snd]. split; [|lia].
  exists (k + 1). rewrite <-!Z.add_assoc. split_and!; [done|lia|lia|by rewrite Z.mod_1_r|].
  intros a. rewrite upd_within, Hc, u8_id by done. ram_lia.
Qed.
End fill.

Lemma rt_memset_spec fuel s c n m : 0 <= n < 2 ^ 64 -> (Z.to_nat n < fuel)%nat -> mapped m s n ->
  wp (rt_memset fuel s c n) (fun r m' => r = s /\ forall a, m' a = filled s n (u8 c) m a) m.
Proof.
  intros Hn Hf Hm. unfold rt_memset.
  assert (Ed : Z.land c 255 = u8 c) by (change 255 with (Z.ones 8); by rewrite Z.land_ones). rewrite Ed.
  assert (Hd : 0 <= u8 c < 256) by (unfold u8; apply Z.mod_pos_bound; lia). apply wp_bind.
  assert (Hi : forall al, filling m s n (u8 c) al (s, n) m).
  { intros al. exists 0. rewrite Z.add_0_r, Z.sub_0_r. split_and!; [done|lia|lia|by rewrite Zmod_0_l|].
    intros a. ram_lia. }
  apply (wp_mono _ (fun x m' => filling m s n (u8 c) 1 x m' /\ (Z.to_nat x.2 <= Z.to_nat n)%nat)); cycle 1.
  { intros x m' [Hc Hl]. apply wp_bind. eapply wp_mono; [by apply (wp_memset_bytes m s n (u8 c)); try done; lia|].
    intros [] m'' H. by apply wp_ret. }
  destruct (negb _ && _) eqn:E; [|apply wp_ret; split; [done|done]].
  apply andb_true_iff in E as [_ E]. rewrite mod8_land in E. apply Z.eqb_eq in E.
  apply wp_bind. eapply wp_mono; [apply (wp_memset_blocks m s n (u8 c)); try done; try lia|].
  intros x m1 [H1 L1]. eapply wp_mono; [apply (wp_memset_longs m s n (u8 c)); try done; try lia|].
  - cbn in *. lia.
  - intros x2 m2 [(k & -> & Hk & Ek & Hc) L2]. cbn in *. split; [|lia].
    exists k. split_and!; [done|lia|lia|by rewrite Z.mod_1_r|done].
Qed.

(** * Sequences of bytes and strings in memory *)
Fixpoint bytes_at (m : ram) (p : Z) (l : list Z) : Prop :=
  match l with [] => True | b :: l => m p = Some b /\ bytes_at m (p + 1) l end.
Definition is_byte (b : Z) : Prop := 0 <= b < 256.
Definition is_char (b : Z) : Prop := 0 < b < 256.
(** A C string with the characters [l]. *)
Definition cstr (m : ram) (p : Z) (l : list Z) : Prop := bytes_at m p (l ++ [0]) /\ Forall is_char l.

Lemma bytes_at_app m l1 : forall p l2,
  bytes_at m p (l1 ++ l2) <-> bytes_at m p l1 /\ bytes_at m (p + Z.of_nat (length l1)) l2.
Proof.
  induction l1 as [|b l1 IH]; intros p l2; cbn.
  - rewrite Z.add_0_r. tauto.
  - rewrite IH. replace (p + 1 + Z.of_nat (length l1)) with (p + Z.of_nat (S (length l1))) by lia. tauto.
Qed.

Lemma cstr_nil m p : cstr m p [] <-> m p = Some 0.
Proof. unfold cstr. cbn. split; [by intros [[? _] _]|]. intros H. split; [done|constructor]. Qed.
Lemma cstr_cons m p b l : cstr m p (b :: l) <-> m p = Some b /\ is_char b /\ cstr m (p + 1) l.
Proof. unfold cstr. cbn. rewrite Forall_cons. tauto. Qed.

(** The difference of the first bytes that differ, [0] when there is none; a
    sequence that ends is below one that goes on. *)
Fixpoint first_diff (l1 l2 : list Z) : Z :=
  match l1, l2 with
  | a :: l1, b :: l2 => if a =? b then first_diff l1 l2 else a - b
  | a :: _, [] => a
  | [], b :: _ => - b
  | [], [] => 0
  end.

Lemma first_diff_same l1 : forall l2, Forall is_char l1 -> Forall is_char l2 ->
  (first_diff l1 l2 = 0 <-> l1 = l2).
Proof.
  induction l1 as [|a l1 IH]; intros [|b l2] H1 H2; cbn.
  - done.
  - apply Forall_cons in H2 as [Hb _]. unfold is_char in Hb. split; [lia|done].
  - apply Forall_cons in H1 as [Ha _]. unfold is_char in Ha. split; [lia|done].
  - apply Forall_cons in H1 as [_ H1], H2 as [_ H2]. destruct (Z.eqb_spec a b) as [->|].
    + rewrite IH by done. split; [by intros ->|by intros [= ->]].
    + split; [lia|]. intros [= ? _]. lia.
Qed.

Lemma first_diff_eqlen l1 : forall l2, length l1 = length l2 -> (first_diff l1 l2 = 0 <-> l1 = l2).
Proof.
  induction l1 as [|a l1 IH]; intros [|b l2] E; try done. injection E as E. cbn.
  destruct (Z.eqb_spec a b) as [->|]; [rewrite IH by done; split; [by intros ->|by intros [= ->]]|].
  split; [lia|]. intros [= ? _]. lia.
Qed.

Lemma i32_diff a b : is_byte a -> is_byte b -> i32 (a - b) = a - b.
Proof. unfold is_byte. intros. apply i32_small. lia. Qed.
Lemma char_byte b : is_char b -> is_byte b.
Proof. unfold is_char, is_byte. lia. Qed.

Lemma rt_memcmp_spec m l1 l2 p q fuel n : Z.of_nat (length l1) = n -> Z.of_nat (length l2) = n -> n < 2 ^ 64 ->
  bytes_at m p l1 -> bytes_at m q l2 -> Forall is_byte l1 -> Forall is_byte l2 -> (length l1 < fuel)%nat ->
  wp (rt_memcmp fuel p q n) (fun r m' => r = first_diff l1 l2 /\ m' = m) m.
Proof.
  unfold rt_memcmp. revert l2 p q fuel n.
  induction l1 as [|a l1 IH]; intros [|b l2] p q fuel n E1 E2 Hn H1 H2 B1 B2 Hf; cbn in E1, E2; try lia;
    (destruct fuel as [|fuel]; [cbn in Hf; lia|]); cbn [loop memcmp_bytes].
  - subst n. by wp_steps.
  - destruct H1 as [Ha H1], H2 as [Hb H2]. apply Forall_cons in B1 as [Ba B1], B2 as [Bb B2].
    destruct (Z.ltb_spec 0 n); [|lia].
    apply wp_bind, wp_bind, (wp_load8 _ _ a); [done|]. apply wp_bind, (wp_load8 _ _ b); [done|].
    rewrite i32_diff by done. cbn [first_diff]. destruct (Z.eqb_spec a b) as [->|Hne].
    + rewrite Z.sub_diag. cbn [negb Z.eqb]. apply wp_ret.
      assert (E : u64 (n - 1) = n - 1) by (wraps; rewrite Z.mod_small; lia). rewrite E.
      apply (IH l2); try done; try lia. cbn in Hf. lia.
    + destruct (Z.eqb_spec (a - b) 0); [lia|]. cbn [negb]. by wp_steps.
Qed.

Lemma rt_strlen_spec m l p fuel : cstr m p l -> (length l < fuel)%nat -> Z.of_nat (length l) < 2 ^ 64 ->
  wp (rt_strlen fuel p) (fun r m' => r = Z.of_nat (length l) /\ m' = m) m.
Proof.
  intros Hl Hf Hn. unfold rt_strlen.
  enough (H : forall k l' fuel, cstr m (p + Z.of_nat k) l' -> (length l' < fuel)%nat -> (k + length l')%nat = length l ->
    wp (loop fuel (strlen_bytes p) (p + Z.of_nat k)) (fun r m' => r = Z.of_nat (length l) /\ m' = m) m).
  { specialize (H 0%nat l fuel). rewrite Z.add_0_r in H. by apply H. }
  clear Hl Hf fuel. intros k l' fuel. revert k fuel.
  induction l' as [|b l' IH]; intros k [|fuel] Hl Hf E; cbn in Hf, E; try lia; cbn [loop]; unfold strlen_bytes at 1.
  - apply cstr_nil in Hl. apply wp_bind, wp_bind, (wp_load8 _ _ 0); [done|]. wp_steps. split; [|done].
    wraps. rewrite Z.mod_small; lia.
  - apply cstr_cons in Hl as (Hb & Hc & Hl). apply wp_bind, wp_bind, (wp_load8 _ _ b); [done|].
    unfold is_char in Hc. destruct (Z.eqb_spec b 0); [lia|]. cbn [negb]. apply wp_ret.
    replace (p + Z.of_nat k + 1) with (p + Z.of_nat (S k)) in * by lia. apply IH; [done|lia|lia].
Qed.

Lemma rt_strcmp_spec m l1 l2 p q fuel : cstr m p l1 -> cstr m q l2 -> (length l1 < fuel)%nat ->
  wp (rt_strcmp fuel p q) (fun r m' => r = first_diff l1 l2 /\ m' = m) m.
Proof.
  unfold rt_strcmp. revert l2 p q fuel.
  induction l1 as [|a l1 IH]; intros l2 p q [|fuel] H1 H2 Hf; cbn in Hf; try lia; cbn [loop strcmp_bytes].
  - apply cstr_nil in H1. apply wp_bind, wp_bind, (wp_load8 _ _ 0); [done|]. cbn [negb Z.eqb].
    destruct l2 as [|b l2].
    + apply cstr_nil in H2. apply wp_bind, (wp_load8 _ _ 0); [done|]. by wp_steps.
    + apply cstr_cons in H2 as (Hb & Hc & H2). apply wp_bind, (wp_load8 _ _ b); [done|]. wp_steps.
      split; [|done]. cbn [first_diff]. rewrite i32_diff; [lia|unfold is_byte; lia|by apply char_byte].
  - apply cstr_cons in H1 as (Ha & Ca & H1). apply wp_bind, wp_bind, (wp_load8 _ _ a); [done|].
    assert (a <> 0) by (unfold is_char in Ca; lia). destruct (Z.eqb_spec a 0); [done|]. cbn [negb].
    destruct l2 as [|b l2].
    + apply cstr_nil in H2. apply wp_bind, (wp_load8 _ _ 0); [done|]. destruct (Z.eqb_spec a 0); [done|].
      wp_steps. cbn [first_diff]. rewrite i32_diff; [split; [lia|done]|by apply char_byte|unfold is_byte; lia].
    + apply cstr_cons in H2 as (Hb & Cb & H2). apply wp_bind, (wp_load8 _ _ b); [done|]. cbn [first_diff].
      destruct (Z.eqb_spec a b) as [->|]; [apply wp_ret; apply (IH l2); [done|done|lia]|].
      wp_steps. by rewrite i32_diff by by apply char_byte.
Qed.

(** The bytes of a string up to position [n], its end included. *)
Definition upto (n : Z) (l : list Z) : list Z := take (Z.to_nat n) l.

Lemma i8_zero a b : is_byte a -> is_byte b -> (i8 (a - b) = 0 <-> a = b).
Proof. unfold is_byte, i8. change (2 ^ 7) with 128. change (2 ^ 8) with 256. intros. split; [zmod|intros ->; by rewrite Z.sub_diag]. Qed.

Lemma rt_strncmp_spec m l1 l2 p q n fuel : cstr m p l1 -> cstr m q l2 -> 0 <= n < 2 ^ 64 ->
  (length l1 + 1 < fuel)%nat ->
  wp (rt_strncmp fuel p q n) (fun r m' => r = i8 (first_diff (upto n l1) (upto n l2)) /\ m' = m) m.
Proof.
  unfold rt_strncmp. revert l2 p q n fuel.
  induction l1 as [|a l1 IH]; intros l2 p q n [|fuel] H1 H2 Hn Hf; cbn in Hf; try lia; cbn [loop strncmp_bytes];
    (destruct (Z.eqb_spec n 0) as [->|Hn0]; [cbn [negb]; by wp_steps|]); cbn [negb];
    assert (En : Z.to_nat n = S (Z.to_nat (n - 1))) by lia; unfold upto; rewrite En.
  - apply cstr_nil in H1. apply wp_bind, wp_bind, (wp_load8 _ _ 0); [done|].
    destruct l2 as [|b l2]; cbn [take first_diff].
    + apply cstr_nil in H2. apply wp_bind, (wp_load8 _ _ 0); [done|]. by wp_steps.
    + apply cstr_cons in H2 as (Hb & Cb & H2). apply wp_bind, (wp_load8 _ _ b); [done|]. cbn beta.
      rewrite Z.sub_0_l. destruct (Z.eqb_spec (i8 (-b)) 0) as [E|]; cbn [negb]; by wp_steps.
  - apply cstr_cons in H1 as (Ha & Ca & H1). apply wp_bind, wp_bind, (wp_load8 _ _ a); [done|].
    pose proof (char_byte _ Ca) as Ba. assert (a <> 0) by (unfold is_char in Ca; lia).
    destruct l2 as [|b l2]; cbn [take first_diff].
    + apply cstr_nil in H2. apply wp_bind, (wp_load8 _ _ 0); [done|]. cbn beta.
      destruct (Z.eqb_spec (i8 (a - 0)) 0) as [E|].
      * exfalso. pose proof (proj1 (i8_zero a 0 Ba ltac:(unfold is_byte; lia)) E). lia.
      * cbn [negb]. wp_steps. by rewrite Z.sub_0_r.
    + apply cstr_cons in H2 as (Hb & Cb & H2). apply wp_bind, (wp_load8 _ _ b); [done|]. cbn beta.
      destruct (Z.eqb_spec (i8 (a - b)) 0) as [E|E].
      * pose proof (proj1 (i8_zero a b Ba (char_byte _ Cb)) E) as ->. cbn [negb]. destruct (Z.eqb_spec b 0); [done|].
        apply wp_ret. rewrite Z.eqb_refl.
        assert (Eu : u64 (n - 1) = n - 1) by (wraps; rewrite Z.mod_small; lia). rewrite Eu.
        unfold i8 at 2. rewrite Z.sub_diag. change ((0 + 2 ^ 7) mod 2 ^ 8 - 2 ^ 7) with 0.
        apply (IH l2); try done; lia.
      * cbn [negb]. wp_steps. destruct (Z.eqb_spec a b) as [->|]; [|done].
        exfalso. apply E. by rewrite Z.sub_diag.
Qed.

Lemma bytes_at_take m p l n : bytes_at m p l -> bytes_at m p (take n l).
Proof. revert p l. induction n as [|n IH]; intros p [|b l] H; try done. destruct H. split; [done|by apply IH]. Qed.

Lemma Forall_is_byte l : Forall is_char l -> Forall is_byte l.
Proof. intros H. eapply Forall_impl; [exact H|]. apply char_byte. Qed.

(** [rt_strstr] gives the first place where [l2] occurs. *)
Definition first_place (p : Z) (l1 l2 : list Z) (r : option Z) : Prop :=
  match r with
  | Some a => exists k, a = p + Z.of_nat k /\ l2 `prefix_of` drop k l1 /\
      forall j, l2 `prefix_of` drop j l1 -> (k <= j)%nat
  | None => forall j, ~ l2 `prefix_of` drop j l1
  end.

Lemma prefix_take {A} (l2 l : list A) : l2 `prefix_of` l <-> take (length l2) l = l2.
Proof.
  split.
  - intros [k ->]. by rewrite take_app_length.
  - intros H. exists (drop (length l2) l). by rewrite <-H at 1; rewrite take_drop.
Qed.

Lemma rt_strstr_loop m q l2 l1 p fuel : l2 <> [] -> cstr m p l1 -> cstr m q l2 ->
  Z.of_nat (length l1) < 2 ^ 31 -> (length l2 < fuel)%nat ->
  forall f h k, drop k l1 = h -> (k + length h)%nat = length l1 -> (length h < f)%nat ->
  (forall j, l2 `prefix_of` drop j l1 -> (k <= j)%nat) ->
  wp (loop f (strstr_at fuel q (Z.of_nat (length l2))) (p + Z.of_nat k, Z.of_nat (length h)))
    (fun r m' => first_place p l1 l2 r /\ m' = m) m.
Proof.
  intros Hne H1 H2 Hl Hf f h k Eh Ek Hfl Hno. revert f k Eh Ek Hfl Hno.
  induction h as [|c h IH]; intros [|f] k Eh Ek Hfl Hno; cbn in Hfl; try lia; apply wp_loop_S; unfold strstr_at at 1.
  - destruct (Z.leb_spec (Z.of_nat (length l2)) (Z.of_nat (length (@nil Z)))) as [Hle|_].
    { destruct l2; [done|cbn in Hle; lia]. }
    wp_steps. split; [|done]. intros j Hp. specialize (Hno j Hp).
    rewrite drop_ge in Hp by (cbn in Ek; lia). by apply prefix_nil_inv in Hp.
  - destruct (Z.leb_spec (Z.of_nat (length l2)) (Z.of_nat (length (c :: h)))) as [Hle|Hgt]; cycle 1.
    { wp_steps. split; [|done]. intros j Hp. specialize (Hno j Hp).
      apply prefix_length in Hp. rewrite length_drop in Hp. cbn [length] in *. lia. }
    assert (Hb : bytes_at m (p + Z.of_nat k) (c :: h)).
    { destruct H1 as [H1 _]. rewrite <-(take_drop k l1), Eh, <-app_assoc, bytes_at_app in H1.
      destruct H1 as [_ H1]. rewrite length_take, Nat.min_l in H1 by (cbn in Ek; lia).
      by apply bytes_at_app in H1 as [H1 _]. }
    assert (Hc : Forall is_byte (c :: h)).
    { rewrite <-Eh. apply Forall_is_byte, Forall_drop, H1. }
    assert (El : length (take (length l2) (c :: h)) = length l2) by (rewrite length_take; lia).
    assert (Eu : u64 (Z.of_nat (length l2)) = Z.of_nat (length l2)) by (wraps; rewrite Z.mod_small; cbn in *; lia).
    apply wp_bind. rewrite Eu.
    eapply wp_mono; [apply (rt_memcmp_spec m (take (length l2) (c :: h)) l2)|].
    + by rewrite El.
    + done.
    + cbn in *. lia.
    + by apply bytes_at_take.
    + destruct H2 as [H2 _]. by apply bytes_at_app in H2 as [H2 _].
    + by apply Forall_take.
    + by apply Forall_is_byte, H2.
    + by rewrite El.
    + intros r m' [-> ->]. destruct (Z.eqb_spec (first_diff (take (length l2) (c :: h)) l2) 0) as [E|E].
      * apply first_diff_eqlen in E; [|done]. wp_steps. split; [|done]. exists k.
        split_and!; [done|rewrite Eh; by apply prefix_take|done].
      * apply wp_ret. replace (p + Z.of_nat k + 1) with (p + Z.of_nat (S k)) by lia.
        rewrite i32_small by (cbn [length] in *; lia).
        replace (Z.of_nat (length (c :: h)) - 1) with (Z.of_nat (length h)) by (cbn [length]; lia).
        apply IH; [|cbn in *; lia|lia|].
        -- replace (S k) with (k + 1)%nat by lia. by rewrite <-drop_drop, Eh.
        -- intros j Hp. specialize (Hno j Hp). destruct (decide (j = k)) as [->|]; [|lia].
           exfalso. apply E, first_diff_eqlen; [done|]. rewrite Eh in Hp. by apply prefix_take.
Qed.

Lemma rt_strstr_spec m p q l1 l2 fuel : cstr m p l1 -> cstr m q l2 ->
  Z.of_nat (length l1) < 2 ^ 31 -> Z.of_nat (length l2) < 2 ^ 31 ->
  (length l1 < fuel)%nat -> (length l2 < fuel)%nat ->
  wp (rt_strstr fuel p q) (fun r m' => first_place p l1 l2 r /\ m' = m) m.
Proof.
  intros H1 H2 L1 L2 F1 F2. unfold rt_strstr.
  apply wp_bind. eapply wp_mono; [by apply (rt_strlen_spec m l2 q); try done; lia|].
  intros r m' [-> ->]. rewrite i32_small by lia. destruct (Z.eqb_spec (Z.of_nat (length l2)) 0) as [E|E].
  - wp_steps. split; [|done]. exists 0%nat. destruct l2; [|cbn in E; lia].
    split_and!; [lia|by apply prefix_nil|lia].
  - apply wp_bind. eapply wp_mono; [by apply (rt_strlen_spec m l1 p); try done; lia|].
    intros r m' [-> ->]. rewrite i32_small by lia.
    pose proof (rt_strstr_loop m q l2 l1 p fuel ltac:(by intros ->) H1 H2 L1 F2 fuel l1 0%nat) as H.
    rewrite Z.add_0_r in H. apply H; [done|done|done|lia].
Qed.

Lemma rt_strnlen_loop m p l k fuel : bytes_at m (p + Z.of_nat k) l -> Forall is_char l ->
  (length l < fuel)%nat -> Z.of_nat (k + length l) < 2 ^ 64 ->
  forall (Q : Z -> ram -> Prop) (maxlen : Z), Z.of_nat (k + length l) <= maxlen ->
  (forall f, (0 < f)%nat ->
    wp (loop f (strnlen_bytes p maxlen) (p + Z.of_nat (k + length l))) Q m) ->
  wp (loop fuel (strnlen_bytes p maxlen) (p + Z.of_nat k)) Q m.
Proof.
  intros Hl Hc Hf Hn Q maxlen Hmax HQ. revert k fuel Hl Hc Hf Hn Hmax HQ.
  induction l as [|b l IH]; intros k [|fuel] Hl Hc Hf Hn Hmax HQ; cbn [length] in *; try lia.
  - rewrite Nat.add_0_r in HQ. apply HQ. lia.
  - destruct Hl as [Hb Hl]. apply Forall_cons in Hc as [Cb Hc]. apply wp_loop_S. unfold strnlen_bytes at 1.
    apply wp_bind, (wp_load8 _ _ b); [done|]. unfold is_char in Cb.
    assert (E : u64 (p + Z.of_nat k - p) = Z.of_nat k) by (wraps; rewrite Z.mod_small; lia). rewrite E.
    destruct (Z.eqb_spec b 0); [lia|]. destruct (Z.ltb_spec (Z.of_nat k) maxlen); [|lia].
    cbn [negb andb]. apply wp_ret. replace (p + Z.of_nat k + 1) with (p + Z.of_nat (S k)) in * by lia.
    apply IH; try done; try lia. intros f Hf'. replace (S k + length l)%nat with (k + S (length l))%nat by lia.
    by apply HQ.
Qed.

(** Within its bound, or at the bound when the byte there can be read, it is
    the length. *)
Lemma rt_strnlen_spec m p l b maxlen fuel : bytes_at m p (l ++ [b]) -> Forall is_char l ->
  b = 0 /\ Z.of_nat (length l) <= maxlen \/ Z.of_nat (length l) = maxlen ->
  (length l < fuel)%nat -> Z.of_nat (length l) < 2 ^ 64 ->
  wp (rt_strnlen fuel p maxlen) (fun r m' => r = Z.of_nat (length l) /\ m' = m) m.
Proof.
  intros [Hl [Hb _]]%bytes_at_app Hc Hmax Hf Hn. unfold rt_strnlen.
  rewrite <-(Z.add_0_r p) at 2. apply (rt_strnlen_loop m p l 0); try done; [by rewrite Z.add_0_r|cbn; lia|].
  intros [|f] Hf'; [lia|]. apply wp_loop_S. unfold strnlen_bytes. apply wp_bind, (wp_load8 _ _ b); [done|].
  cbn [Nat.add]. assert (E : u64 (p + Z.of_nat (length l) - p) = Z.of_nat (length l)) by (wraps; rewrite Z.mod_small; lia).
  rewrite E. assert (Hstop : negb (b =? 0) && (Z.of_nat (length l) <? maxlen) = false).
  { destruct Hmax as [[-> _]|<-]; [done|]. rewrite Z.ltb_irrefl. apply andb_false_r. }
  rewrite Hstop. by wp_steps.
Qed.

Lemma strcasecmp_lower b : is_byte b -> is_byte (to_lower b) /\ (to_lower b = 0 <-> b = 0) /\ Z.land b 255 = b.
Proof.
  unfold is_byte, to_lower. intros Hb. change 255 with (Z.ones 8). rewrite Z.land_ones, Z.mod_small by lia.
  split_and!; [..|done]; destruct (Z.leb_spec 65 b), (Z.leb_spec b 90); cbn [andb]; lia.
Qed.

Lemma rt_strcasecmp_spec m l1 : forall l2 p q fuel, cstr m p l1 -> cstr m q l2 -> (length l1 < fuel)%nat ->
  wp (rt_strcasecmp fuel p q)
    (fun r m' => r = u32 (first_diff (map to_lower l1) (map to_lower l2)) /\ m' = m) m.
Proof.
  assert (Hz : Z.land 0 255 = 0) by done. unfold rt_strcasecmp.
  induction l1 as [|a l1 IH]; intros l2 p q [|fuel] H1 H2 Hf; cbn [length] in Hf; try lia;
    apply wp_loop_S; cbn [strcasecmp_bytes map]; destruct l2 as [|b l2]; cbn [map first_diff].
  - apply cstr_nil in H1, H2. apply wp_bind, (wp_load8 _ _ 0); [done|]. apply wp_bind, (wp_load8 _ _ 0); [done|].
    by wp_steps.
  - apply cstr_nil in H1. apply cstr_cons in H2 as (Hb & Cb & H2).
    apply wp_bind, (wp_load8 _ _ 0); [done|]. apply wp_bind, (wp_load8 _ _ b); [done|]. cbn beta.
    destruct (strcasecmp_lower b (char_byte _ Cb)) as (Bb & Z0 & ->). rewrite Hz. change (to_lower 0) with 0.
    destruct (Z.eqb_spec 0 (to_lower b)) as [E|_]; [unfold is_char in Cb; lia|]. by wp_steps.
  - apply cstr_nil in H2. apply cstr_cons in H1 as (Ha & Ca & H1).
    apply wp_bind, (wp_load8 _ _ a); [done|]. apply wp_bind, (wp_load8 _ _ 0); [done|]. cbn beta.
    destruct (strcasecmp_lower a (char_byte _ Ca)) as (Ba & Z0 & ->). rewrite Hz. change (to_lower 0) with 0.
    destruct (Z.eqb_spec (to_lower a) 0) as [E|_]; [unfold is_char in Ca; lia|]. wp_steps. by rewrite Z.sub_0_r.
  - apply cstr_cons in H1 as (Ha & Ca & H1), H2 as (Hb & Cb & H2).
    apply wp_bind, (wp_load8 _ _ a); [done|]. apply wp_bind, (wp_load8 _ _ b); [done|]. cbn beta.
    destruct (strcasecmp_lower a (char_byte _ Ca)) as (Ba & Za & ->), (strcasecmp_lower b (char_byte _ Cb)) as (Bb & Zb & ->).
    destruct (Z.eqb_spec (to_lower a) (to_lower b)) as [E|E]; [|by wp_steps].
    destruct (Z.eqb_spec (to_lower a) 0); [unfold is_char in Ca; lia|]. cbn [negb andb]. apply wp_ret.
    apply IH; [done|done|lia].
Qed.

(** [rt_strncpy] writes [n] bytes: the string and zeros behind it, or the first
    [n] characters and no terminating zero. *)
Definition padded (l : list Z) (a : Z) : Z := default 0 (l !! Z.to_nat a).

Section strncpy.
Context (m0 : ram) (d s n : Z) (l : list Z).
Hypotheses (Hl : cstr m0 s l) (Hd : mapped m0 d n) (Hn : 0 <= n < 2 ^ 64)
  (Hapart : d + n <= s \/ s + Z.of_nat (length l) < d).

Definition wrote (k : Z) (m : ram) : Prop :=
  forall a, m a = if within d k a then Some (padded l (a - d)) else m0 a.

Lemma wrote_step k c m (Q : unit -> ram -> Prop) : 0 <= k < n -> wrote k m -> is_byte c -> c = padded l k ->
  (forall m', wrote (k + 1) m' -> Q tt m') -> wp (store8 (d + k) c) Q m.
Proof using Hd.
  clear Hl Hn Hapart. intros Hk H Hc -> HQ. apply wp_store8.
  - rewrite H. ram_cases; [by eexists|]. apply Hd. lia.
  - apply HQ. intros a. rewrite upd_within, H, u8_id by done. ram_cases; try lia; try done. do 2 f_equal. lia.
Qed.

Lemma wp_strncpy_pad f k m : Z.of_nat (length l) < k -> 0 < k <= n -> wrote k m ->
  (Z.to_nat (n - k) < f)%nat -> wp (loop f strncpy_pad (d + k, n - k + 1)) (fun _ m' => wrote n m') m.
Proof using Hd Hn.
  clear Hl Hapart. intros Hlen Hk H Hf.
  apply (wp_loop _ (fun x m => exists j, x = (d + j, n - j + 1) /\ k <= j <= n /\ wrote j m)
    (fun x => Z.to_nat (x.2 - 1))); [|exists k; split_and!; [done|lia|lia|done]|cbn; lia].
  clear m H. intros x m (j & -> & Hj & H). cbn [strncpy_pad].
  assert (E : u64 (n - j + 1 - 1) = n - j) by (wraps; rewrite Z.mod_small; lia). rewrite E.
  destruct (Z.eqb_spec (n - j) 0) as [Ej|Ej]; cbn [negb].
  - wp_steps. by replace n with j by lia.
  - apply wp_bind, (wrote_step j); [lia|done|unfold is_byte; lia| |].
    + unfold padded. rewrite lookup_ge_None_2 by lia. done.
    + intros m' H'. wp_steps. split; [|cbn; lia]. exists (j + 1).
      split_and!; [f_equal; lia|lia|lia|done].
Qed.

Lemma char_at k : (k <= length l)%nat -> exists c, m0 (s + Z.of_nat k) = Some c /\
  c = padded l (Z.of_nat k) /\ is_byte c /\ (c = 0 <-> k = length l).
Proof using Hl.
  clear Hd Hn Hapart. destruct Hl as [H Hc]. clear Hl. revert H. generalize s as q. intros q H Hk.
  unfold padded. rewrite Nat2Z.id. revert q k H Hk.
  induction l as [|b l' IH]; intros q k H Hk; cbn [length] in Hk.
  - destruct H as [H _]. replace k with 0%nat by lia. exists 0. rewrite Z.add_0_r.
    split_and!; [done|done|unfold is_byte; lia|done].
  - destruct H as [Hb H]. apply Forall_cons in Hc as [Cb Hc]. unfold is_char in Cb. destruct k as [|k].
    + exists b. rewrite Z.add_0_r. split_and!; [done|done|unfold is_byte; lia|cbn; lia].
    + destruct (IH Hc (q + 1) k H) as (c & E & Ep & Bc & Ez); [lia|]. exists c.
      replace (q + Z.of_nat (S k)) with (q + 1 + Z.of_nat k) by lia.
      split_and!; [done|done|done|cbn [length]; rewrite Ez; lia].
Qed.

Lemma rt_strncpy_loop f fuel k m : (Z.to_nat n < fuel)%nat -> (k <= length l)%nat -> Z.of_nat k < n ->
  (length l - k < f)%nat -> wrote (Z.of_nat k) m ->
  wp (loop f (strncpy_bytes fuel) (d + Z.of_nat k, s + Z.of_nat k, n - Z.of_nat k)) (fun _ m' => wrote n m') m.
Proof using Hl Hd Hn Hapart.
  intros Hfuel Hk Hkn Hf H. revert k m Hk Hkn Hf H.
  induction f as [|f IH]; intros k m Hk Hkn Hf H; [lia|]. apply wp_loop_S. cbn [strncpy_bytes].
  destruct (char_at k Hk) as (c & Ec & Ep & Bc & Ez).
  apply wp_bind, (wp_load8 _ _ c). { rewrite H. ram_cases; [lia|done]. }
  apply wp_bind, (wrote_step (Z.of_nat k)); [lia|done|done|done|]. intros m1 H1.
  destruct (Z.eqb_spec c 0) as [E0|E0].
  - apply wp_bind. rewrite <-Z.add_assoc. replace (n - Z.of_nat k) with (n - (Z.of_nat k + 1) + 1) by lia.
    eapply wp_mono; [apply wp_strncpy_pad; [|lia|done|lia]|]; [apply Ez in E0; lia|].
    intros [] m2 H2. by wp_steps.
  - assert (E : u64 (n - Z.of_nat k - 1) = n - (Z.of_nat k + 1)) by (wraps; rewrite Z.mod_small; lia). rewrite E.
    destruct (Z.eqb_spec (n - (Z.of_nat k + 1)) 0) as [En|En]; cbn [negb]; wp_steps.
    + by replace n with (Z.of_nat k + 1) by lia.
    + rewrite <-!Z.add_assoc. replace (Z.of_nat k + 1) with (Z.of_nat (S k)) in * by lia.
      apply IH; [|lia|lia|done]. destruct (decide (k = length l)) as [->|]; [|lia]. exfalso. by apply E0, Ez.
Qed.

Lemma rt_strncpy_spec fuel : (Z.to_nat n < fuel)%nat -> (length l < fuel)%nat ->
  wp (rt_strncpy fuel d s n) (fun r m' => r = d /\ wrote n m') m0.
Proof using Hl Hd Hn Hapart.
  intros Hf Hf'. unfold rt_strncpy. apply wp_bind. destruct (Z.eqb_spec n 0) as [->|Hn0]; cbn [negb].
  - wp_steps. split; [done|]. intros a. ram_lia.
  - pose proof (rt_strncpy_loop fuel fuel 0 m0 Hf) as H. rewrite !Z.add_0_r, Z.sub_0_r in H.
    eapply wp_mono; [apply H; try lia; intros a; ram_lia|]. intros [] m' H'. by wp_steps.
Qed.
End strncpy.

(** * Properties *)

(** C25: the copies and the fill, by blocks of words and by bytes, upwards and
    downwards, have the effect of the plain assignment of bytes and change
    nothing else: [rt_memmove] for any two blocks, [rt_memcpy] when the
    destination does not start inside the source, [rt_memset] always.  The
    word accesses are aligned. *)
Theorem rt_memory_bytewise fuel d s c n m :
  0 <= n < 2 ^ 31 -> (Z.to_nat n < fuel)%nat ->
  bytes_ok m -> mapped m s n -> mapped m d n ->
  wp (rt_memmove fuel d s n) (fun r m' => r = d /\ forall a, m' a = copied d s n m a) m /\
  (d <= s \/ s + n <= d ->
    wp (rt_memcpy fuel d s n) (fun r m' => r = d /\ forall a, m' a = copied d s n m a) m) /\
  wp (rt_memset fuel d c n) (fun r m' => r = d /\ forall a, m' a = filled d n (u8 c) m a) m.
Proof.
  intros Hn Hf Hb Hs Hd. split_and!.
  - apply rt_memmove_spec; try done. lia.
  - intros Ha. by apply rt_memcpy_spec.
  - apply rt_memset_spec; try done. lia.
Qed.

(** [rt_strstr] returns the first place of [s1] where [s2] occurs, and
    [RT_NULL] when there is none; an empty [s2] is found at once. *)
Theorem rt_strstr_first m p q l1 l2 fuel : cstr m p l1 -> cstr m q l2 ->
  Z.of_nat (length l1) < 2 ^ 31 -> Z.of_nat (length l2) < 2 ^ 31 ->
  (length l1 < fuel)%nat -> (length l2 < fuel)%nat ->
  wp (rt_strstr fuel p q) (fun r m' => first_place p l1 l2 r /\ m' = m) m.
Proof. intros. by apply rt_strstr_spec. Qed.

(** [rt_strncmp] tells equal prefixes from different ones, but its sign is
    not that of [rt_strcmp]: when the first difference is at least 128 the
    string that is greater compares as less. *)
Theorem rt_strncmp_sign m p q l1 l2 n fuel : cstr m p l1 -> cstr m q l2 -> 0 <= n < 2 ^ 64 ->
  (length l1 + 1 < fuel)%nat -> Z.of_nat (length l1) <= n -> Z.of_nat (length l2) <= n ->
  wp (rt_strcmp fuel p q) (fun r _ => r = first_diff l1 l2) m /\
  wp (rt_strncmp fuel p q n) (fun r _ => (r = 0 <-> l1 = l2) /\
    (128 <= first_diff l1 l2 -> r < 0) /\ (first_diff l1 l2 < -128 -> 0 < r)) m.
Proof.
  intros H1 H2 Hn Hf L1 L2. split.
  - eapply wp_mono; [apply (rt_strcmp_spec m l1 l2); try done; lia|]. by intros r m' [-> _].
  - eapply wp_mono; [by apply (rt_strncmp_spec m l1 l2)|]. intros r m' [-> _].
    unfold upto. rewrite !take_ge by lia. pose proof (first_diff_same l1 l2 (proj2 H1) (proj2 H2)) as Hz.
    assert (Hr : -256 < first_diff l1 l2 < 256).
    { destruct H1 as [_ B1], H2 as [_ B2]. clear - B1 B2. revert l2 B2.
      induction B1 as [|a l1 Ha _ IH]; intros l2 B2; destruct B2 as [|b l2 Hb B2]; cbn [first_diff];
        unfold is_char in *; [lia..|]. case_match; [by apply IH|lia]. }
    rewrite <-Hz. unfold i8. change (2 ^ 7) with 128. change (2 ^ 8) with 256. split_and!; [split|..]; zmod.
Qed.

(** [rt_strnlen] looks at the byte behind the first [maxlen] ones: when they
    hold no zero, the result is [maxlen] if that byte can be read, and the call
    has no result if memory ends there. *)
Theorem rt_strnlen_overread m p l fuel : bytes_at m p l -> Forall is_char l ->
  Z.of_nat (length l) < 2 ^ 64 -> (length l < fuel)%nat ->
  match m (p + Z.of_nat (length l)) with
  | Some _ => wp (rt_strnlen fuel p (Z.of_nat (length l))) (fun r m' => r = Z.of_nat (length l) /\ m' = m) m
  | None => rt_strnlen fuel p (Z.of_nat (length l)) m = None
  end.
Proof.
  intros Hl Hc Hn Hf. destruct (m (p + Z.of_nat (length l))) as [b|] eqn:Hend.
  { apply (rt_strnlen_spec m p l b); try done; [|by right]. apply bytes_at_app. by split_and!. }
  clear Hf. unfold rt_strnlen.
  enough (H : forall k l' fuel, bytes_at m (p + Z.of_nat k) l' -> Forall is_char l' ->
    (k + length l')%nat = length l ->
    loop fuel (strnlen_bytes p (Z.of_nat (length l))) (p + Z.of_nat k) m = None).
  { specialize (H 0%nat l fuel). rewrite Z.add_0_r in H. by apply H. }
  clear Hl Hc fuel. intros k l' fuel. revert k l'. induction fuel as [|fuel IH]; intros k l' Hl Hc E; [done|].
  cbn [loop]. unfold mbind, M_bind at 1. destruct l' as [|b l']; cbn [length] in E.
  - unfold strnlen_bytes, load8, mbind, M_bind, get.
    replace (p + Z.of_nat k) with (p + Z.of_nat (length l)) by lia. by rewrite Hend.
  - destruct Hl as [Hb Hl]. apply Forall_cons in Hc as [Cb Hc]. unfold is_char in Cb.
    assert (Es : strnlen_bytes p (Z.of_nat (length l)) (p + Z.of_nat k) m = Some (inl (p + Z.of_nat (S k)), m)).
    { unfold strnlen_bytes, load8, mbind, M_bind, get. rewrite Hb. cbn [ofopt mret M_ret].
      assert (Eu : u64 (p + Z.of_nat k - p) = Z.of_nat k) by (wraps; rewrite Z.mod_small; lia). rewrite Eu.
      destruct (Z.eqb_spec b 0); [lia|]. destruct (Z.ltb_spec (Z.of_nat k) (Z.of_nat (length l))); [|lia].
      cbn [negb andb]. unfold mret, M_ret. do 3 f_equal. lia. }
    rewrite Es. apply (IH (S k) l'); [|done|lia]. by replace (p + Z.of_nat (S k)) with (p + Z.of_nat k + 1) by lia.
Qed.

(** * Examples *)
(** A memory with the bytes [l] from address 64 on. *)
Definition ex_ram (l : list Z) : ram := fun a => if 64 <=? a then l !! Z.to_nat (a - 64) else None.

Lemma ex_ram_mapped l p n : 64 <= p -> p + n <= 64 + Z.of_nat (length l) -> mapped (ex_ram l) p n.
Proof.
  intros Hp Hn a Ha. unfold ex_ram. destruct (Z.leb_spec 64 a); [|lia]. apply lookup_lt_is_Some. lia.
Qed.
Lemma ex_ram_bytes_ok l : Forall is_byte l -> bytes_ok (ex_ram l).
Proof.
  intros Hl a b. unfold ex_ram. case_match; [|done]. intros E.
  rewrite Forall_forall in Hl. by apply Hl, (list_elem_of_lookup_2 _ _ _ E).
Qed.

Definition ex_bytes : list Z := seqZ 1 100.
Lemma ex_bytes_ok : Forall is_byte ex_bytes.
Proof. apply Forall_forall. intros b Hb%elem_of_seqZ. unfold is_byte. lia. Qed.

Lemma rt_memory_bytewise_ex :
  (wp (rt_memmove 60 72 64 50) (fun r m' => r = 72 /\ forall a, m' a = copied 72 64 50 (ex_ram ex_bytes) a) (ex_ram ex_bytes) /\
   (72 <= 64 \/ 64 + 50 <= 72 ->
     wp (rt_memcpy 60 72 64 50) (fun r m' => r = 72 /\ forall a, m' a = copied 72 64 50 (ex_ram ex_bytes) a) (ex_ram ex_bytes)) /\
   wp (rt_memset 60 72 (-1) 50) (fun r m' => r = 72 /\ forall a, m' a = filled 72 50 (u8 (-1)) (ex_ram ex_bytes) a) (ex_ram ex_bytes)) /\
  wp (rt_memcpy 60 64 112 43) (fun _ m' => m' 64 = Some 49 /\ m' 106 = Some 91 /\ m' 107 = Some 44) (ex_ram ex_bytes).
Proof.
  split; [|vm_compute; done].
  apply (rt_memory_bytewise 60 72 64 (-1) 50 (ex_ram ex_bytes)); [lia|lia|apply ex_ram_bytes_ok, ex_bytes_ok|
    apply ex_ram_mapped; vm_compute; discriminate|apply ex_ram_mapped; vm_compute; discriminate].
Defined.

Ltac chars := repeat (apply Forall_cons; split; [unfold is_char; lia|]); apply Forall_nil_2.

(** "aab" and "ab" *)
Definition ex_strings : ram := ex_ram [97; 97; 98; 0; 97; 98; 0].
Lemma rt_strstr_first_ex :
  wp (rt_strstr 10 64 68) (fun r m' => first_place 64 [97; 97; 98] [97; 98] r /\ m' = ex_strings) ex_strings /\
  wp (rt_strstr 10 64 68) (fun r _ => r = Some 65) ex_strings.
Proof.
  split; [|vm_compute; done].
  apply (rt_strstr_first ex_strings 64 68 [97; 97; 98] [97; 98] 10); [| |vm_compute; done|vm_compute; done|cbn; lia|cbn; lia];
    (split; [vm_compute; by split_and!|chars]).
Defined.

(** The strings with the one character 200 and the one character 10. *)
Definition ex_high : ram := ex_ram [200; 0; 10; 0].
Lemma rt_strncmp_sign_ex :
  (wp (rt_strcmp 10 64 66) (fun r _ => r = first_diff [200] [10]) ex_high /\
   wp (rt_strncmp 10 64 66 5) (fun r _ => (r = 0 <-> [200] = [10]) /\
     (128 <= first_diff [200] [10] -> r < 0) /\ (first_diff [200] [10] < -128 -> 0 < r)) ex_high) /\
  wp (rt_strncmp 10 64 66 5) (fun r _ => r = -66) ex_high /\ 128 <= first_diff [200] [10].
Proof.
  split; [|split; [vm_compute; done|vm_compute; discriminate]].
  apply (rt_strncmp_sign ex_high 64 66 [200] [10] 5 10); [| |lia|cbn; lia|cbn; lia|cbn; lia];
    (split; [vm_compute; by split_and!|chars]).
Defined.

Lemma rt_strnlen_overread_ex :
  match ex_ram [97; 98; 99] (64 + Z.of_nat 3) with
  | Some _ => wp (rt_strnlen 10 64 (Z.of_nat 3)) (fun r m' => r = Z.of_nat 3 /\ m' = ex_ram [97; 98; 99]) (ex_ram [97; 98; 99])
  | None => rt_strnlen 10 64 (Z.of_nat 3) (ex_ram [97; 98; 99]) = None
  end /\ ex_ram [97; 98; 99] (64 + Z.of_nat 3) = None.
Proof.
  split; [|done].
  apply (rt_strnlen_overread (ex_ram [97; 98; 99]) 64 [97; 98; 99] 10); [vm_compute; by split_and!|chars|vm_compute; done|cbn; lia].
Defined.
