(* ===== verification/Slab.v ===== *)
(** The heap ([rt-thread/src/slab.c]): large allocations take whole pages, small
    ones chunks of a zone of pages that is cut into chunks of one size; with
    the aligned allocations and [rt_strdup] of [kservice.c].

    Pointers are byte addresses.  The page allocator is that of [Page.v]; the
    headers of the zones and the links of the free chunks are functions of their
    addresses and the table of page uses of the page ([memusage_ptr] says where
    it lies), apart from the data of the
    allocations, which is bytes ([ram] of [KMem.v]); [SlabProps.v] shows that
    the regions they stand for never overlap.  Debug output and the hooks are
    left out. *)
From S2P Require Import Prelude Page KMem.

Definition RT_MM_PAGE_SIZE : Z := 4096.
Definition RT_MM_PAGE_MASK : Z := RT_MM_PAGE_SIZE - 1.
Definition RT_MM_PAGE_BITS : Z := 12.
(** [(size + align - 1) & ~(align - 1)] on [rt_size_t] *)
Definition RT_ALIGN (size align : Z) : Z := u64 (RT_ALIGN_DOWN (u64 (size + align - 1)) align).

Definition ZALLOC_SLAB_MAGIC : Z := 0x51ab51ab.
Definition ZALLOC_ZONE_LIMIT : Z := 16 * 1024.
Definition ZALLOC_MIN_ZONE_SIZE : Z := 32 * 1024.
Definition ZALLOC_MAX_ZONE_SIZE : Z := 128 * 1024.
Definition NZONES : Z := 72.
Definition ZONE_RELEASE_THRESH : Z := 2.
Definition MIN_CHUNK_MASK : Z := 8 - 1.
Definition PAGE_TYPE_FREE : Z := 0.
Definition PAGE_TYPE_SMALL : Z := 1.
Definition PAGE_TYPE_LARGE : Z := 2.

Record slab_zone := mkZone {
  z_magic : Z;
  z_nfree : Z;
  z_nmax : Z;
  z_next : option Z;
  z_baseptr : Z;
  z_uindex : Z;
  z_chunksize : Z;
  z_zoneindex : Z;
  z_freechunk : option Z }.
(** [sizeof(slab_zone)] *)
Definition sizeof_slab_zone : Z := 56.

(** The bit fields of a [struct memusage] have 2 and 30 bits; in an expression they
    are an [int]. *)
Record memusage_entry := mkUsage { mu_type : Z; mu_size : Z }.
Definition kup_set (t n : Z) : memusage_entry := mkUsage (t mod 2 ^ 2) (n mod 2 ^ 30).

Record slab := mkSlab {
  pages : heap;
  data : ram;
  zones : Z -> slab_zone;
  c_next : Z -> option Z;
  zone_array : Z -> option Z;
  zone_free : option Z;
  zone_free_cnt : Z;
  zone_size : Z;
  zone_limit : Z;
  zone_page_cnt : Z;
  memusage_ptr : option Z;
  memusage : Z -> memusage_entry;
  heap_start : Z;
  heap_end : Z;
  used_mem : Z;
  max_mem : Z }.

(** * Assignments *)
Definition set_pages v s := mkSlab v (data s) (zones s) (c_next s) (zone_array s) (zone_free s) (zone_free_cnt s)
  (zone_size s) (zone_limit s) (zone_page_cnt s) (memusage_ptr s) (memusage s) (heap_start s) (heap_end s) (used_mem s) (max_mem s).
Definition set_data v s := mkSlab (pages s) v (zones s) (c_next s) (zone_array s) (zone_free s) (zone_free_cnt s)
  (zone_size s) (zone_limit s) (zone_page_cnt s) (memusage_ptr s) (memusage s) (heap_start s) (heap_end s) (used_mem s) (max_mem s).
Definition set_zones v s := mkSlab (pages s) (data s) v (c_next s) (zone_array s) (zone_free s) (zone_free_cnt s)
  (zone_size s) (zone_limit s) (zone_page_cnt s) (memusage_ptr s) (memusage s) (heap_start s) (heap_end s) (used_mem s) (max_mem s).
Definition set_c_next p v s := mkSlab (pages s) (data s) (zones s) (upd (c_next s) p v) (zone_array s) (zone_free s) (zone_free_cnt s)
  (zone_size s) (zone_limit s) (zone_page_cnt s) (memusage_ptr s) (memusage s) (heap_start s) (heap_end s) (used_mem s) (max_mem s).
Definition set_zone_array i v s := mkSlab (pages s) (data s) (zones s) (c_next s) (upd (zone_array s) i v) (zone_free s) (zone_free_cnt s)
  (zone_size s) (zone_limit s) (zone_page_cnt s) (memusage_ptr s) (memusage s) (heap_start s) (heap_end s) (used_mem s) (max_mem s).
Definition set_zone_free v n s := mkSlab (pages s) (data s) (zones s) (c_next s) (zone_array s) v (i32 n)
  (zone_size s) (zone_limit s) (zone_page_cnt s) (memusage_ptr s) (memusage s) (heap_start s) (heap_end s) (used_mem s) (max_mem s).
Definition set_sizes size limit cnt s := mkSlab (pages s) (data s) (zones s) (c_next s) (zone_array s) (zone_free s) (zone_free_cnt s)
  size limit cnt (memusage_ptr s) (memusage s) (heap_start s) (heap_end s) (used_mem s) (max_mem s).
Definition set_memusage i v s := mkSlab (pages s) (data s) (zones s) (c_next s) (zone_array s) (zone_free s) (zone_free_cnt s)
  (zone_size s) (zone_limit s) (zone_page_cnt s) (memusage_ptr s) (upd (memusage s) i v) (heap_start s) (heap_end s) (used_mem s) (max_mem s).
Definition set_memusage_ptr v s := mkSlab (pages s) (data s) (zones s) (c_next s) (zone_array s) (zone_free s) (zone_free_cnt s)
  (zone_size s) (zone_limit s) (zone_page_cnt s) v (memusage s) (heap_start s) (heap_end s) (used_mem s) (max_mem s).
Definition set_bounds lo hi s := mkSlab (pages s) (data s) (zones s) (c_next s) (zone_array s) (zone_free s) (zone_free_cnt s)
  (zone_size s) (zone_limit s) (zone_page_cnt s) (memusage_ptr s) (memusage s) lo hi (used_mem s) (max_mem s).
Definition set_used used max s := mkSlab (pages s) (data s) (zones s) (c_next s) (zone_array s) (zone_free s) (zone_free_cnt s)
  (zone_size s) (zone_limit s) (zone_page_cnt s) (memusage_ptr s) (memusage s) (heap_start s) (heap_end s) used max.

(** The fields of a zone header. *)
Definition zone_upd (z : Z) (f : slab_zone -> slab_zone) (s : slab) : slab :=
  set_zones (upd (zones s) z (f (zones s z))) s.
Definition set_z_magic v z := mkZone (i32 v) (z_nfree z) (z_nmax z) (z_next z) (z_baseptr z) (z_uindex z) (z_chunksize z) (z_zoneindex z) (z_freechunk z).
Definition set_z_nfree v z := mkZone (z_magic z) (i32 v) (z_nmax z) (z_next z) (z_baseptr z) (z_uindex z) (z_chunksize z) (z_zoneindex z) (z_freechunk z).
Definition set_z_nmax v z := mkZone (z_magic z) (z_nfree z) (i32 v) (z_next z) (z_baseptr z) (z_uindex z) (z_chunksize z) (z_zoneindex z) (z_freechunk z).
Definition set_z_next v z := mkZone (z_magic z) (z_nfree z) (z_nmax z) v (z_baseptr z) (z_uindex z) (z_chunksize z) (z_zoneindex z) (z_freechunk z).
Definition set_z_baseptr v z := mkZone (z_magic z) (z_nfree z) (z_nmax z) (z_next z) v (z_uindex z) (z_chunksize z) (z_zoneindex z) (z_freechunk z).
Definition set_z_uindex v z := mkZone (z_magic z) (z_nfree z) (z_nmax z) (z_next z) (z_baseptr z) (i32 v) (z_chunksize z) (z_zoneindex z) (z_freechunk z).
Definition set_z_chunksize v z := mkZone (z_magic z) (z_nfree z) (z_nmax z) (z_next z) (z_baseptr z) (z_uindex z) (i32 v) (z_zoneindex z) (z_freechunk z).
Definition set_z_zoneindex v z := mkZone (z_magic z) (z_nfree z) (z_nmax z) (z_next z) (z_baseptr z) (z_uindex z) (z_chunksize z) (i32 v) (z_freechunk z).
Definition set_z_freechunk v z := mkZone (z_magic z) (z_nfree z) (z_nmax z) (z_next z) (z_baseptr z) (z_uindex z) (z_chunksize z) (z_zoneindex z) v.
Definition zero_zone : slab_zone := mkZone 0 0 0 None 0 0 0 0 None.

(** * Calls of the page allocator and of the memory functions *)
Definition on_pages {A} (m : M heap A) : M slab A := fun s =>
  match m (pages s) with Some (a, h) => Some (a, set_pages h s) | None => None end.
Definition on_data {A} (m : M ram A) : M slab A := fun s =>
  match m (data s) with Some (a, d) => Some (a, set_data d s) | None => None end.
Definition heap_lock : M slab unit := on_pages heap_take.
Definition heap_unlock : M slab unit := on_pages heap_release.

(** [rt_page_alloc] and [rt_page_free] with addresses. *)
Definition page_alloc (fuel : nat) (npages : Z) : M slab (option Z) :=
  b ← on_pages (rt_page_alloc fuel npages);
  mret (option_map (fun b => b * RT_MM_PAGE_SIZE) b).
Definition page_free (fuel : nat) (addr npages : Z) : M slab unit :=
  assertM (negb (addr =? 0));;
  assertM (addr mod RT_MM_PAGE_SIZE =? 0);;
  on_pages (rt_page_free fuel (addr / RT_MM_PAGE_SIZE) npages).

(** The index of [btokup(addr)]. *)
Definition btokup (s : slab) (addr : Z) : Z := Z.shiftr (u64 (addr - heap_start s)) RT_MM_PAGE_BITS.

(** [used_mem += size; if (used_mem > max_mem) max_mem = used_mem] *)
Definition mem_used (size : Z) (s : slab) : slab :=
  let used := u64 (used_mem s + size) in
  set_used used (if max_mem s <? used then used else max_mem s) s.
Definition mem_unused (size : Z) (s : slab) : slab :=
  set_used (u64 (used_mem s - size)) (max_mem s) s.

(** * Set-up *)
(** [while (zone_size < ZALLOC_MAX_ZONE_SIZE && (zone_size << 1) < (limsize / 1024))];
    the size doubles at most twice. *)
Fixpoint zone_size_loop (fuel : nat) (size limsize : Z) : Z :=
  if (size <? ZALLOC_MAX_ZONE_SIZE) && (Z.shiftl size 1 <? limsize / 1024) then
    match fuel with O => size | S fuel => zone_size_loop fuel (Z.shiftl size 1) limsize end
  else size.

(** The kernel is not in an interrupt. *)
Definition rt_system_heap_init (fuel : nat) (begin_addr end_addr : Z) : M slab unit :=
  let lo := RT_ALIGN begin_addr RT_MM_PAGE_SIZE in
  let hi := RT_ALIGN_DOWN end_addr RT_MM_PAGE_SIZE in
  modify (set_bounds lo hi);;
  if hi <=? lo then mret tt
  else
    let limsize := u32 (hi - lo) in
    let npages := u32 (limsize / RT_MM_PAGE_SIZE) in
    on_pages (modify (fun h => mkHeap (page_heads h) (rt_page_list h) 1));;
    on_pages (rt_page_init (lo / RT_MM_PAGE_SIZE) npages);;
    let size := zone_size_loop 2 ZALLOC_MIN_ZONE_SIZE limsize in
    let limit := size / 4 in
    let limit := if ZALLOC_ZONE_LIMIT <? limit then ZALLOC_ZONE_LIMIT else limit in
    modify (set_sizes size limit (size / RT_MM_PAGE_SIZE));;
    let limsize := u32 (npages * 4) in
    let limsize := u32 (RT_ALIGN limsize RT_MM_PAGE_SIZE) in
    ptr ← page_alloc fuel (limsize / RT_MM_PAGE_SIZE);
    modify (set_memusage_ptr ptr).

(** The zone index and the chunk size; the index is an [int]. *)
Definition zoneindex (bytes : Z) : Z * Z :=
  let n := bytes in
  if n <? 128 then
    let n := Z.land (u64 (n + 7)) (u64 (Z.lnot 7)) in (i32 (u64 (n / 8 - 1)), n)
  else if n <? 256 then
    let n := Z.land (u64 (n + 15)) (u64 (Z.lnot 15)) in (i32 (n / 16 + 7), n)
  else if n <? 8192 then
    if n <? 512 then
      let n := Z.land (u64 (n + 31)) (u64 (Z.lnot 31)) in (i32 (n / 32 + 15), n)
    else if n <? 1024 then
      let n := Z.land (u64 (n + 63)) (u64 (Z.lnot 63)) in (i32 (n / 64 + 23), n)
    else if n <? 2048 then
      let n := Z.land (u64 (n + 127)) (u64 (Z.lnot 127)) in (i32 (n / 128 + 31), n)
    else if n <? 4096 then
      let n := Z.land (u64 (n + 255)) (u64 (Z.lnot 255)) in (i32 (n / 256 + 39), n)
    else
      let n := Z.land (u64 (n + 511)) (u64 (Z.lnot 511)) in (i32 (n / 512 + 47), n)
  else if n <? 16384 then
    let n := Z.land (u64 (n + 1023)) (u64 (Z.lnot 1023)) in (i32 (n / 1024 + 55), n)
  else (0, n).

(** * Allocation *)
Definition malloc_large (fuel : nat) (size : Z) : M slab (option Z) :=
  let size := RT_ALIGN size RT_MM_PAGE_SIZE in
  chunk ← page_alloc fuel (Z.shiftr size RT_MM_PAGE_BITS);
  match chunk with
  | None => mret None
  | Some chunk =>
      s ← get;
      modify (set_memusage (btokup s chunk) (kup_set PAGE_TYPE_LARGE (Z.shiftr size RT_MM_PAGE_BITS)));;
      heap_lock;;
      modify (mem_used size);;
      heap_unlock;;
      mret (Some chunk)
  end.

(** A chunk of the first zone of the array that has one. *)
Definition malloc_zone (z zi size : Z) : M slab (option Z) :=
  s ← get;
  assertM (0 <? z_nfree (zones s z));;
  modify (zone_upd z (fun h => set_z_nfree (z_nfree h - 1) h));;
  s ← get;
  (if z_nfree (zones s z) =? 0 then
     modify (set_zone_array zi (z_next (zones s z)));;
     modify (zone_upd z (set_z_next None))
   else mret tt);;
  s ← get;
  chunk ← (if negb (i32 (z_uindex (zones s z) + 1) =? z_nmax (zones s z)) then
             modify (zone_upd z (fun h => set_z_uindex (z_uindex h + 1) h));;
             s ← get;
             mret (Some (u64 (z_baseptr (zones s z) + u64 (z_uindex (zones s z) * size))))
           else
             match z_freechunk (zones s z) with
             | None => fail
             | Some chunk =>
                 modify (zone_upd z (set_z_freechunk (c_next s chunk)));;
                 mret (Some chunk)
             end);
  s ← get;
  modify (mem_used (z_chunksize (zones s z)));;
  heap_unlock;;
  mret chunk.

(** [off] is a [rt_int32_t]. *)
Definition chunk_off (size : Z) : Z :=
  if u64 (Z.lor size (u64 (size - 1)) + 1) =? u64 (Z.shiftl size 1) then
    i32 (Z.land (u64 (u64 (sizeof_slab_zone + size) - 1)) (u64 (Z.lnot (u64 (size - 1)))))
  else i32 (Z.land (sizeof_slab_zone + MIN_CHUNK_MASK) (Z.lnot MIN_CHUNK_MASK)).

(** The header of a zone for chunks of [size] bytes; [rt_memset] clears it as a
    whole. *)
Definition zone_setup (z zi size : Z) : M slab (option Z) :=
  modify (zone_upd z (fun _ => zero_zone));;
  let off := chunk_off size in
  s ← get;
  modify (zone_upd z (set_z_magic ZALLOC_SLAB_MAGIC));;
  modify (zone_upd z (set_z_zoneindex zi));;
  modify (zone_upd z (set_z_nmax (u64 (zone_size s - off) / size)));;
  modify (zone_upd z (fun h => set_z_nfree (z_nmax h - 1) h));;
  modify (zone_upd z (set_z_baseptr (u64 (z + off))));;
  modify (zone_upd z (set_z_uindex 0));;
  modify (zone_upd z (set_z_chunksize size));;
  s ← get;
  let chunk := u64 (z_baseptr (zones s z) + u64 (z_uindex (zones s z) * size)) in
  modify (zone_upd z (set_z_next (zone_array s zi)));;
  modify (set_zone_array zi (Some z));;
  s ← get;
  modify (mem_used (z_chunksize (zones s z)));;
  heap_unlock;;
  mret (Some chunk).

(** [for (off = 0, kup = btokup(z); off < zone_page_cnt; off ++)] *)
Fixpoint zone_usage (off kup : Z) (n : nat) : M slab unit :=
  match n with
  | O => mret tt
  | S n => modify (set_memusage kup (kup_set PAGE_TYPE_SMALL off));; zone_usage (off + 1) (kup + 1) n
  end.

Definition malloc_new_zone (fuel : nat) (zi size : Z) : M slab (option Z) :=
  s ← get;
  match zone_free s with
  | Some z =>
      modify (set_zone_free (z_next (zones s z)) (zone_free_cnt s - 1));;
      zone_setup z zi size
  | None =>
      heap_unlock;;
      z ← page_alloc fuel (zone_size s / RT_MM_PAGE_SIZE);
      match z with
      | None => mret None
      | Some z =>
          heap_lock;;
          s ← get;
          zone_usage 0 (btokup s z) (Z.to_nat (zone_page_cnt s));;
          zone_setup z zi size
      end
  end.

Definition rt_malloc (fuel : nat) (size : Z) : M slab (option Z) :=
  if size =? 0 then mret None
  else
    s ← get;
    if u64 (zone_limit s) <=? size then malloc_large fuel size
    else
      heap_lock;;
      let (zi, size) := zoneindex size in
      assertM (zi <? NZONES);;
      s ← get;
      match zone_array s zi with
      | Some z => malloc_zone z zi size
      | None => malloc_new_zone fuel zi size
      end.

(** * Release *)
Definition page_of (ptr : Z) : Z := Z.land ptr (u64 (Z.lnot RT_MM_PAGE_MASK)).

Definition free_large (fuel : nat) (ptr kup : Z) : M slab unit :=
  heap_lock;;
  s ← get;
  let size := mu_size (memusage s kup) in
  modify (set_memusage kup (mkUsage (mu_type (memusage s kup)) 0));;
  modify (mem_unused (size * RT_MM_PAGE_SIZE));;
  heap_unlock;;
  page_free fuel ptr size.

(** A [slab_zone **]: an element of [zone_array], or the link of a zone. *)
Inductive zlink := ZoneArray (i : Z) | ZNext (z : Z).
Definition zload (l : zlink) (s : slab) : option Z :=
  match l with ZoneArray i => zone_array s i | ZNext z => z_next (zones s z) end.
Definition zstore (l : zlink) (v : option Z) (s : slab) : slab :=
  match l with ZoneArray i => set_zone_array i v s | ZNext z => zone_upd z (set_z_next v) s end.

(** [for (pz = &zone_array[z->z_zoneindex]; z != *pz; pz = &( *pz)->z_next) ;]
    followed by the removal. *)
Fixpoint zone_unlink (fuel : nat) (pz : zlink) (z : Z) : M slab unit :=
  s ← get;
  match zload pz s with
  | None => fail
  | Some z' =>
      if z' =? z then modify (zstore pz (z_next (zones s z)))
      else match fuel with O => fail | S fuel => zone_unlink fuel (ZNext z') z end
  end.

Fixpoint zone_unusage (kup : Z) (n : nat) : M slab unit :=
  match n with
  | O => mret tt
  | S n => modify (set_memusage kup (kup_set PAGE_TYPE_FREE 0));; zone_unusage (kup + 1) n
  end.

(** [z = zone_free; ...; rt_page_free(z, zone_size / RT_MM_PAGE_SIZE)] *)
Definition zone_release (fuel : nat) : M slab unit :=
  s ← get;
  z ← ofopt (zone_free s);
  modify (set_zone_free (z_next (zones s z)) (zone_free_cnt s - 1));;
  zone_unusage (btokup s z) (Z.to_nat (zone_page_cnt s));;
  heap_unlock;;
  page_free fuel z (zone_size s / RT_MM_PAGE_SIZE).

(** The zone [z] is whole again and there are others of its size. *)
Definition zone_retire (fuel : nat) (z : Z) : M slab unit :=
  s ← get;
  zone_unlink fuel (ZoneArray (z_zoneindex (zones s z))) z;;
  modify (zone_upd z (set_z_magic (-1)));;
  s ← get;
  modify (zone_upd z (set_z_next (zone_free s)));;
  modify (set_zone_free (Some z) (zone_free_cnt s + 1));;
  s ← get;
  if ZONE_RELEASE_THRESH <? zone_free_cnt s then zone_release fuel else heap_unlock.

Definition free_small (fuel : nat) (ptr kup : Z) : M slab unit :=
  heap_lock;;
  s ← get;
  let z := u64 (page_of ptr - i32 (mu_size (memusage s kup) * RT_MM_PAGE_SIZE)) in
  assertM (z_magic (zones s z) =? ZALLOC_SLAB_MAGIC);;
  modify (set_c_next ptr (z_freechunk (zones s z)));;
  modify (zone_upd z (set_z_freechunk (Some ptr)));;
  modify (mem_unused (z_chunksize (zones s z)));;
  modify (zone_upd z (fun h => set_z_nfree (z_nfree h + 1) h));;
  (if z_nfree (zones s z) =? 0 then
     modify (zone_upd z (set_z_next (zone_array s (z_zoneindex (zones s z)))));;
     modify (set_zone_array (z_zoneindex (zones s z)) (Some z))
   else mret tt);;
  s ← get;
  let h := zones s z in
  if (z_nfree h =? z_nmax h) &&
     (bool_decide (z_next h <> None) || bool_decide (zone_array s (z_zoneindex h) <> Some z))
  then zone_retire fuel z
  else heap_unlock.

Definition rt_free (fuel : nat) (ptr : option Z) : M slab unit :=
  match ptr with
  | None => mret tt
  | Some ptr =>
      s ← get;
      let kup := btokup s (page_of ptr) in
      if mu_type (memusage s kup) =? PAGE_TYPE_LARGE then free_large fuel ptr kup
      else free_small fuel ptr kup
  end.

(** * Changing the size, zeroed and aligned allocations, statistics *)
(** The new block, filled with the first [n] bytes of [ptr], which is freed. *)
Definition realloc_copy (fuel : nat) (ptr size : Z) (n : slab -> Z) : M slab (option Z) :=
  nptr ← rt_malloc fuel size;
  match nptr with
  | None => mret None
  | Some nptr =>
      s ← get;
      on_data (rt_memcpy (S (Z.to_nat (n s))) nptr ptr (n s));;
      rt_free fuel (Some ptr);;
      mret (Some nptr)
  end.

Definition rt_realloc (fuel : nat) (ptr : option Z) (size : Z) : M slab (option Z) :=
  match ptr with
  | None => rt_malloc fuel size
  | Some ptr =>
      if size =? 0 then rt_free fuel (Some ptr);; mret None
      else
        s ← get;
        let kup := btokup s (page_of ptr) in
        let t := mu_type (memusage s kup) in
        if t =? PAGE_TYPE_LARGE then
          let osize := u64 (i32 (Z.shiftl (mu_size (memusage s kup)) RT_MM_PAGE_BITS)) in
          realloc_copy fuel ptr size (fun _ => if osize <? size then osize else size)
        else if t =? PAGE_TYPE_SMALL then
          let z := u64 (page_of ptr - i32 (mu_size (memusage s kup) * RT_MM_PAGE_SIZE)) in
          assertM (z_magic (zones s z) =? ZALLOC_SLAB_MAGIC);;
          let size := (zoneindex size).2 in
          if z_chunksize (zones s z) =? size then mret (Some ptr)
          else realloc_copy fuel ptr size
                 (fun s => if z_chunksize (zones s z) <? size then z_chunksize (zones s z) else size)
        else mret None
  end.

Definition rt_calloc (fuel : nat) (count size : Z) : M slab (option Z) :=
  p ← rt_malloc fuel (u64 (count * size));
  match p with
  | None => mret None
  | Some p =>
      on_data (rt_memset (S (Z.to_nat (u64 (count * size)))) p 0 (u64 (count * size)));;
      mret (Some p)
  end.

(** [rt_strdup] of [kservice.c] *)
Definition rt_strdup (fuel : nat) (s : Z) : M slab (option Z) :=
  len ← on_data (rt_strlen fuel s);
  let len := u64 (len + 1) in
  tmp ← rt_malloc fuel len;
  match tmp with
  | None => mret None
  | Some tmp => on_data (rt_memcpy (S (Z.to_nat len)) tmp s len);; mret (Some tmp)
  end.

(** [rt_malloc_align] and [rt_free_align] of [kservice.c]; the pointer in front
    of the block is data. *)
Definition rt_malloc_align (fuel : nat) (size align : Z) : M slab (option Z) :=
  let uintptr_size := 8 - 1 in
  let align := Z.land (u64 (align + uintptr_size)) (u64 (Z.lnot uintptr_size)) in
  let align_size := u64 (Z.land (u64 (size + uintptr_size)) (u64 (Z.lnot uintptr_size)) + align) in
  ptr ← rt_malloc fuel align_size;
  match ptr with
  | None => mret None
  | Some ptr =>
      let align_ptr :=
        if Z.land ptr (u64 (align - 1)) =? 0 then u64 (ptr + align)
        else Z.land (u64 (ptr + u64 (align - 1))) (u64 (Z.lnot (align - 1))) in
      on_data (store_long (u64 (align_ptr - 8)) ptr);;
      mret (Some align_ptr)
  end.
Definition rt_free_align (fuel : nat) (ptr : Z) : M slab unit :=
  real_ptr ← on_data (load_long (u64 (ptr - 8)));
  rt_free fuel (if real_ptr =? 0 then None else Some real_ptr).

(** The total, used and maximally used memory, as [rt_uint32_t]. *)
Definition rt_memory_info : M slab (Z * Z * Z) :=
  s ← get;
  mret (u32 (heap_end s - heap_start s), u32 (used_mem s), u32 (max_mem s)).
