(* ===== verification/SlabInv.v ===== *)
(** The invariant of the heap of [Slab.v]: which part of the memory belongs to
    what, and what the bookkeeping of the allocator says about it. *)
From S2P Require Import Prelude Page PageProps KMem KMemProps Slab.

(** * Sizes of chunks and zones *)
(** The chunk sizes of the zone indices, as the comment of the source lists them. *)
Definition chunk_size (zi : Z) : Z :=
  if zi <? 16 then 8 * (zi + 1)
  else if zi <? 24 then 16 * (zi - 7)
  else if zi <? 32 then 32 * (zi - 15)
  else if zi <? 40 then 64 * (zi - 23)
  else if zi <? 48 then 128 * (zi - 31)
  else if zi <? 56 then 256 * (zi - 39)
  else if zi <? 64 then 512 * (zi - 47)
  else 1024 * (zi - 55).

Definition is_pow2 (n : Z) : bool := Z.land n (n - 1) =? 0.

(** The request is covered, by a chunk of at most 8192 bytes below 8192; at most
    an eighth is lost from 128 bytes on, and less than 8 bytes below; a power of
    two gets a chunk of its size. *)
Definition zoneindex_ok (n : Z) : bool :=
  let (zi, size) := zoneindex n in
  (0 <=? zi) && (zi <? NZONES) && (size =? chunk_size zi) && (n <=? size) &&
  (size <=? (if n <? 8192 then 8192 else 16384)) &&
  (if n <? 128 then size <? n + 8 else 8 * (size - n) <? n) &&
  implb (is_pow2 n && (8 <=? n)) (size =? n).

Lemma land_align x k : 0 <= k <= 64 -> 0 <= x < 2 ^ 64 ->
  Z.land x (u64 (Z.lnot (2 ^ k - 1))) = 2 ^ k * (x / 2 ^ k).
Proof.
  intros Hk Hx. unfold u64. rewrite <-Z.land_ones by lia.
  rewrite (Z.land_comm (Z.lnot _)), Z.land_assoc, Z.land_ones by lia. rewrite Z.mod_small by lia.
  replace (2 ^ k - 1) with (Z.ones k) by (rewrite Z.ones_equiv; lia).
  rewrite <-Z.ldiff_land, Z.ldiff_ones_r by lia.
  rewrite Z.shiftl_mul_pow2, Z.shiftr_div_pow2 by lia. lia.
Qed.

Lemma is_pow2_spec n : 0 < n -> is_pow2 n = true -> n = 2 ^ Z.log2 n.
Proof.
  intros Hn H%Z.eqb_eq. destruct (Z.log2_spec n Hn) as [H1 H2].
  destruct (decide (n = 2 ^ Z.log2 n)) as [|Hne]; [done|exfalso].
  assert (E : Z.log2 (n - 1) = Z.log2 n) by (apply Z.log2_unique; [apply Z.log2_nonneg|lia]).
  assert (Hp : 0 < 2 ^ Z.log2 n) by (apply Z.pow_pos_nonneg; [lia|apply Z.log2_nonneg]).
  assert (Hb : Z.testbit (Z.land n (n - 1)) (Z.log2 n) = true).
  { rewrite Z.land_spec, Z.bit_log2 by done. rewrite <-E, Z.bit_log2 by lia. done. }
  by rewrite H, Z.bits_0 in Hb.
Qed.

(** The powers of two among the requests. *)
Lemma is_pow2_cases n : 8 <= n < 16384 -> is_pow2 n = true ->
  n ∈ [8; 16; 32; 64; 128; 256; 512; 1024; 2048; 4096; 8192].
Proof.
  intros Hn H. apply is_pow2_spec in H; [|lia]. rewrite H.
  assert (Hk : 3 <= Z.log2 n <= 13).
  { split; [change 3 with (Z.log2 8)|change 13 with (Z.log2 16383)]; apply Z.log2_le_mono; lia. }
  assert (Hc : Z.log2 n ∈ [3; 4; 5; 6; 7; 8; 9; 10; 11; 12; 13]) by (rewrite !elem_of_cons; lia).
  clear -Hc. generalize dependent (Z.log2 n). intros k Hc. clear n.
  repeat (apply elem_of_cons in Hc as [->|Hc]; [cbn; by repeat (first [by left|right])|]).
  by apply not_elem_of_nil in Hc.
Qed.

(** A request rounded up to a multiple of [g]: how many, and the index. *)
Lemma round_up n k g : g = 2 ^ k -> 0 <= k <= 10 -> 0 < n < 16384 -> exists q,
  Z.land (u64 (n + (g - 1))) (u64 (Z.lnot (g - 1))) = g * q /\ n <= g * q < n + g /\
  forall d, 0 <= q + d < 1000 -> u64 (g * q / g + d) = q + d /\ i32 (g * q / g + d) = q + d /\ i32 (q + d) = q + d.
Proof.
  intros -> Hk Hn. assert (Hp : 0 < 2 ^ k) by (apply Z.pow_pos_nonneg; lia).
  assert (2 ^ k <= 2 ^ 10) by (apply Z.pow_le_mono_r; lia).
  exists ((n + (2 ^ k - 1)) / 2 ^ k). rewrite (u64_id (n + (2 ^ k - 1))) by lia. rewrite land_align by lia.
  pose proof (Z.mul_div_le (n + (2 ^ k - 1)) (2 ^ k) Hp). pose proof (Z.mul_succ_div_gt (n + (2 ^ k - 1)) (2 ^ k) Hp).
  split_and!; [done|lia|lia|]. intros d Hd. rewrite (Z.mul_comm (2 ^ k) (_ / _)), Z.div_mul by lia.
  rewrite u64_id, !i32_small by lia. done.
Qed.

Lemma zoneindex_ok_pow2 : forallb zoneindex_ok [8; 16; 32; 64; 128; 256; 512; 1024; 2048; 4096; 8192] = true.
Proof. vm_compute. reflexivity. Qed.

Lemma zoneindex_ok_all n : 1 <= n < 16384 -> zoneindex_ok n = true.
Proof.
  intros Hn. destruct (is_pow2 n && (8 <=? n)) eqn:Hp.
  { apply andb_true_iff in Hp as [H1 H2]. apply Z.leb_le in H2.
    apply (forallb_elem _ _ n zoneindex_ok_pow2). apply is_pow2_cases; [lia|done]. }
  unfold zoneindex_ok, zoneindex. rewrite Hp. cbn [implb].
  assert (Hcase : forall k g d, g = 2 ^ k -> 0 <= k <= 10 -> exists q, Z.land (u64 (n + (g - 1))) (u64 (Z.lnot (g - 1))) = g * q /\
     n <= g * q < n + g /\ (0 <= q + d < 1000 -> u64 (g * q / g + d) = q + d /\ i32 (g * q / g + d) = q + d /\ i32 (q + d) = q + d)).
  { intros k g d Hg Hk. destruct (round_up n k g Hg Hk ltac:(lia)) as (q & H1 & H2 & H3). exists q. auto. }
  destruct (Z.ltb_spec n 128) as [L|L].
  { destruct (Hcase 3 8 (-1) eq_refl ltac:(lia)) as (q & E & Hq & Hi). change (8 - 1) with 7 in E. rewrite E.
    change (8 * q / 8 - 1) with (8 * q / 8 + -1). destruct (Hi ltac:(lia)) as (-> & _ & ->).
    unfold chunk_size, NZONES. repeat case_match; lia. }
  destruct (Z.ltb_spec n 256) as [L1|L1].
  { destruct (Hcase 4 16 7 eq_refl ltac:(lia)) as (q & E & Hq & Hi). change (16 - 1) with 15 in E. rewrite E.
    destruct (Hi ltac:(lia)) as (_ & -> & _). unfold chunk_size, NZONES. repeat case_match; lia. }
  destruct (Z.ltb_spec n 8192) as [L2|L2].
  2: { rewrite (proj2 (Z.ltb_lt n 16384)) by lia. destruct (Hcase 10 1024 55 eq_refl ltac:(lia)) as (q & E & Hq & Hi). change (1024 - 1) with 1023 in E. rewrite E.
    destruct (Hi ltac:(lia)) as (_ & -> & _). unfold chunk_size, NZONES. repeat case_match; lia. }
  destruct (Z.ltb_spec n 512) as [L3|L3].
  { destruct (Hcase 5 32 15 eq_refl ltac:(lia)) as (q & E & Hq & Hi). change (32 - 1) with 31 in E. rewrite E.
    destruct (Hi ltac:(lia)) as (_ & -> & _). unfold chunk_size, NZONES. repeat case_match; lia. }
  clear L1. rename L3 into L1.
  destruct (Z.ltb_spec n 1024) as [L3|L3].
  { destruct (Hcase 6 64 23 eq_refl ltac:(lia)) as (q & E & Hq & Hi). change (64 - 1) with 63 in E. rewrite E.
    destruct (Hi ltac:(lia)) as (_ & -> & _). unfold chunk_size, NZONES. repeat case_match; lia. }
  clear L1. rename L3 into L1.
  destruct (Z.ltb_spec n 2048) as [L3|L3].
  { destruct (Hcase 7 128 31 eq_refl ltac:(lia)) as (q & E & Hq & Hi). change (128 - 1) with 127 in E. rewrite E.
    destruct (Hi ltac:(lia)) as (_ & -> & _). unfold chunk_size, NZONES. repeat case_match; lia. }
  clear L1. rename L3 into L1.
  destruct (Z.ltb_spec n 4096) as [L3|L3].
  { destruct (Hcase 8 256 39 eq_refl ltac:(lia)) as (q & E & Hq & Hi). change (256 - 1) with 255 in E. rewrite E.
    destruct (Hi ltac:(lia)) as (_ & -> & _). unfold chunk_size, NZONES. repeat case_match; lia. }
  clear L1. rename L3 into L1.
  destruct (Hcase 9 512 47 eq_refl ltac:(lia)) as (q & E & Hq & Hi). change (512 - 1) with 511 in E. rewrite E.
    destruct (Hi ltac:(lia)) as (_ & -> & _). unfold chunk_size, NZONES. repeat case_match; lia.
Qed.

(** The layout of a zone: the chunks start behind the header, at least two of
    them fit, they are aligned to 8 and to their size when it is a power of
    two. *)
Definition limit_of (zsz : Z) : Z :=
  if ZALLOC_ZONE_LIMIT <? zsz / 4 then ZALLOC_ZONE_LIMIT else zsz / 4.
Definition zone_chunks (zsz size : Z) : Z := (zsz - chunk_off size) / size.
Definition layout_ok (zsz zi : Z) : bool :=
  let size := chunk_size zi in
  implb (size <=? limit_of zsz)
    ((8 <=? size) && (size mod 8 =? 0) &&
     (sizeof_slab_zone <=? chunk_off size) && (chunk_off size mod 8 =? 0) &&
     (chunk_off size + 2 * size <=? zsz) &&
     implb (is_pow2 size) (chunk_off size mod size =? 0)).

Definition zone_sizes : list Z := [32768; 65536; 131072].
Lemma layout_ok_all : forallb (fun zsz => forallb (layout_ok zsz) (seqZ 0 NZONES)) zone_sizes = true.
Proof. vm_compute. reflexivity. Qed.

Record chunk_class (zsz zi size : Z) : Prop := {
  cc_index : 0 <= zi < NZONES;
  cc_size : size = chunk_size zi;
  cc_pos : 8 <= size <= 16384;
  cc_mod : size mod 8 = 0;
  cc_off : sizeof_slab_zone <= chunk_off size;
  cc_off_mod : chunk_off size mod 8 = 0;
  cc_fit : chunk_off size + 2 * size <= zsz;
  cc_pow2 : is_pow2 size = true -> chunk_off size mod size = 0 }.

Ltac bools := repeat match goal with
  | H : _ && _ = true |- _ => apply andb_true_iff in H as [? H]
  | H : (_ <=? _) = true |- _ => apply Z.leb_le in H
  | H : (_ <? _) = true |- _ => apply Z.ltb_lt in H
  | H : (_ =? _) = true |- _ => apply Z.eqb_eq in H
  end.

Lemma layout_class zsz zi : zsz ∈ zone_sizes -> 0 <= zi < NZONES -> chunk_size zi <= limit_of zsz ->
  chunk_class zsz zi (chunk_size zi).
Proof.
  intros Hz Hzi Hle. pose proof (forallb_elem _ _ zsz layout_ok_all Hz) as H. cbn beta in H.
  apply (forallb_elem _ _ zi) in H; [|by apply elem_of_seqZ]. unfold layout_ok in H.
  rewrite (proj2 (Z.leb_le _ _) Hle) in H. cbn [implb] in H.
  assert (chunk_size zi <= 16384).
  { etrans; [exact Hle|]. unfold limit_of, ZALLOC_ZONE_LIMIT. case_match; lia. }
  destruct (is_pow2 (chunk_size zi)) eqn:E; cbn [implb] in H; bools; (split; [done|done|lia|lia|lia|lia|lia|congruence]).
Qed.

Lemma zoneindex_class zsz n : zsz ∈ zone_sizes -> 1 <= n < limit_of zsz ->
  exists zi size, zoneindex n = (zi, size) /\ chunk_class zsz zi size /\ n <= size /\
    (if n <? 128 then size < n + 8 else 8 * (size - n) < n) /\
    (is_pow2 n = true -> 8 <= n -> size = n).
Proof.
  intros Hz Hn.
  assert (Hl : limit_of zsz = 8192 \/ limit_of zsz = 16384).
  { unfold zone_sizes in Hz. rewrite !elem_of_cons in Hz.
    destruct Hz as [->|[->|[->|Hz]]]; [by left|by right..|by apply not_elem_of_nil in Hz]. }
  pose proof (zoneindex_ok_all n ltac:(lia)) as H.
  unfold zoneindex_ok in H. destruct (zoneindex n) as [zi size]. exists zi, size.
  apply andb_true_iff in H as [H Hp]. apply andb_true_iff in H as [H Hw]. bools. subst size.
  split_and!; [done| |done| |].
  - apply layout_class; [done|done|]. etrans; [exact H|]. destruct (Z.ltb_spec n 8192); lia.
  - destruct (n <? 128); by bools.
  - intros E1 E2. rewrite E1, (proj2 (Z.leb_le _ _) E2) in Hp. cbn in Hp. by bools.
Qed.

(** * Addresses *)
Lemma page_of_eq x : 0 <= x < 2 ^ 64 -> page_of x = 4096 * (x / 4096).
Proof. intros Hx. unfold page_of. apply (land_align x 12); [lia|done]. Qed.

Lemma RT_ALIGN_page x : 0 <= x -> x + 4095 < 2 ^ 64 ->
  RT_ALIGN x RT_MM_PAGE_SIZE = 4096 * ((x + 4095) / 4096).
Proof.
  intros H0 Hx. unfold RT_ALIGN, RT_ALIGN_DOWN, RT_MM_PAGE_SIZE.
  replace (x + 4096 - 1) with (x + 4095) by lia. rewrite (u64_id (x + 4095)) by lia.
  change (4096 - 1) with (Z.ones 12). rewrite <-Z.ldiff_land, Z.ldiff_ones_r by lia.
  rewrite Z.shiftl_mul_pow2, Z.shiftr_div_pow2 by lia. change (2 ^ 12) with 4096.
  rewrite u64_id; [lia|]. split; [zmod|]. zmod.
Qed.

Lemma btokup_eq s lo x : heap_start s = lo * 4096 -> lo * 4096 <= x < 2 ^ 64 -> 0 <= lo ->
  btokup s x = x / 4096 - lo.
Proof.
  intros E Hx Hlo. unfold btokup. rewrite E, u64_id by lia. unfold RT_MM_PAGE_BITS.
  rewrite Z.shiftr_div_pow2 by lia. change (2 ^ 12) with 4096.
  rewrite <-(Z.add_opp_r x), <-Z.mul_opp_l, Z.div_add by lia. lia.
Qed.

(** * Ownership *)
(** An allocation that is not yet released: a chunk of a zone, or whole pages. *)
Inductive alloc := Small (z size p : Z) | Large (p k : Z).
Definition aptr (a : alloc) : Z := match a with Small _ _ p => p | Large p _ => p end.
Definition asize (a : alloc) : Z := match a with Small _ size _ => size | Large _ k => k * 4096 end.

Definition live_in (z : Z) (a : alloc) : option Z :=
  match a with Small z' _ p => if z' =? z then Some p else None | Large _ _ => None end.
Definition lives (z : Z) (al : list alloc) : list Z := omap (live_in z) al.
Definition large_block (a : alloc) : option (Z * Z) :=
  match a with Large p k => Some (p / 4096, k) | Small _ _ _ => None end.
Definition larges (al : list alloc) : list (Z * Z) := omap large_block al.
Definition total (al : list alloc) : Z := foldr (fun a t => asize a + t) 0 al.
#[global] Arguments lives : simpl never.
#[global] Arguments larges : simpl never.
#[global] Arguments total : simpl never.

(** The allocations, the zones, those kept for reuse, the lists of
    [zone_array], and the free chunks of each zone. *)
Record ghost := mkG {
  g_al : list alloc;
  g_zs : list Z;
  g_zf : list Z;
  g_arr : Z -> list Z;
  g_fl : Z -> list Z }.

(** The list of zones and the list of chunks behind a pointer. *)
Fixpoint zpath (zn : Z -> slab_zone) (p : option Z) (l : list Z) : Prop :=
  match l with [] => p = None | z :: l => p = Some z /\ zpath zn (z_next (zn z)) l end.
Fixpoint cpath (cn : Z -> option Z) (p : option Z) (l : list Z) : Prop :=
  match l with [] => p = None | c :: l => p = Some c /\ cpath cn (cn c) l end.

Lemma zpath_frame zn zn' p l : (forall z, z ∈ l -> z_next (zn' z) = z_next (zn z)) ->
  zpath zn p l -> zpath zn' p l.
Proof.
  revert p. induction l as [|z l IH]; intros p H; cbn; [done|]. intros [-> Hl]. split; [done|].
  rewrite H by set_solver. apply IH; [|done]. intros z' Hz'. apply H. set_solver.
Qed.
Lemma cpath_frame cn cn' p l : (forall c, c ∈ l -> cn' c = cn c) -> cpath cn p l -> cpath cn' p l.
Proof.
  revert p. induction l as [|z l IH]; intros p H; cbn; [done|]. intros [-> Hl]. split; [done|].
  rewrite H by set_solver. apply IH; [|done]. intros z' Hz'. apply H. set_solver.
Qed.

Lemma elem_of_lives z al p : p ∈ lives z al <-> exists size, Small z size p ∈ al.
Proof.
  unfold lives. rewrite list_elem_of_omap. split.
  - intros ([z' size p'|p' k] & Hin & E); cbn in E; [|done]. destruct (Z.eqb_spec z' z) as [->|]; [|done].
    injection E as ->. by exists size.
  - intros [size H]. exists (Small z size p). split; [done|]. cbn. by rewrite Z.eqb_refl.
Qed.
Lemma elem_of_larges al b k : (b, k) ∈ larges al <-> exists p, b = p / 4096 /\ Large p k ∈ al.
Proof.
  unfold larges. rewrite list_elem_of_omap. split.
  - intros ([z' size p'|p' k'] & Hin & E); cbn in E; [done|]. injection E as <- <-. by exists p'.
  - intros (p & -> & H). by exists (Large p k).
Qed.

Lemma lives_perm z al al' : al ≡ₚ al' -> lives z al ≡ₚ lives z al'.
Proof. unfold lives. by intros ->. Qed.
Lemma larges_perm al al' : al ≡ₚ al' -> larges al ≡ₚ larges al'.
Proof. unfold larges. by intros ->. Qed.
Lemma total_cons a al : total (a :: al) = asize a + total al.
Proof. done. Qed.
Lemma total_perm al al' : al ≡ₚ al' -> total al = total al'.
Proof. unfold total. induction 1; cbn; lia. Qed.

Definition unlocked (h : heap) : heap := mkHeap (page_heads h) (rt_page_list h) 1.

Lemma page_inv_perm lo n l out out' h : out ≡ₚ out' -> page_inv lo n l out h -> page_inv lo n l out' h.
Proof.
  intros Hp [H1 H2 H3 H4 H5]. split; try done.
  - intros a k Hin. apply (H4 a k). by rewrite Hp.
  - intros x. rewrite <-H5. apply cover_perm. by rewrite Hp.
Qed.

(** * The invariant *)
Definition chunk_at (h : slab_zone) (i : Z) : Z := z_baseptr h + i * z_chunksize h.

(** The zone at [z]: its chunks up to [z_uindex] are live or in the free list. *)
Record zone_ok (zsz z : Z) (al : list alloc) (fl : list Z) (cn : Z -> option Z) (h : slab_zone) : Prop := {
  zo_magic : z_magic h = ZALLOC_SLAB_MAGIC;
  zo_class : chunk_class zsz (z_zoneindex h) (z_chunksize h);
  zo_base : z_baseptr h = z + chunk_off (z_chunksize h);
  zo_nmax : z_nmax h = zone_chunks zsz (z_chunksize h);
  zo_uindex : 0 <= z_uindex h < z_nmax h;
  zo_free : cpath cn (z_freechunk h) fl;
  zo_chunks : lives z al ++ fl ≡ₚ map (chunk_at h) (seqZ 0 (z_uindex h + 1));
  zo_nfree : z_nfree h = z_nmax h - (z_uindex h + 1) + Z.of_nat (length fl) }.

Section inv.
(** The heap has the pages from [lo] to [lo + n]; [mub] is the block of the table
    of page uses. *)
Context (lo n : Z) (mub : Z * Z).

Definition zone_block (zsz z : Z) : Z * Z := (z / 4096, zsz / 4096).
Definition page_blocks (zsz : Z) (g : ghost) : list (Z * Z) :=
  mub :: map (zone_block zsz) (g_zs g) ++ larges (g_al g).

Record space_ok (l : list (Z * Z)) (g : ghost) (s : slab) : Prop := {
  sp_pages : page_inv lo n l (page_blocks (zone_size s) g) (unlocked (pages s));
  sp_start : heap_start s = lo * 4096;
  sp_size : zone_size s ∈ zone_sizes;
  sp_limit : zone_limit s = limit_of (zone_size s);
  sp_cnt : zone_page_cnt s = zone_size s / 4096;
  sp_zs : forall z, z ∈ g_zs g -> z mod 4096 = 0;
  sp_large : forall p k, Large p k ∈ g_al g ->
    p mod 4096 = 0 /\ memusage s (p / 4096 - lo) = mkUsage PAGE_TYPE_LARGE k;
  sp_small : forall z j, z ∈ g_zs g -> 0 <= j < zone_size s / 4096 ->
    memusage s (z / 4096 - lo + j) = mkUsage PAGE_TYPE_SMALL j;
  sp_table : memusage_ptr s = Some (mub.1 * 4096) }.

Record chunks_ok (g : ghost) (s : slab) : Prop := {
  ck_zone : forall z, z ∈ g_zs g -> z ∉ g_zf g ->
    zone_ok (zone_size s) z (g_al g) (g_fl g z) (c_next s) (zones s z);
  ck_small : forall z size p, Small z size p ∈ g_al g ->
    z ∈ g_zs g /\ z ∉ g_zf g /\ z_chunksize (zones s z) = size }.

(** [zf] is the list of the zones kept for reuse; a zone on the way between
    states is in [g_zf] and not yet, or no longer, in the list. *)
Record links_ok (zf : list Z) (g : ghost) (s : slab) : Prop := {
  lk_arr : forall i, zpath (zones s) (zone_array s i) (g_arr g i);
  lk_free : zpath (zones s) (zone_free s) zf;
  lk_nodup : forall i, NoDup (g_arr g i);
  lk_nodup_free : NoDup zf;
  lk_cnt : zone_free_cnt s = Z.of_nat (length zf);
  lk_few : (length zf <= 3)%nat;
  lk_sub : forall z, z ∈ zf -> z ∈ g_zf g;
  lk_zf : forall z, z ∈ g_zf g -> z ∈ g_zs g;
  lk_in : forall i z, z ∈ g_arr g i ->
    z ∈ g_zs g /\ z ∉ g_zf g /\ z_zoneindex (zones s z) = i /\ 0 < z_nfree (zones s z);
  lk_has : forall z, z ∈ g_zs g -> z ∉ g_zf g -> 0 < z_nfree (zones s z) ->
    z ∈ g_arr g (z_zoneindex (zones s z)) }.

Record slab_inv (l : list (Z * Z)) (zf : list Z) (g : ghost) (s : slab) : Prop := {
  si_space : space_ok l g s;
  si_chunks : chunks_ok g s;
  si_links : links_ok zf g s;
  si_used : used_mem s = u64 (total (g_al g));
  si_mapped : mapped (data s) (lo * 4096) (n * 4096);
  si_bytes : bytes_ok (data s);
  si_few : (length zf <= 2)%nat }.

Hypotheses (Hlo : 0 < lo) (Hn : 0 < n) (Hhi : lo + n < 2 ^ 52).

Lemma zone_sizes_pages zsz : zsz ∈ zone_sizes -> zsz = 4096 * (zsz / 4096) /\ 8 <= zsz / 4096 <= 32.
Proof using.
  clear. unfold zone_sizes. rewrite !elem_of_cons.
  intros [->|[->|[->|H]]]; [vm_compute; split_and!; congruence..|by apply not_elem_of_nil in H].
Qed.

(** A page is in one block only. *)
Lemma block_two x b b' l' l out h : page_inv lo n l out h -> out ≡ₚ b :: b' :: l' ->
  in_block x b -> in_block x b' -> False.
Proof using.
  clear. intros Hp Hperm Hx Hx'. apply inb_in in Hx, Hx'.
  pose proof (pi_cover _ _ _ _ _ Hp x) as Hc. rewrite cover_app, (cover_perm x _ _ Hperm) in Hc.
  unfold cover in Hc. cbn in Hc. rewrite Hx, Hx' in Hc. unfold inb in Hc. case_match; lia.
Qed.

Lemma block_in l out h b : page_inv lo n l out h -> b ∈ out -> lo <= b.1 /\ b.1 + b.2 <= lo + n /\ 0 < b.2.
Proof using.
  clear Hlo Hn Hhi. intros Hp Hb. destruct b as [b k]. pose proof (pi_out _ _ _ _ _ Hp b k Hb) as Hk.
  destruct (page_inv_within lo n l out h b k Hp) as [H1 H2]; [set_solver|done|done].
Qed.
End inv.

(** * Consequences *)
Section facts.
Context (lo n : Z) (mub : Z * Z) (l : list (Z * Z)) (g : ghost) (s : slab).
Hypotheses (Hlo : 0 < lo) (Hn : 0 < n) (Hhi : lo + n < 2 ^ 52) (Hsp : space_ok lo n mub l g s).

Lemma zone_in_blocks z : z ∈ g_zs g -> zone_block (zone_size s) z ∈ page_blocks mub (zone_size s) g.
Proof using.
  clear. intros Hz. unfold page_blocks. rewrite elem_of_cons, elem_of_app, list_elem_of_fmap. right. left. by exists z.
Qed.

Lemma zone_range z : z ∈ g_zs g ->
  lo * 4096 <= z /\ z + zone_size s <= (lo + n) * 4096 /\ z = 4096 * (z / 4096).
Proof using Hsp.
  clear Hlo Hn Hhi. intros Hz. pose proof (block_in _ _ _ _ _ _ (sp_pages _ _ _ _ _ _ Hsp) (zone_in_blocks z Hz)) as H.
  cbn in H. pose proof (sp_zs _ _ _ _ _ _ Hsp z Hz). destruct (zone_sizes_pages _ (sp_size _ _ _ _ _ _ Hsp)).
  assert (z = 4096 * (z / 4096)) by zmod. lia.
Qed.

Lemma zone_page z p : z ∈ g_zs g -> z <= p < z + zone_size s ->
  0 <= p / 4096 - z / 4096 < zone_size s / 4096 /\ in_block (p / 4096) (zone_block (zone_size s) z).
Proof using Hsp.
  clear Hlo Hn Hhi. intros Hz Hp. pose proof (sp_zs _ _ _ _ _ _ Hsp z Hz).
  destruct (zone_sizes_pages _ (sp_size _ _ _ _ _ _ Hsp)). unfold in_block. cbn.
  enough (z / 4096 <= p / 4096 < z / 4096 + zone_size s / 4096) by lia. zmod.
Qed.

Lemma zone_unique z z' p : z ∈ g_zs g -> z' ∈ g_zs g ->
  z <= p < z + zone_size s -> z' <= p < z' + zone_size s -> z = z'.
Proof using Hsp.
  clear Hlo Hn Hhi. intros Hz Hz' Hp Hp'. destruct (decide (z = z')) as [|Hne]; [done|exfalso].
  apply zone_page in Hp as [_ Hp], Hp' as [_ Hp']; try done.
  apply elem_of_Permutation in Hz as [r Hr]. rewrite Hr, elem_of_cons in Hz'.
  destruct Hz' as [->|Hz']; [done|]. apply elem_of_Permutation in Hz' as [r' Hr'].
  eapply (block_two lo n _ _ _ (mub :: map (zone_block (zone_size s)) r' ++ larges (g_al g)));
    [apply Hsp| |exact Hp|exact Hp'].
  unfold page_blocks. rewrite Hr, Hr'. cbn. solve_Permutation.
Qed.

Lemma zones_nodup : NoDup (g_zs g).
Proof using Hsp.
  clear Hlo Hn Hhi. destruct (zone_sizes_pages _ (sp_size _ _ _ _ _ _ Hsp)) as [E1 E2].
  enough (H : forall zs rest, (forall z, z ∈ zs -> in_block (z / 4096) (zone_block (zone_size s) z)) ->
    map (zone_block (zone_size s)) zs ++ rest ≡ₚ page_blocks mub (zone_size s) g -> NoDup zs).
  { apply (H (g_zs g) (mub :: larges (g_al g))).
    - intros z _. unfold in_block. cbn. lia.
    - unfold page_blocks. solve_Permutation. }
  induction zs as [|z zs IH]; intros rest Hin Hp; [constructor|]. apply NoDup_cons. split.
  - intros Hz. apply elem_of_Permutation in Hz as [r Hr].
    eapply (block_two lo n (z / 4096) (zone_block (zone_size s) z) (zone_block (zone_size s) z));
      [apply Hsp| |by apply Hin; set_solver..].
    rewrite <-Hp. cbn. rewrite Hr. cbn. reflexivity.
  - apply (IH (zone_block (zone_size s) z :: rest)); [intros z' Hz'; apply Hin; set_solver|].
    rewrite <-Hp. cbn. solve_Permutation.
Qed.

Lemma zones_few : (length (g_zs g) <= Z.to_nat n)%nat.
Proof using Hsp Hn.
  clear Hlo Hhi. assert (H : length (map (fun z => z / 4096) (g_zs g)) = length (g_zs g)) by apply length_map.
  rewrite <-H, <-(length_seqZ lo n). apply submseteq_length, NoDup_submseteq.
  - apply (NoDup_fmap_2_strong (fun z => z / 4096)); [|apply zones_nodup].
    intros x y Hx Hy E. pose proof (sp_zs _ _ _ _ _ _ Hsp x Hx). pose proof (sp_zs _ _ _ _ _ _ Hsp y Hy). zmod.
  - intros x. rewrite list_elem_of_fmap, elem_of_seqZ. intros (z & -> & Hz).
    pose proof (block_in _ _ _ _ _ _ (sp_pages _ _ _ _ _ _ Hsp) (zone_in_blocks z Hz)) as Hb. cbn in Hb. lia.
Qed.
End facts.

(** ** The chunks of a zone *)
Section chunk.
Context (zsz z : Z) (al : list alloc) (fl : list Z) (cn : Z -> option Z) (h : slab_zone).
Hypothesis (Hz : zone_ok zsz z al fl cn h).

Lemma chunk_fit i : 0 <= i < z_nmax h -> chunk_at h i + z_chunksize h <= z + zsz /\ z + 56 <= chunk_at h i /\
  z_chunksize h <> 0.
Proof using Hz.
  intros Hi. destruct Hz as [_ Hc Hb Hm _ _ _ _]. destruct Hc as [_ _ Hp _ Ho _ Hf _].
  unfold chunk_at. rewrite Hb. rewrite Hm in Hi. unfold zone_chunks in Hi. unfold sizeof_slab_zone in Ho.
  assert (i * z_chunksize h + z_chunksize h <= zsz - chunk_off (z_chunksize h)); [|split_and!; nia].
  assert (z_chunksize h * ((zsz - chunk_off (z_chunksize h)) / z_chunksize h) <= zsz - chunk_off (z_chunksize h))
    by (apply Z.mul_div_le; lia). nia.
Qed.

Lemma elem_of_chunks p : p ∈ lives z al ++ fl <-> exists i, 0 <= i <= z_uindex h /\ p = chunk_at h i.
Proof using Hz.
  rewrite (zo_chunks _ _ _ _ _ _ Hz), list_elem_of_fmap. setoid_rewrite elem_of_seqZ.
  split; [intros (i & -> & Hi)|intros (i & Hi & ->)]; exists i; (split; [try done; lia|try done; lia]).
Qed.

Lemma chunk_range p : p ∈ lives z al ++ fl -> z + 56 <= p /\ p + z_chunksize h <= z + zsz /\ z <= p < z + zsz.
Proof using Hz.
  rewrite elem_of_chunks. intros (i & Hi & ->). pose proof (zo_uindex _ _ _ _ _ _ Hz).
  pose proof (cc_pos _ _ _ (zo_class _ _ _ _ _ _ Hz)). destruct (chunk_fit i); lia.
Qed.

Lemma chunk_at_inj i j : chunk_at h i = chunk_at h j -> i = j.
Proof using Hz.
  unfold chunk_at. pose proof (cc_pos _ _ _ (zo_class _ _ _ _ _ _ Hz)). nia.
Qed.

Lemma chunks_nodup : NoDup (lives z al ++ fl).
Proof using Hz.
  rewrite (zo_chunks _ _ _ _ _ _ Hz). apply (NoDup_fmap_2_strong (chunk_at h)); [|apply NoDup_seqZ].
  intros i j _ _. apply chunk_at_inj.
Qed.

Lemma chunks_count : Z.of_nat (length (lives z al)) + z_nfree h = z_nmax h.
Proof using Hz.
  pose proof (Permutation_length (zo_chunks _ _ _ _ _ _ Hz)) as H.
  rewrite length_app, length_map, length_seqZ in H. pose proof (zo_uindex _ _ _ _ _ _ Hz).
  rewrite (zo_nfree _ _ _ _ _ _ Hz). lia.
Qed.
End chunk.
