(* ===== verification/SlabOps.v ===== *)
(** What the operations of [Slab.v] do: each of them keeps the invariant of
    [SlabInv.v]. *)
From S2P Require Import Prelude Page PageProps KMem KMemProps Slab SlabInv.

(** * Rules of the calls *)
Section rules.
Context (s : slab).

Lemma wp_on_pages {A} (m : M heap A) (Q : A -> slab -> Prop) :
  wp m (fun a h => Q a (set_pages h s)) (pages s) -> wp (on_pages m) Q s.
Proof. unfold wp, on_pages. by destruct (m (pages s)) as [[a h]|]. Qed.
Lemma wp_on_data {A} (m : M ram A) (Q : A -> slab -> Prop) :
  wp m (fun a d => Q a (set_data d s)) (data s) -> wp (on_data m) Q s.
Proof. unfold wp, on_data. by destruct (m (data s)) as [[a h]|]. Qed.

Definition with_sem (v : Z) : slab :=
  set_pages (mkHeap (page_heads (pages s)) (rt_page_list (pages s)) v) s.

Lemma wp_heap_lock (Q : unit -> slab -> Prop) :
  heap_sem (pages s) = 1 -> Q tt (with_sem 0) -> wp heap_lock Q s.
Proof.
  intros Hs HQ. unfold heap_lock. apply wp_on_pages. unfold heap_take. wp_steps; [by rewrite Hs|].
  by rewrite Hs.
Qed.
Lemma wp_heap_unlock (Q : unit -> slab -> Prop) :
  heap_sem (pages s) = 0 -> Q tt (with_sem 1) -> wp heap_unlock Q s.
Proof.
  intros Hs HQ. unfold heap_unlock. apply wp_on_pages. unfold heap_release. wp_steps.
  by rewrite Hs.
Qed.
End rules.

(** What most operations leave alone. *)
Record frame (s s' : slab) : Prop := {
  fr_pages : unlocked (pages s') = unlocked (pages s);
  fr_data : data s' = data s;
  fr_size : zone_size s' = zone_size s;
  fr_limit : zone_limit s' = zone_limit s;
  fr_cnt : zone_page_cnt s' = zone_page_cnt s;
  fr_usage : memusage s' = memusage s;
  fr_start : heap_start s' = heap_start s;
  fr_table : memusage_ptr s' = memusage_ptr s }.

(** Equal up to the link of the list of zones. *)
Definition same_zone (h h' : slab_zone) : Prop := h' = set_z_next (z_next h') h.

Lemma same_zone_refl h : same_zone h h.
Proof. by destruct h. Qed.

Lemma zone_ok_same zsz z al al' fl cn cn' h h' : same_zone h h' -> lives z al' ≡ₚ lives z al ->
  (forall p, p ∈ fl -> cn' p = cn p) -> zone_ok zsz z al fl cn h -> zone_ok zsz z al' fl cn' h'.
Proof.
  intros -> Hl Hc [H1 H2 H3 H4 H5 H6 H7 H8]. split; try done.
  - by apply (cpath_frame cn).
  - by rewrite Hl.
Qed.

Section steps.
Context (lo n : Z) (mub : Z * Z).
Hypotheses (Hlo : 0 < lo) (Hn : 0 < n) (Hhi : lo + n < 2 ^ 52).

Lemma chunks_frame g g' s s' z : chunks_ok g s -> zone_size s' = zone_size s ->
  (forall x, x ∈ g_zs g' -> x ∉ g_zf g' -> x <> z -> x ∈ g_zs g /\ x ∉ g_zf g) ->
  (forall x, x ∈ g_zs g' -> x ∉ g_zf g' -> x <> z ->
    same_zone (zones s x) (zones s' x) /\ lives x (g_al g') ≡ₚ lives x (g_al g) /\
    g_fl g' x = g_fl g x /\ forall p, p ∈ g_fl g x -> c_next s' p = c_next s p) ->
  (z ∈ g_zs g' -> z ∉ g_zf g' ->
    zone_ok (zone_size s) z (g_al g') (g_fl g' z) (c_next s') (zones s' z)) ->
  (forall x size p, Small x size p ∈ g_al g' ->
    x ∈ g_zs g' /\ x ∉ g_zf g' /\ z_chunksize (zones s' x) = size) ->
  chunks_ok g' s'.
Proof using.
  clear. intros Hc Es Hin Hoth Hz Hsm. split; [|done]. intros x Hx Hx'. rewrite Es.
  destruct (decide (x = z)) as [->|Hne]; [by apply Hz|].
  destruct (Hin x Hx Hx' Hne) as [Ha Hb]. destruct (Hoth x Hx Hx' Hne) as (H1 & H2 & H3 & H4).
  rewrite H3. eapply zone_ok_same; [exact H1|exact H2|exact H4|]. by apply (ck_zone _ _ Hc).
Qed.

Lemma space_frame l g g' s s' : space_ok lo n mub l g s -> frame s s' ->
  g_zs g' = g_zs g -> larges (g_al g') = larges (g_al g) ->
  (forall p k, Large p k ∈ g_al g' -> Large p k ∈ g_al g) -> space_ok lo n mub l g' s'.
Proof using.
  clear. intros [H1 H2 H3 H4 H5 H6 H7 H8 H9] [F1 F2 F3 F4 F5 F6 F7 F8] Ez El Hl. split; [..|by rewrite F8].
  - unfold page_blocks in *. by rewrite F1, F3, Ez, El.
  - by rewrite F7.
  - by rewrite F3.
  - by rewrite F4, F3.
  - by rewrite F5, F3.
  - by rewrite Ez.
  - intros p k Hp. rewrite F6. by apply H7, Hl.
  - rewrite Ez, F3, F6. done.
Qed.

Lemma lives_small_ne x z size p al : x <> z -> lives x (Small z size p :: al) = lives x al.
Proof using. clear. intros Hx. unfold lives. cbn. by destruct (Z.eqb_spec z x) as [->|]. Qed.
Lemma lives_small_eq z size p al : lives z (Small z size p :: al) = p :: lives z al.
Proof using. clear. unfold lives. cbn. by rewrite Z.eqb_refl. Qed.

(** ** A chunk of a zone with free chunks *)
Definition took (g : ghost) (z size p : Z) (arr : Z -> list Z) (fl : list Z) : ghost :=
  mkG (Small z size p :: g_al g) (g_zs g) (g_zf g) arr (upd (g_fl g) z fl).

Lemma took_inv l zf g s s' z p arr fl :
  slab_inv lo n mub l zf g s -> frame s s' -> z ∈ g_zs g -> z ∉ g_zf g ->
  let size := z_chunksize (zones s z) in
  (forall x, x <> z -> zones s' x = zones s x) -> c_next s' = c_next s ->
  z_chunksize (zones s' z) = size ->
  zone_ok (zone_size s) z (Small z size p :: g_al g) fl (c_next s) (zones s' z) ->
  links_ok zf (took g z size p arr fl) s' -> used_mem s' = u64 (used_mem s + size) ->
  slab_inv lo n mub l zf (took g z size p arr fl) s'.
Proof using.
  clear. intros [S1 S2 S3 S4 S5 S6 S7] Hfr Hz Hzf size Hzn Hcn Esz Hzo Hlk Hus. split; [| |done| | | |done].
  - eapply space_frame; try done. intros p' k'. cbn. rewrite elem_of_cons. intros [?|?]; done.
  - apply (chunks_frame g _ s s' z); try done; cbn.
    + apply Hfr.
    + intros x Hx Hx' Hne. rewrite Hzn, upd_ne, lives_small_ne by done.
      split_and!; [apply same_zone_refl|done|done|]. intros q _. by rewrite Hcn.
    + intros _ _. by rewrite upd_eq, Hcn.
    + intros x size' p'. rewrite elem_of_cons. intros [[= -> -> ->]|Hin]; [by split_and!|].
      destruct (ck_small _ _ S2 x size' p' Hin) as (H1 & H2 & H3). split_and!; [done|done|].
      destruct (decide (x = z)) as [->|Hne]; [by rewrite Esz|by rewrite Hzn].
  - rewrite Hus, S4. cbn [g_al took]. rewrite total_cons. cbn [asize]. unfold u64. rewrite Z.add_mod_idemp_l by lia. f_equal. unfold size. lia.
  - by rewrite (fr_data _ _ Hfr).
  - by rewrite (fr_data _ _ Hfr).
Qed.

Lemma links_took zf g s s' z zi rest size p fl : links_ok zf g s -> g_arr g zi = z :: rest ->
  (forall x, x <> z -> zones s' x = zones s x) ->
  z_zoneindex (zones s' z) = z_zoneindex (zones s z) ->
  z_nfree (zones s' z) = z_nfree (zones s z) - 1 ->
  zone_free s' = zone_free s -> zone_free_cnt s' = zone_free_cnt s ->
  (z_nfree (zones s z) = 1 -> forall i, zone_array s' i = upd (zone_array s) zi (z_next (zones s z)) i) ->
  (z_nfree (zones s z) <> 1 -> zone_array s' = zone_array s /\ z_next (zones s' z) = z_next (zones s z)) ->
  links_ok zf (took g z size p (if decide (z_nfree (zones s z) = 1) then upd (g_arr g) zi rest else g_arr g) fl) s'.
Proof using.
  clear. intros [L1 L2 L3 L4 L5 L6 L7' L7 L8 L9] Ez Hzn Hzi Hnf Hf Hfc H1 Hn1.
  assert (Hz : z ∈ g_arr g zi) by (rewrite Ez; set_solver).
  destruct (L8 zi z Hz) as (Z1 & Z2 & Z3 & Z4).
  assert (Hfr : zpath (zones s') (zone_free s) zf).
  { apply (zpath_frame (zones s)); [|apply L2]. intros x Hx. rewrite Hzn; [done|]. intros ->. by apply Z2, L7'. }
  assert (Hoth : forall i, i <> zi -> z ∉ g_arr g i).
  { intros i Hi Hin. apply Hi. destruct (L8 i z Hin) as (_ & _ & <- & _). done. }
  case_decide as Hd.
  - specialize (H1 Hd). assert (Hr : z ∉ rest) by (pose proof (L3 zi) as H; rewrite Ez in H; by apply NoDup_cons in H as [? _]).
    split; cbn [g_arr g_zf g_zs took]; rewrite ?Hf, ?Hfc; try done.
    + intros i. rewrite H1. destruct (decide (zi = i)) as [<-|Hne].
      * rewrite !upd_eq. pose proof (L1 zi) as L. rewrite Ez in L. destruct L as [_ L].
        apply (zpath_frame (zones s)); [|done]. intros x Hx. rewrite Hzn; [done|]. by intros ->.
      * rewrite !upd_ne by done. apply (zpath_frame (zones s)); [|apply L1]. intros x Hx.
        rewrite Hzn; [done|]. intros ->. by apply (Hoth i); [congruence|].
    + intros i. destruct (decide (zi = i)) as [<-|Hne]; [rewrite upd_eq|by rewrite upd_ne].
      pose proof (L3 zi) as L. rewrite Ez in L. by apply NoDup_cons in L as [_ L].
    + intros i x. destruct (decide (zi = i)) as [<-|Hne]; [rewrite upd_eq|rewrite upd_ne by done]; intros Hx.
      * rewrite Hzn by by intros ->. apply L8. rewrite Ez. set_solver.
      * rewrite Hzn; [by apply L8|]. intros ->. by apply (Hoth i); [congruence|].
    + intros x Hx Hx'. destruct (decide (x = z)) as [->|Hxz]; [rewrite Hnf; lia|]. rewrite Hzn by done. intros Hp.
      specialize (L9 x Hx Hx' Hp). destruct (decide (zi = z_zoneindex (zones s x))) as [E|Hne]; [|by rewrite upd_ne].
      rewrite <-E, upd_eq. rewrite <-E, Ez in L9. set_solver.
  - destruct (Hn1 Hd) as [E1 E2]. assert (Hnx : forall x, z_next (zones s' x) = z_next (zones s x)).
    { intros x. destruct (decide (x = z)) as [->|Hne]; [done|by rewrite Hzn]. }
    split; cbn [g_arr g_zf g_zs took]; rewrite ?Hf, ?Hfc, ?E1; try done.
    + intros i. by apply (zpath_frame (zones s)).
    + intros i x Hx. destruct (L8 i x Hx) as (? & ? & ? & ?).
      destruct (decide (x = z)) as [->|Hne]; [rewrite Hzi, Hnf|rewrite Hzn by done]; split_and!; try done; lia.
    + intros x Hx Hx'. destruct (decide (x = z)) as [->|Hne]; [rewrite Hzi; intros _; by apply L9|].
      rewrite Hzn by done. by apply L9.
Qed.

Lemma zone_counts zsz z al fl cn h : zsz ∈ zone_sizes -> zone_ok zsz z al fl cn h ->
  z_nmax h <= 16384 /\ 0 <= z_nfree h <= z_nmax h /\ 0 <= z_uindex h < z_nmax h.
Proof using.
  clear. intros Hs Hz. pose proof (chunks_count _ _ _ _ _ _ Hz). pose proof (zo_uindex _ _ _ _ _ _ Hz).
  rewrite (zo_nfree _ _ _ _ _ _ Hz) in *. split_and!; try lia.
  rewrite (zo_nmax _ _ _ _ _ _ Hz). unfold zone_chunks. pose proof (zo_class _ _ _ _ _ _ Hz) as [_ _ Hp _ Ho _ _ _].
  unfold sizeof_slab_zone in Ho.
  assert (zsz <= 131072) by (unfold zone_sizes in Hs; rewrite !elem_of_cons in Hs;
    destruct Hs as [->|[->|[->|Hs]]]; [lia..|by apply not_elem_of_nil in Hs]).
  apply Z.div_le_upper_bound; nia.
Qed.

Lemma seqZ_snoc k : 0 <= k -> seqZ 0 (k + 1) = seqZ 0 k ++ [k].
Proof using. clear. intros Hk. rewrite seqZ_app by lia. by rewrite Z.add_0_l. Qed.

(** The header with other values of [z_nfree], [z_uindex] and [z_freechunk]. *)
Record rezone (h h' : slab_zone) (nfree uindex : Z) (free : option Z) : Prop := {
  rz_magic : z_magic h' = z_magic h;
  rz_index : z_zoneindex h' = z_zoneindex h;
  rz_size : z_chunksize h' = z_chunksize h;
  rz_base : z_baseptr h' = z_baseptr h;
  rz_nmax : z_nmax h' = z_nmax h;
  rz_nfree : z_nfree h' = nfree;
  rz_uindex : z_uindex h' = uindex;
  rz_free : z_freechunk h' = free }.

Lemma chunk_at_rezone h h' a b c i : rezone h h' a b c -> chunk_at h' i = chunk_at h i.
Proof using. clear. intros []. unfold chunk_at. congruence. Qed.

Lemma zone_ok_virgin zsz z al fl cn h h' : zone_ok zsz z al fl cn h -> z_uindex h + 1 <> z_nmax h ->
  rezone h h' (z_nfree h - 1) (z_uindex h + 1) (z_freechunk h) ->
  zone_ok zsz z (Small z (z_chunksize h) (chunk_at h (z_uindex h + 1)) :: al) fl cn h'.
Proof using.
  clear. intros [H1 H2 H3 H4 H5 H6 H7 H8] Hu Hr. pose proof (chunk_at_rezone _ _ _ _ _ (z_uindex h + 1) Hr) as Hc.
  destruct Hr as [R1 R2 R3 R4 R5 R6 R7 R8].
  split; rewrite ?R1, ?R2, ?R3, ?R4, ?R5, ?R6, ?R7, ?R8; try done; try lia.
  rewrite lives_small_eq, seqZ_snoc, map_app by lia. cbn [map]. rewrite Hc.
  rewrite (list_fmap_ext (chunk_at h') (chunk_at h)); [rewrite <-H7; solve_Permutation|].
  intros i x _. unfold chunk_at. by rewrite R3, R4.
Qed.

Lemma zone_ok_reuse zsz z al p fl cn h h' : zone_ok zsz z al (p :: fl) cn h ->
  rezone h h' (z_nfree h - 1) (z_uindex h) (cn p) ->
  zone_ok zsz z (Small z (z_chunksize h) p :: al) fl cn h'.
Proof using.
  clear. intros [H1 H2 H3 H4 H5 H6 H7 H8] [R1 R2 R3 R4 R5 R6 R7 R8].
  split; rewrite ?R1, ?R2, ?R3, ?R4, ?R5, ?R6, ?R7, ?R8; try done.
  - by destruct H6.
  - rewrite lives_small_eq, (list_fmap_ext (chunk_at h') (chunk_at h)); [rewrite <-H7; solve_Permutation|].
    intros i x _. unfold chunk_at. by rewrite R3, R4.
  - rewrite H8. cbn [length]. lia.
Qed.

(** A small allocation in a heap with the allocations [al] has given a chunk. *)
Definition malloced (l : list (Z * Z)) (al : list alloc) (s : slab) (size : Z) (r : option Z) (s' : slab) : Prop :=
  exists z p g', r = Some p /\ slab_inv lo n mub l (g_zf g') g' s' /\ g_al g' = Small z size p :: al /\
    heap_sem (pages s') = 1 /\ data s' = data s /\ zone_size s' = zone_size s.

Lemma chunk_u64 l g s z i : space_ok lo n mub l g s -> z ∈ g_zs g ->
  zone_ok (zone_size s) z (g_al g) (g_fl g z) (c_next s) (zones s z) -> 0 <= i < z_nmax (zones s z) ->
  u64 (z_baseptr (zones s z) + u64 (i * z_chunksize (zones s z))) = chunk_at (zones s z) i.
Proof using Hlo Hn Hhi.
  intros Hsp Hz Hzo Hi. destruct (zone_range lo n mub l g s Hsp z Hz) as (R1 & R2 & _).
  destruct (chunk_fit _ _ _ _ _ _ Hzo i Hi) as (C1 & C2 & _). unfold chunk_at in *.
  pose proof (cc_pos _ _ _ (zo_class _ _ _ _ _ _ Hzo)).
  assert (z + 56 <= z_baseptr (zones s z)).
  { rewrite (zo_base _ _ _ _ _ _ Hzo). pose proof (cc_off _ _ _ (zo_class _ _ _ _ _ _ Hzo)) as Ho.
    unfold sizeof_slab_zone in Ho. lia. }
  rewrite (u64_id (i * _)) by nia. apply u64_id. nia.
Qed.

(** The state on the way of [malloc_zone]. *)
Record taking (s : slab) (z zi uindex : Z) (free : option Z) (used : Z) (s1 : slab) : Prop := {
  tk_frame : frame s s1;
  tk_other : forall x, x <> z -> zones s1 x = zones s x;
  tk_zone : rezone (zones s z) (zones s1 z) (z_nfree (zones s z) - 1) uindex free;
  tk_next : c_next s1 = c_next s;
  tk_free : zone_free s1 = zone_free s;
  tk_cnt : zone_free_cnt s1 = zone_free_cnt s;
  tk_last : z_nfree (zones s z) = 1 ->
    forall i, zone_array s1 i = upd (zone_array s) zi (z_next (zones s z)) i;
  tk_more : z_nfree (zones s z) <> 1 ->
    zone_array s1 = zone_array s /\ z_next (zones s1 z) = z_next (zones s z);
  tk_used : used_mem s1 = used }.

Ltac upd_zone := unfold zone_upd; cbn; rewrite ?upd_eq; try done.
Ltac upd_other := let x := fresh in let Hx := fresh in intros x Hx; unfold zone_upd; cbn; rewrite ?upd_ne by done; try done.

Lemma taking_zone s z zi u free used s1 f u' free' : taking s z zi u free used s1 ->
  rezone (zones s1 z) (f (zones s1 z)) (z_nfree (zones s1 z)) u' free' ->
  z_next (f (zones s1 z)) = z_next (zones s1 z) ->
  taking s z zi u' free' used (zone_upd z f s1).
Proof using.
  clear. intros [F O [R1 R2 R3 R4 R5 R6 R7 R8] C Fr Cn L M U] [Q1 Q2 Q3 Q4 Q5 Q6 Q7 Q8] E. split; try done.
  - by destruct F.
  - intros x Hx. unfold zone_upd. cbn. rewrite upd_ne by done. by apply O.
  - unfold zone_upd. cbn. rewrite upd_eq. split; congruence.
  - intros Hne. destruct (M Hne) as [M1 M2]. split; [done|]. unfold zone_upd. cbn. by rewrite upd_eq, E.
Qed.

Lemma wp_malloc_take {A} l zf g s z zi rest (k : M slab A) (Q : A -> slab -> Prop) : slab_inv lo n mub l zf g s ->
  g_arr g zi = z :: rest -> heap_sem (pages s) = 0 ->
  (forall s1, taking s z zi (z_uindex (zones s z)) (z_freechunk (zones s z)) (used_mem s) s1 ->
    heap_sem (pages s1) = 0 -> wp k Q s1) ->
  wp (modify (zone_upd z (fun h => set_z_nfree (z_nfree h - 1) h));;
      s ← get;
      (if z_nfree (zones s z) =? 0 then
         modify (set_zone_array zi (z_next (zones s z)));;
         modify (zone_upd z (set_z_next None))
       else mret tt);;
      k) Q s.
Proof using.
  clear Hlo Hn Hhi. intros [S1 S2 S3 _ _ _ _] Ez Hsem HQ.
  destruct (lk_in _ _ _ S3 zi z) as (Z1 & Z2 & Z3 & Z4); [rewrite Ez; set_solver|].
  pose proof (ck_zone _ _ S2 z Z1 Z2) as Hzo.
  destruct (zone_counts _ _ _ _ _ _ (sp_size _ _ _ _ _ _ S1) Hzo) as (C1 & C2 & C3).
  assert (E : i32 (z_nfree (zones s z) - 1) = z_nfree (zones s z) - 1) by (apply i32_small; lia).
  wp_steps. unfold zone_upd at 1. cbn [zones set_zones]. rewrite upd_eq. cbn [z_nfree set_z_nfree]. rewrite E.
  destruct (Z.eqb_spec (z_nfree (zones s z) - 1) 0) as [E0|E0]; wp_steps; (apply HQ; [|done]); split; try done;
    unfold zone_upd; cbn; rewrite ?upd_eq; cbn.
  - intros x Hx. by rewrite !upd_ne.
  - split; cbn; by rewrite ?E.
  - by intros.
  - intros; lia.
  - intros x Hx. by rewrite !upd_ne.
  - split; cbn; by rewrite ?E.
  - intros; lia.
  - by intros.
Qed.

Lemma taking_inv l g s z zi rest p fl u free s1 : slab_inv lo n mub l (g_zf g) g s -> g_arr g zi = z :: rest ->
  taking s z zi u free (used_mem s) s1 -> heap_sem (pages s1) = 0 ->
  zone_ok (zone_size s) z (Small z (z_chunksize (zones s z)) p :: g_al g) fl (c_next s) (zones s1 z) ->
  wp (s ← get; modify (mem_used (z_chunksize (zones s z)));; heap_unlock;; mret (Some p))
    (malloced l (g_al g) s (z_chunksize (zones s z))) s1.
Proof using.
  clear Hlo Hn Hhi. intros Hinv Ez [F O R C Fr Cn L M U] Hsem Hzo. pose proof Hinv as [_ _ S3 _ _ _ _].
  destruct (lk_in _ _ _ S3 zi z) as (Z1 & Z2 & Z3 & Z4); [rewrite Ez; set_solver|].
  pose proof R as [R1 R2 R3 R4 R5 R6 R7 R8].
  wp_steps. apply wp_heap_unlock; [done|]. wp_steps.
  set (s2 := with_sem _ 1). set (size := z_chunksize (zones s z)).
  exists z, p, (took g z size p (if decide (z_nfree (zones s z) = 1) then upd (g_arr g) zi rest else g_arr g) fl).
  split_and!; [done| |done|done|apply F..].
  apply (took_inv l _ g s s2 z p _ fl Hinv); try done.
  - destruct F. by split.
  - by apply (links_took _ g s s2 z zi rest).
  - unfold s2. cbn. by rewrite U, R3.
Qed.

Lemma wp_malloc_zone l g s z zi rest : slab_inv lo n mub l (g_zf g) g s -> heap_sem (pages s) = 0 ->
  g_arr g zi = z :: rest ->
  wp (malloc_zone z zi (z_chunksize (zones s z))) (malloced l (g_al g) s (z_chunksize (zones s z))) s.
Proof using Hlo Hn Hhi.
  intros Hinv Hsem Ez. pose proof Hinv as [S1 S2 S3 _ _ _ _].
  destruct (lk_in _ _ _ S3 zi z) as (Z1 & Z2 & Z3 & Z4); [rewrite Ez; set_solver|].
  pose proof (ck_zone _ _ S2 z Z1 Z2) as Hzo.
  destruct (zone_counts _ _ _ _ _ _ (sp_size _ _ _ _ _ _ S1) Hzo) as (C1 & C2 & C3).
  unfold malloc_zone. wp_step. wp_step. wp_step. wp_step; [by apply Z.ltb_lt|].
  apply (wp_malloc_take l (g_zf g) g s z zi rest); [done..|]. intros s1 Ht Hsem1. cbn beta.
  pose proof (tk_zone _ _ _ _ _ _ _ Ht) as [R1 R2 R3 R4 R5 R6 R7 R8].
  wp_step. wp_step. rewrite R7, R5, (i32_small (_ + 1)) by lia.
  destruct (Z.eqb_spec (z_uindex (zones s z) + 1) (z_nmax (zones s z))) as [E|E]; cbn [negb].
  - pose proof (zo_nfree _ _ _ _ _ _ Hzo) as Hnf. pose proof (zo_free _ _ _ _ _ _ Hzo) as Hfr.
    destruct (g_fl g z) as [|p fl] eqn:Efl; [cbn in Hnf; lia|]. destruct Hfr as [Hfr Hfl].
    rewrite R8, Hfr. wp_steps. rewrite (tk_next _ _ _ _ _ _ _ Ht).
    eapply (taking_inv l g s z zi rest p fl _ (c_next s p)); try done.
    + eapply taking_zone; [exact Ht| |done]. by split.
    + unfold zone_upd. cbn. rewrite upd_eq. eapply zone_ok_reuse; [exact Hzo|]. by split.
  - wp_steps. unfold zone_upd at 1 2. cbn [zones set_zones]. rewrite upd_eq.
    cbn [z_baseptr z_uindex set_z_uindex]. rewrite R7, R4, (i32_small (_ + 1)) by lia.
    rewrite (chunk_u64 l g s z _ S1 Z1 Hzo) by lia.
    eapply (taking_inv l g s z zi rest _ (g_fl g z) (z_uindex (zones s z) + 1)); try done.
    + eapply taking_zone; [exact Ht| |done]. split; try done. cbn. by rewrite R7, i32_small by lia.
    + unfold zone_upd. cbn. rewrite upd_eq. eapply zone_ok_virgin; [exact Hzo|done|].
      split; try done. cbn. by rewrite R7, i32_small by lia.
Qed.

(** ** A new zone *)
Definition zoned (g : ghost) (z zi size p : Z) (zf : list Z) : ghost :=
  mkG (Small z size p :: g_al g) (g_zs g) zf (upd (g_arr g) zi (z :: g_arr g zi)) (upd (g_fl g) z []).

Lemma lives_none g s z : chunks_ok g s -> z ∈ g_zf g -> lives z (g_al g) = [].
Proof using.
  clear. intros Hc Hz. 
  destruct (lives z (g_al g)) as [|p ps] eqn:E; [done|exfalso].
  assert (Hp : p ∈ lives z (g_al g)) by (rewrite E; set_solver). apply elem_of_lives in Hp as [size Hp].
  by apply (ck_small _ _ Hc) in Hp as (_ & ? & _).
Qed.

Lemma links_zoned zf g s s' z zi size p : links_ok zf g s -> g_zf g = z :: zf -> z ∉ zf ->
  (forall x, x <> z -> zones s' x = zones s x) ->
  z_zoneindex (zones s' z) = zi -> 0 < z_nfree (zones s' z) -> z_next (zones s' z) = zone_array s zi ->
  (forall i, zone_array s' i = upd (zone_array s) zi (Some z) i) ->
  zone_free s' = zone_free s -> zone_free_cnt s' = zone_free_cnt s ->
  links_ok zf (zoned g z zi size p zf) s'.
Proof using.
  clear. intros [L1 L2 L3 L4 L5 L6 L7' L7 L8 L9] Ez Hz Hzn Hzi Hnf Hnx Ha Hf Hfc.
  assert (Hno : forall i, z ∉ g_arr g i).
  { intros i Hin. destruct (L8 i z Hin) as (_ & Hn' & _). apply Hn'. rewrite Ez. set_solver. }
  assert (Hfr : forall p l, z ∉ l -> zpath (zones s) p l -> zpath (zones s') p l).
  { intros q ls Hq. apply zpath_frame. intros x Hx. rewrite Hzn; [done|]. by intros ->. }
  split; cbn [g_arr g_zf g_zs zoned]; rewrite ?Hf, ?Hfc; try done.
  - intros i. rewrite Ha. destruct (decide (zi = i)) as [<-|Hne].
    + rewrite !upd_eq. split; [done|]. rewrite Hnx. by apply Hfr.
    + rewrite !upd_ne by done. by apply Hfr.
  - by apply Hfr.
  - intros i. destruct (decide (zi = i)) as [<-|Hne]; [rewrite upd_eq|by rewrite upd_ne].
    by apply NoDup_cons.
  - intros x Hx. by apply L7, L7'.
  - intros i x Hx. destruct (decide (x = z)) as [->|Hxz].
    + destruct (decide (zi = i)) as [<-|Hne]; [|rewrite upd_ne in Hx by done; by apply Hno in Hx].
      split_and!; [apply L7; rewrite Ez; set_solver|done..].
    + assert (Hx' : x ∈ g_arr g i).
      { destruct (decide (zi = i)) as [<-|Hne]; [rewrite upd_eq in Hx|by rewrite upd_ne in Hx]. set_solver. }
      destruct (L8 i x Hx') as (? & ? & ? & ?). rewrite Hzn by done. split_and!; [done| |done..]. intros Hin. apply H0. rewrite Ez. by right.
  - intros x Hx Hx'. destruct (decide (x = z)) as [->|Hxz]; [rewrite Hzi, upd_eq; intros _; by left|].
    rewrite Hzn by done. intros Hp. pose proof (L9 x Hx ltac:(rewrite Ez, elem_of_cons; naive_solver) Hp) as H9.
    destruct (decide (zi = z_zoneindex (zones s x))) as [E|Hne]; [rewrite E, upd_eq; by right|by rewrite upd_ne].
Qed.

(** The header of a fresh zone. *)
Record fresh_zone (zsz z zi size : Z) (next : option Z) (h : slab_zone) : Prop := {
  fz_magic : z_magic h = ZALLOC_SLAB_MAGIC;
  fz_nmax : z_nmax h = zone_chunks zsz size;
  fz_nfree : z_nfree h = zone_chunks zsz size - 1;
  fz_next : z_next h = next;
  fz_base : z_baseptr h = z + chunk_off size;
  fz_uindex : z_uindex h = 0;
  fz_size : z_chunksize h = size;
  fz_index : z_zoneindex h = zi;
  fz_free : z_freechunk h = None }.

Lemma zone_chunks_bounds zsz zi size : zsz ∈ zone_sizes -> chunk_class zsz zi size ->
  2 <= zone_chunks zsz size <= 16384 /\ zsz <= 131072.
Proof using.
  clear. intros Hs [_ _ Hp _ Ho _ Hf _]. unfold sizeof_slab_zone in Ho.
  assert (zsz <= 131072) by (unfold zone_sizes in Hs; rewrite !elem_of_cons in Hs;
    destruct Hs as [->|[->|[->|Hs]]]; [lia..|by apply not_elem_of_nil in Hs]).
  unfold zone_chunks. split_and!; [apply Z.div_le_lower_bound; lia|apply Z.div_le_upper_bound; nia|done].
Qed.

Lemma zone_ok_fresh zsz z zi size next al cn h : fresh_zone zsz z zi size next h ->
  zsz ∈ zone_sizes -> chunk_class zsz zi size -> lives z al = [] ->
  zone_ok zsz z (Small z size (z + chunk_off size) :: al) [] cn h.
Proof using.
  clear. intros [F1 F2 F3 F4 F5 F6 F7 F8 F9] Hs Hc Hl. pose proof (zone_chunks_bounds _ _ _ Hs Hc).
  split; rewrite ?F1, ?F2, ?F3, ?F5, ?F6, ?F7, ?F8, ?F9; try done; try lia.
  - rewrite lives_small_eq, Hl. unfold chunk_at. rewrite F5, F7. change (seqZ 0 (0 + 1)) with [0]. cbn [map app]. by rewrite Z.mul_0_l, Z.add_0_r.
  - cbn [length]. lia.
Qed.

Lemma wp_zone_setup l zf g s z zi size : slab_inv lo n mub l zf g s -> g_zf g = z :: zf -> z ∉ zf ->
  heap_sem (pages s) = 0 -> chunk_class (zone_size s) zi size ->
  wp (zone_setup z zi size) (malloced l (g_al g) s size) s.
Proof using Hlo Hn Hhi.
  intros [S1 S2 S3 S4 S5 S6 S7] Ez Hz Hsem Hc.
  assert (Hzs : z ∈ g_zs g) by (apply (lk_zf _ _ _ S3); rewrite Ez; by left).
  destruct (zone_range lo n mub l g s S1 z Hzs) as (R1 & R2 & _).
  pose proof (zone_chunks_bounds _ _ _ (sp_size _ _ _ _ _ _ S1) Hc) as [B1 B2].
  pose proof Hc as [C1 _ C3 _ C5 _ C7 _]. unfold sizeof_slab_zone in C5. unfold NZONES in C1.
  assert (E1 : i32 (u64 (zone_size s - chunk_off size) / size) = zone_chunks (zone_size s) size).
  { rewrite u64_id by lia. fold (zone_chunks (zone_size s) size). apply i32_small. lia. }
  assert (E2 : u64 (z + chunk_off size) = z + chunk_off size) by (apply u64_id; lia).
  assert (E3 : i32 zi = zi) by (apply i32_small; lia).
  assert (E4 : i32 size = size) by (apply i32_small; lia).
  assert (E5 : i32 (zone_chunks (zone_size s) size - 1) = zone_chunks (zone_size s) size - 1) by (apply i32_small; lia).
  unfold zone_setup. wp_steps. apply wp_heap_unlock; [done|]. wp_steps.
  set (s2 := with_sem _ 1).
  assert (Hother : forall x, x <> z -> zones s2 x = zones s x) by (intros x Hx; cbn; by rewrite !upd_ne).
  assert (Hfz : fresh_zone (zone_size s) z zi size (zone_array s zi) (zones s2 z)).
  { unfold s2, zone_upd. cbn. rewrite !upd_eq. cbn. rewrite ?E1, ?E2, ?E3, ?E4, ?E5. by split. }
  exists z, (z + chunk_off size), (zoned g z zi size (z + chunk_off size) zf).
  split_and!; [| |done|done|done|done].
  - f_equal. unfold zone_upd. cbn. rewrite !upd_eq. cbn. rewrite E2. change (i32 0 * size) with 0. change (u64 0) with 0. by rewrite Z.add_0_r, E2.
  - pose proof (lives_none g s z S2 ltac:(rewrite Ez; by left)) as Hl.
    pose proof (zone_ok_fresh _ _ _ _ _ (g_al g) (c_next s2) _ Hfz (sp_size _ _ _ _ _ _ S1) Hc Hl) as Hzo.
    assert (Hlk : links_ok zf (zoned g z zi size (z + chunk_off size) zf) s2).
    { apply (links_zoned zf g s); try done; [apply Hfz| |apply Hfz].
      rewrite (fz_nfree _ _ _ _ _ _ Hfz). lia. }
    split; [| |done| | | |done].
    + apply (space_frame l g _ s); [done|by split|done|done|].
      intros p k. cbn. rewrite elem_of_cons. intros [?|?]; done.
    + apply (chunks_frame g _ s s2 z S2); try done; cbn [g_zs g_zf g_al g_fl zoned].
      * intros x Hx Hx' Hne. split; [done|]. rewrite Ez, elem_of_cons. naive_solver.
      * intros x Hx Hx' Hne. rewrite Hother, upd_ne, lives_small_ne by done.
        split_and!; [apply same_zone_refl|done|done|done].
      * intros _ _. by rewrite upd_eq.
      * intros x size' p'. rewrite elem_of_cons. intros [[= -> -> ->]|Hin].
        -- split_and!; [done|done|apply Hfz].
        -- destruct (ck_small _ _ S2 x size' p' Hin) as (H1 & H2 & H3).
           assert (x <> z) by (intros ->; apply H2; rewrite Ez; by left).
           split_and!; [done| |by rewrite Hother]. intros Hx. apply H2. rewrite Ez. by right.
    + cbn [g_al zoned]. rewrite total_cons. cbn [asize].
      unfold s2, with_sem, mem_used. cbn [used_mem set_pages set_used]. unfold zone_upd. cbn. rewrite !upd_eq. cbn.
      rewrite E4, S4. unfold u64. rewrite Z.add_mod_idemp_l by lia. f_equal. lia.
    + done.
    + done.
Qed.

(** ** Pages *)
Context (fuel : nat).
Hypothesis Hfuel : (Z.to_nat n <= fuel)%nat.

Lemma unlocked_id h : heap_sem h = 1 -> unlocked h = h.
Proof using. clear. destruct h. cbn. by intros ->. Qed.

Lemma wp_page_alloc l g s np (Q : option Z -> slab -> Prop) : 0 < np -> space_ok lo n mub l g s ->
  heap_sem (pages s) = 1 ->
  (forall l' a h', page_inv lo n l' ((a, np) :: page_blocks mub (zone_size s) g) h' ->
    Q (Some (a * 4096)) (set_pages h' s)) ->
  (forall h', page_inv lo n l (page_blocks mub (zone_size s) g) h' -> (forall b k, (b, k) ∈ l -> k < np) ->
    Q None (set_pages h' s)) ->
  wp (page_alloc fuel np) Q s.
Proof using Hn Hfuel.
  clear Hlo Hhi. intros Hnp Hsp Hsem HS HN. unfold page_alloc. apply wp_bind, wp_on_pages.
  pose proof (sp_pages _ _ _ _ _ _ Hsp) as Hp. rewrite unlocked_id in Hp by done.
  eapply wp_mono; [by apply (page_alloc_inv fuel lo n Hn Hfuel np l); [lia|]|].
  intros [a|] h'; cbn [option_map].
  - intros [[l' Hl'] _]. wp_steps. by eapply HS.
  - intros [Hp' Hno]. wp_steps. apply HN; [done|]. apply Hno. lia.
Qed.

Lemma wp_page_free l g s p np rest (Q : unit -> slab -> Prop) : space_ok lo n mub l g s -> heap_sem (pages s) = 1 ->
  p mod 4096 = 0 -> page_blocks mub (zone_size s) g ≡ₚ (p / 4096, np) :: rest ->
  (forall l' h', page_inv lo n l' rest h' -> Q tt (set_pages h' s)) ->
  wp (page_free fuel p np) Q s.
Proof using Hlo Hn Hhi Hfuel.
  intros Hsp Hsem Hp Hperm HQ. unfold page_free.
  pose proof (page_inv_perm _ _ _ _ _ _ Hperm (sp_pages _ _ _ _ _ _ Hsp)) as Hi. rewrite unlocked_id in Hi by done.
  assert (Hpos : 0 < p).
  { destruct (block_in lo n l _ _ (p / 4096, np) Hi) as (H1 & _); [by left|]. cbn in H1. zmod. }
  wp_steps; [|by apply Z.eqb_eq|].
  { apply negb_true_iff, Z.eqb_neq. lia. }
  apply wp_on_pages. eapply wp_mono; [by apply (page_free_inv fuel lo n Hlo Hn Hhi Hfuel 0 (p / 4096) np l ((p / 4096, np) :: rest))|].
  intros [] h' [l' Hl']. by apply (HQ l').
Qed.

(** ** The table of page uses *)
Definition with_usage (mu : Z -> memusage_entry) (s : slab) : slab :=
  mkSlab (pages s) (data s) (zones s) (c_next s) (zone_array s) (zone_free s) (zone_free_cnt s)
    (zone_size s) (zone_limit s) (zone_page_cnt s) (memusage_ptr s) mu (heap_start s) (heap_end s) (used_mem s) (max_mem s).

Lemma wp_zone_usage k : forall off kup s, 0 <= off -> off + Z.of_nat k < 2 ^ 30 ->
  wp (zone_usage off kup k) (fun _ s' => exists mu, s' = with_usage mu s /\
    (forall i, kup <= i < kup + Z.of_nat k -> mu i = mkUsage PAGE_TYPE_SMALL (off + (i - kup))) /\
    (forall i, ~ kup <= i < kup + Z.of_nat k -> mu i = memusage s i)) s.
Proof using.
  clear. induction k as [|k IH]; intros off kup s Hoff Hk; cbn [zone_usage].
  { wp_steps. exists (memusage s). split_and!; [by destruct s|lia|done]. }
  wp_steps. eapply wp_mono; [apply IH; lia|]. intros [] s' (mu & -> & H1 & H2). exists mu.
  assert (E : kup_set PAGE_TYPE_SMALL off = mkUsage PAGE_TYPE_SMALL off).
  { unfold kup_set. f_equal. rewrite Z.mod_small; lia. }
  split_and!; [done|..].
  - intros i Hi. destruct (decide (i = kup)) as [->|Hne].
    + rewrite H2 by lia. cbn. rewrite upd_eq, E. f_equal. lia.
    + rewrite H1 by lia. f_equal. lia.
  - intros i Hi. rewrite H2 by lia. cbn. by rewrite upd_ne by lia.
Qed.

Lemma wp_zone_unusage k : forall kup s,
  wp (zone_unusage kup k) (fun _ s' => exists mu, s' = with_usage mu s /\
    (forall i, ~ kup <= i < kup + Z.of_nat k -> mu i = memusage s i)) s.
Proof using.
  clear. induction k as [|k IH]; intros kup s; cbn [zone_unusage].
  { wp_steps. exists (memusage s). split_and!; [by destruct s|done]. }
  wp_steps. eapply wp_mono; [apply IH; lia|]. intros [] s' (mu & -> & H2). exists mu.
  split_and!; [done|]. intros i Hi. rewrite H2 by lia. cbn. by rewrite upd_ne by lia.
Qed.

(** ** A zone from the page allocator *)
(** Nothing has changed, and no free block has [np] pages. *)
Definition refused (l : list (Z * Z)) (al : list alloc) (s : slab) (np : Z) (r : option Z) (s' : slab) : Prop :=
  r = None /\ (forall b k, (b, k) ∈ l -> k < np) /\ exists g', slab_inv lo n mub l (g_zf g') g' s' /\ g_al g' = al /\
    heap_sem (pages s') = 1 /\ data s' = data s /\ zone_size s' = zone_size s.

(** The ghost state with the zone at [z] on its way. *)
Definition arriving (g : ghost) (z : Z) : ghost :=
  mkG (g_al g) (z :: g_zs g) (z :: g_zf g) (g_arr g) (g_fl g).

Lemma arrived_blocks zsz g a : page_blocks mub zsz (arriving g (a * 4096)) ≡ₚ (a, zsz / 4096) :: page_blocks mub zsz g.
Proof using.
  clear. unfold page_blocks, zone_block. cbn. rewrite Z.div_mul by lia. solve_Permutation.
Qed.

Lemma arrived_space l l' g s a h' mu : space_ok lo n mub l g s ->
  page_inv lo n l' ((a, zone_size s / 4096) :: page_blocks mub (zone_size s) g) (unlocked h') ->
  (forall i, a - lo <= i < a - lo + zone_size s / 4096 -> mu i = mkUsage PAGE_TYPE_SMALL (i - (a - lo))) ->
  (forall i, ~ a - lo <= i < a - lo + zone_size s / 4096 -> mu i = memusage s i) ->
  space_ok lo n mub l' (arriving g (a * 4096)) (with_usage mu (set_pages h' s)).
Proof using.
  clear Hlo Hn Hhi Hfuel. intros Hsp Hp M1 M2. pose proof Hsp as [_ H2 H3 H4 H5 H6 H7 H8 H9].
  destruct (zone_sizes_pages _ H3) as [E1 E2].
  split; cbn [zone_size memusage heap_start zone_limit zone_page_cnt with_usage set_pages pages g_zs g_al arriving]; try done.
  - eapply page_inv_perm; [|exact Hp]. by rewrite arrived_blocks.
  - intros z. rewrite elem_of_cons. intros [->|Hz]; [by apply Z.mod_mul|by apply H6].
  - intros p k Hl. destruct (H7 p k Hl) as [Hm Hu]. split; [done|]. rewrite M2; [done|]. intros Hi.
    assert (Hb : (p / 4096, k) ∈ larges (g_al g)) by (apply elem_of_larges; by exists p).
    assert (Hk : 0 < k).
    { apply (pi_out _ _ _ _ _ Hp (p / 4096) k). unfold page_blocks. rewrite !elem_of_cons, elem_of_app. auto. }
    apply elem_of_Permutation in Hb as [r Hr].
    eapply (block_two lo n (p / 4096) (a, zone_size s / 4096) (p / 4096, k)
      (mub :: map (zone_block (zone_size s)) (g_zs g) ++ r)); [exact Hp| |unfold in_block; cbn; lia..].
    unfold page_blocks. rewrite Hr. solve_Permutation.
  - intros z j. rewrite elem_of_cons. intros [->|Hz] Hj.
    + rewrite Z.div_mul by lia. rewrite M1 by lia. f_equal. lia.
    + rewrite M2; [by apply H8|]. intros Hi. pose proof Hz as Hr. apply elem_of_Permutation in Hr as [r Hr].
      eapply (block_two lo n (z / 4096 + j) (a, zone_size s / 4096) (zone_block (zone_size s) z)
        (mub :: map (zone_block (zone_size s)) r ++ larges (g_al g)));
        [exact Hp| |unfold in_block, zone_block; cbn; lia..].
      unfold page_blocks. rewrite Hr. solve_Permutation.
Qed.

Lemma arrived_new l l' g s a h' : space_ok lo n mub l g s ->
  page_inv lo n l' ((a, zone_size s / 4096) :: page_blocks mub (zone_size s) g) h' -> a * 4096 ∉ g_zs g.
Proof using.
  clear Hlo Hn Hhi Hfuel. intros Hsp Hp Hz. destruct (zone_sizes_pages _ (sp_size _ _ _ _ _ _ Hsp)) as [E1 E2].
  pose proof Hz as Hr. apply elem_of_Permutation in Hr as [r Hr].
  eapply (block_two lo n a (a, zone_size s / 4096) (zone_block (zone_size s) (a * 4096))
    (mub :: map (zone_block (zone_size s)) r ++ larges (g_al g)));
    [exact Hp| |unfold in_block, zone_block; cbn; rewrite ?Z.div_mul by lia; lia..].
  unfold page_blocks. rewrite Hr. solve_Permutation.
Qed.

Lemma arrived_inv l l' g s a h' mu : slab_inv lo n mub l (g_zf g) g s ->
  page_inv lo n l' ((a, zone_size s / 4096) :: page_blocks mub (zone_size s) g) (unlocked h') ->
  (forall i, a - lo <= i < a - lo + zone_size s / 4096 -> mu i = mkUsage PAGE_TYPE_SMALL (i - (a - lo))) ->
  (forall i, ~ a - lo <= i < a - lo + zone_size s / 4096 -> mu i = memusage s i) ->
  slab_inv lo n mub l' (g_zf g) (arriving g (a * 4096)) (with_usage mu (set_pages h' s)) /\ a * 4096 ∉ g_zf g.
Proof using.
  clear Hlo Hn Hhi Hfuel. intros [S1 S2 [L1 L2 L3 L4 L5 L6 L7' L7 L8 L9] S4 S5 S6 S7] Hp M1 M2.
  pose proof (arrived_new _ _ _ _ _ _ S1 Hp) as Hnew.
  assert (Hnf : a * 4096 ∉ g_zf g) by (intros H; by apply Hnew, L7).
  split; [|done]. split; try done.
  - by apply (arrived_space l l' g s a h' mu).
  - apply (chunks_frame g _ s _ (a * 4096) S2); try done; cbn [g_zs g_zf g_al g_fl arriving].
    + intros x. rewrite !elem_of_cons. naive_solver.
    + intros x _ _ _. split_and!; [apply same_zone_refl|done..].
    + intros _ []. by left.
    + intros x size p Hx. destruct (ck_small _ _ S2 x size p Hx) as (H1 & H2 & H3).
      rewrite !elem_of_cons. split_and!; [by right| |done]. intros [->|?]; done.
  - split; try done; cbn [g_zs g_zf arriving].
    + intros z Hz. by right.
    + intros z. rewrite !elem_of_cons. naive_solver.
    + intros i z Hz. destruct (L8 i z Hz) as (H1 & H2 & H3 & H4). rewrite !elem_of_cons.
      split_and!; [by right| |done..]. intros [->|?]; done.
    + intros z. rewrite !elem_of_cons. intros [->|Hz] Hz' Hf; [naive_solver|]. apply L9; [done| |done]. naive_solver.
Qed.

Lemma with_sem_inv l zf g s v : slab_inv lo n mub l zf g s -> slab_inv lo n mub l zf g (with_sem s v).
Proof using. clear. intros [[] [] [] ? ? ? ?]. split; [by split|by split|by split|done..]. Qed.

Lemma malloced_data l al s s' size r s'' : data s' = data s -> zone_size s' = zone_size s ->
  malloced l al s' size r s'' -> malloced l al s size r s''.
Proof using. intros E1 E2 (z & p & g' & ? & ? & ? & ? & ? & ?). exists z, p, g'. split_and!; try done; congruence. Qed.

Lemma wp_malloc_new_zone l g s zi size : slab_inv lo n mub l (g_zf g) g s -> heap_sem (pages s) = 0 ->
  chunk_class (zone_size s) zi size ->
  wp (malloc_new_zone fuel zi size) (fun r s' => (exists l', malloced l' (g_al g) s size r s') \/
    refused l (g_al g) s (zone_size s / 4096) r s') s.
Proof using Hlo Hn Hhi Hfuel.
  intros Hinv Hsem Hc. pose proof Hinv as [S1 S2 S3 S4 S5 S6 S7]. pose proof (lk_free _ _ _ S3) as Hzf.
  destruct (zone_sizes_pages _ (sp_size _ _ _ _ _ _ S1)) as [E1 E2].
  unfold malloc_new_zone. wp_steps. destruct (g_zf g) as [|z zf] eqn:Ef; cbn [zpath] in Hzf.
  - rewrite Hzf. apply wp_bind, wp_heap_unlock; [done|].
    set (s1 := with_sem s 1). assert (Hi1 : slab_inv lo n mub l (g_zf g) g s1) by (rewrite Ef; by apply with_sem_inv).
    apply wp_bind. change RT_MM_PAGE_SIZE with 4096.
    apply (wp_page_alloc l g s1); [lia|apply Hi1|done|..].
    + intros l' a h' Hp. apply wp_bind, wp_heap_lock; [by apply Hp|].
      set (s2 := with_sem _ 0). wp_steps.
      assert (Ha : lo <= a /\ a + zone_size s / 4096 <= lo + n).
      { destruct (block_in lo n l' _ _ (a, zone_size s / 4096) Hp) as (H1 & H2 & _); [by left|done]. }
      assert (Ek : btokup s2 (a * 4096) = a - lo).
      { rewrite (btokup_eq s2 lo), Z.div_mul; [done|lia|apply S1|lia|lia]. }
      rewrite Ek. change (zone_page_cnt s2) with (zone_page_cnt s). rewrite (sp_cnt _ _ _ _ _ _ S1).
      eapply wp_mono; [apply wp_zone_usage; lia|]. intros [] s3 (mu & -> & M1 & M2). rewrite Z2Nat.id in M1, M2 by lia.
      destruct (arrived_inv l l' g s1 a (mkHeap (page_heads h') (rt_page_list h') 0) mu) as [Hi3 Hz3]; [done| |done|done|].
      { rewrite <-(unlocked_id h') in Hp by apply Hp. exact Hp. }
      eapply wp_mono; [by apply (wp_zone_setup l' (g_zf g) (arriving g (a * 4096)))|].
      intros r s' Hm. left. exists l'. by eapply malloced_data; [| |exact Hm].
    + intros h' Hp Hno. wp_steps. right. split_and!; [done|done|]. exists g. split_and!; [|done|apply Hp|done|done].
      destruct Hi1 as [[] [] [] ? ? ? ?]. split; try done. split; try done. cbn. rewrite unlocked_id; [done|apply Hp].
  - destruct Hzf as [Hzf Hrest]. rewrite Hzf. wp_steps.
    pose proof (lk_nodup_free _ _ _ S3) as Hnd. apply NoDup_cons in Hnd as [Hz Hnd].
    eapply wp_mono; [apply (wp_zone_setup l zf g); try done|].
    + destruct S3 as [L1 L2 L3 L4 L5 L6 L7' L7 L8 L9]. split; try done.
      * by destruct S1.
      * by destruct S2.
      * split; try done; cbn [zone_free_cnt zones zone_free set_zone_free].
        -- rewrite L5. cbn [length]. rewrite i32_small; cbn in L6; lia.
        -- cbn in L6. lia.
        -- intros x Hx. apply L7'. by right.
      * cbn in S7. lia.
    + intros r s' Hm. left. exists l. by eapply malloced_data; [| |exact Hm].
Qed.

(** ** Allocation *)
Hypothesis Hn30 : n < 2 ^ 30.

(** A request of [req] bytes got the chunk or the pages it should. *)
Definition served (limit req : Z) (a : alloc) : Prop :=
  match a with
  | Small _ size _ => req < limit /\ req <= size /\
      (if req <? 128 then size < req + 8 else 8 * (size - req) < req) /\
      (is_pow2 req = true -> 8 <= req -> size = req)
  | Large _ k => limit <= req /\ k = (req + 4095) / 4096
  end.

Definition allocated (al : list alloc) (s : slab) (req : Z) (r : option Z) (s' : slab) : Prop :=
  exists l a g, r = Some (aptr a) /\ slab_inv lo n mub l (g_zf g) g s' /\ g_al g = a :: al /\
    served (zone_limit s) req a /\ heap_sem (pages s') = 1 /\ data s' = data s /\ zone_size s' = zone_size s.

(** The pages a failing request of [req] bytes asked for. *)
Definition pages_for (s : slab) (req : Z) : Z :=
  if req <? zone_limit s then zone_size s / 4096 else (req + 4095) / 4096.

Definition malloc_post (l : list (Z * Z)) (al : list alloc) (s : slab) (req : Z) (r : option Z) (s' : slab) : Prop :=
  allocated al s req r s' \/ refused l al s (pages_for s req) r s'.

Lemma large_space l l' g s a k h' i : space_ok lo n mub l g s ->
  page_inv lo n l' ((a, k) :: page_blocks mub (zone_size s) g) (unlocked h') -> 0 < k -> i = a - lo ->
  space_ok lo n mub l' (mkG (Large (a * 4096) k :: g_al g) (g_zs g) (g_zf g) (g_arr g) (g_fl g))
    (set_memusage i (mkUsage PAGE_TYPE_LARGE k) (set_pages h' s)).
Proof using.
  clear Hlo Hn Hhi Hfuel Hn30. intros Hsp Hp Hk ->. pose proof Hsp as [_ H2 H3 H4 H5 H6 H7 H8 H9].
  assert (El : larges (Large (a * 4096) k :: g_al g) = (a, k) :: larges (g_al g)).
  { unfold larges. cbn. by rewrite Z.div_mul by lia. }
  split; cbn [zone_size memusage heap_start zone_limit zone_page_cnt set_memusage set_pages pages g_zs g_al]; try done.
  - eapply page_inv_perm; [|exact Hp]. unfold page_blocks. cbn [g_zs g_al]. rewrite El. solve_Permutation.
  - intros p k'. rewrite elem_of_cons. intros [[= -> ->]|Hl].
    + rewrite Z.div_mul, upd_eq by lia. split; [by apply Z.mod_mul|done].
    + destruct (H7 p k' Hl) as [Hm Hu]. split; [done|]. rewrite upd_ne; [done|]. intros Hi.
      assert (Hb : (p / 4096, k') ∈ larges (g_al g)) by (apply elem_of_larges; by exists p).
      assert (Hk' : 0 < k').
      { apply (pi_out _ _ _ _ _ Hp (p / 4096) k'). unfold page_blocks. rewrite !elem_of_cons, elem_of_app. auto. }
      apply elem_of_Permutation in Hb as [r Hr].
      eapply (block_two lo n (p / 4096) (a, k) (p / 4096, k')
        (mub :: map (zone_block (zone_size s)) (g_zs g) ++ r)); [exact Hp| |unfold in_block; cbn; lia..].
      unfold page_blocks. rewrite Hr. solve_Permutation.
  - intros z j Hz Hj. rewrite upd_ne; [by apply H8|]. intros Hi. pose proof Hz as Hr.
    apply elem_of_Permutation in Hr as [r Hr].
    eapply (block_two lo n (z / 4096 + j) (a, k) (zone_block (zone_size s) z)
      (mub :: map (zone_block (zone_size s)) r ++ larges (g_al g)));
      [exact Hp| |unfold in_block, zone_block; cbn; lia..].
    unfold page_blocks. rewrite Hr. solve_Permutation.
Qed.

Lemma lives_large x p k al : lives x (Large p k :: al) = lives x al.
Proof using. done. Qed.

Lemma wp_malloc_large l g s size : slab_inv lo n mub l (g_zf g) g s -> heap_sem (pages s) = 1 ->
  zone_limit s <= size -> 0 < size < 2 ^ 64 -> wp (malloc_large fuel size) (malloc_post l (g_al g) s size) s.
Proof using Hlo Hn Hhi Hfuel Hn30.
  intros Hinv Hsem Hlim Hsize. pose proof Hinv as [S1 S2 S3 S4 S5 S6 S7]. unfold malloc_large.
  assert (Epf : pages_for s size = (size + 4095) / 4096).
  { unfold pages_for. destruct (Z.ltb_spec size (zone_limit s)); [lia|done]. }
  destruct (decide (size + 4095 < 2 ^ 64)) as [Hov|Hov].
  - rewrite RT_ALIGN_page by lia. set (k := (size + 4095) / 4096).
    assert (Hk : 0 < k) by (unfold k; apply Z.div_str_pos; lia).
    assert (Es : Z.shiftr (4096 * k) RT_MM_PAGE_BITS = k).
    { unfold RT_MM_PAGE_BITS. rewrite Z.shiftr_div_pow2 by lia. change (2 ^ 12) with 4096.
      rewrite Z.mul_comm. by apply Z.div_mul. }
    rewrite Es. apply wp_bind. apply (wp_page_alloc l g s); [done|apply Hinv|done|..].
    + intros l' a h' Hp.
      destruct (block_in lo n l' _ _ (a, k) Hp) as (H1 & H2 & _); [by left|]. cbn in H1, H2.
      assert (Ek : kup_set PAGE_TYPE_LARGE k = mkUsage PAGE_TYPE_LARGE k).
      { unfold kup_set. f_equal. rewrite Z.mod_small; lia. }
      assert (Eb : btokup (set_pages h' s) (a * 4096) = a - lo).
      { rewrite (btokup_eq _ lo), Z.div_mul; [done|lia|apply S1|lia|lia]. }
      wp_step. wp_step. rewrite Ek, Eb. wp_step. wp_step.
      apply wp_bind, wp_heap_lock; [apply Hp|]. wp_steps. apply wp_heap_unlock; [done|]. wp_steps. left.
      exists l', (Large (a * 4096) k), (mkG (Large (a * 4096) k :: g_al g) (g_zs g) (g_zf g) (g_arr g) (g_fl g)).
      split_and!; [done| |done|done|done|done|done]. split; try done.
      * destruct (large_space l l' g s a k h' (a - lo) S1) as [? ? ? ? ? ? ? ? ?]; [|done|done|by split].
        by rewrite unlocked_id by apply Hp.
      * apply (chunks_frame g _ s _ 0 S2); try done.
        -- intros x _ _ _. split_and!; [apply same_zone_refl|done..].
        -- intros Hz Hz'. destruct (ck_zone _ _ S2 0 Hz Hz') as []. by split.
        -- intros x size' p. cbn [g_al]. rewrite elem_of_cons. intros [?|Hx]; [done|]. by apply (ck_small _ _ S2 x size' p).
      * by destruct S3.
      * cbn. rewrite S4, total_cons. cbn [asize]. unfold u64. rewrite Z.add_mod_idemp_l by lia. f_equal. lia.
    + intros h' Hp Hno. wp_steps. right. rewrite Epf. split_and!; [done|done|]. exists g. split_and!; [|done|apply Hp|done|done].
      destruct Hinv as [[] [] [] ? ? ? ?]. split; try done. split; try done. cbn. rewrite unlocked_id; [done|apply Hp].
  - assert (E0 : RT_ALIGN size RT_MM_PAGE_SIZE = 0).
    { unfold RT_ALIGN, RT_ALIGN_DOWN, RT_MM_PAGE_SIZE. replace (size + 4096 - 1) with (size + 4095) by lia.
      change (4096 - 1) with (Z.ones 12). rewrite <-Z.ldiff_land, Z.ldiff_ones_r by lia.
      rewrite Z.shiftr_div_pow2 by lia. change (2 ^ 12) with 4096.
      assert (E : u64 (size + 4095) = size + 4095 - 2 ^ 64).
      { unfold u64. symmetry. apply Z.mod_unique with 1; lia. }
      rewrite E, Z.div_small by lia. done. }
    rewrite E0. change (Z.shiftr 0 RT_MM_PAGE_BITS) with 0. unfold page_alloc. apply wp_bind, wp_bind, wp_on_pages.
    cbn. right. rewrite Epf. split_and!; [done| |].
    + intros b k Hb. assert (Hpk : b + k < 2 ^ 52 /\ 0 < b).
      { destruct (bk_pos _ (pi_ok _ _ _ _ _ (sp_pages _ _ _ _ _ _ S1)) b k Hb) as (? & ? & ?). lia. }
      apply Z.lt_le_trans with (2 ^ 52); [lia|]. apply Z.div_le_lower_bound; lia.
    + exists g. split_and!; [|done..]. by destruct s.
Qed.

Lemma wp_rt_malloc l g s size : slab_inv lo n mub l (g_zf g) g s -> heap_sem (pages s) = 1 -> 0 < size < 2 ^ 64 ->
  wp (rt_malloc fuel size) (malloc_post l (g_al g) s size) s.
Proof using Hlo Hn Hhi Hfuel Hn30.
  intros Hinv Hsem Hsize. pose proof Hinv as [S1 S2 S3 S4 S5 S6 S7]. unfold rt_malloc.
  destruct (Z.eqb_spec size 0); [lia|].
  assert (Hl : 0 < zone_limit s <= 16384).
  { rewrite (sp_limit _ _ _ _ _ _ S1). pose proof (sp_size _ _ _ _ _ _ S1) as Hz. unfold zone_sizes in Hz.
    rewrite !elem_of_cons in Hz. destruct Hz as [->|[->|[->|Hz]]]; [vm_compute; by split..|by apply not_elem_of_nil in Hz]. }
  wp_step. wp_step. rewrite u64_id by lia. destruct (Z.leb_spec (zone_limit s) size) as [Hle|Hlt].
  { by apply (wp_malloc_large l g). }
  apply wp_bind, wp_heap_lock; [done|].
  destruct (zoneindex_class (zone_size s) size) as (zi & csize & Ezi & Hc & Hcs & Hwaste & Hpow);
    [apply S1|rewrite <-(sp_limit _ _ _ _ _ _ S1); lia|].
  rewrite Ezi. pose proof (cc_index _ _ _ Hc). wp_steps; [apply Z.ltb_lt; lia|].
  set (s1 := with_sem s 0). assert (Hi1 : slab_inv lo n mub l (g_zf g) g s1) by by apply with_sem_inv.
  assert (Hserved : forall z p, served (zone_limit s) size (Small z csize p)) by done.
  assert (Hpost : forall l' r s', malloced l' (g_al g) s1 csize r s' -> allocated (g_al g) s size r s').
  { intros l' r s' (z & p & g' & -> & Hi & Ea & Hs & Ed & Esz). exists l', (Small z csize p), g'. by split_and!. }
  pose proof (lk_arr _ _ _ (si_links _ _ _ _ _ _ _ Hi1) zi) as Ha.
  destruct (g_arr g zi) as [|z rest] eqn:Earr; cbn [zpath] in Ha.
  - rewrite Ha. eapply wp_mono; [apply (wp_malloc_new_zone l g s1 zi csize); done|]. intros r s' [[l' HM]|HM].
    + left. by eapply Hpost.
    + right. unfold pages_for. destruct (Z.ltb_spec size (zone_limit s)); [done|lia].
  - destruct Ha as [-> _].
    assert (Ec : csize = z_chunksize (zones s1 z)).
    { destruct (lk_in _ _ _ (si_links _ _ _ _ _ _ _ Hi1) zi z) as (Z1 & Z2 & Z3 & _); [rewrite Earr; by left|].
      pose proof (ck_zone _ _ (si_chunks _ _ _ _ _ _ _ Hi1) z Z1 Z2) as Hzo.
      rewrite (cc_size _ _ _ Hc), (cc_size _ _ _ (zo_class _ _ _ _ _ _ Hzo)). by rewrite Z3. }
    rewrite Ec. eapply wp_mono; [by apply (wp_malloc_zone l g s1 z zi rest)|]. rewrite <-Ec. intros r s' HM.
    left. by eapply Hpost.
Qed.

(** ** Release of a chunk *)
Lemma lives_delete x z size p i al : al !! i = Some (Small z size p) ->
  lives x al ≡ₚ (if decide (x = z) then [p] else []) ++ lives x (delete i al).
Proof using.
  clear. intros Hi. rewrite (lives_perm x _ _ (delete_Permutation al i _ Hi)). case_decide as Hd.
  - subst x. by rewrite lives_small_eq.
  - by rewrite lives_small_ne.
Qed.

Lemma larges_delete z size p i al : al !! i = Some (Small z size p) -> larges al = larges (delete i al).
Proof using.
  clear. revert i. induction al as [|a al IH]; intros [|i] Hi; try done.
  - cbn in Hi. by injection Hi as ->.
  - cbn in Hi. unfold larges in *. cbn. by rewrite (IH i Hi).
Qed.

Lemma total_delete i a al : al !! i = Some a -> total al = asize a + total (delete i al).
Proof using. clear. intros Hi. by rewrite (total_perm _ _ (delete_Permutation al i a Hi)). Qed.

Lemma elem_of_delete {A} i (x : A) (k : list A) : x ∈ delete i k -> x ∈ k.
Proof using. clear. rewrite delete_take_drop, elem_of_app. intros [H|H]; [by eapply elem_of_take in H as (? & H & _); eapply list_elem_of_lookup_2|by eapply subseteq_drop]. Qed.

(** The ghost state when the chunk [p] of [z] is given back. *)
Definition released (g : ghost) (i : nat) (z p : Z) (arr : Z -> list Z) : ghost :=
  mkG (delete i (g_al g)) (g_zs g) (g_zf g) arr (upd (g_fl g) z (p :: g_fl g z)).

Lemma zone_ok_released zsz z size p i al fl cn h h' : zone_ok zsz z al fl cn h ->
  al !! i = Some (Small z size p) -> z_chunksize h = size -> rezone h h' (z_nfree h + 1) (z_uindex h) (Some p) ->
  zone_ok zsz z (delete i al) (p :: fl) (upd cn p (z_freechunk h)) h'.
Proof using.
  clear. intros Hz Hi Es [R1 R2 R3 R4 R5 R6 R7 R8]. pose proof (chunks_nodup _ _ _ _ _ _ Hz) as Hnd.
  pose proof (lives_delete z z size p i al Hi) as Hl. rewrite decide_True in Hl by done.
  destruct Hz as [H1 H2 H3 H4 H5 H6 H7 H8].
  split; rewrite ?R1, ?R2, ?R3, ?R4, ?R5, ?R6, ?R7, ?R8; try done.
  - split; [done|]. rewrite upd_eq. apply (cpath_frame cn); [|done]. intros c Hc. apply upd_ne. intros ->.
    rewrite Hl in Hnd. apply NoDup_app in Hnd as (_ & Hd & _). apply (Hd c); [by left|done].
  - rewrite (list_fmap_ext (chunk_at h') (chunk_at h)); [rewrite <-H7, Hl; solve_Permutation|].
    intros j x _. unfold chunk_at. by rewrite R3, R4.
  - rewrite H8. cbn [length]. lia.
Qed.

Lemma released_inv l g s s' i z size p arr : slab_inv lo n mub l (g_zf g) g s ->
  g_al g !! i = Some (Small z size p) -> frame s s' ->
  (forall x, x <> z -> zones s' x = zones s x) ->
  rezone (zones s z) (zones s' z) (z_nfree (zones s z) + 1) (z_uindex (zones s z)) (Some p) ->
  (forall c, c_next s' c = upd (c_next s) p (z_freechunk (zones s z)) c) ->
  links_ok (g_zf g) (released g i z p arr) s' -> used_mem s' = u64 (used_mem s - size) ->
  slab_inv lo n mub l (g_zf g) (released g i z p arr) s'.
Proof using.
  clear Hlo Hn Hhi Hfuel Hn30. intros [S1 S2 S3 S4 S5 S6 S7] Hi Hfr Hzn Hrz Hcn Hlk Hus.
  pose proof (list_elem_of_lookup_2 _ _ _ Hi) as Hin. destruct (ck_small _ _ S2 z size p Hin) as (Z1 & Z2 & Z3).
  pose proof (ck_zone _ _ S2 z Z1 Z2) as Hzo.
  assert (Hp : z <= p < z + zone_size s).
  { apply (chunk_range _ _ _ _ _ _ Hzo). apply elem_of_app. left. apply elem_of_lives. by exists size. }
  split; [| |done| | | |done].
  - apply (space_frame l g _ s); try done; cbn [g_al g_zs released].
    + symmetry. by eapply larges_delete.
    + intros q k. apply elem_of_delete.
  - apply (chunks_frame g _ s s' z S2); try done; cbn [g_al g_zs g_zf g_fl released].
    + apply Hfr.
    + intros x Hx Hx' Hne. rewrite Hzn, upd_ne by done. split_and!; [apply same_zone_refl| |done|].
      * rewrite (lives_delete x z size p i (g_al g) Hi). by rewrite decide_False by done.
      * intros q Hq. rewrite Hcn. apply upd_ne. intros <-. apply Hne.
        apply (zone_unique lo n mub l g s S1 x z p); try done.
        apply (chunk_range _ _ _ _ _ _ (ck_zone _ _ S2 x Hx Hx')). apply elem_of_app. by right.
    + intros _ _. rewrite upd_eq.
      pose proof (zone_ok_released _ _ _ _ _ _ _ _ _ _ Hzo Hi Z3 Hrz) as [H1 H2 H3 H4 H5 H6 H7 H8].
      split; try done. by apply (cpath_frame (upd (c_next s) p (z_freechunk (zones s z)))).
    + intros x size' p' Hx%elem_of_delete. destruct (ck_small _ _ S2 x size' p' Hx) as (H1 & H2 & H3).
      split_and!; [done..|]. destruct (decide (x = z)) as [->|Hne]; [|by rewrite Hzn].
      by rewrite (rz_size _ _ _ _ _ Hrz).
  - rewrite Hus, S4. cbn [g_al released]. rewrite (total_delete i _ _ Hi). cbn [asize]. unfold u64.
    rewrite Zminus_mod_idemp_l. f_equal. lia.
  - by rewrite (fr_data _ _ Hfr).
  - by rewrite (fr_data _ _ Hfr).
Qed.

Lemma links_released g s s' i z p : links_ok (g_zf g) g s -> z ∈ g_zs g -> z ∉ g_zf g ->
  0 <= z_nfree (zones s z) ->
  (forall x, x <> z -> zones s' x = zones s x) ->
  z_zoneindex (zones s' z) = z_zoneindex (zones s z) -> z_nfree (zones s' z) = z_nfree (zones s z) + 1 ->
  zone_free s' = zone_free s -> zone_free_cnt s' = zone_free_cnt s ->
  let zi := z_zoneindex (zones s z) in
  (z_nfree (zones s z) = 0 -> z_next (zones s' z) = zone_array s zi /\
    forall j, zone_array s' j = upd (zone_array s) zi (Some z) j) ->
  (z_nfree (zones s z) <> 0 -> z_next (zones s' z) = z_next (zones s z) /\ zone_array s' = zone_array s) ->
  links_ok (g_zf g) (released g i z p
    (if decide (z_nfree (zones s z) = 0) then upd (g_arr g) zi (z :: g_arr g zi) else g_arr g)) s'.
Proof using.
  clear Hlo Hn Hhi Hfuel Hn30. intros [L1 L2 L3 L4 L5 L6 L7' L7 L8 L9] Hz Hzf Hnn Hzn Hzi Hnf Hf Hfc zi H0 H1.
  assert (Hfr : forall q k, z ∉ k -> zpath (zones s) q k -> zpath (zones s') q k).
  { intros q k Hq. apply zpath_frame. intros x Hx. rewrite Hzn; [done|]. by intros ->. }
  case_decide as Hd.
  - destruct (H0 Hd) as [E1 E2].
    assert (Hno : forall j, z ∉ g_arr g j).
    { intros j Hin. destruct (L8 j z Hin) as (_ & _ & _ & Hp). lia. }
    split; cbn [g_arr g_zf g_zs released]; rewrite ?Hf, ?Hfc; try done.
    + intros j. rewrite E2. destruct (decide (zi = j)) as [<-|Hne].
      * rewrite !upd_eq. split; [done|]. rewrite E1. by apply Hfr.
      * rewrite !upd_ne by done. by apply Hfr.
    + by apply Hfr.
    + intros j. destruct (decide (zi = j)) as [<-|Hne]; [rewrite upd_eq; by apply NoDup_cons|by rewrite upd_ne].
    + intros j x Hx. destruct (decide (x = z)) as [->|Hxz].
      * destruct (decide (zi = j)) as [<-|Hne]; [|rewrite upd_ne in Hx by done; by apply Hno in Hx].
        split_and!; try done. lia.
      * assert (Hx' : x ∈ g_arr g j).
        { destruct (decide (zi = j)) as [<-|Hne]; [rewrite upd_eq in Hx|by rewrite upd_ne in Hx].
          apply elem_of_cons in Hx as [?|?]; done. }
        rewrite Hzn by done. by apply L8.
    + intros x Hx Hx'. destruct (decide (x = z)) as [->|Hxz]; [rewrite Hzi; intros _; rewrite upd_eq; by left|].
      rewrite Hzn by done. intros Hp. pose proof (L9 x Hx Hx' Hp) as H9.
      destruct (decide (zi = z_zoneindex (zones s x))) as [E|Hne]; [rewrite E, upd_eq; by right|by rewrite upd_ne].
  - destruct (H1 Hd) as [E1 E2]. assert (Hnx : forall x, z_next (zones s' x) = z_next (zones s x)).
    { intros x. destruct (decide (x = z)) as [->|Hne]; [done|by rewrite Hzn]. }
    split; cbn [g_arr g_zf g_zs released]; rewrite ?Hf, ?Hfc, ?E2; try done.
    + intros j. by apply (zpath_frame (zones s)).
    + by apply (zpath_frame (zones s)).
    + intros j x Hx. destruct (L8 j x Hx) as (? & ? & ? & ?).
      destruct (decide (x = z)) as [->|Hne]; [rewrite Hzi, Hnf|rewrite Hzn by done]; split_and!; try done; lia.
    + intros x Hx Hx'. destruct (decide (x = z)) as [->|Hne]; [rewrite Hzi; intros _; apply L9; [done..|lia]|].
      rewrite Hzn by done. by apply L9.
Qed.

(** ** Retiring a zone *)
Definition link_after (pz : zlink) (l1 : list Z) : zlink :=
  match last l1 with Some y => ZNext y | None => pz end.

Lemma link_after_cons pz y l1 : link_after pz (y :: l1) = link_after (ZNext y) l1.
Proof using. clear. unfold link_after. destruct l1 as [|x l1]; [done|]. rewrite last_cons_cons. by destruct (last (x :: l1)) eqn:E; [|apply last_None in E]. Qed.

Lemma wp_zone_unlink z s l1 : forall f l2 pz, zpath (zones s) (zload pz s) (l1 ++ z :: l2) -> z ∉ l1 ->
  (length l1 <= f)%nat ->
  wp (zone_unlink f pz z) (fun _ s' => s' = zstore (link_after pz l1) (z_next (zones s z)) s) s.
Proof using.
  clear. induction l1 as [|y l1 IH]; intros f l2 pz Hp Hz Hf; destruct f as [|f]; cbn [length] in Hf; try lia;
    cbn [zone_unlink app zpath] in *; destruct Hp as [Hy Hp]; wp_steps; rewrite Hy.
  - rewrite Z.eqb_refl. by wp_steps.
  - rewrite Z.eqb_refl. by wp_steps.
  - destruct (Z.eqb_spec y z) as [->|Hne]; [exfalso; apply Hz; by left|].
    rewrite link_after_cons. apply (IH f l2); [done| |lia]. intros Hin. apply Hz. by right.
Qed.

Lemma zpath_mid zn p l1 z l2 : zpath zn p (l1 ++ z :: l2) -> zpath zn (z_next (zn z)) l2.
Proof using. clear. revert p. induction l1 as [|y l1 IH]; intros p [_ H]; [done|]. by eapply IH. Qed.

(** The lists of zones after the removal of [z]. *)
Lemma zstore_path s zi z l1 l2 : zpath (zones s) (zone_array s zi) (l1 ++ z :: l2) -> NoDup (l1 ++ z :: l2) ->
  let s' := zstore (link_after (ZoneArray zi) l1) (z_next (zones s z)) s in
  zpath (zones s') (zone_array s' zi) (l1 ++ l2) /\
  (forall j, j <> zi -> zone_array s' j = zone_array s j) /\
  (forall x, same_zone (zones s x) (zones s' x)) /\ (forall x, x ∉ l1 -> zones s' x = zones s x).
Proof using.
  clear. intros Hp Hnd. unfold link_after. destruct (decide (l1 = [])) as [->|Hne].
  - cbn. rewrite upd_eq. split_and!; [by destruct Hp| |by intros; apply same_zone_refl|done].
    intros j Hj. by apply upd_ne.
  - destruct (exists_last Hne) as (l1' & y & ->). rewrite last_snoc. cbn [zstore]. unfold zone_upd.
    cbn [zones zone_array set_zones]. rewrite <-app_assoc in *. cbn [app] in *.
    assert (Hy : y ∉ l1').
    { apply NoDup_app in Hnd as (_ & Hd & _). intros Hin. apply (Hd y Hin). by left. }
    assert (Hy2 : y ∉ l2).
    { apply NoDup_app in Hnd as (_ & _ & Hd). apply NoDup_cons in Hd as [Hd _]. intros Hin. apply Hd. by right. }
    split_and!; [|done|..].
    + revert Hp Hy. generalize (zone_array s zi) as q. clear Hne. induction l1' as [|x l1' IH]; intros q [Hq Hp] Hy.
      * cbn [app zpath]. split; [done|]. rewrite upd_eq. cbn [z_next set_z_next].
        destruct Hp as [_ Hp]. apply (zpath_frame (zones s)); [|done]. intros x Hx. rewrite upd_ne; [done|]. by intros ->.
      * cbn [app zpath]. split; [done|]. rewrite upd_ne by (intros ->; apply Hy; by left).
        apply IH; [|done|]; [|intros Hin; apply Hy; by right].
        cbn [app] in Hnd. apply NoDup_cons in Hnd as [_ Hnd]. done.
    + intros x. destruct (decide (y = x)) as [<-|Hx]; [rewrite upd_eq; done|rewrite upd_ne by done; apply same_zone_refl].
    + intros x Hx. apply upd_ne. intros ->. apply Hx. rewrite elem_of_app. right. by left.
Qed.

Definition retired (g : ghost) (z zi : Z) (rest : list Z) : ghost :=
  mkG (g_al g) (g_zs g) (z :: g_zf g) (upd (g_arr g) zi rest) (g_fl g).

(** The state after the moves of [zone_retire]. *)
Definition retire_state (s : slab) (z zi : Z) (l1 : list Z) : slab :=
  let s1 := zstore (link_after (ZoneArray zi) l1) (z_next (zones s z)) s in
  let s2 := zone_upd z (set_z_magic (-1)) s1 in
  set_zone_free (Some z) (zone_free_cnt s2 + 1) (zone_upd z (set_z_next (zone_free s2)) s2).

Lemma retire_inv l g s z l1 l2 : slab_inv lo n mub l (g_zf g) g s -> z ∈ g_zs g -> z ∉ g_zf g ->
  lives z (g_al g) = [] -> let zi := z_zoneindex (zones s z) in g_arr g zi = l1 ++ z :: l2 ->
  let s' := retire_state s z zi l1 in let g' := retired g z zi (l1 ++ l2) in
  space_ok lo n mub l g' s' /\ chunks_ok g' s' /\ links_ok (z :: g_zf g) g' s' /\
  used_mem s' = used_mem s /\ data s' = data s /\ zone_size s' = zone_size s /\ pages s' = pages s.
Proof using.
  clear Hlo Hn Hhi Hfuel Hn30. intros [S1 S2 S3 S4 S5 S6 S7] Hz Hzf Hlv zi Ea s' g'.
  pose proof S3 as [L1 L2 L3 L4 L5 L6 L7' L7 L8 L9].
  pose proof (L1 zi) as Hpath. pose proof (L3 zi) as Hnd. rewrite Ea in Hpath, Hnd.
  destruct (zstore_path s zi z l1 l2 Hpath Hnd) as (P1 & P2 & P3 & P4).
  set (s1 := zstore (link_after (ZoneArray zi) l1) (z_next (zones s z)) s) in *.
  assert (Hrest : z ∉ l1 ++ l2).
  { rewrite <-Permutation_middle in Hnd. by apply NoDup_cons in Hnd as [? _]. }
  assert (Hs1 : pages s1 = pages s /\ data s1 = data s /\ c_next s1 = c_next s /\ zone_free s1 = zone_free s /\
    zone_free_cnt s1 = zone_free_cnt s /\ memusage s1 = memusage s /\ used_mem s1 = used_mem s /\
    zone_size s1 = zone_size s /\ zone_limit s1 = zone_limit s /\ zone_page_cnt s1 = zone_page_cnt s /\
    heap_start s1 = heap_start s /\ memusage_ptr s1 = memusage_ptr s).
  { unfold s1, link_after. by destruct (last l1). }
  destruct Hs1 as (E1 & E2 & E3 & E4 & E5 & E6 & E7 & E8 & E9 & E10 & E11 & E12).
  assert (Hzn : forall x, x <> z -> zones s' x = zones s1 x).
  { intros x Hx. unfold s', retire_state, zone_upd. cbn. by rewrite !upd_ne. }
  assert (Hza : zone_array s' = zone_array s1) by done.
  assert (Hone : forall j, j <> zi -> z ∉ g_arr g j).
  { intros j Hj Hin. destruct (L8 j z Hin) as (_ & _ & <- & _). done. }
  assert (Hfr : forall q k, z ∉ k -> zpath (zones s1) q k -> zpath (zones s') q k).
  { intros q k Hk. apply zpath_frame. intros x Hx. rewrite Hzn; [done|]. by intros ->. }
  assert (Hl1 : forall x, x ∈ l1 -> x ∉ g_zf g).
  { intros x Hx. apply (L8 zi x). rewrite Ea, elem_of_app. by left. }
  split_and!; [| | |done..].
  - apply (space_frame l g _ s); try done. split; try done. change (unlocked (pages s1) = unlocked (pages s)). by rewrite E1.
  - apply (chunks_frame g _ s s' z S2); cbn [g_zs g_zf g_al g_fl retired g']; try done.
    + intros x Hx Hx' _. split; [done|]. intros Hin. apply Hx'. by right.
    + intros x _ _ Hx. rewrite Hzn by done. split_and!; [apply P3|done|done|].
      intros p _. change (c_next s1 p = c_next s p). by rewrite E3.
    + intros _ []. by left.
    + intros x size p Hx. destruct (ck_small _ _ S2 x size p Hx) as (H1 & H2 & H3).
      assert (Hne : x <> z).
      { intros ->. assert (p ∈ lives z (g_al g)) as Hin by (apply elem_of_lives; by exists size). rewrite Hlv in Hin.
        by apply not_elem_of_nil in Hin. }
      split_and!; [done|rewrite elem_of_cons; naive_solver|]. rewrite Hzn by done. rewrite <-H3. by rewrite (P3 x).
  - split; cbn [g_arr g_zf g_zs retired g']; try done.
    + intros j. rewrite Hza. destruct (decide (zi = j)) as [<-|Hne].
      * rewrite upd_eq. by apply Hfr.
      * rewrite upd_ne, P2 by done. apply Hfr; [by apply Hone|].
        apply (zpath_frame (zones s)); [|apply L1]. intros x Hx. rewrite P4; [done|]. intros Hx1.
        destruct (L8 j x Hx) as (_ & _ & Hi & _). destruct (L8 zi x) as (_ & _ & Hi' & _); [rewrite Ea, elem_of_app; by left|].
        congruence.
    + split; [done|]. unfold s' at 2, retire_state, zone_upd. cbn [zones set_zone_free set_zones]. rewrite upd_eq.
      cbn [z_next set_z_next]. change (zone_free (set_zones _ _)) with (zone_free s1). rewrite E4. apply Hfr; [done|].
      apply (zpath_frame (zones s)); [|done]. intros x Hx. rewrite P4; [done|]. intros Hx1. by apply (Hl1 x).
    + intros j. destruct (decide (zi = j)) as [<-|Hne]; [rewrite upd_eq|by rewrite upd_ne].
      rewrite <-Permutation_middle in Hnd. by apply NoDup_cons in Hnd as [_ ?].
    + by apply NoDup_cons.
    + change (zone_free_cnt s') with (i32 (zone_free_cnt s1 + 1)). rewrite E5, L5. cbn [length]. rewrite i32_small by lia. lia.
    + cbn. lia.
    + intros x. rewrite elem_of_cons. intros [->|Hx]; [done|by apply L7].
    + intros j x Hx. assert (Hx' : x ∈ g_arr g j /\ x <> z).
      { destruct (decide (zi = j)) as [<-|Hne].
        - rewrite upd_eq in Hx. rewrite Ea. split; [|by intros ->]. rewrite elem_of_app in Hx |- *.
          rewrite elem_of_cons. tauto.
        - rewrite upd_ne in Hx by done. split; [done|]. intros ->. by apply (Hone j). }
      destruct Hx' as [Hx' Hne]. destruct (L8 j x Hx') as (H1 & H2 & H3 & H4). rewrite Hzn, (P3 x) by done.
      split_and!; try done. rewrite elem_of_cons. naive_solver.
    + intros x Hx Hx'. assert (Hne : x <> z) by (intros ->; apply Hx'; by left).
      rewrite Hzn, (P3 x) by done. cbn [z_nfree z_zoneindex set_z_next]. intros Hp.
      assert (Hx2 : x ∉ g_zf g) by (intros H; apply Hx'; by right).
      pose proof (L9 x Hx Hx2 Hp) as H9.
      destruct (decide (zi = z_zoneindex (zones s x))) as [E|Hd]; [|by rewrite upd_ne].
      rewrite E, upd_eq. rewrite <-E, Ea in H9. rewrite elem_of_app, elem_of_cons in H9. rewrite elem_of_app. naive_solver.
Qed.

Definition freed (al : list alloc) (s s' : slab) : Prop :=
  exists l g, slab_inv lo n mub l (g_zf g) g s' /\ g_al g = al /\ heap_sem (pages s') = 1 /\
    data s' = data s /\ zone_size s' = zone_size s.

(** The zone leaves the heap. *)
Definition departed (g : ghost) (z : Z) (zf : list Z) : ghost :=
  mkG (g_al g) (remove_elt z (g_zs g)) zf (g_arr g) (g_fl g).

Lemma departed_blocks zsz g z zf : z ∈ g_zs g -> NoDup (g_zs g) ->
  page_blocks mub zsz g ≡ₚ zone_block zsz z :: page_blocks mub zsz (departed g z zf).
Proof using.
  clear. intros Hz Hnd. unfold page_blocks. cbn [g_zs g_al departed].
  apply elem_of_Permutation in Hz as [r Hr]. rewrite Hr in Hnd.
  assert (E : remove_elt z (g_zs g) ≡ₚ r).
  { unfold remove_elt. rewrite Hr. by rewrite <-(remove_elt_head z r Hnd) at 2. }
  rewrite E, Hr. cbn. solve_Permutation.
Qed.

Lemma departed_inv l l' g s z zf mu h' : space_ok lo n mub l g s -> chunks_ok g s -> links_ok zf g s ->
  used_mem s = u64 (total (g_al g)) -> mapped (data s) (lo * 4096) (n * 4096) -> bytes_ok (data s) ->
  (length zf <= 2)%nat -> g_zf g = z :: zf -> z ∉ zf ->
  (forall i, ~ z / 4096 - lo <= i < z / 4096 - lo + zone_size s / 4096 -> mu i = memusage s i) ->
  page_inv lo n l' (page_blocks mub (zone_size s) (departed g z zf)) (unlocked h') ->
  slab_inv lo n mub l' zf (departed g z zf) (with_usage mu (set_pages h' s)).
Proof using.
  clear Hlo Hn Hhi Hfuel Hn30. intros S1 S2 [L1 L2 L3 L4 L5 L6 L7' L7 L8 L9] S4 S5 S6 S7 Ez Hz M Hp.
  pose proof (zones_nodup _ _ _ _ _ _ S1) as Hnd. pose proof S1 as [P0 H2 H3 H4 H5 H6 H7 H8 H9].
  assert (Hzs : z ∈ g_zs g) by (apply L7; rewrite Ez; by left).
  pose proof (page_inv_perm _ _ _ _ _ _ (departed_blocks (zone_size s) g z zf Hzs Hnd) P0) as P1.
  assert (Hin : forall x, x ∈ remove_elt z (g_zs g) <-> x <> z /\ x ∈ g_zs g) by (intros x; apply elem_of_remove_elt).
  split; try done.
  - split; cbn [zone_size memusage heap_start zone_limit zone_page_cnt with_usage set_pages pages g_zs g_al departed]; try done.
    + intros x Hx. apply Hin in Hx as [_ Hx]. by apply H6.
    + intros p k Hl. destruct (H7 p k Hl) as [Hm Hu]. split; [done|]. rewrite M; [done|]. intros Hi.
      assert (Hb : (p / 4096, k) ∈ larges (g_al g)) by (apply elem_of_larges; by exists p).
      assert (Hk : 0 < k).
      { apply (pi_out _ _ _ _ _ Hp (p / 4096) k). unfold page_blocks. rewrite elem_of_cons, elem_of_app. auto. }
      apply elem_of_Permutation in Hb as [r Hr].
      eapply (block_two lo n (p / 4096) (zone_block (zone_size s) z) (p / 4096, k)
        (mub :: map (zone_block (zone_size s)) (remove_elt z (g_zs g)) ++ r));
        [exact P1| |unfold in_block, zone_block; cbn; lia..].
      unfold page_blocks. cbn [g_zs g_al departed]. rewrite Hr. solve_Permutation.
    + intros x j Hx Hj. apply Hin in Hx as [Hne Hx]. rewrite M; [by apply H8|]. intros Hi. apply Hne.
      apply (zone_unique lo n mub l g s S1 x z ((x / 4096 + j) * 4096)); try done.
      * destruct (zone_range lo n mub l g s S1 x Hx) as (_ & _ & E). destruct (zone_sizes_pages _ H3). lia.
      * destruct (zone_range lo n mub l g s S1 z Hzs) as (_ & _ & E). destruct (zone_sizes_pages _ H3). lia.
  - apply (chunks_frame g _ s _ z S2); try done; cbn [g_zs g_zf g_al g_fl departed].
    + intros x Hx Hx' Hne. apply Hin in Hx as [_ Hx]. split; [done|]. rewrite Ez, elem_of_cons. naive_solver.
    + intros x _ _ _. split_and!; [apply same_zone_refl|done..].
    + intros Hx. by apply Hin in Hx as [? _].
    + intros x size p Hx. destruct (ck_small _ _ S2 x size p Hx) as (Z1 & Z2 & Z3).
      rewrite Ez, elem_of_cons in Z2. rewrite Hin. naive_solver.
  - split; try done; cbn [g_zs g_zf g_arr departed].
    + intros x Hx. apply Hin. split; [by intros ->|]. by apply L7, L7'.
    + intros i x Hx. destruct (L8 i x Hx) as (Z1 & Z2 & Z3 & Z4). rewrite Ez, elem_of_cons in Z2.
      rewrite Hin. naive_solver.
    + intros x Hx Hx' Hp'. apply Hin in Hx as [Hne Hx]. apply L9; [done| |done].
      rewrite Ez, elem_of_cons. naive_solver.
Qed.

Lemma wp_zone_retire l g s z : slab_inv lo n mub l (g_zf g) g s -> heap_sem (pages s) = 0 ->
  z ∈ g_arr g (z_zoneindex (zones s z)) -> lives z (g_al g) = [] ->
  wp (zone_retire fuel z) (fun _ s' => freed (g_al g) s s') s.
Proof using Hlo Hn Hhi Hfuel Hn30.
  intros Hinv Hsem Hz Hlv. pose proof Hinv as [S1 S2 S3 S4 S5 S6 S7].
  destruct (lk_in _ _ _ S3 _ z Hz) as (Z1 & Z2 & _ & _). pose proof (lk_nodup _ _ _ S3) as Hnd.
  pose proof Hz as Hsplit. apply list_elem_of_split in Hsplit as (l1 & l2 & Ea).
  assert (Hz1 : z ∉ l1).
  { specialize (Hnd (z_zoneindex (zones s z))). rewrite Ea in Hnd. apply NoDup_app in Hnd as (_ & Hd & _).
    intros Hin. apply (Hd z Hin). by left. }
  assert (Hlen : (length l1 <= fuel)%nat).
  { transitivity (length (g_arr g (z_zoneindex (zones s z)))); [rewrite Ea, length_app; lia|].
    transitivity (length (g_zs g)); [|transitivity (Z.to_nat n); [by apply (zones_few lo n mub l g s)|done]].
    apply submseteq_length, NoDup_submseteq; [apply Hnd|]. intros x Hx. by apply (lk_in _ _ _ S3) in Hx as [? _]. }
  unfold zone_retire. wp_step. wp_step. apply wp_bind. eapply wp_mono.
  { apply (wp_zone_unlink z s l1 fuel l2 (ZoneArray (z_zoneindex (zones s z)))); [|done|done].
    cbn [zload]. rewrite <-Ea. apply S3. }
  intros [] s1 ->. wp_step. wp_step. wp_step. wp_step. wp_step. wp_step. wp_step. wp_step. wp_step. wp_step.
  match goal with |- wp _ _ ?x => set (s2 := x) end.
  destruct (retire_inv l g s z l1 l2 Hinv Z1 Z2 Hlv Ea) as (R1 & R2 & R3 & R4 & R5 & R6 & R7).
  change (retire_state s z (z_zoneindex (zones s z)) l1) with s2 in *.
  set (g2 := retired g z (z_zoneindex (zones s z)) (l1 ++ l2)) in *.
  pose proof (lk_cnt _ _ _ R3) as Hcnt. rewrite Hcnt. unfold ZONE_RELEASE_THRESH. cbn [length].
  destruct (Z.ltb_spec 2 (Z.of_nat (S (length (g_zf g))))) as [Hbig|Hsmall].
  - pose proof (lk_free _ _ _ R3) as [Hf1 Hf2]. unfold zone_release. wp_steps. apply (wp_ofopt _ z); [done|]. wp_steps.
    match goal with |- context [set_zone_free ?a ?b s2] => set (s3 := set_zone_free a b s2) end.
    destruct (zone_range lo n mub l g s S1 z Z1) as (B1 & B2 & B3).
    destruct (zone_sizes_pages _ (sp_size _ _ _ _ _ _ S1)) as [E0 E0'].
    assert (Ek : btokup s2 z = z / 4096 - lo).
    { apply btokup_eq; [apply R1|lia|lia]. }
    rewrite Ek. rewrite (sp_cnt _ _ _ _ _ _ R1).
    destruct (zone_sizes_pages _ (sp_size _ _ _ _ _ _ R1)) as [E1 E2].
    eapply wp_mono; [apply wp_zone_unusage|]. intros [] s4 (mu & -> & M). rewrite Z2Nat.id in M by lia.
    change (memusage s3) with (memusage s2) in M.
    apply wp_bind, wp_heap_unlock; [change (heap_sem (pages s2) = 0); by rewrite R7|].
    change RT_MM_PAGE_SIZE with 4096.
    assert (L3 : links_ok (g_zf g) g2 s3).
    { destruct R3 as [L1 L2 L3 L4 L5 L6 L7' L7 L8 L9]. split; try done.
      - by apply NoDup_cons in L4 as [_ ?].
      - change (zone_free_cnt s3) with (i32 (zone_free_cnt s2 - 1)). rewrite L5. cbn [length] in *.
        rewrite i32_small by lia. lia.
      - cbn [length] in L6. lia.
      - intros x Hx. apply L7'. by right. }
    assert (Hdep : forall l' h', page_inv lo n l' (page_blocks mub (zone_size s2) (departed g2 z (g_zf g))) (unlocked h') ->
      slab_inv lo n mub l' (g_zf g) (departed g2 z (g_zf g)) (with_usage mu (set_pages h' s3))).
    { intros l' h' Hp. apply (departed_inv l l' g2 s3); try done.
      - destruct R1. by split.
      - destruct R2. by split.
      - change (used_mem s2 = u64 (total (g_al g))). by rewrite R4.
      - change (mapped (data s2) (lo * 4096) (n * 4096)). by rewrite R5.
      - change (bytes_ok (data s2)). by rewrite R5. }
    match goal with |- context [with_sem ?a 1] => set (s5 := with_sem a 1) end.
    assert (R1' : page_inv lo n l (page_blocks mub (zone_size s2) g2) (pages s5)).
    { rewrite <-(unlocked_id (pages s5)) by done. exact (sp_pages _ _ _ _ _ _ R1). }
    pose proof (departed_blocks (zone_size s2) g2 z (g_zf g) Z1 (zones_nodup _ _ _ _ _ _ R1)) as Hperm.
    unfold page_free. apply wp_bind, wp_assert; [apply negb_true_iff, Z.eqb_neq; lia|].
    apply wp_bind, wp_assert; [apply Z.eqb_eq; apply (sp_zs _ _ _ _ _ _ R1 z Z1)|].
    apply wp_on_pages. eapply wp_mono.
    { apply (page_free_inv fuel lo n Hlo Hn Hhi Hfuel 0 (z / 4096) (zone_size s2 / 4096) l
        (zone_block (zone_size s2) z :: page_blocks mub (zone_size s2) (departed g2 z (g_zf g)))); [done|].
      by eapply page_inv_perm. }
    intros [] h' [l' Hl']. cbn [delete list_delete] in Hl'.
    exists l', (departed g2 z (g_zf g)). split_and!; [|done|by apply Hl'|exact R5|exact R6].
    apply (Hdep l' h'). rewrite unlocked_id by apply Hl'. exact Hl'.
  - apply wp_heap_unlock; [by rewrite R7|]. exists l, g2. split_and!; [|done|done|exact R5|exact R6].
    apply with_sem_inv. split; try done; [by rewrite R4|by rewrite R5|by rewrite R5|cbn; lia].
Qed.

(** ** Release *)
(** The second half of [free_small]: the chunk is back in the zone. *)
Lemma wp_free_finish l g s s2 i z size p arr : slab_inv lo n mub l (g_zf g) g s ->
  g_al g !! i = Some (Small z size p) ->
  slab_inv lo n mub l (g_zf g) (released g i z p arr) s2 -> heap_sem (pages s2) = 0 ->
  data s2 = data s -> zone_size s2 = zone_size s ->
  wp (s ← get;
      let h := zones s z in
      if (z_nfree h =? z_nmax h) &&
         (bool_decide (z_next h <> None) || bool_decide (zone_array s (z_zoneindex h) <> Some z))
      then zone_retire fuel z else heap_unlock)
    (fun _ s' => freed (delete i (g_al g)) s s') s2.
Proof using Hlo Hn Hhi Hfuel Hn30.
  intros Hinv Hi Hinv2 Hsem Ed Es. pose proof (list_elem_of_lookup_2 _ _ _ Hi) as Hin.
  destruct (ck_small _ _ (si_chunks _ _ _ _ _ _ _ Hinv) z size p Hin) as (Z1 & Z2 & _).
  pose proof (ck_zone _ _ (si_chunks _ _ _ _ _ _ _ Hinv2) z Z1 Z2) as Hzo.
  assert (Hfreed : forall s', freed (delete i (g_al g)) s2 s' -> freed (delete i (g_al g)) s s').
  { intros s' (l' & g' & ? & ? & ? & ? & ?). exists l', g'. split_and!; try done; congruence. }
  wp_step. wp_step. cbn zeta.
  destruct (Z.eqb_spec (z_nfree (zones s2 z)) (z_nmax (zones s2 z))) as [E|E]; cbn [andb]; [destruct (_ || _); cbn beta|].
  - pose proof (chunks_count _ _ _ _ _ _ Hzo) as Hc. pose proof (zo_uindex _ _ _ _ _ _ Hzo).
    eapply wp_mono; [apply (wp_zone_retire l (released g i z p arr) s2 z Hinv2 Hsem)|].
    + apply (lk_has _ _ _ (si_links _ _ _ _ _ _ _ Hinv2)); [done|done|lia].
    + apply nil_length_inv. lia.
    + intros [] s' H'. by apply Hfreed.
  - apply wp_heap_unlock; [done|]. exists l, (released g i z p arr). split_and!; try done. by apply with_sem_inv.
  - apply wp_heap_unlock; [done|]. exists l, (released g i z p arr). split_and!; try done. by apply with_sem_inv.
Qed.

Lemma small_place l g s z size p : slab_inv lo n mub l (g_zf g) g s -> Small z size p ∈ g_al g ->
  page_of p = 4096 * (p / 4096) /\ btokup s (page_of p) = p / 4096 - lo /\
  memusage s (p / 4096 - lo) = mkUsage PAGE_TYPE_SMALL (p / 4096 - z / 4096) /\
  u64 (page_of p - i32 ((p / 4096 - z / 4096) * 4096)) = z.
Proof using Hlo Hn Hhi.
  clear Hfuel Hn30. intros [S1 S2 S3 _ _ _ _] Hin. destruct (ck_small _ _ S2 z size p Hin) as (Z1 & Z2 & Z3).
  pose proof (ck_zone _ _ S2 z Z1 Z2) as Hzo. destruct (zone_range lo n mub l g s S1 z Z1) as (R1 & R2 & R3).
  assert (Hp : z <= p < z + zone_size s).
  { apply (chunk_range _ _ _ _ _ _ Hzo). apply elem_of_app. left. apply elem_of_lives. by exists size. }
  destruct (zone_page lo n mub l g s S1 z p Z1 Hp) as [H1 _].
  assert (Epo : page_of p = 4096 * (p / 4096)) by (apply page_of_eq; lia).
  assert (Hdiv : 4096 * (p / 4096) <= p) by (apply Z.mul_div_le; lia).
  split_and!; [done|..].
  - rewrite Epo, (btokup_eq s lo); [|apply S1| |lia].
    + rewrite Z.mul_comm, Z.div_mul by lia. done.
    + split; [|lia]. lia.
  - rewrite <-(sp_small _ _ _ _ _ _ S1 z (p / 4096 - z / 4096)) by done. f_equal. lia.
  - pose proof (zone_sizes_pages _ (sp_size _ _ _ _ _ _ S1)). rewrite Epo, i32_small by lia. rewrite u64_id; lia.
Qed.

Lemma wp_free_small l g s i z size p : slab_inv lo n mub l (g_zf g) g s -> heap_sem (pages s) = 1 ->
  g_al g !! i = Some (Small z size p) ->
  wp (free_small fuel p (p / 4096 - lo)) (fun _ s' => freed (delete i (g_al g)) s s') s.
Proof using Hlo Hn Hhi Hfuel Hn30.
  intros Hinv Hsem Hi. pose proof (list_elem_of_lookup_2 _ _ _ Hi) as Hin. pose proof Hinv as [S1 S2 S3 S4 S5 S6 S7].
  destruct (ck_small _ _ S2 z size p Hin) as (Z1 & Z2 & Z3). pose proof (ck_zone _ _ S2 z Z1 Z2) as Hzo.
  destruct (small_place l g s z size p Hinv Hin) as (_ & _ & Emu & Ez).
  destruct (zone_counts _ _ _ _ _ _ (sp_size _ _ _ _ _ _ S1) Hzo) as (C1 & C2 & C3).
  pose proof (chunks_count _ _ _ _ _ _ Hzo) as Hcount.
  assert (Hlt : z_nfree (zones s z) < z_nmax (zones s z)).
  { assert (Hp : p ∈ lives z (g_al g)) by (apply elem_of_lives; by exists size).
    destruct (lives z (g_al g)); [by apply not_elem_of_nil in Hp|]. cbn [length] in Hcount. lia. }
  unfold free_small. apply wp_bind, wp_heap_lock; [done|]. wp_step. wp_step.
  change (memusage (with_sem s 0)) with (memusage s). rewrite Emu. cbn [mu_size].
  change RT_MM_PAGE_SIZE with 4096. rewrite Ez.
  assert (E : i32 (z_nfree (zones s z) + 1) = z_nfree (zones s z) + 1) by (apply i32_small; lia).
  wp_steps; [exact (proj2 (Z.eqb_eq _ _) (zo_magic _ _ _ _ _ _ Hzo))|].
  change (zones (with_sem s 0) z) with (zones s z).
  pose proof (links_released g s) as Hlink.
  destruct (Z.eqb_spec (z_nfree (zones s z)) 0) as [E0|E0]; wp_steps.
  all: match goal with |- wp _ _ ?x => set (s2 := x) end.
  all: assert (Hrz : rezone (zones s z) (zones s2 z) (z_nfree (zones s z) + 1) (z_uindex (zones s z)) (Some p))
    by (unfold s2, zone_upd; cbn; rewrite ?upd_eq; cbn; rewrite ?upd_eq, ?E; by split).
  all: assert (Hother : forall x, x <> z -> zones s2 x = zones s x)
    by (intros x Hx; unfold s2, zone_upd; cbn; by rewrite !upd_ne).
  all: specialize (Hlink s2 i z p S3 Z1 Z2 ltac:(lia) Hother (rz_index _ _ _ _ _ Hrz) (rz_nfree _ _ _ _ _ Hrz) eq_refl eq_refl).
  all: cbn zeta in Hlink.
  - eapply (wp_free_finish l g s s2 i z size p); try done.
    apply (released_inv l g s s2 i z size p); try done.
    + apply Hlink; [|done]. intros _. split; [|done]. unfold s2, zone_upd. cbn. rewrite !upd_eq. by cbn.
    + unfold s2, mem_unused. cbn. by rewrite Z3.
  - eapply (wp_free_finish l g s s2 i z size p); try done.
    apply (released_inv l g s s2 i z size p); try done.
    + apply Hlink; [done|]. intros _. split; [|done]. unfold s2, zone_upd. cbn. rewrite !upd_eq. by cbn.
    + unfold s2, mem_unused. cbn. by rewrite Z3.
Qed.

Lemma larges_delete_large p k i al : al !! i = Some (Large p k) -> larges al ≡ₚ (p / 4096, k) :: larges (delete i al).
Proof using. clear. intros Hi. by rewrite (larges_perm _ _ (delete_Permutation al i _ Hi)). Qed.
Lemma lives_delete_large x p k i al : al !! i = Some (Large p k) -> lives x al ≡ₚ lives x (delete i al).
Proof using. clear. intros Hi. by rewrite (lives_perm x _ _ (delete_Permutation al i _ Hi)). Qed.

Definition without (g : ghost) (i : nat) : ghost := mkG (delete i (g_al g)) (g_zs g) (g_zf g) (g_arr g) (g_fl g).

Lemma without_blocks zsz g i p k : g_al g !! i = Some (Large p k) ->
  page_blocks mub zsz g ≡ₚ (p / 4096, k) :: page_blocks mub zsz (without g i).
Proof using.
  clear. intros Hi. unfold page_blocks. cbn [g_zs g_al without]. rewrite (larges_delete_large _ _ _ _ Hi). solve_Permutation.
Qed.

Lemma without_inv l l' g s i p k mu h' : slab_inv lo n mub l (g_zf g) g s -> g_al g !! i = Some (Large p k) ->
  (forall j, j <> p / 4096 - lo -> mu j = memusage s j) ->
  page_inv lo n l' (page_blocks mub (zone_size s) (without g i)) (unlocked h') ->
  slab_inv lo n mub l' (g_zf g) (without g i)
    (set_used (u64 (used_mem s - k * 4096)) (max_mem s) (with_usage mu (set_pages h' s))).
Proof using.
  clear Hlo Hn Hhi Hfuel Hn30. intros [S1 S2 S3 S4 S5 S6 S7] Hi M Hp. pose proof S1 as [P0 H2 H3 H4 H5 H6 H7 H8 H9].
  pose proof (page_inv_perm _ _ _ _ _ _ (without_blocks (zone_size s) g i p k Hi) P0) as P1.
  assert (Hk : 0 < k) by (apply (pi_out _ _ _ _ _ P1 (p / 4096) k); by left).
  destruct (zone_sizes_pages _ H3) as [E1 E2].
  split; try done.
  - split; cbn [zone_size memusage heap_start zone_limit zone_page_cnt with_usage set_used set_pages pages g_zs g_al without]; try done.
    + intros q j Hq. destruct (H7 q j (elem_of_delete _ _ _ Hq)) as [Hm Hu]. split; [done|].
      rewrite M; [done|]. intros Hj.
      assert (Hb : (q / 4096, j) ∈ larges (delete i (g_al g))) by (apply elem_of_larges; by exists q).
      assert (Hk' : 0 < j).
      { apply (pi_out _ _ _ _ _ Hp (q / 4096) j). unfold page_blocks. rewrite elem_of_cons, elem_of_app. auto. }
      apply elem_of_Permutation in Hb as [r Hr].
      eapply (block_two lo n (p / 4096) (p / 4096, k) (q / 4096, j)
        (mub :: map (zone_block (zone_size s)) (g_zs g) ++ r)); [exact P1| |unfold in_block; cbn; lia..].
      unfold page_blocks. cbn [g_zs g_al without]. rewrite Hr. solve_Permutation.
    + intros z j Hz Hj. rewrite M; [by apply H8|]. intros E. pose proof Hz as Hr. apply elem_of_Permutation in Hr as [r Hr].
      eapply (block_two lo n (p / 4096) (p / 4096, k) (zone_block (zone_size s) z)
        (mub :: map (zone_block (zone_size s)) r ++ larges (delete i (g_al g))));
        [exact P1| |unfold in_block, zone_block; cbn; lia..].
      unfold page_blocks. cbn [g_zs g_al without]. rewrite Hr. solve_Permutation.
  - apply (chunks_frame g _ s _ 0 S2); try done; cbn [g_zs g_zf g_al g_fl without].
    + intros x _ _ _. split_and!; [apply same_zone_refl|symmetry; by eapply lives_delete_large|done..].
    + intros Hz Hz'. destruct (ck_zone _ _ S2 0 Hz Hz') as [? ? ? ? ? ? Hc ?]. split; try done.
      by rewrite <-(lives_delete_large 0 p k i _ Hi).
    + intros x size q Hx%elem_of_delete. by apply (ck_small _ _ S2 x size q).
  - by destruct S3.
  - cbn. rewrite S4, (total_delete i _ _ Hi). cbn [asize]. unfold u64. rewrite Zminus_mod_idemp_l. f_equal. lia.
Qed.

Lemma large_place l g s p k : slab_inv lo n mub l (g_zf g) g s -> Large p k ∈ g_al g ->
  page_of p = p /\ btokup s p = p / 4096 - lo /\ memusage s (p / 4096 - lo) = mkUsage PAGE_TYPE_LARGE k /\
  p mod 4096 = 0 /\ lo * 4096 <= p /\ p + k * 4096 <= (lo + n) * 4096 /\ 0 < k.
Proof using Hlo Hn Hhi.
  clear Hfuel Hn30. intros [S1 _ _ _ _ _ _] Hin. destruct (sp_large _ _ _ _ _ _ S1 p k Hin) as [Hm Hu].
  assert (Hb : (p / 4096, k) ∈ page_blocks mub (zone_size s) g).
  { unfold page_blocks. rewrite elem_of_cons, elem_of_app. right. right. apply elem_of_larges. by exists p. }
  destruct (block_in _ _ _ _ _ _ (sp_pages _ _ _ _ _ _ S1) Hb) as (H1 & H2 & H3). cbn in H1, H2, H3.
  assert (E : p = 4096 * (p / 4096)) by zmod.
  split_and!; try done; try lia.
  - rewrite page_of_eq; lia.
  - apply btokup_eq; [apply S1|lia|lia].
Qed.

Lemma wp_free_large l g s i p k : slab_inv lo n mub l (g_zf g) g s -> heap_sem (pages s) = 1 ->
  g_al g !! i = Some (Large p k) ->
  wp (free_large fuel p (p / 4096 - lo)) (fun _ s' => freed (delete i (g_al g)) s s') s.
Proof using Hlo Hn Hhi Hfuel.
  clear Hn30. intros Hinv Hsem Hi. pose proof (list_elem_of_lookup_2 _ _ _ Hi) as Hin.
  destruct (large_place l g s p k Hinv Hin) as (_ & _ & Emu & Hm & Hlo' & Hhi' & Hk).
  unfold free_large. apply wp_bind, wp_heap_lock; [done|]. wp_step. wp_step.
  change (memusage (with_sem s 0)) with (memusage s). rewrite Emu. cbn [mu_size mu_type].
  wp_steps. apply wp_heap_unlock; [done|]. match goal with |- wp _ _ ?x => set (s2 := x) end.
  pose proof (sp_pages _ _ _ _ _ _ (si_space _ _ _ _ _ _ _ Hinv)) as Hp.
  apply (page_inv_perm _ _ _ _ _ _ (without_blocks (zone_size s) g i p k Hi)) in Hp.
  unfold page_free. wp_steps; [apply negb_true_iff, Z.eqb_neq; lia|by apply Z.eqb_eq|].
  apply wp_on_pages. eapply wp_mono.
  { apply (page_free_inv fuel lo n Hlo Hn Hhi Hfuel 0 (p / 4096) k l
      ((p / 4096, k) :: page_blocks mub (zone_size s) (without g i))); [done|].
    rewrite <-(unlocked_id (pages s2)) by done. exact Hp. }
  intros [] h' [l' Hl']. cbn [delete list_delete] in Hl'.
  exists l', (without g i). split_and!; [|done|by apply Hl'|done|done].
  apply (without_inv l l' g s i p k (memusage s2) h' Hinv Hi).
  - intros j Hj. unfold s2. cbn. apply upd_ne. congruence.
  - rewrite unlocked_id by apply Hl'. exact Hl'.
Qed.

Lemma wp_rt_free l g s i a : slab_inv lo n mub l (g_zf g) g s -> heap_sem (pages s) = 1 -> g_al g !! i = Some a ->
  wp (rt_free fuel (Some (aptr a))) (fun _ s' => freed (delete i (g_al g)) s s') s.
Proof using Hlo Hn Hhi Hfuel Hn30.
  intros Hinv Hsem Hi. pose proof (list_elem_of_lookup_2 _ _ _ Hi) as Hin. unfold rt_free. wp_step. wp_step.
  destruct a as [z size p|p k]; cbn [aptr].
  - destruct (small_place l g s z size p Hinv Hin) as (_ & Eb & Emu & _). rewrite Eb, Emu. cbn [mu_type].
    by apply (wp_free_small l g s i z size p).
  - destruct (large_place l g s p k Hinv Hin) as (Ep & Eb & Emu & _). rewrite Ep, Eb, Emu. cbn [mu_type].
    by apply (wp_free_large l g s i p k).
Qed.
End steps.
