(* ===== verification/SlabProps.v ===== *)
(** The properties of the heap: in every history of calls no byte belongs to two
    live allocations, or to an allocation and to the data of the allocator. *)
From S2P Require Import Prelude Page PageProps KMem KMemProps Slab SlabInv SlabOps.

(** * Who owns which bytes *)
Definition live_region (a : alloc) : Z * Z := (aptr a, asize a).
Definition in_bytes (bk : Z * Z) : Z * Z := (bk.1 * 4096, bk.2 * 4096).
Definition chunk_regions (size : Z) (ps : list Z) : list (Z * Z) := map (fun p => (p, size)) ps.
(** The header of a zone and its free chunks; a zone kept for reuse has none. *)
Definition zone_regions (g : ghost) (s : slab) (z : Z) : list (Z * Z) :=
  (z, sizeof_slab_zone) ::
  chunk_regions (z_chunksize (zones s z)) (if decide (z ∈ g_zf g) then [] else g_fl g z).

(** The data of the allocator in the zones, the free pages and the table of page
    uses. *)
Definition own_regions (mub : Z * Z) (l : list (Z * Z)) (g : ghost) (s : slab) : list (Z * Z) :=
  concat (map (zone_regions g s) (g_zs g)) ++ map in_bytes l ++ [in_bytes mub].
Definition regions (mub : Z * Z) (l : list (Z * Z)) (g : ghost) (s : slab) : list (Z * Z) :=
  map live_region (g_al g) ++ own_regions mub l g s.

Lemma inb_bytes x bk : inb x (in_bytes bk) = inb (x / 4096) bk.
Proof.
  unfold inb, in_bytes. cbn [fst snd]. f_equal.
  destruct (Z.leb_spec (bk.1 * 4096) x), (Z.ltb_spec x (bk.1 * 4096 + bk.2 * 4096)),
    (Z.leb_spec bk.1 (x / 4096)), (Z.ltb_spec (x / 4096) (bk.1 + bk.2)); cbn; try done; zmod.
Qed.

Lemma cover_cons x bk k : cover x (bk :: k) = (inb x bk + cover x k)%nat.
Proof. done. Qed.

Lemma cover_bytes x l : cover x (map in_bytes l) = cover (x / 4096) l.
Proof. induction l as [|b l IH]; [done|]. unfold cover in *. cbn. by rewrite IH, inb_bytes. Qed.

(** Chunks that follow each other make one block. *)
Lemma cover_chunks x base size m : 0 <= m -> 0 <= size ->
  cover x (chunk_regions size (map (fun i => base + i * size) (seqZ 0 m))) = inb x (base, m * size).
Proof.
  intros Hm Hs. revert m Hm. apply natlike_ind; [rewrite Z.mul_0_l; change (0%nat = inb x (base, 0)); inb_lia|]. intros m Hm IH.
  unfold chunk_regions in *. rewrite <-Z.add_1_r, seqZ_snoc, !map_app, cover_app, IH by lia.
  cbn [map]. replace ((m + 1) * size) with (m * size + size) by lia.
  assert (0 <= m * size) by nia. generalize dependent (m * size). intros. inb_lia.
Qed.

Section cover.
Context (lo n : Z) (mub : Z * Z) (l : list (Z * Z)) (g : ghost) (s : slab).
Hypotheses (Hinv : slab_inv lo n mub l (g_zf g) g s).
Let Hsp := si_space _ _ _ _ _ _ _ Hinv.
Let Hck := si_chunks _ _ _ _ _ _ _ Hinv.

Lemma zone_cover x z : z ∈ g_zs g ->
  (cover x (zone_regions g s z) + cover x (chunk_regions (z_chunksize (zones s z)) (lives z (g_al g))) <=
   inb x (z, zone_size s))%nat.
Proof using Hinv.
  intros Hz. unfold zone_regions. destruct (zone_sizes_pages _ (sp_size _ _ _ _ _ _ Hsp)) as [E1 E2].
  case_decide as Hf.
  - rewrite (lives_none g s z Hck Hf). cbn. unfold sizeof_slab_zone. inb_lia.
  - pose proof (ck_zone _ _ Hck z Hz Hf) as Hzo. set (h := zones s z) in *.
    assert (E : cover x (chunk_regions (z_chunksize h) (lives z (g_al g) ++ g_fl g z)) =
      inb x (z_baseptr h, (z_uindex h + 1) * z_chunksize h)).
    { rewrite <-cover_chunks; [|pose proof (zo_uindex _ _ _ _ _ _ Hzo); lia|
        pose proof (cc_pos _ _ _ (zo_class _ _ _ _ _ _ Hzo)); lia].
      apply cover_perm. unfold chunk_regions. apply Permutation_map. apply Hzo. }
    unfold chunk_regions in *. rewrite map_app, cover_app in E.
    rewrite cover_cons.
    pose proof (zo_uindex _ _ _ _ _ _ Hzo) as Hu. destruct (chunk_fit _ _ _ _ _ _ Hzo (z_uindex h) Hu) as (F1 & _ & _).
    destruct (chunk_fit _ _ _ _ _ _ Hzo 0 ltac:(lia)) as (_ & F2 & _). unfold chunk_at in F1, F2.
    rewrite Z.mul_0_l, Z.add_0_r in F2. replace ((z_uindex h + 1) * z_chunksize h) with (z_uindex h * z_chunksize h + z_chunksize h) in E by lia.
    generalize dependent (z_uindex h * z_chunksize h). intros q Eq Fq.
    enough (inb x (z, sizeof_slab_zone) + inb x (z_baseptr h, (q + z_chunksize h)%Z) <= inb x (z, zone_size s))%nat by lia.
    clear Eq. unfold sizeof_slab_zone. inb_lia.
Qed.

Lemma sum_upd {A} `{EqDecision A} (f f' : A -> nat) (z : A) c zs : NoDup zs -> z ∈ zs ->
  (forall x, x <> z -> f' x = f x) -> f' z = (c + f z)%nat ->
  sum_list_with f' zs = (c + sum_list_with f zs)%nat.
Proof using.
  clear. intros Hnd Hz Hne Hf. induction zs as [|y zs IH]; [by apply not_elem_of_nil in Hz|].
  apply NoDup_cons in Hnd as [Hy Hnd]. cbn. apply elem_of_cons in Hz as [->|Hz].
  - rewrite Hf. enough (E : sum_list_with f' zs = sum_list_with f zs) by lia.
    clear -Hy Hne. induction zs as [|w zs IH]; [done|]. cbn. rewrite Hne by (intros ->; apply Hy; by left).
    f_equal. apply IH. intros H. apply Hy. by right.
  - rewrite (Hne y) by (intros ->; done). rewrite IH by done. lia.
Qed.

(** The live regions, zone by zone. *)
Lemma live_cover x (zs : list Z) (size : Z -> Z) al : NoDup zs ->
  (forall z sz p, Small z sz p ∈ al -> z ∈ zs /\ sz = size z) ->
  (forall p k, Large p k ∈ al -> p mod 4096 = 0) ->
  cover x (map live_region al) =
    (sum_list_with (fun z => cover x (chunk_regions (size z) (lives z al))) zs + cover (x / 4096) (larges al))%nat.
Proof using.
  clear. intros Hnd. induction al as [|a al IH]; intros Hs Hl.
  { assert (E : sum_list_with (fun z => cover x (chunk_regions (size z) (lives z []))) zs = 0%nat)
      by (clear; induction zs as [|z zs IH]; [done|]; cbn [sum_list_with]; by rewrite IH).
    by rewrite E. }
  cbn [map]. rewrite cover_cons, IH; [|intros z sz p Hp; apply (Hs z sz p); by right|intros p k Hp; apply (Hl p k); by right].
  destruct a as [z sz p|p k].
  - destruct (Hs z sz p) as [Hz ->]; [by left|].
    rewrite (sum_upd (fun z => cover x (chunk_regions (size z) (lives z al)))
      (fun y => cover x (chunk_regions (size y) (lives y (Small z (size z) p :: al)))) z (inb x (p, size z))); try done.
    + unfold larges. cbn [omap list_omap large_block]. unfold live_region. cbn [aptr asize]. lia.
    + intros y Hy. by rewrite lives_small_ne.
    + by rewrite lives_small_eq.
  - assert (Ep : inb x (live_region (Large p k)) = inb (x / 4096) (p / 4096, k)).
    { rewrite <-inb_bytes. unfold live_region, in_bytes. cbn. do 2 f_equal. specialize (Hl p k ltac:(by left)). zmod. }
    rewrite Ep. assert (El : larges (Large p k :: al) = (p / 4096, k) :: larges al) by done. rewrite El.
    rewrite cover_cons. assert (Ev : forall z, lives z (Large p k :: al) = lives z al) by done.
    enough (sum_list_with (fun z => cover x (chunk_regions (size z) (lives z al))) zs =
      sum_list_with (fun z => cover x (chunk_regions (size z) (lives z (Large p k :: al)))) zs) by lia. done.
Qed.

Lemma cover_concat x (f : Z -> list (Z * Z)) zs : cover x (concat (map f zs)) = sum_list_with (fun z => cover x (f z)) zs.
Proof using. clear. induction zs as [|z zs IH]; [done|]. cbn [map concat sum_list_with]. by rewrite cover_app, IH. Qed.

Lemma zones_cover x zs : (forall z, z ∈ zs -> z ∈ g_zs g) ->
  (sum_list_with (fun z => cover x (zone_regions g s z)) zs +
   sum_list_with (fun z => cover x (chunk_regions (z_chunksize (zones s z)) (lives z (g_al g)))) zs <=
   cover (x / 4096) (map (zone_block (zone_size s)) zs))%nat.
Proof using Hinv.
  destruct (zone_sizes_pages _ (sp_size _ _ _ _ _ _ Hsp)) as [E1 E2].
  induction zs as [|z zs IH]; intros Hin; [done|].
  assert (Hz : z ∈ g_zs g) by (apply Hin; by left). pose proof (zone_cover x z Hz) as H.
  specialize (IH ltac:(intros y Hy; apply Hin; by right)). cbn [sum_list_with map].
  rewrite cover_cons. assert (Eb : inb x (z, zone_size s) = inb (x / 4096) (zone_block (zone_size s) z)).
  { rewrite <-inb_bytes. unfold in_bytes, zone_block. cbn. f_equal. pose proof (sp_zs _ _ _ _ _ _ Hsp z Hz).
    f_equal; [zmod|lia]. }
  lia.
Qed.

(** No byte is in two regions, and all regions are in the heap. *)
Lemma regions_cover x : (cover x (regions mub l g s) <= inb x ((lo * 4096)%Z, (n * 4096)%Z))%nat.
Proof using Hinv.
  unfold regions, own_regions. rewrite !cover_app, cover_bytes.
  rewrite (live_cover x (g_zs g) (fun z => z_chunksize (zones s z))).
  - rewrite cover_concat. pose proof (zones_cover x (g_zs g) ltac:(done)) as Hz.
    pose proof (pi_cover _ _ _ _ _ (sp_pages _ _ _ _ _ _ Hsp) (x / 4096)) as Hp.
    unfold page_blocks in Hp.
    rewrite cover_app, cover_cons, cover_app in Hp.
    assert (Em : cover x [in_bytes mub] = inb (x / 4096) mub).
    { rewrite <-inb_bytes. unfold cover. cbn. lia. }
    rewrite Em. change (lo * 4096, n * 4096) with (in_bytes (lo, n)). rewrite inb_bytes. lia.
  - eapply zones_nodup. exact Hsp.
  - intros z sz p Hp. destruct (ck_small _ _ Hck z sz p Hp) as (? & _ & ?). done.
  - intros p k Hp. by apply (sp_large _ _ _ _ _ _ Hsp p k Hp).
Qed.
End cover.

(** * Alignment *)
Definition pow2_divides (zi : Z) : bool :=
  implb (is_pow2 (chunk_size zi) && (chunk_size zi <=? 4096)) (4096 mod chunk_size zi =? 0).
Lemma pow2_divides_all : forallb pow2_divides (seqZ 0 NZONES) = true.
Proof. vm_compute. reflexivity. Qed.

Lemma chunk_pow2 zsz zi size : chunk_class zsz zi size -> is_pow2 size = true -> size <= 4096 ->
  4096 mod size = 0 /\ chunk_off size mod size = 0.
Proof.
  intros [C1 C2 C3 _ _ _ _ C8] Hp Hs. split; [|by apply C8].
  pose proof (forallb_elem _ _ zi pow2_divides_all) as H. rewrite elem_of_seqZ in H. specialize (H ltac:(lia)).
  unfold pow2_divides in H. rewrite <-C2, Hp, (proj2 (Z.leb_le _ _) Hs) in H. cbn [andb implb] in H. by apply Z.eqb_eq.
Qed.

(** What a call hands out for a request: enough bytes, aligned to 8, and a power
    of two up to a page aligned to itself. *)
Definition fits (req : Z) (a : alloc) : Prop :=
  0 < req <= asize a /\ aptr a mod 8 = 0 /\
  (is_pow2 req = true -> 8 <= req <= 4096 -> aptr a mod req = 0).

(** [rt_realloc] rounds the request before it passes it on. *)
Lemma zoneindex_size n : 0 < n < 2 ^ 64 -> n <= (zoneindex n).2 < 2 ^ 64 /\
  (is_pow2 n = true -> 8 <= n -> (zoneindex n).2 = n).
Proof.
  intros Hn. destruct (Z.ltb_spec n 16384) as [Hs|Hb].
  - pose proof (zoneindex_ok_all n ltac:(lia)) as H.
    unfold zoneindex_ok in H. destruct (zoneindex n) as [zi size]. cbn [snd].
    apply andb_true_iff in H as [H Hp]. apply andb_true_iff in H as [H _]. bools. split.
    + split; [done|]. apply Z.le_lt_trans with 16384; [|lia]. etrans; [exact H|]. case_match; lia.
    + intros E1 E2. rewrite E1, (proj2 (Z.leb_le _ _) E2) in Hp. cbn in Hp. by bools.
  - unfold zoneindex. repeat (case_match; [lia|]). cbn. lia.
Qed.

Lemma fits_round n a : 0 < n < 2 ^ 64 -> fits (zoneindex n).2 a -> fits n a.
Proof.
  intros Hn ((F1 & F2) & F3 & F4). destruct (zoneindex_size n Hn) as [Hle Hp]. split_and!; [lia|lia|done|].
  intros H1 H2. specialize (Hp H1 ltac:(lia)). rewrite Hp in F4. by apply F4.
Qed.

Section live.
Context (lo n : Z) (mub : Z * Z).
Hypotheses (Hlo : 0 < lo) (Hn : 0 < n) (Hhi : lo + n < 2 ^ 52) (Hn19 : n < 2 ^ 19).

Section state.
Context (l : list (Z * Z)) (g : ghost) (s : slab).
Hypothesis (Hinv : slab_inv lo n mub l (g_zf g) g s).

Lemma live_pos a : a ∈ g_al g -> 0 < asize a.
Proof using Hinv.
  clear Hlo Hn Hhi Hn19. intros Ha. pose proof Hinv as [S1 S2 _ _ _ _ _]. destruct a as [z size p|p k]; cbn [asize].
  - destruct (ck_small _ _ S2 z size p Ha) as (Z1 & Z2 & <-).
    pose proof (cc_pos _ _ _ (zo_class _ _ _ _ _ _ (ck_zone _ _ S2 z Z1 Z2))). lia.
  - assert (Hb : (p / 4096, k) ∈ page_blocks mub (zone_size s) g).
    { unfold page_blocks. rewrite elem_of_cons, elem_of_app. right. right. apply elem_of_larges. by exists p. }
    destruct (block_in _ _ _ _ _ _ (sp_pages _ _ _ _ _ _ S1) Hb) as (_ & _ & H3). cbn in H3. lia.
Qed.

Lemma live_aligned a : a ∈ g_al g -> aptr a mod 8 = 0 /\
  (is_pow2 (asize a) = true -> asize a <= 4096 -> aptr a mod asize a = 0).
Proof using Hinv.
  clear Hlo Hn Hhi Hn19. intros Ha. pose proof Hinv as [S1 S2 _ _ _ _ _]. destruct a as [z size p|p k]; cbn [aptr asize].
  - destruct (ck_small _ _ S2 z size p Ha) as (Z1 & Z2 & Es).
    pose proof (ck_zone _ _ S2 z Z1 Z2) as Hzo. pose proof (zo_class _ _ _ _ _ _ Hzo) as Hc. rewrite Es in Hc.
    assert (Hp : p ∈ lives z (g_al g) ++ g_fl g z) by (apply elem_of_app; left; apply elem_of_lives; by exists size).
    apply (elem_of_chunks _ _ _ _ _ _ Hzo) in Hp as (i & Hi & ->).
    pose proof (sp_zs _ _ _ _ _ _ S1 z Z1) as Hz. unfold chunk_at. rewrite (zo_base _ _ _ _ _ _ Hzo), Es.
    split.
    + pose proof (cc_mod _ _ _ Hc) as M1. pose proof (cc_off_mod _ _ _ Hc) as M2.
      apply Z.mod_divide; [lia|]. repeat apply Z.divide_add_r.
      * apply Z.mod_divide in Hz; [|lia]. transitivity 4096; [by exists 512|done].
      * by apply Z.mod_divide in M2; [|lia].
      * apply Z.divide_mul_r. by apply Z.mod_divide in M1; [|lia].
    + intros Hp Hle. destruct (chunk_pow2 _ _ _ Hc Hp Hle) as [M1 M2]. pose proof (cc_pos _ _ _ Hc).
      apply Z.mod_divide; [lia|]. repeat apply Z.divide_add_r.
      * apply Z.mod_divide in Hz; [|lia]. apply Z.mod_divide in M1; [|lia]. by transitivity 4096.
      * by apply Z.mod_divide in M2; [|lia].
      * apply Z.divide_mul_r, Z.divide_refl.
  - destruct (sp_large _ _ _ _ _ _ S1 p k Ha) as [Hm _]. pose proof (live_pos _ Ha) as Hk. cbn [asize] in Hk.
    split; [zmod|]. intros _ Hle. assert (k = 1) as -> by lia. done.
Qed.

Lemma live_in a : a ∈ g_al g -> lo * 4096 <= aptr a /\ aptr a + asize a <= (lo + n) * 4096.
Proof using Hinv.
  clear Hlo Hn Hhi Hn19. intros Ha. pose proof (live_pos a Ha) as Hp.
  assert (H : forall x, aptr a <= x < aptr a + asize a -> lo * 4096 <= x < lo * 4096 + n * 4096).
  { intros x Hx. pose proof (regions_cover lo n mub l g s Hinv x) as Hc.
    assert (Hr : live_region a ∈ regions mub l g s).
    { unfold regions. rewrite elem_of_app, list_elem_of_fmap. left. by exists a. }
    pose proof (cover_elem x _ _ Hr) as He. pose proof (inb_in x (live_region a)) as Hi.
    unfold in_block, live_region in *. cbn in Hi. apply Hi in Hx.
    assert (Hone : inb x ((lo * 4096)%Z, (n * 4096)%Z) = 1%nat).
    { rewrite Hx in He. revert Hc He. unfold inb. case_match; lia. }
    apply inb_in in Hone. exact Hone. }
  pose proof (H (aptr a)). pose proof (H (aptr a + asize a - 1)). lia.
Qed.

Lemma live_apart a b rest : g_al g ≡ₚ a :: b :: rest ->
  aptr a + asize a <= aptr b \/ aptr b + asize b <= aptr a.
Proof using Hinv.
  clear Hlo Hn Hhi Hn19. intros Hp.
  pose proof (live_pos a ltac:(rewrite Hp; by left)) as Ha. pose proof (live_pos b ltac:(rewrite Hp; by right; left)) as Hb.
  destruct (decide (aptr a + asize a <= aptr b)) as [|H1]; [by left|].
  destruct (decide (aptr b + asize b <= aptr a)) as [|H2]; [by right|]. exfalso.
  set (x := Z.max (aptr a) (aptr b)). pose proof (regions_cover lo n mub l g s Hinv x) as Hc.
  unfold regions in Hc. rewrite cover_app, (cover_perm x (map live_region (g_al g)) (map live_region (a :: b :: rest))) in Hc
    by (by apply Permutation_map).
  cbn [map] in Hc. rewrite !cover_cons in Hc.
  assert (E1 : inb x (live_region a) = 1%nat) by (apply inb_in; unfold in_block, live_region; cbn; lia).
  assert (E2 : inb x (live_region b) = 1%nat) by (apply inb_in; unfold in_block, live_region; cbn; lia).
  rewrite E1, E2 in Hc. revert Hc. unfold inb at 1. case_match; lia.
Qed.

Lemma served_fits req a : 0 < req -> a ∈ g_al g -> served (zone_limit s) req a -> fits req a.
Proof using Hinv.
  clear Hlo Hn Hhi Hn19. intros Hr Ha Hs. destruct (live_aligned a Ha) as [A1 A2].
  assert (Hl : 8192 <= zone_limit s).
  { pose proof Hinv as [S1 _ _ _ _ _ _]. rewrite (sp_limit _ _ _ _ _ _ S1).
    pose proof (sp_size _ _ _ _ _ _ S1) as Hz. unfold zone_sizes in Hz.
    rewrite !elem_of_cons in Hz. destruct Hz as [->|[->|[->|Hz]]]; [by vm_compute..|by apply not_elem_of_nil in Hz]. }
  split_and!; [done| |done|].
  - destruct a as [z size p|p k]; cbn [served asize] in *; [tauto|]. destruct Hs as [_ ->]. zmod.
  - intros Hp Hr8. destruct a as [z size p|p k]; cbn [served asize aptr] in *.
    + destruct Hs as (_ & _ & _ & Hs). specialize (Hs Hp ltac:(lia)). subst size. apply A2; [done|lia].
    + destruct Hs as [Hs _]. lia.
Qed.

Lemma slab_inv_data d : mapped d (lo * 4096) (n * 4096) -> bytes_ok d ->
  slab_inv lo n mub l (g_zf g) g (set_data d s).
Proof using Hinv. clear Hlo Hn Hhi Hn19. intros Hm Hb. destruct Hinv as [[] [] [] ? ? ? ?]. split; [by split|by split|by split|done..]. Qed.
End state.

(** * Changing the size *)
Context (fuel : nat).
Hypothesis Hfuel : (Z.to_nat n <= fuel)%nat.
Lemma heap_small : n < 2 ^ 30.
Proof using Hn19. clear Hfuel Hlo Hhi. lia. Qed.

(** What a call leaves of the heap, with the live allocations [al]. *)
Definition stays (al : list alloc) (s s' : slab) : Prop :=
  exists l g, slab_inv lo n mub l (g_zf g) g s' /\ g_al g = al /\ heap_sem (pages s') = 1 /\ zone_size s' = zone_size s.

Lemma copy_ok g l s a b d : slab_inv lo n mub l (g_zf g) g s -> a ∈ g_al g -> b ∈ g_al g ->
  forall m, m <= asize a -> m <= asize b -> (forall x, d x = copied (aptr b) (aptr a) m (data s) x) ->
  mapped d (lo * 4096) (n * 4096) /\ bytes_ok d.
Proof using.
  clear. intros Hinv Ha Hb m M1 M2 Hd. destruct (live_in l g s Hinv a Ha) as [A1 A2].
  pose proof Hinv as [_ _ _ _ Hm Hby _]. split.
  - apply (mapped_same (data s)); [|done]. intros x Hx. rewrite Hd. unfold copied. ram_cases; [|done]. apply Hm. lia.
  - intros x v. rewrite Hd. unfold copied. ram_cases; apply Hby.
Qed.

Lemma wp_memcpy_live l g s a b m (Q : slab -> Prop) : slab_inv lo n mub l (g_zf g) g s ->
  (exists rest, g_al g ≡ₚ a :: b :: rest) -> 0 <= m -> m <= asize a -> m <= asize b ->
  (forall d, slab_inv lo n mub l (g_zf g) g (set_data d s) ->
    (forall x, d x = copied (aptr b) (aptr a) m (data s) x) -> Q (set_data d s)) ->
  wp (on_data (rt_memcpy (S (Z.to_nat m)) (aptr b) (aptr a) m)) (fun _ => Q) s.
Proof using Hn19.
  clear Hlo Hn Hhi Hfuel. intros Hinv [rest Hp] M0 M1 M2 HQ.
  assert (Ha : a ∈ g_al g) by (rewrite Hp; by left). assert (Hb : b ∈ g_al g) by (rewrite Hp; by right; left).
  destruct (live_in l g s Hinv a Ha) as [A1 A2], (live_in l g s Hinv b Hb) as [B1 B2].
  pose proof Hinv as [_ _ _ _ Hm Hby _]. apply wp_on_data.
  eapply wp_mono; [apply rt_memcpy_spec; try done; try lia|].
  - eapply mapped_sub; [exact Hm|lia|lia].
  - eapply mapped_sub; [exact Hm|lia|lia].
  - destruct (live_apart l g s Hinv a b rest Hp); lia.
  - intros r d [_ Hd]. apply HQ; [|done].
    destruct (copy_ok g l s a b d Hinv Ha Hb m M1 M2 Hd). by apply slab_inv_data.
Qed.

(** The block [b] for [req] bytes replaces the allocation [i], and holds its
    bytes; everything else is as before. *)
Definition moved (al : list alloc) (s : slab) (i : nat) (a : alloc) (req : Z) (r : option Z) (s' : slab) : Prop :=
  exists b size, r = Some (aptr b) /\ stays (b :: delete i al) s s' /\ req <= size <= asize b /\ fits req b /\
    (aptr a + asize a <= aptr b \/ aptr b + asize b <= aptr a) /\
    forall x, data s' x = copied (aptr b) (aptr a) (Z.min (asize a) size) (data s) x.

Lemma wp_realloc_copy l g s i a size (m : slab -> Z) : slab_inv lo n mub l (g_zf g) g s -> heap_sem (pages s) = 1 ->
  g_al g !! i = Some a -> 0 < size < 2 ^ 64 ->
  (forall l' g' s', slab_inv lo n mub l' (g_zf g') g' s' -> a ∈ g_al g' -> m s' = Z.min (asize a) size) ->
  wp (realloc_copy fuel (aptr a) size m) (fun r s' =>
    (r = None /\ stays (g_al g) s s' /\ data s' = data s) \/ moved (g_al g) s i a size r s') s.
Proof using Hlo Hn Hhi Hn19 Hfuel.
  intros Hinv Hsem Hi Hsize Hm. pose proof (list_elem_of_lookup_2 _ _ _ Hi) as Ha. unfold realloc_copy.
  apply wp_bind. eapply wp_mono; [by apply (wp_rt_malloc lo n mub Hlo Hn Hhi fuel Hfuel heap_small l g s size)|].
  intros r s1 [(l1 & b & g1 & -> & H1 & E1 & Hsv & Hs1 & Ed & Ez)|(-> & _ & g1 & H1 & E1 & Hs1 & Ed & Ez)].
  - wp_step. wp_step. assert (Hb : b ∈ g_al g1) by (rewrite E1; by left).
    assert (Ha1 : a ∈ g_al g1) by (rewrite E1; by right). rewrite (Hm l1 g1 s1 H1 Ha1).
    assert (Hfit : fits size b).
    { apply (served_fits l1 g1 s1 H1); [lia|done|]. pose proof H1 as [S1 _ _ _ _ _ _]. pose proof Hinv as [S0 _ _ _ _ _ _].
      rewrite (sp_limit _ _ _ _ _ _ S1), Ez, <-(sp_limit _ _ _ _ _ _ S0). done. }
    pose proof (live_pos l g s Hinv a Ha) as Hpa. pose proof Hfit as ((_ & Hle) & _ & _).
    assert (Hperm : g_al g1 ≡ₚ a :: b :: delete i (g_al g)).
    { rewrite E1, (delete_Permutation (g_al g) i a Hi) at 1. apply Permutation_swap. }
    apply wp_bind, (wp_memcpy_live l1 g1 s1 a b); [done|by eexists|lia|lia|lia|].
    intros d Hd Ec. apply wp_bind. eapply wp_mono.
    { apply (wp_rt_free lo n mub Hlo Hn Hhi fuel Hfuel heap_small l1 g1 (set_data d s1) (S i) a Hd); [done|]. by rewrite E1. }
    intros [] s2 (l2 & g2 & H2 & E2 & Hs2 & Ed2 & Ez2). wp_steps. right. exists b, size.
    split_and!; try done.
    + exists l2, g2. split_and!; [done| |done|]; [by rewrite E2, E1|by rewrite Ez2, <-Ez].
    + destruct (live_apart l1 g1 s1 H1 a b _ Hperm); [by left|by right].
    + intros x. rewrite Ed2. cbn. rewrite Ec. unfold copied. by rewrite Ed.
  - wp_steps. left. split_and!; [done| |done]. exists l, g1. by split_and!.
Qed.

(** [rt_realloc] of a live allocation: no memory, and nothing has changed; or the
    block is large enough and stays; or the bytes have moved. *)
Lemma wp_rt_realloc l g s i a size : slab_inv lo n mub l (g_zf g) g s -> heap_sem (pages s) = 1 ->
  g_al g !! i = Some a -> 0 < size < 2 ^ 64 ->
  wp (rt_realloc fuel (Some (aptr a)) size) (fun r s' =>
    (r = None /\ stays (g_al g) s s' /\ data s' = data s) \/
    (r = Some (aptr a) /\ s' = s /\ fits size a) \/
    moved (g_al g) s i a size r s') s.
Proof using Hlo Hn Hhi Hn19 Hfuel.
  intros Hinv Hsem Hi Hsize. pose proof (list_elem_of_lookup_2 _ _ _ Hi) as Ha. unfold rt_realloc.
  destruct (Z.eqb_spec size 0); [lia|]. wp_step. wp_step. destruct a as [z csize p|p k]; cbn [aptr].
  - destruct (small_place lo n mub Hlo Hn Hhi l g s z csize p Hinv Ha) as (_ & Eb & Emu & Ez).
    rewrite Eb, Emu. cbn [mu_type mu_size]. change (PAGE_TYPE_SMALL =? PAGE_TYPE_LARGE) with false.
    change (PAGE_TYPE_SMALL =? PAGE_TYPE_SMALL) with true. cbn iota. change RT_MM_PAGE_SIZE with 4096. rewrite Ez.
    pose proof Hinv as [_ S2 _ _ _ _ _]. destruct (ck_small _ _ S2 z csize p Ha) as (Z1 & Z2 & Z3).
    pose proof (ck_zone _ _ S2 z Z1 Z2) as Hzo. destruct (zoneindex_size size Hsize) as [Hle Hpow].
    wp_step. wp_step; [by rewrite (zo_magic _ _ _ _ _ _ Hzo)|]. rewrite Z3.
    destruct (Z.eqb_spec csize (zoneindex size).2) as [E|E].
    + wp_steps. right. left. destruct (live_aligned l g s Hinv _ Ha) as [A1 A2]. cbn [aptr asize] in A1, A2.
      split_and!; [done|done|]. split_and!; cbn [aptr asize]; [lia|lia|done|]. intros Hp Hr.
      specialize (Hpow Hp ltac:(lia)). rewrite Hpow in E. rewrite E in A2. apply A2; [done|lia].
    + eapply wp_mono; [apply (wp_realloc_copy l g s i (Small z csize p) (zoneindex size).2); try done; [lia|]|].
      * intros l' g' s' H' Ha'. destruct (ck_small _ _ (si_chunks _ _ _ _ _ _ _ H') z csize p Ha') as (_ & _ & ->).
        cbn [asize]. destruct (Z.ltb_spec csize (zoneindex size).2); lia.
      * intros r s' [H|(b & sz & H1 & H2 & H3 & H4 & H5 & H6)]; [by left|]. right. right. exists b, sz.
        split_and!; try done; [lia|lia|by apply fits_round].
  - destruct (large_place lo n mub Hlo Hn Hhi l g s p k Hinv Ha) as (Ep & Eb & Emu & _ & L1 & L2 & L3).
    rewrite Ep, Eb, Emu. cbn [mu_type mu_size]. change (PAGE_TYPE_LARGE =? PAGE_TYPE_LARGE) with true. cbn iota.
    assert (Eo : u64 (i32 (Z.shiftl k RT_MM_PAGE_BITS)) = k * 4096).
    { unfold RT_MM_PAGE_BITS. rewrite Z.shiftl_mul_pow2 by lia. change (2 ^ 12) with 4096. rewrite i32_small by lia. apply u64_id. lia. }
    rewrite Eo. eapply wp_mono; [apply (wp_realloc_copy l g s i (Large p k) size); try done|].
    + intros l' g' s' _ _. cbn [asize]. destruct (Z.ltb_spec (k * 4096) size); lia.
    + intros r s' [H|H]; [by left|]. right. by right.
Qed.

(** * Histories of calls *)
Definition owns (o : Z * Z) (a : alloc) : Prop := o.1 = aptr a /\ fits o.2 a.

(** The heap when the client holds the blocks [out], pointers with the bytes
    asked for. *)
Definition heap_state (out : list (Z * Z)) (s : slab) : Prop :=
  exists l g, slab_inv lo n mub l (g_zf g) g s /\ heap_sem (pages s) = 1 /\ Forall2 owns out (g_al g).

Lemma malloc_state l al s req r s' out : 0 < req -> (exists g, slab_inv lo n mub l (g_zf g) g s) -> Forall2 owns out al ->
  malloc_post lo n mub l al s req r s' ->
  match r with
  | Some p => exists l' a g', p = aptr a /\ slab_inv lo n mub l' (g_zf g') g' s' /\ g_al g' = a :: al /\ fits req a /\
      heap_sem (pages s') = 1 /\ data s' = data s
  | None => heap_state out s'
  end.
Proof using.
  clear. intros Hr [g Hinv] Hout [(l1 & b & g1 & -> & H1 & E1 & Hsv & Hs1 & Ed & Ez)|(-> & _ & g1 & H1 & E1 & Hs1 & Ed & Ez)].
  - exists l1, b, g1. split_and!; try done. apply (served_fits l1 g1 s' H1); [done|rewrite E1; by left|].
    pose proof H1 as [S1 _ _ _ _ _ _]. pose proof Hinv as [S0 _ _ _ _ _ _].
    rewrite (sp_limit _ _ _ _ _ _ S1), Ez, <-(sp_limit _ _ _ _ _ _ S0). done.
  - exists l, g1. by rewrite E1.
Qed.

Lemma wp_malloc_state out s req : heap_state out s -> 0 <= req < 2 ^ 64 ->
  wp (rt_malloc fuel req) (fun r s' =>
    match r with Some p => heap_state ((p, req) :: out) s' | None => heap_state out s' end) s.
Proof using Hlo Hn Hhi Hn19 Hfuel.
  intros (l & g & Hinv & Hsem & Hout) Hreq. destruct (decide (req = 0)) as [->|Hne].
  { unfold rt_malloc. wp_steps. by exists l, g. }
  eapply wp_mono; [apply (wp_rt_malloc lo n mub Hlo Hn Hhi fuel Hfuel heap_small l g s req); [done|done|lia]|].
  intros r s' H. apply (malloc_state _ _ _ _ _ _ out) in H; [|lia|by exists g|done].
  destruct r as [p|]; [|done]. destruct H as (l' & a & g' & -> & H1 & E1 & Hf & Hs & _).
  exists l', g'. rewrite E1. split_and!; try done. constructor; [by split|done].
Qed.

Lemma wp_free_state out s i p r : heap_state out s -> out !! i = Some (p, r) ->
  wp (rt_free fuel (Some p)) (fun _ s' => heap_state (delete i out) s') s.
Proof using Hlo Hn Hhi Hn19 Hfuel.
  intros (l & g & Hinv & Hsem & Hout) Hi.
  destruct (Forall2_lookup_l _ _ _ _ _ Hout Hi) as (a & Ha & [E _]). cbn in E. subst p.
  eapply wp_mono; [by apply (wp_rt_free lo n mub Hlo Hn Hhi fuel Hfuel heap_small l g s i a)|].
  intros [] s' (l' & g' & H1 & E1 & Hs & _ & _). exists l', g'. rewrite E1. split_and!; try done. by apply Forall2_delete.
Qed.

Inductive heap_op := HMalloc (size : Z) | HCalloc (count size : Z) | HRealloc (i : nat) (size : Z) | HFree (i : nat).

(** [HFree i] and [HRealloc i] act on the [i]th block held. *)
Definition heap_exec (op : heap_op) (out : list (Z * Z)) : M slab (list (Z * Z)) :=
  match op with
  | HMalloc size =>
      r ← rt_malloc fuel size;
      mret (match r with Some p => (p, size) :: out | None => out end)
  | HCalloc count size =>
      r ← rt_calloc fuel count size;
      mret (match r with Some p => (p, count * size) :: out | None => out end)
  | HRealloc i size =>
      match out !! i with
      | None => mret out
      | Some (p, _) =>
          r ← rt_realloc fuel (Some p) size;
          mret (if size =? 0 then delete i out
                else match r with
                     | Some q => if q =? p then <[i := (q, size)]> out else (q, size) :: delete i out
                     | None => out
                     end)
      end
  | HFree i =>
      match out !! i with
      | None => mret out
      | Some (p, _) => rt_free fuel (Some p);; mret (delete i out)
      end
  end.
Fixpoint heap_run (ops : list heap_op) (out : list (Z * Z)) : M slab (list (Z * Z)) :=
  match ops with
  | [] => mret out
  | op :: ops => out ← heap_exec op out; heap_run ops out
  end.

(** Sizes are [rt_size_t], and the product of a [rt_calloc] does not overflow. *)
Definition heap_op_ok (op : heap_op) : Prop :=
  match op with
  | HMalloc size => 0 <= size < 2 ^ 64
  | HCalloc count size => 0 <= count * size < 2 ^ 64
  | HRealloc _ size => 0 <= size < 2 ^ 64
  | HFree _ => True
  end.

Lemma wp_calloc_state out s count size : heap_state out s -> 0 <= count * size < 2 ^ 64 ->
  wp (rt_calloc fuel count size) (fun r s' =>
    match r with Some p => heap_state ((p, count * size) :: out) s' | None => heap_state out s' end) s.
Proof using Hlo Hn Hhi Hn19 Hfuel.
  intros Hst Hsz. unfold rt_calloc. rewrite u64_id by done. destruct (decide (count * size = 0)) as [E0|Hne].
  { rewrite E0. unfold rt_malloc. by wp_steps. }
  destruct Hst as (l & g & Hinv & Hsem & Hout).
  apply wp_bind. eapply wp_mono; [apply (wp_rt_malloc lo n mub Hlo Hn Hhi fuel Hfuel heap_small l g s (count * size)); [done|done|lia]|].
  intros r s' H. apply (malloc_state _ _ _ _ _ _ out) in H; [|lia|by exists g|done].
  destruct r as [p|]; [|by apply wp_ret]. destruct H as (l' & a & g' & -> & H1 & E1 & Hf & Hs & _).
  assert (Ha : a ∈ g_al g') by (rewrite E1; by left).
  destruct (live_in l' g' s' H1 a Ha) as [A1 A2]. pose proof Hf as ((_ & Hle) & _ & _).
  pose proof H1 as [_ _ _ _ Hm Hby _].
  apply wp_bind, wp_on_data. eapply wp_mono; [apply rt_memset_spec; [lia|lia|]|].
  { eapply mapped_sub; [exact Hm|lia|lia]. }
  intros q d [_ Hd]. wp_steps. exists l', g'. rewrite E1. split_and!; [|done|constructor; [by split|done]].
  apply slab_inv_data; [done| |].
  - apply (mapped_same (data s')); [|done]. intros x Hx. rewrite Hd. unfold filled. ram_cases; [by eexists|done].
  - intros x v. rewrite Hd. unfold filled. ram_cases; [|apply Hby]. intros [= <-]. vm_compute. by split.
Qed.

Lemma wp_realloc_state out s i p r size : heap_state out s -> out !! i = Some (p, r) -> 0 <= size < 2 ^ 64 ->
  wp (rt_realloc fuel (Some p) size) (fun res s' =>
    heap_state (if size =? 0 then delete i out
      else match res with
           | Some q => if q =? p then <[i := (q, size)]> out else (q, size) :: delete i out
           | None => out
           end) s') s.
Proof using Hlo Hn Hhi Hn19 Hfuel.
  intros Hst Hi Hsize. destruct (Z.eqb_spec size 0) as [->|Hne].
  { unfold rt_realloc. cbn [Z.eqb]. apply wp_bind. eapply wp_mono; [by apply (wp_free_state out s i p r)|].
    intros [] s' H. by wp_steps. }
  pose proof Hst as (l & g & Hinv & Hsem & Hout).
  destruct (Forall2_lookup_l _ _ _ _ _ Hout Hi) as (a & Ha & [E _]). cbn in E. subst p.
  eapply wp_mono; [apply (wp_rt_realloc l g s i a size); try done; lia|].
  intros res s' [(-> & (l' & g' & H1 & E1 & Hs & _) & _)|[(-> & -> & Hf)|(b & sz & -> & (l' & g' & H1 & E1 & Hs & _) & Hsz & Hf & Hap & _)]].
  - exists l', g'. by rewrite E1.
  - rewrite Z.eqb_refl. exists l, g. split_and!; try done.
    apply (list_insert_id (g_al g)) in Ha as Eg. rewrite <-Eg. by apply Forall2_insert.
  - pose proof (live_pos l g s Hinv a (list_elem_of_lookup_2 _ _ _ Ha)) as Hp. pose proof Hf as ((Hb & _) & _ & _).
    destruct (Z.eqb_spec (aptr b) (aptr a)); [lia|]. exists l', g'. rewrite E1. split_and!; try done.
    constructor; [by split|by apply Forall2_delete].
Qed.

Lemma wp_heap_exec op out s : heap_op_ok op -> heap_state out s -> wp (heap_exec op out) heap_state s.
Proof using Hlo Hn Hhi Hn19 Hfuel.
  intros Hop Hst. destruct op as [size|count size|i size|i]; cbn [heap_exec heap_op_ok] in *.
  - apply wp_bind. eapply wp_mono; [by apply (wp_malloc_state out s size)|]. intros [p|] s' H; by wp_steps.
  - apply wp_bind. eapply wp_mono; [by apply (wp_calloc_state out s count size)|]. intros [p|] s' H; by wp_steps.
  - destruct (out !! i) as [[p r]|] eqn:E; [|by wp_steps]. apply wp_bind.
    eapply wp_mono; [by apply (wp_realloc_state out s i p r size)|]. intros q s' H. by wp_steps.
  - destruct (out !! i) as [[p r]|] eqn:E; [|by wp_steps]. apply wp_bind.
    eapply wp_mono; [by apply (wp_free_state out s i p r)|]. intros [] s' H. by wp_steps.
Qed.

Lemma wp_heap_run ops : forall out s, Forall heap_op_ok ops -> heap_state out s -> wp (heap_run ops out) heap_state s.
Proof using Hlo Hn Hhi Hn19 Hfuel.
  induction ops as [|op ops IH]; intros out s Hops Hst; cbn [heap_run]; [by wp_steps|].
  apply Forall_cons in Hops as [Hop Hops]. apply wp_bind. eapply wp_mono; [by apply wp_heap_exec|].
  intros out' s' H. by apply IH.
Qed.
End live.

(** * Set-up *)
(** The static variables of the allocator before the start, and the memory
    between the bounds. *)
Record heap_blank (begin_addr end_addr : Z) (s : slab) : Prop := {
  hb_array : forall i, zone_array s i = None;
  hb_free : zone_free s = None;
  hb_cnt : zone_free_cnt s = 0;
  hb_used : used_mem s = 0;
  hb_mapped : mapped (data s) begin_addr (end_addr - begin_addr);
  hb_bytes : bytes_ok (data s) }.

(** At least a whole page lies between the bounds, and less than 2 GB. *)
Definition heap_lo (begin_addr : Z) : Z := (begin_addr + 4095) / 4096.
Definition heap_pages (begin_addr end_addr : Z) : Z := end_addr / 4096 - heap_lo begin_addr.
Definition bounds_ok (begin_addr end_addr : Z) : Prop :=
  0 < begin_addr /\ end_addr < 2 ^ 64 /\ 0 < heap_pages begin_addr end_addr < 2 ^ 19.

Lemma zone_size_loop_sizes limsize : zone_size_loop 2 ZALLOC_MIN_ZONE_SIZE limsize ∈ zone_sizes.
Proof.
  unfold zone_sizes, ZALLOC_MIN_ZONE_SIZE. cbn -[Z.shiftl Z.div]. unfold ZALLOC_MAX_ZONE_SIZE.
  change (32 * 1024) with 32768. change (128 * 1024) with 131072. change (Z.shiftl 32768 1) with 65536.
  change (Z.shiftl 65536 1) with 131072. rewrite !elem_of_cons. repeat case_match; auto.
Qed.

Lemma page_down x : RT_ALIGN_DOWN x RT_MM_PAGE_SIZE = 4096 * (x / 4096).
Proof.
  unfold RT_ALIGN_DOWN, RT_MM_PAGE_SIZE. change (4096 - 1) with (Z.ones 12).
  rewrite <-Z.ldiff_land, Z.ldiff_ones_r by lia.
  rewrite Z.shiftl_mul_pow2, Z.shiftr_div_pow2 by lia. change (2 ^ 12) with 4096. lia.
Qed.

Lemma wp_heap_init fuel b e s : bounds_ok b e -> (Z.to_nat (heap_pages b e) <= fuel)%nat -> heap_blank b e s ->
  wp (rt_system_heap_init fuel b e) (fun _ s' => exists mub,
    heap_state (heap_lo b) (heap_pages b e) mub [] s' /\ memusage_ptr s' = Some (mub.1 * 4096) /\
    (forall x, data s' x = data s x)) s.
Proof.
  intros (Hb & He & Hn) Hfuel [B1 B2 B3 B4 B5 B6]. unfold rt_system_heap_init.
  set (lo := heap_lo b). set (n := heap_pages b e) in *.
  assert (Hlo : 0 < lo) by (unfold lo, heap_lo; zmod).
  assert (Ehi : e / 4096 = lo + n) by (unfold n, heap_pages; fold lo; lia).
  assert (Hhi : lo + n < 2 ^ 52) by (rewrite <-Ehi; apply Z.div_lt_upper_bound; lia).
  assert (Hb2 : b + 4095 < 2 ^ 64).
  { assert (b + 4095 < 4096 * (lo + 1)) by (unfold lo, heap_lo; zmod).
    assert (4096 * (e / 4096) <= e) by (apply Z.mul_div_le; lia). lia. }
  rewrite RT_ALIGN_page, page_down by lia. fold (heap_lo b). fold lo. rewrite Ehi.
  wp_step. wp_step. destruct (Z.leb_spec (4096 * (lo + n)) (4096 * lo)); [lia|].
  replace (4096 * (lo + n) - 4096 * lo) with (4096 * n) by lia.
  assert (E1 : u32 (4096 * n) = 4096 * n) by (apply u32_small; lia). rewrite E1.
  assert (E2 : 4096 * n / RT_MM_PAGE_SIZE = n) by (unfold RT_MM_PAGE_SIZE; rewrite Z.mul_comm; by apply Z.div_mul).
  rewrite E2. rewrite (u32_small n) by lia.
  assert (E3 : 4096 * lo / RT_MM_PAGE_SIZE = lo) by (unfold RT_MM_PAGE_SIZE; rewrite Z.mul_comm; by apply Z.div_mul).
  rewrite E3. apply wp_bind, wp_on_pages. wp_step. apply wp_bind, wp_on_pages.
  eapply wp_mono; [apply (page_init_inv lo n); [lia..|done]|]. intros [] h Hp. wp_step. wp_step.
  match goal with |- wp _ _ ?x => set (s1 := x) end.
  pose proof (zone_size_loop_sizes (4096 * n)) as Hz. set (zsz := zone_size_loop 2 ZALLOC_MIN_ZONE_SIZE (4096 * n)) in *.
  assert (E4 : u32 (n * 4) = n * 4) by (apply u32_small; lia). rewrite E4.
  rewrite RT_ALIGN_page by lia. set (k := (n * 4 + 4095) / 4096).
  assert (Hk : 0 < k <= n) by (unfold k; zmod).
  assert (E5 : u32 (4096 * k) = 4096 * k) by (apply u32_small; lia). rewrite E5.
  assert (E6 : 4096 * k / RT_MM_PAGE_SIZE = k) by (unfold RT_MM_PAGE_SIZE; rewrite Z.mul_comm; by apply Z.div_mul).
  rewrite E6. unfold page_alloc. apply wp_bind, wp_bind, wp_on_pages.
  eapply wp_mono; [apply (page_alloc_inv fuel lo n ltac:(lia) Hfuel k [(lo, n)] [] h); [lia|done]|].
  intros [a|] h'; [|intros [_ Hno]; exfalso; specialize (Hno ltac:(lia) lo n ltac:(by left)); lia].
  intros [[l' Hl'] _]. wp_steps. exists (a, k). split_and!; [|done|done].
  exists l', (mkG [] [] [] (fun _ => []) (fun _ => [])). split_and!; [|apply Hl'|constructor].
  split; try done.
  - split; cbn; try done.
    + rewrite unlocked_id by apply Hl'. exact Hl'.
    + lia.
    + intros z Hz'. by apply not_elem_of_nil in Hz'.
    + intros p q Hq. by apply not_elem_of_nil in Hq.
    + intros z j Hz'. by apply not_elem_of_nil in Hz'.
  - split; cbn.
    + intros z Hz'. by apply not_elem_of_nil in Hz'.
    + intros z size p Hz'. by apply not_elem_of_nil in Hz'.
  - assert (Hnil : forall x P, x ∈ (@nil Z) -> P) by (intros x P Hx; by apply not_elem_of_nil in Hx).
    split; cbn; [done|done|intros; apply NoDup_nil_2|apply NoDup_nil_2|done|lia|done|done| |];
      intros; by eapply Hnil.
  - cbn. eapply mapped_sub; [exact B5|unfold lo, heap_lo; zmod|]. clear -Ehi. zmod.
  - cbn. lia.
Qed.

(** The blocks held, together with everything that belongs to the allocator. *)
Lemma held_cover lo n mub l g s out x : slab_inv lo n mub l (g_zf g) g s -> Forall2 owns out (g_al g) ->
  (cover x (out ++ own_regions mub l g s) <= inb x ((lo * 4096)%Z, (n * 4096)%Z))%nat.
Proof.
  intros Hinv Hout. etrans; [|apply (regions_cover lo n mub l g s Hinv x)].
  unfold regions. rewrite !cover_app. enough (cover x out <= cover x (map live_region (g_al g)))%nat by lia.
  clear Hinv. induction Hout as [|[p r] a out al [E ((_ & Hf) & _)] _ IH]; [done|]. cbn [map]. rewrite !cover_cons.
  cbn [fst snd] in *. enough (inb x (p, r) <= inb x (live_region a))%nat by lia. subst p.
  unfold live_region. inb_lia.
Qed.

(** * Properties *)

(** C5: in every history of [rt_malloc], [rt_calloc], [rt_realloc] and [rt_free]
    from the set-up of the heap on, no assertion fails, and no byte belongs to
    two of: the blocks the client holds, the headers and free chunks of the
    zones, the free pages, the table of page uses; a block has the bytes asked
    for, is aligned to 8, and to its size if that is a power of two up to a page;
    the count of used bytes is that of the blocks; and an allocation is refused
    only when no run of free pages is large enough. *)
Theorem rt_malloc_history fuel b e ops s :
  bounds_ok b e -> (Z.to_nat (heap_pages b e) <= fuel)%nat -> heap_blank b e s -> Forall heap_op_ok ops ->
  wp (rt_system_heap_init fuel b e;; heap_run fuel ops []) (fun out s' => exists mub l g,
    slab_inv (heap_lo b) (heap_pages b e) mub l (g_zf g) g s' /\ Forall2 owns out (g_al g) /\
    (forall x, (cover x (out ++ own_regions mub l g s') <=
      inb x ((heap_lo b * 4096)%Z, (heap_pages b e * 4096)%Z))%nat) /\
    used_mem s' = u64 (total (g_al g)) /\
    forall size, 0 < size < 2 ^ 64 -> wp (rt_malloc fuel size)
      (fun r _ => r = None -> forall a k, (a, k) ∈ l -> k < pages_for s' size) s') s.
Proof.
  intros Hb Hfuel Hs Hops. wp_steps. eapply wp_mono; [by apply wp_heap_init|].
  intros [] s1 (mub & Hst & _ & _). destruct Hb as (Hb1 & Hb2 & Hn).
  assert (Hlo : 0 < heap_lo b) by (unfold heap_lo; zmod).
  assert (Hhi : heap_lo b + heap_pages b e < 2 ^ 52).
  { unfold heap_pages. replace (heap_lo b + (e / 4096 - heap_lo b)) with (e / 4096) by lia. apply Z.div_lt_upper_bound; lia. }
  eapply wp_mono; [apply (wp_heap_run (heap_lo b) (heap_pages b e) mub Hlo ltac:(lia) Hhi ltac:(lia) fuel Hfuel ops []); done|].
  intros out s' (l & g & Hinv & Hsem & Hout). exists mub, l, g. split_and!; try done.
  - intros x. by apply held_cover.
  - apply Hinv.
  - intros size Hsize. eapply wp_mono; [apply (wp_rt_malloc (heap_lo b) (heap_pages b e) mub Hlo ltac:(lia) Hhi fuel Hfuel ltac:(lia) l g s' size); done|].
    intros r s'' [(l' & a & g' & -> & _)|(_ & Hno & _)]; done.
Qed.

(** ** A failing allocation leaves the heap exactly as it was *)

(** [m], if it ends without a failed assertion, ends in [Q]. *)
Definition may {S A} (m : M S A) (Q : A -> S -> Prop) (s : S) : Prop :=
  forall a s', m s = Some (a, s') -> Q a s'.

Lemma may_bind {S A B} (m : M S A) (k : A -> M S B) Q (s : S) :
  may m (fun a => may (k a) Q) s -> may (m ≫= k) Q s.
Proof.
  unfold may, mbind, M_bind. intros H b s2. destruct (m s) as [[a s1]|] eqn:E; [|done].
  by apply (H a s1).
Qed.
Lemma may_any {S A B} (m : M S A) (k : A -> M S B) Q (s : S) :
  (forall a s', may (k a) Q s') -> may (m ≫= k) Q s.
Proof. intros H. apply may_bind. intros a s' _. apply H. Qed.
Lemma may_ret {S A} (a : A) Q (s : S) : Q a s -> may (mret a) Q s.
Proof. by intros H ? ? [= <- <-]. Qed.
Lemma may_wp {S A} (m : M S A) (P Q : A -> S -> Prop) s :
  wp m P s -> may m Q s -> wp m (fun a s' => P a s' /\ Q a s') s.
Proof. unfold wp, may. destruct (m s) as [[a s']|]; [auto|done]. Qed.

Lemma wp_both {S A} (m : M S A) (P Q : A -> S -> Prop) s :
  wp m P s -> wp m Q s -> wp m (fun a s' => P a s' /\ Q a s') s.
Proof. unfold wp. by destruct (m s) as [[a s']|]. Qed.

(** No memory, and nothing has changed. *)
Definition none_same {S} (s : S) (r : option Z) (s' : S) : Prop := r = None -> s' = s.

(** A routine that ends with the address of a block. *)
Ltac never_none := repeat first
  [ progress intros | apply may_any | by apply may_ret | case_match ].

Lemma zone_setup_some z zi size s s0 : may (zone_setup z zi size) (none_same s0) s.
Proof. unfold zone_setup. never_none. Qed.

Lemma malloc_zone_some z zi size s s0 : may (malloc_zone z zi size) (none_same s0) s.
Proof.
  unfold malloc_zone. do 4 (apply may_any; intros ? ?). apply may_any. intros ? ?.
  apply may_any. intros ? ?. apply may_bind. intros c s1 Hc.
  assert (Hs : exists x, c = Some x).
  { revert Hc. unfold mbind, M_bind, modify, get, mret, M_ret, fail. cbn. repeat case_match; naive_solver. }
  destruct Hs as [x ->]. never_none.
Qed.

Lemma page_alloc_loop_none np : forall fuel prev h,
  may (page_alloc_loop fuel prev np) (none_same h) h.
Proof.
  induction fuel as [|fuel IH]; intros prev h; cbn [page_alloc_loop];
    apply may_bind; intros ? ? [= <- <-]; (case_match; [|by apply may_ret]);
    (case_match; [never_none|]); (case_match; [never_none|]); [by intros ? ?|apply IH].
Qed.

Lemma rt_page_alloc_none fuel np h : heap_sem h = 1 -> may (rt_page_alloc fuel np) (none_same h) h.
Proof.
  intros Hs. unfold rt_page_alloc. case_match; [by apply may_ret|].
  apply may_bind. intros ? h1 E1. assert (h1 = mkHeap (page_heads h) (rt_page_list h) 0) as ->.
  { revert E1. unfold heap_take, assertM, mbind, M_bind, get, modify. cbn. rewrite Hs. cbn. intros [= <- <-]. by rewrite Hs. }
  apply may_bind. intros b h2 E2. pose proof (page_alloc_loop_none np _ _ _ _ _ E2) as H2.
  apply may_bind. intros ? h3 [= <- <-]. apply may_ret. intros ->. rewrite H2 by done. cbn.
  destruct h as [heads list sem]. cbn in Hs |- *. by subst.
Qed.

Lemma page_alloc_none fuel np s : heap_sem (pages s) = 1 -> may (page_alloc fuel np) (none_same s) s.
Proof.
  intros Hs. unfold page_alloc. apply may_bind. intros b s1 E. unfold on_pages in E.
  destruct (rt_page_alloc fuel np (pages s)) as [[b' h']|] eqn:E'; [|done]. injection E as -> <-.
  apply may_ret. destruct b; [done|]. intros _. rewrite (rt_page_alloc_none fuel np (pages s) Hs _ _ E' eq_refl).
  by destruct s.
Qed.

Lemma heap_lock_may s Q : heap_sem (pages s) = 1 -> Q tt (with_sem s 0) -> may heap_lock Q s.
Proof.
  intros Hs HQ ? ?. unfold heap_lock, on_pages, heap_take, assertM, mbind, M_bind, get, modify. cbn.
  rewrite Hs. cbn. intros [= <- <-]. by rewrite Hs.
Qed.
Lemma with_sem_back s : heap_sem (pages s) = 1 -> with_sem (with_sem s 0) 1 = s.
Proof. destruct s as [[heads list sem] ? ? ? ? ? ? ? ? ? ? ? ? ? ? ?]. cbn. by intros ->. Qed.

Lemma malloc_large_none fuel size s : heap_sem (pages s) = 1 -> may (malloc_large fuel size) (none_same s) s.
Proof.
  intros Hs. unfold malloc_large. apply may_bind. intros [chunk|] s1 E; [never_none|].
  apply may_ret. intros _. by apply (page_alloc_none _ _ _ Hs _ _ E).
Qed.

Lemma malloc_new_zone_none fuel zi size s :
  heap_sem (pages s) = 1 -> may (malloc_new_zone fuel zi size) (none_same s) (with_sem s 0).
Proof.
  intros Hs. unfold malloc_new_zone. apply may_bind. intros ? ? [= <- <-].
  destruct (zone_free (with_sem s 0)) as [z|].
  { apply may_any. intros ? ?. apply zone_setup_some. }
  apply may_bind. intros ? s1 E.
  assert (s1 = s) as ->.
  { revert E. unfold heap_unlock, on_pages, heap_release, modify. cbn. intros [= <- <-].
    by apply with_sem_back. }
  apply may_bind. intros [z|] s2 E2.
  - do 3 (apply may_any; intros ? ?). apply zone_setup_some.
  - apply may_ret. intros _. by apply (page_alloc_none _ _ _ Hs _ _ E2).
Qed.

Lemma rt_malloc_none fuel size s : heap_sem (pages s) = 1 -> may (rt_malloc fuel size) (none_same s) s.
Proof.
  intros Hs. unfold rt_malloc. case_match; [by apply may_ret|].
  apply may_bind. intros ? ? [= <- <-]. case_match; [by apply malloc_large_none|].
  apply may_bind, heap_lock_may; [done|]. destruct (zoneindex size) as [zi csize].
  apply may_bind. intros ? s1 E. assert (s1 = with_sem s 0) as ->.
  { revert E. unfold assertM. case_match; [by intros [= <- <-]|done]. }
  apply may_bind. intros ? ? [= <- <-]. case_match; [apply malloc_zone_some|by apply malloc_new_zone_none].
Qed.

Lemma realloc_copy_none fuel p size m s :
  heap_sem (pages s) = 1 -> may (realloc_copy fuel p size m) (none_same s) s.
Proof.
  intros Hs. unfold realloc_copy. apply may_bind. intros [q|] s1 E; [never_none|].
  apply may_ret. intros _. by apply (rt_malloc_none _ _ _ Hs _ _ E).
Qed.

Lemma rt_realloc_none fuel p size s : size <> 0 -> heap_sem (pages s) = 1 ->
  may (rt_realloc fuel (Some p) size) (none_same s) s.
Proof.
  intros Hz Hs. unfold rt_realloc. destruct (Z.eqb_spec size 0); [done|].
  apply may_bind. intros ? ? [= <- <-]. case_match; [by apply realloc_copy_none|].
  case_match; [|by apply may_ret]. apply may_bind. intros ? s1 E. assert (s1 = s) as ->.
  { revert E. unfold assertM. case_match; [by intros [= <- <-]|done]. }
  case_match; [by apply may_ret|]. by apply realloc_copy_none.
Qed.

Section realloc_cases.
Context (lo n : Z) (mub : Z * Z).
Hypotheses (Hlo : 0 < lo) (Hn : 0 < n) (Hhi : lo + n < 2 ^ 52) (Hn19 : n < 2 ^ 19).
Context (fuel : nat) (Hfuel : (Z.to_nat n <= fuel)%nat).

(** The bytes of the blocks that were moved, and of the others. *)
Lemma realloc_bytes out l g s i p r size : slab_inv lo n mub l (g_zf g) g s -> heap_sem (pages s) = 1 ->
  Forall2 owns out (g_al g) -> out !! i = Some (p, r) -> 0 < size < 2 ^ 64 ->
  wp (rt_realloc fuel (Some p) size) (fun res s' =>
    forall q, res = Some q -> (forall k, 0 <= k < Z.min r size -> data s' (q + k) = data s (p + k)) /\
      forall j p' r', j <> i -> out !! j = Some (p', r') ->
        forall k, 0 <= k < r' -> data s' (p' + k) = data s (p' + k)) s.
Proof using Hlo Hn Hhi Hn19 Hfuel.
  intros Hinv Hsem Hout Hi Hsize.
  destruct (Forall2_lookup_l _ _ _ _ _ Hout Hi) as (a & Ha & [E Hf]). cbn in E. subst p.
  eapply wp_mono; [apply (wp_rt_realloc lo n mub Hlo Hn Hhi Hn19 fuel Hfuel l g s i a size); done|].
  intros res s'' [(-> & _ & Ed)|[(-> & -> & _)|(c & sz & -> & (l' & g' & H1 & E1 & _) & Hsz & Hfc & Hap & Ed)]] q [= <-].
  - done.
  - destruct Hf as ((_ & Hr) & _). cbn [snd] in Hr. split.
    + intros k Hk. rewrite Ed. unfold copied. ram_cases; [f_equal; lia|lia].
    + intros j p' r' Hj Hjo k Hk. destruct (Forall2_lookup_l _ _ _ _ _ Hout Hjo) as (d & Hd & [E' Hfd]).
      cbn in E'. subst p'. destruct Hfd as ((_ & Hrd) & _). cbn [snd] in Hrd.
      assert (Hin : d ∈ delete i (g_al g)).
      { apply (list_elem_of_lookup_2 _ (if decide (j < i)%nat then j else (j - 1)%nat)).
        case_decide; [by rewrite list_lookup_delete_lt|]. rewrite list_lookup_delete_ge by lia.
        by replace (S (j - 1)) with j by lia. }
      apply elem_of_Permutation in Hin as [rest Hrest].
      rewrite Ed. unfold copied. ram_cases; [exfalso|done].
      destruct (live_apart lo n mub l' g' s'' H1 c d rest) as [H|H]; [by rewrite E1, Hrest|lia|lia].
Qed.

Lemma realloc_zero out s i p r : heap_state lo n mub out s -> out !! i = Some (p, r) ->
  wp (rt_realloc fuel (Some p) 0) (fun res s' =>
    res = None /\ heap_state lo n mub (delete i out) s' /\ forall x, data s' x = data s x) s.
Proof using Hlo Hn Hhi Hn19 Hfuel.
  intros (l & g & Hinv & Hsem & Hout) Hi. unfold rt_realloc. cbn [Z.eqb].
  destruct (Forall2_lookup_l _ _ _ _ _ Hout Hi) as (a & Ha & [E _]). cbn in E. subst p.
  apply wp_bind. eapply wp_mono;
    [by apply (wp_rt_free lo n mub Hlo Hn Hhi fuel Hfuel (heap_small n Hn19) l g s i a)|].
  intros [] s' (l' & g' & H1 & E1 & Hs & Ed & _). wp_steps. split_and!; [done| |by rewrite Ed].
  exists l', g'. rewrite E1. split_and!; try done. by apply Forall2_delete.
Qed.

Lemma realloc_cases out s i p r size : heap_state lo n mub out s -> out !! i = Some (p, r) ->
  0 <= size < 2 ^ 64 ->
  wp (rt_realloc fuel (Some p) size) (fun res s' =>
    match res with
    | None => if size =? 0 then heap_state lo n mub (delete i out) s' /\ (forall x, data s' x = data s x)
              else s' = s
    | Some q => size <> 0 /\
        heap_state lo n mub (if q =? p then <[i := (q, size)]> out else (q, size) :: delete i out) s' /\
        (forall k, 0 <= k < Z.min r size -> data s' (q + k) = data s (p + k)) /\
        forall j p' r', j <> i -> out !! j = Some (p', r') ->
          forall k, 0 <= k < r' -> data s' (p' + k) = data s (p' + k)
    end) s.
Proof using Hlo Hn Hhi Hn19 Hfuel.
  intros Hst Hi Hsize. destruct (decide (size = 0)) as [->|Hz].
  { eapply wp_mono; [by apply (realloc_zero out s i p r)|]. by intros ? s' (-> & H1 & H2). }
  destruct (id Hst) as (l & g & Hinv & Hsem & Hout).
  eapply wp_mono; [apply (may_wp _ _ _ _ (wp_both _ _ _ _
    (wp_realloc_state lo n mub Hlo Hn Hhi Hn19 fuel Hfuel out s i p r size Hst Hi Hsize)
    (realloc_bytes out l g s i p r size Hinv Hsem Hout Hi ltac:(lia)))
    (rt_realloc_none fuel p size s Hz Hsem))|].
  cbv beta. intros [q|] s' [[H1 H2] H3]; destruct (Z.eqb_spec size 0); try done.
  - destruct (H2 q eq_refl). by split_and!.
  - by apply H3.
Qed.
End realloc_cases.

(** C23: in every such state, [rt_realloc] of a held block to another size than 0
    keeps its first bytes, up to the smaller of the two sizes, and the bytes of
    every other block, and the client holds the block returned in place of the
    old one; when it returns [RT_NULL] the heap is exactly as it was, so that
    every block, the old one included, is still held with its bytes.  To size 0
    it returns [RT_NULL] and gives the block back, and changes no byte. *)
Theorem rt_realloc_keeps fuel b e ops s :
  bounds_ok b e -> (Z.to_nat (heap_pages b e) <= fuel)%nat -> heap_blank b e s -> Forall heap_op_ok ops ->
  wp (rt_system_heap_init fuel b e;; heap_run fuel ops []) (fun out s' =>
    exists mub, let held := heap_state (heap_lo b) (heap_pages b e) mub in held out s' /\
    forall i p r size, out !! i = Some (p, r) -> 0 <= size < 2 ^ 64 ->
    wp (rt_realloc fuel (Some p) size) (fun res s'' =>
      match res with
      | None => if size =? 0 then held (delete i out) s'' /\ (forall x, data s'' x = data s' x)
                else s'' = s'
      | Some q => size <> 0 /\
          held (if q =? p then <[i := (q, size)]> out else (q, size) :: delete i out) s'' /\
          (forall k, 0 <= k < Z.min r size -> data s'' (q + k) = data s' (p + k)) /\
          forall j p' r', j <> i -> out !! j = Some (p', r') ->
            forall k, 0 <= k < r' -> data s'' (p' + k) = data s' (p' + k)
      end) s') s.
Proof.
  intros Hb Hfuel Hs Hops. wp_steps. eapply wp_mono; [by apply wp_heap_init|].
  intros [] s1 (mub & Hst & _ & _). destruct Hb as (Hb1 & Hb2 & Hn). set (lo := heap_lo b) in *.
  assert (Hlo : 0 < lo) by (unfold lo, heap_lo; zmod).
  assert (Hhi : lo + heap_pages b e < 2 ^ 52).
  { unfold heap_pages. fold lo. replace (lo + (e / 4096 - lo)) with (e / 4096) by lia. apply Z.div_lt_upper_bound; lia. }
  eapply wp_mono; [apply (wp_heap_run lo (heap_pages b e) mub Hlo ltac:(lia) Hhi ltac:(lia) fuel Hfuel ops []); done|].
  intros out s' Hheld. exists mub. split; [done|]. intros i p r size Hi Hsize.
  by apply (realloc_cases lo (heap_pages b e) mub Hlo ltac:(lia) Hhi ltac:(lia) fuel Hfuel).
Qed.

(** ** Aligned blocks *)
Lemma wp_load_stored k : forall p v m, 0 <= v < 256 ^ Z.of_nat k ->
  (forall x, p <= x < p + Z.of_nat k -> m x = Some (u8 (v / 256 ^ (x - p)))) ->
  wp (load_le k p) (fun r m' => r = v /\ m' = m) m.
Proof.
  induction k as [|k IH]; intros p v m Hv Hm; cbn [load_le]; [wp_steps; split; [lia|done]|].
  rewrite Nat2Z.inj_succ, Z.pow_succ_r in Hv by lia.
  apply wp_bind, (wp_load8 _ _ (u8 v)).
  { rewrite Hm by lia. by rewrite Z.sub_diag, Z.pow_0_r, Z.div_1_r. }
  apply wp_bind. eapply wp_mono; [apply (IH (p + 1) (v / 256) m)|].
  - split; [zmod|]. apply Z.div_lt_upper_bound; lia.
  - intros x Hx. rewrite Hm by lia. replace (x - p) with (1 + (x - (p + 1))) by lia.
    rewrite Z.pow_add_r, <-Z.div_div by lia. done.
  - intros r m' [-> ->]. wp_steps. split; [|done]. wraps. zmod.
Qed.

Section align.
Context (ptr size al : Z).
Hypotheses (Hptr : 0 <= ptr) (Hmod : ptr mod 8 = 0) (Hal : exists k, 3 <= k /\ al = 2 ^ k)
  (Hsize : 0 <= size) (Hend : ptr + size + al + 7 < 2 ^ 64).

(** The aligned pointer of [rt_malloc_align]. *)
Definition aligned_in : Z :=
  if Z.land ptr (u64 (al - 1)) =? 0 then u64 (ptr + al)
  else Z.land (u64 (ptr + u64 (al - 1))) (u64 (Z.lnot (al - 1))).

Lemma aligned_in_spec : aligned_in mod al = 0 /\ aligned_in mod 8 = 0 /\ ptr + 8 <= aligned_in <= ptr + al.
Proof using All.
  unfold aligned_in. destruct Hal as (k & Hk & ->). assert (Hp : 0 < 2 ^ k) by (apply Z.pow_pos_nonneg; lia).
  assert (Hd : (8 | 2 ^ k)) by (exists (2 ^ (k - 3)); change 8 with (2 ^ 3); rewrite <-Z.pow_add_r by lia; f_equal; lia).
  assert (H8 : 8 <= 2 ^ k) by (apply Z.divide_pos_le; [lia|done]).
  assert (Hk64 : k <= 64).
  { destruct (decide (k <= 64)) as [|Hgt]; [done|exfalso]. assert (2 ^ 64 <= 2 ^ k) by (apply Z.pow_le_mono_r; lia). lia. }
  rewrite (u64_id (2 ^ k - 1)) by lia.
  replace (Z.land ptr (2 ^ k - 1)) with (ptr mod 2 ^ k) by (rewrite <-Z.land_ones by lia; f_equal; rewrite Z.ones_equiv; lia).
  assert (Hall : forall y, y mod 2 ^ k = 0 -> y mod 8 = 0).
  { intros y Hy. apply Z.mod_divide in Hy; [|lia]. apply Z.mod_divide; [lia|]. by transitivity (2 ^ k). }
  destruct (Z.eqb_spec (ptr mod 2 ^ k) 0) as [E|E].
  - rewrite u64_id by lia. assert (E2 : (ptr + 2 ^ k) mod 2 ^ k = 0).
    { rewrite <-(Z.mul_1_l (2 ^ k)) at 1. by rewrite Z.mod_add by lia. }
    split_and!; [done|by apply Hall|lia|lia].
  - rewrite u64_id, land_align by lia. set (q := (ptr + (2 ^ k - 1)) / 2 ^ k).
    assert (E2 : (2 ^ k * q) mod 2 ^ k = 0) by (rewrite Z.mul_comm; by apply Z.mod_mul; lia).
    pose proof (Hall _ E2) as E3.
    assert (Hq : ptr < 2 ^ k * q <= ptr + (2 ^ k - 1)).
    { pose proof (Z.mul_div_le (ptr + (2 ^ k - 1)) (2 ^ k) Hp) as H1. pose proof (Z.mul_succ_div_gt (ptr + (2 ^ k - 1)) (2 ^ k) Hp) as H2.
      fold q in H1, H2. split; [|lia]. assert (ptr <= 2 ^ k * q) by lia.
      destruct (decide (ptr = 2 ^ k * q)) as [E4|]; [|lia]. exfalso. apply E. by rewrite E4. }
    split_and!; [done|done|zmod|lia].
Qed.
End align.

Section align_calls.
Context (lo n : Z) (mub : Z * Z) (fuel : nat).
Hypotheses (Hlo : 0 < lo) (Hn : 0 < n) (Hhi : lo + n < 2 ^ 52) (Hn19 : n < 2 ^ 19) (Hfuel : (Z.to_nat n <= fuel)%nat).

Lemma wp_malloc_align l g s size al (Q : option Z -> slab -> Prop) : slab_inv lo n mub l (g_zf g) g s ->
  heap_sem (pages s) = 1 -> (exists k, 3 <= k /\ al = 2 ^ k) -> 0 <= size -> size + al + 7 < 2 ^ 64 ->
  (forall s', stays lo n mub (g_al g) s s' -> Q None s') ->
  (forall a l' g' d s', slab_inv lo n mub l' (g_zf g') g' (set_data d s') -> g_al g' = a :: g_al g ->
    heap_sem (pages s') = 1 -> aptr a mod 8 = 0 -> aligned_in (aptr a) al + size <= aptr a + asize a ->
    aptr a + size + al + 7 < 2 ^ 64 ->
    (forall x, aligned_in (aptr a) al - 8 <= x < aligned_in (aptr a) al ->
      d x = Some (u8 (aptr a / 256 ^ (x - (aligned_in (aptr a) al - 8))))) ->
    Q (Some (aligned_in (aptr a) al)) (set_data d s')) ->
  wp (rt_malloc_align fuel size al) Q s.
Proof using All.
  intros Hinv Hsem Hal Hsize Hov HN HS. unfold rt_malloc_align. change (8 - 1) with (2 ^ 3 - 1).
  assert (Hal8 : al = 8 * (al / 8) /\ 8 <= al).
  { destruct Hal as (k & Hk & ->). assert (8 | 2 ^ k) as [q Hq].
    { exists (2 ^ (k - 3)). change 8 with (2 ^ 3). rewrite <-Z.pow_add_r by lia. f_equal. lia. }
    pose proof (Z.pow_pos_nonneg 2 k ltac:(lia) ltac:(lia)). rewrite Hq, Z.div_mul by lia. lia. }
  destruct Hal8 as [Hal8 Hal0].
  assert (E1 : Z.land (u64 (al + (2 ^ 3 - 1))) (u64 (Z.lnot (2 ^ 3 - 1))) = al).
  { rewrite u64_id, land_align by lia. change (2 ^ 3) with 8. zmod. }
  assert (E2 : Z.land (u64 (size + (2 ^ 3 - 1))) (u64 (Z.lnot (2 ^ 3 - 1))) = 8 * ((size + 7) / 8)).
  { rewrite u64_id, land_align by lia. change (2 ^ 3) with 8. f_equal. }
  rewrite E1, E2. set (req := 8 * ((size + 7) / 8) + al).
  assert (Hreq : size + al <= req /\ 0 < req < 2 ^ 64) by (unfold req; zmod).
  rewrite (u64_id req) by lia.
  apply wp_bind. eapply wp_mono; [apply (wp_rt_malloc lo n mub Hlo Hn Hhi fuel Hfuel ltac:(lia) l g s req); [done|done|lia]|].
  intros r s1 [(l1 & a & g1 & -> & H1 & Ea & Hsv & Hs1 & Ed & Ez)|(-> & _ & g1 & H1 & Ea & Hs1 & Ed & Ez)]; cycle 1.
  { wp_steps. apply HN. exists l, g1. by split_and!. }
  assert (Ha : a ∈ g_al g1) by (rewrite Ea; by left).
  destruct (live_in lo n mub l1 g1 s1 H1 a Ha) as [A1 A2]. destruct (live_aligned lo n mub l1 g1 s1 H1 a Ha) as [A3 _].
  assert (Hle : req <= asize a).
  { destruct a as [z sz p|p k]; cbn [served asize] in *; [tauto|]. destruct Hsv as [_ ->]. zmod. }
  assert (Hend : aptr a + size + al + 7 < 2 ^ 64) by lia.
  destruct (aligned_in_spec (aptr a) size al ltac:(lia) A3 Hal Hsize Hend) as (B1 & B2 & B3).
  fold (aligned_in (aptr a) al). set (q := aligned_in (aptr a) al) in *.
  rewrite (u64_id (q - 8)) by lia. apply wp_bind, wp_on_data. unfold store_long. wp_steps; [zmod|].
  pose proof H1 as [_ _ _ _ Hm Hby _].
  eapply wp_mono; [apply (wp_store_le 8); eapply mapped_sub; [exact Hm|lia|lia]|]. intros [] d Hd. wp_steps.
  apply (HS a l1 g1 d s1); try done.
  - apply slab_inv_data; [done| |].
    + apply (mapped_same (data s1)); [|done]. intros x Hx. rewrite Hd. ram_cases; [by eexists|done].
    + intros x v. rewrite Hd. ram_cases; [|apply Hby]. intros [= <-]. apply Z.mod_pos_bound. lia.
  - fold q. lia.
  - intros x Hx. rewrite Hd. fold q. ram_cases; [done|lia].
Qed.

Lemma wp_free_align l g s a q d : slab_inv lo n mub l (g_zf g) g s -> heap_sem (pages s) = 1 -> g_al g !! 0%nat = Some a ->
  mapped d (lo * 4096) (n * 4096) -> bytes_ok d -> 8 <= q < 2 ^ 64 -> q mod 8 = 0 ->
  (forall x, q - 8 <= x < q -> d x = Some (u8 (aptr a / 256 ^ (x - (q - 8))))) ->
  wp (rt_free_align fuel q) (fun _ s' => stays lo n mub (delete 0%nat (g_al g)) s s') (set_data d s).
Proof using All.
  intros Hinv Hsem Hi Hm Hby Hq Hq8 Hd. pose proof (list_elem_of_lookup_2 _ _ _ Hi) as Ha.
  destruct (live_in lo n mub l g s Hinv a Ha) as [A1 A2]. pose proof (live_pos lo n mub l g s Hinv a Ha) as A3.
  unfold rt_free_align, load_long. rewrite u64_id by lia. apply wp_bind, wp_on_data. wp_steps; [zmod|].
  eapply wp_mono; [apply (wp_load_stored 8 _ (aptr a)); [change (256 ^ Z.of_nat 8) with (2 ^ 64); lia|]|].
  { intros x Hx. apply Hd. lia. }
  intros r d' [-> ->]. destruct (Z.eqb_spec (aptr a) 0); [lia|].
  eapply wp_mono; [apply (wp_rt_free lo n mub Hlo Hn Hhi fuel Hfuel ltac:(lia) l g (set_data d (set_data d s)) 0 a)|]; try done.
  - apply (slab_inv_data lo n mub l g (set_data d s)); try done. by apply slab_inv_data.
  - intros [] s2 (l2 & g2 & H2 & E2 & Hs2 & _ & Ez2). exists l2, g2. by split_and!.
Qed.
End align_calls.

(** C24: in every such state, [rt_malloc_align] for a power of two gives a block
    with that alignment that overlaps no block held, and whatever is written
    outside the word in front of it, [rt_free_align] gives back exactly that
    block; it fails without an effect. *)
Theorem rt_malloc_align_roundtrip fuel b e ops s :
  bounds_ok b e -> (Z.to_nat (heap_pages b e) <= fuel)%nat -> heap_blank b e s -> Forall heap_op_ok ops ->
  wp (rt_system_heap_init fuel b e;; heap_run fuel ops []) (fun out s' =>
    exists mub, let held := heap_state (heap_lo b) (heap_pages b e) mub out in
    forall size al, (exists k, 3 <= k /\ al = 2 ^ k) -> 0 <= size -> size + al + 7 < 2 ^ 64 ->
    wp (rt_malloc_align fuel size al) (fun r s1 =>
      match r with
      | None => held s1
      | Some q => q mod al = 0 /\
          (forall p r, (p, r) ∈ out -> q + size <= p \/ p + r <= q) /\
          forall d, (forall x, q - 8 <= x < q -> d x = data s1 x) ->
            (forall x, is_Some (data s1 x) -> is_Some (d x)) -> bytes_ok d ->
            wp (rt_free_align fuel q) (fun _ => held) (set_data d s1)
      end) s') s.
Proof.
  intros Hb Hfuel Hs Hops. wp_steps. eapply wp_mono; [by apply wp_heap_init|].
  intros [] s1 (mub & Hst & _ & _). destruct Hb as (Hb1 & Hb2 & Hn). set (lo := heap_lo b) in *. set (n := heap_pages b e) in *.
  assert (Hlo : 0 < lo) by (unfold lo, heap_lo; zmod).
  assert (Hhi : lo + n < 2 ^ 52).
  { unfold n, heap_pages. fold lo. replace (lo + (e / 4096 - lo)) with (e / 4096) by lia. apply Z.div_lt_upper_bound; lia. }
  eapply wp_mono; [apply (wp_heap_run lo n mub Hlo ltac:(lia) Hhi ltac:(lia) fuel Hfuel ops []); done|].
  intros out s' (l & g & Hinv & Hsem & Hout). exists mub. cbn zeta. intros size al Hal Hsize Hov.
  apply (wp_malloc_align lo n mub fuel Hlo ltac:(lia) Hhi ltac:(lia) Hfuel l g s'); try done.
  - intros s2 (l2 & g2 & H2 & E2 & Hs2 & _). exists l2, g2. by rewrite E2.
  - intros a l' g' d s2 Hi Ea Hs2 A3 Hfit Hend Hw.
    assert (Ha : a ∈ g_al g') by (rewrite Ea; by left).
    destruct (live_in lo n mub l' g' _ Hi a Ha) as [A1 A2].
    destruct (aligned_in_spec (aptr a) size al ltac:(lia) A3 Hal Hsize Hend) as (B1 & B2 & B3).
    set (q := aligned_in (aptr a) al) in *. split_and!; [done|..].
    + intros p r Hpr. apply list_elem_of_lookup_1 in Hpr as [j Hj].
      destruct (Forall2_lookup_l _ _ _ _ _ Hout Hj) as (c & Hc & [E ((_ & Hr) & _)]). cbn [fst snd] in E, Hr. subst p.
      apply list_elem_of_lookup_2, elem_of_Permutation in Hc as [rest Hrest].
      destruct (live_apart lo n mub l' g' _ Hi a c rest) as [H|H]; [by rewrite Ea, Hrest|lia|lia].
    + intros d' Hd' Hm' Hby'. cbn [data set_data] in Hd', Hm'.
      change (set_data d' (set_data d s2)) with (set_data d' s2). pose proof Hi as [_ _ _ _ Hmd _ _].
      eapply wp_mono; [apply (wp_free_align lo n mub fuel Hlo ltac:(lia) Hhi ltac:(lia) Hfuel l' g' (set_data d s2) a q d')|]; try done.
      * by rewrite Ea.
      * eapply mapped_same; [exact Hm'|exact Hmd].
      * lia.
      * intros x Hx. rewrite Hd' by done. by apply Hw.
      * intros [] s3 (l3 & g3 & H3 & E3 & Hs3 & _). exists l3, g3. rewrite E3, Ea. by split_and!.
Qed.

(** * Examples *)
(** Twenty pages of zeroes from page 16 on, and the variables before the start. *)
Definition ex_lo : Z := 65536.
Definition ex_hi : Z := 147456.
Definition ex_slab : slab :=
  mkSlab (mkHeap (fun _ => mkPage None 0) None 0)
    (fun a => if (ex_lo <=? a) && (a <? ex_hi) then Some 0 else None)
    (fun _ => zero_zone) (fun _ => None) (fun _ => None) None 0 0 0 0 None (fun _ => mkUsage 0 0) 0 0 0 0.
Definition ex_ops : list heap_op :=
  [HMalloc 100; HMalloc 100; HCalloc 3 40; HMalloc 9000; HFree 2; HRealloc 1 100; HMalloc 5000].

Lemma ex_bounds : bounds_ok ex_lo ex_hi.
Proof. vm_compute. by split_and!. Qed.
Lemma ex_blank : heap_blank ex_lo ex_hi ex_slab.
Proof.
  split; try done.
  - intros a Ha. cbn. destruct (Z.leb_spec ex_lo a); [|lia]. destruct (Z.ltb_spec a ex_hi); [by eexists|lia].
  - intros a v. cbn. case_match; [|done]. intros [= <-]. vm_compute. by split.
Qed.
Lemma ex_ops_ok : Forall heap_op_ok ex_ops.
Proof. repeat constructor; vm_compute; congruence. Qed.

Lemma rt_malloc_history_ex :
  wp (rt_system_heap_init 20 ex_lo ex_hi;; heap_run 20 ex_ops []) (fun out s' => exists mub l g,
    slab_inv (heap_lo ex_lo) (heap_pages ex_lo ex_hi) mub l (g_zf g) g s' /\ Forall2 owns out (g_al g) /\
    (forall x, (cover x (out ++ own_regions mub l g s') <=
      inb x ((heap_lo ex_lo * 4096)%Z, (heap_pages ex_lo ex_hi * 4096)%Z))%nat) /\
    used_mem s' = u64 (total (g_al g)) /\
    forall size, 0 < size < 2 ^ 64 -> wp (rt_malloc 20 size)
      (fun r _ => r = None -> forall a k, (a, k) ∈ l -> k < pages_for s' size) s') ex_slab /\
  wp (rt_system_heap_init 20 ex_lo ex_hi;; heap_run 20 ex_ops [])
    (fun out s' => out = [(69896, 100); (135168, 9000); (69688, 100)] /\ used_mem s' = 12496) ex_slab.
Proof.
  split.
  - apply (rt_malloc_history 20 ex_lo ex_hi ex_ops ex_slab); [apply ex_bounds|vm_compute; lia|apply ex_blank|apply ex_ops_ok].
  - vm_compute. done.
Defined.

Lemma rt_realloc_keeps_ex :
  wp (rt_system_heap_init 20 ex_lo ex_hi;; heap_run 20 ex_ops []) (fun out s' =>
    exists mub, let held := heap_state (heap_lo ex_lo) (heap_pages ex_lo ex_hi) mub in held out s' /\
    forall i p r size, out !! i = Some (p, r) -> 0 <= size < 2 ^ 64 ->
    wp (rt_realloc 20 (Some p) size) (fun res s'' =>
      match res with
      | None => if size =? 0 then held (delete i out) s'' /\ (forall x, data s'' x = data s' x)
                else s'' = s'
      | Some q => size <> 0 /\
          held (if q =? p then <[i := (q, size)]> out else (q, size) :: delete i out) s'' /\
          (forall k, 0 <= k < Z.min r size -> data s'' (q + k) = data s' (p + k)) /\
          forall j p' r', j <> i -> out !! j = Some (p', r') ->
            forall k, 0 <= k < r' -> data s'' (p' + k) = data s' (p' + k)
      end) s') ex_slab /\
  wp (rt_system_heap_init 20 ex_lo ex_hi;; p ← rt_malloc 20 9;
      on_data (store8 (default 0 p + 8) 77);; q ← rt_realloc 20 p 17; v ← on_data (load8 (default 0 q + 8));
      big ← rt_realloc 20 q (2 ^ 40); mret (p, q, v, big))
    (fun r _ => r = (Some 69696, Some 102456, 77, None)) ex_slab.
Proof.
  split.
  - apply (rt_realloc_keeps 20 ex_lo ex_hi ex_ops ex_slab); [apply ex_bounds|vm_compute; lia|apply ex_blank|apply ex_ops_ok].
  - vm_compute. done.
Defined.

Lemma rt_malloc_align_roundtrip_ex :
  wp (rt_system_heap_init 20 ex_lo ex_hi;; heap_run 20 ex_ops []) (fun out s' =>
    exists mub, let held := heap_state (heap_lo ex_lo) (heap_pages ex_lo ex_hi) mub out in
    forall size al, (exists k, 3 <= k /\ al = 2 ^ k) -> 0 <= size -> size + al + 7 < 2 ^ 64 ->
    wp (rt_malloc_align 20 size al) (fun r s1 =>
      match r with
      | None => held s1
      | Some q => q mod al = 0 /\
          (forall p r, (p, r) ∈ out -> q + size <= p \/ p + r <= q) /\
          forall d, (forall x, q - 8 <= x < q -> d x = data s1 x) ->
            (forall x, is_Some (data s1 x) -> is_Some (d x)) -> bytes_ok d ->
            wp (rt_free_align 20 q) (fun _ => held) (set_data d s1)
      end) s') ex_slab /\
  wp (rt_system_heap_init 20 ex_lo ex_hi;; p ← rt_malloc_align 20 50 64;
      s ← get; rt_free_align 20 (default 0 p);; s' ← get; mret (p, used_mem s, used_mem s'))
    (fun r _ => r = (Some 69696, 120, 0)) ex_slab.
Proof.
  split.
  - apply (rt_malloc_align_roundtrip 20 ex_lo ex_hi ex_ops ex_slab); [apply ex_bounds|vm_compute; lia|apply ex_blank|apply ex_ops_ok].
  - vm_compute. done.
Defined.
