(* ===== verification/Format.v ===== *)
(** Formatted printing ([rt-thread/src/kservice.c]): [print_number],
    [rt_vsnprintf] and the functions above it, on the memory of [KMem.v].

    This is the code of the configuration: [RT_PRINTF_PRECISION] is defined,
    [RT_PRINTF_LONGLONG] and [RT_PRINTF_SPECIAL] are not, and a [long] has 64
    bits.  A [va_list] is the list of the 64-bit slots of the arguments; an
    argument that is not there has no result. *)
From Stdlib Require Import Strings.Ascii Strings.String.
From S2P Require Import Prelude KMem.

Definition i64 (z : Z) : Z := (z + 2 ^ 63) mod 2 ^ 64 - 2 ^ 63.

(** The code of a character. *)
Definition chr (c : ascii) : Z := Z.of_N (N_of_ascii c).
Arguments chr c%_char.
Definition text (s : string) : list Z := map chr (list_ascii_of_string s).
Arguments text s%_string.

Definition isdigit (c : Z) : bool := u32 (c - chr "0") <? 10.

(** The digit and the rest; the base 8 is treated as 16. *)
Definition divide (n base : Z) : Z * Z :=
  if base =? 10 then (i32 (u64 n mod 10), i64 (u64 n / 10))
  else (i32 (u64 n mod 16), i64 (u64 n / 16)).

(** The pointer and the number. *)
Definition skip_digit (x : Z * Z) : M ram (Z * Z + Z * Z) :=
  let (s, i) := x in
  c ← load8 s;
  if isdigit c then mret (inl (s + 1, i32 (i * 10 + c - chr "0"))) else mret (inr (s, i)).
Definition skip_atoi (fuel : nat) (s : Z) : M ram (Z * Z) := loop fuel skip_digit (s, 0).

Definition ZEROPAD : Z := 1.
Definition SIGN : Z := 2.
Definition PLUS : Z := 4.
Definition SPACE : Z := 8.
Definition LEFT : Z := 16.
Definition SPECIAL : Z := 32.
Definition LARGE : Z := 64.
Definition flag (f type : Z) : bool := negb (Z.land type f =? 0).

Definition small_digits : list Z := text "0123456789abcdef".
Definition large_digits : list Z := text "0123456789ABCDEF".

(** [if (buf < end) *buf = c; ++ buf;] *)
Definition put_char (end_ buf c : Z) : M ram Z :=
  (if buf <? end_ then store8 buf c else mret tt);; mret (buf + 1).

(** [while (size-- > 0)], with the pointer and the size after it *)
Definition print_pad (end_ c : Z) (x : Z * Z) : M ram (Z * Z + Z * Z) :=
  let (buf, size) := x in
  if 0 <? size then
    buf ← put_char end_ buf c;
    mret (inl (buf, i32 (size - 1)))
  else mret (inr (buf, i32 (size - 1))).

(** [while (num != 0) tmp[i++] = digits[divide(&num, base)]]; [tmp] has 16
    places. *)
Definition number_digit (digits : list Z) (base : Z) (x : list Z * Z) : M ram (list Z * Z + list Z) :=
  let (tmp, num) := x in
  if negb (num =? 0) then
    assertM (Z.of_nat (length tmp) <? 16);;
    let (res, num) := divide num base in
    d ← ofopt (digits !! Z.to_nat res);
    mret (inl (tmp ++ [d], num))
  else mret (inr tmp).

(** [while (i < precision--)] *)
Definition print_zero (end_ i : Z) (x : Z * Z) : M ram (Z * Z + Z) :=
  let (buf, precision) := x in
  if i <? precision then
    buf ← put_char end_ buf (chr "0");
    mret (inl (buf, i32 (precision - 1)))
  else mret (inr buf).

(** [while (i-- > 0 && (precision_bak != 0))] *)
Definition print_digit (end_ precision_bak : Z) (tmp : list Z) (x : Z * Z) : M ram (Z * Z + Z) :=
  let (buf, i) := x in
  if (0 <? i) && negb (precision_bak =? 0) then
    c ← ofopt (tmp !! Z.to_nat (i - 1));
    buf ← put_char end_ buf c;
    mret (inl (buf, i - 1))
  else mret (inr buf).

(** The sign to print, and the number without it. *)
Definition number_sign (num type : Z) : option Z * Z :=
  if flag SIGN type then
    if num <? 0 then (Some (chr "-"), i64 (- num))
    else if flag PLUS type then (Some (chr "+"), num)
    else if flag SPACE type then (Some (chr " "), num)
    else (None, num)
  else (None, num).

Definition print_number (fuel : nat) (buf end_ num base s precision type : Z) : M ram Z :=
  let precision_bak := precision in
  let size := s in
  let digits := if flag LARGE type then large_digits else small_digits in
  let type := if flag LEFT type then Z.land type (Z.lnot ZEROPAD) else type in
  let c := if flag ZEROPAD type then chr "0" else chr " " in
  let (sign, num) := number_sign num type in
  tmp ← (if num =? 0 then mret [chr "0"] else loop fuel (number_digit digits base) ([], num));
  let i := Z.of_nat (length tmp) in
  let precision := if precision <? i then i else precision in
  let size := i32 (size - precision) in
  x ← (if negb (flag (Z.lor ZEROPAD LEFT) type) then
         let size := if bool_decide (sign <> None) && (0 <? size) then i32 (size - 1) else size in
         loop fuel (print_pad end_ (chr " ")) (buf, size)
       else mret (buf, size));
  let (buf, size) := x : Z * Z in
  x ← (match sign with
       | Some sign => buf ← put_char end_ buf sign; mret (buf, i32 (size - 1))
       | None => mret (buf, size)
       end);
  x ← (if negb (flag LEFT type) then loop fuel (print_pad end_ c) x else mret x);
  let (buf, size) := x : Z * Z in
  buf ← loop fuel (print_zero end_ i) (buf, precision);
  buf ← loop fuel (print_digit end_ precision_bak tmp) (buf, i);
  x ← loop fuel (print_pad end_ (chr " ")) (buf, size);
  mret x.1.

(** * Directives *)
(** The next slot of the arguments. *)
Definition va_arg (args : list Z) : M ram (Z * list Z) :=
  match args with [] => fail | a :: args => mret (a, args) end.

(** The flag a character stands for. *)
Definition flag_of (c : Z) : option Z :=
  if c =? chr "-" then Some LEFT
  else if c =? chr "+" then Some PLUS
  else if c =? chr " " then Some SPACE
  else if c =? chr "#" then Some SPECIAL
  else if c =? chr "0" then Some ZEROPAD
  else None.
Definition format_flag (x : Z * Z) : M ram (Z * Z + Z * Z) :=
  let (fmt, flags) := x in
  let fmt := fmt + 1 in
  c ← load8 fmt;
  match flag_of c with
  | Some f => mret (inl (fmt, u8 (Z.lor flags f)))
  | None => mret (inr (fmt, flags))
  end.

(** The format, the arguments, the flags and the width. *)
Definition format_width (fuel : nat) (fmt : Z) (args : list Z) (flags : Z) : M ram (Z * list Z * Z * Z) :=
  c ← load8 fmt;
  if isdigit c then
    x ← skip_atoi fuel fmt;
    mret (x.1, args, flags, x.2)
  else if c =? chr "*" then
    a ← va_arg args;
    let field_width := i32 a.1 in
    if field_width <? 0 then mret (fmt + 1, a.2, u8 (Z.lor flags LEFT), i32 (- field_width))
    else mret (fmt + 1, a.2, flags, field_width)
  else mret (fmt, args, flags, -1).

Definition format_precision (fuel : nat) (fmt : Z) (args : list Z) : M ram (Z * list Z * Z) :=
  c ← load8 fmt;
  if c =? chr "." then
    let fmt := fmt + 1 in
    c ← load8 fmt;
    x ← (if isdigit c then x ← skip_atoi fuel fmt; mret (x.1, args, x.2)
         else if c =? chr "*" then a ← va_arg args; mret (fmt + 1, a.2, i32 a.1)
         else mret (fmt, args, -1));
    let '(fmt, args, precision) := x : Z * list Z * Z in
    mret (fmt, args, if precision <? 0 then 0 else precision)
  else mret (fmt, args, -1).

(** The qualifier, 0 if there is none. *)
Definition format_qualifier (fmt : Z) : M ram (Z * Z) :=
  c ← load8 fmt;
  if (c =? chr "h") || (c =? chr "l") then mret (fmt + 1, c) else mret (fmt, 0).

(** [while (--field_width > 0)] *)
Definition pad_width (end_ : Z) (x : Z * Z) : M ram (Z * Z + Z * Z) :=
  let (str, field_width) := x in
  let field_width := i32 (field_width - 1) in
  if 0 <? field_width then
    str ← put_char end_ str (chr " ");
    mret (inl (str, field_width))
  else mret (inr (str, field_width)).
Definition format_char (fuel : nat) (end_ str a flags field_width : Z) : M ram Z :=
  x ← (if negb (flag LEFT flags) then loop fuel (pad_width end_) (str, field_width)
       else mret (str, field_width));
  str ← put_char end_ x.1 (u8 a);
  x ← loop fuel (pad_width end_) (str, x.2);
  mret x.1.

(** The string of an argument: a null pointer stands for a constant. *)
Definition null_text : list Z := text "(NULL)".
Definition string_len (fuel : nat) (s : Z) : M ram Z :=
  if s =? 0 then mret (Z.of_nat (length null_text)) else rt_strlen fuel s.
Definition string_char (s i : Z) : M ram Z :=
  if s =? 0 then ofopt (null_text !! Z.to_nat i) else load8 (s + i).
(** [while (len < field_width--)] *)
Definition pad_string (end_ len : Z) (x : Z * Z) : M ram (Z * Z + Z * Z) :=
  let (str, field_width) := x in
  if len <? field_width then
    str ← put_char end_ str (chr " ");
    mret (inl (str, i32 (field_width - 1)))
  else mret (inr (str, i32 (field_width - 1))).
Definition copy_string (end_ s len : Z) (x : Z * Z) : M ram (Z * Z + Z) :=
  let (str, i) := x in
  if i <? len then
    c ← string_char s i;
    str ← put_char end_ str c;
    mret (inl (str, i + 1))
  else mret (inr str).
Definition format_string (fuel : nat) (end_ str s flags field_width precision : Z) : M ram Z :=
  len ← string_len fuel s;
  let len := i32 len in
  let len := if (0 <? precision) && (precision <? len) then precision else len in
  x ← (if negb (flag LEFT flags) then loop fuel (pad_string end_ len) (str, field_width)
       else mret (str, field_width));
  let (str, field_width) := x : Z * Z in
  str ← loop fuel (copy_string end_ s len) (str, 0);
  x ← loop fuel (pad_string end_ len) (str, field_width);
  mret x.1.

(** The number of an argument: [num] is a [rt_uint32_t], the signed value is
    assigned back to it. *)
Definition number_arg (qualifier flags a : Z) : Z :=
  if qualifier =? chr "l" then
    let num := u32 a in if flag SIGN flags then u32 (i32 num) else num
  else if qualifier =? chr "h" then
    let num := u16 a in if flag SIGN flags then u32 (i16 num) else num
  else
    let num := u32 a in if flag SIGN flags then u32 (i32 num) else num.

(** The base and the flags of a conversion of integers. *)
Definition integer_conv (c flags : Z) : option (Z * Z) :=
  if c =? chr "o" then Some (8, flags)
  else if c =? chr "X" then Some (16, u8 (Z.lor flags LARGE))
  else if c =? chr "x" then Some (16, flags)
  else if (c =? chr "d") || (c =? chr "i") then Some (10, u8 (Z.lor flags SIGN))
  else if c =? chr "u" then Some (10, flags)
  else None.

(** The text of the directive at [fmt], behind its flags; the result is the
    format, the string pointer and the arguments behind it. *)
Definition format_convert (fuel : nat) (end_ fmt str : Z) (args : list Z)
    (flags field_width precision qualifier : Z) : M ram (Z * Z * list Z) :=
  c ← load8 fmt;
  if c =? chr "c" then
    a ← va_arg args;
    str ← format_char fuel end_ str a.1 flags field_width;
    mret (fmt + 1, str, a.2)
  else if c =? chr "s" then
    a ← va_arg args;
    str ← format_string fuel end_ str (u64 a.1) flags field_width precision;
    mret (fmt + 1, str, a.2)
  else if c =? chr "p" then
    a ← va_arg args;
    str ← (if field_width =? -1 then
             print_number fuel str end_ (i64 a.1) 16 (8 * 2) precision (u8 (Z.lor flags ZEROPAD))
           else print_number fuel str end_ (i64 a.1) 16 field_width precision flags);
    mret (fmt + 1, str, a.2)
  else if c =? chr "%" then
    str ← put_char end_ str (chr "%");
    mret (fmt + 1, str, args)
  else
    match integer_conv c flags with
    | Some (base, flags) =>
        a ← va_arg args;
        str ← print_number fuel str end_ (number_arg qualifier flags a.1) base field_width precision flags;
        mret (fmt + 1, str, a.2)
    | None =>
        str ← put_char end_ str (chr "%");
        if negb (c =? 0) then
          str ← put_char end_ str c;
          mret (fmt + 1, str, args)
        else mret (fmt, str, args)
    end.

(** [for (; *fmt ; ++fmt)] *)
Definition format_step (fuel : nat) (end_ : Z) (x : Z * Z * list Z) : M ram (Z * Z * list Z + Z) :=
  let '(fmt, str, args) := x in
  c ← load8 fmt;
  if c =? 0 then mret (inr str)
  else if negb (c =? chr "%") then
    str ← put_char end_ str c;
    mret (inl (fmt + 1, str, args))
  else
    x ← loop fuel format_flag (fmt, 0);
    let (fmt, flags) := x : Z * Z in
    x ← format_width fuel fmt args flags;
    let '(fmt, args, flags, field_width) := x : Z * list Z * Z * Z in
    x ← format_precision fuel fmt args;
    let '(fmt, args, precision) := x : Z * list Z * Z in
    x ← format_qualifier fmt;
    let (fmt, qualifier) := x : Z * Z in
    x ← format_convert fuel end_ fmt str args flags field_width precision qualifier;
    mret (inl x).

Definition rt_vsnprintf (fuel : nat) (buf size fmt : Z) (args : list Z) : M ram Z :=
  let end_ := u64 (buf + size) in
  let (end_, size) := if end_ <? buf then (2 ^ 64 - 1, 2 ^ 64 - 1 - buf) else (end_, size) in
  str ← loop fuel (format_step fuel end_) (fmt, buf, args);
  (if 0 <? size then
     if str <? end_ then store8 str 0 else store8 (end_ - 1) 0
   else mret tt);;
  mret (i32 (str - buf)).

Definition rt_snprintf := rt_vsnprintf.
Definition rt_vsprintf (fuel : nat) (buf fmt : Z) (args : list Z) : M ram Z :=
  rt_vsnprintf fuel buf (u64 (-1)) fmt args.
Definition rt_sprintf := rt_vsprintf.

(** [rt_kprintf]: [rt_log_buf] is at [log_buf]; the result is the number of its
    bytes that go to the console device. *)
Definition RT_CONSOLEBUF_SIZE : Z := 128.
Definition rt_kprintf (fuel : nat) (log_buf fmt : Z) (args : list Z) : M ram Z :=
  length ← rt_vsnprintf fuel log_buf (RT_CONSOLEBUF_SIZE - 1) fmt args;
  let length := u64 length in
  mret (if RT_CONSOLEBUF_SIZE - 1 <? length then RT_CONSOLEBUF_SIZE - 1 else length).
