(* ===== verification/FormatSpec.v ===== *)
(** What [rt_vsnprintf] prints, as functions on lists: a format is read into
    directives, a directive is rendered as text.  [FormatOps.v] and
    [FormatProps.v] show that the loops over pointers of [Format.v] write this
    text. *)
From Stdlib Require Import Strings.Ascii Strings.String.
From S2P Require Import Prelude KMem KMemProps Format.

(** * Numbers *)
(** The digits of [n], the least significant first. *)
Fixpoint digits (fuel : nat) (base n : Z) : list Z :=
  match fuel with
  | O => []
  | S fuel => if n =? 0 then [] else n mod base :: digits fuel base (n / base)
  end.
Definition numeral (base n : Z) : list Z := if n =? 0 then [0] else rev (digits 16 base n).
(** The number a list of digits stands for, the most significant first. *)
Definition value (base : Z) (l : list Z) : Z := foldl (fun n d => n * base + d) 0 l.

Definition digit_char (large : bool) (d : Z) : Z := if d <? 10 then chr "0" + d else (if large then chr "A" else chr "a") + (d - 10).
Definition repeated (c n : Z) : list Z := replicate (Z.to_nat n) c.

(** The code divides by 16 unless the base is 10. *)
Definition print_base (base : Z) : Z := if base =? 10 then 10 else 16.

(** The text of a number: [precision] is -1 when there is none; a precision of
    0 prints no digits at all. *)
Definition number_text (base num width precision flags : Z) : list Z :=
  let (sign, n) := number_sign num flags in
  let sign := match sign with Some c => [c] | None => [] end in
  let ds := map (digit_char (flag LARGE flags)) (numeral (print_base base) (u64 n)) in
  let len := Z.of_nat (length ds) in
  let body := repeated (chr "0") (precision - len) ++ (if precision =? 0 then [] else ds) in
  let pad := width - Z.max precision len - Z.of_nat (length sign) in
  if flag LEFT flags then sign ++ body ++ repeated (chr " ") pad
  else if flag ZEROPAD flags then sign ++ repeated (chr "0") pad ++ body
  else repeated (chr " ") pad ++ sign ++ body.

(** * Characters and strings *)
Definition justified (left : bool) (pad : Z) (l : list Z) : list Z :=
  if left then l ++ repeated (chr " ") pad else repeated (chr " ") pad ++ l.
Definition char_text (c flags width : Z) : list Z := justified (flag LEFT flags) (width - 1) [u8 c].
Definition string_text (l : list Z) (flags width precision : Z) : list Z :=
  let l := if 0 <? precision then take (Z.to_nat precision) l else l in
  justified (flag LEFT flags) (width - Z.of_nat (length l)) l.

(** * Directives *)
(** The first character, 0 at the end. *)
Definition here (f : list Z) : Z := hd 0 f.

Fixpoint read_flags (f : list Z) (flags : Z) : list Z * Z :=
  match f with
  | c :: f' => match flag_of c with Some b => read_flags f' (u8 (Z.lor flags b)) | None => (f, flags) end
  | [] => (f, flags)
  end.
Fixpoint read_number (f : list Z) (n : Z) : list Z * Z :=
  match f with
  | c :: f' => if isdigit c then read_number f' (n * 10 + (c - chr "0")) else (f, n)
  | [] => (f, n)
  end.

(** Widths and precisions up to [2 ^ 29]: beyond, the arithmetic on [int] overflows. *)
Definition LIMIT : Z := 2 ^ 29.
Definition moderate (n : Z) : bool := n <? LIMIT.

Record dir := mkDir { d_fmt : list Z; d_args : list Z; d_flags : Z; d_width : Z; d_precision : Z; d_qualifier : Z }.

Definition read_width (f args : list Z) (flags : Z) : option (list Z * list Z * Z * Z) :=
  if isdigit (here f) then
    let (f, n) := read_number f 0 in
    if moderate n then Some (f, args, flags, n) else None
  else if here f =? chr "*" then
    match args with
    | [] => None
    | a :: args =>
        let w := i32 a in
        if moderate (Z.abs w) then
          Some (tl f, args, if w <? 0 then u8 (Z.lor flags LEFT) else flags, Z.abs w)
        else None
    end
  else Some (f, args, flags, -1).

Definition read_precision (f args : list Z) : option (list Z * list Z * Z) :=
  if here f =? chr "." then
    let f := tl f in
    if isdigit (here f) then
      let (f, n) := read_number f 0 in
      if moderate n then Some (f, args, n) else None
    else if here f =? chr "*" then
      match args with
      | [] => None
      | a :: args => if moderate (i32 a) then Some (tl f, args, Z.max 0 (i32 a)) else None
      end
    else Some (f, args, 0)
  else Some (f, args, -1).

Definition read_qualifier (f : list Z) : list Z * Z :=
  if (here f =? chr "h") || (here f =? chr "l") then (tl f, here f) else (f, 0).

(** The directive behind a per cent sign, up to its conversion. *)
Definition read_dir (f args : list Z) : option dir :=
  let (f, flags) := read_flags f 0 in
  match read_width f args flags with
  | None => None
  | Some (f, args, flags, width) =>
      match read_precision f args with
      | None => None
      | Some (f, args, precision) =>
          let (f, qualifier) := read_qualifier f in
          Some (mkDir f args flags width precision qualifier)
      end
  end.

(** * Rendering *)
Section render.
(** The strings the arguments point to. *)
Context (strs : Z -> option (list Z)).

Definition arg_string (s : Z) : option (list Z) := if s =? 0 then Some null_text else strs s.

(** The text of a directive, with the format and the arguments behind it. *)
Definition render_dir (d : dir) : option (list Z * list Z * list Z) :=
  let c := here (d_fmt d) in
  let next (t : list Z) := Some (t, tl (d_fmt d), tl (d_args d)) in
  if c =? chr "c" then a ← head (d_args d); next (char_text a (d_flags d) (d_width d))
  else if c =? chr "s" then
    a ← head (d_args d);
    l ← arg_string (u64 a);
    next (string_text l (d_flags d) (d_width d) (d_precision d))
  else if c =? chr "p" then
    a ← head (d_args d);
    next (if d_width d =? -1 then number_text 16 (i64 a) 16 (d_precision d) (u8 (Z.lor (d_flags d) ZEROPAD))
          else number_text 16 (i64 a) (d_width d) (d_precision d) (d_flags d))
  else if c =? chr "%" then Some ([chr "%"], tl (d_fmt d), d_args d)
  else match integer_conv c (d_flags d) with
    | Some (base, flags) =>
        a ← head (d_args d);
        next (number_text base (number_arg (d_qualifier d) flags a) (d_width d) (d_precision d) flags)
    | None =>
        if c =? 0 then Some ([chr "%"], d_fmt d, d_args d)
        else Some ([chr "%"; c], tl (d_fmt d), d_args d)
    end.

Fixpoint render_upto (fuel : nat) (f args : list Z) : option (list Z) :=
  match fuel, f with
  | _, [] => Some []
  | O, _ => None
  | S fuel, c :: f =>
      if negb (c =? chr "%") then cons c <$> render_upto fuel f args
      else
        d ← read_dir f args;
        x ← render_dir d;
        let '(t, f, args) := x in
        app t <$> render_upto fuel f args
  end.
(** Every step shortens the format. *)
Definition render (f args : list Z) : option (list Z) := render_upto (length f) f args.
End render.
