(* ===== verification/FormatOps.v ===== *)
(** What each loop of the formatted printing does to the memory: it puts the text
    of [FormatSpec.v] behind what is written already, as far as it fits. *)
From Stdlib Require Import Strings.Ascii Strings.String.
From S2P Require Import Prelude KMem KMemProps Format FormatSpec.

Lemma length_repeated c n : Z.of_nat (length (repeated c n)) = Z.max 0 n.
Proof. unfold repeated. rewrite length_replicate. lia. Qed.
Lemma repeated_S c n : 0 < n -> repeated c n = c :: repeated c (n - 1).
Proof. intros. unfold repeated. by replace (Z.to_nat n) with (S (Z.to_nat (n - 1))) by lia. Qed.
Lemma repeated_nil c n : n <= 0 -> repeated c n = [].
Proof. intros. unfold repeated. by replace (Z.to_nat n) with 0%nat by lia. Qed.

(** * Flags *)
Lemma flag_bit k type : 0 <= k -> flag (2 ^ k) type = Z.testbit type k.
Proof.
  intros Hk. unfold flag. destruct (Z.eqb_spec (Z.land type (2 ^ k)) 0) as [E|E]; cbn [negb].
  - symmetry. assert (H : Z.testbit (Z.land type (2 ^ k)) k = false) by by rewrite E, Z.bits_0.
    by rewrite Z.land_spec, Z.pow2_bits_true, andb_true_r in H.
  - destruct (Z.testbit type k) eqn:Hb; [done|]. exfalso. apply E. apply Z.bits_inj'. intros j Hj.
    rewrite Z.land_spec, Z.bits_0, Z.pow2_bits_eqb by done. destruct (Z.eqb_spec k j) as [->|]; [by rewrite Hb|by rewrite andb_false_r].
Qed.
Definition no_zeropad (type : Z) : Z := Z.land type (Z.lnot ZEROPAD).
Lemma flag_no_zeropad k type : 0 <= k -> flag (2 ^ k) (no_zeropad type) = if k =? 0 then false else flag (2 ^ k) type.
Proof.
  intros Hk. rewrite !flag_bit by done. unfold no_zeropad. rewrite Z.land_spec, Z.lnot_spec by done.
  change ZEROPAD with (2 ^ 0). rewrite Z.pow2_bits_eqb by lia. destruct (Z.eqb_spec k 0) as [->|]; [by rewrite andb_false_r|].
  destruct (Z.eqb_spec 0 k); [lia|]. by rewrite andb_true_r.
Qed.
Lemma flag_either a b type : 0 <= a -> 0 <= b ->
  flag (Z.lor (2 ^ a) (2 ^ b)) type = flag (2 ^ a) type || flag (2 ^ b) type.
Proof.
  intros Ha Hb. unfold flag. rewrite Z.land_lor_distr_r.
  destruct (Z.eqb_spec (Z.lor (Z.land type (2 ^ a)) (Z.land type (2 ^ b))) 0) as [E|E].
  - apply Z.lor_eq_0_iff in E as [-> ->]. done.
  - destruct (Z.eqb_spec (Z.land type (2 ^ a)) 0) as [E1|]; [|done].
    destruct (Z.eqb_spec (Z.land type (2 ^ b)) 0) as [E2|]; [|done]. by rewrite E1, E2 in E.
Qed.

(** * Digits *)
Lemma digit_tables : forallb (fun d => bool_decide (small_digits !! Z.to_nat d = Some (digit_char false d)) &&
  bool_decide (large_digits !! Z.to_nat d = Some (digit_char true d)) &&
  (0 <=? digit_char false d) && (digit_char false d <? 256) && (0 <=? digit_char true d) && (digit_char true d <? 256))
  (seqZ 0 16) = true.
Proof. vm_compute. reflexivity. Qed.
Lemma digit_table large d : 0 <= d < 16 ->
  (if large : bool then large_digits else small_digits) !! Z.to_nat d = Some (digit_char large d) /\ is_byte (digit_char large d).
Proof.
  intros Hd. pose proof (forallb_elem _ _ d digit_tables ltac:(by apply elem_of_seqZ)) as H. cbn beta in H.
  rewrite !andb_true_iff, !bool_decide_eq_true, !Z.leb_le, !Z.ltb_lt in H. unfold is_byte. destruct large; tauto.
Qed.

Lemma print_base_cases base : print_base base = 10 \/ print_base base = 16.
Proof. unfold print_base. case_match; auto. Qed.

Lemma divide_spec num base : -(2 ^ 63) <= num < 2 ^ 63 ->
  divide num base = (u64 num mod print_base base, u64 num / print_base base).
Proof.
  intros Hn. assert (0 <= u64 num < 2 ^ 64) by (apply Z.mod_pos_bound; lia). unfold divide, print_base.
  case_match; f_equal; try (apply i32_small; zmod); unfold i64; rewrite Z.mod_small; zmod.
Qed.

Lemma wp_number_digits large base m : forall j tmp num fuel, (length tmp + j)%nat = 16%nat ->
  -(2 ^ 63) <= num < 2 ^ 63 -> u64 num < print_base base ^ Z.of_nat j -> (j < fuel)%nat ->
  wp (loop fuel (number_digit (if large : bool then large_digits else small_digits) base) (tmp, num))
    (fun r m' => r = tmp ++ map (digit_char large) (digits j (print_base base) (u64 num)) /\ m' = m) m.
Proof.
  assert (Hz : forall num, -(2 ^ 63) <= num < 2 ^ 63 -> (num = 0 <-> u64 num = 0)) by (intros; unfold u64; zmod).
  induction j as [|j IH]; intros tmp num [|fuel] Hl Hn Hb Hf; try lia; apply wp_loop_S; unfold number_digit at 1.
  - assert (H0 : u64 num = 0) by (assert (0 <= u64 num) by (apply Z.mod_pos_bound; lia); cbn in Hb; lia).
    rewrite (proj2 (Z.eqb_eq num 0)) by exact (proj2 (Hz num Hn) H0). cbn [negb digits map]. rewrite app_nil_r. by wp_steps.
  - cbn [digits]. destruct (Z.eqb_spec num 0) as [E|E]; cbn [negb].
    { rewrite (proj2 (Z.eqb_eq (u64 num) 0)) by exact (proj1 (Hz num Hn) E). cbn [map]. rewrite app_nil_r. by wp_steps. }
    destruct (Z.eqb_spec (u64 num) 0) as [E'|_]; [by apply (proj2 (Hz num Hn)) in E'|]. wp_steps; [lia|].
    rewrite divide_spec by done. assert (Hu : 0 <= u64 num < 2 ^ 64) by (apply Z.mod_pos_bound; lia).
    rewrite Nat2Z.inj_succ, Z.pow_succ_r in Hb by lia.
    set (b := print_base base) in *. assert (Hbb : 10 <= b <= 16) by (destruct (print_base_cases base); unfold b; lia).
    assert (Hd : 0 <= u64 num mod b < b) by (apply Z.mod_pos_bound; lia).
    destruct (digit_table large (u64 num mod b)) as [Ed _]; [lia|].
    wp_steps. apply (wp_ofopt _ _ _ _ Ed). wp_steps.
    assert (Hq : 0 <= u64 num / b < 2 ^ 63).
    { split; [apply Z.div_pos; lia|]. apply Z.div_lt_upper_bound; lia. }
    assert (Eq : u64 (u64 num / b) = u64 num / b) by (unfold u64 at 1; apply Z.mod_small; lia).
    eapply wp_mono; [apply IH|].
    + rewrite length_app. cbn. lia.
    + lia.
    + rewrite Eq. apply Z.div_lt_upper_bound; lia.
    + lia.
    + intros r m' [-> ->]. rewrite Eq, <-app_assoc. done.
Qed.

Lemma digits_lt fuel base n d : 0 < base -> d ∈ digits fuel base n -> 0 <= d < base.
Proof.
  intros Hb. revert n. induction fuel as [|fuel IH]; intros n; cbn; [by intros Hx%not_elem_of_nil|].
  case_match; [by intros Hx%not_elem_of_nil|]. intros [->|H']%elem_of_cons; [by apply Z.mod_pos_bound|by eapply IH].
Qed.
Lemma digits_length fuel base n : (length (digits fuel base n) <= fuel)%nat.
Proof. revert n. induction fuel as [|fuel IH]; intros n; cbn; [done|]. case_match; cbn; [lia|]. specialize (IH (n / base)). lia. Qed.

(** ** The parts of a number *)
Lemma number_sign_no_zeropad num type : number_sign num (no_zeropad type) = number_sign num type.
Proof. unfold number_sign. change SIGN with (2 ^ 1). change PLUS with (2 ^ 2). change SPACE with (2 ^ 3). by rewrite !flag_no_zeropad by lia. Qed.

Lemma number_sign_spec num type : -(2 ^ 63) <= num < 2 ^ 63 -> -(2 ^ 63) <= (number_sign num type).2 < 2 ^ 63 /\
  forall c, (number_sign num type).1 = Some c -> is_byte c.
Proof.
  intros Hn. assert (H : forall z, -(2 ^ 63) <= i64 z < 2 ^ 63) by (intros; unfold i64; zmod).
  unfold number_sign. repeat case_match; cbn [fst snd]; (split; [done|]); intros c'; try done;
    intros [= <-]; by vm_compute.
Qed.

Lemma numeral_bytes large base n : Forall is_byte (map (digit_char large) (numeral (print_base base) n)).
Proof.
  apply Forall_forall. intros c (d & -> & Hd)%list_elem_of_fmap. apply digit_table. unfold numeral in Hd.
  destruct (n =? 0); [apply list_elem_of_singleton in Hd; lia|].
  rewrite list_elem_of_In, <-in_rev, <-list_elem_of_In in Hd.
  apply digits_lt in Hd; destruct (print_base_cases base) as [E|E]; rewrite E in *; lia.
Qed.
Lemma numeral_length large base n : (0 < length (map (digit_char large) (numeral base n)) <= 16)%nat.
Proof.
  rewrite length_map. unfold numeral. destruct (n =? 0) eqn:E; [cbn; lia|]. rewrite length_rev.
  pose proof (digits_length 16 base n). cbn [digits] in *. rewrite E in *. cbn [length] in *. lia.
Qed.

Definition number_body (precision : Z) (ds : list Z) : list Z :=
  repeated (chr "0") (precision - Z.of_nat (length ds)) ++ (if precision =? 0 then [] else ds).

(** * Writing characters *)
Section writing.
Context (m0 : ram) (buf end_ N : Z).
Hypotheses (Hbuf : buf <= end_) (HN : forall a, buf <= a < end_ -> a < buf + N -> is_Some (m0 a)).

(** The characters [out] are written, as far as they fit. *)
Definition writes (out : list Z) (m : ram) : Prop :=
  forall a, m a = if within buf (Z.min (end_ - buf) (Z.of_nat (length out))) a
                  then out !! Z.to_nat (a - buf) else m0 a.
Definition place (out : list Z) : Z := buf + Z.of_nat (length out).
Definition fits (out : list Z) : Prop := Z.of_nat (length out) <= N.

Lemma writes_nil : writes [] m0.
Proof using Hbuf. intros a. ram_cases; [cbn in *; lia|done]. Qed.

Lemma place_snoc out c : place out + 1 = place (out ++ [c]).
Proof using. unfold place. rewrite length_app. cbn. lia. Qed.
Lemma fits_app out t : fits (out ++ t) -> fits out.
Proof using. unfold fits. rewrite length_app. lia. Qed.

Lemma wp_put_char out c m (Q : Z -> ram -> Prop) : writes out m -> fits (out ++ [c]) -> is_byte c ->
  (forall m', writes (out ++ [c]) m' -> Q (place (out ++ [c])) m') ->
  wp (put_char end_ (place out) c) Q m.
Proof using Hbuf HN.
  intros Hm Hf Hc HQ. unfold put_char. unfold fits in Hf. rewrite length_app in Hf. cbn in Hf.
  rewrite <-(place_snoc out c) in HQ. unfold place in *. destruct (Z.ltb_spec (buf + Z.of_nat (length out)) end_) as [Hlt|Hge].
  - apply wp_bind, wp_store8.
    + rewrite Hm. ram_cases; [lia|]. apply HN; lia.
    + wp_steps. apply HQ. intros a. rewrite upd_within, Hm, length_app. cbn [length].
      rewrite u8_id by done. ram_cases; try lia; try done.
      * replace (Z.to_nat (a - buf)) with (length out) by lia. by rewrite lookup_app_r, Nat.sub_diag by lia.
      * by rewrite lookup_app_l by lia.
  - wp_steps. apply HQ. intros a. rewrite Hm, length_app. cbn [length]. ram_cases; try lia; [|done].
    by rewrite lookup_app_l by lia.
Qed.

(** A loop that puts the character [c] as long as [count] is positive. *)
Lemma wp_put_loop {A} (body : Z * Z -> M ram (Z * Z + A)) (more : Z -> bool) (next count : Z -> Z)
    (res : Z -> Z -> A) (I : Z -> Prop) c :
  (forall str v, body (str, v) = if more v then str ← put_char end_ str c; mret (inl (str, next v))
                                else mret (inr (res str v))) ->
  (forall v, I v -> more v = (0 <? count v)) ->
  (forall v, I v -> 0 < count v -> I (next v) /\ count (next v) = count v - 1) ->
  is_byte c ->
  forall fuel v out m (Q : A -> ram -> Prop), I v -> writes out m ->
  fits (out ++ repeated c (count v)) -> (Z.to_nat (count v) < fuel)%nat ->
  (forall v' m', I v' -> count v' = Z.min 0 (count v) -> (count v <= 0 -> v' = v) ->
     writes (out ++ repeated c (count v)) m' ->
     Q (res (place (out ++ repeated c (count v))) v') m') ->
  wp (loop fuel body (place out, v)) Q m.
Proof using Hbuf HN.
  intros Hbody Hmore Hnext Hc fuel. induction fuel as [|fuel IH]; intros v out m Q Hv Hm Hf Hfuel HQ; [lia|].
  apply wp_loop_S. rewrite Hbody, Hmore by done. destruct (Z.ltb_spec 0 (count v)) as [Hp|Hn].
  - destruct (Hnext v Hv Hp) as [Hv' Ec].
    assert (E : out ++ repeated c (count v) = (out ++ [c]) ++ repeated c (count (next v)))
      by by rewrite repeated_S, Ec, <-app_assoc.
    rewrite E in Hf, HQ.
    apply wp_bind, wp_put_char; [done|by eapply fits_app|done|]. intros m' Hm'. wp_steps.
    apply IH; try done; [lia|]. intros v' m'' Hv'' Ec' Ev Hm''. apply HQ; try done; lia.
  - wp_steps. rewrite repeated_nil, app_nil_r in HQ by done. apply HQ; try done. lia.
Qed.

(** The loops that pad. *)
Lemma wp_print_pad c fuel size out m (Q : Z * Z -> ram -> Prop) :
  is_byte c -> -2147483648 < size < 2147483648 -> writes out m -> fits (out ++ repeated c size) ->
  (Z.to_nat size < fuel)%nat ->
  (forall m', writes (out ++ repeated c size) m' ->
     Q (place (out ++ repeated c size), i32 (Z.min 0 size - 1)) m') ->
  wp (loop fuel (print_pad end_ c) (place out, size)) Q m.
Proof using Hbuf HN.
  intros Hc Hs Hm Hf Hfuel HQ.
  apply (wp_put_loop (print_pad end_ c) (fun v => 0 <? v) (fun v => i32 (v - 1)) id
    (fun str v => (str, i32 (v - 1))) (fun v => -2147483648 < v < 2147483648) c); try done.
  - intros v Hv Hp. unfold id in *. rewrite i32_small by lia. split; [lia|done].
  - intros v' m' _ Ev _ Hm'. unfold id in *. rewrite Ev. by apply HQ.
Qed.

Lemma wp_print_zero fuel i precision out m (Q : Z -> ram -> Prop) :
  0 <= i < 2147483648 -> -2147483648 < precision < 2147483648 -> writes out m ->
  fits (out ++ repeated (chr "0") (precision - i)) -> (Z.to_nat (precision - i) < fuel)%nat ->
  (forall m', writes (out ++ repeated (chr "0") (precision - i)) m' ->
     Q (place (out ++ repeated (chr "0") (precision - i))) m') ->
  wp (loop fuel (print_zero end_ i) (place out, precision)) Q m.
Proof using Hbuf HN.
  intros Hi Hp Hm Hf Hfuel HQ.
  apply (wp_put_loop (print_zero end_ i) (fun v => i <? v) (fun v => i32 (v - 1)) (fun v => v - i)
    (fun str v => str) (fun v => -2147483648 < v < 2147483648) (chr "0")); try done.
  - intros v Hv. destruct (Z.ltb_spec i v), (Z.ltb_spec 0 (v - i)); try lia; done.
  - intros v Hv Hpos. rewrite i32_small by lia. split; lia.
  - intros v' m' _ _ _ Hm'. by apply HQ.
Qed.

Lemma wp_pad_width fuel width out m (Q : Z * Z -> ram -> Prop) :
  -2147483648 < width < 2147483648 -> writes out m ->
  fits (out ++ repeated (chr " ") (width - 1)) -> (Z.to_nat (width - 1) < fuel)%nat ->
  (forall m', writes (out ++ repeated (chr " ") (width - 1)) m' ->
     Q (place (out ++ repeated (chr " ") (width - 1)), Z.min 0 (width - 1)) m') ->
  wp (loop fuel (pad_width end_) (place out, width)) Q m.
Proof using Hbuf HN.
  intros Hw Hm Hf Hfuel HQ.
  apply (wp_put_loop (pad_width end_) (fun v => 0 <? i32 (v - 1)) (fun v => i32 (v - 1)) (fun v => v - 1)
    (fun str v => (str, i32 (v - 1))) (fun v => -2147483648 < v < 2147483648) (chr " ")); try done.
  - intros v Hv. by rewrite i32_small by lia.
  - intros v Hv Hpos. rewrite i32_small by lia. split; lia.
  - intros v' m' Hv Ec _ Hm'. rewrite i32_small by lia. cbn beta in Ec. rewrite Ec. by apply HQ.
Qed.

Lemma wp_pad_string fuel len width out m (Q : Z * Z -> ram -> Prop) :
  0 <= len < 2147483648 -> -2147483648 < width < 2147483648 -> writes out m ->
  fits (out ++ repeated (chr " ") (width - len)) -> (Z.to_nat (width - len) < fuel)%nat ->
  (forall m', writes (out ++ repeated (chr " ") (width - len)) m' ->
     Q (place (out ++ repeated (chr " ") (width - len)), Z.min len width - 1) m') ->
  wp (loop fuel (pad_string end_ len) (place out, width)) Q m.
Proof using Hbuf HN.
  intros Hl Hw Hm Hf Hfuel HQ.
  apply (wp_put_loop (pad_string end_ len) (fun v => len <? v) (fun v => i32 (v - 1)) (fun v => v - len)
    (fun str v => (str, i32 (v - 1))) (fun v => -2147483648 < v < 2147483648) (chr " ")); try done.
  - intros v Hv. destruct (Z.ltb_spec len v), (Z.ltb_spec 0 (v - len)); try lia; done.
  - intros v Hv Hpos. rewrite i32_small by lia. split; lia.
  - intros v' m' Hv Ec _ Hm'. rewrite i32_small by lia. cbn beta in Ec.
    replace (v' - 1) with (Z.min len width - 1) by lia. by apply HQ.
Qed.

Lemma wp_print_digits bak tmp : bak <> 0 -> Forall is_byte tmp ->
  forall k fuel out m (Q : Z -> ram -> Prop), (k <= length tmp)%nat -> (k < fuel)%nat -> writes out m ->
  fits (out ++ rev (take k tmp)) ->
  (forall m', writes (out ++ rev (take k tmp)) m' -> Q (place (out ++ rev (take k tmp))) m') ->
  wp (loop fuel (print_digit end_ bak tmp) (place out, Z.of_nat k)) Q m.
Proof using Hbuf HN.
  intros Hbak Hb. induction k as [|k IH]; intros [|fuel] out m Q Hk Hf Hm Hfit HQ; try lia;
    apply wp_loop_S; unfold print_digit at 1; destruct (Z.eqb_spec bak 0); try done; cbn [negb].
  - cbn [take rev] in HQ. rewrite app_nil_r in HQ. cbn. wp_steps. by apply HQ.
  - destruct (Z.ltb_spec 0 (Z.of_nat (S k))); [|lia]. cbn [andb].
    destruct (lookup_lt_is_Some_2 tmp k) as [c Hc]; [lia|]. wp_steps.
    apply (wp_ofopt _ c); [by replace (Z.to_nat (Z.of_nat (S k) - 1)) with k by lia|].
    assert (E : out ++ rev (take (S k) tmp) = (out ++ [c]) ++ rev (take k tmp)).
    { rewrite (take_S_r _ _ _ Hc), rev_app_distr, <-app_assoc. done. }
    rewrite E in Hfit, HQ. apply wp_bind, wp_put_char; [done|by eapply fits_app| |].
    { rewrite Forall_forall in Hb. apply Hb. by eapply list_elem_of_lookup_2. }
    intros m' Hm'. wp_steps. replace (Z.of_nat (S k) - 1) with (Z.of_nat k) by lia. apply IH; try done; lia.
Qed.
Lemma wp_print_no_digits tmp fuel i out m (Q : Z -> ram -> Prop) : (0 < fuel)%nat -> Q (place out) m ->
  wp (loop fuel (print_digit end_ 0 tmp) (place out, i)) Q m.
Proof using.
  intros Hf HQ. destruct fuel as [|fuel]; [lia|]. apply wp_loop_S. unfold print_digit at 1.
  rewrite andb_false_r. by wp_steps.
Qed.

Lemma wp_number_tail fuel ds precision size out m (Q : Z -> ram -> Prop) :
  Forall is_byte ds -> (length ds < 100)%nat -> -1 <= precision <= LIMIT -> -2147483648 < size < 2147483648 ->
  writes out m -> fits (out ++ number_body precision ds ++ repeated (chr " ") size) ->
  (length (number_body precision ds) + Z.to_nat size + length ds < fuel)%nat ->
  (forall m', writes (out ++ number_body precision ds ++ repeated (chr " ") size) m' ->
     Q (place (out ++ number_body precision ds ++ repeated (chr " ") size)) m') ->
  wp (buf ← loop fuel (print_zero end_ (Z.of_nat (length (rev ds))))
        (place out, if precision <? Z.of_nat (length (rev ds)) then Z.of_nat (length (rev ds)) else precision);
      buf ← loop fuel (print_digit end_ precision (rev ds)) (buf, Z.of_nat (length (rev ds)));
      x ← loop fuel (print_pad end_ (chr " ")) (buf, size);
      mret x.1) Q m.
Proof using Hbuf HN.
  unfold LIMIT. change (2 ^ 29) with 536870912. intros Hb Hl Hp Hs Hm Hfit Hf HQ. rewrite length_rev. set (len := Z.of_nat (length ds)).
  assert (Ez : repeated (chr "0") ((if precision <? len then len else precision) - len) = repeated (chr "0") (precision - len)).
  { destruct (Z.ltb_spec precision len); [|done]. by rewrite !repeated_nil by lia. }
  unfold number_body in *. fold len in Hfit, Hf, HQ. rewrite !app_assoc in Hfit, HQ.
  assert (Hlz := length_repeated (chr "0") (precision - len)). rewrite length_app in Hf.
  apply wp_bind, wp_print_zero; rewrite ?Ez; [lia|case_match; lia|done|by do 2 eapply fits_app|case_match; lia|].
  intros m1 Hm1. apply wp_bind.
  assert (Hpad : forall m2, writes ((out ++ repeated (chr "0") (precision - len)) ++ (if precision =? 0 then [] else ds)) m2 ->
    wp (x ← loop fuel (print_pad end_ (chr " ")) (place ((out ++ repeated (chr "0") (precision - len)) ++
      (if precision =? 0 then [] else ds)), size); mret x.1) Q m2).
  { intros m2 Hm2. apply wp_bind, wp_print_pad; [by vm_compute|lia|done|done|lia|]. intros m3 Hm3. wp_steps. by apply HQ. }
  destruct (Z.eqb_spec precision 0) as [->|Hne].
  - apply wp_print_no_digits; [lia|]. rewrite app_nil_r in Hpad. by apply Hpad.
  - assert (Et : rev (take (length ds) (rev ds)) = ds) by (rewrite <-(length_rev ds), firstn_all; apply rev_involutive).
    unfold len. apply wp_print_digits; rewrite ?Et; try done; [by apply Forall_rev|rewrite length_rev; lia|lia|by eapply fits_app].
Qed.

Definition sign_text (sign : option Z) : list Z := match sign with Some c => [c] | None => [] end.

Lemma wp_put_sign sign size out m (Q : Z * Z -> ram -> Prop) :
  (forall c, sign = Some c -> is_byte c) -> -2147483647 <= size < 2147483648 -> writes out m ->
  fits (out ++ sign_text sign) ->
  (forall m', writes (out ++ sign_text sign) m' ->
     Q (place (out ++ sign_text sign), size - Z.of_nat (length (sign_text sign))) m') ->
  wp (match sign with
      | Some sign => buf ← put_char end_ (place out) sign; mret (buf, i32 (size - 1))
      | None => mret (place out, size)
      end) Q m.
Proof using Hbuf HN.
  intros Hb Hs Hm Hf HQ. destruct sign as [c|]; cbn [sign_text length] in *.
  - apply wp_bind, wp_put_char; [done|done|by apply Hb|]. intros m' Hm'. wp_steps. rewrite i32_small by lia. by apply HQ.
  - wp_steps. rewrite app_nil_r, Z.sub_0_r in HQ. by apply HQ.
Qed.

Lemma wp_tmp base large n fuel m : -(2 ^ 63) <= n < 2 ^ 63 -> u64 n < print_base base ^ 16 -> (17 < fuel)%nat ->
  wp (if n =? 0 then mret [chr "0"]
      else loop fuel (number_digit (if large : bool then large_digits else small_digits) base) ([], n))
    (fun r m' => r = rev (map (digit_char large) (numeral (print_base base) (u64 n))) /\ m' = m) m.
Proof using.
  intros Hn Hb Hf. unfold numeral. destruct (Z.eqb_spec n 0) as [->|Hne].
  - wp_steps. split; [|done]. destruct large; done.
  - destruct (Z.eqb_spec (u64 n) 0) as [E|_]; [unfold u64 in E; zmod|].
    eapply wp_mono; [apply (wp_number_digits large base m 16); [done|done|exact Hb|lia]|]. intros r m' [-> ->].
    split; [|done]. by rewrite map_rev, rev_involutive.
Qed.

Lemma wp_print_number fuel out m num base width precision flags (Q : Z -> ram -> Prop) :
  -(2 ^ 63) <= num < 2 ^ 63 -> u64 (number_sign num flags).2 < print_base base ^ 16 ->
  -1 <= width <= LIMIT -> -1 <= precision <= LIMIT ->
  writes out m -> fits (out ++ number_text base num width precision flags) ->
  (length (number_text base num width precision flags) + 20 < fuel)%nat ->
  (forall m', writes (out ++ number_text base num width precision flags) m' ->
     Q (place (out ++ number_text base num width precision flags)) m') ->
  wp (print_number fuel (place out) end_ num base width precision flags) Q m.
Proof using Hbuf HN.
  intros Hnum Hb Hw Hp Hm Hfit Hf HQ. unfold print_number, number_text in *.
  change (Z.land flags (Z.lnot ZEROPAD)) with (no_zeropad flags). set (type := if flag LEFT flags then no_zeropad flags else flags).
  assert (Es : number_sign num type = number_sign num flags)
    by (unfold type; destruct (flag LEFT flags); [apply number_sign_no_zeropad|done]).
  assert (El : flag LEFT type = flag LEFT flags).
  { unfold type. destruct (flag LEFT flags) eqn:E; [|done]. change LEFT with (2 ^ 4). by rewrite flag_no_zeropad by lia. }
  assert (Ez : flag ZEROPAD type = flag ZEROPAD flags && negb (flag LEFT flags)).
  { unfold type. destruct (flag LEFT flags); [|by rewrite andb_true_r]. change ZEROPAD with (2 ^ 0).
    by rewrite flag_no_zeropad, andb_false_r by lia. }
  assert (Ee : flag (Z.lor ZEROPAD LEFT) type = flag ZEROPAD type || flag LEFT type)
    by (change ZEROPAD with (2 ^ 0); change LEFT with (2 ^ 4); by apply flag_either).
  rewrite Es, Ee, Ez, El. clearbody type. clear Es Ee Ez El.
  destruct (number_sign_spec num flags Hnum) as [Hn Hsign]. destruct (number_sign num flags) as [sign n]. cbn [fst snd] in *.
  apply wp_bind. eapply wp_mono; [apply (wp_tmp base (flag LARGE flags) n); [done|done|lia]|]. intros tmp m' [-> ->].
  pose proof (numeral_bytes (flag LARGE flags) base (u64 n)) as Hds.
  pose proof (numeral_length (flag LARGE flags) (print_base base) (u64 n)) as Hlen.
  set (ds := map _ _) in *. fold (number_body precision ds) in *. unfold LIMIT in Hw, Hp. change (2 ^ 29) with 536870912 in *.
  set (P := if precision <? Z.of_nat (length (rev ds)) then Z.of_nat (length (rev ds)) else precision).
  assert (EP : P = Z.max precision (Z.of_nat (length ds))).
  { unfold P. rewrite length_rev. destruct (Z.ltb_spec precision (Z.of_nat (length ds))); lia. }
  rewrite i32_small by lia. fold (sign_text sign) in *. set (sg := sign_text sign) in *.
  assert (Hsg : Z.of_nat (length sg) = if bool_decide (sign <> None) then 1 else 0) by (unfold sg; by destruct sign).
  rewrite <-EP in Hfit, Hf, HQ. set (pad := width - P - Z.of_nat (length sg)) in *.
  pose proof (length_repeated (chr " ") pad) as Lsp. pose proof (length_repeated (chr "0") pad) as Lz.
  assert (Hsg1 : 0 <= Z.of_nat (length sg) <= 1) by (rewrite Hsg; case_bool_decide; lia).
  destruct (flag LEFT flags) eqn:EL; [|destruct (flag ZEROPAD flags) eqn:EZ]; rewrite ?andb_false_r; cbn [negb andb orb].
  - rewrite !length_app in Hf. rewrite !(app_assoc out) in Hfit, HQ.
    wp_step. wp_step. cbn beta iota. apply wp_bind, wp_put_sign; [done|lia|done|by eapply fits_app|]. intros m1 Hm1.
    wp_step. wp_step. cbn beta iota. fold sg pad in Hm1 |- *. apply wp_number_tail; try done; [lia|lia|].
    lia.
  - rewrite !length_app in Hf. rewrite !(app_assoc out) in Hfit, HQ. rewrite !(app_assoc (out ++ sg)) in Hfit, HQ.
    wp_step. wp_step. cbn beta iota. apply wp_bind, wp_put_sign; [done|lia|done|by do 2 eapply fits_app|]. intros m1 Hm1.
    apply wp_bind. fold sg pad in Hm1 |- *.
    apply wp_print_pad; [by vm_compute|lia|done|by eapply fits_app|lia|]. intros m2 Hm2.
    pose proof (repeated_nil (chr " ") (i32 (Z.min 0 pad - 1)) ltac:(rewrite i32_small by lia; lia)) as Enil.
    apply wp_number_tail; rewrite ?Enil, ?app_nil_r; try done; [lia|rewrite i32_small; lia|].
    rewrite i32_small by lia. lia.
  - rewrite !length_app in Hf. rewrite !(app_assoc out) in Hfit, HQ. rewrite !(app_assoc (out ++ repeated _ _)) in Hfit, HQ.
    set (size1 := if bool_decide (sign <> None) && (0 <? width - P) then i32 (width - P - 1) else width - P).
    assert (E1 : repeated (chr " ") size1 = repeated (chr " ") pad /\ size1 <= width - P /\ width - P - 1 <= size1 /\ Z.max 0 size1 = Z.max 0 pad).
    { unfold size1, pad. rewrite Hsg. case_bool_decide; cbn [andb]; [|rewrite Z.sub_0_r; split_and!; done || lia].
      destruct (Z.ltb_spec 0 (width - P)); [rewrite i32_small by lia; split_and!; done || lia|].
      rewrite !repeated_nil by lia. split_and!; done || lia. }
    destruct E1 as (E1 & B1 & B2 & B3).
    apply wp_bind, wp_print_pad; rewrite ?E1; [by vm_compute|lia|done|by do 2 eapply fits_app|lia|]. intros m1 Hm1.
    apply wp_bind, wp_put_sign; [done|rewrite i32_small; lia|done|by eapply fits_app|]. intros m2 Hm2. fold sg in Hm2 |- *.
    apply wp_bind. set (size2 := i32 (Z.min 0 size1 - 1) - Z.of_nat (length sg)).
    assert (B4 : -2147483640 <= size2 < 0) by (unfold size2; rewrite i32_small; lia).
    apply wp_print_pad; rewrite ?(repeated_nil _ size2), ?app_nil_r by lia; [by vm_compute|lia|done|by eapply fits_app|lia|].
    intros m3 Hm3.
    pose proof (repeated_nil (chr " ") (i32 (Z.min 0 size2 - 1)) ltac:(rewrite i32_small by lia; lia)) as Enil.
    apply wp_number_tail; rewrite ?Enil, ?app_nil_r; try done; [lia|rewrite i32_small; lia|].
    rewrite i32_small by lia. lia.
Qed.

(** ** Characters and strings *)
Lemma wp_format_char fuel out m a flags width (Q : Z -> ram -> Prop) :
  -1 <= width <= LIMIT -> writes out m -> fits (out ++ char_text a flags width) ->
  (length (char_text a flags width) < fuel)%nat ->
  (forall m', writes (out ++ char_text a flags width) m' -> Q (place (out ++ char_text a flags width)) m') ->
  wp (format_char fuel end_ (place out) a flags width) Q m.
Proof using Hbuf HN.
  intros Hw Hm Hfit Hf HQ. unfold format_char, char_text, justified, LIMIT in *. change (2 ^ 29) with 536870912 in *.
  pose proof (length_repeated (chr " ") (width - 1)) as Lsp.
  assert (Hc : is_byte (u8 a)) by (apply Z.mod_pos_bound; lia).
  destruct (flag LEFT flags); cbn [negb]; rewrite length_app in Hf; cbn [length] in Hf; rewrite app_assoc in Hfit, HQ; apply wp_bind.
  - wp_step. cbn [fst snd]. apply wp_bind, wp_put_char; [done|by eapply fits_app|done|]. intros m1 Hm1.
    apply wp_bind, wp_pad_width; [lia|done|done|lia|]. intros m2 Hm2. wp_steps. by apply HQ.
  - apply wp_pad_width; [lia|done|by eapply fits_app|lia|]. intros m1 Hm1. cbn [fst snd].
    apply wp_bind, wp_put_char; [done|done|done|]. intros m2 Hm2. set (w := Z.min 0 (width - 1)).
    assert (Enil : repeated (chr " ") (w - 1) = []) by (apply repeated_nil; lia).
    apply wp_bind, wp_pad_width; rewrite ?Enil, ?app_nil_r; [lia|done|done|lia|]. intros m3 Hm3. wp_steps. by apply HQ.
Qed.

(** A string that the output does not reach. *)
Definition apart (p : Z) (l : list Z) : Prop :=
  forall a, p <= a <= p + Z.of_nat (length l) -> a < buf \/ Z.min end_ (buf + N) <= a.

Lemma writes_apart p l out m a : apart p l -> writes out m -> fits out -> p <= a <= p + Z.of_nat (length l) -> m a = m0 a.
Proof using. intros Ha Hm Hf Hin. rewrite Hm. specialize (Ha a Hin). unfold fits in Hf. ram_cases; [lia|done]. Qed.

Lemma bytes_at_same m m' l : forall p, (forall a, p <= a < p + Z.of_nat (length l) -> m' a = m a) -> bytes_at m p l -> bytes_at m' p l.
Proof using.
  clear. induction l as [|b l IH]; intros p Hs; [done|]. cbn. intros [Hb Hl]. split; [rewrite Hs; [done|cbn; lia]|].
  apply IH; [|done]. intros a Ha. apply Hs. cbn. lia.
Qed.

Lemma cstr_apart p l out m : cstr m0 p l -> apart p l -> writes out m -> fits out -> cstr m p l.
Proof using.
  intros [Hl Hc] Ha Hm Hf. split; [|done]. eapply bytes_at_same; [|exact Hl]. intros a Hin.
  rewrite length_app in Hin. cbn in Hin. eapply writes_apart; [done|done|done|lia].
Qed.

Lemma bytes_at_lookup m l : forall p k c, bytes_at m p l -> l !! k = Some c -> m (p + Z.of_nat k) = Some c.
Proof using.
  clear. induction l as [|b l IH]; intros p [|k] c; cbn; try done; intros [Hb Hl].
  - intros [= <-]. by rewrite Z.add_0_r.
  - intros Hk. replace (p + Z.of_nat (S k)) with (p + 1 + Z.of_nat k) by lia. by apply IH.
Qed.

(** The string of an argument, read while the output is written. *)
Definition readable (s : Z) (l : list Z) : Prop := if s =? 0 then l = null_text else cstr m0 s l /\ apart s l.

Lemma readable_bytes s l : readable s l -> Forall is_byte l.
Proof using.
  unfold readable. case_match; [intros ->|intros [[_ Hc] _]].
  - apply Forall_forall. intros b Hb. repeat (apply elem_of_cons in Hb as [->|Hb]; [by vm_compute|]). by apply not_elem_of_nil in Hb.
  - eapply Forall_impl; [exact Hc|]. apply char_byte.
Qed.

Lemma wp_string_char s l out m k c (Q : Z -> ram -> Prop) : readable s l -> writes out m -> fits out ->
  l !! k = Some c -> Q c m -> wp (string_char s (Z.of_nat k)) Q m.
Proof using.
  unfold readable, string_char. intros Hl Hm Hf Hk HQ. destruct (s =? 0).
  - subst l. apply (wp_ofopt _ c); [by rewrite Nat2Z.id|done]. 
  - destruct Hl as [[Hl Hc] Ha]. apply (wp_load8 _ _ c); [|done].
    pose proof (lookup_lt_Some _ _ _ Hk). rewrite (writes_apart s l out m) by (done || lia).
    eapply bytes_at_lookup; [exact Hl|]. by rewrite lookup_app_l.
Qed.

Lemma wp_copy_string s l t : readable s l -> t `prefix_of` l ->
  forall j fuel k out m (Q : Z -> ram -> Prop), (k + j = length t)%nat -> (j < fuel)%nat -> writes out m ->
  fits (out ++ drop k t) ->
  (forall m', writes (out ++ drop k t) m' -> Q (place (out ++ drop k t)) m') ->
  wp (loop fuel (copy_string end_ s (Z.of_nat (length t))) (place out, Z.of_nat k)) Q m.
Proof using Hbuf HN.
  intros Hl [l' ->]. pose proof (readable_bytes _ _ Hl) as Hb.
  induction j as [|j IH]; intros [|fuel] k out m Q Hk Hf Hm Hfit HQ; try lia; apply wp_loop_S; unfold copy_string at 1.
  - destruct (Z.ltb_spec (Z.of_nat k) (Z.of_nat (length t))); [lia|]. wp_steps.
    rewrite drop_ge, app_nil_r in HQ by lia. by apply HQ.
  - destruct (Z.ltb_spec (Z.of_nat k) (Z.of_nat (length t))); [|lia].
    destruct (lookup_lt_is_Some_2 t k) as [c Hc]; [lia|].
    assert (E : out ++ drop k t = (out ++ [c]) ++ drop (S k) t) by by rewrite (drop_S _ _ _ Hc), <-app_assoc.
    rewrite E in Hfit, HQ.
    assert (Hc' : (t ++ l') !! k = Some c) by by rewrite lookup_app_l by lia.
    apply wp_bind, (wp_string_char s (t ++ l') out _ k c); [done|done|by do 2 eapply fits_app|done|].
    apply wp_bind, wp_put_char; [done|by eapply fits_app| |].
    { rewrite Forall_forall in Hb. apply Hb. by eapply list_elem_of_lookup_2. }
    intros m' Hm'. wp_steps. replace (Z.of_nat k + 1) with (Z.of_nat (S k)) by lia. apply IH; try done; lia.
Qed.

Lemma wp_format_string fuel s l out m flags width precision (Q : Z -> ram -> Prop) :
  readable s l -> (length l < fuel)%nat -> Z.of_nat (length l) < 2147483648 ->
  -1 <= width <= LIMIT -> -1 <= precision <= LIMIT -> writes out m ->
  fits (out ++ string_text l flags width precision) ->
  (length (string_text l flags width precision) < fuel)%nat ->
  (forall m', writes (out ++ string_text l flags width precision) m' ->
     Q (place (out ++ string_text l flags width precision)) m') ->
  wp (format_string fuel end_ (place out) s flags width precision) Q m.
Proof using Hbuf HN.
  intros Hl Hlf Hl31 Hw Hp Hm Hfit Hf HQ. unfold format_string, string_text, justified, LIMIT in *. change (2 ^ 29) with 536870912 in *.
  set (t := if 0 <? precision then take (Z.to_nat precision) l else l) in *.
  apply wp_bind. eapply wp_mono with (P := fun r m' => r = Z.of_nat (length l) /\ m' = m).
  { unfold readable in Hl. unfold string_len. destruct (s =? 0); [subst l; by wp_steps|]. destruct Hl as [Hl Ha].
    apply rt_strlen_spec; [|done|lia]. eapply cstr_apart; [done|done|done|].
    clear -Hfit. destruct (flag LEFT flags); by eapply fits_app. }
  intros r m' [-> ->]. rewrite i32_small by lia.
  set (len := if (0 <? precision) && (precision <? Z.of_nat (length l)) then precision else Z.of_nat (length l)).
  assert (Elen : len = Z.of_nat (length t)).
  { unfold len, t. destruct (Z.ltb_spec 0 precision); cbn [andb]; [|done]. rewrite length_take.
    destruct (Z.ltb_spec precision (Z.of_nat (length l))); lia. }
  assert (Hpre : t `prefix_of` l) by (unfold t; destruct (0 <? precision); [exists (drop (Z.to_nat precision) l); symmetry; apply firstn_skipn|done]).
  rewrite Elen. clearbody len t. clear Elen len. pose proof (length_repeated (chr " ") (width - Z.of_nat (length t))) as Lsp.
  assert (Hlt : Z.of_nat (length t) < 2147483648) by (apply prefix_length in Hpre; lia).
  destruct (flag LEFT flags); cbn [negb]; rewrite length_app in Hf; rewrite app_assoc in Hfit, HQ; apply wp_bind.
  - wp_step. cbn beta iota. apply wp_bind. apply (wp_copy_string s l t Hl Hpre (length t) fuel 0);
      rewrite ?drop_0; [done|lia|done|by eapply fits_app|]. intros m1 Hm1.
    apply wp_bind, wp_pad_string; [lia|lia|done|done|lia|]. intros m2 Hm2. wp_steps. by apply HQ.
  - apply wp_pad_string; [lia|lia|done|by eapply fits_app|lia|]. intros m1 Hm1. cbn beta iota. apply wp_bind.
    apply (wp_copy_string s l t Hl Hpre (length t) fuel 0); rewrite ?drop_0; [done|lia|done|done|]. intros m2 Hm2.
    assert (Enil : repeated (chr " ") (Z.min (Z.of_nat (length t)) width - 1 - Z.of_nat (length t)) = []) by (apply repeated_nil; lia).
    apply wp_bind, wp_pad_string; rewrite ?Enil, ?app_nil_r; [lia|lia|done|done|lia|]. intros m3 Hm3. wp_steps. by apply HQ.
Qed.

(** ** Reading the format *)
Definition reads (p : Z) (f : list Z) : Prop := cstr m0 p f /\ apart p f.

Lemma reads_tail p c f : reads p (c :: f) -> is_char c /\ reads (p + 1) f.
Proof using.
  intros [(Hc & Hch & Hf)%cstr_cons Ha]. split_and!; [done|]. split; [done|].
  intros a Hin. apply Ha. cbn [length]. lia.
Qed.
Lemma reads_tl p f : reads p f -> here f <> 0 -> reads (p + 1) (tl f).
Proof using. destruct f as [|c f]; [done|]. intros Hr _. by apply reads_tail in Hr as [_ ?]. Qed.
Lemma reads_length_tl (f : list Z) : (length (tl f) <= length f)%nat.
Proof using. clear. destruct f; cbn; lia. Qed.

Section at_out.
Context (out : list Z) (m : ram) (Hm : writes out m) (Hfit : fits out).

Lemma wp_here p f (Q : Z -> ram -> Prop) : reads p f -> Q (here f) m -> wp (load8 p) Q m.
Proof using Hm Hfit.
  intros [Hs Ha] HQ. assert (Hs' : cstr m p f) by by eapply cstr_apart.
  apply (wp_load8 _ _ (here f)); [|done]. destruct f as [|c f]; [by apply cstr_nil in Hs'|by apply cstr_cons in Hs' as [? _]].
Qed.

Lemma wp_flags f : forall p fuel flags (Q : Z * Z -> ram -> Prop), reads (p + 1) f -> (length f < fuel)%nat ->
  (forall p', reads p' (read_flags f flags).1 -> Q (p', (read_flags f flags).2) m) ->
  wp (loop fuel format_flag (p, flags)) Q m.
Proof using Hm Hfit.
  induction f as [|c f IH]; intros p [|fuel] flags Q Hr Hf HQ; cbn [length] in Hf; try lia;
    apply wp_loop_S; unfold format_flag at 1; apply wp_bind, (wp_here _ _ _ Hr); cbn [here hd read_flags] in *.
  - wp_steps. by apply HQ.
  - destruct (flag_of c) as [b|]; wp_steps; [|by apply HQ]. apply IH; [|lia|done]. by apply reads_tail in Hr as [_ ?].
Qed.

Lemma isdigit_spec c : is_byte c -> isdigit c = true <-> 0 <= c - chr "0" < 10.
Proof using. clear. unfold is_byte, isdigit. change (chr "0") with 48. unfold u32. intros. rewrite Z.ltb_lt. zmod. Qed.

Lemma read_number_ge f : Forall is_byte f -> forall n, 0 <= n -> n <= (read_number f n).2.
Proof using.
  clear. induction 1 as [|c f Hc _ IH]; intros n Hn; cbn; [done|]. destruct (isdigit c) eqn:E; [|done].
  apply (isdigit_spec c Hc) in E. etrans; [|apply IH; lia]. lia.
Qed.

Lemma wp_skip f : forall p fuel n (Q : Z * Z -> ram -> Prop), reads p f -> (length f < fuel)%nat ->
  0 <= n -> (read_number f n).2 < 2147483600 ->
  (forall p', reads p' (read_number f n).1 -> Q (p', (read_number f n).2) m) ->
  wp (loop fuel skip_digit (p, n)) Q m.
Proof using Hm Hfit.
  induction f as [|c f IH]; intros p [|fuel] n Q Hr Hf Hn Hl HQ; cbn [length] in Hf; try lia;
    apply wp_loop_S; unfold skip_digit at 1; apply wp_bind, (wp_here _ _ _ Hr); cbn [here hd read_number] in *.
  - cbn. wp_steps. by apply HQ.
  - pose proof (reads_tail _ _ _ Hr) as [Hc Hr']. destruct (isdigit c) eqn:E; wp_steps; [|by apply HQ].
    apply (isdigit_spec c (char_byte _ Hc)) in E.
    assert (Hb : Forall is_byte f) by (destruct Hr' as [[_ Hb] _]; eapply Forall_impl; [exact Hb|apply char_byte]).
    pose proof (read_number_ge f Hb (n * 10 + (c - chr "0")) ltac:(lia)).
    replace (n * 10 + c - chr "0") with (n * 10 + (c - chr "0")) by lia. rewrite i32_small by lia.
    apply IH; [done|lia|lia|done|done].
Qed.

Lemma read_number_length f : forall n, (length (read_number f n).1 <= length f)%nat.
Proof using. clear. induction f as [|c f IH]; intros n; cbn; [done|]. case_match; cbn; [|done]. specialize (IH (n * 10 + (c - chr "0"))). lia. Qed.

Lemma wp_width fuel p f args flags x (Q : Z * list Z * Z * Z -> ram -> Prop) : reads p f -> (length f < fuel)%nat ->
  read_width f args flags = Some x ->
  (forall p', reads p' x.1.1.1 -> -1 <= x.2 <= LIMIT -> Q (p', x.1.1.2, x.1.2, x.2) m) ->
  wp (format_width fuel p args flags) Q m.
Proof using Hm Hfit.
  intros Hr Hf Hx HQ. assert (HL : LIMIT = 536870912) by reflexivity. unfold format_width. unfold read_width, moderate in Hx.
  apply wp_bind, (wp_here _ _ _ Hr). destruct (isdigit (here f)).
  - destruct (read_number f 0) as [f' n] eqn:E. destruct (Z.ltb_spec n LIMIT); [|done]. injection Hx as <-. cbn [fst snd] in *.
    assert (Hb : Forall is_byte f) by (destruct Hr as [[_ Hb] _]; eapply Forall_impl; [exact Hb|apply char_byte]).
    pose proof (read_number_ge f Hb 0 ltac:(lia)) as Hge. rewrite E in Hge. cbn [snd] in Hge.
    apply wp_bind, (wp_skip f); rewrite ?E; [done|done|lia|cbn [snd]; lia|]. intros p' Hr'. wp_steps. apply HQ; [done|lia].
  - destruct (Z.eqb_spec (here f) (chr "*")) as [Ec|_].
    + destruct args as [|a args]; [done|]. cbn [va_arg]. wp_steps. cbn [fst snd].
      destruct (Z.ltb_spec (Z.abs (i32 a)) LIMIT); [|done]. injection Hx as <-. cbn [fst snd] in *.
      assert (Hr' : reads (p + 1) (tl f)) by (apply reads_tl; [done|rewrite Ec; done]).
      destruct (Z.ltb_spec (i32 a) 0); wp_steps.
      * rewrite i32_small by lia. replace (- i32 a) with (Z.abs (i32 a)) by lia. apply HQ; [done|lia].
      * replace (i32 a) with (Z.abs (i32 a)) at 1 by lia. apply HQ; [done|lia].
    + injection Hx as <-. wp_steps. apply HQ; [done|cbn [snd]; lia].
Qed.

Lemma wp_precision fuel p f args x (Q : Z * list Z * Z -> ram -> Prop) : reads p f -> (length f < fuel)%nat ->
  read_precision f args = Some x ->
  (forall p', reads p' x.1.1 -> -1 <= x.2 <= LIMIT -> Q (p', x.1.2, x.2) m) ->
  wp (format_precision fuel p args) Q m.
Proof using Hm Hfit.
  intros Hr Hf Hx HQ. assert (HL : LIMIT = 536870912) by reflexivity. unfold format_precision. unfold read_precision, moderate in Hx.
  apply wp_bind, (wp_here _ _ _ Hr). destruct (Z.eqb_spec (here f) (chr ".")) as [Ec|_].
  2: { injection Hx as <-. wp_steps. apply HQ; [done|cbn [snd]; lia]. }
  assert (Hr' : reads (p + 1) (tl f)) by (apply reads_tl; [done|rewrite Ec; done]).
  pose proof (reads_length_tl f). set (g := tl f) in *. apply wp_bind, (wp_here _ _ _ Hr'). apply wp_bind. destruct (isdigit (here g)).
  - destruct (read_number g 0) as [f' n] eqn:E. destruct (Z.ltb_spec n LIMIT); [|done]. injection Hx as <-. cbn [fst snd] in *.
    assert (Hb : Forall is_byte g) by (destruct Hr' as [[_ Hb] _]; eapply Forall_impl; [exact Hb|apply char_byte]).
    pose proof (read_number_ge g Hb 0 ltac:(lia)) as Hge. rewrite E in Hge. cbn [snd] in Hge.
    apply wp_bind, (wp_skip g); rewrite ?E; [done|lia|lia|cbn [snd]; lia|]. intros p' Hr2. wp_steps. cbn [fst snd] in *.
    destruct (Z.ltb_spec n 0); [lia|]. apply HQ; [done|lia].
  - destruct (Z.eqb_spec (here g) (chr "*")) as [Ec2|_].
    + destruct args as [|a args]; [done|]. cbn [va_arg]. wp_steps. cbn [fst snd].
      destruct (Z.ltb_spec (i32 a) LIMIT); [|done]. injection Hx as <-. cbn [fst snd] in *.
      assert (Hr2 : reads (p + 1 + 1) (tl g)) by (apply reads_tl; [done|rewrite Ec2; done]).
      destruct (Z.ltb_spec (i32 a) 0).
      * replace 0 with (Z.max 0 (i32 a)) at 1 by lia. apply HQ; [done|lia].
      * replace (i32 a) with (Z.max 0 (i32 a)) at 1 by lia. apply HQ; [done|lia].
    + injection Hx as <-. wp_steps. by apply HQ.
Qed.

Lemma wp_qualifier p f (Q : Z * Z -> ram -> Prop) : reads p f ->
  (forall p', reads p' (read_qualifier f).1 -> Q (p', (read_qualifier f).2) m) -> wp (format_qualifier p) Q m.
Proof using Hm Hfit.
  intros Hr HQ. unfold format_qualifier, read_qualifier in *. apply wp_bind, (wp_here _ _ _ Hr).
  destruct ((here f =? chr "h") || (here f =? chr "l")) eqn:E; wp_steps; apply HQ; [|done].
  apply reads_tl; [done|]. intros E0. by rewrite E0 in E.
Qed.
End at_out.

(** ** Directives and formats *)
Section directives.
Context (strs : Z -> option (list Z)) (fuel : nat) (Hfuel : (30 < fuel)%nat).
Context (Hstrs : forall s l, strs s = Some l ->
  cstr m0 s l /\ apart s l /\ (length l < fuel)%nat /\ Z.of_nat (length l) < 2147483648).

Lemma arg_string_readable s l : arg_string strs s = Some l ->
  readable s l /\ (length l < fuel)%nat /\ Z.of_nat (length l) < 2147483648.
Proof using Hfuel Hstrs.
  unfold arg_string, readable. destruct (s =? 0); [intros [= <-]; split_and!; [done|cbn; lia|by vm_compute]|].
  intros Hs. destruct (Hstrs s l Hs) as (? & ? & ? & ?). by split_and!.
Qed.

Lemma number_arg_range q flags a : 0 <= number_arg q flags a < 4294967296.
Proof using. clear. unfold number_arg. repeat case_match; unfold u16, u32; zmod. Qed.

Lemma unsigned_small base num flags : 0 <= num < 4294967296 -> u64 (number_sign num flags).2 < print_base base ^ 16.
Proof using.
  clear. intros Hn. assert (E : (number_sign num flags).2 = num).
  { unfold number_sign. rewrite (proj2 (Z.ltb_ge num 0)) by lia. repeat case_match; done. }
  rewrite E. unfold u64. rewrite Z.mod_small by lia. destruct (print_base_cases base) as [-> | ->]; lia.
Qed.
Lemma pointer_small num flags : u64 (number_sign num flags).2 < print_base 16 ^ 16.
Proof using. clear. unfold u64. change (print_base 16 ^ 16) with (2 ^ 64). apply Z.mod_pos_bound. lia. Qed.
Lemma i64_range z : -(2 ^ 63) <= i64 z < 2 ^ 63.
Proof using. clear. unfold i64. zmod. Qed.

Lemma wp_convert out m p d t f' args' (Q : Z * Z * list Z -> ram -> Prop) :
  writes out m -> fits (out ++ t) -> reads p (d_fmt d) ->
  -1 <= d_width d <= LIMIT -> -1 <= d_precision d <= LIMIT ->
  render_dir strs d = Some (t, f', args') -> (length t + 20 < fuel)%nat ->
  (forall p' m', reads p' f' -> writes (out ++ t) m' -> Q (p', place (out ++ t), args') m') ->
  wp (format_convert fuel end_ p (place out) (d_args d) (d_flags d) (d_width d) (d_precision d) (d_qualifier d)) Q m.
Proof using Hbuf HN Hfuel Hstrs.
  intros Hm Hfit Hr Hw Hp Ht Hf HQ. unfold format_convert, render_dir in *. set (c := here (d_fmt d)) in *.
  assert (Htl : c <> 0 -> reads (p + 1) (tl (d_fmt d))) by by apply reads_tl.
  pose proof (fits_app _ _ Hfit) as Hfit0. apply wp_bind, (wp_here out m Hm Hfit0 _ _ _ Hr). fold c.
  destruct (Z.eqb_spec c (chr "c")) as [E|_].
  { destruct (d_args d) as [|a args]; [done|]. cbn in Ht. injection Ht as <- <- <-. cbn [va_arg]. wp_steps. cbn [fst snd].
    apply wp_format_char; try done; [lia|]. intros m' Hm'. wp_steps. apply HQ; [|done]. apply Htl. by rewrite E. }
  destruct (Z.eqb_spec c (chr "s")) as [E|_].
  { destruct (d_args d) as [|a args]; [done|]. cbn [head mbind option_bind] in Ht.
    destruct (arg_string strs (u64 a)) as [l|] eqn:El; [|done]. cbn in Ht. injection Ht as <- <- <-.
    destruct (arg_string_readable _ _ El) as (R1 & R2 & R3). cbn [va_arg]. wp_steps. cbn [fst snd].
    apply (wp_format_string _ _ l); try done; [lia|]. intros m' Hm'. wp_steps. apply HQ; [|done]. apply Htl. by rewrite E. }
  destruct (Z.eqb_spec c (chr "p")) as [E|_].
  { destruct (d_args d) as [|a args]; [done|]. cbn [head mbind option_bind] in Ht. cbn [va_arg]. wp_steps. cbn [fst snd].
    pose proof (i64_range a).
    change (8 * 2) with 16. destruct (d_width d =? -1); injection Ht as <- <- <-; (apply wp_print_number;
      [done|apply pointer_small|unfold LIMIT in *; lia|done|done|done|lia|]); intros m' Hm'; wp_steps;
      (apply HQ; [|done]); apply Htl; by rewrite E. }
  destruct (Z.eqb_spec c (chr "%")) as [E|_].
  { injection Ht as <- <- <-. apply wp_bind, wp_put_char; [done|done|by vm_compute|]. intros m' Hm'. wp_steps.
    apply HQ; [|done]. apply Htl. by rewrite E. }
  destruct (integer_conv c (d_flags d)) as [[base flags]|] eqn:Ei.
  { destruct (d_args d) as [|a args]; [done|]. cbn [head mbind option_bind] in Ht. injection Ht as <- <- <-.
    cbn [va_arg]. wp_steps. cbn [fst snd]. pose proof (number_arg_range (d_qualifier d) flags a) as Hna.
    apply wp_print_number; [lia|by apply unsigned_small|done|done|done|done|lia|]. intros m' Hm'. wp_steps. apply HQ; [|done].
    apply Htl. intros E0. by rewrite E0 in Ei. }
  destruct (Z.eqb_spec c 0) as [E|E]; injection Ht as <- <- <-; cbn [negb].
  - apply wp_bind, wp_put_char; [done|done|by vm_compute|]. intros m' Hm'. wp_steps. by apply HQ.
  - change [chr "%"; c] with ([chr "%"] ++ [c]) in *. rewrite app_assoc in *.
    apply wp_bind, wp_put_char; [done|by eapply fits_app|by vm_compute|]. intros m' Hm'.
    apply wp_bind, wp_put_char; [done|done| |].
    { unfold c. destruct (d_fmt d) as [|c' f]; [done|]. apply char_byte. by apply reads_tail in Hr as [? _]. }
    intros m2 Hm2. wp_steps. apply HQ; [|done]. by apply Htl.
Qed.

Lemma read_flags_length f : forall flags, (length (read_flags f flags).1 <= length f)%nat.
Proof using. clear. induction f as [|c f IH]; intros flags; cbn; [done|]. case_match; cbn; [|done]. etrans; [apply IH|lia]. Qed.

Lemma read_dir_length f args d : read_dir f args = Some d -> (length (d_fmt d) <= length f)%nat.
Proof using.
  clear. unfold read_dir. pose proof (read_flags_length f 0) as H1. destruct (read_flags f 0) as [f1 flags]. cbn [fst] in H1.
  destruct (read_width f1 args flags) as [[[[f2 args2] flags2] w]|] eqn:E2; [|done].
  assert (H2 : (length f2 <= length f1)%nat).
  { unfold read_width in E2. pose proof (read_number_length f1 0). pose proof (reads_length_tl f1).
    destruct (read_number f1 0) as [f' n]. cbn [fst] in *. repeat case_match; simplify_eq; done. }
  destruct (read_precision f2 args2) as [[[f3 args3] pr]|] eqn:E3; [|done].
  assert (H3 : (length f3 <= length f2)%nat).
  { unfold read_precision in E3. pose proof (reads_length_tl f2) as L1. pose proof (reads_length_tl (tl f2)) as L2.
    pose proof (read_number_length (tl f2) 0) as L3. destruct (read_number (tl f2) 0) as [f' n]. cbn [fst] in *.
    repeat case_match; simplify_eq; lia. }
  assert (H4 : (length (read_qualifier f3).1 <= length f3)%nat)
    by (unfold read_qualifier; case_match; [apply reads_length_tl|done]).
  destruct (read_qualifier f3) as [f4 q]. cbn [fst] in H4. intros [= <-]. cbn. lia.
Qed.

Lemma render_dir_length d t f' args' : render_dir strs d = Some (t, f', args') -> (length f' <= length (d_fmt d))%nat.
Proof using.
  clear. unfold render_dir. pose proof (reads_length_tl (d_fmt d)). destruct (head (d_args d)) as [a|]; cbn [mbind option_bind].
  - destruct (arg_string strs (u64 a)); cbn [mbind option_bind]; repeat case_match; intros; simplify_eq; lia.
  - repeat case_match; intros; simplify_eq; lia.
Qed.

Lemma wp_dir {B} (k : Z -> list Z -> Z -> Z -> Z -> Z -> M ram B) (Q : B -> ram -> Prop) f args d p out m :
  reads p f -> read_dir f args = Some d -> writes out m -> fits out -> (length f < fuel)%nat ->
  (forall p', reads p' (d_fmt d) -> -1 <= d_width d <= LIMIT -> -1 <= d_precision d <= LIMIT ->
    wp (k p' (d_args d) (d_flags d) (d_width d) (d_precision d) (d_qualifier d)) Q m) ->
  wp (x ← loop fuel format_flag (p - 1, 0);
      let (fmt, flags) := x : Z * Z in
      x ← format_width fuel fmt args flags;
      let '(fmt, args, flags, field_width) := x : Z * list Z * Z * Z in
      x ← format_precision fuel fmt args;
      let '(fmt, args, precision) := x : Z * list Z * Z in
      x ← format_qualifier fmt;
      let (fmt, qualifier) := x : Z * Z in
      k fmt args flags field_width precision qualifier) Q m.
Proof using Hfuel.
  intros Hr Hd Hm Hfit Hf HQ. unfold read_dir in Hd.
  apply wp_bind, (wp_flags out m Hm Hfit f); [by replace (p - 1 + 1) with p by lia|done|]. intros p1 Hr1.
  pose proof (read_flags_length f 0) as L1. destruct (read_flags f 0) as [f1 flags]. cbn [fst snd] in *.
  destruct (read_width f1 args flags) as [x2|] eqn:E2; [|done].
  apply wp_bind, (wp_width out m Hm Hfit _ _ f1 _ _ x2); [done|lia|done|]. intros p2 Hr2 Hw.
  assert (L2 : (length x2.1.1.1 <= length f1)%nat).
  { unfold read_width in E2. pose proof (read_number_length f1 0). pose proof (reads_length_tl f1).
    destruct (read_number f1 0) as [f' n]. cbn [fst] in *. repeat case_match; simplify_eq; done. }
  destruct x2 as [[[f2 args2] flags2] w]. cbn [fst snd] in *.
  destruct (read_precision f2 args2) as [x3|] eqn:E3; [|done].
  apply wp_bind, (wp_precision out m Hm Hfit _ _ f2 _ x3); [done|lia|done|]. intros p3 Hr3 Hp.
  destruct x3 as [[f3 args3] pr]. cbn [fst snd] in *.
  apply wp_bind, (wp_qualifier out m Hm Hfit _ f3); [done|]. intros p4 Hr4.
  destruct (read_qualifier f3) as [f4 q]. cbn [fst snd] in *. injection Hd as <-. by apply HQ.
Qed.

Lemma wp_format k : forall f p args out m t n, render_upto strs k f args = Some t -> reads p f ->
  writes out m -> fits (out ++ t) -> (length f < n)%nat -> (length t + length f + 20 < fuel)%nat ->
  wp (loop n (format_step fuel end_) (p, place out, args))
    (fun r m' => r = place (out ++ t) /\ writes (out ++ t) m') m.
Proof using Hbuf HN Hfuel Hstrs.
  induction k as [|k IH]; intros f p args out m t [|n] Ht Hr Hm Hfit Hn Hf; try lia; apply wp_loop_S;
    unfold format_step at 1; apply wp_bind, (wp_here out m Hm (fits_app _ _ Hfit) _ _ _ Hr); destruct f as [|c f]; try done.
  1, 2: cbn in Ht; injection Ht as <-; cbn [here hd Z.eqb]; wp_steps; by rewrite app_nil_r.
  cbn [render_upto here hd length] in *. destruct (reads_tail _ _ _ Hr) as [Hc Hr'].
  destruct (Z.eqb_spec c 0) as [E|_]; [unfold is_char in Hc; lia|].
  destruct (negb (c =? chr "%")).
  - destruct (render_upto strs k f args) as [t'|] eqn:Et; [|done]. cbn in Ht. injection Ht as <-.
    change (c :: t') with ([c] ++ t') in *. rewrite app_assoc in *. rewrite length_app in Hf. cbn [length] in Hf.
    apply wp_bind, wp_put_char; [done|by eapply fits_app|by apply char_byte|]. intros m' Hm'. wp_steps.
    apply (IH f); try done; lia.
  - destruct (read_dir f args) as [d|] eqn:Ed; [|done]. cbn [mbind option_bind] in Ht.
    destruct (render_dir strs d) as [[[t1 f'] args']|] eqn:Er; [|done].
    cbn [mbind option_bind] in Ht. destruct (render_upto strs k f' args') as [t2|] eqn:Et; [|done]. cbn in Ht. injection Ht as <-.
    rewrite app_assoc in *. rewrite length_app in Hf.
    pose proof (read_dir_length _ _ _ Ed). pose proof (render_dir_length _ _ _ _ Er).
    replace (p, 0) with (p + 1 - 1, 0) by (f_equal; lia).
    apply (wp_dir (fun fmt args flags field_width precision qualifier =>
      x ← format_convert fuel end_ fmt (place out) args flags field_width precision qualifier; mret (inl x))
      _ f args d (p + 1) out m Hr' Ed Hm); [by do 2 eapply fits_app|lia|]. intros p' Hr2 Hw Hp.
    apply wp_bind, (wp_convert out m p' d t1 f' args'); try done; [by eapply fits_app|lia|].
    intros p2 m2 Hr3 Hm2. wp_steps. apply (IH f'); try done; lia.
Qed.
End directives.
End writing.
