(* ===== verification/FormatProps.v ===== *)
(** The properties of the formatted printing: [rt_vsnprintf] writes the text of
    [FormatSpec.v], cut to the buffer; what it makes of numbers. *)
From Stdlib Require Import Strings.Ascii Strings.String.
From S2P Require Import Prelude KMem KMemProps Format FormatSpec FormatOps.

(** The bytes there are behind [buf]: a size beyond the end of the address space
    is cut. *)
Definition room (buf size : Z) : Z := if buf + size <? 2 ^ 64 then size else 2 ^ 64 - 1 - buf.

(** The output [out] in a buffer of [size] bytes: as much as fits in front of a
    zero, and the zero. *)
Definition printed (buf size : Z) (out : list Z) (m : ram) : ram := fun a =>
  let n := Z.of_nat (length out) in
  if within buf (Z.min size (n + 1)) a then
    if a =? buf + Z.min n (size - 1) then Some 0 else out !! Z.to_nat (a - buf)
  else m a.

(** A string that lies outside [n] bytes from [buf] on. *)
Definition outside (buf n p : Z) (l : list Z) : Prop := p + Z.of_nat (length l) < buf \/ buf + n <= p.

Lemma room_spec buf size : 0 <= buf < 2 ^ 64 -> 0 <= size < 2 ^ 64 ->
  0 <= room buf size /\
  (if u64 (buf + size) <? buf then (2 ^ 64 - 1, 2 ^ 64 - 1 - buf) else (u64 (buf + size), size))
    = (buf + room buf size, room buf size).
Proof.
  intros Hb Hs. unfold room, u64. destruct (Z.ltb_spec (buf + size) (2 ^ 64)).
  - rewrite Z.mod_small by lia. rewrite (proj2 (Z.ltb_ge _ _)) by lia. split; [lia|done].
  - assert (E : (buf + size) mod 2 ^ 64 = buf + size - 2 ^ 64).
    { replace (buf + size) with (buf + size - 2 ^ 64 + 1 * 2 ^ 64) at 1 by lia. rewrite Z.mod_add by lia. apply Z.mod_small. lia. }
    rewrite E, (proj2 (Z.ltb_lt _ _)) by lia. split; [lia|f_equal; lia].
Qed.

Section print.
Context (buf size : Z) (fmt : Z) (f out : list Z) (strs : Z -> option (list Z)) (m : ram) (fuel : nat) (args : list Z).
Let n := Z.of_nat (length out).
Let used := Z.min (room buf size) (n + 1).

(** The format and the strings are in memory, do not overlap what is printed,
    and the buffer is mapped as far as it is used. *)
Record printable : Prop := {
  pr_buf : 0 <= buf < 2 ^ 64;
  pr_size : 0 <= size < 2 ^ 64;
  pr_mapped : mapped m buf used;
  pr_format : cstr m fmt f;
  pr_apart : outside buf used fmt f;
  pr_strings : forall s l, strs s = Some l ->
    cstr m s l /\ outside buf used s l /\ (length l < fuel)%nat /\ Z.of_nat (length l) < 2 ^ 31;
  pr_render : render strs f args = Some out;
  pr_fuel : (length out + length f + 30 < fuel)%nat }.

Lemma rt_vsnprintf_spec : printable ->
  wp (rt_vsnprintf fuel buf size fmt args) (fun r m' =>
    r = i32 n /\ forall a, m' a = printed buf (room buf size) out m a) m.
Proof using.
  intros [Hb Hs Hmap Hfmt Hap Hstrs Hr Hf]. destruct (room_spec _ _ Hb Hs) as [Hrm Ee]. unfold rt_vsnprintf. rewrite Ee.
  clear Ee. set (sz := room buf size) in *. fold n.
  assert (HA : forall p l, outside buf used p l -> apart buf (buf + sz) n p l).
  { intros p l [H|H] a Ha; [left; lia|right; unfold used in H; lia]. }
  apply wp_bind. eapply wp_mono.
  { replace buf with (place buf []) at 2 by (unfold place; cbn; lia).
    apply (wp_format m buf (buf + sz) n ltac:(lia)) with (strs := strs) (k := length f) (f := f) (t := out); try done.
    - intros a Ha Hn. apply Hmap. unfold used. lia.
    - lia.
    - intros s l Hl. destruct (Hstrs s l Hl) as (? & ? & ? & ?). split_and!; [done|by apply HA|done|done].
    - split; [done|by apply HA].
    - apply writes_nil. lia.
    - unfold fits. cbn. lia.
    - lia.
    - lia. }
  intros str m1 [-> Hm1]. cbn [app] in *. unfold place. fold n.
  assert (Hst : forall q, 0 < sz -> q = buf + Z.min n (sz - 1) ->
    wp (store8 q 0) (fun _ m' => forall a, m' a = printed buf sz out m a) m1).
  { intros q H0 ->. apply wp_store8.
    - rewrite Hm1. fold n. ram_cases; [apply lookup_lt_is_Some; unfold n in *; lia|]. apply Hmap. unfold used. lia.
    - intros a. unfold printed. fold n. rewrite upd_within, Hm1. fold n. unfold n in *.
      ram_cases; try lia; destruct (Z.eqb_spec a (buf + Z.min (Z.of_nat (length out)) (sz - 1))); try lia; done. }
  destruct (Z.ltb_spec 0 sz) as [Hp|Hz].
  - apply wp_bind. destruct (Z.ltb_spec (buf + n) (buf + sz)); (eapply wp_mono; [apply Hst; lia|]);
      intros [] m2 Hm2; wp_steps; (split; [f_equal; lia|done]).
  - wp_steps. split; [f_equal; lia|]. intros a. rewrite Hm1. unfold printed. fold n. ram_cases; try lia; done.
Qed.
End print.

(** * Numbers *)
Lemma digits_value base k : forall n, 1 < base -> 0 <= n < base ^ Z.of_nat k -> value base (rev (digits k base n)) = n.
Proof.
  unfold value. induction k as [|k IH]; intros n Hb Hn; [cbn in *; lia|]. cbn [digits].
  destruct (Z.eqb_spec n 0) as [->|Hne]; [done|]. cbn [rev]. rewrite foldl_app. cbn [foldl].
  rewrite Nat2Z.inj_succ, Z.pow_succ_r in Hn by lia.
  rewrite IH; [|done|].
  - rewrite Z.mul_comm. symmetry. apply Z.div_mod. lia.
  - split; [apply Z.div_pos; lia|apply Z.div_lt_upper_bound; lia].
Qed.

Lemma numeral_value base n : 1 < base -> 0 <= n < base ^ 16 -> value base (numeral base n) = n.
Proof.
  intros Hb Hn. unfold numeral. destruct (Z.eqb_spec n 0) as [->|Hne]; [cbn; lia|]. by apply (digits_value base 16).
Qed.

Lemma numeral_digits base n d : 1 < base -> d ∈ numeral base n -> 0 <= d < base.
Proof.
  intros Hb. unfold numeral. destruct (n =? 0); [intros ->%list_elem_of_singleton; lia|].
  rewrite list_elem_of_In, <-in_rev, <-list_elem_of_In. apply digits_lt. lia.
Qed.

(** Reading decimal digits back. *)
Lemma read_number_digits l : (forall d, d ∈ l -> 0 <= d < 10) -> forall n,
  read_number (map (digit_char false) l) n = ([], foldl (fun n d => n * 10 + d) n l).
Proof.
  induction l as [|d l IH]; intros Hl n; [done|]. cbn [map read_number foldl].
  assert (Hd : 0 <= d < 10) by (apply Hl; by left).
  assert (E : digit_char false d = chr "0" + d) by (unfold digit_char; by rewrite (proj2 (Z.ltb_lt d 10)) by lia).
  rewrite E. assert (Ei : isdigit (chr "0" + d) = true).
  { apply isdigit_spec; change (chr "0") with 48; unfold is_byte; lia. }
  rewrite Ei. replace (chr "0" + d - chr "0") with d by lia. apply IH. intros x Hx. apply Hl. by right.
Qed.

Lemma digit_is_char large d : 0 <= d < 16 -> is_char (digit_char large d).
Proof.
  intros Hd. unfold is_char, digit_char. change (chr "0") with 48. change (chr "A") with 65. change (chr "a") with 97.
  destruct large; case_match; lia.
Qed.

(** A number without width and precision. *)
Lemma plain_number base num flags : number_text base num (-1) (-1) flags =
  sign_text (number_sign num flags).1 ++
    map (digit_char (flag LARGE flags)) (numeral (print_base base) (u64 (number_sign num flags).2)).
Proof.
  unfold number_text. destruct (number_sign num flags) as [sign n]. cbn [fst snd]. fold (sign_text sign).
  pose proof (numeral_length (flag LARGE flags) (print_base base) (u64 n)). set (ds := map _ _) in *.
  rewrite !(repeated_nil _ (_ - _)) by lia. cbn [Z.eqb app]. rewrite app_nil_r. by repeat case_match.
Qed.

Definition decimal (n : Z) : list Z := map (digit_char false) (numeral 10 n).

Lemma render_d strs v : -(2 ^ 31) <= v < 2 ^ 31 ->
  render strs (text "%d") [v] = Some (decimal (v mod 2 ^ 32)).
Proof.
  intros Hv. change (render strs (text "%d") [v]) with (Some (number_text 10 (number_arg 0 SIGN v) (-1) (-1) SIGN ++ [])).
  rewrite plain_number, app_nil_r. change (number_arg 0 SIGN v) with (u32 (i32 (u32 v))).
  assert (E : u32 (i32 (u32 v)) = v mod 2 ^ 32) by (unfold u32, i32; zmod). rewrite E.
  assert (Hr : 0 <= v mod 2 ^ 32 < 2 ^ 32) by (apply Z.mod_pos_bound; lia).
  assert (Es : number_sign (v mod 2 ^ 32) SIGN = (None, v mod 2 ^ 32)).
  { unfold number_sign. rewrite (proj2 (Z.ltb_ge (v mod 2 ^ 32) 0)) by lia. done. }
  rewrite Es. cbn [fst snd sign_text app]. unfold u64. by rewrite (Z.mod_small _ (2 ^ 64)) by lia.
Qed.
Lemma render_o strs v : 0 <= v < 2 ^ 32 ->
  render strs (text "%o") [v] = Some (map (digit_char false) (numeral 16 v)).
Proof.
  intros Hv. change (render strs (text "%o") [v]) with (Some (number_text 8 (u32 v) (-1) (-1) 0 ++ [])).
  rewrite plain_number, app_nil_r. assert (E : u32 v = v) by (unfold u32; by rewrite Z.mod_small). rewrite E.
  change (number_sign v 0) with (@None Z, v). cbn [fst snd sign_text app]. unfold u64. by rewrite (Z.mod_small _ (2 ^ 64)) by lia.
Qed.
Lemma render_0d strs v : 0 <= v < 2 ^ 31 -> render strs (text "%.0d") [v] = Some [].
Proof.
  intros Hv. change (render strs (text "%.0d") [v]) with (Some (number_text 10 (number_arg 0 SIGN v) (-1) 0 SIGN ++ [])).
  change (number_arg 0 SIGN v) with (u32 (i32 (u32 v))).
  assert (E : u32 (i32 (u32 v)) = v) by (unfold u32, i32; zmod). rewrite E, app_nil_r. unfold number_text.
  assert (Es : number_sign v SIGN = (None, v)).
  { unfold number_sign. rewrite (proj2 (Z.ltb_ge v 0)) by lia. done. }
  rewrite Es. pose proof (numeral_length (flag LARGE SIGN) (print_base 10) (u64 v)). set (ds := map _ _) in *.
  change (flag LEFT SIGN) with false. change (flag ZEROPAD SIGN) with false. cbn [length Z.eqb].
  rewrite !repeated_nil by lia. done.
Qed.

(** * The printed string *)
Lemma bytes_at_intro m l : forall p, (forall k c, l !! k = Some c -> m (p + Z.of_nat k) = Some c) -> bytes_at m p l.
Proof.
  induction l as [|b l IH]; intros p H; cbn; [done|]. split; [rewrite <-(Z.add_0_r p); by apply (H 0%nat)|].
  apply IH. intros k c Hk. replace (p + 1 + Z.of_nat k) with (p + Z.of_nat (S k)) by lia. by apply H.
Qed.

(** What the buffer holds of the text, as a string. *)
Definition kept (size : Z) (out : list Z) : list Z :=
  take (Z.to_nat (Z.min (Z.of_nat (length out)) (size - 1))) out.

Lemma printed_cstr buf size out m m' : 0 < size -> Forall is_char out ->
  (forall a, m' a = printed buf size out m a) -> cstr m' buf (kept size out).
Proof.
  intros Hs Hc Hm. split; [|by apply Forall_take]. unfold kept. set (k := Z.to_nat _).
  assert (Hk : length (take k out) = k) by (rewrite length_take; lia).
  apply bytes_at_intro. intros x c Hx. pose proof (lookup_lt_Some _ _ _ Hx) as Hlt.
  rewrite length_app, Hk in Hlt. cbn in Hlt. rewrite Hm. unfold printed. ram_cases; [|lia].
  destruct (Z.eqb_spec (buf + Z.of_nat x) (buf + Z.min (Z.of_nat (length out)) (size - 1))) as [E|E].
  - rewrite lookup_app_r in Hx by lia. replace (x - length (take k out))%nat with 0%nat in Hx by lia. done.
  - rewrite lookup_app_l, lookup_take_lt in Hx by lia.
    by replace (Z.to_nat (buf + Z.of_nat x - buf)) with x by lia.
Qed.

(** The first digits of a number. *)
Lemma value_app b l1 l2 : value b (l1 ++ l2) = value b l1 * b ^ Z.of_nat (length l2) + value b l2.
Proof.
  unfold value. rewrite foldl_app. generalize (foldl (fun n d => n * b + d) 0 l1). intros n.
  assert (H : forall l n, foldl (fun n d => n * b + d) n l
    = n * b ^ Z.of_nat (length l) + foldl (fun n d => n * b + d) 0 l); [|apply H].
  clear. induction l as [|d l IH]; intros n; cbn [foldl length]; [cbn; lia|].
  rewrite (IH (n * b + d)), (IH (0 * b + d)), Nat2Z.inj_succ, Z.pow_succ_r by lia. lia.
Qed.
Lemma value_bound b l : 0 < b -> (forall d, d ∈ l -> 0 <= d < b) -> 0 <= value b l < b ^ Z.of_nat (length l).
Proof.
  intros Hb. induction l as [|d l IH] using rev_ind; intros Hl; [cbn; lia|].
  rewrite value_app, length_app. change (length [d]) with 1%nat. change (value b [d]) with (0 * b + d).
  assert (Hd : 0 <= d < b) by (apply Hl; set_solver).
  destruct IH as [I1 I2]; [intros x Hx; apply Hl; set_solver|].
  rewrite Nat2Z.inj_add, Z.pow_add_r by lia. change (Z.of_nat 1) with 1.
  rewrite Z.pow_1_r. nia.
Qed.
Lemma value_take b k l : 0 < b -> (forall d, d ∈ l -> 0 <= d < b) ->
  value b (take k l) = value b l / b ^ Z.of_nat (length l - k).
Proof.
  intros Hb Hl. rewrite <-(take_drop k l) at 2. rewrite value_app, length_drop.
  assert (Hd : 0 <= value b (drop k l) < b ^ Z.of_nat (length l - k)).
  { rewrite <-length_drop. apply value_bound; [done|]. intros d Hin. apply Hl.
    rewrite <-(take_drop k l). set_solver. }
  rewrite Z.div_add_l by lia. rewrite Z.div_small by done. lia.
Qed.

Lemma skip_atoi_spec fuel p l m : 0 <= p -> cstr m p l -> (length l < fuel)%nat -> read_number l 0 = ([], (read_number l 0).2) ->
  (read_number l 0).2 < 2147483600 ->
  wp (skip_atoi fuel p) (fun r m' => r.2 = (read_number l 0).2 /\ cstr m r.1 [] /\ m' = m) m.
Proof.
  intros Hp Hl Hf He Hn. unfold skip_atoi.
  assert (Hw : writes m 0 0 [] m) by (apply writes_nil; lia).
  apply (wp_skip m 0 0 0 [] m Hw ltac:(by unfold fits) l); try done; [split; [done|]; intros a Ha; right; lia|].
  intros p' [Hp' _]. cbn [fst snd]. rewrite He in Hp'. by split_and!.
Qed.

(** * The properties *)
(** C26: [rt_vsnprintf] refines the rendering of [FormatSpec.v]: on every format
    with its flags, widths, precisions and qualifiers, and for every size of the
    buffer down to 0, it returns the length of the whole text and writes the text
    as far as it fits in front of a zero; a buffer that reaches beyond the end of
    the address space is cut there, and no byte behind the buffer changes. *)
Theorem rt_vsnprintf_prints buf size fmt f out strs m fuel args :
  printable buf size fmt f out strs m fuel args ->
  wp (rt_vsnprintf fuel buf size fmt args) (fun r m' =>
    r = i32 (Z.of_nat (length out)) /\ forall a, m' a = printed buf (room buf size) out m a) m.
Proof. apply rt_vsnprintf_spec. Qed.

(** C27: a number below 2^31 - 48 printed by [rt_snprintf] with the format "%d"
    reads back by [skip_atoi], which stops at the zero behind it: as the same
    number if the buffer has room for all its digits, and as the number of its
    first digits if it has not.  (A larger number makes the [int] of [skip_atoi]
    overflow, and a negative one is not printed as such.) *)
Theorem rt_snprintf_roundtrip buf size fmt out strs m fuel v :
  printable buf size fmt (text "%d") out strs m fuel [v] ->
  0 <= v < 2 ^ 31 - 48 -> 0 < room buf size ->
  wp (rt_snprintf fuel buf size fmt [v];; skip_atoi fuel buf) (fun r m' =>
    m' r.1 = Some 0 /\
    r.2 = v / 10 ^ Z.max 0 (Z.of_nat (length out) - (room buf size - 1)) /\
    (Z.of_nat (length out) < room buf size -> r.2 = v)) m.
Proof.
  intros Hp Hv Hroom. pose proof (pr_render _ _ _ _ _ _ _ _ _ Hp) as Hr. rewrite render_d in Hr by lia.
  rewrite Z.mod_small in Hr by lia. injection Hr as <-.
  pose proof (pr_buf _ _ _ _ _ _ _ _ _ Hp). pose proof (pr_fuel _ _ _ _ _ _ _ _ _ Hp).
  assert (Hd : forall d, d ∈ numeral 10 v -> 0 <= d < 10) by (intros d; apply numeral_digits; lia).
  assert (Hval : value 10 (numeral 10 v) = v) by (apply numeral_value; lia).
  set (size' := room buf size) in *.
  set (k := Z.to_nat (Z.min (Z.of_nat (length (decimal v))) (size' - 1))).
  assert (Hlen : length (decimal v) = length (numeral 10 v)) by (unfold decimal; by rewrite length_map).
  assert (Ek : kept size' (decimal v) = map (digit_char false) (take k (numeral 10 v))).
  { unfold kept. fold k. unfold decimal. apply firstn_map. }
  set (w := v / 10 ^ Z.of_nat (length (numeral 10 v) - k)).
  assert (Hw : 0 <= w <= v).
  { unfold w. pose proof (Z.pow_pos_nonneg 10 (Z.of_nat (length (numeral 10 v) - k)) ltac:(lia) ltac:(lia)).
    split; [apply Z.div_pos; lia|apply Z.div_le_upper_bound; nia]. }
  assert (Hrd : read_number (kept size' (decimal v)) 0 = ([], w)).
  { rewrite Ek, read_number_digits.
    - f_equal. change (value 10 (take k (numeral 10 v)) = w). by rewrite value_take, Hval.
    - intros d Hin. apply Hd. rewrite <-(take_drop k (numeral 10 v)). set_solver. }
  assert (Hkl : (length (kept size' (decimal v)) <= length (decimal v))%nat).
  { unfold kept. rewrite length_take. lia. }
  apply wp_bind. eapply wp_mono; [exact (rt_vsnprintf_spec _ _ _ _ _ _ _ _ _ Hp)|]. intros _ m' [_ Hm'].
  eapply wp_mono; [apply (skip_atoi_spec fuel buf (kept size' (decimal v))); rewrite ?Hrd; cbn [snd]; try done; try lia|].
  - eapply printed_cstr; [exact Hroom| |exact Hm']. apply Forall_forall. intros c Hc. unfold decimal in Hc.
    apply list_elem_of_fmap in Hc as (d & -> & Hin). apply digit_is_char. specialize (Hd d Hin). lia.
  - intros r m2 (E & Hz & ->). rewrite Hrd in E. cbn [snd] in E. split; [exact (proj1 (cstr_nil _ _) Hz)|].
    rewrite E. unfold w. split.
    + do 2 f_equal. unfold k. lia.
    + intros Hfit. replace (length (numeral 10 v) - k)%nat with 0%nat by (unfold k; lia).
      change (10 ^ Z.of_nat 0) with 1. apply Z.div_1_r.
Qed.

(** C28: the conversions that print another number than the argument: "%d" of a
    negative [int] prints the decimal digits of v + 2^32 and no sign, "%o" the
    hexadecimal digits, and "%.0d" nothing at all. *)
Theorem rt_snprintf_wrong_numbers buf size fmt out strs m fuel v :
  (printable buf size fmt (text "%d") out strs m fuel [v] -> - 2 ^ 31 <= v < 0 ->
     out = decimal (v + 2 ^ 32) /\
     wp (rt_snprintf fuel buf size fmt [v]) (fun r m' => r = Z.of_nat (length out) /\
       forall a, m' a = printed buf (room buf size) (decimal (v + 2 ^ 32)) m a) m) /\
  (printable buf size fmt (text "%o") out strs m fuel [v] -> 0 <= v < 2 ^ 32 ->
     wp (rt_snprintf fuel buf size fmt [v]) (fun r m' => r = Z.of_nat (length out) /\
       forall a, m' a = printed buf (room buf size) (map (digit_char false) (numeral 16 v)) m a) m) /\
  (printable buf size fmt (text "%.0d") out strs m fuel [v] -> 0 <= v < 2 ^ 31 ->
     wp (rt_snprintf fuel buf size fmt [v]) (fun r m' => r = 0 /\ forall a, m' a = printed buf (room buf size) [] m a) m).
Proof.
  assert (Hlen : forall base n, i32 (Z.of_nat (length (map (digit_char false) (numeral base n)))) =
    Z.of_nat (length (map (digit_char false) (numeral base n)))).
  { intros base n. pose proof (numeral_length false base n). unfold i32. zmod. }
  split_and!; intros Hp Hv; pose proof (pr_render _ _ _ _ _ _ _ _ _ Hp) as Hr.
  - rewrite render_d in Hr by lia. injection Hr as <-.
    assert (E : v mod 2 ^ 32 = v + 2 ^ 32) by (symmetry; apply (Z.mod_unique_pos _ _ (-1)); lia).
    rewrite E in Hp. rewrite E. split; [done|]. eapply wp_mono; [exact (rt_vsnprintf_spec _ _ _ _ _ _ _ _ _ Hp)|].
    intros r m' [-> Hm']. split; [apply Hlen|done].
  - rewrite render_o in Hr by lia. injection Hr as <-.
    eapply wp_mono; [exact (rt_vsnprintf_spec _ _ _ _ _ _ _ _ _ Hp)|]. intros r m' [-> Hm']. split; [apply Hlen|done].
  - rewrite render_0d in Hr by lia. injection Hr as <-.
    eapply wp_mono; [exact (rt_vsnprintf_spec _ _ _ _ _ _ _ _ _ Hp)|]. intros r m' [-> Hm']. split; [done|done].
Qed.

(** C29: [rt_kprintf] sends at most 127 bytes and changes none behind them; of a
    text of 127 bytes and more it sends the first 126 and the terminating zero. *)
Theorem rt_kprintf_sends log_buf fmt f out strs m fuel args :
  printable log_buf 127 fmt f out strs m fuel args ->
  log_buf + 127 < 2 ^ 64 -> Z.of_nat (length out) < 2 ^ 31 ->
  wp (rt_kprintf fuel log_buf fmt args) (fun r m' =>
    r = Z.min (Z.of_nat (length out)) 127 /\
    (forall k, 0 <= k < r -> m' (log_buf + k) = if k =? 126 then Some 0 else out !! Z.to_nat k) /\
    forall a, a < log_buf \/ log_buf + 127 <= a -> m' a = m a) m.
Proof.
  intros Hp Hb Hn. unfold rt_kprintf. change (RT_CONSOLEBUF_SIZE - 1) with 127. apply wp_bind.
  eapply wp_mono; [exact (rt_vsnprintf_spec _ _ _ _ _ _ _ _ _ Hp)|]. intros r m' [-> Hm']. apply wp_ret.
  assert (E : u64 (i32 (Z.of_nat (length out))) = Z.of_nat (length out)).
  { unfold u64, i32. zmod. }
  assert (Er : room log_buf 127 = 127) by (unfold room; by rewrite (proj2 (Z.ltb_lt _ _))).
  rewrite E. rewrite Er in Hm'. split_and!.
  - destruct (Z.ltb_spec 127 (Z.of_nat (length out))); lia.
  - intros k Hk. assert (Hk' : k < 127 /\ k < Z.of_nat (length out)) by (destruct (Z.ltb_spec 127 (Z.of_nat (length out))); lia).
    rewrite Hm'. unfold printed. ram_cases; [|lia].
    destruct (Z.eqb_spec (log_buf + k) (log_buf + Z.min (Z.of_nat (length out)) (127 - 1))); destruct (Z.eqb_spec k 126); try lia; try done.
    by replace (log_buf + k - log_buf) with k by lia.
  - intros a Ha. rewrite Hm'. unfold printed. ram_cases; [lia|done].
Qed.

(** ** Concrete inputs *)
(** The format at 64, a string at 500, a buffer of 300 bytes at 1000. *)
Definition ex_name : list Z := text "tidle0".
Definition ex_print (f : list Z) : ram := fun a =>
  if within 1000 300 a then Some 0
  else if within 500 7 a then (ex_name ++ [0]) !! Z.to_nat (a - 500)
  else ex_ram (f ++ [0]) a.
Definition ex_strs (s : Z) : option (list Z) := if s =? 500 then Some ex_name else None.

Lemma chars_check l : forallb (fun c => (0 <? c) && (c <? 256)) l = true -> Forall is_char l.
Proof. intros H. apply Forall_forall. intros c Hc. apply (forallb_elem _ _ _ H) in Hc. unfold is_char. lia. Qed.

Lemma ex_printable size f out args : 0 <= size < 300 -> Z.of_nat (length f) < 400 -> Z.of_nat (length out) < 300 ->
  forallb (fun c => (0 <? c) && (c <? 256)) f = true -> render ex_strs f args = Some out ->
  printable 1000 size 64 f out ex_strs (ex_print f) 800 args.
Proof.
  intros Hs Hf Ho Hc Hr.
  assert (Hroom : room 1000 size = size) by (unfold room; rewrite (proj2 (Z.ltb_lt _ _)); [done|lia]).
  split; try done; try lia.
  - rewrite Hroom. intros a Ha. unfold ex_print. ram_cases; [done|lia..].
  - split; [|by apply chars_check]. apply bytes_at_intro. intros k c Hk. pose proof (lookup_lt_Some _ _ _ Hk) as Hl.
    rewrite length_app in Hl. cbn in Hl. unfold ex_print. ram_cases; [lia..|]. unfold ex_ram.
    destruct (Z.leb_spec 64 (64 + Z.of_nat k)); [|lia]. by replace (Z.to_nat (64 + Z.of_nat k - 64)) with k by lia.
  - left. lia.
  - intros s l. unfold ex_strs. destruct (Z.eqb_spec s 500) as [->|]; [|done]. intros [= <-]. split_and!; [|left; cbn; lia|cbn; lia|cbn; lia].
    split; [|by apply chars_check]. apply bytes_at_intro. intros k c Hk. pose proof (lookup_lt_Some _ _ _ Hk) as Hl. cbn in Hl.
    unfold ex_print. ram_cases; [lia| |lia]. by replace (Z.to_nat (500 + Z.of_nat k - 500)) with k by lia.
Qed.

Definition ex_format : list Z := text "%s: %-4d|%+5i|%05X|%.3u%c%%".
Definition ex_out : list Z := text "tidle0: 42  |   +7|00BEE|009!%".
Lemma rt_vsnprintf_prints_ex :
  wp (rt_vsnprintf 800 1000 12 64 [500; 42; 7; 3054; 9; 33]) (fun r m' =>
    r = i32 (Z.of_nat (length ex_out)) /\ forall a, m' a = printed 1000 (room 1000 12) ex_out (ex_print ex_format) a)
    (ex_print ex_format) /\
  map (printed 1000 (room 1000 12) ex_out (ex_print ex_format)) (seqZ 1000 12) = map Some (take 11 ex_out) ++ [Some 0].
Proof.
  split; [|vm_compute; done].
  apply (rt_vsnprintf_prints 1000 12 64 ex_format ex_out ex_strs (ex_print ex_format) 800 [500; 42; 7; 3054; 9; 33]).
  apply ex_printable; [lia|cbn; lia|cbn; lia|vm_compute; reflexivity|vm_compute; reflexivity].
Defined.

Lemma rt_snprintf_roundtrip_ex :
  wp (rt_snprintf 800 1000 16 64 [1048576];; skip_atoi 800 1000) (fun r m' =>
    m' r.1 = Some 0 /\ r.2 = 1048576 / 10 ^ Z.max 0 (7 - (room 1000 16 - 1)) /\
    (7 < room 1000 16 -> r.2 = 1048576)) (ex_print (text "%d")) /\
  wp (rt_snprintf 800 1000 4 64 [1048576];; skip_atoi 800 1000) (fun r m' => r.2 = 104)
    (ex_print (text "%d")).
Proof.
  split.
  - apply (rt_snprintf_roundtrip 1000 16 64 (text "1048576") ex_strs (ex_print (text "%d")) 800 1048576);
      [|lia|vm_compute; done].
    apply ex_printable; [lia|cbn; lia|cbn; lia|vm_compute; reflexivity|vm_compute; reflexivity].
  - vm_compute. done.
Defined.

(** -1 prints as 4294967295, 8 in the base 8 as 8, 5 with the precision 0 as nothing. *)
Lemma rt_snprintf_wrong_numbers_ex :
  wp (rt_snprintf 800 1000 16 64 [-1]) (fun r m' => r = Z.of_nat (length (text "4294967295")) /\
    forall a, m' a = printed 1000 (room 1000 16) (decimal (-1 + 2 ^ 32)) (ex_print (text "%d")) a) (ex_print (text "%d")) /\
  wp (rt_snprintf 800 1000 16 64 [8]) (fun r m' => r = Z.of_nat (length (text "8")) /\
    forall a, m' a = printed 1000 (room 1000 16) (map (digit_char false) (numeral 16 8)) (ex_print (text "%o")) a) (ex_print (text "%o")) /\
  wp (rt_snprintf 800 1000 16 64 [5]) (fun r m' => r = 0 /\ forall a, m' a = printed 1000 (room 1000 16) [] (ex_print (text "%.0d")) a)
    (ex_print (text "%.0d")).
Proof.
  split_and!.
  - apply (proj1 (rt_snprintf_wrong_numbers 1000 16 64 (text "4294967295") ex_strs (ex_print (text "%d")) 800 (-1))); [|lia].
    apply ex_printable; [lia|cbn; lia|cbn; lia|vm_compute; reflexivity|vm_compute; reflexivity].
  - apply (proj1 (proj2 (rt_snprintf_wrong_numbers 1000 16 64 (text "8") ex_strs (ex_print (text "%o")) 800 8))); [|lia].
    apply ex_printable; [lia|cbn; lia|cbn; lia|vm_compute; reflexivity|vm_compute; reflexivity].
  - apply (proj2 (proj2 (rt_snprintf_wrong_numbers 1000 16 64 [] ex_strs (ex_print (text "%.0d")) 800 5))); [|lia].
    apply ex_printable; [lia|cbn; lia|cbn; lia|vm_compute; reflexivity|vm_compute; reflexivity].
Defined.

Definition ex_long : list Z := text "%140s".
Definition ex_long_out : list Z := replicate 134 32 ++ ex_name.
Lemma rt_kprintf_sends_ex :
  wp (rt_kprintf 800 1000 64 [500]) (fun r m' =>
    r = Z.min (Z.of_nat (length ex_long_out)) 127 /\
    (forall k, 0 <= k < r -> m' (1000 + k) = if k =? 126 then Some 0 else ex_long_out !! Z.to_nat k) /\
    forall a, a < 1000 \/ 1000 + 127 <= a -> m' a = ex_print ex_long a) (ex_print ex_long) /\
  Z.min (Z.of_nat (length ex_long_out)) 127 = 127.
Proof.
  split; [|vm_compute; done].
  apply (rt_kprintf_sends 1000 64 ex_long ex_long_out ex_strs (ex_print ex_long) 800 [500]); [|lia|vm_compute; done].
  apply ex_printable; [lia|cbn; lia|cbn; lia|vm_compute; reflexivity|vm_compute; reflexivity].
Defined.
