(* ===== verification/ObjectProps.v ===== *)
(** The object system as a typed registry: a history of calls of [object.c]
    keeps every container to the objects of its class. *)
From S2P Require Import Prelude KService Timer KState KInv Sched Kernel KTimer Object Example.

(** * Critical sections that do not reach the scheduler

    The caller holds the CPU lock, is inside a critical section already, or the
    scheduler does not run yet; and it is no interrupt. *)
Section calm.
Context (me d : Z).

Record calm (s : kstate) : Prop := {
  ca_depth : lock_depth me d s;
  ca_irq : irq_nest (cpus s me) = 0;
  ca_crit : forall t, rt_thread_self me s = Some t ->
    critical_lock_nest (nests s t) < 32767 /\
    (critical_lock_nest (nests s t) = 0 -> critical_lock s = false) /\
    (0 < d \/ 0 < critical_lock_nest (nests s t)) }.

(** The same state, up to the depth of the CPU lock and the counters of other threads. *)
Lemma calm_step s s' : calm s -> keq s s' -> lock_depth me d s' -> calm s'.
Proof using.
  intros [Hd Hi Hc] E Hd'. split; [done|by rewrite <-(keq_cpus _ _ E)|]. intros t.
  unfold rt_thread_self. rewrite <-(keq_cpus _ _ E), <-(keq_crit _ _ E), <-(keq_critical _ _ E). apply Hc.
Qed.

(** Inside the section that was entered in [s]. *)
Definition inside (s s1 : kstate) : Prop :=
  exists n b, s1 = set_critical_lock b (set_nests n s) /\
  match rt_thread_self me s with
  | None => n = nests s /\ b = critical_lock s
  | Some t =>
      let x := nests s t in
      n t = mkNest (scheduler_lock_nest x + 1) (cpus_lock_nest x) (critical_lock_nest x + 1) /\
      (forall y, y <> t -> n y = nests s y) /\
      b = if critical_lock_nest x =? 0 then true else critical_lock s
  end.

Lemma wp_enter s (Q : unit -> kstate -> Prop) : calm s -> 0 <= d ->
  (forall s1, inside s s1 -> Q tt s1) -> wp (rt_enter_critical me) Q s.
Proof using.
  intros [Hd _ Hc] H0 HQ. unfold rt_enter_critical, rt_hw_spin_lock_critical, nest_upd, inside, lock_depth in *. wp_steps.
  destruct (rt_thread_self me s) as [t|] eqn:Es.
  2: { wp_steps. apply HQ. exists (nests s), (critical_lock s). split; [by destruct s|done]. }
  destruct (Hc t eq_refl) as (Hlt & Hfree & _). destruct Hd as (_ & Hr & Hsn & _).
  assert (Hs1 : 0 <= scheduler_lock_nest (nests s t) < 32768) by (rewrite Hsn; destruct (d =? 0); lia).
  assert (Hgo : forall b s0, s0 = set_critical_lock b s -> b = (if critical_lock_nest (nests s t) =? 0 then true else critical_lock s) ->
    wp (modify (fun s => set_nests (upd (nests s) t (set_critical_lock_nest (u16 (critical_lock_nest (nests s t) + 1)) (nests s t))) s);;
        modify (fun s => set_nests (upd (nests s) t (set_scheduler_lock_nest (u16 (scheduler_lock_nest (nests s t) + 1)) (nests s t))) s)) Q s0).
  { intros b s0 -> Eb. wp_steps. apply HQ. eexists _, b. split; [reflexivity|]. cbn -[u16].
    unfold upd. rewrite !decide_True by done. cbn -[u16]. rewrite !u16_small by lia. split_and!; [done| |done].
    intros y Hy. by rewrite !decide_False by congruence. }
  destruct (Z.eqb_spec (critical_lock_nest (nests s t)) 0) as [E|E].
  - cbn [when]. wp_steps; [by rewrite Hfree|]. by apply (Hgo true).
  - cbn [when]. wp_step. wp_step. apply (Hgo (critical_lock s)); [by destruct s|done].
Qed.

Lemma wp_exit s s1 (Q : unit -> kstate -> Prop) : calm s -> 0 <= d -> inside s s1 ->
  (forall s2, keq s s2 -> calm s2 -> Q tt s2) -> wp (rt_exit_critical me) Q s1.
Proof using.
  intros Hcs H0 (n & b & -> & Hin) HQ. pose proof Hcs as [Hd _ Hc]. unfold lock_depth in *.
  unfold rt_exit_critical, nest_upd. wp_step. wp_step.
  change (rt_thread_self me (set_critical_lock b (set_nests n s))) with (rt_thread_self me s).
  destruct (rt_thread_self me s) as [t|] eqn:Es.
  2: { wp_step. destruct Hin as [-> ->]. apply HQ; [by split|]. by destruct s. }
  destruct (Hc t eq_refl) as (Hlt & Hfree & Hout). destruct Hd as (Hcn & Hr & Hsn & Hb).
  destruct Hin as (Ht & Ho & ->). set (x := nests s t) in *.
  assert (Hs1 : 0 < scheduler_lock_nest x < 32768) by (rewrite Hsn; destruct (Z.eqb_spec d 0); lia).
  wp_step. wp_step. wp_step. wp_step. wp_step. wp_step. cbn -[u16 upd]. rewrite !upd_eq, Ht. cbn -[u16 upd].
  rewrite !Z.add_simpl_r, !u16_small by lia.
  assert (Hend : forall b' s0, s0 = set_critical_lock b' (set_nests (upd (upd n t (mkNest (scheduler_lock_nest x) (cpus_lock_nest x) (critical_lock_nest x + 1))) t x) s) ->
    b' = critical_lock s -> wp (s ← get; when (scheduler_lock_nest (nests s t) <=? 0) (nest_upd t (set_scheduler_lock_nest 0);; rt_schedule me)) Q s0).
  { intros b' s0 -> ->. wp_step. wp_step. cbn -[rt_schedule upd]. rewrite upd_eq, (proj2 (Z.leb_gt _ _)) by lia. cbn [when]. wp_step.
    assert (En : forall y, nests s y = upd (upd n t (mkNest (scheduler_lock_nest x) (cpus_lock_nest x) (critical_lock_nest x + 1))) t x y).
    { intros y. destruct (decide (t = y)) as [<-|Hne]; [by rewrite upd_eq|]. rewrite !upd_ne by done. symmetry. apply Ho. congruence. }
    assert (Ek : keq s (set_critical_lock (critical_lock s)
      (set_nests (upd (upd n t (mkNest (scheduler_lock_nest x) (cpus_lock_nest x) (critical_lock_nest x + 1))) t x) s))).
    { split; try done. intros y. cbn. by rewrite <-En. }
    apply HQ; [exact Ek|]. eapply calm_step; [exact Hcs|exact Ek|].
    unfold lock_depth in *. unfold rt_thread_self in *. cbn. rewrite Es, <-En. exact (conj Hcn (conj Hr (conj Hsn Hb))). }
  assert (Ex : mkNest (scheduler_lock_nest x) (cpus_lock_nest x) (critical_lock_nest x) = x) by (by destruct x).
  wp_step. destruct (Z.eqb_spec (critical_lock_nest x) 0) as [E|E]; cbn [when]; wp_step; cbn beta.
  - apply (Hend false); [|by rewrite Hfree]. cbn -[u16 upd]. unfold set_critical_lock, set_nests. cbn -[u16 upd].
    f_equal. unfold set_critical_lock_nest. cbn -[u16 upd]. by rewrite Ex.
  - apply (Hend (critical_lock s)); [|done]. unfold set_nests, set_critical_lock, set_critical_lock_nest. cbn -[u16 upd]. by rewrite Ex.
Qed.
End calm.

Section locked.
Context (me d : Z).

Lemma calm_frame s s' : nests s' = nests s -> cpus s' = cpus s -> cpus_lock s' = cpus_lock s ->
  critical_lock s' = critical_lock s -> calm me d s -> calm me d s'.
Proof using.
  intros En Ec El Eb [Hd Hi Hc]. split.
  - eapply lock_depth_frame; [|done|done|exact Hd]. unfold rt_thread_self. by rewrite Ec.
  - by rewrite Ec.
  - intros t. unfold rt_thread_self. rewrite Ec, En, Eb. apply Hc.
Qed.

(** A change of the containers under the CPU lock. *)
Lemma wp_locked g (Q : unit -> kstate -> Prop) s : calm me d s -> 0 <= d < 32767 ->
  (forall f f' : Z -> list obj, (forall c, f c = f' c) -> forall c, g f c = g f' c) ->
  (forall s', calm me d s' -> (forall o, otype s' o = otype s o) ->
    (forall c, containers s' c = g (containers s) c) -> Q tt s') ->
  wp (rt_hw_interrupt_disable me;; modify (fun s => set_containers (g (containers s)) s);; rt_hw_interrupt_enable me) Q s.
Proof using.
  intros Hca Hd Hg HQ. pose proof Hca as [Hl _ _]. wp_step. apply (wp_lock me d); [done|lia|].
  intros s1 [E1 N1] Hd1. wp_step. wp_step.
  apply (wp_unlock me d); [by eapply lock_depth_frame; [..|exact Hd1]|lia|]. intros s2 [E2 N2] Hd2.
  assert (Ek : keq (set_containers (g (containers s)) s) s2).
  { etrans; [|exact E2]. destruct E1. split; cbn; try done. intros c. by apply Hg. }
  apply HQ.
  - eapply (calm_step me d (set_containers (g (containers s)) s)); [|exact Ek|exact Hd2].
    by eapply calm_frame; [..|exact Hca].
  - intros o. symmetry. apply (keq_otype _ _ Ek).
  - intros c. symmetry. apply (keq_containers _ _ Ek).
Qed.
End locked.

(** * The registry *)
Record entry := mkEntry { e_obj : obj; e_class : Z; e_static : bool }.

(** The newest object first. *)
Definition objects (reg : list entry) : list obj := map e_obj reg.
Definition of_class (c : Z) (reg : list entry) : list obj := objects (filter (fun e => e_class e = c) reg).
Definition without (o : obj) (reg : list entry) : list entry := filter (fun e => e_obj e <> o) reg.
Definition header (e : entry) : Z := if e_static e then Z.lor (e_class e) RT_Object_Class_Static else e_class e.
Definition is_class (c : Z) : bool := bool_decide (c ∈ rt_object_container).

(** The containers and headers of [s] are those of the registry. *)
Record represents (reg : list entry) (s : kstate) : Prop := {
  re_nodup : NoDup (objects reg);
  re_class : forall e, e ∈ reg -> e_class e ∈ rt_object_container;
  re_header : forall e, e ∈ reg -> otype s (e_obj e) = header e;
  re_containers : forall c, containers s c = of_class c reg }.

(** Every object of a container has the type of the container, and is in no other one. *)
Record typed (s : kstate) : Prop := {
  ty_class : forall c o, o ∈ containers s c -> rt_object_get_information c = Some c /\ rt_object_get_type s o = c;
  ty_nodup : forall c, NoDup (containers s c);
  ty_one : forall c c' o, o ∈ containers s c -> o ∈ containers s c' -> c = c' }.

Inductive call :=
  | CInit (o : obj) (c : Z) | CDetach (o : obj) | CAllocate (mem : option obj) (c : Z) | CDelete (o : obj)
  | CFind (name : list Z) (c : Z).

Section calls.
Context (name_of : obj -> list Z) (me : Z).

(** A call of the code, with the object it returns. *)
Definition run_call (x : call) : K (option obj) :=
  match x with
  | CInit o c => rt_object_init me o c;; mret None
  | CDetach o => rt_object_detach (Kn := Smp me) o;; mret None
  | CAllocate mem c => rt_object_allocate (Kn := Smp me) mem c
  | CDelete o => rt_object_delete (Kn := Smp me) o;; mret None
  | CFind name c => rt_object_find me name_of name c
  end.
Fixpoint run_calls (l : list call) : K (list (option obj)) :=
  match l with
  | [] => mret []
  | x :: l => r ← run_call x; rs ← run_calls l; mret (r :: rs)
  end.

(** The registry behind a call and its result; a call without one is not allowed:
    an unknown class, an object that is registered already or not yet, the
    deletion of a static object. *)
Definition spec_call (reg : list entry) (x : call) : option (list entry * option obj) :=
  match x with
  | CInit o c => if is_class c && bool_decide (o ∉ objects reg) then Some (mkEntry o c true :: reg, None) else None
  | CDetach o => if bool_decide (o ∈ objects reg) then Some (without o reg, None) else None
  | CAllocate None c => if is_class c then Some (reg, None) else None
  | CAllocate (Some o) c =>
      if is_class c && bool_decide (o ∉ objects reg) then Some (mkEntry o c false :: reg, Some o) else None
  | CDelete o =>
      if bool_decide (o ∈ map e_obj (filter (fun e => e_static e = false) reg)) then Some (without o reg, None) else None
  | CFind name c => if is_class c then Some (reg, List.find (same_name name_of name) (of_class c reg)) else None
  end.
Fixpoint spec_calls (reg : list entry) (l : list call) : option (list entry * list (option obj)) :=
  match l with
  | [] => Some (reg, [])
  | x :: l =>
      match spec_call reg x with
      | None => None
      | Some (reg, r) => match spec_calls reg l with None => None | Some (reg, rs) => Some (reg, r :: rs) end
      end
  end.
End calls.

Lemma class_information c : c ∈ rt_object_container -> rt_object_get_information c = Some c /\ 0 <= c <= 12 /\
  Z.land c (Z.lnot RT_Object_Class_Static) = c /\
  Z.land (Z.lor c RT_Object_Class_Static) (Z.lnot RT_Object_Class_Static) = c /\
  Z.land (Z.lor c RT_Object_Class_Static) RT_Object_Class_Static <> 0 /\ Z.land c RT_Object_Class_Static = 0.
Proof.
  intros Hc. unfold rt_object_container in Hc. repeat (apply elem_of_cons in Hc as [->|Hc]; [vm_compute; by split_and!|]).
  by apply not_elem_of_nil in Hc.
Qed.

Lemma elem_of_class o c reg : o ∈ of_class c reg <-> exists e, e ∈ reg /\ e_obj e = o /\ e_class e = c.
Proof.
  unfold of_class, objects. rewrite list_elem_of_fmap. split.
  - intros (e & -> & [Hc He]%list_elem_of_filter). by exists e.
  - intros (e & He & Ho & Hc). exists e. split; [done|]. by apply list_elem_of_filter.
Qed.
Lemma elem_of_objects o reg : o ∈ objects reg <-> exists e, e ∈ reg /\ e_obj e = o.
Proof. unfold objects. rewrite list_elem_of_fmap. naive_solver. Qed.

Lemma objects_unique reg e e' : NoDup (objects reg) -> e ∈ reg -> e' ∈ reg -> e_obj e = e_obj e' -> e = e'.
Proof.
  induction reg as [|x reg IH]; cbn; [by intros _ ?%not_elem_of_nil|]. intros [Hx Hn]%NoDup_cons He He' E.
  assert (Hout : forall y, y ∈ reg -> e_obj y <> e_obj x).
  { intros y Hy Ey. apply Hx. apply elem_of_objects. by exists y. }
  apply elem_of_cons in He as [->|He], He' as [->|He'].
  - done.
  - by apply Hout in He'.
  - by apply Hout in He.
  - by apply IH.
Qed.

Lemma represents_typed reg s : represents reg s -> typed s.
Proof.
  intros [Hn Hc Hh Hs]. split.
  - intros c o. rewrite Hs, elem_of_class. intros (e & He & <- & <-).
    destruct (class_information _ (Hc e He)) as (Hi & _ & H1 & H2 & _). split; [done|].
    unfold rt_object_get_type. rewrite (Hh e He). unfold header. by destruct (e_static e).
  - intros c. rewrite Hs. unfold of_class, objects. clear -Hn. unfold objects in Hn.
    induction reg as [|e reg IH]; [by constructor|]. cbn in Hn. apply NoDup_cons in Hn as [He Hn].
    rewrite filter_cons. case_decide; [|by apply IH]. cbn. constructor; [|by apply IH].
    intros Hin. apply He. apply list_elem_of_fmap in Hin as (x & -> & [_ Hx]%list_elem_of_filter).
    apply list_elem_of_fmap. by exists x.
  - intros c c' o. rewrite !Hs, !elem_of_class. intros (e & He & Eo & <-) (e' & He' & Eo' & <-).
    by rewrite (objects_unique reg e e') by (done || congruence).
Qed.

Lemma represents_same reg s s' : (forall o, otype s' o = otype s o) -> (forall c, containers s' c = containers s c) ->
  represents reg s -> represents reg s'.
Proof. intros Eo Ec [Hn Hc Hh Hs]. split; [done|done| |]; intros; [rewrite Eo|rewrite Ec]; auto. Qed.

(** An object enters. *)
Lemma represents_add reg s s' e : represents reg s -> e_class e ∈ rt_object_container -> e_obj e ∉ objects reg ->
  (forall o, otype s' o = upd (otype s) (e_obj e) (header e) o) ->
  (forall c, containers s' c = upd (containers s) (e_class e) (e_obj e :: containers s (e_class e)) c) ->
  represents (e :: reg) s'.
Proof.
  intros [Hn Hc Hh Hs] He Hout Eo Ec. split.
  - by constructor.
  - intros x [->|Hx]%elem_of_cons; [done|by apply Hc].
  - intros x Hx. rewrite Eo. apply elem_of_cons in Hx as [->|Hx]; [by rewrite upd_eq|].
    rewrite upd_ne; [by apply Hh|]. intros E. apply Hout. apply elem_of_objects. by exists x.
  - intros c. rewrite Ec. unfold of_class. rewrite filter_cons. unfold upd. rewrite !Hs.
    by destruct (decide (e_class e = c)) as [<-|].
Qed.

Lemma remove_of_class o c reg : remove_elt o (of_class c reg) = of_class c (without o reg).
Proof.
  unfold remove_elt, of_class, without, objects. induction reg as [|e reg IH]; [done|].
  rewrite (filter_cons (fun e => e_class e = c)), (filter_cons (fun e => e_obj e <> o)).
  destruct (decide (e_class e = c)), (decide (e_obj e <> o)); cbn [map]; rewrite ?filter_cons;
    repeat destruct (decide _); try done; cbn [map]; by rewrite ?IH.
Qed.

(** An object leaves. *)
Lemma registry_remove reg s s' o v : represents reg s ->
  (forall x, otype s' x = upd (otype s) o v x) -> (forall c, containers s' c = remove_elt o (containers s c)) ->
  represents (without o reg) s'.
Proof.
  intros [Hn Hc Hh Hs] Eo Ec. split.
  - unfold objects, without in *. clear -Hn. induction reg as [|e reg IH]; [done|]. cbn in Hn. apply NoDup_cons in Hn as [He Hn].
    rewrite filter_cons. case_decide; [|by apply IH]. cbn. constructor; [|by apply IH]. intros Hin. apply He.
    apply list_elem_of_fmap in Hin as (x & -> & [_ Hx]%list_elem_of_filter). apply list_elem_of_fmap. by exists x.
  - intros e [_ He]%list_elem_of_filter. by apply Hc.
  - intros e [Hne He]%list_elem_of_filter. rewrite Eo, upd_ne by done. by apply Hh.
  - intros c. by rewrite Ec, Hs, remove_of_class.
Qed.

(** * The calls *)
Lemma inside_registry me s s1 reg : inside me s s1 -> represents reg s -> represents reg s1.
Proof. intros (n & b & -> & _) Hr. by eapply represents_same; [..|exact Hr]. Qed.

Lemma keq_represents s s' reg : keq s s' -> represents reg s -> represents reg s'.
Proof.
  intros E Hr. eapply represents_same; [..|exact Hr]; intros; symmetry; [apply (keq_otype _ _ E)|apply (keq_containers _ _ E)].
Qed.

Lemma find_named_find same l : find_named same l = List.find same l.
Proof. induction l as [|o l IH]; cbn; [done|]. by rewrite IH. Qed.

Lemma assert_absent_run o l (Q : unit -> kstate -> Prop) s : o ∉ l -> Q tt s -> wp (assert_absent o l) Q s.
Proof.
  intros Hl HQ. induction l as [|x l IH]; cbn [assert_absent]; [by wp_steps|].
  wp_steps; [apply bool_decide_eq_true; set_solver|]. apply IH. set_solver.
Qed.
Lemma assert_absent_fails o l (s : kstate) : o ∈ l -> assert_absent o l s = None.
Proof.
  induction l as [|x l IH]; [by intros ?%not_elem_of_nil|]. intros Ho. cbn [assert_absent]. unfold mbind, M_bind, assertM.
  destruct (decide (x = o)) as [->|Hne]; [by rewrite bool_decide_false by naive_solver|].
  rewrite bool_decide_true by done. apply IH. set_solver.
Qed.

Section steps.
Context (name_of : obj -> list Z) (me d : Z) (Hd : 0 <= d < 32767).
Abbreviation good reg s := (calm me d s /\ represents reg s).

Lemma wp_attach s reg e (Q : unit -> kstate -> Prop) : calm me d s -> represents reg s ->
  e_class e ∈ rt_object_container -> e_obj e ∉ objects reg ->
  (forall s', good (e :: reg) s' -> Q tt s') ->
  wp (otype_upd (e_obj e) (header e);; rt_hw_interrupt_disable me;; container_insert (e_class e) (e_obj e);; rt_hw_interrupt_enable me) Q s.
Proof using Hd.
  intros Hca Hr He Hout HQ. unfold otype_upd, container_insert. wp_step. wp_step.
  apply (wp_locked me d (fun f => upd f (e_class e) (e_obj e :: f (e_class e)))).
  - by eapply calm_frame; [..|exact Hca].
  - done.
  - intros f f' E c. unfold upd. rewrite !E. by case_decide.
  - intros s' Hca' Eo Ec. apply HQ. split; [done|]. exact (represents_add _ _ _ e Hr He Hout Eo Ec).
Qed.

Lemma wp_object_removed s reg o (Q : unit -> kstate -> Prop) : calm me d s -> represents reg s ->
  (forall s', good (without o reg) s' -> otype s' o = 0 -> Q tt s') ->
  wp (otype_upd o 0;; rt_hw_interrupt_disable me;; container_remove o;; rt_hw_interrupt_enable me) Q s.
Proof using Hd.
  intros Hca Hr HQ. unfold otype_upd, container_remove. wp_step. wp_step.
  apply (wp_locked me d (fun f c => remove_elt o (f c))).
  - by eapply calm_frame; [..|exact Hca].
  - done.
  - intros f f' E c. by rewrite E.
  - intros s' Hca' Eo Ec. apply HQ; [split; [done|]; exact (registry_remove _ _ _ _ _ Hr Eo Ec)|]. rewrite Eo. cbn. by rewrite upd_eq.
Qed.

Lemma wp_object_init s reg o c (Q : unit -> kstate -> Prop) : calm me d s -> represents reg s ->
  c ∈ rt_object_container -> o ∉ objects reg ->
  (forall s', good (mkEntry o c true :: reg) s' -> Q tt s') -> wp (rt_object_init me o c) Q s.
Proof using Hd.
  intros Hca Hr Hc Ho HQ. destruct (class_information c Hc) as (Hi & _).
  unfold rt_object_init. eapply wp_bind, wp_ofopt; [exact Hi|]. wp_step.
  apply (wp_enter me d s); [done|lia|]. intros s1 Hin. wp_step. wp_step. wp_step.
  apply assert_absent_run.
  { rewrite (re_containers _ _ (inside_registry _ _ _ _ Hin Hr)). intros (e & He & Eo & _)%elem_of_class. apply Ho, elem_of_objects. by exists e. }
  wp_step. apply (wp_exit me d s); [done|lia|done|]. intros s2 Ek Hca2.
  apply (wp_attach s2 reg (mkEntry o c true)); [done|by eapply keq_represents|done|done|exact HQ].
Qed.

Lemma rt_object_init_fails s reg e : calm me d s -> represents reg s -> e ∈ reg ->
  rt_object_init me (e_obj e) (e_class e) s = None.
Proof using Hd.
  intros Hca Hr He. destruct (class_information _ (re_class _ _ Hr e He)) as (Hi & _).
  assert (Hw : wp (rt_enter_critical me) (fun _ s1 => inside me s s1) s) by (apply (wp_enter me d s); [done|lia|done]).
  unfold rt_object_init. rewrite Hi. unfold wp, ofopt, mbind, M_bind, mret, M_ret, get in *.
  destruct (rt_enter_critical me s) as [[[] s1]|]; [|done]. rewrite assert_absent_fails; [done|].
  rewrite (re_containers _ _ (inside_registry _ _ _ _ Hw Hr)). apply elem_of_class. by exists e.
Qed.

(** One call refines one step of the registry. *)
Lemma wp_object_call s reg reg' x r : calm me d s -> represents reg s -> spec_call name_of reg x = Some (reg', r) ->
  wp (run_call name_of me x) (fun r' s' => r' = r /\ good reg' s') s.
Proof using Hd.
  intros Hca Hr Hx. destruct x as [o c|o|mem c|o|name c]; cbn [run_call spec_call] in *.
  - destruct (is_class c && _) eqn:E in Hx; [|done]. injection Hx as <- <-.
    apply andb_true_iff in E as [Hc%bool_decide_eq_true Ho%bool_decide_eq_true].
    wp_step. apply (wp_object_init s reg); [done..|]. intros s' Hg. by wp_step.
  - case_bool_decide as Ho; [|done]. injection Hx as <- <-. wp_step. unfold rt_object_detach.
    apply (wp_object_removed s reg); [done..|]. intros s' Hg _. by wp_step.
  - assert (Hirq : (irq_nest (cpus s me) =? 0) = true) by (by rewrite (ca_irq _ _ _ Hca)).
    unfold rt_object_allocate. wp_step. wp_step. wp_step. wp_step; [exact Hirq|].
    destruct mem as [o|].
    + destruct (is_class c && _) eqn:E in Hx; [|done]. injection Hx as <- <-.
      apply andb_true_iff in E as [Hc%bool_decide_eq_true Ho%bool_decide_eq_true].
      destruct (class_information c Hc) as (Hi & _). eapply wp_bind, wp_ofopt; [exact Hi|]. cbn beta.
      assert (W : wp ((otype_upd o c;; rt_hw_interrupt_disable me;; container_insert c o;; rt_hw_interrupt_enable me);; mret (Some o))
        (fun r' s' => r' = Some o /\ good (mkEntry o c false :: reg) s') s).
      { wp_step. apply (wp_attach s reg (mkEntry o c false)); [done..|]. intros s' Hg. by wp_step. }
      revert W. unfold wp, mbind, M_bind. cbn [interrupt_disable interrupt_enable Smp].
      destruct (otype_upd o c s) as [[[] ?]|]; [|done]. destruct (rt_hw_interrupt_disable me _) as [[[] ?]|]; [|done].
      destruct (container_insert c o _) as [[[] ?]|]; [|done]. by destruct (rt_hw_interrupt_enable me _) as [[[] ?]|].
    + destruct (is_class c) eqn:Hc; [|done]. apply bool_decide_eq_true in Hc. injection Hx as <- <-.
      destruct (class_information c Hc) as (Hi & _). eapply wp_bind, wp_ofopt; [exact Hi|]. by wp_step.
  - case_bool_decide as Ho; [|done]. injection Hx as <- <-. wp_step. unfold rt_object_delete. wp_step. wp_step. wp_step. wp_step.
    { apply list_elem_of_fmap in Ho as (e & -> & [Hst He]%list_elem_of_filter). unfold rt_object_is_systemobject.
      rewrite (re_header _ _ Hr e He). unfold header. rewrite Hst.
      destruct (class_information _ (re_class _ _ Hr e He)) as (_ & _ & _ & _ & _ & E). by rewrite E. }
    apply (wp_object_removed s reg); [done..|]. intros s' Hg _. by wp_step.
  - destruct (is_class c) eqn:Hc; [|done]. apply bool_decide_eq_true in Hc. injection Hx as <- <-.
    destruct (class_information c Hc) as (Hi & Hle & _). unfold rt_object_find. rewrite (proj2 (Z.ltb_ge _ _)) by lia.
    unfold RT_DEBUG_NOT_IN_INTERRUPT, rt_interrupt_get_nest. wp_step. wp_step. wp_step. wp_step; [by rewrite (ca_irq _ _ _ Hca)|].
    wp_step. apply (wp_enter me d s); [done|lia|]. intros s1 Hin. eapply wp_bind, wp_ofopt; [exact Hi|]. wp_step. wp_step. wp_step.
    apply (wp_exit me d s); [done|lia|done|]. intros s2 Ek Hca2. wp_step.
    rewrite find_named_find, (re_containers _ _ (inside_registry _ _ _ _ Hin Hr)). split; [done|]. split; [done|by eapply keq_represents].
Qed.

Lemma wp_calls l : forall s reg reg' rs, calm me d s -> represents reg s -> spec_calls name_of reg l = Some (reg', rs) ->
  wp (run_calls name_of me l) (fun rs' s' => rs' = rs /\ good reg' s') s.
Proof using Hd.
  induction l as [|x l IH]; intros s reg reg' rs Hca Hr Hx; cbn [run_calls spec_calls] in *.
  - injection Hx as <- <-. by wp_step.
  - destruct (spec_call name_of reg x) as [[reg1 r]|] eqn:E1; [|done].
    destruct (spec_calls name_of reg1 l) as [[reg2 rs2]|] eqn:E2; [|done]. injection Hx as <- <-.
    wp_step. eapply wp_mono; [by apply (wp_object_call s reg reg1)|]. intros r' s1 (-> & Hca1 & Hr1). cbn beta.
    wp_step. eapply wp_mono; [by apply (IH s1 reg1 reg2)|]. intros rs' s2 (-> & Hg). by wp_step.
Qed.
End steps.

Lemma rt_object_delete_fails me d s reg e : calm me d s -> represents reg s -> e ∈ reg -> e_static e = true ->
  rt_object_delete (Kn := Smp me) (e_obj e) s = None.
Proof.
  intros _ Hr He Hst. unfold rt_object_delete, mbind, M_bind, get, assertM. unfold rt_object_is_systemobject.
  rewrite (re_header _ _ Hr e He). unfold header. rewrite Hst.
  destruct (class_information _ (re_class _ _ Hr e He)) as (_ & _ & _ & _ & E & _).
  by rewrite (proj2 (Z.eqb_neq _ _) E).
Qed.

Lemma class_unknown c : c ∉ rt_object_container -> rt_object_get_information c = None.
Proof.
  intros Hc. unfold rt_object_get_information. destruct (list_find _ _) as [[k x]|] eqn:E; [|done].
  apply list_find_Some in E as (Hk & -> & _). by destruct Hc; eapply list_elem_of_lookup_2.
Qed.


(** Thread 1 of [ex] in a critical section. *)
Definition ex_calm : kstate :=
  set_critical_lock true (set_nests (fun t => if decide (t = 1%positive) then mkNest 1 0 1 else mkNest 0 0 0) ex).
Lemma ex_calm_ok : calm 0 0 ex_calm.
Proof. split; [vm_compute; by split_and!|done|]. intros t [= <-]. vm_compute. split_and!; [done|done|by right]. Qed.
Lemma ex_calm_empty : represents [] ex_calm.
Proof. split; [constructor|by intros e ?%not_elem_of_nil..|done]. Qed.
Definition ex_name_of (o : obj) : list Z := match o with OIpc i => [Zpos i] | _ => [] end.
Definition ex_calls : list call :=
  [CInit (OIpc 20) RT_Object_Class_Semaphore; CAllocate (Some (OIpc 21)) RT_Object_Class_Semaphore;
   CAllocate None RT_Object_Class_Mutex; CFind [20] RT_Object_Class_Semaphore; CDelete (OIpc 21);
   CInit (OIpc 22) RT_Object_Class_Mutex; CDetach (OIpc 20); CFind [20] RT_Object_Class_Semaphore].
