(* ===== verification/SList.v ===== *)
(** The singly linked lists of [rt-thread/include/rtservice.h] at the level of
    their pointers, and the sequences they stand for. *)
From S2P Require Import Prelude.

(** The address of a list is [None], that of a node [Some]; the memory gives the
    [next] pointer, [None] for [RT_NULL]. *)
Abbreviation smem := (option Z -> option Z).

Definition rt_slist_init (m : smem) : smem := upd m None None.

(** [while (node->next) node = node->next;] *)
Fixpoint slist_end (fuel : nat) (m : smem) (node : option Z) : option (option Z) :=
  match m node with
  | None => Some node
  | Some n => match fuel with O => None | S fuel => slist_end fuel m (Some n) end
  end.
Definition rt_slist_append (fuel : nat) (n : Z) (m : smem) : option smem :=
  match slist_end fuel m None with
  | Some node => Some (upd (upd m node (Some n)) (Some n) None)
  | None => None
  end.

Definition rt_slist_insert (n : Z) (m : smem) : smem := upd (upd m (Some n) (m None)) None (Some n).

Fixpoint slist_len_from (fuel : nat) (m : smem) (list : option Z) (len : Z) : option Z :=
  match list with
  | None => Some len
  | Some n => match fuel with O => None | S fuel => slist_len_from fuel m (m (Some n)) (u32 (len + 1)) end
  end.
Definition rt_slist_len (fuel : nat) (m : smem) : option Z := slist_len_from fuel m (m None) 0.

(** [while (node->next && node->next != n) node = node->next;] *)
Fixpoint slist_before (fuel : nat) (n : Z) (m : smem) (node : option Z) : option (option Z) :=
  match m node with
  | None => Some node
  | Some x => if x =? n then Some node else match fuel with O => None | S fuel => slist_before fuel n m (Some x) end
  end.
Definition rt_slist_remove (fuel : nat) (n : Z) (m : smem) : option smem :=
  match slist_before fuel n m None with
  | Some node => Some (match m node with Some x => upd m node (m (Some x)) | None => m end)
  | None => None
  end.

Definition rt_slist_first (m : smem) : option Z := m None.
Definition rt_slist_tail (fuel : nat) (m : smem) : option (option Z) := slist_end fuel m None.
Definition rt_slist_next (n : Z) (m : smem) : option Z := m (Some n).
Definition rt_slist_isempty (m : smem) : bool := bool_decide (m None = None).

(** * Sequences *)
(** The nodes from the address [a] on. *)
Fixpoint chain (m : smem) (a : option Z) (l : list Z) : Prop :=
  match l with
  | [] => m a = None
  | x :: l => m a = Some x /\ chain m (Some x) l
  end.

(** The sequence without the first [n]. *)
Fixpoint slist_remove (n : Z) (l : list Z) : list Z :=
  match l with [] => [] | x :: l => if x =? n then l else x :: slist_remove n l end.

Lemma slist_chain_same m m' l : forall a, (forall b, b = a \/ (exists x, b = Some x /\ x ∈ l) -> m' b = m b) -> chain m a l -> chain m' a l.
Proof.
  induction l as [|x l IH]; intros a H; cbn; [intros E; rewrite H; [done|by left]|]. intros [E Hc].
  split; [rewrite H; [done|by left]|]. apply IH; [|done]. intros b [->|(y & -> & Hy)]; apply H; right; eexists; (split; [done|]); [by left|by right].
Qed.

Lemma slist_end_spec m l : forall a fuel, chain m a l -> (length l <= fuel)%nat -> slist_end fuel m a = Some (default a (Some <$> last l)).
Proof.
  induction l as [|x l IH]; intros a fuel; cbn [chain length]; [intros E _; by destruct fuel; cbn; rewrite E|].
  intros [E Hc] Hf. destruct fuel as [|fuel]; [lia|]. cbn. rewrite E, (IH (Some x)) by (done || lia). by destruct l as [|y l]; [|cbn; destruct (last (y :: l)) eqn:El; [|by apply last_None in El]].
Qed.

Lemma slist_chain_app m l : forall a n, chain m a l -> n ∉ l -> a <> Some n -> NoDup l -> (forall x, a = Some x -> x ∉ l) ->
  chain (upd (upd m (default a (Some <$> last l)) (Some n)) (Some n) None) a (l ++ [n]).
Proof.
  induction l as [|x l IH]; intros a n Hc Hn Ha Hnd Hax; cbn [app chain last fmap option_fmap option_map default] in *.
  - rewrite upd_ne, upd_eq by congruence. split; [done|]. by rewrite upd_eq.
  - apply NoDup_cons in Hnd as [Hx Hnd]. destruct Hc as [E Hc]. apply not_elem_of_cons in Hn as [Hnx Hn].
    assert (El : default a (Some <$> last (x :: l)) = default (Some x) (Some <$> last l)).
    { destruct l as [|y l]; [done|]. change (last (x :: y :: l)) with (last (y :: l)). destruct (last (y :: l)) eqn:El; [done|by apply last_None in El]. }
    rewrite El. split; [|apply IH; [done|done|congruence|done|by intros y [= <-]]].
    rewrite !upd_ne; [done| |congruence]. intros E'. destruct (last l) as [z|] eqn:Ez; cbn in E'.
    + apply (Hax z); [congruence|]. right. by apply last_Some_elem_of.
    + apply (Hax x); [congruence|]. by left.
Qed.

Lemma slist_len_from_spec m l : forall a fuel len, chain m a l -> (length l <= fuel)%nat -> 0 <= len -> len + Z.of_nat (length l) < 2 ^ 32 ->
  slist_len_from fuel m (m a) len = Some (len + Z.of_nat (length l)).
Proof.
  induction l as [|x l IH]; intros a fuel len; cbn [chain length]; [intros -> _ _ _; destruct fuel; cbn; f_equal; lia|].
  intros [-> Hc] Hf H0 Hl. destruct fuel as [|fuel]; [lia|]. cbn [slist_len_from]. assert (E : u32 (len + 1) = len + 1) by (unfold u32; apply Z.mod_small; lia).
  rewrite E, (IH (Some x)) by (done || lia). f_equal. lia.
Qed.

Lemma slist_remove_notin n l : n ∉ l -> slist_remove n l = l.
Proof.
  induction l as [|x l IH]; cbn; [done|]. rewrite not_elem_of_cons. intros [Hx Hl]. rewrite (proj2 (Z.eqb_neq _ _)) by congruence. by rewrite IH.
Qed.

Lemma slist_before_spec m n l : forall a fuel, chain m a l -> NoDup l -> (forall x, a = Some x -> x ∉ l) -> a <> Some n -> (length l <= fuel)%nat ->
  exists node, slist_before fuel n m a = Some node /\
    chain (match m node with Some x => upd m node (m (Some x)) | None => m end) a (slist_remove n l) /\
    (node = a \/ exists x, node = Some x /\ x ∈ l /\ x <> n).
Proof.
  induction l as [|x l IH]; intros a fuel Hc Hnd Hax Ha Hf; cbn [chain length slist_remove] in *.
  - exists a. destruct fuel; cbn; rewrite Hc; (split_and!; [done|done|by left]).
  - destruct Hc as [E Hc]. apply NoDup_cons in Hnd as [Hx Hnd].
    destruct (Z.eqb_spec x n) as [->|Hne].
    + exists a. destruct fuel as [|fuel]; cbn [slist_before]; rewrite E, Z.eqb_refl; (split_and!; [done| |by left]).
      all: destruct l as [|y l]; cbn [chain] in *; [by rewrite upd_eq|]; destruct Hc as [Ey Hc]; rewrite upd_eq; (split; [done|]);
        eapply slist_chain_same; [|exact Hc]; intros b Hb; rewrite upd_ne; [done|]; intros <-;
        destruct Hb as [Hb|(z & Hb & Hz)]; [apply (Hax y Hb); right; left|apply (Hax z Hb); right; by right].
    + destruct fuel as [|fuel]; [lia|]. destruct (IH (Some x) fuel Hc Hnd) as (node & En & Hch & Hno); [by intros y [= <-]|congruence|lia|].
      exists node. cbn [slist_before]. rewrite E, (proj2 (Z.eqb_neq _ _)) by done. split_and!; [done| |].
      * cbn [chain]. split; [|done]. assert (Hna : node <> a).
        { intros ->. destruct Hno as [->|(y & -> & Hy & _)]; [apply (Hax x); [done|by left]|apply (Hax y); [done|by right]]. }
        destruct (m node); [by rewrite upd_ne|done].
      * right. destruct Hno as [->|(y & -> & Hy & Hyn)]; [exists x; by split_and!; [|left|]|exists y; by split_and!; [|right|]].
Qed.

(** On a list of fewer nodes than the rounds of its loops, the operations on
    singly linked lists are those on the sequence of its nodes; a node that is
    removed keeps its own link. *)
Theorem rt_slist_refines m l n fuel : chain m None l -> NoDup l -> (length l <= fuel)%nat -> Z.of_nat (length l) < 2 ^ 32 ->
  rt_slist_first m = head l /\ rt_slist_isempty m = bool_decide (l = []) /\
  rt_slist_len fuel m = Some (Z.of_nat (length l)) /\ rt_slist_tail fuel m = Some (last l) /\
  (n ∉ l -> chain (rt_slist_insert n m) None (n :: l) /\
    exists m', rt_slist_append fuel n m = Some m' /\ chain m' None (l ++ [n])) /\
  exists m', rt_slist_remove fuel n m = Some m' /\ chain m' None (slist_remove n l) /\ rt_slist_next n m' = rt_slist_next n m.
Proof.
  intros Hc Hn Hf Hl. assert (E0 : m None = head l) by (destruct l; [done|by destruct Hc]).
  split_and!.
  - exact E0.
  - unfold rt_slist_isempty. rewrite E0. by destruct l.
  - unfold rt_slist_len. by rewrite (slist_len_from_spec m l None).
  - unfold rt_slist_tail. rewrite (slist_end_spec m l None) by done. by destruct (last l).
  - intros Hnl. split.
    + unfold rt_slist_insert. cbn. rewrite upd_eq. split; [done|]. assert (Hh : upd (upd m (Some n) (m None)) None (Some n) (Some n) = head l).
      { by rewrite upd_ne, upd_eq. }
      destruct l as [|x l]; cbn [chain head] in *; [done|]. split; [done|]. destruct Hc as [_ Hc]. eapply slist_chain_same; [|exact Hc].
      intros b Hb. assert (b <> Some n /\ b <> None) as [H1 H2]; [|by rewrite !upd_ne by congruence].
      apply not_elem_of_cons in Hnl as [? ?]. destruct Hb as [->|(y & -> & Hy)]; split; congruence.
    + unfold rt_slist_append. rewrite (slist_end_spec m l None) by done. eexists. split; [done|]. by apply slist_chain_app.
  - destruct (slist_before_spec m n l None fuel Hc Hn) as (node & En & Hch & Hno); [done|done|done|].
    unfold rt_slist_remove. rewrite En. eexists. split_and!; [done|done|]. unfold rt_slist_next. destruct (m node); [|done].
    rewrite upd_ne; [done|]. intros ->. destruct Hno as [?|(y & ? & _ & ?)]; congruence.
Qed.

(** Three nodes. *)
Definition ex_nodes : smem := fun a => match a with None => Some 7 | Some 7 => Some 4 | Some 4 => Some 9 | _ => None end.
Lemma rt_slist_refines_ex :
  (rt_slist_first ex_nodes = head [7; 4; 9] /\ rt_slist_isempty ex_nodes = bool_decide ([7; 4; 9] = []) /\
   rt_slist_len 3 ex_nodes = Some (Z.of_nat (length [7; 4; 9])) /\ rt_slist_tail 3 ex_nodes = Some (last [7; 4; 9]) /\
   (4 ∉ [7; 4; 9] -> chain (rt_slist_insert 4 ex_nodes) None (4 :: [7; 4; 9]) /\
     exists m', rt_slist_append 3 4 ex_nodes = Some m' /\ chain m' None ([7; 4; 9] ++ [4])) /\
   exists m', rt_slist_remove 3 4 ex_nodes = Some m' /\ chain m' None (slist_remove 4 [7; 4; 9]) /\
     rt_slist_next 4 m' = rt_slist_next 4 ex_nodes) /\ slist_remove 4 [7; 4; 9] = [7; 9].
Proof.
  split; [|done]. apply (rt_slist_refines ex_nodes [7; 4; 9] 4 3); [by split_and!|by apply (bool_decide_unpack _)|cbn; lia|cbn; lia].
Defined.
