(* ===== verification/RingBlk.v ===== *)
(** The ring block buffer of the device drivers
    ([rt-thread/components/drivers/src/ringblk_buf.c]): blocks of a buffer that
    are allocated, put, got and freed, and queues of blocks.

    A block is designated by its index in [blk_set]; an access beyond
    [blk_max_num] has no result.  The list of blocks is the sequence of their
    indices; [SList.v] shows what the pointer operations on it do.  The
    operations run under the CPU lock, which is not part of this state. *)
From S2P Require Import Prelude SList.

Inductive rt_rbb_status := RT_RBB_BLK_UNUSED | RT_RBB_BLK_INITED | RT_RBB_BLK_PUT | RT_RBB_BLK_GET.
#[export] Instance rt_rbb_status_eq_dec : EqDecision rt_rbb_status.
Proof. solve_decision. Defined.

Record rt_rbb_blk := mkBlk { status : rt_rbb_status; size : Z; blk_buf : Z }.
Definition set_status (v : rt_rbb_status) (b : rt_rbb_blk) : rt_rbb_blk := mkBlk v (size b) (blk_buf b).

Record rt_rbb := mkRbb {
  buf : Z; buf_size : Z;
  blk_set : Z -> rt_rbb_blk; blk_max_num : Z;
  blk_list : list Z }.
Definition set_blk_set (v : Z -> rt_rbb_blk) (r : rt_rbb) : rt_rbb :=
  mkRbb (buf r) (buf_size r) v (blk_max_num r) (blk_list r).
Definition set_blk_list (v : list Z) (r : rt_rbb) : rt_rbb :=
  mkRbb (buf r) (buf_size r) (blk_set r) (blk_max_num r) v.

(** The queue of blocks: the index of the first one, and how many. *)
Record rt_rbb_blk_queue := mkBlkQueue { blocks : Z; blk_num : Z }.

Abbreviation B := (M rt_rbb).

(** [blk_set[i]] and an assignment to it *)
Definition blk_at (i : Z) : B rt_rbb_blk :=
  r ← get; assertM ((0 <=? i) && (i <? blk_max_num r));; mret (blk_set r i).
Definition blk_upd (i : Z) (f : rt_rbb_blk -> rt_rbb_blk) : B unit :=
  r ← get; assertM ((0 <=? i) && (i <? blk_max_num r));;
  modify (fun r => set_blk_set (upd (blk_set r) i (f (blk_set r i))) r).

(** [rt_slist_append] and [rt_slist_remove] on [blk_list] *)
Definition blk_append (i : Z) : B unit := modify (fun r => set_blk_list (blk_list r ++ [i]) r).
Definition blk_remove (i : Z) : B unit := modify (fun r => set_blk_list (slist_remove i (blk_list r)) r).

Definition rt_rbb_init (buf_ buf_size_ : Z) (block_set : Z -> rt_rbb_blk) (blk_max_num_ : Z) : rt_rbb :=
  mkRbb buf_ buf_size_
    (fun i => if (0 <=? i) && (i <? blk_max_num_) then set_status RT_RBB_BLK_UNUSED (block_set i) else block_set i)
    blk_max_num_ [].

(** The memory of the buffer and of the blocks is what the heap returned. *)
Definition rt_rbb_create (rbb : bool) (buf_ : option Z) (blk_set_ : option (Z -> rt_rbb_blk)) (buf_size_ blk_max_num_ : Z)
  : option rt_rbb :=
  if rbb then
    match buf_ with
    | None => None
    | Some b => match blk_set_ with None => None | Some bs => Some (rt_rbb_init b buf_size_ bs blk_max_num_) end
    end
  else None.

(** [for (i = 0; i < blk_max_num; i++)], [n] rounds of it from [i] on *)
Fixpoint find_unused (bs : Z -> rt_rbb_blk) (n : nat) (i : Z) : option Z :=
  match n with
  | O => None
  | S n => if decide (status (bs i) = RT_RBB_BLK_UNUSED) then Some i else find_unused bs n (i + 1)
  end.
Definition find_empty_blk_in_set (r : rt_rbb) : option Z := find_unused (blk_set r) (Z.to_nat (blk_max_num r)) 0.

(** The block [i] gets [n] bytes at [b]. *)
Definition blk_take (i n b : Z) : B (option Z) :=
  blk_append i;;
  blk_upd i (fun _ => mkBlk RT_RBB_BLK_INITED n b);;
  mret (Some i).

Definition rt_rbb_blk_alloc (blk_size : Z) : B (option Z) :=
  assertM (blk_size <? 2 ^ 24);;
  r ← get;
  match find_empty_blk_in_set r with
  | Some new_rbb =>
      let len := u32 (Z.of_nat (length (blk_list r))) in
      if len <? blk_max_num r then
        if 0 <? len then
          h ← ofopt (head (blk_list r)); head ← blk_at h;
          t ← ofopt (last (blk_list r)); tail ← blk_at t;
          if blk_buf head <=? blk_buf tail then
            let empty1 := u64 (buf r + buf_size r - (blk_buf tail + size tail)) in
            let empty2 := u64 (blk_buf head - buf r) in
            if blk_size <=? empty1 then blk_take new_rbb blk_size (u64 (blk_buf tail + size tail))
            else if blk_size <=? empty2 then blk_take new_rbb blk_size (buf r)
            else mret None
          else
            let empty1 := u64 (blk_buf head - (blk_buf tail + size tail)) in
            if blk_size <=? empty1 then blk_take new_rbb blk_size (u64 (blk_buf tail + size tail))
            else mret None
        else blk_take new_rbb blk_size (buf r)
      else mret None
  | None => mret None
  end.

Definition rt_rbb_blk_put (block : Z) : B unit :=
  b ← blk_at block;
  assertM (bool_decide (status b = RT_RBB_BLK_INITED));;
  blk_upd block (set_status RT_RBB_BLK_PUT).

Fixpoint get_loop (nodes : list Z) : B (option Z) :=
  match nodes with
  | [] => mret None
  | block :: nodes =>
      b ← blk_at block;
      if decide (status b = RT_RBB_BLK_PUT) then blk_upd block (set_status RT_RBB_BLK_GET);; mret (Some block)
      else get_loop nodes
  end.
Definition rt_rbb_blk_get : B (option Z) :=
  r ← get;
  match blk_list r with [] => mret None | nodes => get_loop nodes end.

Definition rt_rbb_blk_size (block : Z) : B Z := b ← blk_at block; mret (size b).
Definition rt_rbb_blk_buf (block : Z) : B Z := b ← blk_at block; mret (blk_buf b).

Definition rt_rbb_blk_free (block : Z) : B unit :=
  b ← blk_at block;
  assertM (bool_decide (status b <> RT_RBB_BLK_UNUSED));;
  blk_remove block;;
  blk_upd block (set_status RT_RBB_BLK_UNUSED).

(** * Queues of blocks *)
(** The block leaves the list and is the next one of the queue. *)
Definition queue_take (block data_total_size : Z) (q : rt_rbb_blk_queue) : B (Z * rt_rbb_blk_queue) :=
  blk_remove block;;
  b ← blk_at block;
  blk_upd block (set_status RT_RBB_BLK_GET);;
  mret (u64 (data_total_size + size b), mkBlkQueue (blocks q) (blk_num q + 1)).

(** The loop of [rt_rbb_blk_queue_get] from a node on: a node that is removed
    keeps its link, so the loop follows the list as it was. *)
Fixpoint queue_get_loop (queue_data_len : Z) (nodes : list Z) (last_block : option Z) (data_total_size : Z)
    (q : rt_rbb_blk_queue) : B (Z * rt_rbb_blk_queue) :=
  match nodes with
  | [] => mret (data_total_size, q)
  | node :: nodes =>
      b ← blk_at node;
      match last_block with
      | None =>
          if decide (status b = RT_RBB_BLK_PUT) then
            x ← queue_take node data_total_size (mkBlkQueue node 0);
            queue_get_loop queue_data_len nodes (Some node) x.1 x.2
          else queue_get_loop queue_data_len nodes None data_total_size q
      | Some last =>
          lb ← blk_at last;
          if bool_decide (status b <> RT_RBB_BLK_PUT) || (blk_buf b <? blk_buf lb) ||
             (queue_data_len <? u64 (data_total_size + size b)) then mret (data_total_size, q)
          else
            x ← queue_take node data_total_size q;
            queue_get_loop queue_data_len nodes (Some node) x.1 x.2
      end
  end.
Definition rt_rbb_blk_queue_get (queue_data_len : Z) (q : rt_rbb_blk_queue) : B (Z * rt_rbb_blk_queue) :=
  r ← get;
  match blk_list r with [] => mret (0, q) | nodes => queue_get_loop queue_data_len nodes None 0 q end.

Fixpoint queue_len_loop (n : nat) (block data_total_size : Z) : B Z :=
  match n with
  | O => mret data_total_size
  | S n => b ← blk_at block; queue_len_loop n (block + 1) (u64 (data_total_size + size b))
  end.
Definition rt_rbb_blk_queue_len (q : rt_rbb_blk_queue) : B Z := queue_len_loop (Z.to_nat (blk_num q)) (blocks q) 0.

Definition rt_rbb_blk_queue_buf (q : rt_rbb_blk_queue) : B Z := b ← blk_at (blocks q); mret (blk_buf b).

Fixpoint queue_free_loop (n : nat) (block : Z) : B unit :=
  match n with
  | O => mret tt
  | S n => rt_rbb_blk_free block;; queue_free_loop n (block + 1)
  end.
Definition rt_rbb_blk_queue_free (q : rt_rbb_blk_queue) : B unit := queue_free_loop (Z.to_nat (blk_num q)) (blocks q).

Fixpoint next_len_loop (nodes : list Z) (last_block : option Z) (data_len : Z) : B Z :=
  match nodes with
  | [] => mret data_len
  | node :: nodes =>
      b ← blk_at node;
      match last_block with
      | None =>
          if decide (status b = RT_RBB_BLK_PUT) then next_len_loop nodes (Some node) (u64 (data_len + size b))
          else next_len_loop nodes None data_len
      | Some last =>
          lb ← blk_at last;
          if bool_decide (status b <> RT_RBB_BLK_PUT) || (blk_buf b <? blk_buf lb) then mret data_len
          else next_len_loop nodes (Some node) (u64 (data_len + size b))
      end
  end.
Definition rt_rbb_next_blk_queue_len : B Z :=
  r ← get;
  match blk_list r with [] => mret 0 | nodes => next_len_loop nodes None 0 end.

Definition rt_rbb_get_buf_size : B Z := r ← get; mret (buf_size r).
