(* ===== verification/RingBlkProps.v ===== *)
(** The properties of the ring block buffer: the blocks of every history lie in
    the buffer and do not overlap, as long as no block is larger than the buffer
    and blocks are taken one by one; what goes wrong otherwise. *)
From S2P Require Import Prelude SList RingBlk.

(** * The layout of the blocks *)
(** The blocks lie between [lo] and [hi] in this order. *)
Fixpoint laid (lo hi : Z) (l : list rt_rbb_blk) : Prop :=
  match l with
  | [] => lo <= hi
  | b :: l => lo <= blk_buf b /\ 0 < size b /\ laid (blk_buf b + size b) hi l
  end.

Lemma laid_le l : forall lo hi, laid lo hi l -> lo <= hi.
Proof. induction l as [|b l IH]; intros lo hi; cbn; [done|]. intros (? & ? & ?%IH). lia. Qed.

Lemma laid_app l1 : forall lo hi l2, laid lo hi (l1 ++ l2) <-> exists mid, laid lo mid l1 /\ laid mid hi l2.
Proof.
  induction l1 as [|b l1 IH]; intros lo hi l2; cbn.
  - split; [intros H; exists lo; split; [lia|done]|]. intros (mid & Hm & H). destruct l2 as [|c l2]; cbn in *; [lia|]. intuition lia.
  - rewrite IH. split.
    + intros (H1 & H2 & mid & H3 & H4). by exists mid.
    + intros (mid & (H1 & H2 & H3) & H4). split_and!; [done|done|]. by exists mid.
Qed.

Lemma laid_weaken lo lo' hi hi' l : lo' <= lo -> hi <= hi' -> laid lo hi l -> laid lo' hi' l.
Proof.
  revert lo lo'. induction l as [|b l IH]; intros lo lo' H1 H2; cbn; [lia|].
  intros (H3 & H4 & H5). split_and!; [lia|lia|]. eapply IH; [| |exact H5]; lia.
Qed.

Lemma laid_in lo hi l b : laid lo hi l -> b ∈ l -> lo <= blk_buf b /\ 0 < size b /\ blk_buf b + size b <= hi.
Proof.
  revert lo. induction l as [|c l IH]; intros lo; [by intros _ ?%not_elem_of_nil|]. cbn. intros (H1 & H2 & H3) [->|Hb]%elem_of_cons.
  - pose proof (laid_le _ _ _ H3). lia.
  - destruct (IH _ H3 Hb). lia.
Qed.

Lemma laid_sub lo hi l1 b l2 : laid lo hi (l1 ++ b :: l2) -> laid lo hi (l1 ++ l2).
Proof.
  rewrite !laid_app. intros (mid & H1 & H2). cbn in H2. destruct H2 as (H2 & H3 & H4). exists mid. split; [done|].
  eapply laid_weaken; [| |exact H4]; lia.
Qed.

(** * The invariant *)
Section inv.
Context (r : rt_rbb).
Definition block_of (i : Z) : rt_rbb_blk := blk_set r i.
Definition used (i : Z) : Prop := 0 <= i < blk_max_num r /\ status (block_of i) <> RT_RBB_BLK_UNUSED.

(** The older blocks [l1], and the newer ones [l2] behind the wrap. *)
Record wf (l1 l2 : list Z) : Prop := {
  wf_buf : 0 <= buf r /\ 0 <= buf_size r /\ buf r + buf_size r < 2 ^ 64;
  wf_num : 0 <= blk_max_num r < 2 ^ 32;
  wf_list : blk_list r = l1 ++ l2;
  wf_nodup : NoDup (blk_list r);
  wf_used : forall i, i ∈ blk_list r <-> used i;
  wf_first : l1 = [] -> l2 = [];
  wf_laid : laid (buf r) (buf r + buf_size r) (map block_of (l2 ++ l1)) }.
End inv.

(** Blocks that take no byte in common. *)
Definition apart (b c : rt_rbb_blk) : Prop := blk_buf b + size b <= blk_buf c \/ blk_buf c + size c <= blk_buf b.

Lemma laid_apart (f : Z -> rt_rbb_blk) l : forall lo hi, laid lo hi (map f l) -> NoDup l ->
  forall i j : Z, i ∈ l -> j ∈ l -> i <> j -> apart (f i) (f j).
Proof.
  induction l as [|k l IH]; intros lo hi; [by intros _ _ i j ?%not_elem_of_nil|]. cbn. intros (H1 & H2 & H3) [Hk Hn]%NoDup_cons i j.
  assert (Hx : forall x, x ∈ l -> apart (f k) (f x)).
  { intros x Hx. left. destruct (laid_in _ _ _ (f x) H3); [|lia]. apply list_elem_of_fmap. by exists x. }
  intros [->|Hi]%elem_of_cons [->|Hj]%elem_of_cons Hne; [done|by apply Hx| |by eapply IH].
  destruct (Hx i Hi); [by right|by left].
Qed.

Lemma find_unused_spec bs n : forall i,
  match find_unused bs n i with
  | Some j => i <= j < i + Z.of_nat n /\ status (bs j) = RT_RBB_BLK_UNUSED
  | None => forall j, i <= j < i + Z.of_nat n -> status (bs j) <> RT_RBB_BLK_UNUSED
  end.
Proof.
  induction n as [|n IH]; intros i; cbn [find_unused]; [lia|]. destruct (decide _) as [E|E]; [split; [lia|done]|].
  specialize (IH (i + 1)). destruct (find_unused bs n (i + 1)).
  - destruct IH. split; [lia|done].
  - intros j Hj. destruct (decide (j = i)) as [->|]; [done|]. apply IH. lia.
Qed.

Lemma find_empty_spec r : 0 <= blk_max_num r ->
  match find_empty_blk_in_set r with
  | Some i => 0 <= i < blk_max_num r /\ status (blk_set r i) = RT_RBB_BLK_UNUSED
  | None => forall i, 0 <= i < blk_max_num r -> status (blk_set r i) <> RT_RBB_BLK_UNUSED
  end.
Proof.
  intros H. pose proof (find_unused_spec (blk_set r) (Z.to_nat (blk_max_num r)) 0) as S. rewrite Z2Nat.id in S by lia.
  unfold find_empty_blk_in_set. by destruct (find_unused _ _ _).
Qed.

Lemma wp_blk_at i r (Q : rt_rbb_blk -> rt_rbb -> Prop) : 0 <= i < blk_max_num r -> Q (blk_set r i) r -> wp (blk_at i) Q r.
Proof. intros Hi HQ. unfold blk_at. wp_steps; [lia|done]. Qed.
Lemma wp_blk_upd i f r (Q : unit -> rt_rbb -> Prop) : 0 <= i < blk_max_num r ->
  Q tt (set_blk_set (upd (blk_set r) i (f (blk_set r i))) r) -> wp (blk_upd i f) Q r.
Proof. intros Hi HQ. unfold blk_upd. wp_steps; [lia|done]. Qed.

(** * Allocation *)
Definition allocated (r : rt_rbb) (i n b : Z) : rt_rbb :=
  set_blk_set (upd (blk_set r) i (mkBlk RT_RBB_BLK_INITED n b)) (set_blk_list (blk_list r ++ [i]) r).

Lemma wp_take i n b r (Q : option Z -> rt_rbb -> Prop) : 0 <= i < blk_max_num r -> Q (Some i) (allocated r i n b) ->
  wp (blk_take i n b) Q r.
Proof. intros Hi HQ. unfold blk_take, blk_append. wp_step. wp_step. wp_step. apply wp_blk_upd; [done|]. by wp_step. Qed.

Lemma map_upd_notin f i b l : i ∉ l -> map (upd f i b) l = map (f : Z -> rt_rbb_blk) l.
Proof.
  intros Hi. apply map_ext_in. intros j Hj%list_elem_of_In. rewrite upd_ne; [done|]. by intros ->.
Qed.

Lemma list_short l n : NoDup l -> (forall i, i ∈ l -> 0 <= i < n) -> Z.of_nat (length l) <= Z.max 0 n.
Proof.
  intros Hn Hl. assert (Hs : l ⊆+ seqZ 0 n).
  { apply NoDup_submseteq; [done|]. intros i Hi%Hl. by apply elem_of_seqZ. }
  apply submseteq_length in Hs. rewrite length_seqZ in Hs. lia.
Qed.

Lemma wf_allocated r l1 l2 i n b l1' l2' : wf r l1 l2 -> 0 <= i < blk_max_num r -> status (blk_set r i) = RT_RBB_BLK_UNUSED ->
  l1' ++ l2' = blk_list r ++ [i] -> (l1' = [] -> l2' = []) ->
  laid (buf r) (buf r + buf_size r) (map (upd (blk_set r) i (mkBlk RT_RBB_BLK_INITED n b)) (l2' ++ l1')) ->
  wf (allocated r i n b) l1' l2'.
Proof.
  intros [Hb Hm Hl Hn Hu Hf Hd] Hi Hs El Ef Hd'.
  assert (Hni : i ∉ blk_list r) by (rewrite Hu; by intros [_ ?]).
  split; cbn; try done.
  - apply list.NoDup_app. split_and!; [done|by intros x Hx ->%list_elem_of_singleton|apply NoDup_singleton].
  - intros j. rewrite elem_of_app, list_elem_of_singleton, Hu. unfold used, block_of. cbn. unfold upd.
    destruct (decide (i = j)) as [->|Hne]; cbn; [|naive_solver]. split; [done|]. by right.
Qed.

(** The free space an allocation looks at: behind the newest block, and in front
    of the oldest one when the blocks have not wrapped. *)
Definition gaps (r : rt_rbb) : list Z :=
  match head (blk_list r), last (blk_list r) with
  | Some h, Some t =>
      let h := blk_set r h in let t := blk_set r t in
      if blk_buf h <=? blk_buf t then [buf r + buf_size r - (blk_buf t + size t); blk_buf h - buf r]
      else [blk_buf h - (blk_buf t + size t)]
  | _, _ => [buf_size r]
  end.

Definition alloc_post (r : rt_rbb) (n : Z) (o : option Z) (r' : rt_rbb) : Prop :=
  (exists l1 l2, wf r' l1 l2) /\
  match o with
  | Some i => 0 <= i < blk_max_num r /\ status (blk_set r i) = RT_RBB_BLK_UNUSED /\ exists b, r' = allocated r i n b
  | None => r' = r /\ ((forall i, 0 <= i < blk_max_num r -> status (blk_set r i) <> RT_RBB_BLK_UNUSED) \/ forall g, g ∈ gaps r -> g < n)
  end.

Section alloc.
Context (r : rt_rbb) (l1 l2 : list Z) (n i : Z).
Context (Hw : wf r l1 l2) (Hn : 0 < n) (Hi : 0 <= i < blk_max_num r) (Hs : status (blk_set r i) = RT_RBB_BLK_UNUSED).
Let new b := mkBlk RT_RBB_BLK_INITED n b.

Lemma alloc_out : i ∉ l1 /\ i ∉ l2.
Proof using All.
  assert (Hni : i ∉ blk_list r) by (rewrite (wf_used _ _ _ Hw); by intros [_ ?]).
  rewrite (wf_list _ _ _ Hw), elem_of_app in Hni. naive_solver.
Qed.

Lemma take_post b l1' l2' : l1' ++ l2' = blk_list r ++ [i] -> (l1' = [] -> l2' = []) ->
  laid (buf r) (buf r + buf_size r) (map (upd (blk_set r) i (new b)) (l2' ++ l1')) ->
  alloc_post r n (Some i) (allocated r i n b).
Proof using All.
  intros E1 E2 E3. split; [|split_and!; [lia|lia|done|by exists b]].
  exists l1', l2'. by eapply wf_allocated.
Qed.

(** Behind the last block of a part. *)
Lemma take_behind t b lo hi l : i ∉ l -> last l = Some t -> laid lo hi (map (block_of r) l) ->
  b = blk_buf (block_of r t) + size (block_of r t) -> forall hi', b + n <= hi' ->
  laid lo hi' (map (upd (blk_set r) i (new b)) (l ++ [i])).
Proof using All.
  unfold block_of. intros Hl Ht Hd -> hi' Hh. apply last_Some in Ht as (l' & ->). rewrite map_app, map_upd_notin by done.
  rewrite !map_app in *. apply laid_app in Hd as (mid & H1 & H2). cbn in H2. destruct H2 as (H2 & H3 & _).
  apply laid_app. exists (blk_buf (blk_set r t) + size (blk_set r t)). split.
  - apply laid_app. exists mid. split; [done|]. cbn. lia.
  - unfold new. cbn. rewrite upd_eq. cbn. lia.
Qed.
End alloc.

Lemma laid_head_last (f : Z -> rt_rbb_blk) lo hi l h t : laid lo hi (map f l) -> head l = Some h -> last l = Some t ->
  blk_buf (f h) <= blk_buf (f t).
Proof.
  destruct l as [|x l]; [done|]. cbn [head]. intros Hd [= ->] Ht%last_Some_elem_of. cbn in Hd. destruct Hd as (H1 & H2 & H3).
  apply elem_of_cons in Ht as [->|Ht]; [lia|]. destruct (laid_in _ _ _ (f t) H3); [|lia]. apply list_elem_of_fmap. by exists t.
Qed.

Lemma wp_alloc r l1 l2 n : wf r l1 l2 -> 0 < n < 2 ^ 24 -> (blk_list r = [] -> n <= buf_size r) ->
  wp (rt_rbb_blk_alloc n) (alloc_post r n) r.
Proof.
  intros Hw Hn He. pose proof Hw as [(Hb1 & Hb2 & Hb3) Hm Hl Hnd Hu Hf Hd]. unfold rt_rbb_blk_alloc.
  wp_step. wp_step; [lia|]. wp_step. wp_step. pose proof (find_empty_spec r ltac:(lia)) as Hfe.
  destruct (find_empty_blk_in_set r) as [i|].
  2: { wp_step. split; [by exists l1, l2|]. split; [done|]. by left. }
  destruct Hfe as [Hi Hs]. destruct (alloc_out r l1 l2 n i Hw ltac:(lia) Hi Hs) as [Hi1 Hi2].
  assert (Hlen : Z.of_nat (length (blk_list r)) < blk_max_num r).
  { pose proof (list_short (i :: blk_list r) (blk_max_num r)) as HL. cbn in HL.
    enough (Z.of_nat (S (length (blk_list r))) <= Z.max 0 (blk_max_num r)) by lia. apply HL.
    - constructor; [|done]. rewrite Hl, elem_of_app. naive_solver.
    - intros j [->|Hj]%elem_of_cons; [done|]. by apply Hu in Hj as [? _]. }
  assert (Eu : u32 (Z.of_nat (length (blk_list r))) = Z.of_nat (length (blk_list r))) by (unfold u32; apply Z.mod_small; lia).
  rewrite Eu, (proj2 (Z.ltb_lt _ _)) by lia.
  assert (Htake : forall b, alloc_post r n (Some i) (allocated r i n b) -> wp (blk_take i n b) (alloc_post r n) r).
  { intros b Hp. by apply wp_take. }
  destruct (blk_list r) as [|h l] eqn:El.
  { cbn [length Z.of_nat]. cbn. apply Htake, (take_post r l1 l2 n i Hw ltac:(lia) Hi Hs _ [i] []); rewrite ?El; [done|done|].
    cbn. rewrite upd_eq. cbn. specialize (He eq_refl). lia. }
  rewrite (proj2 (Z.ltb_lt 0 _)) by (cbn; lia). cbn [head].
  assert (Hh1 : h ∈ blk_list r) by (rewrite El; by left). pose proof (proj1 (Hu h) ltac:(by left)) as [Hhr _].
  eapply wp_bind, wp_ofopt; [done|]. wp_step. apply wp_blk_at; [done|].
  destruct (last (h :: l)) as [t|] eqn:Et; [|by apply last_None in Et].
  assert (Htl : t ∈ blk_list r) by (rewrite El; by apply last_Some_elem_of).
  pose proof (proj1 (Hu t) ltac:(by rewrite <-El)) as [Htr _].
  eapply wp_bind, wp_ofopt; [done|]. wp_step. apply wp_blk_at; [done|]. cbn beta.
  assert (Hgap : gaps r = if blk_buf (blk_set r h) <=? blk_buf (blk_set r t)
    then [buf r + buf_size r - (blk_buf (blk_set r t) + size (blk_set r t)); blk_buf (blk_set r h) - buf r]
    else [blk_buf (blk_set r h) - (blk_buf (blk_set r t) + size (blk_set r t))]) by (unfold gaps; by rewrite El, Et).
  assert (Hin : forall x, x ∈ blk_list r -> buf r <= blk_buf (blk_set r x) /\ 0 < size (blk_set r x) /\
    blk_buf (blk_set r x) + size (blk_set r x) <= buf r + buf_size r).
  { intros x Hx. apply (laid_in _ _ _ (blk_set r x) Hd). apply list_elem_of_fmap. exists x. split; [done|].
    rewrite El, Hl, elem_of_app in Hx. rewrite elem_of_app. naive_solver. }
  destruct (Hin h Hh1) as (A1 & A2 & A3), (Hin t Htl) as (B1 & B2 & B3).
  assert (Hrefuse : (forall g, g ∈ gaps r -> g < n) -> wp (mret None) (alloc_post r n) r).
  { intros Hg. wp_step. split; [by exists l1, l2|]. split; [done|]. by right. }
  rewrite (u64_id (blk_buf (blk_set r t) + size (blk_set r t))) by lia.
  destruct l2 as [|k l2].
  - rewrite app_nil_r in Hl. cbn [app] in Hd. subst l1. 
    pose proof (laid_head_last _ _ _ (h :: l) h t Hd eq_refl Et) as Hht. unfold block_of in Hht.
    rewrite (proj2 (Z.leb_le _ _) Hht) in *. rewrite !u64_id by lia.
    destruct (Z.leb_spec n (buf r + buf_size r - (blk_buf (blk_set r t) + size (blk_set r t)))) as [G1|G1].
    + apply Htake, (take_post r (h :: l) [] n i Hw ltac:(lia) Hi Hs _ (h :: l ++ [i]) []); rewrite ?El; [by rewrite app_nil_r|done|].
      cbn [app]. change (h :: l ++ [i]) with ((h :: l) ++ [i]).
      eapply (take_behind r (h :: l) [] n i Hw ltac:(lia) Hi Hs t); [done|done|exact Hd|done|]. lia.
    + destruct (Z.leb_spec n (blk_buf (blk_set r h) - buf r)) as [G2|G2].
      * apply Htake, (take_post r (h :: l) [] n i Hw ltac:(lia) Hi Hs _ (h :: l) [i]); rewrite ?El; [done|done|].
        rewrite map_app. apply laid_app. exists (blk_buf (blk_set r h)). split; [cbn; rewrite upd_eq; cbn; lia|].
        rewrite map_upd_notin by done. cbn in Hd |- *. unfold block_of in Hd. intuition lia.
      * apply Hrefuse. rewrite Hgap. intros g [->|[->|[]%not_elem_of_nil]%elem_of_cons]%elem_of_cons; lia.
  - destruct l1 as [|h' l1]; [by specialize (Hf eq_refl)|]. injection Hl as <- ->.
    assert (Et2 : last (k :: l2) = Some t) by (rewrite <-Et; change (h :: l1 ++ k :: l2) with ((h :: l1) ++ k :: l2); by rewrite last_app_cons).
    pose proof Hd as Hd0. rewrite map_app in Hd. apply laid_app in Hd as (mid & D1 & D2).
    pose proof (laid_in _ _ _ (blk_set r t) D1) as I1. destruct I1 as (I1 & I2 & I3).
    { apply list_elem_of_fmap. exists t. split; [done|]. by apply last_Some_elem_of. }
    pose proof D2 as D3. cbn in D3. destruct D3 as (D3 & D4 & _). unfold block_of in D3.
    rewrite (proj2 (Z.leb_gt _ _)) in * by lia. rewrite u64_id by lia.
    destruct (Z.leb_spec n (blk_buf (blk_set r h) - (blk_buf (blk_set r t) + size (blk_set r t)))) as [G1|G1].
    + apply Htake, (take_post r (h :: l1) (k :: l2) n i Hw ltac:(lia) Hi Hs _ (h :: l1) (k :: l2 ++ [i])); rewrite ?El;
        [cbn; by rewrite <-app_assoc|done|].
      rewrite map_app. apply laid_app. exists (blk_buf (blk_set r h)). split.
      * change (k :: l2 ++ [i]) with ((k :: l2) ++ [i]).
        eapply (take_behind r (h :: l1) (k :: l2) n i Hw ltac:(lia) Hi Hs t); [done|done|exact D1|done|]. lia.
      * rewrite map_upd_notin by done. cbn in D2 |- *. unfold block_of in D2. intuition lia.
    + apply Hrefuse. rewrite Hgap. intros g [->|[]%not_elem_of_nil]%elem_of_cons. lia.
Qed.

(** * Putting, getting and freeing *)
Definition restatus (i : Z) (v : rt_rbb_status) (r : rt_rbb) : rt_rbb :=
  set_blk_set (upd (blk_set r) i (set_status v (blk_set r i))) r.

Lemma laid_same f g lo hi l : (forall i : Z, i ∈ l -> blk_buf (f i) = blk_buf (g i) /\ size (f i) = size (g i)) ->
  laid lo hi (map f l) -> laid lo hi (map g l).
Proof.
  revert lo. induction l as [|i l IH]; intros lo Hi; cbn; [done|]. destruct (Hi i) as [-> ->]; [by left|].
  intros (? & ? & ?). split_and!; [done|done|]. apply IH; [|done]. intros j Hj. apply Hi. by right.
Qed.

Lemma wf_restatus r l1 l2 i v : wf r l1 l2 -> i ∈ blk_list r -> v <> RT_RBB_BLK_UNUSED -> wf (restatus i v r) l1 l2.
Proof.
  intros [Hb Hm Hl Hn Hu Hf Hd] Hi Hv. split; cbn; try done.
  - intros j. rewrite Hu. unfold used, block_of, restatus. cbn. unfold upd. destruct (decide (i = j)) as [->|]; [|done].
    cbn. apply Hu in Hi as [? ?]. naive_solver.
  - eapply laid_same; [|exact Hd]. intros j _. unfold block_of, restatus. cbn. unfold upd. by destruct (decide (i = j)) as [->|].
Qed.

Lemma slist_remove_mid i a b : i ∉ a -> slist_remove i (a ++ i :: b) = a ++ b.
Proof.
  induction a as [|x a IH]; cbn; [by rewrite Z.eqb_refl|]. rewrite not_elem_of_cons. intros [Hx Ha].
  rewrite (proj2 (Z.eqb_neq _ _)) by congruence. by rewrite IH.
Qed.

Definition freed (i : Z) (r : rt_rbb) : rt_rbb := restatus i RT_RBB_BLK_UNUSED (set_blk_list (slist_remove i (blk_list r)) r).

Lemma wf_freed r l1 l2 a b i : wf r l1 l2 -> blk_list r = a ++ i :: b ->
  (exists l1' l2', l1' ++ l2' = a ++ b /\ (l1' = [] -> l2' = []) /\ laid (buf r) (buf r + buf_size r) (map (block_of r) (l2' ++ l1'))) ->
  exists l1' l2', wf (freed i r) l1' l2'.
Proof.
  intros [Hb Hm Hl Hn Hu Hf Hd] El (l1' & l2' & E1 & E2 & E3). rewrite El in Hn.
  apply NoDup_app in Hn as (Na & Nab & Nb). apply NoDup_cons in Nb as [Nib Nb].
  assert (Nia : i ∉ a) by (intros Hx; apply (Nab i Hx); by left).
  assert (Nb' : NoDup (a ++ b)).
  { apply NoDup_app. split_and!; [done| |done]. intros x Hx Hxb. apply (Nab x Hx). by right. }
  assert (Er : blk_list (freed i r) = a ++ b) by (unfold freed; cbn; by rewrite El, slist_remove_mid).
  exists l1', l2'. split; rewrite ?Er; try done.
  - intros j. rewrite elem_of_app. unfold used, block_of, freed, restatus. cbn. unfold upd. destruct (decide (i = j)) as [->|Hne]; cbn; [naive_solver|].
    unfold used, block_of in Hu. rewrite <-Hu, El, elem_of_app, elem_of_cons. naive_solver.
  - unfold block_of, freed, restatus. cbn. rewrite map_upd_notin; [exact E3|].
    intros Hx. assert (i ∈ l1' ++ l2') as Hx' by (rewrite elem_of_app in *; naive_solver). rewrite E1, elem_of_app in Hx'. naive_solver.
Qed.

Lemma wf_free r l1 l2 i : wf r l1 l2 -> i ∈ blk_list r -> exists l1' l2', wf (freed i r) l1' l2'.
Proof.
  intros Hw Hi. pose proof Hw as [_ _ Hl _ _ Hf Hd]. rewrite Hl, elem_of_app in Hi.
  destruct Hi as [Hi|Hi]; apply list_elem_of_split in Hi as (a & b & ->).
  - apply (wf_freed r _ _ a (b ++ l2) i Hw); [by rewrite Hl, <-app_assoc|].
    assert (Hd' : laid (buf r) (buf r + buf_size r) (map (block_of r) (l2 ++ a ++ b))).
    { rewrite app_assoc, map_app in Hd |- *. cbn [map] in Hd. by apply laid_sub in Hd. }
    destruct (decide (a ++ b = [])) as [E|E].
    + exists l2, []. apply app_eq_nil in E as [-> ->]. rewrite app_nil_r in Hd'. split_and!; [by rewrite app_nil_r|done|done].
    + exists (a ++ b), l2. split_and!; [by rewrite <-app_assoc|done|done].
  - apply (wf_freed r _ _ (l1 ++ a) b i Hw); [by rewrite Hl, <-app_assoc|]. exists l1, (a ++ b). split_and!.
    + by rewrite app_assoc.
    + intros ->. by specialize (Hf eq_refl); destruct a.
    + rewrite <-!app_assoc in *. rewrite map_app in Hd |- *. cbn [map app] in Hd. by apply laid_sub in Hd.
Qed.

(** * Histories *)
Inductive call := CAlloc (n : Z) | CPut (i : Z) | CGet | CFree (i : Z).
Definition run_call (c : call) : B (option Z) :=
  match c with
  | CAlloc n => rt_rbb_blk_alloc n
  | CPut i => rt_rbb_blk_put i;; mret None
  | CGet => rt_rbb_blk_get
  | CFree i => rt_rbb_blk_free i;; mret None
  end.

(** What a caller must see to: a size that is not 0 and fits the buffer and the
    bit field; a block it has been given. *)
Definition call_ok (r : rt_rbb) (c : call) : Prop :=
  match c with
  | CAlloc n => 0 < n < 2 ^ 24 /\ n <= buf_size r
  | CPut i => 0 <= i < blk_max_num r /\ status (blk_set r i) = RT_RBB_BLK_INITED
  | CGet => True
  | CFree i => 0 <= i < blk_max_num r /\ status (blk_set r i) <> RT_RBB_BLK_UNUSED
  end.

Inductive reachable : rt_rbb -> Prop :=
  | reach_init b n bs k : 0 <= b -> 0 <= n -> b + n < 2 ^ 64 -> 0 <= k < 2 ^ 32 -> reachable (rt_rbb_init b n bs k)
  | reach_step r c o r' : reachable r -> call_ok r c -> run_call c r = Some (o, r') -> reachable r'.

(** The oldest block that was put and not got. *)
Definition first_put (r : rt_rbb) : option Z := List.find (fun i => bool_decide (status (blk_set r i) = RT_RBB_BLK_PUT)) (blk_list r).

(** What a call does. *)
Definition call_does (r : rt_rbb) (c : call) (o : option Z) (r' : rt_rbb) : Prop :=
  match c with
  | CAlloc n => alloc_post r n o r'
  | CPut i => r' = restatus i RT_RBB_BLK_PUT r
  | CGet => o = first_put r /\ r' = match first_put r with Some i => restatus i RT_RBB_BLK_GET r | None => r end
  | CFree i => r' = freed i r
  end.

Lemma get_loop_spec r l : (forall i, i ∈ l -> 0 <= i < blk_max_num r) ->
  wp (get_loop l) (fun o r' =>
    let f := List.find (fun i => bool_decide (status (blk_set r i) = RT_RBB_BLK_PUT)) l in
    o = f /\ r' = match f with Some i => restatus i RT_RBB_BLK_GET r | None => r end) r.
Proof.
  induction l as [|i l IH]; intros Hl; cbn [get_loop List.find]; [by wp_step|]. wp_step. apply wp_blk_at; [apply Hl; by left|].
  case_bool_decide as E; destruct (decide _) as [E'|E']; try done.
  - wp_step. apply wp_blk_upd; [apply Hl; by left|]. by wp_step.
  - apply IH. intros j Hj. apply Hl. by right.
Qed.

Lemma wp_rbb_call r l1 l2 c : wf r l1 l2 -> call_ok r c ->
  wp (run_call c) (fun o r' => call_does r c o r' /\ exists l1' l2', wf r' l1' l2') r.
Proof.
  intros Hw Hc. destruct c as [n|i| |i]; cbn [run_call call_ok call_does] in *.
  - eapply wp_mono; [apply (wp_alloc r l1 l2); [done|lia|intros _; lia]|]. intros o r' Hp. split; [done|apply Hp].
  - destruct Hc as [Hi Hs]. unfold rt_rbb_blk_put. wp_step. wp_step. apply wp_blk_at; [done|]. wp_step. wp_step; [by apply bool_decide_true|].
    apply wp_blk_upd; [done|]. wp_step. split; [done|]. exists l1, l2. apply wf_restatus; [done| |done]. apply (wf_used _ _ _ Hw). split; [done|]. unfold block_of. by rewrite Hs.
  - assert (H : wp (get_loop (blk_list r)) (fun o r' => o = first_put r /\ r' = match first_put r with Some i => restatus i RT_RBB_BLK_GET r | None => r end) r).
    { apply get_loop_spec. intros i Hi. by apply (wf_used _ _ _ Hw) in Hi as [? _]. }
    unfold rt_rbb_blk_get. wp_step. wp_step. destruct (blk_list r) as [|x l] eqn:El.
    + wp_step. unfold first_put. rewrite El. cbn. split; [done|]. by exists l1, l2.
    + eapply wp_mono; [exact H|]. intros o r' [-> ->]. split; [done|]. destruct (first_put r) as [i|] eqn:Ef; [|by exists l1, l2].
      exists l1, l2. apply wf_restatus; [done| |done]. unfold first_put in Ef. apply find_some in Ef as [Hin _]. by apply list_elem_of_In.
  - destruct Hc as [Hi Hs]. unfold rt_rbb_blk_free, blk_remove. wp_step. wp_step. apply wp_blk_at; [done|]. wp_step. wp_step; [by apply bool_decide_true|].
    wp_step. wp_step. apply wp_blk_upd; [done|]. wp_step. split; [done|]. eapply wf_free; [done|]. apply (wf_used _ _ _ Hw). by split.
Qed.

Lemma wf_init b n bs k : 0 <= b -> 0 <= n -> b + n < 2 ^ 64 -> 0 <= k < 2 ^ 32 -> wf (rt_rbb_init b n bs k) [] [].
Proof.
  intros. split; cbn; try done; try lia; [constructor|]. intros i. split; [by intros ?%not_elem_of_nil|]. unfold used, block_of. cbn.
  intros [Hi Hs]. rewrite (proj2 (Z.leb_le _ _)), (proj2 (Z.ltb_lt _ _)) in Hs by lia. by destruct Hs.
Qed.

Lemma reachable_wf r : reachable r -> exists l1 l2, wf r l1 l2.
Proof.
  induction 1 as [b n bs k H1 H2 H3 H4|r c o r' Hr (l1 & l2 & Hw) Hc Hrun]; [exists [], []; by apply wf_init|].
  pose proof (wp_rbb_call r l1 l2 c Hw Hc) as H. unfold wp in H. rewrite Hrun in H. by destruct H as [_ H].
Qed.

(** * Queues of blocks *)
(** The length of the queue from a node on, as a function. *)
Fixpoint run_len (bs : Z -> rt_rbb_blk) (nodes : list Z) (last_block : option Z) (total : Z) : Z :=
  match nodes with
  | [] => total
  | i :: nodes =>
      match last_block with
      | None =>
          if decide (status (bs i) = RT_RBB_BLK_PUT) then run_len bs nodes (Some i) (total + size (bs i))
          else run_len bs nodes None total
      | Some j =>
          if bool_decide (status (bs i) <> RT_RBB_BLK_PUT) || (blk_buf (bs i) <? blk_buf (bs j)) then total
          else run_len bs nodes (Some i) (total + size (bs i))
      end
  end.
Fixpoint sizes (bs : Z -> rt_rbb_blk) (l : list Z) : Z :=
  match l with [] => 0 | i :: l => size (bs i) + sizes bs l end.

Lemma sizes_laid bs l : forall lo hi, laid lo hi (map bs l) -> lo + sizes bs l <= hi /\ 0 <= sizes bs l.
Proof. induction l as [|i l IH]; intros lo hi; cbn; [lia|]. intros (? & ? & H). apply IH in H. lia. Qed.
Lemma sizes_app bs l1 l2 : sizes bs (l1 ++ l2) = sizes bs l1 + sizes bs l2.
Proof. induction l1 as [|i l1 IH]; cbn; [done|]. rewrite IH. lia. Qed.

Section lens.
Context (bs : Z -> rt_rbb_blk).

Lemma run_len_ge l : forall last total, (forall i, i ∈ l -> 0 <= size (bs i)) -> total <= run_len bs l last total.
Proof using.
  induction l as [|i l IH]; intros last total Hl; cbn; [lia|].
  assert (H0 : 0 <= size (bs i)) by (apply Hl; by left). assert (Hl' : forall j, j ∈ l -> 0 <= size (bs j)) by (intros j Hj; apply Hl; by right).
  destruct last as [j|].
  - destruct (_ || _); [lia|]. specialize (IH (Some i) (total + size (bs i)) Hl'). lia.
  - destruct (decide _); [specialize (IH (Some i) (total + size (bs i)) Hl'); lia|by apply IH].
Qed.

Lemma wp_next_len r l : blk_set r = bs -> (forall i, i ∈ l -> 0 <= i < blk_max_num r) -> (forall i, i ∈ l -> 0 <= size (bs i)) ->
  forall last total, (forall j, last = Some j -> 0 <= j < blk_max_num r) -> 0 <= total -> total + sizes bs l < 2 ^ 64 ->
  wp (next_len_loop l last total) (fun t r' => t = run_len bs l last total /\ r' = r) r.
Proof using.
  intros Eb. induction l as [|i l IH]; intros Hl Hs last total Hlast H0 Ht; cbn [next_len_loop run_len]; [by wp_step|].
  cbn in Ht. assert (Hi : 0 <= size (bs i)) by (apply Hs; by left).
  assert (Hsl : 0 <= sizes bs l).
  { clear -Hs. assert (H : forall j, j ∈ l -> 0 <= size (bs j)) by (intros j Hj; apply Hs; by right). clear Hs.
    induction l as [|j l IH]; cbn; [lia|]. specialize (H j ltac:(by left)) as Hj. specialize (IH ltac:(intros k Hk; apply H; by right)). lia. }
  assert (Hrec : forall last' total', (forall j, last' = Some j -> 0 <= j < blk_max_num r) -> 0 <= total' -> total' + sizes bs l < 2 ^ 64 ->
    wp (next_len_loop l last' total') (fun t r' => t = run_len bs l last' total' /\ r' = r) r).
  { intros last' total'. apply IH; intros j Hj; [apply Hl|apply Hs]; by right. }
  wp_step. apply wp_blk_at; [apply Hl; by left|]. rewrite Eb.
  assert (Hu : u64 (total + size (bs i)) = total + size (bs i)) by (apply u64_id; lia). rewrite Hu.
  destruct last as [j|].
  - wp_step. apply wp_blk_at; [by apply Hlast|]. rewrite Eb. destruct (_ || _); [by wp_step|].
    apply Hrec; [intros k [= <-]; apply Hl; by left|lia|lia].
  - destruct (decide _); [apply Hrec; [intros k [= <-]; apply Hl; by left|lia|lia]|apply Hrec; [done|lia|lia]].
Qed.

Definition agrees (r : rt_rbb) (l : list Z) : Prop := forall i, i ∈ l -> blk_set r i = bs i.

Lemma wp_queue_take r i total q (Q : Z * rt_rbb_blk_queue -> rt_rbb -> Prop) : 0 <= i < blk_max_num r ->
  Q (u64 (total + size (blk_set r i)), mkBlkQueue (blocks q) (blk_num q + 1))
    (restatus i RT_RBB_BLK_GET (set_blk_list (slist_remove i (blk_list r)) r)) ->
  wp (queue_take i total q) Q r.
Proof using.
  intros Hi HQ. unfold queue_take, blk_remove. wp_step. wp_step. wp_step. apply wp_blk_at; [done|]. wp_step. apply wp_blk_upd; [done|]. by wp_step.
Qed.

Lemma wp_queue_get qlen m l : NoDup l -> (forall i, i ∈ l -> 0 <= i < m) -> (forall i, i ∈ l -> 0 <= size (bs i)) ->
  forall r last total q, blk_max_num r = m -> agrees r l ->
  (forall j, last = Some j -> 0 <= j < m /\ blk_buf (blk_set r j) = blk_buf (bs j)) -> 0 <= total -> total + sizes bs l < 2 ^ 64 ->
  run_len bs l last total <= qlen ->
  wp (queue_get_loop qlen l last total q) (fun x _ => x.1 = run_len bs l last total) r.
Proof using.
  induction l as [|i l IH]; intros Hn Hl Hs r last total q Em Ha Hlast H0 Ht Hq; cbn [queue_get_loop run_len] in *; [by wp_step|].
  apply NoDup_cons in Hn as [Hni Hn].
  cbn in Ht. assert (Hi : 0 <= size (bs i)) by (apply Hs; by left).
  assert (Hs' : forall j, j ∈ l -> 0 <= size (bs j)) by (intros j Hj; apply Hs; by right).
  assert (Hl' : forall j, j ∈ l -> 0 <= j < m) by (intros j Hj; apply Hl; by right).
  assert (Hsl : 0 <= sizes bs l).
  { clear -Hs'. induction l as [|j l IH]; cbn; [lia|]. specialize (Hs' j ltac:(by left)) as Hj. specialize (IH ltac:(intros k Hk; apply Hs'; by right)). lia. }
  assert (Hir : 0 <= i < blk_max_num r) by (rewrite Em; apply Hl; by left).
  assert (Ei : blk_set r i = bs i) by (apply Ha; by left).
  assert (Hu : u64 (total + size (bs i)) = total + size (bs i)) by (apply u64_id; lia).
  assert (Htake : forall q', run_len bs l (Some i) (total + size (bs i)) <= qlen ->
    wp (x ← queue_take i total q'; queue_get_loop qlen l (Some i) x.1 x.2)
      (fun x _ => x.1 = run_len bs l (Some i) (total + size (bs i))) r).
  { intros q' Hq'. wp_step. apply wp_queue_take; [done|]. cbn [fst snd]. rewrite Ei, Hu. apply IH; try done; try lia.
    - intros j Hj. unfold restatus. cbn. rewrite upd_ne by (by intros ->). apply Ha. by right.
    - intros j [= <-]. split; [by rewrite <-Em|]. unfold restatus. cbn. rewrite upd_eq. cbn. by rewrite Ei. }
  wp_step. apply wp_blk_at; [done|]. rewrite Ei. destruct last as [j|].
  - destruct (Hlast j eq_refl) as [Hj Ej]. wp_step. apply wp_blk_at; [by rewrite Em|]. rewrite Ej, Hu.
    destruct (bool_decide _ || _) eqn:Ec; cbn [orb] in *; [by wp_step|].
    pose proof (run_len_ge l (Some i) (total + size (bs i)) Hs'). rewrite (proj2 (Z.ltb_ge _ _)) by lia. by apply Htake.
  - destruct (decide (status (bs i) = RT_RBB_BLK_PUT)); [by apply Htake|]. apply IH; try done; [|lia]. intros j Hj. apply Ha. by right.
Qed.
End lens.

Section inside.
Context (r : rt_rbb) (l1 l2 : list Z) (Hw : wf r l1 l2).

Lemma wf_inside i : i ∈ blk_list r -> buf r <= blk_buf (blk_set r i) /\ 0 < size (blk_set r i) /\
  blk_buf (blk_set r i) + size (blk_set r i) <= buf r + buf_size r.
Proof using Hw.
  destruct Hw as [_ _ Hl _ _ _ Hd]. intros Hi. apply (laid_in _ _ _ (blk_set r i) Hd), list_elem_of_fmap. exists i.
  split; [done|]. rewrite Hl, elem_of_app in Hi. rewrite elem_of_app. naive_solver.
Qed.
Lemma wf_in i : i ∈ blk_list r -> 0 <= i < blk_max_num r /\ 0 < size (blk_set r i) <= buf_size r.
Proof using Hw. intros Hi. pose proof (wf_inside i Hi). apply (wf_used _ _ _ Hw) in Hi as [? _]. split; [done|lia]. Qed.
Lemma wf_sizes : sizes (blk_set r) (blk_list r) <= buf_size r < 2 ^ 64.
Proof using Hw.
  destruct Hw as [? _ Hl _ _ _ Hd]. pose proof (sizes_laid (blk_set r) _ _ _ Hd) as Hs. rewrite sizes_app in Hs. rewrite Hl, sizes_app. lia.
Qed.
End inside.

(** * The properties *)
(** C33: in every history of allocations, puts, gets and frees of single blocks,
    with sizes that are not 0 and not larger than the buffer, the blocks in use
    are those of the list, they lie inside the buffer and no two have a byte in
    common; no assertion fails; an allocation is refused only when all blocks
    are in use or no free space at the ends of the list is large enough, and a
    get returns the oldest block that was put. *)
Theorem rt_rbb_history_disjoint r : reachable r ->
  (forall i, i ∈ blk_list r <-> 0 <= i < blk_max_num r /\ status (blk_set r i) <> RT_RBB_BLK_UNUSED) /\
  (forall i, i ∈ blk_list r -> buf r <= blk_buf (blk_set r i) /\ 0 < size (blk_set r i) /\
    blk_buf (blk_set r i) + size (blk_set r i) <= buf r + buf_size r) /\
  (forall i j, i ∈ blk_list r -> j ∈ blk_list r -> i <> j -> apart (blk_set r i) (blk_set r j)) /\
  forall c, call_ok r c -> wp (run_call c) (call_does r c) r.
Proof.
  intros (l1 & l2 & Hw)%reachable_wf. pose proof Hw as [_ _ Hl Hn Hu _ Hd].
  assert (Hp : forall i, i ∈ blk_list r -> i ∈ l2 ++ l1) by (intros i; rewrite Hl, !elem_of_app; naive_solver).
  split_and!.
  - exact Hu.
  - by apply (wf_inside r l1 l2).
  - intros i j Hi Hj Hij. eapply (laid_apart (blk_set r) (l2 ++ l1)); [exact Hd| |by apply Hp|by apply Hp|done].
    rewrite Hl in Hn. by rewrite Permutation_app_comm.
  - intros c Hc. eapply wp_mono; [by apply (wp_rbb_call r l1 l2)|]. by intros o r' [? _].
Qed.

(** C34: [rt_rbb_next_blk_queue_len] tells the length of the queue that
    [rt_rbb_blk_queue_get] takes when its limit allows it. *)
Theorem rt_rbb_next_len_agrees r queue_data_len q : reachable r ->
  wp rt_rbb_next_blk_queue_len (fun t r' => r' = r /\
    (t <= queue_data_len -> wp (rt_rbb_blk_queue_get queue_data_len q) (fun x _ => x.1 = t) r)) r.
Proof.
  intros (l1 & l2 & Hw)%reachable_wf. pose proof (wf_nodup _ _ _ Hw) as Hn.
  assert (Hin : forall i, i ∈ blk_list r -> 0 <= i < blk_max_num r) by (intros i Hi; by apply (wf_in r l1 l2 Hw)).
  assert (Hsz : forall i, i ∈ blk_list r -> 0 <= size (blk_set r i)) by (intros i Hi; apply (wf_in r l1 l2 Hw) in Hi; lia).
  assert (Hsum : 0 + sizes (blk_set r) (blk_list r) < 2 ^ 64) by (pose proof (wf_sizes r l1 l2 Hw); lia).
  assert (H1 : wp (next_len_loop (blk_list r) None 0) (fun t r' => t = run_len (blk_set r) (blk_list r) None 0 /\ r' = r) r).
  { by apply wp_next_len. }
  unfold rt_rbb_next_blk_queue_len, rt_rbb_blk_queue_get. wp_step. wp_step.
  assert (H2 : forall t, t = run_len (blk_set r) (blk_list r) None 0 -> t <= queue_data_len ->
    wp (queue_get_loop queue_data_len (blk_list r) None 0 q) (fun x _ => x.1 = t) r).
  { intros t -> Ht. by eapply wp_queue_get. }
  destruct (blk_list r) as [|x l] eqn:El.
  - wp_step. split; [done|]. intros _. wp_step. wp_step. rewrite El. by wp_step.
  - eapply wp_mono; [exact H1|]. intros t r' [Et ->]. split; [done|]. intros Ht. wp_step. wp_step. rewrite El. by apply H2.
Qed.

Lemma wp_alloc_empty r i n : blk_list r = [] -> 0 < blk_max_num r -> find_empty_blk_in_set r = Some i -> n < 2 ^ 24 ->
  wp (rt_rbb_blk_alloc n) (fun o r' => o = Some i /\ r' = allocated r i n (buf r)) r.
Proof.
  intros El Hm Hf Hn. pose proof (find_empty_spec r ltac:(lia)) as Hs. rewrite Hf in Hs. unfold rt_rbb_blk_alloc.
  wp_step. wp_step; [lia|]. wp_step. wp_step. rewrite Hf, El. change (u32 (Z.of_nat (length []))) with 0.
  rewrite (proj2 (Z.ltb_lt _ _)) by lia. cbn. apply wp_take; [lia|done].
Qed.

(** ** What goes wrong *)
Section faults.
Context (r : rt_rbb) (l1 l2 : list Z) (Hw : wf r l1 l2).

Lemma alloc_oversized n : blk_list r = [] -> buf_size r < n < 2 ^ 24 -> 0 < blk_max_num r ->
  wp (rt_rbb_blk_alloc n) (fun o r' => exists i, o = Some i /\ i ∈ blk_list r' /\
    buf r' + buf_size r' < blk_buf (blk_set r' i) + size (blk_set r' i)) r.
Proof using Hw.
  intros El Hbig Hmax. pose proof (find_empty_spec r ltac:(lia)) as Hs. destruct (find_empty_blk_in_set r) as [i|] eqn:Ef.
  - eapply wp_mono; [apply (wp_alloc_empty r i n); [done|lia|done|lia]|]. intros o r' [-> ->]. exists i. unfold allocated. cbn. rewrite upd_eq. cbn.
    split_and!; [done|rewrite El; by left|lia].
  - exfalso. specialize (Hs 0 ltac:(lia)). assert (0 ∈ blk_list r) as Hx by (apply (wf_used _ _ _ Hw); split; [lia|done]).
    rewrite El in Hx. by apply not_elem_of_nil in Hx.
Qed.

Lemma queue_get_shares n len q i : 0 < n < 2 ^ 24 -> blk_list r = [i] -> status (blk_set r i) = RT_RBB_BLK_PUT ->
  blk_buf (blk_set r i) = buf r -> (exists j, find_empty_blk_in_set r = Some j) ->
  wp (rt_rbb_blk_queue_get len q;; rt_rbb_blk_alloc n) (fun o r' => exists j, o = Some j /\ j <> i /\
    status (blk_set r' i) = RT_RBB_BLK_GET /\ status (blk_set r' j) = RT_RBB_BLK_INITED /\
    ~ apart (blk_set r' i) (blk_set r' j)) r.
Proof using Hw.
  intros Hn El Hp Hbuf (j & Hj). destruct (wf_in r l1 l2 Hw i) as [Hi Hsi]; [rewrite El; by left|].
  pose proof (find_empty_spec r ltac:(lia)) as Hs. rewrite Hj in Hs. destruct Hs as [Hjr Hjs].
  assert (Hne : i <> j) by (intros ->; by rewrite Hp in Hjs).
  unfold rt_rbb_blk_queue_get. wp_step. wp_step. wp_step. rewrite El. cbn [queue_get_loop]. wp_step. apply wp_blk_at; [done|].
  rewrite decide_True by done. wp_step. apply wp_queue_take; [done|]. wp_step. cbn [fst snd].
  set (r1 := restatus _ _ _). assert (El1 : blk_list r1 = []) by (unfold r1; cbn; rewrite El; cbn; by rewrite Z.eqb_refl).
  pose proof (find_empty_spec r1 ltac:(cbn; lia)) as Hs1. destruct (find_empty_blk_in_set r1) as [k|] eqn:Hk.
  2: { exfalso. apply (Hs1 j); [done|]. unfold r1. cbn. by rewrite upd_ne. }
  destruct Hs1 as [Hkr Hks]. assert (Hki : k <> i) by (intros ->; unfold r1 in Hks; cbn in Hks; by rewrite upd_eq in Hks).
  eapply wp_mono; [apply (wp_alloc_empty r1 k n); [done|cbn; lia|done|lia]|]. intros o r' [-> ->]. exists k.
  unfold allocated, r1. cbn. rewrite !(upd_ne _ k i) by done. rewrite !upd_eq. cbn. split_and!; try done.
  unfold apart. cbn. lia.
Qed.

Lemma queue_len_miscounts len q i j : blk_list r = [i; j] -> status (blk_set r i) = RT_RBB_BLK_PUT ->
  status (blk_set r j) = RT_RBB_BLK_PUT -> blk_buf (blk_set r i) <= blk_buf (blk_set r j) ->
  size (blk_set r i) + size (blk_set r j) <= len ->
  wp (rt_rbb_blk_queue_get len q) (fun x r' => x = (size (blk_set r i) + size (blk_set r j), mkBlkQueue i 2) /\
    if i + 1 <? blk_max_num r then
      wp (rt_rbb_blk_queue_len x.2) (fun t _ => t = u64 (size (blk_set r i) + size (blk_set r (i + 1)))) r'
    else rt_rbb_blk_queue_len x.2 r' = None) r.
Proof using Hw.
  intros El Hpi Hpj Hij Hlen. destruct (wf_in r l1 l2 Hw i) as [Hi Hsi]; [rewrite El; by left|]. destruct (wf_in r l1 l2 Hw j) as [Hj Hsj]; [rewrite El; by right; left|].
  pose proof (wf_sizes r l1 l2 Hw) as Hsum. rewrite El in Hsum. cbn [sizes] in Hsum.
  assert (Hne : i <> j) by (pose proof (wf_nodup _ _ _ Hw) as Hnd; rewrite El in Hnd; apply NoDup_cons in Hnd as [Hx _]; intros ->; apply Hx; by left).
  unfold rt_rbb_blk_queue_get. wp_step. wp_step. rewrite El. cbn [queue_get_loop]. wp_step. apply wp_blk_at; [done|].
  rewrite decide_True by done. wp_step. apply wp_queue_take; [done|]. cbn [fst snd].
  set (r1 := restatus i _ _). assert (E1i : blk_set r1 i = set_status RT_RBB_BLK_GET (blk_set r i)) by (unfold r1; cbn; by rewrite upd_eq).
  assert (E1j : blk_set r1 j = blk_set r j) by (unfold r1; cbn; by rewrite upd_ne by congruence).
  wp_step. apply wp_blk_at; [done|]. wp_step. apply wp_blk_at; [done|]. rewrite E1i, E1j. cbn [blk_buf set_status].
  rewrite Hpj, bool_decide_false, (proj2 (Z.ltb_ge (blk_buf (blk_set r j)) _)) by (done || naive_solver).
  rewrite (u64_id (0 + size (blk_set r i))), Z.add_0_l, (u64_id (_ + _)), (proj2 (Z.ltb_ge len _)) by lia. cbn [orb].
  wp_step. apply wp_queue_take; [done|]. cbn [fst snd]. wp_step. rewrite E1j, u64_id by lia. split; [done|].
  cbn [fst snd]. set (r2 := restatus j _ _). unfold rt_rbb_blk_queue_len. change (Z.to_nat _) with 2%nat. cbn [blocks].
  assert (E2 : forall k, size (blk_set r2 k) = size (blk_set r k)).
  { intros k. unfold r2, r1, restatus. cbn. unfold upd. repeat destruct (decide _); subst; cbn; congruence. }
  destruct (Z.ltb_spec (i + 1) (blk_max_num r)).
  - cbn [queue_len_loop]. wp_step. apply wp_blk_at; [done|]. wp_step. apply wp_blk_at; [cbn; lia|]. wp_step. rewrite !E2.
    f_equal. rewrite u64_id by lia. lia.
  - cbn [queue_len_loop]. unfold blk_at, get, assertM, mret, M_ret, mbind, M_bind. change (blk_max_num r2) with (blk_max_num r).
    destruct ((0 <=? i) && (i <? blk_max_num r)); [|done]. cbn. rewrite (proj2 (Z.ltb_ge (i + 1) _)) by lia. by rewrite andb_false_r.
Qed.
End faults.

(** C40: where the ring block buffer fails its callers: an empty buffer gives a
    block of any size, which reaches beyond its end; a block that was taken with
    [rt_rbb_blk_queue_get] is no longer in the list, so the next allocation
    gives its bytes to another block while it is in use; a queue counts its
    blocks in the order of [blk_set], so when the second block of a queue is not
    the next one there, [rt_rbb_blk_queue_len] adds up another block, or reads
    behind the array. *)
Theorem rt_rbb_overlaps r len n q : reachable r -> 0 < n < 2 ^ 24 ->
  (blk_list r = [] -> buf_size r < n -> 0 < blk_max_num r ->
     wp (rt_rbb_blk_alloc n) (fun o r' => exists i, o = Some i /\ i ∈ blk_list r' /\
       buf r' + buf_size r' < blk_buf (blk_set r' i) + size (blk_set r' i)) r) /\
  (forall i, blk_list r = [i] -> status (blk_set r i) = RT_RBB_BLK_PUT -> blk_buf (blk_set r i) = buf r ->
     (exists j, find_empty_blk_in_set r = Some j) ->
     wp (rt_rbb_blk_queue_get len q;; rt_rbb_blk_alloc n) (fun o r' => exists j, o = Some j /\ j <> i /\
       status (blk_set r' i) = RT_RBB_BLK_GET /\ status (blk_set r' j) = RT_RBB_BLK_INITED /\
       ~ apart (blk_set r' i) (blk_set r' j)) r) /\
  (forall i j, blk_list r = [i; j] -> status (blk_set r i) = RT_RBB_BLK_PUT -> status (blk_set r j) = RT_RBB_BLK_PUT ->
     blk_buf (blk_set r i) <= blk_buf (blk_set r j) -> size (blk_set r i) + size (blk_set r j) <= len ->
     wp (rt_rbb_blk_queue_get len q) (fun x r' => x = (size (blk_set r i) + size (blk_set r j), mkBlkQueue i 2) /\
       if i + 1 <? blk_max_num r then
         wp (rt_rbb_blk_queue_len x.2) (fun t _ => t = u64 (size (blk_set r i) + size (blk_set r (i + 1)))) r'
       else rt_rbb_blk_queue_len x.2 r' = None) r).
Proof.
  intros Hr Hn. destruct (reachable_wf r Hr) as (l1 & l2 & Hw). split_and!.
  - intros El Hbig Hmax. apply (alloc_oversized r l1 l2 Hw); [done|lia|done].
  - intros i. by apply (queue_get_shares r l1 l2 Hw).
  - intros i j. by apply (queue_len_miscounts r l1 l2 Hw).
Qed.

(** ** Concrete inputs *)
#[export] Instance call_ok_dec r c : Decision (call_ok r c).
Proof. destruct c; cbn; apply _. Defined.
Fixpoint replay (l : list call) (r : rt_rbb) : option rt_rbb :=
  match l with
  | [] => Some r
  | c :: l => if decide (call_ok r c) then match run_call c r with Some (_, r') => replay l r' | None => None end else None
  end.
Lemma replay_reachable l : forall r r', reachable r -> replay l r = Some r' -> reachable r'.
Proof.
  induction l as [|c l IH]; intros r r' Hr; cbn; [by intros [= <-]|]. destruct (decide _); [|done].
  destruct (run_call c r) as [[o r1]|] eqn:E; [|done]. apply IH. by eapply reach_step.
Qed.

(** A buffer of 100 bytes at 1000 with three blocks. *)
Definition ex_start : rt_rbb := rt_rbb_init 1000 100 (fun _ => mkBlk RT_RBB_BLK_GET 0 0) 3.
Definition ex_after (l : list call) : rt_rbb := default ex_start (replay l ex_start).
Lemma ex_reachable l : is_Some (replay l ex_start) -> reachable (ex_after l).
Proof. intros [r E]. unfold ex_after. rewrite E. eapply replay_reachable; [|exact E]. apply reach_init; lia. Qed.

(** The third block has wrapped. *)
Definition ex_wrapped : rt_rbb := ex_after [CAlloc 60; CAlloc 30; CPut 0; CGet; CFree 0; CAlloc 50; CPut 1; CPut 0].
Lemma rt_rbb_history_disjoint_ex :
  ((forall i, i ∈ blk_list ex_wrapped <-> 0 <= i < blk_max_num ex_wrapped /\ status (blk_set ex_wrapped i) <> RT_RBB_BLK_UNUSED) /\
  (forall i, i ∈ blk_list ex_wrapped -> buf ex_wrapped <= blk_buf (blk_set ex_wrapped i) /\ 0 < size (blk_set ex_wrapped i) /\
    blk_buf (blk_set ex_wrapped i) + size (blk_set ex_wrapped i) <= buf ex_wrapped + buf_size ex_wrapped) /\
  (forall i j, i ∈ blk_list ex_wrapped -> j ∈ blk_list ex_wrapped -> i <> j -> apart (blk_set ex_wrapped i) (blk_set ex_wrapped j)) /\
  forall c, call_ok ex_wrapped c -> wp (run_call c) (call_does ex_wrapped c) ex_wrapped) /\
  blk_list ex_wrapped = [1; 0] /\ blk_set ex_wrapped 0 = mkBlk RT_RBB_BLK_PUT 50 1000 /\
  blk_set ex_wrapped 1 = mkBlk RT_RBB_BLK_PUT 30 1060.
Proof.
  split; [|vm_compute; by split_and!].
  apply (rt_rbb_history_disjoint ex_wrapped), ex_reachable. vm_compute. by eexists.
Defined.

(** Two blocks behind each other. *)
Definition ex_two : rt_rbb := ex_after [CAlloc 60; CAlloc 30; CPut 0; CPut 1].
Lemma rt_rbb_next_len_agrees_ex :
  wp rt_rbb_next_blk_queue_len (fun t r' => r' = ex_two /\
    (t <= 200 -> wp (rt_rbb_blk_queue_get 200 (mkBlkQueue 0 0)) (fun x _ => x.1 = t) ex_two)) ex_two /\
  wp rt_rbb_next_blk_queue_len (fun t _ => t = 90) ex_two.
Proof.
  split; [|vm_compute; done].
  apply (rt_rbb_next_len_agrees ex_two 200 (mkBlkQueue 0 0)), ex_reachable. vm_compute. by eexists.
Defined.

(** One block; and two blocks of which the second is the first one of the set. *)
Definition ex_one : rt_rbb := ex_after [CAlloc 60; CPut 0].
Definition ex_turned : rt_rbb := ex_after [CAlloc 20; CAlloc 30; CAlloc 10; CFree 0; CFree 1; CAlloc 40; CPut 2; CPut 0].
Lemma rt_rbb_overlaps_ex :
  wp (rt_rbb_blk_alloc 200) (fun o r' => exists i, o = Some i /\ i ∈ blk_list r' /\
    buf r' + buf_size r' < blk_buf (blk_set r' i) + size (blk_set r' i)) ex_start /\
  wp (rt_rbb_blk_queue_get 200 (mkBlkQueue 0 0);; rt_rbb_blk_alloc 20) (fun o r' => exists j, o = Some j /\ j <> 0 /\
    status (blk_set r' 0) = RT_RBB_BLK_GET /\ status (blk_set r' j) = RT_RBB_BLK_INITED /\
    ~ apart (blk_set r' 0) (blk_set r' j)) ex_one /\
  wp (rt_rbb_blk_queue_get 200 (mkBlkQueue 0 0)) (fun x r' =>
    x = (size (blk_set ex_turned 2) + size (blk_set ex_turned 0), mkBlkQueue 2 2) /\
    if 2 + 1 <? blk_max_num ex_turned then
      wp (rt_rbb_blk_queue_len x.2) (fun t _ => t = u64 (size (blk_set ex_turned 2) + size (blk_set ex_turned (2 + 1)))) r'
    else rt_rbb_blk_queue_len x.2 r' = None) ex_turned.
Proof.
  assert (H0 : reachable ex_start) by (apply reach_init; lia).
  assert (H1 : reachable ex_one) by (apply ex_reachable; vm_compute; by eexists).
  assert (H2 : reachable ex_turned) by (apply ex_reachable; vm_compute; by eexists). split_and!.
  - apply (proj1 (rt_rbb_overlaps ex_start 200 200 (mkBlkQueue 0 0) H0 ltac:(lia))); [done|cbn; lia|cbn; lia].
  - assert (E : blk_list ex_one = [0]) by (vm_compute; reflexivity).
    assert (E0 : status (blk_set ex_one 0) = RT_RBB_BLK_PUT) by (vm_compute; reflexivity).
    assert (Eb : blk_buf (blk_set ex_one 0) = buf ex_one) by (vm_compute; reflexivity).
    assert (Ef : exists j, find_empty_blk_in_set ex_one = Some j) by (exists 1; vm_compute; reflexivity).
    exact (proj1 (proj2 (rt_rbb_overlaps ex_one 200 20 (mkBlkQueue 0 0) H1 ltac:(lia))) 0 E E0 Eb Ef).
  - assert (E : blk_list ex_turned = [2; 0]) by (vm_compute; reflexivity).
    assert (E2 : status (blk_set ex_turned 2) = RT_RBB_BLK_PUT) by (vm_compute; reflexivity).
    assert (E0 : status (blk_set ex_turned 0) = RT_RBB_BLK_PUT) by (vm_compute; reflexivity).
    assert (Eb : blk_buf (blk_set ex_turned 2) <= blk_buf (blk_set ex_turned 0)) by (vm_compute; discriminate).
    assert (Es : size (blk_set ex_turned 2) + size (blk_set ex_turned 0) <= 200) by (vm_compute; discriminate).
    exact (proj2 (proj2 (rt_rbb_overlaps ex_turned 200 20 (mkBlkQueue 0 0) H2 ltac:(lia))) 2 0 E E2 E0 Eb Es).
Defined.
