(* ===== verification/Device.v ===== *)
(** The device framework ([rt-thread/src/device.c]): registration, opening and
    closing with a reference count, and the calls of a driver.

    The operations of a driver are a parameter: [ops dev] has the function
    pointers of [struct rt_device], [None] for a null pointer.  They run on the
    whole state.  The name of a device is a value of the parameter [name_of], as
    for the other objects.  This is the configuration without [RT_USING_POSIX]. *)
From S2P Require Import Prelude KService Timer KState KInv Sched Kernel KTimer Object.

Definition RT_Object_Class_Device : Z := 9.
Definition RT_DEVICE_FLAG_STANDALONE : Z := 0x008.
Definition RT_DEVICE_FLAG_ACTIVATED : Z := 0x010.
Definition RT_DEVICE_FLAG_STREAM : Z := 0x040.
Definition RT_DEVICE_OFLAG_CLOSE : Z := 0x000.
Definition RT_DEVICE_OFLAG_RDWR : Z := 0x003.
Definition RT_DEVICE_OFLAG_OPEN : Z := 0x008.
Definition RT_DEVICE_OFLAG_MASK : Z := 0xf0f.

(** [struct rt_device]; a callback is designated by a number. *)
Record rt_device := mkDevice {
  type_ : Z;
  flag : Z;
  open_flag : Z;
  ref_count : Z;
  rx_indicate : option Z;
  tx_complete : option Z }.
Definition set_flag (v : Z) (d : rt_device) : rt_device :=
  mkDevice (type_ d) (u16 v) (open_flag d) (ref_count d) (rx_indicate d) (tx_complete d).
Definition set_open_flag (v : Z) (d : rt_device) : rt_device :=
  mkDevice (type_ d) (flag d) (u16 v) (ref_count d) (rx_indicate d) (tx_complete d).
Definition set_ref_count (v : Z) (d : rt_device) : rt_device :=
  mkDevice (type_ d) (flag d) (open_flag d) (u8 v) (rx_indicate d) (tx_complete d).
Definition set_rx_indicate (v : option Z) (d : rt_device) : rt_device :=
  mkDevice (type_ d) (flag d) (open_flag d) (ref_count d) v (tx_complete d).
Definition set_tx_complete (v : option Z) (d : rt_device) : rt_device :=
  mkDevice (type_ d) (flag d) (open_flag d) (ref_count d) (rx_indicate d) v.

(** The kernel, the devices, [__rt_errno], [_console_device] and what the drivers keep. *)
Record dstate := mkD {
  kern : kstate;
  devs : oid -> rt_device;
  errno : Z;
  console : option oid;
  hw : Z -> Z }.
Definition set_kern (v : kstate) (s : dstate) : dstate := mkD v (devs s) (errno s) (console s) (hw s).
Definition set_devs (v : oid -> rt_device) (s : dstate) : dstate := mkD (kern s) v (errno s) (console s) (hw s).
Definition set_errno_ (v : Z) (s : dstate) : dstate := mkD (kern s) (devs s) v (console s) (hw s).
Definition set_console (v : option oid) (s : dstate) : dstate := mkD (kern s) (devs s) (errno s) v (hw s).
Definition set_hw (v : Z -> Z) (s : dstate) : dstate := mkD (kern s) (devs s) (errno s) (console s) v.
Abbreviation D := (M dstate).

(** An operation of the kernel. *)
Definition on_kern {A} (m : K A) : D A := fun s =>
  match m (kern s) with Some (a, k) => Some (a, set_kern k s) | None => None end.
Definition dev_upd (dev : oid) (f : rt_device -> rt_device) : D unit :=
  modify (fun s => set_devs (upd (devs s) dev (f (devs s dev))) s).
Definition assert_device (dev : oid) : D unit :=
  s ← get; assertM (rt_object_get_type (kern s) (OIpc dev) =? RT_Object_Class_Device).
Definition has (bit v : Z) : bool := negb (Z.land v bit =? 0).

(** The interface of a driver. *)
Record driver := mkDriver {
  init_ : option (D Z);
  open_ : option (Z -> D Z);
  close_ : option (D Z);
  read_ : option (Z -> Z -> Z -> D Z);
  write_ : option (Z -> Z -> Z -> D Z);
  control_ : option (Z -> Z -> D Z) }.

Section device.
Context (me : Z) (name_of : obj -> list Z) (ops : oid -> driver).

Definition rt_set_errno (error : Z) : D unit :=
  s ← get;
  if negb (rt_interrupt_get_nest me (kern s) =? 0) then modify (set_errno_ error)
  else match rt_thread_self me (kern s) with
       | None => modify (set_errno_ error)
       | Some tid => on_kern (thread_upd tid (set_error error))
       end.
Definition rt_get_errno : D Z :=
  s ← get;
  if negb (rt_interrupt_get_nest me (kern s) =? 0) then mret (errno s)
  else match rt_thread_self me (kern s) with
       | None => mret (errno s)
       | Some tid => mret (error (threads (kern s) tid))
       end.

Definition rt_device_find (name : list Z) : D (option obj) :=
  s ← get;
  (if bool_decide (rt_thread_self me (kern s) <> None) then on_kern (rt_enter_critical me) else mret tt);;
  information ← ofopt (rt_object_get_information RT_Object_Class_Device);
  s ← get;
  let object := find_named (same_name name_of name) (containers (kern s) information) in
  (if bool_decide (rt_thread_self me (kern s) <> None) then on_kern (rt_exit_critical me) else mret tt);;
  mret object.

(** The name is [name_of] of the device. *)
Definition rt_device_register (dev : option oid) (flags : Z) : D Z :=
  match dev with
  | None => mret (- RT_ERROR)
  | Some dev =>
      o ← rt_device_find (name_of (OIpc dev));
      if bool_decide (o <> None) then mret (- RT_ERROR)
      else
        on_kern (rt_object_init me (OIpc dev) RT_Object_Class_Device);;
        dev_upd dev (set_flag flags);;
        dev_upd dev (set_ref_count 0);;
        dev_upd dev (set_open_flag 0);;
        mret RT_EOK
  end.

Definition rt_device_unregister (dev : oid) : D Z :=
  assert_device dev;;
  s ← get;
  assertM (rt_object_is_systemobject (kern s) (OIpc dev));;
  on_kern (rt_object_detach (Kn := Smp me) (OIpc dev));;
  mret RT_EOK.

(** [mem] is what [rt_malloc] returned; [rt_memset] clears the structure. *)
Definition rt_device_create (mem : option oid) (type : Z) : D (option oid) :=
  match mem with
  | None => mret None
  | Some device =>
      on_kern (otype_upd (OIpc device) 0);;
      dev_upd device (fun _ => mkDevice type 0 0 0 None None);;
      mret (Some device)
  end.

(** [rt_free(dev)] is the caller's to give back. *)
Definition rt_device_destroy (dev : oid) : D unit :=
  assert_device dev;;
  s ← get;
  assertM (negb (rt_object_is_systemobject (kern s) (OIpc dev)));;
  on_kern (rt_object_detach (Kn := Smp me) (OIpc dev)).

Definition rt_device_init (dev : oid) : D Z :=
  match init_ (ops dev) with
  | None => mret RT_EOK
  | Some device_init =>
      s ← get;
      if negb (has RT_DEVICE_FLAG_ACTIVATED (flag (devs s dev))) then
        result ← device_init;
        if negb (result =? RT_EOK) then mret result
        else
          dev_upd dev (fun d => set_flag (Z.lor (flag d) RT_DEVICE_FLAG_ACTIVATED) d);;
          mret result
      else mret RT_EOK
  end.

(** The initialisation at the first opening; a result that is not [RT_EOK] ends
    the call. *)
Definition open_init (dev : oid) : D Z :=
  s ← get;
  if negb (has RT_DEVICE_FLAG_ACTIVATED (flag (devs s dev))) then
    result ← (match init_ (ops dev) with Some device_init => device_init | None => mret RT_EOK end);
    if negb (result =? RT_EOK) then mret result
    else
      dev_upd dev (fun d => set_flag (Z.lor (flag d) RT_DEVICE_FLAG_ACTIVATED) d);;
      mret RT_EOK
  else mret RT_EOK.

Definition rt_device_open (dev : oid) (oflag : Z) : D Z :=
  assert_device dev;;
  result ← open_init dev;
  if negb (result =? RT_EOK) then mret result
  else
    s ← get;
    if has RT_DEVICE_FLAG_STANDALONE (flag (devs s dev)) && has RT_DEVICE_OFLAG_OPEN (open_flag (devs s dev)) then
      mret (- RT_EBUSY)
    else
      result ← (match open_ (ops dev) with
                | Some device_open => device_open oflag
                | None =>
                    dev_upd dev (set_open_flag (Z.land oflag RT_DEVICE_OFLAG_MASK));;
                    mret result
                end);
      (if (result =? RT_EOK) || (result =? - RT_ENOSYS) then
         dev_upd dev (fun d => set_open_flag (Z.lor (open_flag d) RT_DEVICE_OFLAG_OPEN) d);;
         dev_upd dev (fun d => set_ref_count (ref_count d + 1) d);;
         s ← get;
         assertM (negb (ref_count (devs s dev) =? 0))
       else mret tt);;
      mret result.

Definition rt_device_close (dev : oid) : D Z :=
  assert_device dev;;
  s ← get;
  if ref_count (devs s dev) =? 0 then mret (- RT_ERROR)
  else
    dev_upd dev (fun d => set_ref_count (ref_count d - 1) d);;
    s ← get;
    if negb (ref_count (devs s dev) =? 0) then mret RT_EOK
    else
      result ← (match close_ (ops dev) with Some device_close => device_close | None => mret RT_EOK end);
      (if (result =? RT_EOK) || (result =? - RT_ENOSYS) then dev_upd dev (set_open_flag RT_DEVICE_OFLAG_CLOSE)
       else mret tt);;
      mret result.

(** [rt_device_read] and [rt_device_write]; [buffer] is an address. *)
Definition device_transfer (f : option (Z -> Z -> Z -> D Z)) (dev : oid) (pos buffer size : Z) : D Z :=
  assert_device dev;;
  s ← get;
  if ref_count (devs s dev) =? 0 then rt_set_errno (- RT_ERROR);; mret 0
  else match f with
       | Some device_read => device_read pos buffer size
       | None => rt_set_errno (- RT_ENOSYS);; mret 0
       end.
Definition rt_device_read (dev : oid) : Z -> Z -> Z -> D Z := device_transfer (read_ (ops dev)) dev.
Definition rt_device_write (dev : oid) : Z -> Z -> Z -> D Z := device_transfer (write_ (ops dev)) dev.

Definition rt_device_control (dev : oid) (cmd arg : Z) : D Z :=
  assert_device dev;;
  match control_ (ops dev) with
  | Some device_control => device_control cmd arg
  | None => mret (- RT_ENOSYS)
  end.

Definition rt_device_set_rx_indicate (dev : oid) (rx_ind : option Z) : D Z :=
  assert_device dev;;
  dev_upd dev (set_rx_indicate rx_ind);;
  mret RT_EOK.
Definition rt_device_set_tx_complete (dev : oid) (tx_done : option Z) : D Z :=
  assert_device dev;;
  dev_upd dev (set_tx_complete tx_done);;
  mret RT_EOK.

(** * The console ([kservice.c]) *)
Definition rt_console_get_device : D (option oid) := s ← get; mret (console s).

(** An object found in the container of the devices is a device. *)
Definition rt_console_set_device (name : list Z) : D (option oid) :=
  s ← get;
  let old_device := console s in
  o ← rt_device_find name;
  match o with
  | Some (OIpc new_device) =>
      s ← get;
      (match console s with Some old => rt_device_close old;; mret tt | None => mret tt end);;
      rt_device_open new_device (Z.lor RT_DEVICE_OFLAG_RDWR RT_DEVICE_FLAG_STREAM);;
      modify (set_console (Some new_device))
  | _ => mret tt
  end;;
  mret old_device.

(** What [rt_kputs] and [rt_kprintf] do with a text of [length] bytes at
    [buffer], when there is a console device. *)
Definition console_write (console_device : oid) (buffer length : Z) : D unit :=
  s ← get;
  let old_flag := open_flag (devs s console_device) in
  dev_upd console_device (fun d => set_open_flag (Z.lor (open_flag d) RT_DEVICE_FLAG_STREAM) d);;
  rt_device_write console_device 0 buffer length;;
  dev_upd console_device (set_open_flag old_flag).
End device.
