(* ===== verification/DeviceProps.v ===== *)
(** The properties of the device framework: a device as a reference count with
    an open and a ready mark, in every history of calls; what no caller can do. *)
From S2P Require Import Prelude KService Timer KState KInv Sched Kernel KTimer Object ObjectProps Example Device.

(** * Drivers *)
Definition ok_result (r : Z) : bool := (r =? RT_EOK) || (r =? - RT_ENOSYS).
Definition is_open (d : rt_device) : bool := has RT_DEVICE_OFLAG_OPEN (open_flag d).
Definition is_ready (d : rt_device) : bool := has RT_DEVICE_FLAG_ACTIVATED (flag d).
Definition standalone (d : rt_device) : bool := has RT_DEVICE_FLAG_STANDALONE (flag d).

(** The framework's own invariant on a device. *)
Definition dev_ok (d : rt_device) : Prop :=
  0 <= ref_count d <= 255 /\ (0 < ref_count d -> is_open d = true /\ is_ready d = true).

(** What a driver may do to its own device: the other bits of [flag] and
    [open_flag], the callbacks and the type are free.  It may lower the ready
    mark only where [may_reset] (the close of [hwtimer.c]), and writes the open
    mark only where [may_open]. *)
Record own (may_open may_reset : bool) (d d' : rt_device) : Prop := {
  own_count : ref_count d' = ref_count d;
  own_alone : standalone d' = standalone d;
  own_open : may_open = false -> is_open d' = is_open d;
  own_ready : may_reset = false -> is_ready d' = is_ready d;
  own_reset : is_ready d' = true -> is_ready d = true }.

Lemma own_refl may_open may_reset d : own may_open may_reset d d.
Proof. by split. Qed.

Section contract.
(** What the driver of a device needs from the state in which it is called, and
    what it guarantees of each of the other devices. *)
Context (needs : oid -> dstate -> Prop) (keep : oid -> rt_device -> rt_device -> Prop).

(** What a call on a device leaves alone in it, and in every other device. *)
Record others (d : oid) (s s' : dstate) : Prop := {
  ot_alone : standalone (devs s' d) = standalone (devs s d);
  ot_keep : forall x, x <> d -> keep x (devs s x) (devs s' x) }.

Definition driven (may_open may_reset : bool) (d : oid) (s s' : dstate) : Prop :=
  own may_open may_reset (devs s d) (devs s' d) /\ others d s s'.

(** The contract of the drivers: called where their needs hold they return; they
    leave the count and the marks of their own device to the framework, but for
    the open mark when they open or close it with success ([serial.c], [can.c] and
    [audio.c] write [open_flag]); the other devices they use stay within [keep]. *)
Record drivers_ok (ops : oid -> driver) : Prop := {
  do_refl : forall x a, keep x a a;
  do_trans : forall x a b c, keep x a b -> keep x b c -> keep x a c;
  do_dev_ok : forall x a b, keep x a b -> dev_ok a -> dev_ok b;
  do_needs : forall d s v, needs d s -> needs d (set_devs (upd (devs s) d v) s);
  do_init : forall d m, init_ (ops d) = Some m -> forall s, needs d s ->
    wp m (fun _ s' => driven false false d s s' /\ needs d s') s;
  do_open : forall d m, open_ (ops d) = Some m -> forall f s, needs d s ->
    wp (m f) (fun r => driven (ok_result r) false d s) s;
  do_close : forall d m, close_ (ops d) = Some m -> forall s, needs d s -> wp m (fun r => driven (ok_result r) true d s) s;
  do_read : forall d m, read_ (ops d) = Some m -> forall p b n s, needs d s -> wp (m p b n) (fun _ => driven false false d s) s;
  do_write : forall d m, write_ (ops d) = Some m -> forall p b n s, needs d s -> wp (m p b n) (fun _ => driven false false d s) s;
  do_control : forall d m, control_ (ops d) = Some m -> forall c a s, needs d s -> wp (m c a) (fun _ => driven false false d s) s }.
End contract.

(** * The abstract device *)
Record adev := mkA { users : Z; opened : bool; ready : bool }.
Definition abs (d : rt_device) : adev := mkA (ref_count d) (is_open d) (is_ready d).

Inductive call :=
  | CInit (d : oid) | COpen (d : oid) (oflag : Z) | CClose (d : oid)
  | CRead (d : oid) (pos buffer size : Z) | CWrite (d : oid) (pos buffer size : Z) | CControl (d : oid) (cmd arg : Z).
Definition target (c : call) : oid :=
  match c with CInit d | COpen d _ | CClose d | CRead d _ _ _ | CWrite d _ _ _ | CControl d _ _ => d end.

(** What a call that returns [r] does to a device, [alone] if it is for one user. *)
Inductive does (alone : bool) (a : adev) : call -> Z -> adev -> Prop :=
  | does_init d r b : (r = RT_EOK \/ b = ready a) -> (ready a = true -> b = true /\ r = RT_EOK) ->
      does alone a (CInit d) r (mkA (users a) (opened a) b)
  | does_busy d f : alone = true -> opened a = true -> does alone a (COpen d f) (- RT_EBUSY) (mkA (users a) true true)
  | does_open d f r : (alone && opened a) = false -> ok_result r = true -> does alone a (COpen d f) r (mkA (users a + 1) true true)
  | does_open_fails d f r b : ok_result r = false \/ ready a = false /\ b = false /\ r <> RT_EOK ->
      (ready a = true -> b = true /\ (alone && opened a) = false) ->
      does alone a (COpen d f) r (mkA (users a) (opened a) b)
  | does_close_closed d : users a = 0 -> does alone a (CClose d) (- RT_ERROR) a
  | does_close d : 1 < users a -> does alone a (CClose d) RT_EOK (mkA (users a - 1) (opened a) (ready a))
  | does_close_last d r b : users a = 1 -> (b = true -> ready a = true) ->
      does alone a (CClose d) r (mkA 0 (opened a && negb (ok_result r)) b)
  | does_read d p b n r : (users a = 0 -> r = 0) -> does alone a (CRead d p b n) r a
  | does_write d p b n r : (users a = 0 -> r = 0) -> does alone a (CWrite d p b n) r a
  | does_control d c x r : does alone a (CControl d c x) r a.

Section run.
Context (me : Z) (needs : oid -> dstate -> Prop) (ops : oid -> driver).

Definition run_call (c : call) : D Z :=
  match c with
  | CInit d => rt_device_init ops d
  | COpen d f => rt_device_open ops d f
  | CClose d => rt_device_close ops d
  | CRead d p b n => rt_device_read me ops d p b n
  | CWrite d p b n => rt_device_write me ops d p b n
  | CControl d c a => rt_device_control ops d c a
  end.

(** A call on a registered device, which is not opened for the 256th time, in a
    state that has what its driver needs. *)
Definition call_ok (s : dstate) (c : call) : Prop :=
  rt_object_get_type (kern s) (OIpc (target c)) = RT_Object_Class_Device /\ needs (target c) s /\
  match c with COpen d _ => ref_count (devs s d) < 255 | _ => True end.

Inductive reachable : dstate -> Prop :=
  | reach_start s : (forall d, ref_count (devs s d) = 0 /\ is_open (devs s d) = false) -> reachable s
  | reach_call s c r s' : reachable s -> call_ok s c -> run_call c s = Some (r, s') -> reachable s'.
End run.

(** * Marks *)
Lemma has_bit k v : 0 <= k -> has (2 ^ k) v = Z.testbit v k.
Proof.
  intros Hk. unfold has. destruct (Z.eqb_spec (Z.land v (2 ^ k)) 0) as [E|E]; cbn.
  - symmetry. assert (T : Z.testbit (Z.land v (2 ^ k)) k = false) by (rewrite E; apply Z.testbit_0_l).
    rewrite Z.land_spec, testbit_pow2, bool_decide_true, andb_true_r in T by done. done.
  - destruct (Z.testbit v k) eqn:T; [done|]. destruct E. apply Z.bits_inj'. intros n Hn.
    rewrite Z.land_spec, testbit_pow2, Z.testbit_0_l by done. case_bool_decide; [subst; by rewrite T|apply andb_false_r].
Qed.

Lemma has_u16 k v : 0 <= k < 16 -> has (2 ^ k) (u16 v) = has (2 ^ k) v.
Proof. intros Hk. rewrite !has_bit by lia. unfold u16. apply Z.mod_pow2_bits_low. lia. Qed.
Lemma has_lor b k v : has (2 ^ k) (Z.lor v b) = has (2 ^ k) v || has (2 ^ k) b.
Proof.
  destruct (decide (0 <= k)) as [Hk|Hk]; [by rewrite !has_bit, Z.lor_spec|].
  unfold has. by rewrite !Z.pow_neg_r, !Z.land_0_r by lia.
Qed.

Lemma open_raised d : is_open (set_open_flag (Z.lor (open_flag d) RT_DEVICE_OFLAG_OPEN) d) = true.
Proof. unfold is_open. change RT_DEVICE_OFLAG_OPEN with (2 ^ 3). cbn -[has]. rewrite has_u16, has_lor by lia. apply orb_true_r. Qed.
Lemma ready_raised d : is_ready (set_flag (Z.lor (flag d) RT_DEVICE_FLAG_ACTIVATED) d) = true.
Proof. unfold is_ready. change RT_DEVICE_FLAG_ACTIVATED with (2 ^ 4). cbn -[has]. rewrite has_u16, has_lor by lia. apply orb_true_r. Qed.
Lemma standalone_raised d : standalone (set_flag (Z.lor (flag d) RT_DEVICE_FLAG_ACTIVATED) d) = standalone d.
Proof.
  unfold standalone. change RT_DEVICE_FLAG_STANDALONE with (2 ^ 3). cbn -[has Z.pow]. rewrite has_u16, has_lor by lia. apply orb_false_r.
Qed.

(** * One call *)
Section one_call.
Context (needs : oid -> dstate -> Prop) (keep : oid -> rt_device -> rt_device -> Prop) (me : Z) (ops : oid -> driver).
Context (Hdo : drivers_ok needs keep ops).

Abbreviation others := (others keep).
Abbreviation driven := (driven keep).

Lemma others_refl d s : others d s s.
Proof using Hdo. split; [done|]. intros x _. apply (do_refl _ _ _ Hdo). Qed.
Lemma others_trans d s1 s2 s3 : others d s1 s2 -> others d s2 s3 -> others d s1 s3.
Proof using Hdo. intros [A1 A2] [B1 B2]. split; intros; [by rewrite B1|]. eapply (do_trans _ _ _ Hdo); auto. Qed.

Lemma others_upd d f s : standalone (f (devs s d)) = standalone (devs s d) ->
  others d s (set_devs (upd (devs s) d (f (devs s d))) s).
Proof using Hdo.
  intros Hf. split; cbn; [by rewrite upd_eq|]. intros x Hx. rewrite upd_ne by done. apply (do_refl _ _ _ Hdo).
Qed.

Lemma driven_abs d s s' : driven false false d s s' -> abs (devs s' d) = abs (devs s d).
Proof using. intros [[E1 _ E2 E3 _] _]. unfold abs. by rewrite E1, E2, E3. Qed.
Lemma wp_dev_upd d f (Q : unit -> dstate -> Prop) s : Q tt (set_devs (upd (devs s) d (f (devs s d))) s) -> wp (dev_upd d f) Q s.
Proof using. intros HQ. unfold dev_upd. by wp_step. Qed.

Lemma wp_assert_device d (Q : unit -> dstate -> Prop) s : rt_object_get_type (kern s) (OIpc d) = RT_Object_Class_Device -> Q tt s -> wp (assert_device d) Q s.
Proof using. intros Ht HQ. unfold assert_device. wp_steps; [by apply Z.eqb_eq|done]. Qed.

Lemma wp_open_init d s : needs d s -> wp (open_init ops d) (fun r s' => others d s s' /\ needs d s' /\
  let a := abs (devs s d) in
  if r =? RT_EOK then abs (devs s' d) = mkA (users a) (opened a) true
  else ready a = false /\ abs (devs s' d) = a) s.
Proof using Hdo.
  intros Hn. unfold open_init. wp_step. wp_step. change (has RT_DEVICE_FLAG_ACTIVATED (flag (devs s d))) with (is_ready (devs s d)).
  destruct (is_ready (devs s d)) eqn:Er; cbn [negb].
  { wp_step. split_and!; [apply others_refl|done|]. cbn. unfold abs. by rewrite Er. }
  assert (Hraise : forall s1, others d s s1 -> needs d s1 -> abs (devs s1 d) = abs (devs s d) ->
    wp (dev_upd d (fun d => set_flag (Z.lor (flag d) RT_DEVICE_FLAG_ACTIVATED) d);; mret RT_EOK) (fun r s' => others d s s' /\ needs d s' /\
      let a := abs (devs s d) in
      if r =? RT_EOK then abs (devs s' d) = mkA (users a) (opened a) true else ready a = false /\ abs (devs s' d) = a) s1).
  { intros s1 Ho Hn1 Ha. wp_step. apply wp_dev_upd. wp_step. split_and!.
    - eapply others_trans; [exact Ho|]. apply others_upd, standalone_raised.
    - by apply (do_needs _ _ _ Hdo).
    - cbn -[has]. rewrite upd_eq. unfold abs at 1. rewrite ready_raised. injection Ha as E1 E2 E3.
      unfold is_open in *. cbn -[has]. by rewrite <-E1, <-E2. }
  wp_step. destruct (init_ (ops d)) as [m|] eqn:Em.
  - eapply wp_mono; [by apply (do_init _ _ _ Hdo d)|]. cbn beta. intros r s1 [Hk Hn1].
    pose proof (proj2 Hk) as Ho. pose proof (driven_abs _ _ _ Hk) as Ha.
    destruct (Z.eqb_spec r RT_EOK) as [->|Hne]; cbn [negb]; [by apply Hraise|].
    wp_step. split_and!; [done|done|]. rewrite (proj2 (Z.eqb_neq _ _) Hne). split; [done|exact Ha].
  - wp_step. cbn [negb Z.eqb]. by apply Hraise; [apply others_refl|..].
Qed.

Definition inv (s : dstate) : Prop := forall d, dev_ok (devs s d).

Abbreviation refines c s := (fun r s' => others (target c) s s' /\
  does (standalone (devs s (target c))) (abs (devs s (target c))) c r (abs (devs s' (target c)))).

Lemma wp_init_call d s : needs d s -> wp (run_call me ops (CInit d)) (refines (CInit d) s) s.
Proof using Hdo.
  intros Hn. cbn [run_call target]. unfold rt_device_init. destruct (init_ (ops d)) as [m|] eqn:Em.
  2: { wp_step. split; [apply others_refl|]. exact (does_init _ (abs (devs s d)) d RT_EOK (is_ready (devs s d)) (or_introl eq_refl) (fun H => conj H eq_refl)). }
  wp_step. wp_step. change (has RT_DEVICE_FLAG_ACTIVATED (flag (devs s d))) with (is_ready (devs s d)).
  destruct (is_ready (devs s d)) eqn:Er; cbn [negb].
  { wp_step. split; [apply others_refl|]. exact (does_init _ (abs (devs s d)) d RT_EOK (is_ready (devs s d)) (or_introl eq_refl) (fun H => conj H eq_refl)). }
  wp_step. eapply wp_mono; [by apply (do_init _ _ _ Hdo d)|]. cbn beta. intros r s1 [Hk _].
  pose proof (proj2 Hk) as Ho. pose proof (driven_abs _ _ _ Hk) as Ha.
  destruct (Z.eqb_spec r RT_EOK) as [->|Hne]; cbn [negb].
  - wp_step. apply wp_dev_upd. wp_step. split; [eapply others_trans; [exact Ho|]; apply others_upd, standalone_raised|].
    assert (E : abs (devs (set_devs (upd (devs s1) d (set_flag (Z.lor (flag (devs s1 d)) RT_DEVICE_FLAG_ACTIVATED) (devs s1 d))) s1) d)
      = mkA (users (abs (devs s d))) (opened (abs (devs s d))) true).
    { cbn -[has]. rewrite upd_eq. unfold abs at 1. rewrite ready_raised. injection Ha as E1 E2 E3.
      unfold is_open in *. cbn -[has]. by rewrite <-E1, <-E2. }
    rewrite E. apply does_init; [by left|done].
  - wp_step. split; [done|]. rewrite Ha. refine (does_init _ (abs (devs s d)) d r (ready (abs (devs s d))) (or_intror eq_refl) _). cbn. by rewrite Er.
Qed.

(** A success is counted. *)
Lemma wp_bump d (Q : unit -> dstate -> Prop) s : 0 <= ref_count (devs s d) < 255 ->
  (forall s', others d s s' -> abs (devs s' d) = mkA (ref_count (devs s d) + 1) true (is_ready (devs s d)) -> Q tt s') ->
  wp (dev_upd d (fun d => set_open_flag (Z.lor (open_flag d) RT_DEVICE_OFLAG_OPEN) d);;
      dev_upd d (fun d => set_ref_count (ref_count d + 1) d);;
      s ← get; assertM (negb (ref_count (devs s d) =? 0))) Q s.
Proof using Hdo.
  intros Hr HQ. wp_step. apply wp_dev_upd. set (s1 := set_devs _ s). wp_step. apply wp_dev_upd. set (s2 := set_devs _ s1).
  assert (E1 : devs s1 d = set_open_flag (Z.lor (open_flag (devs s d)) RT_DEVICE_OFLAG_OPEN) (devs s d)) by (unfold s1; cbn [devs set_devs]; by rewrite upd_eq).
  assert (E2 : devs s2 d = set_ref_count (ref_count (devs s d) + 1) (devs s1 d)) by (unfold s2; cbn [devs set_devs]; by rewrite upd_eq, E1).
  assert (Eu : u8 (ref_count (devs s d) + 1) = ref_count (devs s d) + 1) by (apply Z.mod_small; lia).
  wp_step. wp_step. apply wp_assert; [rewrite E2; cbn -[u8]; rewrite Eu; apply negb_true_iff, Z.eqb_neq; lia|]. apply HQ.
  - apply (others_trans d s s1); [by apply (others_upd d (fun x => set_open_flag (Z.lor (open_flag x) RT_DEVICE_OFLAG_OPEN) x))|].
    by apply (others_upd d (fun x => set_ref_count (ref_count x + 1) x)).
  - rewrite E2, E1. unfold abs. cbn -[has u8]. rewrite Eu. f_equal. apply open_raised.
Qed.

Lemma wp_open_call d f s : dev_ok (devs s d) -> call_ok needs s (COpen d f) -> wp (run_call me ops (COpen d f)) (refines (COpen d f) s) s.
Proof using Hdo.
  intros [Hr _] (Ht & Hnd & Hlt). cbn [run_call target] in *. unfold rt_device_open. wp_step. apply wp_assert_device; [done|].
  wp_step. eapply wp_mono; [by apply wp_open_init|]. cbn beta. intros r s1 (Ho & Hn1 & Ha).
  destruct (Z.eqb_spec r RT_EOK) as [->|Hne]; cbn [negb].
  2: { destruct Ha as [Hn Ha]. wp_step. split; [done|]. rewrite Ha. refine (does_open_fails _ (abs (devs s d)) d f r (ready (abs (devs s d))) _ _).
       - right. by split_and!.
       - cbn in Hn |- *. by rewrite Hn. }
  wp_step. wp_step. change (has RT_DEVICE_FLAG_STANDALONE (flag (devs s1 d))) with (standalone (devs s1 d)).
  change (has RT_DEVICE_OFLAG_OPEN (open_flag (devs s1 d))) with (is_open (devs s1 d)).
  injection Ha as E1 E2 E3. rewrite (ot_alone _ _ _ _ Ho), E2.
  destruct (standalone (devs s d) && is_open (devs s d)) eqn:Eb.
  { wp_step. split; [done|]. apply andb_true_iff in Eb as [Eb1 Eb2]. assert (E : abs (devs s1 d) = mkA (users (abs (devs s d))) true true).
    { unfold abs. by rewrite E1, E2, E3, Eb2. }
    rewrite E. by apply does_busy. }
  assert (Hend : forall r2 s2, others d s1 s2 -> ref_count (devs s2 d) = ref_count (devs s1 d) -> is_ready (devs s2 d) = true ->
    (ok_result r2 = false -> is_open (devs s2 d) = is_open (devs s1 d)) ->
    wp ((if (r2 =? RT_EOK) || (r2 =? - RT_ENOSYS) then
         dev_upd d (fun d => set_open_flag (Z.lor (open_flag d) RT_DEVICE_OFLAG_OPEN) d);;
         dev_upd d (fun d => set_ref_count (ref_count d + 1) d);;
         s ← get; assertM (negb (ref_count (devs s d) =? 0))
       else mret tt);; mret r2) (refines (COpen d f) s) s2).
  { intros r2 s2 Ho2 Er2 Ey2 Eo2. change ((r2 =? RT_EOK) || (r2 =? - RT_ENOSYS)) with (ok_result r2).
    destruct (ok_result r2) eqn:Eok; wp_step.
    - apply wp_bump; [lia|]. intros s3 Ho3 Ea3. wp_step. cbn [target]. split; [eapply others_trans; [exact Ho|]; by eapply others_trans|].
      rewrite Ea3, Er2, E1, Ey2. exact (does_open _ (abs (devs s d)) d f r2 Eb Eok).
    - wp_step. wp_step. cbn [target]. split; [by eapply others_trans|].
      assert (E : abs (devs s2 d) = mkA (users (abs (devs s d))) (opened (abs (devs s d))) true).
      { unfold abs. rewrite Er2, E1, Ey2, Eo2, E2 by done. done. }
      rewrite E. apply does_open_fails; [by left|done]. }
  wp_step. destruct (open_ (ops d)) as [m|] eqn:Em.
  - eapply wp_mono; [by apply (do_open _ _ _ Hdo d)|]. cbn beta. intros r2 s2 [[Kc Ka Ko Ky _] Ho2]. apply Hend; [done|done| |done].
    by rewrite Ky.
  - wp_step. apply wp_dev_upd. wp_step. apply Hend; cbn -[has]; rewrite ?upd_eq; try done. by apply (others_upd d (set_open_flag _)).
Qed.

Lemma wp_close_call d s : dev_ok (devs s d) -> call_ok needs s (CClose d) -> wp (run_call me ops (CClose d)) (refines (CClose d) s) s.
Proof using Hdo.
  intros [Hr Hup] (Ht & Hnd & _). cbn [run_call target] in *. unfold rt_device_close. wp_step. apply wp_assert_device; [done|].
  wp_step. wp_step. destruct (Z.eqb_spec (ref_count (devs s d)) 0) as [E0|E0].
  { wp_step. split; [apply others_refl|]. by apply does_close_closed. }
  wp_step. apply wp_dev_upd. wp_step. wp_step. cbn -[u8]. rewrite upd_eq. cbn -[u8].
  set (s1 := set_devs _ s). assert (Eu : u8 (ref_count (devs s d) - 1) = ref_count (devs s d) - 1) by (apply Z.mod_small; lia). rewrite Eu.
  assert (Ho1 : others d s s1) by (by apply (others_upd d (fun d => set_ref_count (ref_count d - 1) d))).
  assert (Ea : abs (devs s1 d) = mkA (ref_count (devs s d) - 1) (is_open (devs s d)) (is_ready (devs s d))).
  { unfold s1. cbn -[u8 has]. rewrite upd_eq. unfold abs. cbn -[u8 has]. by rewrite Eu. }
  destruct (Z.eqb_spec (ref_count (devs s d) - 1) 0) as [E1|E1]; cbn [negb].
  2: { wp_step. split; [done|]. rewrite Ea. apply does_close. cbn. lia. }
  assert (Hend : forall r s2, driven (ok_result r) true d s1 s2 ->
    wp ((if (r =? RT_EOK) || (r =? - RT_ENOSYS) then dev_upd d (set_open_flag RT_DEVICE_OFLAG_CLOSE) else mret tt);; mret r)
      (refines (CClose d) s) s2).
  { intros r s2 [[Kc Ka Ko _ Ky] Ho2]. change ((r =? RT_EOK) || (r =? - RT_ENOSYS)) with (ok_result r).
    rewrite (f_equal users Ea : ref_count (devs s1 d) = _), E1 in Kc. rewrite (f_equal opened Ea : is_open (devs s1 d) = _) in Ko.
    rewrite (f_equal ready Ea : is_ready (devs s1 d) = _) in Ky. cbn [opened users ready] in Kc, Ko, Ky.
    pose proof (does_close_last (standalone (devs s d)) (abs (devs s d)) d r (is_ready (devs s2 d)) ltac:(cbn; lia) Ky) as Hdoes.
    cbn [opened abs ready] in Hdoes. destruct (ok_result r) eqn:Eok; wp_step.
    - apply wp_dev_upd. wp_step. cbn [target]. split; [eapply others_trans; [exact Ho1|]; eapply others_trans; [exact Ho2|]; by apply (others_upd d (set_open_flag _))|].
      cbn -[has abs]. rewrite upd_eq. rewrite andb_false_r in Hdoes. unfold abs at 2.
      change (is_ready (set_open_flag RT_DEVICE_OFLAG_CLOSE (devs s2 d))) with (is_ready (devs s2 d)).
      change (ref_count (set_open_flag RT_DEVICE_OFLAG_CLOSE (devs s2 d))) with (ref_count (devs s2 d)). rewrite Kc. exact Hdoes.
    - wp_step. wp_step. cbn [target]. split; [by eapply others_trans|]. unfold abs at 2. rewrite Kc, Ko by done. by rewrite andb_true_r in Hdoes. }
  wp_step. destruct (close_ (ops d)) as [m|] eqn:Em.
  - eapply wp_mono; [apply (do_close _ _ _ Hdo d m Em); by apply (do_needs _ _ _ Hdo)|]. cbn beta. intros r s2. apply Hend.
  - wp_step. apply Hend. split; [apply own_refl|apply others_refl].
Qed.

Lemma wp_set_errno e s (Q : unit -> dstate -> Prop) : (forall s', devs s' = devs s -> otype (kern s') = otype (kern s) -> Q tt s') ->
  wp (rt_set_errno me e) Q s.
Proof using.
  intros HQ. unfold rt_set_errno. wp_step. wp_step. destruct (negb _); [wp_step; by apply HQ|].
  destruct (rt_thread_self me (kern s)); [|wp_step; by apply HQ]. unfold on_kern, thread_upd, wp, modify. by apply HQ.
Qed.

Lemma wp_transfer f d p b n s : rt_object_get_type (kern s) (OIpc d) = RT_Object_Class_Device ->
  (ref_count (devs s d) <> 0 -> forall m, f = Some m -> wp (m p b n) (fun _ => driven false false d s) s) ->
  wp (device_transfer me f d p b n) (fun r s' => others d s s' /\ (ref_count (devs s d) = 0 -> r = 0) /\ abs (devs s' d) = abs (devs s d)) s.
Proof using Hdo.
  intros Ht Hf. unfold device_transfer. wp_step. apply wp_assert_device; [done|]. wp_step. wp_step.
  assert (He : forall e, wp (rt_set_errno me e;; mret 0)
    (fun r s' => others d s s' /\ (ref_count (devs s d) = 0 -> r = 0) /\ abs (devs s' d) = abs (devs s d)) s).
  { intros e. wp_step. apply wp_set_errno. intros s' Ed Eo. wp_step. rewrite Ed. split_and!; [|done|done].
    destruct (others_refl d s) as [A B]. split; by rewrite Ed. }
  destruct (Z.eqb_spec (ref_count (devs s d)) 0) as [E|E]; [apply He|]. destruct f as [m|]; [|apply He].
  eapply wp_mono; [by apply Hf|]. cbn beta. intros r s' Hk. split_and!; [apply Hk|done|by apply driven_abs].
Qed.

Lemma wp_device_call c s : inv s -> call_ok needs s c -> wp (run_call me ops c) (refines c s) s.
Proof using Hdo.
  intros Hi Hc. destruct c as [d|d f|d|d p b n|d p b n|d cmd a].
  - by apply wp_init_call, Hc.
  - by apply wp_open_call.
  - by apply wp_close_call.
  - cbn [run_call target]. eapply wp_mono; [apply (wp_transfer (read_ (ops d))); [apply Hc|intros _ m Hm; apply (do_read _ _ _ Hdo d m Hm), Hc]|].
    cbn beta. intros r s' (Ho & Hr & Ea). split; [done|]. rewrite Ea. by apply does_read.
  - cbn [run_call target]. eapply wp_mono; [apply (wp_transfer (write_ (ops d))); [apply Hc|intros _ m Hm; apply (do_write _ _ _ Hdo d m Hm), Hc]|].
    cbn beta. intros r s' (Ho & Hr & Ea). split; [done|]. rewrite Ea. by apply does_write.
  - cbn [run_call target]. destruct Hc as (Ht & Hn & _). unfold rt_device_control. wp_step. apply wp_assert_device; [done|].
    destruct (control_ (ops d)) as [m|] eqn:Em.
    + eapply wp_mono; [by apply (do_control _ _ _ Hdo d)|]. cbn beta. intros r s' Hk.
      split; [apply Hk|]. rewrite (driven_abs _ _ _ Hk). apply does_control.
    + wp_step. split; [apply others_refl|apply does_control].
Qed.

Lemma does_inv alone a c r a' : does alone a c r a' -> 0 <= users a <= 255 -> (0 < users a -> opened a = true /\ ready a = true) ->
  match c with COpen _ _ => users a < 255 | _ => True end ->
  0 <= users a' <= 255 /\ (0 < users a' -> opened a' = true /\ ready a' = true).
Proof using.
  destruct 1 as [d r b _ Hb|d f _ Ho|d f r _ _|d f r b _ Hb|d H0|d H1|d r b H1 _|d p b n r _|d p b n r _|d cm x r];
    cbn [users opened ready]; intros Hr Hup Hc; (split; [lia|]); intros Hp; try done; try lia; try (apply Hup; lia).
  - destruct (Hup Hp) as [? Hy]. split; [done|by apply Hb].
  - destruct (Hup Hp) as [? Hy]. split; [done|by apply Hb].
Qed.

Lemma inv_step s s' c r : inv s -> call_ok needs s c -> refines c s r s' -> inv s'.
Proof using Hdo.
  intros Hi (_ & _ & Hc) [Ho Hd] x. destruct (decide (x = target c)) as [->|Hx].
  - destruct (Hi (target c)) as [Hr Hup]. apply (does_inv _ _ _ _ _ Hd Hr Hup). by destruct c.
  - eapply (do_dev_ok _ _ _ Hdo); [by apply (ot_keep _ _ _ _ Ho)|apply Hi].
Qed.

Lemma reachable_inv s : reachable me needs ops s -> inv s.
Proof using Hdo.
  induction 1 as [s H|s c r s' Hr IH Hc Hrun].
  - intros d. unfold dev_ok. destruct (H d) as [-> _]. split; lia.
  - pose proof (wp_device_call c s IH Hc) as Hw. unfold wp in Hw. rewrite Hrun in Hw. by eapply inv_step.
Qed.
End one_call.

(** * Registration *)
Section register.
Context (me : Z) (name_of : obj -> list Z) (dd : Z) (Hd : 0 <= dd < 32767).
Abbreviation good reg s := (calm me dd (kern s) /\ represents reg (kern s)).

Lemma wp_on_kern {A} (m : K A) (Q : A -> dstate -> Prop) s : wp m (fun a k => Q a (set_kern k s)) (kern s) -> wp (on_kern m) Q s.
Proof using. unfold wp, on_kern. by destruct (m (kern s)) as [[a k]|]. Qed.

Lemma wp_find name reg s : good reg s ->
  wp (rt_device_find me name_of name) (fun o s' =>
    o = List.find (same_name name_of name) (of_class RT_Object_Class_Device reg) /\ devs s' = devs s /\ good reg s') s.
Proof using Hd.
  intros [Hca Hr]. unfold rt_device_find. wp_step. wp_step. wp_step.
  destruct (rt_thread_self me (kern s)) as [t|] eqn:Et.
  - rewrite bool_decide_true by done. apply wp_on_kern, (wp_enter me dd (kern s)); [done|lia|]. intros k Hin.
    eapply wp_bind, wp_ofopt; [reflexivity|]. wp_step. wp_step. wp_step.
    assert (Ek : rt_thread_self me (kern (set_kern k s)) = Some t) by (destruct Hin as (n & b & -> & _); exact Et).
    rewrite Ek, bool_decide_true by done. apply wp_on_kern, (wp_exit me dd (kern s)); [done|lia|exact Hin|]. intros k2 Ek2 Hca2.
    wp_step. cbn [kern set_kern]. rewrite find_named_find, (re_containers _ _ (inside_registry _ _ _ _ Hin Hr)).
    split_and!; [done|done|done|by eapply keq_represents].
  - rewrite bool_decide_false by naive_solver. wp_step. eapply wp_bind, wp_ofopt; [reflexivity|]. wp_step. wp_step. wp_step.
    rewrite Et, bool_decide_false by naive_solver. wp_step. wp_step. rewrite find_named_find, (re_containers _ _ Hr). by split_and!.
Qed.

(** The devices that have the name of [d]. *)
Definition name_taken (d : oid) (reg : list entry) : bool :=
  bool_decide (List.find (same_name name_of (name_of (OIpc d))) (of_class RT_Object_Class_Device reg) <> None).
Definition device_entry (d : oid) : entry := mkEntry (OIpc d) RT_Object_Class_Device true.

Lemma wp_register d flags reg s : good reg s -> OIpc d ∉ objects reg ->
  wp (rt_device_register me name_of (Some d) flags) (fun r s' =>
    if name_taken d reg then r = - RT_ERROR /\ good reg s'
    else r = RT_EOK /\ good (device_entry d :: reg) s' /\ ref_count (devs s' d) = 0 /\ open_flag (devs s' d) = 0 /\
      flag (devs s' d) = u16 flags) s.
Proof using Hd.
  intros Hg Hout. unfold rt_device_register. wp_step. eapply wp_mono; [by apply (wp_find (name_of (OIpc d)) reg)|].
  cbn beta. intros o s1 (-> & Edev & Hca & Hr). fold (name_taken d reg). destruct (name_taken d reg); [by wp_step|].
  wp_step. apply wp_on_kern, (wp_object_init me dd Hd (kern s1) reg); [done|done|by right; right; right; right; right; right; left|done|].
  intros k Hk. unfold dev_upd. wp_steps. split; [done|]. split; [exact Hk|].
  cbn -[u16]. unfold upd. rewrite !decide_True by done. by split_and!.
Qed.

Lemma wp_unregister d reg s : good (device_entry d :: reg) s -> OIpc d ∉ objects reg ->
  wp (rt_device_unregister me d) (fun r s' => r = RT_EOK /\ good reg s' /\ otype (kern s') (OIpc d) = 0) s.
Proof using Hd.
  intros [Hca Hr] Hout. assert (Hh : otype (kern s) (OIpc d) = 0x89) by (apply (re_header _ _ Hr (device_entry d)); by left).
  unfold rt_device_unregister, assert_device, rt_object_get_type, rt_object_is_systemobject. wp_step. wp_step. wp_step.
  apply wp_assert; [by rewrite Hh|]. wp_step. wp_step. wp_step. wp_step; [by rewrite Hh|].
  wp_step. apply wp_on_kern. unfold rt_object_detach.
  assert (Hw : without (OIpc d) (device_entry d :: reg) = reg).
  { unfold without. rewrite filter_cons. destruct (decide _) as [?|_]; [done|]. clear -Hout. induction reg as [|e reg IH]; [done|].
    cbn in Hout. apply not_elem_of_cons in Hout as [Hne Hout]. rewrite filter_cons. destruct (decide _) as [_|E]; [by rewrite IH|].
    destruct E. congruence. }
  apply (wp_object_removed me dd Hd (kern s) (device_entry d :: reg)); [done|done|]. intros k Hk Eo. rewrite Hw in Hk. destruct Hk. wp_step. by split_and!.
Qed.

(** A device of which only the structure exists: no registered object is its own. *)
Lemma wp_create d type reg s : good reg s -> OIpc d ∉ objects reg ->
  wp (rt_device_create (Some d) type) (fun r s' => r = Some d /\ good reg s' /\ otype (kern s') (OIpc d) = 0 /\ type_ (devs s' d) = type) s.
Proof using.
  intros [Hca Hr] Hout. unfold rt_device_create. wp_step. apply wp_on_kern. unfold otype_upd. wp_step. wp_step.
  apply wp_dev_upd. wp_step. cbn. rewrite !upd_eq. split_and!; try done.
  - by eapply calm_frame; [..|exact Hca].
  - destruct Hr as [H1 H2 H3 H4]. split; cbn; try done. intros e He. rewrite upd_ne; [by apply H3|].
    intros E. apply Hout. rewrite E. apply elem_of_objects. by exists e.
Qed.

Lemma destroy_fails d s : otype (kern s) (OIpc d) = 0 \/ otype (kern s) (OIpc d) = 0x89 -> rt_device_destroy me d s = None.
Proof using.
  intros H. unfold rt_device_destroy, assert_device, rt_object_get_type, rt_object_is_systemobject, mbind, M_bind, get, assertM.
  destruct H as [E|E]; rewrite E; [reflexivity|]. unfold mret, M_ret.
 change (Z.land 137 (Z.lnot RT_Object_Class_Static) =? RT_Object_Class_Device) with true. cbv beta iota. by rewrite E.
Qed.
End register.

(** * A device that is open without users *)
Section jammed.
Context (ops : oid -> driver) (d : oid) (s : dstate).
Context (Ht : rt_object_get_type (kern s) (OIpc d) = RT_Object_Class_Device).

Lemma jammed_open oflag : standalone (devs s d) = true -> is_open (devs s d) = true -> is_ready (devs s d) = true ->
  wp (rt_device_open ops d oflag) (fun r s' => r = - RT_EBUSY /\ s' = s) s.
Proof using Ht.
  intros Ha Ho Hy. unfold rt_device_open, open_init. wp_step. apply wp_assert_device; [done|]. wp_step. wp_step. wp_step.
  change (has RT_DEVICE_FLAG_ACTIVATED (flag (devs s d))) with (is_ready (devs s d)). rewrite Hy. cbn [negb]. wp_step.
  change (negb (RT_EOK =? RT_EOK)) with false. cbv iota. wp_step. wp_step.
  change (has RT_DEVICE_FLAG_STANDALONE (flag (devs s d))) with (standalone (devs s d)).
  change (has RT_DEVICE_OFLAG_OPEN (open_flag (devs s d))) with (is_open (devs s d)). rewrite Ha, Ho. cbn [andb]. by wp_step.
Qed.

Lemma jammed_close : ref_count (devs s d) = 0 -> wp (rt_device_close ops d) (fun r s' => r = - RT_ERROR /\ s' = s) s.
Proof using Ht.
  intros H0. unfold rt_device_close. wp_step. apply wp_assert_device; [done|]. wp_step. wp_step. rewrite H0.
  change (0 =? 0) with true. cbv iota. by wp_step.
Qed.
End jammed.

(** * The properties *)
(** C31: in every history of [rt_device_init], [rt_device_open],
    [rt_device_close], [rt_device_read], [rt_device_write] and
    [rt_device_control] on registered devices none of which is opened for the
    256th time at once, every call has a result and does what the abstract device
    does: an opening with success counts one user more, a device for one user is
    not opened twice, the driver closes with the last user, a device without
    users transfers nothing; a device that has users is open and ready.  The
    drivers are any that keep the contract [drivers_ok]: they return where their
    needs hold, and leave to the framework the count, the single-user mark, the
    open mark unless they open or close with success, and the ready mark unless
    they close.  The framework itself changes no other device: what happens to
    the others is what the drivers guarantee of them ([keep], which may be
    equality, or allow that a driver opens further devices). *)
Theorem rt_device_history_refines me needs keep ops s c :
  drivers_ok needs keep ops -> reachable me needs ops s -> call_ok needs s c ->
  (forall d, 0 <= ref_count (devs s d) <= 255 /\ (0 < ref_count (devs s d) -> is_open (devs s d) = true /\ is_ready (devs s d) = true)) /\
  wp (run_call me ops c) (fun r s' => others keep (target c) s s' /\
    does (standalone (devs s (target c))) (abs (devs s (target c))) c r (abs (devs s' (target c)))) s.
Proof.
  intros Hdo Hr Hc. pose proof (reachable_inv needs keep me ops Hdo s Hr) as Hi. split; [exact Hi|]. by eapply wp_device_call.
Qed.

(** C32: a device that is registered is found under its name, the newest first,
    and no other device takes the name while it is registered; when it is
    unregistered the name is free again. *)
Theorem rt_device_register_roundtrip me name_of dd reg s d flags : 0 <= dd < 32767 ->
  calm me dd (kern s) -> represents reg (kern s) -> OIpc d ∉ objects reg ->
  name_taken name_of d reg = false ->
  wp (r ← rt_device_register me name_of (Some d) flags; o ← rt_device_find me name_of (name_of (OIpc d));
      r2 ← rt_device_unregister me d; o2 ← rt_device_find me name_of (name_of (OIpc d)); mret (r, o, r2, o2))
    (fun x s' => x = (RT_EOK, Some (OIpc d), RT_EOK, None) /\ calm me dd (kern s') /\ represents reg (kern s')) s.
Proof.
  intros Hd Hca Hr Hout Hfree. wp_step. eapply wp_mono; [by apply (wp_register me name_of dd Hd d flags reg)|].
  cbn beta. rewrite Hfree. intros r s1 (-> & Hg1 & _). wp_step. eapply wp_mono; [by apply (wp_find me name_of dd Hd _ (device_entry d :: reg))|].
  cbn beta. intros o s2 (-> & _ & Hg2). wp_step. eapply wp_mono; [by apply (wp_unregister me dd Hd d reg)|].
  cbn beta. intros r2 s3 (-> & Hg3 & _). wp_step. eapply wp_mono; [by apply (wp_find me name_of dd Hd _ reg)|].
  cbn beta. intros o2 s4 (-> & _ & Hg4). wp_step. split; [|done].
  unfold name_taken in Hfree. apply bool_decide_eq_false in Hfree. f_equal; [|by destruct (List.find _ _); [destruct Hfree|]].
  f_equal. f_equal. unfold of_class. rewrite filter_cons, decide_True by done. cbn. unfold same_name at 1. by rewrite bool_decide_true.
Qed.

(** C38: [rt_device_destroy] can never be called: it fails its assertions on a
    device that [rt_device_create] made, on the device once it is registered,
    since the registration marks it as static, and on the device once it is
    unregistered, since it is of no class then. *)
Theorem rt_device_destroy_never me name_of dd reg s d type flags : 0 <= dd < 32767 ->
  calm me dd (kern s) -> represents reg (kern s) -> OIpc d ∉ objects reg -> name_taken name_of d reg = false ->
  wp (rt_device_create (Some d) type) (fun _ s1 => rt_device_destroy me d s1 = None /\
    wp (rt_device_register me name_of (Some d) flags) (fun r s2 => r = RT_EOK /\ rt_device_destroy me d s2 = None /\
      wp (rt_device_unregister me d) (fun r s3 => r = RT_EOK /\ rt_device_destroy me d s3 = None) s2) s1) s.
Proof.
  intros Hd Hca Hr Hout Hfree. eapply wp_mono; [by apply (wp_create me dd d type reg)|]. cbn beta. intros _ s1 (_ & Hg1 & E1 & _).
  split; [apply destroy_fails; by left|]. eapply wp_mono; [by apply (wp_register me name_of dd Hd d flags reg)|].
  cbn beta. rewrite Hfree. intros r s2 (-> & Hg2 & _). split_and!; [done| |].
  - apply destroy_fails. right. apply (re_header _ _ (proj2 Hg2) (device_entry d)). by left.
  - eapply wp_mono; [by apply (wp_unregister me dd Hd d reg)|]. cbn beta. intros r s3 (-> & Hg3 & E3). split; [done|]. apply destroy_fails. by left.
Qed.

(** C39: when the driver of a device for one user fails to close it, the last user
    is gone but the device stays marked as open: it transfers nothing, a further
    close is refused, and every opening returns [-RT_EBUSY].  The failing close
    leaves the class of the device and its ready mark. *)
Theorem rt_device_close_jams me needs keep ops s d m : drivers_ok needs keep ops -> reachable me needs ops s ->
  call_ok needs s (CClose d) -> standalone (devs s d) = true -> ref_count (devs s d) = 1 ->
  close_ (ops d) = Some m ->
  (forall s, wp m (fun r s' => ok_result r = false /\ otype (kern s') (OIpc d) = otype (kern s) (OIpc d) /\
    is_ready (devs s' d) = is_ready (devs s d)) s) ->
  wp (rt_device_close ops d) (fun r s' => ok_result r = false /\ ref_count (devs s' d) = 0 /\
    (forall oflag, wp (rt_device_open ops d oflag) (fun r s'' => r = - RT_EBUSY /\ s'' = s') s') /\
    wp (rt_device_close ops d) (fun r s'' => r = - RT_ERROR /\ s'' = s') s' /\
    forall p b n, wp (rt_device_write me ops d p b n) (fun r _ => r = 0) s') s.
Proof.
  intros Hdo Hr (Ht & Hn & _) Hal H1 Hm Hfail. cbn [target] in Ht, Hn.
  pose proof (reachable_inv needs keep me ops Hdo s Hr) as Hi. destruct (proj2 (Hi d) ltac:(lia)) as [Ho Hy].
  unfold rt_device_close at 1. wp_step. apply wp_assert_device; [done|]. wp_step. wp_step. rewrite H1. change (1 =? 0) with false. cbv iota.
  wp_step. apply wp_dev_upd. wp_step. wp_step. cbn [devs set_devs]. rewrite upd_eq, H1. change (negb (_ =? 0)) with false. cbv iota.
  assert (E1 : devs (set_devs (upd (devs s) d (set_ref_count (1 - 1) (devs s d))) s) d = set_ref_count 0 (devs s d)) by (cbn [devs set_devs]; by rewrite upd_eq).
  assert (Hn1 : needs d (set_devs (upd (devs s) d (set_ref_count (1 - 1) (devs s d))) s)) by (by apply (do_needs _ _ _ Hdo)).
  assert (Ek : kern (set_devs (upd (devs s) d (set_ref_count (1 - 1) (devs s d))) s) = kern s) by done.
  set (s1 := set_devs _ s) in *. clearbody s1. wp_step. rewrite Hm. eapply wp_mono; [apply wp_and; [by apply (do_close _ _ _ Hdo d)|apply Hfail]|].
  cbn beta. intros r s2 [[[Kr Ka Ko _ _] _] (Er & Et & Ey)]. change ((r =? RT_EOK) || (r =? - RT_ENOSYS)) with (ok_result r). rewrite Er. wp_step. wp_step. wp_step.
  rewrite E1 in Kr, Ka, Ko, Ey. rewrite Ek in Et.
  assert (Ht2 : rt_object_get_type (kern s2) (OIpc d) = RT_Object_Class_Device) by (unfold rt_object_get_type; by rewrite Et).
  assert (R0 : ref_count (devs s2 d) = 0) by exact Kr.
  assert (Y2 : is_ready (devs s2 d) = true) by (rewrite Ey; exact Hy).
  assert (A2 : standalone (devs s2 d) = true) by (rewrite Ka; exact Hal).
  assert (O2 : is_open (devs s2 d) = true) by (rewrite Ko; [exact Ho|done]).
  split_and!; [done|done| | |].
  - intros oflag. by apply jammed_open.
  - by apply jammed_close.
  - intros p b n. eapply wp_mono; [apply (wp_transfer needs keep me ops Hdo (write_ (ops d))); [done|by rewrite R0]|].
    cbn beta. intros r' s' (_ & Hz & _). by apply Hz.
Qed.

(** ** Concrete inputs *)
(** A driver that keeps the arguments it gets and cannot close its device. *)
Definition ex_ops (d : oid) : driver :=
  mkDriver (Some (modify (fun s => set_hw (upd (hw s) 0 1) s);; mret RT_EOK))
    (Some (fun f => modify (fun s => set_hw (upd (hw s) 1 f) s);; mret RT_EOK))
    (Some (mret (- RT_ERROR))) (Some (fun _ _ n => mret n)) None None.
Lemma ex_drivers : drivers_ok (fun _ _ => True) (fun _ => eq) ex_ops.
Proof.
  split; try (intros d m [= <-]; intros); try done; try congruence; wp_steps; by split.
Qed.

(** Device 30 is registered and for one user. *)
Definition ex_devs : dstate :=
  mkD (set_otype (upd ex_otype (OIpc 30) 0x89) ex) (fun _ => mkDevice 0 RT_DEVICE_FLAG_STANDALONE 0 0 None None) 0 None (fun _ => 0).
Definition ex_opened : dstate := match rt_device_open ex_ops 30 3 ex_devs with Some (_, s) => s | None => ex_devs end.

Lemma ex_opened_reachable : reachable 0 (fun _ _ => True) ex_ops ex_opened.
Proof.
  eapply (reach_call 0 _ ex_ops ex_devs (COpen 30 3) 0); [apply reach_start; intros d; by split|by split|].
  unfold ex_opened. cbn [run_call]. by destruct (rt_device_open ex_ops 30 3 ex_devs) as [[r s]|] eqn:E; vm_compute in E; [injection E as <- <-|].
Qed.

(** Device 31 on top of device 30: to open it opens device 30, its control
    suspends it as in [serial.c], its close resets it as in [hwtimer.c]. *)
Definition ex_ops2 (d : oid) : driver :=
  if decide (d = 31%positive) then
    mkDriver None (Some (fun f => rt_device_open ex_ops 30 f))
      (Some (dev_upd 31 (fun x => set_flag (Z.land (flag x) (Z.lnot RT_DEVICE_FLAG_ACTIVATED)) x);; mret RT_EOK)) None None
      (Some (fun _ _ => dev_upd 31 (fun x => set_flag (Z.lor (flag x) 0x020) x);; mret RT_EOK))
  else ex_ops d.
Definition ex_needs (d : oid) (s : dstate) : Prop :=
  d = 31%positive -> rt_object_get_type (kern s) (OIpc 30) = RT_Object_Class_Device /\ dev_ok (devs s 30) /\ ref_count (devs s 30) < 255.
Definition ex_keep (x : oid) (a b : rt_device) : Prop := if decide (x = 30%positive) then dev_ok a -> dev_ok b else a = b.

Lemma ex_suspends d : own false false d (set_flag (Z.lor (flag d) 0x020) d).
Proof.
  assert (E : forall k, 0 <= k < 5 -> has (2 ^ k) (u16 (Z.lor (flag d) 0x020)) = has (2 ^ k) (flag d)).
  { intros k Hk. rewrite has_u16, has_lor by lia. assert (k = 0 \/ k = 1 \/ k = 2 \/ k = 3 \/ k = 4) as Hc by lia.
    destruct Hc as [->|[->|[->|[->| ->]]]]; apply orb_false_r. }
  split; cbn -[has u16]; try done; intros; unfold standalone, is_ready in *; cbn -[has u16] in *.
  - by apply (E 3).
  - by apply (E 4).
  - etransitivity; [symmetry; apply (E 4); lia|done].
Qed.

Lemma ex_resets d : own true true d (set_flag (Z.land (flag d) (Z.lnot RT_DEVICE_FLAG_ACTIVATED)) d).
Proof.
  assert (E : forall k, 0 <= k < 5 -> has (2 ^ k) (u16 (Z.land (flag d) (Z.lnot RT_DEVICE_FLAG_ACTIVATED))) = has (2 ^ k) (flag d) && negb (k =? 4)).
  { intros k Hk. rewrite has_u16, !has_bit, Z.land_spec by lia. f_equal.
    assert (k = 0 \/ k = 1 \/ k = 2 \/ k = 3 \/ k = 4) as Hc by lia. by destruct Hc as [->|[->|[->|[->| ->]]]]. }
  split; cbn -[has u16]; try done; unfold standalone, is_ready; cbn -[has u16].
  - change RT_DEVICE_FLAG_STANDALONE with (2 ^ 3). rewrite E by lia. apply andb_true_r.
  - change RT_DEVICE_FLAG_ACTIVATED with (2 ^ 4) at 1. rewrite E by lia. by rewrite andb_false_r.
Qed.

Lemma ex_own_upd mo mr f s : own mo mr (devs s 31) (f (devs s 31%positive)) ->
  wp (dev_upd 31 f;; mret RT_EOK) (fun r => driven ex_keep mo mr 31 s) s.
Proof.
  intros Ho. wp_step. apply wp_dev_upd. wp_step. split; cbn [devs set_devs]; [by rewrite upd_eq|].
  split; cbn [devs set_devs]; [rewrite upd_eq; by apply Ho|]. intros x Hx. rewrite upd_ne by done.
  unfold ex_keep. by destruct (decide _).
Qed.

Lemma ex_opens f s : ex_needs 31 s -> wp (rt_device_open ex_ops 30 f) (fun r => driven ex_keep (ok_result r) false 31 s) s.
Proof.
  intros Hn. destruct (Hn eq_refl) as (Ht & Hd & Hlt).
  eapply wp_mono; [apply (wp_open_call (fun _ _ => True) (fun _ => eq) 0 ex_ops ex_drivers 30 f s Hd); by split|].
  cbn beta. cbn [target]. intros r s' [[_ Hk] Hdo]. assert (E : devs s' 31%positive = devs s 31%positive) by (symmetry; by apply Hk).
  split; [rewrite E; apply own_refl|]. split; [by rewrite E|]. intros x Hx. unfold ex_keep. destruct (decide (x = 30%positive)) as [->|Hx2]; [|by apply Hk].
  intros [Hr Hup]. exact (does_inv _ _ _ _ _ Hdo Hr Hup Hlt).
Qed.

Lemma ex_drivers2 : drivers_ok ex_needs ex_keep ex_ops2.
Proof.
  assert (Hkeep : forall d mo mr s s', driven (fun _ => eq) mo mr d s s' -> driven ex_keep mo mr d s s').
  { intros d mo mr s s' [Ho [Ha Hk]]. split; [done|split; [done|]]. intros x Hx. rewrite (Hk x Hx). unfold ex_keep. by destruct (decide _). }
  assert (Hex : forall (d : oid), d <> 31%positive -> forall A (m : D A) mo mr s,
    wp m (fun r => driven (fun _ => eq) (mo r) mr d s) s -> wp m (fun r => driven ex_keep (mo r) mr d s) s).
  { intros d Hd A m mo mr s Hw. eapply wp_mono; [exact Hw|]. intros r s'. apply Hkeep. }
  split.
  - intros x a. unfold ex_keep. by destruct (decide _).
  - intros x a b c. unfold ex_keep. destruct (decide _); [by auto|congruence].
  - intros x a b. unfold ex_keep. destruct (decide _); [by auto|congruence].
  - intros d s v Hn ->. specialize (Hn eq_refl). cbn [devs set_devs kern]. by rewrite upd_ne.
  - intros d m. unfold ex_ops2. destruct (decide (d = 31%positive)) as [->|Hd]; [done|]. intros E s _.
    eapply wp_mono; [by apply (do_init _ _ _ ex_drivers d m E s)|]. intros r s' [Hk _]. split; [by apply Hkeep|done].
  - intros d m. unfold ex_ops2. destruct (decide (d = 31%positive)) as [->|Hd].
    + intros [= <-] f s Hn. by apply ex_opens.
    + intros E f s _. apply (Hex d Hd _ _ ok_result false s). by apply (do_open _ _ _ ex_drivers d m E).
  - intros d m. unfold ex_ops2. destruct (decide (d = 31%positive)) as [->|Hd].
    + intros [= <-] s _. wp_step. apply wp_dev_upd. wp_step. split; cbn [devs set_devs]; [rewrite upd_eq; apply ex_resets|].
      destruct (ex_resets (devs s 31%positive)) as [_ Ha _ _ _]. split; cbn [devs set_devs]; [by rewrite upd_eq|].
      intros x Hx. rewrite upd_ne by done. unfold ex_keep. by destruct (decide _).
    + intros E s _. apply (Hex d Hd _ _ ok_result true s). by apply (do_close _ _ _ ex_drivers d m E).
  - intros d m. unfold ex_ops2. destruct (decide (d = 31%positive)) as [->|Hd]; [done|]. intros E p b n s _.
    apply (Hex d Hd _ _ (fun _ => false) false s). by apply (do_read _ _ _ ex_drivers d m E).
  - intros d m. unfold ex_ops2. destruct (decide (d = 31%positive)) as [->|Hd]; [done|]. intros E p b n s _.
    apply (Hex d Hd _ _ (fun _ => false) false s). by apply (do_write _ _ _ ex_drivers d m E).
  - intros d m. unfold ex_ops2. destruct (decide (d = 31%positive)) as [->|Hd].
    + intros [= <-] c a s _. apply ex_own_upd, ex_suspends.
    + intros E c a s _. apply (Hex d Hd _ _ (fun _ => false) false s). by apply (do_control _ _ _ ex_drivers d m E).
Qed.

Definition ex_devs2 : dstate := set_kern (set_otype (upd (otype (kern ex_devs)) (OIpc 31) 0x89) (kern ex_devs)) ex_devs.
Definition ex_opened2 : dstate := match rt_device_open ex_ops2 31 3 ex_devs2 with Some (_, s) => s | None => ex_devs2 end.
Lemma ex_opened2_reachable : reachable 0 ex_needs ex_ops2 ex_opened2.
Proof.
  eapply (reach_call 0 _ ex_ops2 ex_devs2 (COpen 31 3) 0); [apply reach_start; intros d; by split| |].
  - split; [done|]. split; [|done]. intros _. split; [done|]. split; [split|]; done.
  - unfold ex_opened2. cbn [run_call]. by destruct (rt_device_open ex_ops2 31 3 ex_devs2) as [[r s]|] eqn:E; vm_compute in E; [injection E as <- <-|].
Qed.

(** A second opening of device 31 is refused; its close leaves device 30 open;
    with [eq] for [keep], device 30 alone. *)
Lemma rt_device_history_refines_ex :
  ((forall d, 0 <= ref_count (devs ex_opened2 d) <= 255 /\
     (0 < ref_count (devs ex_opened2 d) -> is_open (devs ex_opened2 d) = true /\ is_ready (devs ex_opened2 d) = true)) /\
   wp (run_call 0 ex_ops2 (CClose 31)) (fun r s' => others ex_keep 31 ex_opened2 s' /\
     does (standalone (devs ex_opened2 31)) (abs (devs ex_opened2 31)) (CClose 31) r (abs (devs s' 31))) ex_opened2) /\
  wp (run_call 0 ex_ops2 (COpen 31 1)) (fun r s' => r = - RT_EBUSY /\ abs (devs s' 31) = mkA 1 true true) ex_opened2 /\
  wp (run_call 0 ex_ops2 (CClose 31)) (fun r s' => r = RT_EOK /\ abs (devs s' 31) = mkA 0 false false /\
    abs (devs s' 30) = mkA 1 true true /\ hw s' 1 = 3) ex_opened2 /\
  wp (run_call 0 ex_ops (COpen 30 1)) (fun r s' => others (fun _ => eq) 30 ex_opened s' /\
    does (standalone (devs ex_opened 30)) (abs (devs ex_opened 30)) (COpen 30 1) r (abs (devs s' 30))) ex_opened.
Proof.
  split; [|split; [|split]].
  - apply (rt_device_history_refines 0 ex_needs ex_keep ex_ops2 ex_opened2 (CClose 31));
      [apply ex_drivers2|apply ex_opened2_reachable|]. split; [vm_compute; done|].
    split; [|done]. intros _. split; [vm_compute; done|]. split; [split|]; vm_compute; done.
  - vm_compute. by split_and!.
  - vm_compute. by split_and!.
  - refine (proj2 (rt_device_history_refines 0 (fun _ _ => True) (fun _ => eq) ex_ops ex_opened (COpen 30 1) ex_drivers ex_opened_reachable _)).
    split; [vm_compute; done|by split].
Defined.

Lemma rt_device_close_jams_ex :
  wp (rt_device_close ex_ops 30) (fun r s' => ok_result r = false /\ ref_count (devs s' 30) = 0 /\
    (forall oflag, wp (rt_device_open ex_ops 30 oflag) (fun r s'' => r = - RT_EBUSY /\ s'' = s') s') /\
    wp (rt_device_close ex_ops 30) (fun r s'' => r = - RT_ERROR /\ s'' = s') s' /\
    forall p b n, wp (rt_device_write 0 ex_ops 30 p b n) (fun r _ => r = 0) s') ex_opened.
Proof.
  apply (rt_device_close_jams 0 (fun _ _ => True) (fun _ => eq) ex_ops ex_opened 30 (mret (- RT_ERROR)));
    [apply ex_drivers|apply ex_opened_reachable|by split|vm_compute; done..|intros s; by wp_step].
Defined.

(** Thread 1 of [ex] in a critical section; no object is registered. *)
Definition ex_bare : dstate := mkD ex_calm (fun _ => mkDevice 0 0 0 0 None None) 0 None (fun _ => 0).
Lemma rt_device_register_roundtrip_ex :
  wp (r ← rt_device_register 0 ex_name_of (Some 30%positive) 3; o ← rt_device_find 0 ex_name_of (ex_name_of (OIpc 30));
      r2 ← rt_device_unregister 0 30; o2 ← rt_device_find 0 ex_name_of (ex_name_of (OIpc 30)); mret (r, o, r2, o2))
    (fun x s' => x = (RT_EOK, Some (OIpc 30), RT_EOK, None) /\ calm 0 0 (kern s') /\ represents [] (kern s')) ex_bare.
Proof.
  apply (rt_device_register_roundtrip 0 ex_name_of 0 [] ex_bare 30 3);
    [lia|apply ex_calm_ok|apply ex_calm_empty|apply not_elem_of_nil|done].
Defined.

Lemma rt_device_destroy_never_ex :
  wp (rt_device_create (Some 30%positive) 5) (fun _ s1 => rt_device_destroy 0 30 s1 = None /\
    wp (rt_device_register 0 ex_name_of (Some 30%positive) 3) (fun r s2 => r = RT_EOK /\ rt_device_destroy 0 30 s2 = None /\
      wp (rt_device_unregister 0 30) (fun r s3 => r = RT_EOK /\ rt_device_destroy 0 30 s3 = None) s2) s1) ex_bare.
Proof.
  apply (rt_device_destroy_never 0 ex_name_of 0 [] ex_bare 30 5 3);
    [lia|apply ex_calm_ok|apply ex_calm_empty|apply not_elem_of_nil|done].
Defined.
